(* ===== verification/_CoqProject ===== *)
-Q . S2P
Prelude.v
Dll.v
Structures.v
CapOps.v
CSpace.v
VSpace.v
Sched.v
DomSched.v
ReadyQueue.v
Schedule.v
Mdb.v
MdbInv.v
Messages.v
Objects.v
Ipc.v
Delete.v
Untyped.v
UntypedOps.v
CNodeInv.v
MmuInv.v
TcbInv.v
Interrupt.v
Domain.v
Syscall.v
Fastpath.v
Concrete.v
SchedOps.v
EpQueue.v
SchedThm.v
CSpaceThm.v
MdbThm.v
CapThm.v
MsgThm.v
IpcThm.v
IpcXfer.v
VSpaceThm.v
Frames.v
SlotInv.v
Finalise.v
Deletion.v
DeleteThm.v
UntypedThm.v
FastpathOps.v
FastpathThm.v
Bytes.v
Fat32.v
Fat32Names.v
FatTable.v
FatChain.v
FatData.v
FatDir.v
FatFile.v
FatThm.v
Boot.v
BootInv.v
BootFree.v
BootRoot.v
BootInit.v
BootUntyped.v
BootGrant.v
BootThm.v
