(* ===== verification/Prelude.v ===== *)
(** * The seL4 kernel of Psych Ward OS: a verification library

    Psych Ward OS is the seL4 microkernel (src/kernel) with user-level
    libraries and applications (src/projects).  This library models the
    file system of its block server and the platform-independent core of the
    kernel as it is configured by the
    repository (AArch64, one core, no hypervisor, no MCS, one domain, lazy FPU
    switching, GICv2) and proves what the code promises.

    ** How the program is modelled

    Code is a function in the state monad [K] of [Structures] over the kernel
    state [kstate]; [None] is a failed assertion, [fail(...)] or a pointer that
    designates no object.  [exception_t] results are ordinary values.  Every C
    function is one definition of the same name; a loop is a [Fixpoint] with
    fuel.  The heap is typed: one finite map per object type, by address;
    memory changes type where the source carries an AUXUPD annotation.
    Bitfield blocks are records, one field per bitfield; words are [Z] with
    [wadd], [wsub], [wshl], [wnot] wrapping at 64 bits.  Operations of the
    hardware (caches, TLB, FPU, interrupt controller, timer) that answer
    nothing are recorded, in order, in [ksMachine]; pending interrupts are read
    from [ksIRQPending].  Page tables are memory of the kernel: one map of
    entries by address, which the translation hardware walks ([hw_walk] of
    [VSpaceThm], the documented AArch64 walk of a 4 KiB granule).

    [wp m Q s] says that [m] run from [s] succeeds and satisfies [Q]: every
    theorem stated with it includes that no assertion fails.

    ** Fuel

    Loops over thread queues get [tcb_fuel], one more than the number of
    threads, and the theorems prove it enough.  [resolve_loop] gets one more
    than the number of address bits, and so does [lookup_fp_loop]: every level
    consumes one.  The reset loop
    of an untyped gets the number of its chunks, which [resetUntypedCap_spec]
    proves enough.  [lookupPTSlot_loop] gets the
    four levels of a page table, and [lookupPTSlot_translate] proves that it
    ends within them; the search loops over ASID pools run over their index
    ranges.  [cteDelete] and [cteRevoke], whose recursion is mutual and goes
    through the capabilities found in memory, take their fuel as an argument;
    [cteDelete_spec] and [cteRevoke_spec] prove [delete_fuel], the square of
    two more than the number of slots, enough for every deletion.

    ** The parts of the program and their files

    - [Prelude]: words, the monad, [wp] and its rules, tactics.
    - [Dll]: doubly linked lists in a heap, shared by the three list
      structures of the kernel.
    - [Structures]: capabilities, slots, threads, endpoints, notifications and
      the kernel state (include/object/structures*, include/model/statedata.h).
    - [CapOps]: the pure capability functions (object/objecttype.c); modules
      [Regions], [Rights] and [CapData] hold their algebra.
    - [CSpace]: address resolution (kernel/cspace.c) and its specification.
    - [VSpace]: page tables, address-space identifiers, unmapping and the
      choice of the current address space (arch/arm/64/kernel/vspace.c);
      [vm_ok] is the part of its state every other component relies on.
    - [Sched]: ready queues, bitmap, [schedule], timer, domains, FPU
      (kernel/thread.c, object/tcb.c, machine/fpu.c).  [DomSched],
      [ReadyQueue] and [Schedule] relate them to an abstract scheduler over
      lists of threads; [SchedOps] is the interface for the scheduler's
      clients: rules for [setThreadState], [rescheduleRequired] and
      [possibleSwitchTo] over the invariant [sched_inv].
    - [Mdb]: capability slots and the derivation list (object/cnode.c);
      [MdbInv] proves the operations on abstract lists.
    - [Messages], [Objects], [Ipc]: message registers and faults
      (api/faults.c), wait queues, cancellation and finalisation
      (object/endpoint.c, object/notification.c, object/objecttype.c), message
      transfer (kernel/thread.c, kernel/faulthandler.c).  [EpQueue] relates
      wait queues to lists ([ipc_wf]).
    - [Delete], [Untyped], [CNodeInv], [MmuInv], [TcbInv], [Interrupt],
      [Domain]: deletion and revocation, retyping, and the invocations of each object.
      [UntypedOps] holds the arithmetic of blocks and what creating an object
      does to the typed heap.
    - [Frames], [SlotInv], [Finalise], [Deletion]: what a part leaves alone
      ([respects]), the invariant of slots, containers and zombies ([slots_ok]),
      and the interface [Finaliser] between deletion and finalisation:
      [Deletion] is proved against it, [Finalise] proves that [finaliseCap]
      implements it.
    - [Syscall]: every system call and kernel entry (api/syscall.c), which
      composes all of the above.
    - [Fastpath]: the short versions of Call and ReplyRecv
      (fastpath/fastpath.c), which write the same structures directly and fall
      back to [handleSyscall].
    - [Concrete]: small states on which the theorems are applied.
    - [Bytes], [Fat32], [Fat32Names]: byte buffers, and the FAT32 file system
      of the block server (projects/sel4test/apps/sel4test-driver/src/fat32.cpp),
      which runs above the kernel.  The interface [BlockDevice] is the pair of
      functions the block driver installs; [ReliableDevice] states what a
      working device does.  [FatTable], [FatChain] and [FatData] hold the views
      of the table as a function, of chains as lists of clusters and of their
      sectors as bytes; [FatDir] the search of a directory as a function of its
      bytes, and [FatFile] the writing and reading of whole files.

    - [Boot]: the memory at boot (kernel/boot.c): reserved and free regions,
      the root server's objects and the untyped capabilities; the class
      [BootPlatform] holds what the build chooses.  [BootInv], [BootFree],
      [BootRoot] and [BootInit] hold the rules for the arrays, the division of
      the available memory and the layout of the objects; [BootUntyped] and
      [BootGrant] those for cutting regions into blocks.

    State flows through the parts as in the code: [Syscall] decodes and calls
    the invocations; these change slots through [Mdb], threads and objects
    through [Objects] and [Ipc], which set thread states and the scheduler
    action through [Sched]; a switch of thread installs the address space of
    the next thread ([setVMRoot] of [VSpace]); a kernel entry ends with [schedule] and
    [activateThread].

    ** What the theorems show

    - [SchedThm]: the scheduler implements its specification, which gives the
      next thread and the ready lists, the hardware operations that install its
      address space and its FPU state, and the domain schedule; what it picks
      dominates every ready thread, the timer shares a priority round-robin,
      and the queue, bitmap and domain operations act on abstract lists.
    - [VSpaceThm]: page-table lookup agrees with the hardware's walk; mapping
      and unmapping a frame changes the translation of that page and nothing
      else, in every address space, whatever a user asks for; deleting and
      assigning identifiers act on a table of identifiers, and a deletion
      installs the current thread's address space again.
    - [UntypedThm]: whatever a user asks of an untyped capability, the new
      objects lie inside the block, beyond everything allocated before,
      aligned, disjoint and zeroed, and their capabilities are children of the
      block's; a reset clears the block chunk by chunk, ends, and can be
      preempted between any two chunks.
    - [CSpaceThm]: resolution equals a recursive specification, faults
      included.
    - [MdbThm]: each slot operation is an operation on derivation lists.
    - [CapThm]: regions, identity, finality, rights, zombies; no copying
      invocation amplifies authority.
    - [DeleteThm]: deletion and revocation end, whatever hangs below the slot,
      keep every invariant of the kernel, create no capability, and leave the
      slot empty or childless unless an interrupt preempts them; a suspended
      thread is in no queue, and the reply capability it waited on is gone,
      wherever it was, and no other.
    - [MsgThm]: message words and registers are delivered exactly; a reply to a
      fault keeps the faulting thread in user mode and changes nothing but its
      registers.
    - [IpcThm]: blocking, waking and cancelling act on abstract wait queues,
      keep the scheduler and wait-queue invariants together ([kinv]), and the
      loops over the queues end.
    - [IpcXfer]: a send to a waiting receiver, and a receive from a waiting
      sender, deliver the message, its length and its badge to that thread and
      change nothing else ([ipc_rest]), when no capability is transferred and
      the send is no call.
    - [FastpathThm]: on the states the kernel is entered with, the fastpath
      computes what [handleSyscall] computes, up to fields that nothing reads
      ([forget] erases them).  [FastpathOps] holds the rules of its parts.

    - [FatThm]: the file system's cycle check is exact on every disk; chains
      are allocated from free clusters, linked, zeroed and freed as lists; what
      is written to a chain is read back, and nothing else on the disk changes;
      a file that has been written to the current directory is found and read
      back, and other files stay as they are.  Three runs on a concrete disk show where the code falls short:
      names that share a short form, a write to a full disk, and a long name
      left behind by a deletion.

    - [BootThm]: reserved regions stay an ordered list of disjoint regions; the
      available memory is divided into the root server's objects and free
      regions, and recorded as reserved; the untyped capabilities made at boot
      are aligned, overlap nowhere, hold no memory of the kernel or of the root
      server's objects, leave every other slot alone, and lose nothing of the
      free regions whose ends are 16-byte aligned; the loops end.

    ** Not modelled

    The debug system calls (console output), at boot the mapping of the
    kernel's own window, the root server's address space and the first
    threads, and the code the configuration leaves out: MCS, SMP,
    hypervisor, SMMU, x86 and RISC-V, the fastpaths of signals and faults.  The TLB and the caches
    have no state of their own: their maintenance is recorded.  Invocation
    labels (generated by the build), the fault registers and the registers of
    the interrupt controller are parameters of [Syscall].  The user-level
    libraries, the root server, the shell and the device drivers run outside
    the kernel and are left out. *)
From Stdlib Require Import ZArith Lia.
From stdpp Require Import base list option gmap.
From Hammer Require Import Tactics.

#[global] Open Scope Z_scope.

(** ** Machine words

    [word_t] is a 64-bit unsigned integer: a [Z] kept in [0, 2^64).  The C
    operators that can wrap are the [w]-prefixed functions; shifts and masks
    follow [BIT] and [MASK] of include/util.h. *)

Definition wordRadix : Z := 6.
Definition wordBits : Z := 64.
Definition wordSize : Z := 8.
Definition word_modulus : Z := 2 ^ 64.

Definition wrap (x : Z) : Z := x mod word_modulus.
Definition wadd (a b : Z) : Z := wrap (a + b).
Definition wsub (a b : Z) : Z := wrap (a - b).
Definition wshl (a n : Z) : Z := wrap (Z.shiftl a n).
Definition wnot (a : Z) : Z := word_modulus - 1 - a.

Definition BIT (n : Z) : Z := wshl 1 n.
Definition MASK (n : Z) : Z := wsub (BIT n) 1.

Definition is_word (x : Z) : Prop := 0 <= x < word_modulus.

(** ** The kernel monad

    Kernel code is stateful and can hit an assertion, dereference a pointer
    that designates no object of the expected type, or fall into
    [fail("...")].  [None] is that stuck outcome; exceptions of the C code
    ([exception_t]) are ordinary return values. *)
Definition M (St A : Type) : Type := St -> option (A * St).

Definition ret {St A} (a : A) : M St A := fun s => Some (a, s).
Definition bind {St A B} (m : M St A) (k : A -> M St B) : M St B :=
  fun s => match m s with Some (a, s') => k a s' | None => None end.
Definition fail {St A} : M St A := fun _ => None.
Definition gets {St A} (f : St -> A) : M St A := fun s => Some (f s, s).
Definition modify {St} (f : St -> St) : M St unit := fun s => Some (tt, f s).
Definition assert {St} (b : bool) : M St unit := if b then ret tt else fail.
Definition from_option_M {St A} (o : option A) : M St A :=
  match o with Some a => ret a | None => fail end.
Definition when {St} (b : bool) (m : M St unit) : M St unit :=
  if b then m else ret tt.

Declare Scope kernel_scope.
Delimit Scope kernel_scope with K.
Notation "'let*' p ':=' m 'in' k" := (bind m (fun p => k))
  (at level 10, p pattern, m at level 100, k at level 200)
  : kernel_scope.
Notation "m ;;; k" := (bind m (fun _ => k))
  (at level 100, k at level 200, right associativity) : kernel_scope.
#[global] Open Scope kernel_scope.

(** Total weakest precondition: [wp m Q s] says that [m] run from [s]
    returns (no assertion fails, no pointer dangles) and [Q] holds of the
    result and the final state. *)
Definition wp {St A} (m : M St A) (Q : A -> St -> Prop) (s : St) : Prop :=
  match m s with Some (a, s') => Q a s' | None => False end.

Section WpRules.
Context {St : Type}.

Lemma wp_ret {A} (a : A) (Q : A -> St -> Prop) s : Q a s -> wp (ret a) Q s.
Proof. done. Qed.

Lemma wp_bind {A B} (m : M St A) (k : A -> M St B) Q s :
  wp m (fun a => wp (k a) Q) s -> wp (bind m k) Q s.
Proof. unfold wp, bind. by destruct (m s) as [[a s']|]. Qed.

Lemma wp_bind_inv {A B} (m : M St A) (k : A -> M St B) Q s :
  wp (bind m k) Q s -> wp m (fun a => wp (k a) Q) s.
Proof. unfold wp, bind. by destruct (m s) as [[a s']|]. Qed.

Lemma wp_seq2 {A B C} (m1 : M St A) (m2 : M St B) (k : M St C) Q s :
  wp (m1 ;;; m2) (fun _ => wp k Q) s -> wp (m1 ;;; m2 ;;; k) Q s.
Proof. unfold wp, bind. destruct (m1 s) as [[a s1]|]; [|done]. by destruct (m2 s1) as [[b s2]|]. Qed.

Lemma wp_mono {A} (m : M St A) (Q Q' : A -> St -> Prop) s :
  wp m Q s -> (forall a s', Q a s' -> Q' a s') -> wp m Q' s.
Proof. unfold wp. destruct (m s) as [[a s']|]; auto. Qed.

Lemma wp_conj {A} (m : M St A) (Q Q' : A -> St -> Prop) s :
  wp m Q s -> wp m Q' s -> wp m (fun a s' => Q a s' /\ Q' a s') s.
Proof. unfold wp. destruct (m s) as [[a s']|]; auto. Qed.

Lemma wp_gets {A} (f : St -> A) (Q : A -> St -> Prop) s :
  Q (f s) s -> wp (gets f) Q s.
Proof. done. Qed.

Lemma wp_modify (f : St -> St) (Q : unit -> St -> Prop) s :
  Q tt (f s) -> wp (modify f) Q s.
Proof. done. Qed.

Lemma wp_assert (b : bool) (Q : unit -> St -> Prop) s :
  b = true -> Q tt s -> wp (assert b) Q s.
Proof. by intros ->. Qed.

Lemma wp_from_option {A} (o : option A) a (Q : A -> St -> Prop) s :
  o = Some a -> Q a s -> wp (from_option_M o) Q s.
Proof. by intros ->. Qed.

Lemma wp_when (b : bool) (m : M St unit) (Q : unit -> St -> Prop) s :
  (if b then wp m Q s else Q tt s) -> wp (when b m) Q s.
Proof. by destruct b. Qed.

(** A triple established once can be used from its outcome. *)
Lemma wp_run {A} (m : M St A) (Q : A -> St -> Prop) s :
  wp m Q s <-> exists a s', m s = Some (a, s') /\ Q a s'.
Proof.
  unfold wp. split.
  - destruct (m s) as [[a s']|]; [eauto | done].
  - by intros (a & s' & -> & ?).
Qed.
End WpRules.

(** One step of symbolic execution on the structural connectives. *)
Ltac wp_struct :=
  lazymatch goal with
  | |- wp (bind _ _) _ _ => apply wp_bind
  | |- wp (ret _) _ _ => apply wp_ret
  | |- wp (gets _) _ _ => apply wp_gets
  | |- wp (modify _) _ _ => apply wp_modify
  | |- wp (assert _) _ _ => apply wp_assert; [try done|]
  | |- wp (when _ _) _ _ => apply wp_when
  end; cbv beta.

(** ** Loops *)
(** [for (i = lo; i < hi; i++) body], at most [n] iterations. *)
Fixpoint for_loop {St} (n : nat) (i hi : Z) (body : Z -> M St unit) : M St unit :=
  match n with
  | O => ret tt
  | S n' => if i <? hi then body i ;;; for_loop n' (i + 1) hi body else ret tt
  end.
Definition for_ {St} (lo hi : Z) (body : Z -> M St unit) : M St unit :=
  for_loop (Z.to_nat (hi - lo)) lo hi body.

Lemma wp_for_loop {St} n lo hi (body : Z -> M St unit) (I : Z -> St -> Prop) Q s :
  Z.of_nat n = hi - lo -> I lo s ->
  (forall i s, lo <= i < hi -> I i s -> wp (body i) (fun _ => I (i + 1)) s) ->
  (forall s, I hi s -> Q tt s) ->
  wp (for_loop n lo hi body) Q s.
Proof.
  revert lo s. induction n as [|n IH]; intros lo s Hn H0 Hstep HQ; cbn [for_loop].
  - wp_struct. apply HQ. by replace hi with lo by lia.
  - rewrite (proj2 (Z.ltb_lt lo hi)) by lia. wp_struct.
    eapply wp_mono; [apply Hstep; [lia|exact H0]|]. intros [] s' HI.
    apply IH; [lia|exact HI| |exact HQ]. intros i s0 Hi. apply Hstep. lia.
Qed.

(** The loop rule: an invariant indexed by the loop counter. *)
Lemma wp_for {St} lo hi (body : Z -> M St unit) (I : Z -> St -> Prop) Q s :
  lo <= hi -> I lo s ->
  (forall i s, lo <= i < hi -> I i s -> wp (body i) (fun _ => I (i + 1)) s) ->
  (forall s, I hi s -> Q tt s) ->
  wp (for_ lo hi body) Q s.
Proof. intros Hle. apply wp_for_loop. lia. Qed.

(** Record field updates: [mk_setter eta proj] is the function that applies
    its first argument to field [proj] and copies every other field. *)
Ltac mk_setter eta proj :=
  intros f r;
  let e := eval cbv beta delta [eta] in (eta r) in
  let e' := eval pattern (proj r) in e in
  lazymatch e' with
  | ?F _ => let res := eval cbv beta in (F (f (proj r))) in exact res
  end.

Create HintDb kernel.

(** ** Facts on words *)
Lemma word_modulus_pos : 0 < word_modulus.
Proof. done. Qed.

Lemma wrap_small x : is_word x -> wrap x = x.
Proof. unfold wrap, is_word. intros. by apply Z.mod_small. Qed.

Lemma wrap_is_word x : is_word (wrap x).
Proof. unfold is_word, wrap. apply Z.mod_pos_bound. done. Qed.

Lemma wadd_small a b : is_word (a + b) -> wadd a b = a + b.
Proof. apply wrap_small. Qed.

Lemma wsub_small a b : is_word (a - b) -> wsub a b = a - b.
Proof. apply wrap_small. Qed.

Lemma BIT_pow n : 0 <= n < wordBits -> BIT n = 2 ^ n.
Proof.
  unfold BIT, wshl, wordBits. intros H. rewrite Z.shiftl_1_l. apply wrap_small.
  split; [lia|]. apply Z.pow_lt_mono_r; lia.
Qed.

Lemma BIT_pos n : 0 <= n < wordBits -> 0 < BIT n.
Proof. intros H. rewrite BIT_pow by done. apply Z.pow_pos_nonneg; lia. Qed.

Lemma pow2_is_word n : 0 <= n < wordBits -> is_word (2 ^ n).
Proof.
  unfold is_word, word_modulus, wordBits. split; [lia|].
  apply Z.pow_lt_mono_r; lia.
Qed.

Lemma MASK_ones n : 0 <= n < wordBits -> MASK n = Z.ones n.
Proof.
  intros H. unfold MASK. rewrite BIT_pow by done.
  pose proof (pow2_is_word n H) as [? ?].
  rewrite wsub_small; [rewrite Z.ones_equiv; lia|].
  assert (0 < 2 ^ n) by (apply Z.pow_pos_nonneg; lia).
  unfold is_word in *. lia.
Qed.

Lemma MASK_pow n : 0 <= n < wordBits -> MASK n = 2 ^ n - 1.
Proof. intros. rewrite MASK_ones, Z.ones_equiv by done. lia. Qed.

Lemma land_MASK x n : 0 <= n < wordBits -> Z.land x (MASK n) = x mod 2 ^ n.
Proof. intros. rewrite MASK_ones by done. apply Z.land_ones. lia. Qed.

Lemma wnot_lnot x : is_word x -> wnot x = Z.land (Z.lnot x) (Z.ones 64).
Proof.
  unfold is_word, wnot, word_modulus. intros H. rewrite Z.land_ones by lia.
  unfold Z.lnot. rewrite <- (Z.mod_add (Z.pred (- x)) 1) by lia.
  rewrite Z.mod_small; lia.
Qed.

(** Clearing the low [n] bits of a word is rounding down to a multiple. *)
Lemma land_wnot_MASK x n :
  is_word x -> 0 <= n < wordBits -> Z.land x (wnot (MASK n)) = x - x mod 2 ^ n.
Proof.
  intros Hx Hn.
  assert (Hm : is_word (MASK n)) by apply wrap_is_word.
  rewrite wnot_lnot by done.
  rewrite MASK_ones by done.
  rewrite Z.land_assoc, <- Z.ldiff_land.
  rewrite Z.land_ones by lia.
  rewrite Z.ldiff_ones_r by lia.
  rewrite Z.shiftr_div_pow2, Z.shiftl_mul_pow2 by lia.
  assert (Hp : 0 < 2 ^ n) by (apply Z.pow_pos_nonneg; lia).
  replace (x / 2 ^ n * 2 ^ n) with (x - x mod 2 ^ n)
    by (rewrite Z.mod_eq by lia; lia).
  unfold is_word, word_modulus in Hx.
  pose proof (Z.mod_pos_bound x (2 ^ n) Hp).
  pose proof (Z.mod_le x (2 ^ n)).
  apply Z.mod_small. lia.
Qed.

(** ** Boolean conditions *)
Ltac bool_hyps := repeat match goal with
  | H : _ && _ = true |- _ => apply andb_true_iff in H as [? ?]
  | H : _ || _ = false |- _ => apply orb_false_iff in H as [? ?]
  | H : negb _ = true |- _ => apply negb_true_iff in H
  | H : negb _ = false |- _ => apply negb_false_iff in H
  | H : (_ =? _) = true |- _ => apply Z.eqb_eq in H
  | H : (_ =? _) = false |- _ => apply Z.eqb_neq in H
  | H : (_ <=? _) = true |- _ => apply Z.leb_le in H
  | H : (_ <=? _) = false |- _ => apply Z.leb_gt in H
  | H : (_ <? _) = true |- _ => apply Z.ltb_lt in H
  | H : (_ <? _) = false |- _ => apply Z.ltb_ge in H
  | H : bool_decide _ = true |- _ => apply bool_decide_eq_true in H
  | H : bool_decide _ = false |- _ => apply bool_decide_eq_false in H
  | H : Bool.eqb _ _ = true |- _ => apply Bool.eqb_prop in H
  end; simplify_eq.

Ltac bool_goal :=
  rewrite ?andb_true_iff, ?Z.eqb_eq, ?Z.leb_le, ?Z.ltb_lt, ?bool_decide_eq_true,
    ?Bool.eqb_true_iff.

(** ** Bits of words *)
Lemma is_word_spec x : is_word x <-> 0 <= x /\ forall b, 64 <= b -> Z.testbit x b = false.
Proof.
  unfold is_word, word_modulus. split.
  - intros [H0 H]. split; [done|]. intros b Hb.
    destruct (decide (x = 0)) as [->|]; [apply Z.bits_0|].
    apply Z.bits_above_log2; [done|]. apply Z.log2_lt_pow2; [lia|].
    eapply Z.lt_le_trans; [exact H|]. apply Z.pow_le_mono_r; lia.
  - intros [H0 H]. split; [done|].
    destruct (decide (x = 0)) as [->|]; [lia|].
    destruct (Z.lt_ge_cases x (2 ^ 64)) as [|Hge]; [done|].
    assert (Hl : 64 <= Z.log2 x) by (apply Z.log2_le_pow2; lia).
    pose proof (Z.bit_log2 x ltac:(lia)) as Hb. by rewrite H in Hb.
Qed.

Lemma is_word_lor x y : is_word x -> is_word y -> is_word (Z.lor x y).
Proof.
  rewrite !is_word_spec. intros [? Hx] [? Hy]. split; [by apply Z.lor_nonneg|].
  intros b Hb. by rewrite Z.lor_spec, Hx, Hy.
Qed.

Lemma is_word_land x y : is_word x -> is_word y -> is_word (Z.land x y).
Proof.
  rewrite !is_word_spec. intros [? Hx] [? Hy]. split; [apply Z.land_nonneg; lia|].
  intros b Hb. by rewrite Z.land_spec, Hx.
Qed.

Lemma is_word_wnot x : is_word x -> is_word (wnot x).
Proof. unfold is_word, wnot. lia. Qed.

Lemma is_word_BIT n : is_word (BIT n).
Proof. apply wrap_is_word. Qed.

Lemma testbit_BIT n b : 0 <= n < wordBits -> 0 <= b -> Z.testbit (BIT n) b = (n =? b).
Proof.
  intros. rewrite BIT_pow by done. rewrite Z.pow2_bits_eqb by lia. done.
Qed.

Lemma testbit_wnot x b : is_word x -> 0 <= b < wordBits -> Z.testbit (wnot x) b = negb (Z.testbit x b).
Proof.
  unfold wordBits. intros. rewrite wnot_lnot, Z.land_spec, Z.lnot_spec, Z.testbit_ones_nonneg by (done || lia).
  destruct (Z.ltb_spec b 64); [by rewrite andb_true_r|lia].
Qed.

Lemma word_log2 x : is_word x -> x <> 0 -> 0 <= Z.log2 x < wordBits.
Proof.
  unfold is_word, word_modulus, wordBits. intros [H0 H] Hx.
  split; [apply Z.log2_nonneg|]. apply Z.log2_lt_pow2; lia.
Qed.

Lemma word_zero x : is_word x -> (forall b, 0 <= b < wordBits -> Z.testbit x b = false) -> x = 0.
Proof.
  intros Hx Hb. destruct (decide (x = 0)) as [|Hn]; [done|].
  pose proof (word_log2 x Hx Hn) as Hl.
  pose proof (Z.bit_log2 x ltac:(unfold is_word in Hx; lia)) as Hbit.
  by rewrite Hb in Hbit.
Qed.

(** Rounding to a power of two. *)
Lemma mod_pow2_bound x n : 0 <= n -> 0 <= x mod 2 ^ n < 2 ^ n.
Proof. intros. apply Z.mod_pos_bound, Z.pow_pos_nonneg; lia. Qed.

(** ** Views of a heap *)
Lemma fmap_insert_same {A B} (f : A -> B) (m : gmap Z A) x t t' :
  m !! x = Some t -> f t' = f t -> f <$> <[x := t']> m = f <$> m.
Proof.
  intros Hm Hf. rewrite fmap_insert, Hf. apply insert_id. by rewrite lookup_fmap, Hm.
Qed.
