(* ===== verification/Dll.v ===== *)
(** * Doubly linked lists in a pointer heap

    The kernel keeps three intrusive doubly linked lists: the mapping
    database over capability slots, the endpoint and notification queues and
    the ready queues over TCBs.  This file is their shared theory.  A heap is
    seen through two functions, [nx] and [pv], that read the next and the
    previous pointer of an address ([0] is the null pointer); a list of
    addresses is the abstract value. *)
From S2P Require Import Prelude.
From stdpp Require Import base list sets.
#[local] Open Scope Z_scope.

(** First and last element of a list, with a default. *)
Definition hd_or (d : Z) (l : list Z) : Z :=
  match l with [] => d | x :: _ => x end.

Fixpoint last_or (d : Z) (l : list Z) : Z :=
  match l with [] => d | x :: l' => last_or x l' end.

(** [dseg nx pv p l n]: the cells of [l] are linked in order, the first one
    pointing back to [p] and the last one pointing forward to [n]. *)
Fixpoint dseg (nx pv : Z -> Z) (p : Z) (l : list Z) (n : Z) : Prop :=
  match l with
  | [] => True
  | x :: l' => pv x = p /\ nx x = hd_or n l' /\ dseg nx pv x l' n
  end.

(** A complete list: null-terminated both ways, no cell twice. *)
Record dlist (nx pv : Z -> Z) (l : list Z) : Prop := {
  dlist_nodup : NoDup l;
  dlist_nonnull : 0 ∉ l;
  dlist_seg : dseg nx pv 0 l 0
}.

Lemma hd_or_app d l1 l2 : hd_or d (l1 ++ l2) = hd_or (hd_or d l2) l1.
Proof. by destruct l1. Qed.

Lemma last_or_app d l1 l2 : last_or d (l1 ++ l2) = last_or (last_or d l1) l2.
Proof. revert d. induction l1 as [|x l1 IH]; intros d; [done|]. apply IH. Qed.

Lemma last_or_snoc d l x : last_or d (l ++ [x]) = x.
Proof. by rewrite last_or_app. Qed.

Lemma last_or_in d l : l <> [] -> last_or d l ∈ l.
Proof.
  revert d. induction l as [|x l IH]; intros d; [done|]. intros _. cbn.
  destruct l as [|y l]; [cbn; set_solver|]. right. by apply IH.
Qed.

Lemma last_or_default d d' l : l <> [] -> last_or d l = last_or d' l.
Proof. by destruct l. Qed.

Section Dseg.
Implicit Types (nx pv : Z -> Z) (l : list Z) (p n x : Z).

Lemma dseg_app nx pv p l1 l2 n :
  dseg nx pv p (l1 ++ l2) n <->
  dseg nx pv p l1 (hd_or n l2) /\ dseg nx pv (last_or p l1) l2 n.
Proof.
  revert p. induction l1 as [|x l1 IH]; intros p; cbn; [tauto|].
  rewrite IH, hd_or_app. tauto.
Qed.

(** Segments only depend on the pointers of their cells. *)
Lemma dseg_ext nx pv nx' pv' p l n :
  (forall x, x ∈ l -> nx' x = nx x /\ pv' x = pv x) ->
  dseg nx pv p l n -> dseg nx' pv' p l n.
Proof.
  revert p. induction l as [|x l IH]; intros p Hx; cbn; [done|].
  intros (Hp & Hn & Hs). destruct (Hx x) as [-> ->]; [set_solver|].
  split_and!; [done..|]. apply IH; [|done]. intros y Hy. apply Hx. set_solver.
Qed.

Lemma dlist_ext nx pv nx' pv' l :
  (forall x, x ∈ l -> nx' x = nx x /\ pv' x = pv x) ->
  dlist nx pv l -> dlist nx' pv' l.
Proof. intros Hx []. split; eauto using dseg_ext. Qed.

(** The forward pointer of the last cell can be redirected. *)
Lemma dseg_set_end nx pv nx' pv' p l z n m :
  nx' z = m -> pv' z = pv z ->
  (forall x, x ∈ l -> nx' x = nx x /\ pv' x = pv x) ->
  dseg nx pv p (l ++ [z]) n -> dseg nx' pv' p (l ++ [z]) m.
Proof.
  intros Hz Hpz Hx. rewrite !dseg_app. cbn. intros (H1 & H2 & H3 & _).
  split_and!; [|congruence|done|done]. eauto using dseg_ext.
Qed.

(** The backward pointer of the first cell can be redirected. *)
Lemma dseg_set_start nx pv nx' pv' p q y l n :
  pv' y = q -> nx' y = nx y ->
  (forall x, x ∈ l -> nx' x = nx x /\ pv' x = pv x) ->
  dseg nx pv p (y :: l) n -> dseg nx' pv' q (y :: l) n.
Proof.
  intros Hy Hny Hx. cbn. intros (H1 & H2 & H3).
  split_and!; [done|congruence|]. eauto using dseg_ext.
Qed.

Lemma dlist_mid nx pv l1 x l2 :
  dlist nx pv (l1 ++ x :: l2) -> pv x = last_or 0 l1 /\ nx x = hd_or 0 l2.
Proof. intros [_ _ H]. apply dseg_app in H as [_ H]. cbn in H. tauto. Qed.

Lemma dlist_nil nx pv : dlist nx pv [].
Proof. split; [constructor|set_solver|done]. Qed.

Lemma dlist_singleton nx pv x : x <> 0 -> nx x = 0 -> pv x = 0 -> dlist nx pv [x].
Proof. intros. split; [by apply NoDup_singleton|set_solver|done]. Qed.
End Dseg.

(** Case analysis of a list as empty or with a last element. *)
Lemma snoc_cases (l : list Z) : l = [] \/ exists l' z, l = l' ++ [z].
Proof. destruct l as [|z l'] using rev_ind; [by left|right; eauto]. Qed.

(** [NoDup] of a decomposed list as pairwise facts, for [set_solver]. *)
Ltac nodup_split :=
  repeat match goal with
  | H : NoDup (_ ++ _) |- _ => apply NoDup_app in H as (? & ? & ?)
  | H : NoDup (_ :: _) |- _ => apply NoDup_cons in H as [? ?]
  end.

Ltac nodup_solve :=
  repeat first
    [ apply NoDup_nil_2 | rewrite NoDup_app | rewrite NoDup_cons | split ];
  try done; try set_solver.

Lemma nodup_mid (l1 l2 : list Z) x : NoDup (l1 ++ x :: l2) -> x ∉ l1 /\ x ∉ l2.
Proof.
  rewrite NoDup_app, NoDup_cons. intros (_ & H & H2 & _). split; [|done].
  intros Hx. apply (H x Hx). by left.
Qed.

Lemma nodup_disjoint (l1 l2 : list Z) x y : NoDup (l1 ++ l2) -> x ∈ l1 -> y ∈ l2 -> x <> y.
Proof. rewrite NoDup_app. intros (_ & H & _) Hx Hy ->. by apply (H y). Qed.

Lemma hd_or_in d l : l <> [] -> hd_or d l ∈ l.
Proof. destruct l; [done|]. intros _. by left. Qed.

(** ** Removal from a list *)
Definition del (x : Z) (l : list Z) : list Z := filter (fun y => y <> x) l.

Lemma del_notin x l : x ∉ l -> del x l = l.
Proof.
  unfold del. induction l as [|y l IH]; intros H; [done|]. rewrite filter_cons_True by set_solver.
  f_equal. apply IH. set_solver.
Qed.

Lemma del_split x l1 l2 : x ∉ l1 -> x ∉ l2 -> del x (l1 ++ x :: l2) = l1 ++ l2.
Proof.
  intros H1 H2. unfold del. rewrite filter_app, filter_cons_False by tauto.
  f_equal; by apply del_notin.
Qed.

Lemma elem_of_del x y l : y ∈ del x l <-> y <> x /\ y ∈ l.
Proof. unfold del. by rewrite list_elem_of_filter. Qed.

Section DlistOps.
Implicit Types (nx pv : Z -> Z) (l : list Z) (p n x : Z).

(** Insertion of a fresh cell [b] right after [a]. *)
Lemma dlist_insert_after nx pv nx' pv' l1 a b l2 :
  dlist nx pv (l1 ++ a :: l2) ->
  b <> 0 -> b ∉ l1 ++ a :: l2 ->
  nx' a = b -> nx' b = nx a -> pv' b = a ->
  (nx a <> 0 -> pv' (nx a) = b) ->
  (forall x, x <> a -> x <> b -> nx' x = nx x) ->
  (forall x, x <> nx a -> x <> b -> pv' x = pv x) ->
  dlist nx' pv' (l1 ++ a :: b :: l2).
Proof.
  intros Hd Hb Hbl Hna Hnb Hpb Hpn Hnx Hpv.
  pose proof (dlist_mid _ _ _ _ _ Hd) as [Hpa Hnxa].
  destruct Hd as [Hnd H0 Hs].
  split; [nodup_split; nodup_solve|set_solver|].
  apply dseg_app in Hs as [Hs1 Hs2].
  assert (Ha : pv' a = pv a).
  { apply Hpv; [|set_solver]. rewrite Hnxa. destruct l2; cbn; nodup_split; set_solver. }
  apply dseg_app; split.
  - cbn in *. eapply dseg_ext; [|done]. intros x Hx. split.
    + apply Hnx; nodup_split; set_solver.
    + apply Hpv; [|set_solver]. rewrite Hnxa. destruct l2; cbn; nodup_split; set_solver.
  - cbn in *. destruct Hs2 as (Hs2 & Hs3 & Hs4).
    split_and!; try congruence.
    destruct l2 as [|y l2]; [done|]. cbn in Hnxa.
    eapply dseg_set_start; [|..|exact Hs4].
    + rewrite <- Hnxa. apply Hpn. rewrite Hnxa. set_solver.
    + apply Hnx; nodup_split; set_solver.
    + intros x Hx. split; [apply Hnx|apply Hpv]; try rewrite Hnxa; nodup_split; set_solver.
Qed.

(** Removal of the cell [a]. *)
Lemma dlist_remove nx pv nx' pv' l1 a l2 :
  dlist nx pv (l1 ++ a :: l2) ->
  (pv a <> 0 -> nx' (pv a) = nx a) ->
  (nx a <> 0 -> pv' (nx a) = pv a) ->
  (forall x, x <> a -> x <> pv a -> nx' x = nx x) ->
  (forall x, x <> a -> x <> nx a -> pv' x = pv x) ->
  dlist nx' pv' (l1 ++ l2).
Proof.
  intros Hd Hnp Hpn Hnx Hpv.
  pose proof (dlist_mid _ _ _ _ _ Hd) as [Hpa Hnxa].
  destruct Hd as [Hnd H0 Hs].
  split; [nodup_split; nodup_solve|set_solver|].
  apply dseg_app in Hs as [Hs1 Hs2]. cbn in Hs1, Hs2.
  destruct Hs2 as (_ & _ & Hs2).
  assert (Hout : forall x, x ∈ l1 -> x <> a /\ x <> hd_or 0 l2).
  { intros x Hx. destruct l2; cbn; nodup_split; set_solver. }
  assert (Hin : forall x, x ∈ l2 -> x <> a /\ x <> last_or 0 l1).
  { intros x Hx. destruct (snoc_cases l1) as [->|(l1' & z & ->)];
      rewrite ?last_or_snoc; cbn; nodup_split; set_solver. }
  apply dseg_app; split.
  - destruct (snoc_cases l1) as [->|(l1' & z & ->)]; [done|].
    rewrite last_or_snoc in Hpa.
    eapply dseg_set_end; [..|exact Hs1].
    + rewrite <- Hpa, <- Hnxa. apply Hnp. rewrite Hpa. set_solver.
    + destruct (Hout z); [set_solver|]. apply Hpv; congruence.
    + intros x Hx. destruct (Hout x); [set_solver|]. split.
      * apply Hnx; [done|]. rewrite Hpa. nodup_split; set_solver.
      * apply Hpv; congruence.
  - destruct l2 as [|y l2]; [done|]. cbn in Hnxa, Hout.
    eapply dseg_set_start; [..|exact Hs2].
    + rewrite <- Hnxa, <- Hpa. apply Hpn. rewrite Hnxa. set_solver.
    + destruct (Hin y); [set_solver|]. apply Hnx; congruence.
    + intros x Hx. destruct (Hin x); [set_solver|]. split.
      * apply Hnx; congruence.
      * apply Hpv; [done|]. rewrite Hnxa. nodup_split; set_solver.
Qed.

(** Replacement of the cell [a] by a fresh cell [b]. *)
Lemma dlist_replace nx pv nx' pv' l1 a b l2 :
  dlist nx pv (l1 ++ a :: l2) ->
  b <> 0 -> b ∉ l1 ++ a :: l2 ->
  nx' b = nx a -> pv' b = pv a ->
  (pv a <> 0 -> nx' (pv a) = b) ->
  (nx a <> 0 -> pv' (nx a) = b) ->
  (forall x, x <> a -> x <> b -> x <> pv a -> nx' x = nx x) ->
  (forall x, x <> a -> x <> b -> x <> nx a -> pv' x = pv x) ->
  dlist nx' pv' (l1 ++ b :: l2).
Proof.
  intros Hd Hb Hbl Hnb Hpb Hnp Hpn Hnx Hpv.
  pose proof (dlist_mid _ _ _ _ _ Hd) as [Hpa Hnxa].
  destruct Hd as [Hnd H0 Hs].
  split; [nodup_split; nodup_solve|set_solver|].
  apply dseg_app in Hs as [Hs1 Hs2]. cbn in Hs1, Hs2.
  destruct Hs2 as (_ & _ & Hs2).
  assert (Hout : forall x, x ∈ l1 -> x <> a /\ x <> b /\ x <> hd_or 0 l2).
  { intros x Hx. destruct l2; cbn; nodup_split; set_solver. }
  assert (Hin : forall x, x ∈ l2 -> x <> a /\ x <> b /\ x <> last_or 0 l1).
  { intros x Hx. destruct (snoc_cases l1) as [->|(l1' & z & ->)];
      rewrite ?last_or_snoc; cbn; nodup_split; set_solver. }
  apply dseg_app; split; cbn; [|split_and!; [congruence..|]].
  - destruct (snoc_cases l1) as [->|(l1' & z & ->)]; [done|].
    rewrite last_or_snoc in Hpa.
    eapply dseg_set_end; [..|exact Hs1].
    + rewrite <- Hpa. apply Hnp. rewrite Hpa. set_solver.
    + destruct (Hout z) as (?&?&?); [set_solver|]. apply Hpv; congruence.
    + intros x Hx. destruct (Hout x) as (?&?&?); [set_solver|]. split.
      * apply Hnx; [done|done|]. rewrite Hpa. nodup_split; set_solver.
      * apply Hpv; congruence.
  - destruct l2 as [|y l2]; [done|]. cbn in Hnxa, Hout.
    eapply dseg_set_start; [..|exact Hs2].
    + rewrite <- Hnxa. apply Hpn. rewrite Hnxa. set_solver.
    + destruct (Hin y) as (?&?&?); [set_solver|]. apply Hnx; congruence.
    + intros x Hx. destruct (Hin x) as (?&?&?); [set_solver|]. split.
      * apply Hnx; congruence.
      * apply Hpv; [done|done|]. rewrite Hnxa. nodup_split; set_solver.
Qed.

(** Addition of a fresh cell at the end. *)
Lemma dlist_snoc nx pv nx' pv' l b :
  dlist nx pv l -> b <> 0 -> b ∉ l ->
  nx' b = 0 -> pv' b = last_or 0 l ->
  (l <> [] -> nx' (last_or 0 l) = b) ->
  (forall x, x ∈ l -> x <> last_or 0 l -> nx' x = nx x) ->
  (forall x, x ∈ l -> pv' x = pv x) ->
  dlist nx' pv' (l ++ [b]).
Proof.
  intros [Hnd H0 Hs] Hb Hbl Hnb Hpb Hlast Hnx Hpv.
  split; [nodup_solve|set_solver|].
  apply dseg_app; split; [|done]. cbn.
  destruct (snoc_cases l) as [->|(l' & z & ->)]; [done|].
  rewrite last_or_snoc in *.
  eapply dseg_set_end; [..|exact Hs].
  - apply Hlast. by destruct l'.
  - apply Hpv. set_solver.
  - intros x Hx. split; [apply Hnx; [set_solver|]|apply Hpv; set_solver].
    nodup_split. set_solver.
Qed.

(** Addition of a fresh cell at the front. *)
Lemma dlist_cons nx pv nx' pv' l b :
  dlist nx pv l -> b <> 0 -> b ∉ l ->
  pv' b = 0 -> nx' b = hd_or 0 l ->
  (l <> [] -> pv' (hd_or 0 l) = b) ->
  (forall x, x ∈ l -> nx' x = nx x) ->
  (forall x, x ∈ l -> x <> hd_or 0 l -> pv' x = pv x) ->
  dlist nx' pv' (b :: l).
Proof.
  intros [Hnd H0 Hs] Hb Hbl Hpb Hnb Hhead Hnx Hpv.
  split; [nodup_solve|set_solver|].
  cbn. split_and!; [done..|].
  destruct l as [|y l]; [done|]. cbn in *.
  eapply dseg_set_start; [..|exact Hs].
  - by apply Hhead.
  - apply Hnx. set_solver.
  - intros x Hx. split; [apply Hnx; set_solver|apply Hpv; [set_solver|]].
    nodup_split. set_solver.
Qed.
End DlistOps.
