(* ===== verification/Structures.v ===== *)
(** * Kernel data structures and the global state

    Data of include/object/structures.h and the bitfield blocks of
    include/object/structures_64.bf (capabilities, mapping-database nodes,
    thread states, faults), for the configuration Psych Ward OS builds:
    AArch64, single core, no MCS, no hypervisor.  A bitfield block is a record
    or a constructor with the block's fields; a field that a block narrows
    below a word is kept as the value the accessor returns.  The typed heaps
    of [kstate] hold one object type each, by address. *)
From S2P Require Import Prelude.
From stdpp Require Import base list gmap.
#[local] Open Scope Z_scope.

(** ** Constants (libsel4 sel4_arch/constants.h, object/structures.h) *)
Definition seL4_SlotBits : Z := 5.
Definition seL4_TCBBits : Z := 11.
Definition seL4_EndpointBits : Z := 4.
Definition seL4_NotificationBits : Z := 5.
Definition seL4_PageBits : Z := 12.
Definition seL4_LargePageBits : Z := 21.
Definition seL4_HugePageBits : Z := 30.
Definition seL4_PageTableBits : Z := 12.
Definition seL4_VSpaceBits : Z := 12.
Definition seL4_ASIDPoolBits : Z := 12.
Definition seL4_MinUntypedBits : Z := 4.
Definition seL4_MaxUntypedBits : Z := 47.
Definition seL4_MsgMaxLength : Z := 120.
Definition seL4_MsgMaxExtraCaps : Z := 3.
Definition seL4_MaxPrio : Z := 255.
Definition seL4_MinPrio : Z := 0.
Definition TCB_CNODE_RADIX : Z := 4.
Definition TCB_SIZE_BITS : Z := seL4_TCBBits - 1.
Definition CONFIG_NUM_PRIORITIES : Z := 256.
Definition CONFIG_RETYPE_FAN_OUT_LIMIT : Z := 256.
Definition CONFIG_MAX_NUM_WORK_UNITS_PER_PREEMPTION : Z := 100.
Definition CONFIG_TIME_SLICE : Z := 5.
Definition CONFIG_RESET_CHUNK_BITS : Z := 8.
Definition numDomains : Z := 1.
Definition L2_BITMAP_SIZE : Z := (CONFIG_NUM_PRIORITIES + wordBits - 1) / wordBits.

(** [enum tcb_cnode_index] *)
Definition tcbCTable : Z := 0.
Definition tcbVTable : Z := 1.
Definition tcbReply : Z := 2.
Definition tcbCaller : Z := 3.
Definition tcbBuffer : Z := 4.
Definition tcbCNodeEntries : Z := 5.
Definition tcbArchCNodeEntries : Z := tcbCNodeEntries.

(** [cte_t *p + i] and [TCB_PTR_CTE_PTR(p, i)] *)
Definition cte_offset (p i : Z) : Z := wadd p (wshl i seL4_SlotBits).
Definition TCB_PTR_CTE_PTR (p i : Z) : Z :=
  cte_offset (Z.land p (wnot (MASK seL4_TCBBits))) i.

(** ** Exceptions, errors and faults *)
Inductive exception_t :=
  | EXCEPTION_NONE | EXCEPTION_FAULT | EXCEPTION_LOOKUP_FAULT
  | EXCEPTION_SYSCALL_ERROR | EXCEPTION_PREEMPTED.
#[export] Instance exception_t_eq_dec : EqDecision exception_t.
Proof. solve_decision. Defined.

Definition is_none (e : exception_t) : bool := bool_decide (e = EXCEPTION_NONE).

Inductive seL4_Error :=
  | seL4_NoError | seL4_InvalidArgument | seL4_InvalidCapability
  | seL4_IllegalOperation | seL4_RangeError | seL4_AlignmentError
  | seL4_FailedLookup | seL4_TruncatedMessage | seL4_DeleteFirst
  | seL4_RevokeFirst | seL4_NotEnoughMemory.
#[export] Instance seL4_Error_eq_dec : EqDecision seL4_Error.
Proof. solve_decision. Defined.

Definition seL4_Error_code (e : seL4_Error) : Z :=
  match e with
  | seL4_NoError => 0 | seL4_InvalidArgument => 1 | seL4_InvalidCapability => 2
  | seL4_IllegalOperation => 3 | seL4_RangeError => 4 | seL4_AlignmentError => 5
  | seL4_FailedLookup => 6 | seL4_TruncatedMessage => 7 | seL4_DeleteFirst => 8
  | seL4_RevokeFirst => 9 | seL4_NotEnoughMemory => 10
  end.

Record syscall_error : Type := mk_syscall_error {
  se_invalidArgumentNumber : Z;
  se_invalidCapNumber : Z;
  se_rangeErrorMin : Z;
  se_rangeErrorMax : Z;
  se_memoryLeft : Z;
  se_failedLookupWasSource : bool;
  se_type : seL4_Error
}.

Definition eta_syscall_error (r : syscall_error) : syscall_error := mk_syscall_error
  (se_invalidArgumentNumber r) (se_invalidCapNumber r) (se_rangeErrorMin r)
  (se_rangeErrorMax r) (se_memoryLeft r) (se_failedLookupWasSource r)
  (se_type r).

Definition set_se_invalidArgumentNumber : (Z -> Z) -> syscall_error -> syscall_error :=
  ltac:(mk_setter eta_syscall_error se_invalidArgumentNumber).
Definition set_se_invalidCapNumber : (Z -> Z) -> syscall_error -> syscall_error :=
  ltac:(mk_setter eta_syscall_error se_invalidCapNumber).
Definition set_se_rangeErrorMin : (Z -> Z) -> syscall_error -> syscall_error :=
  ltac:(mk_setter eta_syscall_error se_rangeErrorMin).
Definition set_se_rangeErrorMax : (Z -> Z) -> syscall_error -> syscall_error :=
  ltac:(mk_setter eta_syscall_error se_rangeErrorMax).
Definition set_se_memoryLeft : (Z -> Z) -> syscall_error -> syscall_error :=
  ltac:(mk_setter eta_syscall_error se_memoryLeft).
Definition set_se_failedLookupWasSource : (bool -> bool) -> syscall_error -> syscall_error :=
  ltac:(mk_setter eta_syscall_error se_failedLookupWasSource).
Definition set_se_type : (seL4_Error -> seL4_Error) -> syscall_error -> syscall_error :=
  ltac:(mk_setter eta_syscall_error se_type).

Inductive lookup_fault :=
  | lookup_fault_invalid_root
  | lookup_fault_missing_capability (bitsLeft : Z)
  | lookup_fault_depth_mismatch (bitsFound bitsLeft : Z)
  | lookup_fault_guard_mismatch (guardFound bitsLeft bitsFound : Z).

Inductive seL4_Fault :=
  | seL4_Fault_NullFault
  | seL4_Fault_CapFault (address : Z) (inReceivePhase : bool)
  | seL4_Fault_UnknownSyscall (syscallNumber : Z)
  | seL4_Fault_UserException (number code : Z)
  | seL4_Fault_VMFault (address FSR : Z) (instructionFault : bool).

(** [enum vm_page_size] and [enum vm_rights] *)
Inductive vm_page_size := ARMSmallPage | ARMLargePage | ARMHugePage.
#[export] Instance vm_page_size_eq_dec : EqDecision vm_page_size.
Proof. solve_decision. Defined.
Inductive vm_rights := VMKernelOnly | VMReadWrite | VMReadOnly.
#[export] Instance vm_rights_eq_dec : EqDecision vm_rights.
Proof. solve_decision. Defined.

(** ** Capabilities ([tagged_union cap capType]) *)
Inductive cap :=
  | cap_null_cap
  | cap_untyped_cap (capFreeIndex : Z) (capIsDevice : bool) (capBlockSize capPtr : Z)
  | cap_endpoint_cap (capEPBadge : Z)
      (capCanGrantReply capCanGrant capCanSend capCanReceive : bool) (capEPPtr : Z)
  | cap_notification_cap (capNtfnBadge : Z) (capNtfnCanReceive capNtfnCanSend : bool)
      (capNtfnPtr : Z)
  | cap_reply_cap (capReplyCanGrant capReplyMaster : bool) (capTCBPtr : Z)
  | cap_cnode_cap (capCNodeRadix capCNodeGuardSize capCNodeGuard capCNodePtr : Z)
  | cap_thread_cap (capTCBPtr : Z)
  | cap_irq_control_cap
  | cap_irq_handler_cap (capIRQ : Z)
  | cap_zombie_cap (capZombieID capZombieType : Z)
  | cap_domain_cap
  | cap_frame_cap (capFMappedASID capFBasePtr : Z) (capFSize : vm_page_size)
      (capFMappedAddress : Z) (capFVMRights : vm_rights) (capFIsDevice : bool)
  | cap_page_table_cap (capPTMappedASID capPTBasePtr : Z) (capPTIsMapped : bool)
      (capPTMappedAddress : Z)
  | cap_vspace_cap (capVSMappedASID capVSBasePtr : Z) (capVSIsMapped : bool)
  | cap_asid_control_cap
  | cap_asid_pool_cap (capASIDBase capASIDPool : Z)
  | cap_sgi_signal_cap (capSGIIRQ capSGITarget : Z).
#[export] Instance cap_eq_dec : EqDecision cap.
Proof. solve_decision. Defined.

Definition cap_is_null (c : cap) : bool :=
  match c with cap_null_cap => true | _ => false end.
Definition cap_is_cnode (c : cap) : bool :=
  match c with cap_cnode_cap _ _ _ _ => true | _ => false end.
Definition cap_is_untyped (c : cap) : bool :=
  match c with cap_untyped_cap _ _ _ _ => true | _ => false end.

(** [isArchCap]: the odd capability tags. *)
Definition isArchCap (c : cap) : bool :=
  match c with
  | cap_frame_cap _ _ _ _ _ _ | cap_page_table_cap _ _ _ _ | cap_vspace_cap _ _ _
  | cap_asid_control_cap | cap_asid_pool_cap _ _ | cap_sgi_signal_cap _ _ => true
  | _ => false
  end.

(** Zombie accessors of structures.h: the identifier packs a pointer and the
    number of slots still to delete. *)
Definition ZombieType_ZombieTCB : Z := BIT wordRadix.
Definition ZombieType_ZombieCNode (n : Z) : Z := Z.land n (MASK wordRadix).

Definition Zombie_new (number type ptr : Z) : cap :=
  let mask := if type =? ZombieType_ZombieTCB then MASK (TCB_CNODE_RADIX + 1)
              else MASK (type + 1) in
  cap_zombie_cap (Z.lor (Z.land ptr (wnot mask)) (Z.land number mask)) type.

Definition cap_zombie_cap_get_capZombieBits (type : Z) : Z :=
  if type =? ZombieType_ZombieTCB then TCB_CNODE_RADIX else ZombieType_ZombieCNode type.

Definition cap_zombie_cap_get_capZombieNumber (id type : Z) : Z :=
  Z.land id (MASK (cap_zombie_cap_get_capZombieBits type + 1)).

Definition cap_zombie_cap_get_capZombiePtr (id type : Z) : Z :=
  Z.land id (wnot (MASK (cap_zombie_cap_get_capZombieBits type + 1))).

Definition cap_zombie_cap_set_capZombieNumber (id type n : Z) : cap :=
  let radix := cap_zombie_cap_get_capZombieBits type in
  let ptr := Z.land id (wnot (MASK (radix + 1))) in
  cap_zombie_cap (Z.lor ptr (Z.land n (MASK (radix + 1)))) type.

(** ** Capability slots *)
Record mdb_node : Type := mdb_node_new {
  mdbNext : Z;
  mdbRevocable : bool;
  mdbFirstBadged : bool;
  mdbPrev : Z
}.

#[export] Instance mdb_node_eq_dec : EqDecision mdb_node.
Proof. solve_decision. Defined.

Definition eta_mdb_node (r : mdb_node) : mdb_node := mdb_node_new
  (mdbNext r) (mdbRevocable r) (mdbFirstBadged r) (mdbPrev r).

Definition set_mdbNext : (Z -> Z) -> mdb_node -> mdb_node :=
  ltac:(mk_setter eta_mdb_node mdbNext).
Definition set_mdbRevocable : (bool -> bool) -> mdb_node -> mdb_node :=
  ltac:(mk_setter eta_mdb_node mdbRevocable).
Definition set_mdbFirstBadged : (bool -> bool) -> mdb_node -> mdb_node :=
  ltac:(mk_setter eta_mdb_node mdbFirstBadged).
Definition set_mdbPrev : (Z -> Z) -> mdb_node -> mdb_node :=
  ltac:(mk_setter eta_mdb_node mdbPrev).

Record cte : Type := mk_cte {
  cte_cap : cap;
  cteMDBNode : mdb_node
}.

#[export] Instance cte_eq_dec : EqDecision cte.
Proof. solve_decision. Defined.

Definition eta_cte (r : cte) : cte := mk_cte
  (cte_cap r) (cteMDBNode r).

Definition set_cte_cap : (cap -> cap) -> cte -> cte :=
  ltac:(mk_setter eta_cte cte_cap).
Definition set_cteMDBNode : (mdb_node -> mdb_node) -> cte -> cte :=
  ltac:(mk_setter eta_cte cteMDBNode).

Definition nullMDBNode : mdb_node := mdb_node_new 0 false false 0.
Definition null_cte : cte := mk_cte cap_null_cap nullMDBNode.

(** ** Threads *)
Inductive thread_state_type :=
  | ThreadState_Inactive | ThreadState_Running | ThreadState_Restart
  | ThreadState_BlockedOnReceive | ThreadState_BlockedOnSend
  | ThreadState_BlockedOnReply | ThreadState_BlockedOnNotification
  | ThreadState_IdleThreadState.
#[export] Instance thread_state_type_eq_dec : EqDecision thread_state_type.
Proof. solve_decision. Defined.

Record thread_state : Type := mk_thread_state {
  tsType : thread_state_type;
  blockingObject : Z;
  blockingIPCBadge : Z;
  blockingIPCCanGrant : bool;
  blockingIPCCanGrantReply : bool;
  blockingIPCIsCall : bool;
  tcbQueued : bool
}.

Definition eta_thread_state (r : thread_state) : thread_state := mk_thread_state
  (tsType r) (blockingObject r) (blockingIPCBadge r) (blockingIPCCanGrant r)
  (blockingIPCCanGrantReply r) (blockingIPCIsCall r) (tcbQueued r).

Definition set_tsType : (thread_state_type -> thread_state_type) -> thread_state -> thread_state :=
  ltac:(mk_setter eta_thread_state tsType).
Definition set_blockingObject : (Z -> Z) -> thread_state -> thread_state :=
  ltac:(mk_setter eta_thread_state blockingObject).
Definition set_blockingIPCBadge : (Z -> Z) -> thread_state -> thread_state :=
  ltac:(mk_setter eta_thread_state blockingIPCBadge).
Definition set_blockingIPCCanGrant : (bool -> bool) -> thread_state -> thread_state :=
  ltac:(mk_setter eta_thread_state blockingIPCCanGrant).
Definition set_blockingIPCCanGrantReply : (bool -> bool) -> thread_state -> thread_state :=
  ltac:(mk_setter eta_thread_state blockingIPCCanGrantReply).
Definition set_blockingIPCIsCall : (bool -> bool) -> thread_state -> thread_state :=
  ltac:(mk_setter eta_thread_state blockingIPCIsCall).
Definition set_tcbQueued : (bool -> bool) -> thread_state -> thread_state :=
  ltac:(mk_setter eta_thread_state tcbQueued).

Record tcb : Type := mk_tcb {
  tcbContext : gmap Z Z;  (** [tcbArch.tcbContext.registers]; absent is 0 *)
  tcbState : thread_state;
  tcbFlags : Z;
  tcbBoundNotification : Z;
  tcbFault : seL4_Fault;
  tcbLookupFailure : lookup_fault;
  tcbDomain : Z;
  tcbMCP : Z;
  tcbPriority : Z;
  tcbTimeSlice : Z;
  tcbFaultHandler : Z;
  tcbIPCBuffer : Z;
  tcbSchedNext : Z;
  tcbSchedPrev : Z;
  tcbEPNext : Z;
  tcbEPPrev : Z
}.

Definition eta_tcb (r : tcb) : tcb := mk_tcb
  (tcbContext r) (tcbState r) (tcbFlags r) (tcbBoundNotification r)
  (tcbFault r) (tcbLookupFailure r) (tcbDomain r) (tcbMCP r) (tcbPriority r)
  (tcbTimeSlice r) (tcbFaultHandler r) (tcbIPCBuffer r) (tcbSchedNext r)
  (tcbSchedPrev r) (tcbEPNext r) (tcbEPPrev r).

Definition set_tcbContext : (gmap Z Z -> gmap Z Z) -> tcb -> tcb :=
  ltac:(mk_setter eta_tcb tcbContext).
Definition set_tcbState : (thread_state -> thread_state) -> tcb -> tcb :=
  ltac:(mk_setter eta_tcb tcbState).
Definition set_tcbFlags : (Z -> Z) -> tcb -> tcb :=
  ltac:(mk_setter eta_tcb tcbFlags).
Definition set_tcbBoundNotification : (Z -> Z) -> tcb -> tcb :=
  ltac:(mk_setter eta_tcb tcbBoundNotification).
Definition set_tcbFault : (seL4_Fault -> seL4_Fault) -> tcb -> tcb :=
  ltac:(mk_setter eta_tcb tcbFault).
Definition set_tcbLookupFailure : (lookup_fault -> lookup_fault) -> tcb -> tcb :=
  ltac:(mk_setter eta_tcb tcbLookupFailure).
Definition set_tcbDomain : (Z -> Z) -> tcb -> tcb :=
  ltac:(mk_setter eta_tcb tcbDomain).
Definition set_tcbMCP : (Z -> Z) -> tcb -> tcb :=
  ltac:(mk_setter eta_tcb tcbMCP).
Definition set_tcbPriority : (Z -> Z) -> tcb -> tcb :=
  ltac:(mk_setter eta_tcb tcbPriority).
Definition set_tcbTimeSlice : (Z -> Z) -> tcb -> tcb :=
  ltac:(mk_setter eta_tcb tcbTimeSlice).
Definition set_tcbFaultHandler : (Z -> Z) -> tcb -> tcb :=
  ltac:(mk_setter eta_tcb tcbFaultHandler).
Definition set_tcbIPCBuffer : (Z -> Z) -> tcb -> tcb :=
  ltac:(mk_setter eta_tcb tcbIPCBuffer).
Definition set_tcbSchedNext : (Z -> Z) -> tcb -> tcb :=
  ltac:(mk_setter eta_tcb tcbSchedNext).
Definition set_tcbSchedPrev : (Z -> Z) -> tcb -> tcb :=
  ltac:(mk_setter eta_tcb tcbSchedPrev).
Definition set_tcbEPNext : (Z -> Z) -> tcb -> tcb :=
  ltac:(mk_setter eta_tcb tcbEPNext).
Definition set_tcbEPPrev : (Z -> Z) -> tcb -> tcb :=
  ltac:(mk_setter eta_tcb tcbEPPrev).

(** A freshly retyped, zeroed TCB. *)
Definition zero_thread_state : thread_state :=
  mk_thread_state ThreadState_Inactive 0 0 false false false false.
Definition zero_tcb : tcb :=
  mk_tcb ∅ zero_thread_state 0 0 seL4_Fault_NullFault lookup_fault_invalid_root
    0 0 0 0 0 0 0 0 0 0.

(** ** Endpoints and notifications *)
Inductive endpoint_state := EPState_Idle | EPState_Send | EPState_Recv.
#[export] Instance endpoint_state_eq_dec : EqDecision endpoint_state.
Proof. solve_decision. Defined.
Inductive notification_state := NtfnState_Idle | NtfnState_Waiting | NtfnState_Active.
#[export] Instance notification_state_eq_dec : EqDecision notification_state.
Proof. solve_decision. Defined.

Record endpoint : Type := mk_endpoint {
  epQueue_head : Z;
  epQueue_tail : Z;
  ep_state : endpoint_state
}.

Definition eta_endpoint (r : endpoint) : endpoint := mk_endpoint
  (epQueue_head r) (epQueue_tail r) (ep_state r).

Definition set_epQueue_head : (Z -> Z) -> endpoint -> endpoint :=
  ltac:(mk_setter eta_endpoint epQueue_head).
Definition set_epQueue_tail : (Z -> Z) -> endpoint -> endpoint :=
  ltac:(mk_setter eta_endpoint epQueue_tail).
Definition set_ep_state : (endpoint_state -> endpoint_state) -> endpoint -> endpoint :=
  ltac:(mk_setter eta_endpoint ep_state).

Record notification : Type := mk_notification {
  ntfnBoundTCB : Z;
  ntfnMsgIdentifier : Z;
  ntfnQueue_head : Z;
  ntfnQueue_tail : Z;
  ntfn_state : notification_state
}.

Definition eta_notification (r : notification) : notification := mk_notification
  (ntfnBoundTCB r) (ntfnMsgIdentifier r) (ntfnQueue_head r) (ntfnQueue_tail
  r) (ntfn_state r).

Definition set_ntfnBoundTCB : (Z -> Z) -> notification -> notification :=
  ltac:(mk_setter eta_notification ntfnBoundTCB).
Definition set_ntfnMsgIdentifier : (Z -> Z) -> notification -> notification :=
  ltac:(mk_setter eta_notification ntfnMsgIdentifier).
Definition set_ntfnQueue_head : (Z -> Z) -> notification -> notification :=
  ltac:(mk_setter eta_notification ntfnQueue_head).
Definition set_ntfnQueue_tail : (Z -> Z) -> notification -> notification :=
  ltac:(mk_setter eta_notification ntfnQueue_tail).
Definition set_ntfn_state : (notification_state -> notification_state) -> notification -> notification :=
  ltac:(mk_setter eta_notification ntfn_state).

Definition zero_endpoint : endpoint := mk_endpoint 0 0 EPState_Idle.
Definition zero_notification : notification := mk_notification 0 0 0 0 NtfnState_Idle.

Record tcb_queue : Type := mk_queue { q_head : Z; q_end : Z }.
Definition empty_queue : tcb_queue := mk_queue 0 0.

Inductive irq_state := IRQInactive | IRQSignal | IRQTimer | IRQReserved.
#[export] Instance irq_state_eq_dec : EqDecision irq_state.
Proof. solve_decision. Defined.

(** ** Page tables and ASID pools

    [pte_t] by [pte_type]; the pages carry the fields of their block. *)
Record page_fields : Type := mk_page_fields {
  pte_UXN : bool;
  page_base_address : Z;
  pte_nG : Z;
  pte_AF : Z;
  pte_SH : Z;
  pte_AP : Z;
  pte_AttrIndx : Z
}.

Inductive pte :=
  | pte_invalid
  | pte_table (pt_base_address : Z)
  | pte_page (f : page_fields)
  | pte_4k_page (f : page_fields).

Inductive asid_map := asid_map_none | asid_map_vspace (vspace_root : Z).

(** [asid_pool_t]: the entries of the array that are not zeroed memory. *)
Notation asid_pool := (gmap Z asid_map).

(** ** Machine operations

    Operations of the hardware that return nothing to their caller are
    recorded, in order, in [ksMachine]. *)
Inductive machine_op :=
  | op_setCurrentUserVSpaceRoot (asid base : Z)
  | op_setCurrentUserVSpaceRoot_global
  | op_cleanByVA_PoU (vaddr paddr : Z)
  | op_invalidateTranslationASID (asid : Z)
  | op_invalidateTranslationSingle (vptr : Z)
  | op_enableFpu | op_disableFpu | op_saveFpuState (t : Z) | op_loadFpuState (t : Z)
  | op_maskInterrupt (disable : bool) (irq : Z)
  | op_ackInterrupt (irq : Z)
  | op_resetTimer
  | op_setIRQTrigger (irq : Z) (trigger : bool)
  | op_sendSGI (irq target : Z)
  | op_handleReservedIRQ (irq : Z)
  | op_clearMemory (ptr bits : Z)
  | op_cleanCacheRange_RAM (start end_ pstart : Z)
  | op_cleanCacheRange_PoU (start end_ pstart : Z)
  | op_invalidateCacheRange_RAM (start end_ pstart : Z)
  | op_cleanInvalidateCacheRange_RAM (start end_ pstart : Z)
  | op_invalidateCacheRange_I (start end_ pstart : Z)
  | op_dsb | op_isb.

(** ** The kernel state *)
Record kstate : Type := mk_kstate {
  ksCTEs : gmap Z cte;  (** capability slots, by address *)
  ksTCBs : gmap Z tcb;  (** thread control blocks *)
  ksEPs : gmap Z endpoint;
  ksNTFNs : gmap Z notification;
  ksPTEs : gmap Z pte;  (** page table entries, by address *)
  ksASIDPools : gmap Z asid_pool;
  armKSASIDTable : gmap Z Z;  (** array of pool pointers; absent is NULL *)
  ksMem : gmap Z Z;  (** user memory words reachable by the kernel; absent is 0 *)
  ksReadyQueues : gmap Z tcb_queue;  (** array, by [ready_queues_index] *)
  ksReadyQueuesL1Bitmap : gmap Z Z;  (** array over domains *)
  ksReadyQueuesL2Bitmap : gmap (Z * Z) Z;  (** array over domains and inverted level-1 indices *)
  ksCurThread : Z;
  ksIdleThread : Z;
  ksSchedulerAction : Z;
  ksCurDomain : Z;
  ksDomainTime : Z;
  ksDomScheduleIdx : Z;
  ksDomScheduleStart : Z;
  ksDomSchedule : list Z;  (** array of packed [dschedule_t] words *)
  ksWorkUnitsCompleted : Z;
  ksCurFPUOwner : Z;
  intStateIRQNode : Z;  (** base address of the IRQ CNode *)
  intStateIRQTable : gmap Z irq_state;
  current_lookup_fault : lookup_fault;
  current_fault : seL4_Fault;
  current_syscall_error : syscall_error;
  current_extra_caps : list Z;  (** [excaprefs], slot addresses *)
  ksIRQPending : list bool;  (** answers the interrupt controller will give *)
  ksMachine : list machine_op  (** hardware operations performed, latest first *)
}.

Definition eta_kstate (r : kstate) : kstate := mk_kstate
  (ksCTEs r) (ksTCBs r) (ksEPs r) (ksNTFNs r) (ksPTEs r) (ksASIDPools r)
  (armKSASIDTable r) (ksMem r) (ksReadyQueues r)
  (ksReadyQueuesL1Bitmap r) (ksReadyQueuesL2Bitmap r) (ksCurThread r)
  (ksIdleThread r) (ksSchedulerAction r) (ksCurDomain r) (ksDomainTime r)
  (ksDomScheduleIdx r) (ksDomScheduleStart r) (ksDomSchedule r)
  (ksWorkUnitsCompleted r) (ksCurFPUOwner r) (intStateIRQNode r)
  (intStateIRQTable r) (current_lookup_fault r) (current_fault r)
  (current_syscall_error r) (current_extra_caps r) (ksIRQPending r)
  (ksMachine r).

Definition set_ksCTEs : (gmap Z cte -> gmap Z cte) -> kstate -> kstate :=
  ltac:(mk_setter eta_kstate ksCTEs).
Definition set_ksTCBs : (gmap Z tcb -> gmap Z tcb) -> kstate -> kstate :=
  ltac:(mk_setter eta_kstate ksTCBs).
Definition set_ksEPs : (gmap Z endpoint -> gmap Z endpoint) -> kstate -> kstate :=
  ltac:(mk_setter eta_kstate ksEPs).
Definition set_ksNTFNs : (gmap Z notification -> gmap Z notification) -> kstate -> kstate :=
  ltac:(mk_setter eta_kstate ksNTFNs).
Definition set_ksPTEs : (gmap Z pte -> gmap Z pte) -> kstate -> kstate :=
  ltac:(mk_setter eta_kstate ksPTEs).
Definition set_ksASIDPools : (gmap Z asid_pool -> gmap Z asid_pool) -> kstate -> kstate :=
  ltac:(mk_setter eta_kstate ksASIDPools).
Definition set_armKSASIDTable : (gmap Z Z -> gmap Z Z) -> kstate -> kstate :=
  ltac:(mk_setter eta_kstate armKSASIDTable).
Definition set_ksMem : (gmap Z Z -> gmap Z Z) -> kstate -> kstate :=
  ltac:(mk_setter eta_kstate ksMem).
Definition set_ksReadyQueues : (gmap Z tcb_queue -> gmap Z tcb_queue) -> kstate -> kstate :=
  ltac:(mk_setter eta_kstate ksReadyQueues).
Definition set_ksReadyQueuesL1Bitmap : (gmap Z Z -> gmap Z Z) -> kstate -> kstate :=
  ltac:(mk_setter eta_kstate ksReadyQueuesL1Bitmap).
Definition set_ksReadyQueuesL2Bitmap : (gmap (Z * Z) Z -> gmap (Z * Z) Z) -> kstate -> kstate :=
  ltac:(mk_setter eta_kstate ksReadyQueuesL2Bitmap).
Definition set_ksCurThread : (Z -> Z) -> kstate -> kstate :=
  ltac:(mk_setter eta_kstate ksCurThread).
Definition set_ksIdleThread : (Z -> Z) -> kstate -> kstate :=
  ltac:(mk_setter eta_kstate ksIdleThread).
Definition set_ksSchedulerAction : (Z -> Z) -> kstate -> kstate :=
  ltac:(mk_setter eta_kstate ksSchedulerAction).
Definition set_ksCurDomain : (Z -> Z) -> kstate -> kstate :=
  ltac:(mk_setter eta_kstate ksCurDomain).
Definition set_ksDomainTime : (Z -> Z) -> kstate -> kstate :=
  ltac:(mk_setter eta_kstate ksDomainTime).
Definition set_ksDomScheduleIdx : (Z -> Z) -> kstate -> kstate :=
  ltac:(mk_setter eta_kstate ksDomScheduleIdx).
Definition set_ksDomScheduleStart : (Z -> Z) -> kstate -> kstate :=
  ltac:(mk_setter eta_kstate ksDomScheduleStart).
Definition set_ksDomSchedule : (list Z -> list Z) -> kstate -> kstate :=
  ltac:(mk_setter eta_kstate ksDomSchedule).
Definition set_ksWorkUnitsCompleted : (Z -> Z) -> kstate -> kstate :=
  ltac:(mk_setter eta_kstate ksWorkUnitsCompleted).
Definition set_ksCurFPUOwner : (Z -> Z) -> kstate -> kstate :=
  ltac:(mk_setter eta_kstate ksCurFPUOwner).
Definition set_intStateIRQNode : (Z -> Z) -> kstate -> kstate :=
  ltac:(mk_setter eta_kstate intStateIRQNode).
Definition set_intStateIRQTable : (gmap Z irq_state -> gmap Z irq_state) -> kstate -> kstate :=
  ltac:(mk_setter eta_kstate intStateIRQTable).
Definition set_current_lookup_fault : (lookup_fault -> lookup_fault) -> kstate -> kstate :=
  ltac:(mk_setter eta_kstate current_lookup_fault).
Definition set_current_fault : (seL4_Fault -> seL4_Fault) -> kstate -> kstate :=
  ltac:(mk_setter eta_kstate current_fault).
Definition set_current_syscall_error : (syscall_error -> syscall_error) -> kstate -> kstate :=
  ltac:(mk_setter eta_kstate current_syscall_error).
Definition set_current_extra_caps : (list Z -> list Z) -> kstate -> kstate :=
  ltac:(mk_setter eta_kstate current_extra_caps).
Definition set_ksIRQPending : (list bool -> list bool) -> kstate -> kstate :=
  ltac:(mk_setter eta_kstate ksIRQPending).
Definition set_ksMachine : (list machine_op -> list machine_op) -> kstate -> kstate :=
  ltac:(mk_setter eta_kstate ksMachine).

Definition K (A : Type) : Type := M kstate A.

(** ** Simplification of field reads of updated records

    [st_simpl] reduces every projection of the state applied to a state
    setter, leaving projections of variables alone. *)
Ltac is_kproj p :=
  lazymatch p with
  | ksCTEs => idtac
  | ksTCBs => idtac
  | ksEPs => idtac
  | ksNTFNs => idtac
  | ksPTEs => idtac
  | ksASIDPools => idtac
  | armKSASIDTable => idtac
  | ksMem => idtac
  | ksReadyQueues => idtac
  | ksReadyQueuesL1Bitmap => idtac
  | ksReadyQueuesL2Bitmap => idtac
  | ksCurThread => idtac
  | ksIdleThread => idtac
  | ksSchedulerAction => idtac
  | ksCurDomain => idtac
  | ksDomainTime => idtac
  | ksDomScheduleIdx => idtac
  | ksDomScheduleStart => idtac
  | ksDomSchedule => idtac
  | ksWorkUnitsCompleted => idtac
  | ksCurFPUOwner => idtac
  | intStateIRQNode => idtac
  | intStateIRQTable => idtac
  | current_lookup_fault => idtac
  | current_fault => idtac
  | current_syscall_error => idtac
  | current_extra_caps => idtac
  | ksIRQPending => idtac
  | ksMachine => idtac
  end.

Ltac st_simpl_step t tac :=
  match t with
  | context [?p (?st ?f ?s)] =>
      is_kproj p;
      lazymatch type of (st f s) with kstate => idtac end;
      let u := constr:(p (st f s)) in
      let u' := eval cbn [p st] in u in
      tac u u'
  end.

Ltac st_simpl :=
  repeat match goal with
  | |- ?G => st_simpl_step G ltac:(fun u u' => change u with u')
  end; cbn beta.

Ltac st_simpl_in H :=
  repeat (let t := type of H in
          st_simpl_step t ltac:(fun u u' => change u with u' in H)); cbn beta in H.

(** ** Heap access *)
Definition getCTE (p : Z) : K cte :=
  let* o := gets (fun s => ksCTEs s !! p) in from_option_M o.
Definition putCTE (p : Z) (c : cte) : K unit := modify (set_ksCTEs (insert p c)).
Definition modCTE (p : Z) (f : cte -> cte) : K unit :=
  let* c := getCTE p in putCTE p (f c).

Definition getTCB (p : Z) : K tcb :=
  let* o := gets (fun s => ksTCBs s !! p) in from_option_M o.
Definition putTCB (p : Z) (t : tcb) : K unit := modify (set_ksTCBs (insert p t)).
Definition modTCB (p : Z) (f : tcb -> tcb) : K unit :=
  let* t := getTCB p in putTCB p (f t).

Definition getEP (p : Z) : K endpoint :=
  let* o := gets (fun s => ksEPs s !! p) in from_option_M o.
Definition putEP (p : Z) (e : endpoint) : K unit := modify (set_ksEPs (insert p e)).
Definition modEP (p : Z) (f : endpoint -> endpoint) : K unit :=
  let* e := getEP p in putEP p (f e).

Definition getNTFN (p : Z) : K notification :=
  let* o := gets (fun s => ksNTFNs s !! p) in from_option_M o.
Definition putNTFN (p : Z) (e : notification) : K unit := modify (set_ksNTFNs (insert p e)).
Definition modNTFN (p : Z) (f : notification -> notification) : K unit :=
  let* e := getNTFN p in putNTFN p (f e).

Definition getPTE (p : Z) : K pte :=
  let* o := gets (fun s => ksPTEs s !! p) in from_option_M o.
Definition putPTE (p : Z) (e : pte) : K unit :=
  let* _ := getPTE p in modify (set_ksPTEs (insert p e)).

Definition getPool (p : Z) : K asid_pool :=
  let* o := gets (fun s => ksASIDPools s !! p) in from_option_M o.

(** Reading and writing word [i] of a word array at [p]. *)
Definition mem_word (m : gmap Z Z) (a : Z) : Z := default 0 (m !! a).
Definition loadWord (p i : Z) : K Z :=
  gets (fun s => mem_word (ksMem s) (wadd p (wshl i 3))).
Definition storeWord (p i v : Z) : K unit :=
  modify (set_ksMem (insert (wadd p (wshl i 3)) v)).

Definition doMachineOp (op : machine_op) : K unit := modify (set_ksMachine (cons op)).

Section WpHeap.
Lemma wp_getCTE p c Q s : ksCTEs s !! p = Some c -> Q c s -> wp (getCTE p) Q s.
Proof. intros H HQ. unfold wp, getCTE, bind, gets. by rewrite H. Qed.
Lemma wp_putCTE p c Q s : Q tt (set_ksCTEs (insert p c) s) -> wp (putCTE p c) Q s.
Proof. done. Qed.
Lemma wp_modCTE p f c Q s :
  ksCTEs s !! p = Some c -> Q tt (set_ksCTEs (insert p (f c)) s) -> wp (modCTE p f) Q s.
Proof. intros H HQ. unfold wp, modCTE, getCTE, bind, gets. by rewrite H. Qed.

Lemma wp_getTCB p c Q s : ksTCBs s !! p = Some c -> Q c s -> wp (getTCB p) Q s.
Proof. intros H HQ. unfold wp, getTCB, bind, gets. by rewrite H. Qed.
Lemma wp_putTCB p c Q s : Q tt (set_ksTCBs (insert p c) s) -> wp (putTCB p c) Q s.
Proof. done. Qed.
Lemma wp_modTCB p f c Q s :
  ksTCBs s !! p = Some c -> Q tt (set_ksTCBs (insert p (f c)) s) -> wp (modTCB p f) Q s.
Proof. intros H HQ. unfold wp, modTCB, getTCB, bind, gets. by rewrite H. Qed.

Lemma wp_getEP p c Q s : ksEPs s !! p = Some c -> Q c s -> wp (getEP p) Q s.
Proof. intros H HQ. unfold wp, getEP, bind, gets. by rewrite H. Qed.
Lemma wp_modEP p f c Q s :
  ksEPs s !! p = Some c -> Q tt (set_ksEPs (insert p (f c)) s) -> wp (modEP p f) Q s.
Proof. intros H HQ. unfold wp, modEP, getEP, bind, gets. by rewrite H. Qed.

Lemma wp_getNTFN p c Q s : ksNTFNs s !! p = Some c -> Q c s -> wp (getNTFN p) Q s.
Proof. intros H HQ. unfold wp, getNTFN, bind, gets. by rewrite H. Qed.
Lemma wp_modNTFN p f c Q s :
  ksNTFNs s !! p = Some c -> Q tt (set_ksNTFNs (insert p (f c)) s) -> wp (modNTFN p f) Q s.
Proof. intros H HQ. unfold wp, modNTFN, getNTFN, bind, gets. by rewrite H. Qed.

Lemma wp_getPTE p c Q s : ksPTEs s !! p = Some c -> Q c s -> wp (getPTE p) Q s.
Proof. intros H HQ. unfold wp, getPTE, bind, gets. by rewrite H. Qed.
Lemma wp_putPTE p c e Q s :
  ksPTEs s !! p = Some c -> Q tt (set_ksPTEs (insert p e) s) -> wp (putPTE p e) Q s.
Proof. intros H HQ. unfold wp, putPTE, getPTE, bind, gets. by rewrite H. Qed.
Lemma wp_getPool p c Q s : ksASIDPools s !! p = Some c -> Q c s -> wp (getPool p) Q s.
Proof. intros H HQ. unfold wp, getPool, bind, gets. by rewrite H. Qed.
End WpHeap.
