(* ===== verification/CapOps.v ===== *)
(** * Capability operations

    The pure functions of src/object/objecttype.c and
    src/arch/arm/64/object/objecttype.c: which memory a capability covers,
    when two capabilities name the same region or the same object, rights
    masking, badge and guard updates, revocability. *)
From S2P Require Import Prelude Structures.
From stdpp Require Import base list gmap.
#[local] Open Scope Z_scope.

(** ** Object types and sizes *)
Definition seL4_UntypedObject : Z := 0.
Definition seL4_TCBObject : Z := 1.
Definition seL4_EndpointObject : Z := 2.
Definition seL4_NotificationObject : Z := 3.
Definition seL4_CapTableObject : Z := 4.
Definition seL4_NonArchObjectTypeCount : Z := 5.
Definition seL4_ARM_HugePageObject : Z := 5.
Definition seL4_ARM_VSpaceObject : Z := 6.
Definition seL4_ARM_SmallPageObject : Z := 7.
Definition seL4_ARM_LargePageObject : Z := 8.
Definition seL4_ARM_PageTableObject : Z := 9.
Definition seL4_ObjectTypeCount : Z := 10.

Definition pageBitsForSize (sz : vm_page_size) : Z :=
  match sz with
  | ARMSmallPage => seL4_PageBits
  | ARMLargePage => seL4_LargePageBits
  | ARMHugePage => seL4_HugePageBits
  end.

Definition Arch_isFrameType (type : Z) : bool :=
  (type =? seL4_ARM_SmallPageObject) || (type =? seL4_ARM_LargePageObject)
  || (type =? seL4_ARM_HugePageObject).

(** [None] is [fail("Invalid object type")]. *)
Definition Arch_getObjectSize (t : Z) : option Z :=
  if t =? seL4_ARM_SmallPageObject then Some seL4_PageBits
  else if t =? seL4_ARM_LargePageObject then Some seL4_LargePageBits
  else if t =? seL4_ARM_HugePageObject then Some seL4_HugePageBits
  else if t =? seL4_ARM_PageTableObject then Some seL4_PageTableBits
  else if t =? seL4_ARM_VSpaceObject then Some seL4_VSpaceBits
  else None.

Definition getObjectSize (t userObjSize : Z) : option Z :=
  if seL4_NonArchObjectTypeCount <=? t then Arch_getObjectSize t
  else if t =? seL4_TCBObject then Some seL4_TCBBits
  else if t =? seL4_EndpointObject then Some seL4_EndpointBits
  else if t =? seL4_NotificationObject then Some seL4_NotificationBits
  else if t =? seL4_CapTableObject then Some (wadd seL4_SlotBits userObjSize)
  else if t =? seL4_UntypedObject then Some userObjSize
  else None.

(** ** The memory a capability covers *)
Definition cap_get_archCapSizeBits (c : cap) : Z :=
  match c with
  | cap_frame_cap _ _ sz _ _ _ => pageBitsForSize sz
  | cap_page_table_cap _ _ _ _ => seL4_PageTableBits
  | cap_vspace_cap _ _ _ => seL4_VSpaceBits
  | cap_asid_pool_cap _ _ => seL4_ASIDPoolBits
  | _ => 0
  end.

Definition cap_get_archCapIsPhysical (c : cap) : bool :=
  match c with
  | cap_frame_cap _ _ _ _ _ _ | cap_page_table_cap _ _ _ _
  | cap_vspace_cap _ _ _ | cap_asid_pool_cap _ _ => true
  | _ => false
  end.

Definition cap_get_archCapPtr (c : cap) : Z :=
  match c with
  | cap_frame_cap _ base _ _ _ _ => base
  | cap_page_table_cap _ base _ _ => base
  | cap_vspace_cap _ base _ => base
  | cap_asid_pool_cap _ pool => pool
  | _ => 0
  end.

Definition cap_get_capSizeBits (c : cap) : Z :=
  match c with
  | cap_untyped_cap _ _ bits _ => bits
  | cap_endpoint_cap _ _ _ _ _ _ => seL4_EndpointBits
  | cap_notification_cap _ _ _ _ => seL4_NotificationBits
  | cap_cnode_cap radix _ _ _ => wadd radix seL4_SlotBits
  | cap_thread_cap _ => seL4_TCBBits
  | cap_zombie_cap _ type =>
      if type =? ZombieType_ZombieTCB then seL4_TCBBits
      else wadd (ZombieType_ZombieCNode type) seL4_SlotBits
  | cap_null_cap | cap_domain_cap | cap_reply_cap _ _ _
  | cap_irq_control_cap | cap_irq_handler_cap _ => 0
  | _ => cap_get_archCapSizeBits c
  end.

Definition cap_get_capIsPhysical (c : cap) : bool :=
  match c with
  | cap_untyped_cap _ _ _ _ | cap_endpoint_cap _ _ _ _ _ _
  | cap_notification_cap _ _ _ _ | cap_cnode_cap _ _ _ _
  | cap_thread_cap _ | cap_zombie_cap _ _ => true
  | cap_domain_cap | cap_reply_cap _ _ _ | cap_irq_control_cap
  | cap_irq_handler_cap _ => false
  | _ => cap_get_archCapIsPhysical c
  end.

Definition cap_get_capPtr (c : cap) : Z :=
  match c with
  | cap_untyped_cap _ _ _ ptr => ptr
  | cap_endpoint_cap _ _ _ _ _ ptr => ptr
  | cap_notification_cap _ _ _ ptr => ptr
  | cap_cnode_cap _ _ _ ptr => ptr
  | cap_thread_cap tcbptr => TCB_PTR_CTE_PTR tcbptr 0
  | cap_zombie_cap id type => cap_zombie_cap_get_capZombiePtr id type
  | cap_domain_cap | cap_reply_cap _ _ _ | cap_irq_control_cap
  | cap_irq_handler_cap _ => 0
  | _ => cap_get_archCapPtr c
  end.

(** ** Same region, same object *)
Definition Arch_isIRQControlDescendant (c : cap) : bool :=
  match c with cap_sgi_signal_cap _ _ => true | _ => false end.

Definition Arch_sameRegionAs (cap_a cap_b : cap) : bool :=
  match cap_a, cap_b with
  | cap_frame_cap _ botA szA _ _ _, cap_frame_cap _ botB szB _ _ _ =>
      let topA := wadd botA (MASK (pageBitsForSize szA)) in
      let topB := wadd botB (MASK (pageBitsForSize szB)) in
      (botA <=? botB) && (topB <=? topA) && (botB <=? topB)
  | cap_page_table_cap _ a _ _, cap_page_table_cap _ b _ _ => a =? b
  | cap_vspace_cap _ a _, cap_vspace_cap _ b _ => a =? b
  | cap_asid_control_cap, cap_asid_control_cap => true
  | cap_asid_pool_cap _ a, cap_asid_pool_cap _ b => a =? b
  | cap_sgi_signal_cap irq_a target_a, cap_sgi_signal_cap irq_b target_b =>
      (irq_a =? irq_b) && (target_a =? target_b)
  | _, _ => false
  end.

Definition sameRegionAs (cap_a cap_b : cap) : bool :=
  match cap_a with
  | cap_untyped_cap _ _ bits aBase =>
      if cap_get_capIsPhysical cap_b then
        let bBase := cap_get_capPtr cap_b in
        let aTop := wadd aBase (MASK bits) in
        let bTop := wadd bBase (MASK (cap_get_capSizeBits cap_b)) in
        (aBase <=? bBase) && (bTop <=? aTop) && (bBase <=? bTop)
      else false
  | cap_endpoint_cap _ _ _ _ _ a =>
      match cap_b with cap_endpoint_cap _ _ _ _ _ b => a =? b | _ => false end
  | cap_notification_cap _ _ _ a =>
      match cap_b with cap_notification_cap _ _ _ b => a =? b | _ => false end
  | cap_cnode_cap radix_a _ _ a =>
      match cap_b with
      | cap_cnode_cap radix_b _ _ b => (a =? b) && (radix_a =? radix_b)
      | _ => false
      end
  | cap_thread_cap a => match cap_b with cap_thread_cap b => a =? b | _ => false end
  | cap_reply_cap _ _ a => match cap_b with cap_reply_cap _ _ b => a =? b | _ => false end
  | cap_domain_cap => match cap_b with cap_domain_cap => true | _ => false end
  | cap_irq_control_cap =>
      match cap_b with
      | cap_irq_control_cap | cap_irq_handler_cap _ => true
      | _ => Arch_isIRQControlDescendant cap_b
      end
  | cap_irq_handler_cap a =>
      match cap_b with cap_irq_handler_cap b => a =? b | _ => false end
  | _ => if isArchCap cap_a && isArchCap cap_b then Arch_sameRegionAs cap_a cap_b
         else false
  end.

Definition Arch_sameObjectAs (cap_a cap_b : cap) : bool :=
  match cap_a, cap_b with
  | cap_frame_cap _ baseA szA _ _ devA, cap_frame_cap _ baseB szB _ _ devB =>
      (baseA =? baseB) && bool_decide (szA = szB) && eqb devA devB
  | cap_sgi_signal_cap _ _, _ => false
  | _, _ => Arch_sameRegionAs cap_a cap_b
  end.

Definition sameObjectAs (cap_a cap_b : cap) : bool :=
  match cap_a with
  | cap_untyped_cap _ _ _ _ => false
  | cap_irq_control_cap => false
  | _ => if isArchCap cap_a && isArchCap cap_b then Arch_sameObjectAs cap_a cap_b
         else sameRegionAs cap_a cap_b
  end.

(** ** Revocability and MDB parenthood *)
Definition Arch_isCapRevocable (derivedCap srcCap : cap) : bool :=
  match derivedCap with
  | cap_sgi_signal_cap _ _ =>
      match srcCap with cap_irq_control_cap => true | _ => false end
  | _ => false
  end.

(** The generated badge accessors assert the capability's type: comparing
    the badge of an endpoint capability with the badge of a capability of
    another type fails ([None]). *)
Definition cap_endpoint_cap_get_capEPBadge (c : cap) : option Z :=
  match c with cap_endpoint_cap b _ _ _ _ _ => Some b | _ => None end.
Definition cap_notification_cap_get_capNtfnBadge (c : cap) : option Z :=
  match c with cap_notification_cap b _ _ _ => Some b | _ => None end.

Definition isCapRevocable (derivedCap srcCap : cap) : option bool :=
  if isArchCap derivedCap then Some (Arch_isCapRevocable derivedCap srcCap)
  else match derivedCap with
  | cap_endpoint_cap badge _ _ _ _ _ =>
      b ← cap_endpoint_cap_get_capEPBadge srcCap; Some (negb (badge =? b))
  | cap_notification_cap badge _ _ _ =>
      b ← cap_notification_cap_get_capNtfnBadge srcCap; Some (negb (badge =? b))
  | cap_irq_handler_cap _ =>
      Some match srcCap with cap_irq_control_cap => true | _ => false end
  | cap_untyped_cap _ _ _ _ => Some true
  | _ => Some false
  end.

Definition Arch_isMDBParentOf (cap_a cap_b : cap) (firstBadged : bool) : bool :=
  match cap_a with cap_sgi_signal_cap _ _ => negb firstBadged | _ => true end.

(** The accessors on [cte_b] cannot fail: [sameRegionAs] has already
    established that both capabilities have the same type. *)
Definition isMDBParentOf (cte_a cte_b : cte) : bool :=
  if negb (mdbRevocable (cteMDBNode cte_a)) then false
  else if negb (sameRegionAs (cte_cap cte_a) (cte_cap cte_b)) then false
  else if negb (Arch_isMDBParentOf (cte_cap cte_a) (cte_cap cte_b)
                  (mdbFirstBadged (cteMDBNode cte_b))) then false
  else match cte_cap cte_a with
  | cap_endpoint_cap badge _ _ _ _ _ =>
      if badge =? 0 then true
      else bool_decide (Some badge = cap_endpoint_cap_get_capEPBadge (cte_cap cte_b))
           && negb (mdbFirstBadged (cteMDBNode cte_b))
  | cap_notification_cap badge _ _ _ =>
      if badge =? 0 then true
      else bool_decide (Some badge = cap_notification_cap_get_capNtfnBadge (cte_cap cte_b))
           && negb (mdbFirstBadged (cteMDBNode cte_b))
  | _ => true
  end.

Definition hasCancelSendRights (c : cap) : bool :=
  match c with
  | cap_endpoint_cap _ canGrantReply canGrant canSend canReceive _ =>
      canSend && canReceive && canGrantReply && canGrant
  | _ => false
  end.

(** ** Rights *)
Record seL4_CapRights : Type := mk_rights {
  capAllowGrantReply : bool; capAllowGrant : bool;
  capAllowRead : bool; capAllowWrite : bool
}.

Definition rightsFromWord (w : Z) : seL4_CapRights :=
  mk_rights (Z.testbit w 3) (Z.testbit w 2) (Z.testbit w 1) (Z.testbit w 0).

Definition maskVMRights (r : vm_rights) (mask : seL4_CapRights) : vm_rights :=
  match r with
  | VMReadOnly => if capAllowRead mask then VMReadOnly else VMKernelOnly
  | VMReadWrite =>
      if capAllowRead mask then
        if negb (capAllowWrite mask) then VMReadOnly else VMReadWrite
      else VMKernelOnly
  | VMKernelOnly => VMKernelOnly
  end.

Definition Arch_maskCapRights (mask : seL4_CapRights) (c : cap) : cap :=
  match c with
  | cap_frame_cap asid base sz addr rights dev =>
      cap_frame_cap asid base sz addr (maskVMRights rights mask) dev
  | _ => c
  end.

Definition maskCapRights (mask : seL4_CapRights) (c : cap) : cap :=
  if isArchCap c then Arch_maskCapRights mask c
  else match c with
  | cap_endpoint_cap badge canGrantReply canGrant canSend canReceive ptr =>
      cap_endpoint_cap badge (canGrantReply && capAllowGrantReply mask)
        (canGrant && capAllowGrant mask) (canSend && capAllowWrite mask)
        (canReceive && capAllowRead mask) ptr
  | cap_notification_cap badge canReceive canSend ptr =>
      cap_notification_cap badge (canReceive && capAllowRead mask)
        (canSend && capAllowWrite mask) ptr
  | cap_reply_cap canGrant master ptr =>
      cap_reply_cap (canGrant && capAllowGrant mask) master ptr
  | _ => c
  end.

(** ** Badges and guards *)
Definition Arch_updateCapData (preserve : bool) (data : Z) (c : cap) : cap := c.

(** [seL4_CNode_CapData]: guard in the high 58 bits, guard size in the low 6. *)
Definition CNode_CapData_get_guard (w : Z) : Z := Z.shiftr w 6.
Definition CNode_CapData_get_guardSize (w : Z) : Z := Z.land w (MASK 6).

Definition updateCapData (preserve : bool) (newData : Z) (c : cap) : cap :=
  if isArchCap c then Arch_updateCapData preserve newData c
  else match c with
  | cap_endpoint_cap badge gr g sd rc ptr =>
      if negb preserve && (badge =? 0) then cap_endpoint_cap newData gr g sd rc ptr
      else cap_null_cap
  | cap_notification_cap badge rc sd ptr =>
      if negb preserve && (badge =? 0) then cap_notification_cap newData rc sd ptr
      else cap_null_cap
  | cap_cnode_cap radix _ _ ptr =>
      let guardSize := CNode_CapData_get_guardSize newData in
      if wordBits <? wadd guardSize radix then cap_null_cap
      else
        let guard := Z.land (CNode_CapData_get_guard newData) (MASK guardSize) in
        cap_cnode_cap radix guardSize guard ptr
  | _ => c
  end.


(** ** The region and object relations *)
Module Regions.
(** The bytes a capability covers: [size c] bytes from [base c]. *)
Definition base (c : cap) : Z := cap_get_capPtr c.
Definition size (c : cap) : Z := 2 ^ cap_get_capSizeBits c.

Definition region_wf (c : cap) : Prop :=
  0 <= cap_get_capSizeBits c < wordBits /\ 0 <= base c /\ base c + size c <= word_modulus.

Lemma region_top c :
  region_wf c -> wadd (cap_get_capPtr c) (MASK (cap_get_capSizeBits c)) = base c + size c - 1.
Proof.
  unfold region_wf, base, size. intros (Hb & Hp & Ht).
  pose proof (BIT_pos _ Hb). rewrite BIT_pow in H by done.
  rewrite MASK_pow by done. rewrite wadd_small; [lia|].
  unfold is_word. lia.
Qed.

Ltac region_cbn := cbn -[wadd MASK TCB_PTR_CTE_PTR seL4_SlotBits pageBitsForSize] in *.
Ltac region_solve := region_cbn; bool_hyps; bool_goal; try done; try lia.

Lemma trans a b c :
  sameRegionAs a b = true -> sameRegionAs b c = true -> sameRegionAs a c = true.
Proof.
  destruct a; cbn -[cap_get_capIsPhysical cap_get_capPtr cap_get_capSizeBits]; try done.
  1: destruct (cap_get_capIsPhysical b) eqn:?; [|done].
  all: intros Hab Hbc; destruct b; try done; destruct c; try done; region_solve.
Qed.

Lemma untyped_iff fi dev bits ptr c :
  region_wf (cap_untyped_cap fi dev bits ptr) -> region_wf c ->
  sameRegionAs (cap_untyped_cap fi dev bits ptr) c = true <->
  cap_get_capIsPhysical c = true /\ ptr <= base c /\ base c + size c <= ptr + 2 ^ bits.
Proof.
  intros Hu Hc. pose proof (region_top _ Hu) as Htu. pose proof (region_top _ Hc) as Htc.
  destruct Hc as (Hb & _ & _). pose proof (BIT_pos _ Hb) as Hp.
  rewrite BIT_pow in Hp by done. fold (size c) in Hp.
  change (wadd ptr (MASK bits) = ptr + 2 ^ bits - 1) in Htu.
  unfold sameRegionAs. rewrite Htu, Htc. fold (base c).
  destruct (cap_get_capIsPhysical c); [|naive_solver].
  bool_goal. lia.
Qed.

Lemma same_object_sym a b : sameObjectAs a b = sameObjectAs b a.
Proof.
  apply Bool.eq_iff_eq_true.
  destruct a, b; cbn -[wadd MASK pageBitsForSize]; try done;
    bool_goal; intuition congruence.
Qed.

Lemma same_object_trans a b c :
  sameObjectAs a b = true -> sameObjectAs b c = true -> sameObjectAs a c = true.
Proof.
  destruct a, b; cbn -[wadd MASK pageBitsForSize]; try done;
    destruct c; cbn -[wadd MASK pageBitsForSize]; try done; bool_goal; intuition congruence.
Qed.

(** Capabilities that stand for an object of their own: not untyped memory,
    not the IRQ control authority, not a leftover zombie or an SGI signal. *)
Definition is_object (c : cap) : bool :=
  match c with
  | cap_null_cap | cap_untyped_cap _ _ _ _ | cap_irq_control_cap
  | cap_zombie_cap _ _ | cap_sgi_signal_cap _ _ => false
  | _ => true
  end.

Lemma same_object_refl c : is_object c = true -> sameObjectAs c c = true.
Proof.
  destruct c; cbn; try done; intros _; bool_goal; try tauto; try lia.
Qed.

Lemma same_object_region a b : region_wf a -> sameObjectAs a b = true -> sameRegionAs a b = true.
Proof.
  intros Hw. destruct a; try done; destruct b; try done.
  pose proof (region_top _ Hw) as Ht. destruct Hw as (Hb & H0 & _).
  pose proof (BIT_pos _ Hb) as Hp. rewrite BIT_pow in Hp by done.
  unfold base, size in *. cbn -[wadd MASK pageBitsForSize] in *.
  intros. bool_hyps. rewrite Ht. bool_goal. lia.
Qed.
End Regions.

(** ** Rights *)
Module Rights.
Definition meet (r1 r2 : seL4_CapRights) : seL4_CapRights :=
  mk_rights (capAllowGrantReply r1 && capAllowGrantReply r2)
    (capAllowGrant r1 && capAllowGrant r2) (capAllowRead r1 && capAllowRead r2)
    (capAllowWrite r1 && capAllowWrite r2).

Definition vm_le (a b : vm_rights) : bool :=
  match a, b with
  | VMKernelOnly, _ | VMReadOnly, VMReadOnly | VMReadOnly, VMReadWrite
  | VMReadWrite, VMReadWrite => true
  | _, _ => false
  end.

(** [le c1 c2]: same object and data, no right that [c2] lacks. *)
Definition le (c1 c2 : cap) : bool :=
  match c1, c2 with
  | cap_endpoint_cap b1 gr1 g1 s1 r1 p1, cap_endpoint_cap b2 gr2 g2 s2 r2 p2 =>
      (b1 =? b2) && (p1 =? p2) && implb gr1 gr2 && implb g1 g2 && implb s1 s2 && implb r1 r2
  | cap_notification_cap b1 r1 s1 p1, cap_notification_cap b2 r2 s2 p2 =>
      (b1 =? b2) && (p1 =? p2) && implb r1 r2 && implb s1 s2
  | cap_reply_cap g1 m1 p1, cap_reply_cap g2 m2 p2 =>
      implb g1 g2 && Bool.eqb m1 m2 && (p1 =? p2)
  | cap_frame_cap a1 b1 z1 d1 r1 v1, cap_frame_cap a2 b2 z2 d2 r2 v2 =>
      (a1 =? a2) && (b1 =? b2) && bool_decide (z1 = z2) && (d1 =? d2)
      && vm_le r1 r2 && Bool.eqb v1 v2
  | _, _ => bool_decide (c1 = c2)
  end.

Lemma mask_le r c : le (maskCapRights r c) c = true.
Proof.
  destruct r as [gr g rd wr], c as [| | ? [] [] [] [] ?|? [] [] ?|[] [] ?| | | | | | |? ? ? ? [] []| | | | |];
    cbn; rewrite ?Z.eqb_refl, ?bool_decide_true by done; try done;
    destruct gr, g, rd, wr; done.
Qed.

Lemma mask_mask r1 r2 c :
  maskCapRights r1 (maskCapRights r2 c) = maskCapRights (meet r1 r2) c.
Proof.
  destruct r1 as [[] [] [] []], r2 as [[] [] [] []], c as [| | | | | | | | | | |? ? ? ? [] ?| | | | |];
    cbn; rewrite ?andb_true_r, ?andb_false_r; done.
Qed.

Lemma mask_same_region r c x :
  sameRegionAs (maskCapRights r c) x = sameRegionAs c x /\
  sameRegionAs x (maskCapRights r c) = sameRegionAs x c.
Proof. destruct c, x; split; done. Qed.
End Rights.

(** ** Badges and guards *)
Module CapData.
Definition cnode_wf (c : cap) : Prop :=
  match c with
  | cap_cnode_cap radix guardSize guard _ =>
      0 <= guardSize /\ radix + guardSize <= wordBits /\ 0 <= guard < 2 ^ guardSize
  | _ => True
  end.

Lemma guard_wf preserve data radix gs g ptr :
  0 < radix < wordBits -> is_word data ->
  cnode_wf (updateCapData preserve data (cap_cnode_cap radix gs g ptr)).
Proof.
  intros Hr Hd. unfold updateCapData. cbn [isArchCap].
  set (gs' := CNode_CapData_get_guardSize data).
  assert (Hgs : 0 <= gs' < 64).
  { unfold gs', CNode_CapData_get_guardSize. rewrite land_MASK by done.
    apply Z.mod_pos_bound. lia. }
  unfold wordBits in *.
  rewrite (wadd_small gs' radix) by (unfold is_word, word_modulus; lia).
  destruct (Z.ltb_spec 64 (gs' + radix)); [done|]. cbn.
  split_and!; [lia|unfold wordBits; lia|..].
  all: rewrite land_MASK by done; apply Z.mod_pos_bound; lia.
Qed.

(** Updating data never changes which object a capability names. *)
Lemma update_same_region preserve data c x :
  updateCapData preserve data c = cap_null_cap \/
  sameRegionAs (updateCapData preserve data c) x = sameRegionAs c x.
Proof.
  destruct c; try (by right); unfold updateCapData; cbn [isArchCap].
  - destruct (negb preserve && _); [by right|by left].
  - destruct (negb preserve && _); [by right|by left].
  - destruct (wordBits <? _); [by left|by right].
Qed.

(** A badge is written once: a capability that already has one, or one
    whose data must be preserved, is not re-badged. *)
Lemma badge_once preserve data b gr g sd rc p :
  updateCapData preserve data (cap_endpoint_cap b gr g sd rc p) =
  (if decide (preserve = false /\ b = 0) then cap_endpoint_cap data gr g sd rc p
   else cap_null_cap).
Proof.
  cbn. destruct preserve, (Z.eqb_spec b 0); case_decide; naive_solver.
Qed.
End CapData.
