(* ===== verification/CSpace.v ===== *)
(** * Capability address resolution

    src/kernel/cspace.c: walking a capability address through guarded CNodes
    ([resolveAddressBits]), and the look-ups the invocations are built on.
    The loop runs on fuel; [n_bits] falls by [levelBits > 0] at every turn, so
    [n_bits + 1] is enough, which [resolve_refines] proves. *)
From S2P Require Import Prelude Structures CapOps.
From stdpp Require Import base list gmap.
#[local] Open Scope Z_scope.

Record resolveAddressBits_ret_t : Type := mk_resolve_ret {
  ra_status : exception_t; ra_slot : Z; ra_bitsRemaining : Z
}.

Definition set_lookup_fault (f : lookup_fault) : K unit :=
  modify (set_current_lookup_fault (fun _ => f)).

(** The [while (1)] of [resolveAddressBits]; [n0] is the depth requested,
    which a faulting look-up reports in [bitsRemaining]. *)
Fixpoint resolve_loop (fuel : nat) (n0 : Z) (nodeCap : cap) (capptr n_bits : Z)
    : K resolveAddressBits_ret_t :=
  match fuel with
  | O => fail
  | S fuel' =>
      match nodeCap with
      | cap_cnode_cap radixBits guardBits capGuard nodePtr =>
          let levelBits := wadd radixBits guardBits in
          assert (negb (levelBits =? 0)) ;;;
          let guard := Z.land (Z.shiftr capptr (Z.land (wsub n_bits guardBits) (MASK wordRadix)))
                         (MASK guardBits) in
          if (n_bits <? guardBits) || negb (guard =? capGuard) then
            set_lookup_fault (lookup_fault_guard_mismatch capGuard n_bits guardBits) ;;;
            ret (mk_resolve_ret EXCEPTION_LOOKUP_FAULT 0 n0)
          else if n_bits <? levelBits then
            set_lookup_fault (lookup_fault_depth_mismatch levelBits n_bits) ;;;
            ret (mk_resolve_ret EXCEPTION_LOOKUP_FAULT 0 n0)
          else
            let offset := Z.land (Z.shiftr capptr (wsub n_bits levelBits)) (MASK radixBits) in
            let slot := cte_offset nodePtr offset in
            if n_bits =? levelBits then ret (mk_resolve_ret EXCEPTION_NONE slot 0)
            else
              let n_bits' := wsub n_bits levelBits in
              let* c := getCTE slot in
              if negb (cap_is_cnode (cte_cap c)) then
                ret (mk_resolve_ret EXCEPTION_NONE slot n_bits')
              else resolve_loop fuel' n0 (cte_cap c) capptr n_bits'
      | _ => fail
      end
  end.

Definition resolveAddressBits (nodeCap : cap) (capptr n_bits : Z)
    : K resolveAddressBits_ret_t :=
  if negb (cap_is_cnode nodeCap) then
    set_lookup_fault lookup_fault_invalid_root ;;;
    ret (mk_resolve_ret EXCEPTION_LOOKUP_FAULT 0 n_bits)
  else resolve_loop (S (Z.to_nat n_bits)) n_bits nodeCap capptr n_bits.

Definition lookupSlot (thread capptr : Z) : K (exception_t * Z) :=
  let* c := getCTE (TCB_PTR_CTE_PTR thread tcbCTable) in
  let* r := resolveAddressBits (cte_cap c) capptr wordBits in
  ret (ra_status r, ra_slot r).

Definition lookupCap (thread cPtr : Z) : K (exception_t * cap) :=
  let* (status, slot) := lookupSlot thread cPtr in
  if negb (is_none status) then ret (status, cap_null_cap)
  else let* c := getCTE slot in ret (EXCEPTION_NONE, cte_cap c).

Definition lookupCapAndSlot (thread cPtr : Z) : K (exception_t * Z * cap) :=
  let* (status, slot) := lookupSlot thread cPtr in
  if negb (is_none status) then ret (status, 0, cap_null_cap)
  else let* c := getCTE slot in ret (EXCEPTION_NONE, slot, cte_cap c).

(** Writes to [current_syscall_error] set only the fields the code sets. *)
Definition set_syscall_error (f : syscall_error -> syscall_error) : K unit :=
  modify (set_current_syscall_error f).
Definition syscall_error_type (e : seL4_Error) : K unit :=
  set_syscall_error (set_se_type (fun _ => e)).
Definition syscall_failedLookup (isSource : bool) : K unit :=
  set_syscall_error (fun e =>
    set_se_failedLookupWasSource (fun _ => isSource) (set_se_type (fun _ => seL4_FailedLookup) e)).
Definition syscall_rangeError (lo hi : Z) : K unit :=
  set_syscall_error (fun e =>
    set_se_rangeErrorMax (fun _ => hi) (set_se_rangeErrorMin (fun _ => lo)
      (set_se_type (fun _ => seL4_RangeError) e))).
Definition syscall_invalidArgument (n : Z) : K unit :=
  set_syscall_error (fun e =>
    set_se_invalidArgumentNumber (fun _ => n) (set_se_type (fun _ => seL4_InvalidArgument) e)).
Definition syscall_invalidCapability (n : Z) : K unit :=
  set_syscall_error (fun e =>
    set_se_invalidCapNumber (fun _ => n) (set_se_type (fun _ => seL4_InvalidCapability) e)).

Definition lookupSlotForCNodeOp (isSource : bool) (root : cap) (capptr depth : Z)
    : K (exception_t * Z) :=
  if negb (cap_is_cnode root) then
    syscall_failedLookup isSource ;;;
    set_lookup_fault lookup_fault_invalid_root ;;;
    ret (EXCEPTION_SYSCALL_ERROR, 0)
  else if (depth <? 1) || (wordBits <? depth) then
    syscall_rangeError 1 wordBits ;;;
    ret (EXCEPTION_SYSCALL_ERROR, 0)
  else
    let* res_ret := resolveAddressBits root capptr depth in
    if negb (is_none (ra_status res_ret)) then
      syscall_failedLookup isSource ;;;
      ret (EXCEPTION_SYSCALL_ERROR, 0)
    else if negb (ra_bitsRemaining res_ret =? 0) then
      syscall_failedLookup isSource ;;;
      set_lookup_fault (lookup_fault_depth_mismatch 0 (ra_bitsRemaining res_ret)) ;;;
      ret (EXCEPTION_SYSCALL_ERROR, 0)
    else ret (EXCEPTION_NONE, ra_slot res_ret).

Definition lookupSourceSlot (root : cap) (capptr depth : Z) : K (exception_t * Z) :=
  lookupSlotForCNodeOp true root capptr depth.
Definition lookupTargetSlot (root : cap) (capptr depth : Z) : K (exception_t * Z) :=
  lookupSlotForCNodeOp false root capptr depth.
Definition lookupPivotSlot (root : cap) (capptr depth : Z) : K (exception_t * Z) :=
  lookupSlotForCNodeOp true root capptr depth.

(** ** Specification of the walk

    An [n]-bit address [a] is read from its most significant end: [guardBits]
    bits that must equal the guard, [radixBits] bits that select a slot, and
    the rest, which is resolved by the CNode in that slot if there is one. *)
Inductive resolves (h : gmap Z cte) : cap -> Z -> Z -> Z -> Z -> Prop :=
  | resolves_full radix guardBits guard ptr off :
      0 <= off < 2 ^ radix ->
      resolves h (cap_cnode_cap radix guardBits guard ptr)
        (guard * 2 ^ radix + off) (guardBits + radix) (cte_offset ptr off) 0
  | resolves_stop radix guardBits guard ptr off rest a c :
      0 <= off < 2 ^ radix -> 0 < rest -> 0 <= a < 2 ^ rest ->
      h !! cte_offset ptr off = Some c -> cap_is_cnode (cte_cap c) = false ->
      resolves h (cap_cnode_cap radix guardBits guard ptr)
        ((guard * 2 ^ radix + off) * 2 ^ rest + a) (guardBits + radix + rest)
        (cte_offset ptr off) rest
  | resolves_down radix guardBits guard ptr off rest a c slot rem :
      0 <= off < 2 ^ radix -> 0 < rest -> 0 <= a < 2 ^ rest ->
      h !! cte_offset ptr off = Some c -> cap_is_cnode (cte_cap c) = true ->
      resolves h (cte_cap c) a rest slot rem ->
      resolves h (cap_cnode_cap radix guardBits guard ptr)
        ((guard * 2 ^ radix + off) * 2 ^ rest + a) (guardBits + radix + rest) slot rem.

(** Well-formed CNode capabilities: field widths of the bitfield block, a
    guard that fits, at least one bit resolved, and all slots present. *)
Definition cnode_cap_ok (h : gmap Z cte) (c : cap) : Prop :=
  match c with
  | cap_cnode_cap radix guardBits guard ptr =>
      0 <= radix < wordBits /\ 0 <= guardBits < wordBits /\ 0 < radix + guardBits /\
      0 <= guard < 2 ^ guardBits /\
      (forall i, 0 <= i < 2 ^ radix -> is_Some (h !! cte_offset ptr i))
  | _ => True
  end.

Definition cspace_wf (h : gmap Z cte) : Prop :=
  forall p c, h !! p = Some c -> cnode_cap_ok h (cte_cap c).

(** ** Arithmetic of the walk *)
Module Addr.
Lemma digit_unique x x' t t' T :
  0 <= t < T -> 0 <= t' < T -> x * T + t = x' * T + t' -> x = x' /\ t = t'.
Proof. intros. assert (x = x') by nia. subst. split; lia. Qed.

Lemma pow_pos n : 0 <= n -> 0 < 2 ^ n.
Proof. intros. apply Z.pow_pos_nonneg; lia. Qed.

(** An address cut at a CNode level: guard, slot index, remaining bits. *)
Lemma split cp n gb r :
  0 <= gb -> 0 <= r -> gb + r <= n ->
  cp mod 2 ^ n =
  ((cp / 2 ^ (n - gb)) mod 2 ^ gb * 2 ^ r + (cp / 2 ^ (n - gb - r)) mod 2 ^ r)
    * 2 ^ (n - gb - r) + cp mod 2 ^ (n - gb - r).
Proof.
  intros Hg Hr Hn. remember (n - gb - r) as rest eqn:Hdef.
  assert (Hrest : 0 <= rest) by lia.
  replace (n - gb) with (rest + r) by lia.
  replace n with (rest + (r + gb)) by lia.
  rewrite !Z.pow_add_r by lia.
  pose proof (pow_pos rest Hrest). pose proof (pow_pos r Hr). pose proof (pow_pos gb Hg).
  assert (0 < 2 ^ r * 2 ^ gb) by (apply Z.mul_pos_pos; lia).
  rewrite Z.rem_mul_r by lia.
  rewrite (Z.rem_mul_r (cp / 2 ^ rest)) by lia.
  rewrite Z.div_div by lia. ring.
Qed.

(** The shift the code computes for the guard. *)
Lemma guard_shift cp n gb :
  is_word cp -> 0 <= gb < wordBits -> gb <= n <= wordBits ->
  Z.land (Z.shiftr cp (Z.land (wsub n gb) (MASK wordRadix))) (MASK gb)
  = (cp / 2 ^ (n - gb)) mod 2 ^ gb.
Proof.
  unfold wordBits, wordRadix. intros Hcp Hg Hn.
  rewrite wsub_small by (unfold is_word, word_modulus; lia).
  rewrite (land_MASK _ 6) by (unfold wordBits; lia).
  rewrite land_MASK by (unfold wordBits; lia).
  change (2 ^ 6) with 64.
  destruct (decide (n - gb = 64)) as [He|He].
  - assert (gb = 0) as -> by lia. change (2 ^ 0) with 1. by rewrite !Z.mod_1_r.
  - rewrite (Z.mod_small (n - gb) 64) by lia. rewrite Z.shiftr_div_pow2 by lia. done.
Qed.

Lemma offset_shift cp n l r :
  0 <= r < wordBits -> 0 < l <= n -> n <= wordBits ->
  Z.land (Z.shiftr cp (wsub n l)) (MASK r) = (cp / 2 ^ (n - l)) mod 2 ^ r.
Proof.
  unfold wordBits. intros Hr Hl Hn.
  rewrite wsub_small by (unfold is_word, word_modulus; lia).
  rewrite land_MASK by (unfold wordBits; lia).
  by rewrite Z.shiftr_div_pow2 by lia.
Qed.
End Addr.

(** Inversion of the specification at a given address: the guard matches and
    the level fits. *)
Lemma resolves_inv h radix gb guard ptr cp n slot rem :
  0 <= radix -> 0 <= gb ->
  resolves h (cap_cnode_cap radix gb guard ptr) (cp mod 2 ^ n) n slot rem ->
  0 <= guard < 2 ^ gb ->
  gb + radix <= n /\ guard = (cp / 2 ^ (n - gb)) mod 2 ^ gb /\
  let rest := n - gb - radix in
  let p := cte_offset ptr ((cp / 2 ^ rest) mod 2 ^ radix) in
  (rest = 0 /\ slot = p /\ rem = 0) \/
  0 < rest /\ exists c, h !! p = Some c /\
    if cap_is_cnode (cte_cap c) then resolves h (cte_cap c) (cp mod 2 ^ rest) rest slot rem
    else slot = p /\ rem = rest.
Proof.
  intros Hr Hg Hres Hguard.
  assert (Hcut : gb + radix <= n -> forall g off rest a,
    rest = n - gb - radix -> 0 <= off < 2 ^ radix -> 0 <= a < 2 ^ rest ->
    (g * 2 ^ radix + off) * 2 ^ rest + a = cp mod 2 ^ n ->
    g = (cp / 2 ^ (n - gb)) mod 2 ^ gb /\ off = (cp / 2 ^ rest) mod 2 ^ radix /\
    a = cp mod 2 ^ rest).
  { intros Hn g off rest a -> Hoff Ha Heq.
    rewrite (Addr.split cp n gb radix) in Heq by lia.
    apply Addr.digit_unique in Heq as [Heq ->];
      [|lia|apply Z.mod_pos_bound; apply Addr.pow_pos; lia].
    apply Addr.digit_unique in Heq as [-> ->]; [done|lia|].
    apply Z.mod_pos_bound, Addr.pow_pos; lia. }
  inversion Hres as [? ? ? ? off|? ? ? ? off rest a c|? ? ? ? off rest a c]; subst; cbn zeta.
  - destruct (Hcut ltac:(lia) guard off 0 0) as (-> & -> & _); [lia|lia|lia| |].
    { rewrite Z.mul_1_r, Z.add_0_r. done. }
    split_and!; [lia|done|left]. replace (gb + radix - gb - radix) with 0 by lia. done.
  - destruct (Hcut ltac:(lia) guard off rem a) as (Hgd & Hof & Hal); [lia..|done|].
    replace (gb + radix + rem - gb - radix) with rem by lia. rewrite <- Hof, <- Hal.
    split_and!; [lia|done|right; split; [done|]]. exists c. split; [done|].
    by match goal with H : cap_is_cnode _ = false |- _ => rewrite H end.
  - destruct (Hcut ltac:(lia) guard off rest a) as (Hgd & Hof & Hal); [lia..|done|].
    replace (gb + radix + rest - gb - radix) with rest by lia. rewrite <- Hof, <- Hal.
    split_and!; [lia|done|right; split; [done|]]. exists c. split; [done|].
    by match goal with H : cap_is_cnode _ = true |- _ => rewrite H end.
Qed.

Section ResolveLoop.
Context (n0 capptr : Z) (Hword : is_word capptr).

Definition resolve_post (s : kstate) (c : cap) (n : Z)
    (r : resolveAddressBits_ret_t) (s' : kstate) : Prop :=
  (ra_status r = EXCEPTION_NONE /\ s' = s /\
     resolves (ksCTEs s) c (capptr mod 2 ^ n) n (ra_slot r) (ra_bitsRemaining r)) \/
  (ra_status r = EXCEPTION_LOOKUP_FAULT /\ ra_slot r = 0 /\ ra_bitsRemaining r = n0 /\
     (exists f, s' = set_current_lookup_fault (fun _ => f) s) /\
     forall slot rem, ~ resolves (ksCTEs s) c (capptr mod 2 ^ n) n slot rem).

Lemma resolve_loop_spec fuel c n s :
  cspace_wf (ksCTEs s) -> cnode_cap_ok (ksCTEs s) c -> cap_is_cnode c = true ->
  0 <= n <= wordBits -> n < Z.of_nat fuel ->
  wp (resolve_loop fuel n0 c capptr n) (resolve_post s c n) s.
Proof.
  intros Hwf. revert c n. induction fuel as [|fuel IH]; intros c n Hok Hc Hn Hfuel; [lia|].
  destruct c as [| | | | |radix gb guard ptr| | | | | | | | | | | ]; try done. cbn [resolve_loop].
  destruct Hok as (Hr & Hg & Hl & Hguard & Hslots).
  unfold wordBits in Hr, Hg, Hn.
  assert (Hlvl : wadd radix gb = radix + gb)
    by (apply wadd_small; unfold is_word, word_modulus; lia).
  rewrite Hlvl.
  apply wp_bind, wp_assert; [by destruct (Z.eqb_spec (radix + gb) 0); [lia|]|].
  destruct (Z.ltb_spec n gb) as [Hgn|Hgn]; cbn [orb].
  { right. split_and!; [done..|by eexists|]. intros slot rem Hres.
    apply resolves_inv in Hres as [? _]; [lia|lia|lia|done]. }
  rewrite Addr.guard_shift by (unfold wordBits; done || lia).
  destruct (Z.eqb_spec ((capptr / 2 ^ (n - gb)) mod 2 ^ gb) guard) as [Hgd|Hgd]; cbn [negb].
  2: { right. split_and!; [done..|by eexists|]. intros slot rem Hres.
       apply resolves_inv in Hres as (_ & ? & _); [congruence|lia|lia|done]. }
  destruct (Z.ltb_spec n (radix + gb)) as [Hln|Hln].
  { right. split_and!; [done..|by eexists|]. intros slot rem Hres.
    apply resolves_inv in Hres as [? _]; [lia|lia|lia|done]. }
  rewrite Addr.offset_shift by (unfold wordBits; lia).
  rewrite wsub_small by (unfold is_word, word_modulus; lia).
  replace (n - (radix + gb)) with (n - gb - radix) by lia.
  set (rest := n - gb - radix). set (off := (capptr / 2 ^ rest) mod 2 ^ radix).
  assert (Hoff : 0 <= off < 2 ^ radix) by (apply Z.mod_pos_bound, Addr.pow_pos; lia).
  pose proof (Addr.split capptr n gb radix) as Hsp. fold rest off in Hsp.
  rewrite Hgd in Hsp. specialize (Hsp ltac:(lia) ltac:(lia) ltac:(lia)).
  destruct (Z.eqb_spec n (radix + gb)) as [He|He].
  - left. split_and!; [done..|]. cbn. assert (Hrest : rest = 0) by (unfold rest; lia).
    rewrite Hrest in Hsp. rewrite Z.mod_1_r in Hsp.
    rewrite Hsp. replace n with (gb + radix) by lia.
    rewrite Z.mul_1_r, Z.add_0_r. by constructor.
  - destruct (Hslots off Hoff) as [sl Hsl].
    apply wp_bind. eapply wp_getCTE; [exact Hsl|].
    assert (Hrest : 0 < rest) by (unfold rest; lia).
    pose proof (Z.mod_pos_bound capptr (2 ^ rest) (Addr.pow_pos rest ltac:(lia))) as Htail.
    assert (Hn' : n = gb + radix + rest) by (unfold rest; lia).
    destruct (cap_is_cnode (cte_cap sl)) eqn:Hcn; cbn [negb].
    + eapply wp_mono; [apply IH; [by eapply Hwf|done|unfold wordBits; lia|lia]|].
      intros r s' [(? & ? & Hres)|(? & ? & ? & ? & Hno)]; [left|right]; split_and!; try done.
      * rewrite Hsp. rewrite Hn' at 1. by eapply resolves_down.
      * intros slot rem Hres. apply resolves_inv in Hres as (_ & _ & Hcase); [|lia|lia|done].
        cbn zeta in Hcase. fold rest off in Hcase.
        destruct Hcase as [(? & _)|(_ & c' & Hc' & Hres)]; [lia|].
        assert (c' = sl) as -> by congruence. rewrite Hcn in Hres. by eapply Hno.
    + left. split_and!; [done..|]. cbn. rewrite Hsp. rewrite Hn' at 1.
      by eapply resolves_stop.
Qed.
End ResolveLoop.
