(* ===== verification/VSpace.v ===== *)
(** * Address spaces

    Page tables and address-space identifiers: the core of
    src/arch/arm/64/kernel/vspace.c, with the operations of
    include/arch/arm/arch/64/mode/machine.h it uses.  A page table is an array
    of entries in [ksPTEs]; [armKSASIDTable] maps the high bits of an
    identifier to a pool, whose entry for the low bits names the root table.
    The user page tables have [UPT_LEVELS] levels of 512 entries. *)
From S2P Require Import Prelude Structures CapOps CSpace.
From stdpp Require Import base list gmap.
#[local] Open Scope Z_scope.

(** ** Constants *)
Definition seL4_PageTableEntryBits : Z := 3.
Definition PT_INDEX_BITS : Z := 9.
Definition seL4_VSpaceIndexBits : Z := 9.
Definition UPT_LEVELS : Z := 4.
Definition USER_TOP : Z := 0x00007fffffffffff.
Definition asidHighBits : Z := 7.
Definition asidLowBits : Z := 9.
Definition nASIDPools : Z := BIT asidHighBits.
Definition ASID_LOW (a : Z) : Z := Z.land a (MASK asidLowBits).
Definition ASID_HIGH (a : Z) : Z := Z.shiftr a asidLowBits.

Definition PADDR_BASE : Z := 0.
Definition PPTR_BASE : Z := 0xffffff8000000000.
Definition PPTR_BASE_OFFSET : Z := PPTR_BASE - PADDR_BASE.

Definition ptrFromPAddr (paddr : Z) : Z := wadd paddr PPTR_BASE_OFFSET.
Definition addrFromPPtr (pptr : Z) : Z := wsub pptr PPTR_BASE_OFFSET.

Definition UPT_LEVEL_SHIFT (n : Z) : Z := PT_INDEX_BITS * (UPT_LEVELS - 1 - n) + seL4_PageBits.
Definition UPT_INDEX_MASK (n : Z) : Z := if n =? 0 then seL4_VSpaceIndexBits else PT_INDEX_BITS.
Definition GET_UPT_INDEX (addr n : Z) : Z :=
  Z.land (Z.shiftr addr (UPT_LEVEL_SHIFT n)) (MASK (UPT_INDEX_MASK n)).

(** [pte_t *pt + i] *)
Definition pte_offset (pt i : Z) : Z := wadd pt (wshl i seL4_PageTableEntryBits).

(** ** Page table entries

    The [field_high] base addresses keep bits 12 to 47. *)
Definition PTE_ADDR_MASK : Z := 0xfffffffff000.
Definition pte_pte_table_new (pt_base : Z) : pte := pte_table (Z.land pt_base PTE_ADDR_MASK).
Definition page_fields_new (UXN : bool) (page_base nG AF SH AP AttrIndx : Z) : page_fields :=
  mk_page_fields UXN (Z.land page_base PTE_ADDR_MASK) nG AF SH AP AttrIndx.
Definition pte_pte_page_new UXN base nG AF SH AP AttrIndx : pte :=
  pte_page (page_fields_new UXN base nG AF SH AP AttrIndx).
Definition pte_pte_4k_page_new UXN base nG AF SH AP AttrIndx : pte :=
  pte_4k_page (page_fields_new UXN base nG AF SH AP AttrIndx).

Definition pte_pte_table_ptr_get_present (e : pte) : bool :=
  match e with pte_table _ => true | _ => false end.
Definition pte_ptr_get_valid (e : pte) : bool :=
  match e with pte_invalid => false | _ => true end.
Definition pte_is_page_type (e : pte) : bool :=
  match e with pte_4k_page _ | pte_page _ => true | _ => false end.
Definition pte_get_page_base_address (e : pte) : K Z :=
  match e with pte_4k_page f | pte_page f => ret (page_base_address f) | _ => fail end.

Definition APFromVMRights (r : vm_rights) : Z :=
  match r with VMKernelOnly => 0 | VMReadWrite => 1 | VMReadOnly => 3 end.

Definition pte_get_AP (e : pte) : K Z :=
  assert (pte_is_page_type e) ;;;
  match e with
  | pte_4k_page f => ret (pte_AP f)
  | pte_page f => ret (pte_AP f)
  | _ => ret 0
  end.

Definition vmRightsFromPTE (e : pte) : K vm_rights :=
  let* access_perms := pte_get_AP e in
  if (access_perms =? 0) || (access_perms =? 2) then ret VMKernelOnly
  else if access_perms =? 1 then ret VMReadWrite
  else if access_perms =? 3 then ret VMReadOnly
  else fail.

(** [vm_attributes_t] *)
Definition vm_attributes_get_armPageCacheable (w : Z) : bool := Z.testbit w 0.
Definition vm_attributes_get_armExecuteNever (w : Z) : bool := Z.testbit w 2.

(** [enum mair_types] *)
Definition DEVICE_nGnRnE : Z := 0.
Definition NORMAL : Z := 4.

Definition makeUserPagePTE (paddr : Z) (r : vm_rights) (attributes : Z) (page_size : vm_page_size) : pte :=
  let nonexecutable := vm_attributes_get_armExecuteNever attributes in
  let cacheable := vm_attributes_get_armPageCacheable attributes in
  let nG := 1 in
  let attridx := if cacheable then NORMAL else DEVICE_nGnRnE in
  let shareable := 0 in
  match page_size with
  | ARMSmallPage => pte_pte_4k_page_new nonexecutable paddr nG 1 shareable (APFromVMRights r) attridx
  | _ => pte_pte_page_new nonexecutable paddr nG 1 shareable (APFromVMRights r) attridx
  end.

(** ** The memory-management hardware *)
Definition cleanByVA_PoU (vaddr paddr : Z) : K unit := doMachineOp (op_cleanByVA_PoU vaddr paddr).

Definition cleanCacheRange_RAM (start end_ pstart : Z) : K unit :=
  doMachineOp (op_cleanCacheRange_RAM start end_ pstart).
Definition cleanCacheRange_PoU (start end_ pstart : Z) : K unit :=
  doMachineOp (op_cleanCacheRange_PoU start end_ pstart).
Definition invalidateCacheRange_RAM (start end_ pstart : Z) : K unit :=
  doMachineOp (op_invalidateCacheRange_RAM start end_ pstart).
Definition cleanInvalidateCacheRange_RAM (start end_ pstart : Z) : K unit :=
  doMachineOp (op_cleanInvalidateCacheRange_RAM start end_ pstart).
Definition invalidateCacheRange_I (start end_ pstart : Z) : K unit :=
  doMachineOp (op_invalidateCacheRange_I start end_ pstart).

(** The parameter has type [hw_asid_t], eight bits: the identifier is
    truncated at the call. *)
Definition hw_asid_t_of (asid : Z) : Z := asid mod 2 ^ 8.
Definition invalidateTranslationASID (asid : Z) : K unit :=
  doMachineOp (op_invalidateTranslationASID (hw_asid_t_of asid)).
Definition invalidateTranslationSingle (vptr : Z) : K unit :=
  doMachineOp (op_invalidateTranslationSingle vptr).

Definition invalidateTLBByASID (asid : Z) : K unit := invalidateTranslationASID asid.
Definition invalidateTLBByASIDVA (asid vaddr : Z) : K unit :=
  invalidateTranslationSingle (Z.lor (wshl asid 48) (Z.shiftr vaddr seL4_PageBits)).

Definition armv_contextSwitch (vspace asid : Z) : K unit :=
  doMachineOp (op_setCurrentUserVSpaceRoot asid (addrFromPPtr vspace)).
Definition setGlobalUserVSpace : K unit := doMachineOp op_setCurrentUserVSpaceRoot_global.

(** ** Address-space identifiers *)

(** [armKSASIDTable[i]] and [pool->array[i]] *)
Definition asid_table (s : kstate) (i : Z) : Z := default 0 (armKSASIDTable s !! i).
Definition pool_entry (pool : asid_pool) (i : Z) : asid_map := default asid_map_none (pool !! i).

#[export] Instance asid_map_eq_dec : EqDecision asid_map.
Proof. solve_decision. Defined.

Definition findMapForASID (asid : Z) : K asid_map :=
  let* poolPtr := gets (fun s => asid_table s (ASID_HIGH asid)) in
  if poolPtr =? 0 then ret asid_map_none
  else let* pool := getPool poolPtr in ret (pool_entry pool (ASID_LOW asid)).

Definition findVSpaceForASID (asid : Z) : K (exception_t * Z) :=
  let* m := findMapForASID asid in
  match m with
  | asid_map_vspace vspace_root => ret (EXCEPTION_NONE, vspace_root)
  | asid_map_none =>
      modify (set_current_lookup_fault (fun _ => lookup_fault_invalid_root)) ;;;
      ret (EXCEPTION_LOOKUP_FAULT, 0)
  end.

Definition isVTableRoot (c : cap) : bool :=
  match c with cap_vspace_cap _ _ _ => true | _ => false end.
Definition isValidNativeRoot (c : cap) : bool :=
  match c with cap_vspace_cap _ _ isMapped => isMapped | _ => false end.
Definition isValidVTableRoot (c : cap) : bool := isValidNativeRoot c.

Definition setVMRoot (tcb : Z) : K unit :=
  let* c := getCTE (TCB_PTR_CTE_PTR tcb tcbVTable) in
  match cte_cap c with
  | cap_vspace_cap asid vspaceRoot true =>
      let* (status, vspace_root) := findVSpaceForASID asid in
      if negb (is_none status) || negb (vspace_root =? vspaceRoot) then setGlobalUserVSpace
      else armv_contextSwitch vspaceRoot asid
  | _ => setGlobalUserVSpace
  end.

Definition setVMRootForFlush (vspace asid : Z) : K bool :=
  let* cur := gets ksCurThread in
  let* c := getCTE (TCB_PTR_CTE_PTR cur tcbVTable) in
  if match cte_cap c with
     | cap_vspace_cap _ base isMapped => isMapped && (base =? vspace)
     | _ => false
     end
  then ret false
  else armv_contextSwitch vspace asid ;;; ret true.

(** ** Walking the page tables *)
Record lookupPTSlot_ret_t : Type := mk_lookupPTSlot_ret { ptSlot : Z; ptBitsLeft : Z }.

(** The [while] loop; [level] is at most [UPT_LEVELS - 1] and decreases. *)
Fixpoint lookupPTSlot_loop (fuel : nat) (level vptr slot bitsLeft : Z) : K lookupPTSlot_ret_t :=
  match fuel with
  | O => fail
  | S fuel' =>
      let* e := getPTE slot in
      match e with
      | pte_table pt_base_address =>
          if 0 <? level then
            let bitsLeft' := wsub bitsLeft PT_INDEX_BITS in
            let pt := ptrFromPAddr pt_base_address in
            lookupPTSlot_loop fuel' (level - 1) vptr
              (pte_offset pt (Z.land (Z.shiftr vptr bitsLeft') (MASK PT_INDEX_BITS))) bitsLeft'
          else ret (mk_lookupPTSlot_ret slot bitsLeft)
      | _ => ret (mk_lookupPTSlot_ret slot bitsLeft)
      end
  end.

Definition lookupPTSlot (vspace vptr : Z) : K lookupPTSlot_ret_t :=
  let level := UPT_LEVELS - 1 in
  let bitsLeft := PT_INDEX_BITS * level + seL4_PageBits in
  lookupPTSlot_loop (Z.to_nat UPT_LEVELS) level vptr
    (pte_offset vspace (Z.land (Z.shiftr vptr bitsLeft) (MASK seL4_VSpaceIndexBits))) bitsLeft.

(** ** Unmapping *)

(** [for (i = 0; i < UPT_LEVELS - 1 && pt != target_pt; i++)]: the table
    reached and the slot that points to it, or nothing on an early return.  A
    slot of 0 is the initial [NULL]. *)
Fixpoint unmapPageTable_loop (n : nat) (i vptr target_pt pt slot : Z) : K (option (Z * Z)) :=
  match n with
  | O => ret (Some (pt, slot))
  | S n' =>
      if pt =? target_pt then ret (Some (pt, slot))
      else
        let slot' := pte_offset pt (GET_UPT_INDEX vptr i) in
        let* e := getPTE slot' in
        match e with
        | pte_table pt_base_address =>
            unmapPageTable_loop n' (i + 1) vptr target_pt (ptrFromPAddr pt_base_address) slot'
        | _ => ret None
        end
  end.

Definition unmapPageTable (asid vptr target_pt : Z) : K unit :=
  let* (status, vspace_root) := findVSpaceForASID asid in
  if negb (is_none status) then ret tt
  else
    let* r := unmapPageTable_loop (Z.to_nat (UPT_LEVELS - 1)) 0 vptr target_pt vspace_root 0 in
    match r with
    | None => ret tt
    | Some (pt, slot) =>
        if negb (pt =? target_pt) then ret tt
        else
          assert (negb (slot =? 0)) ;;;
          putPTE slot pte_invalid ;;;
          cleanByVA_PoU slot (addrFromPPtr slot) ;;;
          invalidateTLBByASID asid
    end.

Definition unmapPage (page_size : vm_page_size) (asid vptr pptr : Z) : K unit :=
  let* (status, vspace_root) := findVSpaceForASID asid in
  if negb (is_none status) then ret tt
  else
    let* lu_ret := lookupPTSlot vspace_root vptr in
    if negb (ptBitsLeft lu_ret =? pageBitsForSize page_size) then ret tt
    else
      let* e := getPTE (ptSlot lu_ret) in
      if negb (pte_is_page_type e) then ret tt
      else
        let* base := pte_get_page_base_address e in
        if negb (base =? addrFromPPtr pptr) then ret tt
        else
          putPTE (ptSlot lu_ret) pte_invalid ;;;
          cleanByVA_PoU (ptSlot lu_ret) (addrFromPPtr (ptSlot lu_ret)) ;;;
          assert (asid <? BIT 16) ;;;
          invalidateTLBByASIDVA asid vptr.

(** ** Deleting identifiers *)
Definition deleteASID (asid vspace : Z) : K unit :=
  let* poolPtr := gets (fun s => asid_table s (ASID_HIGH asid)) in
  if poolPtr =? 0 then ret tt
  else
    let* pool := getPool poolPtr in
    match pool_entry pool (ASID_LOW asid) with
    | asid_map_vspace vspace_root =>
        if vspace_root =? vspace then
          invalidateTLBByASID asid ;;;
          modify (set_ksASIDPools (insert poolPtr (<[ASID_LOW asid := asid_map_none]> pool))) ;;;
          let* cur := gets ksCurThread in
          setVMRoot cur
        else ret tt
    | asid_map_none => ret tt
    end.

Definition deleteASIDPool (asid_base pool : Z) : K unit :=
  assert (Z.land asid_base (MASK asidLowBits) =? 0) ;;;
  let* poolPtr := gets (fun s => asid_table s (ASID_HIGH asid_base)) in
  if poolPtr =? pool then
    for_ 0 (BIT asidLowBits) (fun offset =>
      let* p := getPool pool in
      match pool_entry p offset with
      | asid_map_vspace _ => invalidateTLBByASID (wadd asid_base offset)
      | asid_map_none => ret tt
      end) ;;;
    modify (set_armKSASIDTable (insert (ASID_HIGH asid_base) 0)) ;;;
    let* cur := gets ksCurThread in
    setVMRoot cur
  else ret tt.

(** ** Well-formed address-space state

    Every thread has the slot of its root table, and the entries of the
    identifier table point to pools, each to its own. *)
Record vm_ok (s : kstate) : Prop := {
  vm_slots : forall x, is_Some (ksTCBs s !! x) -> is_Some (ksCTEs s !! TCB_PTR_CTE_PTR x tcbVTable);
  vm_pools : forall i, asid_table s i <> 0 -> is_Some (ksASIDPools s !! asid_table s i);
  vm_distinct : forall i j, asid_table s i <> 0 -> asid_table s i = asid_table s j -> i = j
}.

(** It only depends on the slots, the pools and which threads exist. *)
Lemma vm_ok_same s s' :
  ksCTEs s' = ksCTEs s -> ksASIDPools s' = ksASIDPools s -> armKSASIDTable s' = armKSASIDTable s ->
  (forall x, is_Some (ksTCBs s' !! x) -> is_Some (ksTCBs s !! x)) -> vm_ok s -> vm_ok s'.
Proof.
  intros Hc Hp Ht Hx [Hs Hpools Hd]. unfold asid_table in *. rewrite <- Ht in Hpools, Hd. split.
  - intros x Hsome. rewrite Hc. by apply Hs, Hx.
  - unfold asid_table. rewrite Hp. exact Hpools.
  - exact Hd.
Qed.

(** What a switch of address space changes. *)
Definition vm_trace : Type := lookup_fault * list machine_op.
Definition trace_of (s : kstate) : vm_trace := (current_lookup_fault s, ksMachine s).
Definition with_trace (tr : vm_trace) (s : kstate) : kstate :=
  set_current_lookup_fault (fun _ => tr.1) (set_ksMachine (fun _ => tr.2) s).

Lemma with_trace_of s : with_trace (trace_of s) s = s.
Proof. by destruct s. Qed.

(** The entry of an identifier. *)
Definition asid_lookup (s : kstate) (asid : Z) : asid_map :=
  if asid_table s (ASID_HIGH asid) =? 0 then asid_map_none
  else pool_entry (default ∅ (ksASIDPools s !! asid_table s (ASID_HIGH asid))) (ASID_LOW asid).

(** What [setVMRoot] tells the hardware for a thread: the root its capability
    maps when the identifier still leads to it, the empty root otherwise. *)
Definition vmroot_op (s : kstate) (x : Z) : machine_op :=
  match cte_cap <$> ksCTEs s !! TCB_PTR_CTE_PTR x tcbVTable with
  | Some (cap_vspace_cap asid root true) =>
      match asid_lookup s asid with
      | asid_map_vspace r =>
          if r =? root then op_setCurrentUserVSpaceRoot asid (addrFromPPtr root)
          else op_setCurrentUserVSpaceRoot_global
      | asid_map_none => op_setCurrentUserVSpaceRoot_global
      end
  | _ => op_setCurrentUserVSpaceRoot_global
  end.

(** The lookup fault it leaves: a missing identifier is recorded. *)
Definition vmroot_fault (s : kstate) (x : Z) (lf : lookup_fault) : lookup_fault :=
  match cte_cap <$> ksCTEs s !! TCB_PTR_CTE_PTR x tcbVTable with
  | Some (cap_vspace_cap asid _ true) =>
      match asid_lookup s asid with asid_map_none => lookup_fault_invalid_root | _ => lf end
  | _ => lf
  end.

(** Both depend on the slots, the identifier table and the pools only. *)
Lemma vmroot_same s s' x :
  ksCTEs s' = ksCTEs s -> armKSASIDTable s' = armKSASIDTable s -> ksASIDPools s' = ksASIDPools s ->
  vmroot_op s' x = vmroot_op s x /\ vmroot_fault s' x = vmroot_fault s x.
Proof. unfold vmroot_op, vmroot_fault, asid_lookup, asid_table. by intros -> -> ->. Qed.

Section WpAsid.
Context (s : kstate) (Hok : vm_ok s).

Lemma wp_findMapForASID asid Q : Q (asid_lookup s asid) s -> wp (findMapForASID asid) Q s.
Proof.
  unfold findMapForASID, asid_lookup. intros HQ. do 2 wp_struct.
  destruct (Z.eqb_spec (asid_table s (ASID_HIGH asid)) 0) as [|Hp]; [by wp_struct|].
  destruct (vm_pools s Hok _ Hp) as [p Hpool]. rewrite Hpool in HQ.
  wp_struct. eapply wp_getPool; [exact Hpool|]. by wp_struct.
Qed.

Lemma wp_findVSpaceForASID asid Q :
  (forall root, asid_lookup s asid = asid_map_vspace root -> Q (EXCEPTION_NONE, root) s) ->
  (asid_lookup s asid = asid_map_none ->
     Q (EXCEPTION_LOOKUP_FAULT, 0) (set_current_lookup_fault (fun _ => lookup_fault_invalid_root) s)) ->
  wp (findVSpaceForASID asid) Q s.
Proof.
  intros Hsome Hnone. unfold findVSpaceForASID. wp_struct. apply wp_findMapForASID.
  destruct (asid_lookup s asid) as [|root]; [|by wp_struct; apply Hsome].
  do 3 wp_struct. by apply Hnone.
Qed.

(** Switching the address space is one operation of the hardware; it can set
    the lookup fault. *)
Lemma wp_setVMRoot_op t Q :
  is_Some (ksTCBs s !! t) ->
  Q tt (with_trace (vmroot_fault s t (current_lookup_fault s), vmroot_op s t :: ksMachine s) s) ->
  wp (setVMRoot t) Q s.
Proof.
  intros Ht HQ. destruct (vm_slots s Hok t Ht) as [c Hc].
  assert (Hop : forall op, Q tt (with_trace (current_lookup_fault s, op :: ksMachine s) s) ->
    wp (doMachineOp op) Q s) by (by intros op).
  unfold vmroot_fault, vmroot_op in HQ. rewrite Hc in HQ. cbn [fmap option_fmap option_map] in HQ.
  unfold setVMRoot, setGlobalUserVSpace. wp_struct. eapply wp_getCTE; [exact Hc|].
  destruct (cte_cap c) as [| | | | | | | | | | | | |asid root [|]| | |]; try (by apply Hop).
  wp_struct. apply wp_findVSpaceForASID.
  - intros r Hr. rewrite Hr in HQ. cbn [is_none negb orb].
    destruct (r =? root); apply Hop, HQ.
  - intros Hn. rewrite Hn in HQ. exact HQ.
Qed.

Lemma wp_setVMRoot t Q :
  is_Some (ksTCBs s !! t) -> (forall tr, Q tt (with_trace tr s)) -> wp (setVMRoot t) Q s.
Proof. intros Ht HQ. by apply wp_setVMRoot_op. Qed.
End WpAsid.
