(* ===== verification/Sched.v ===== *)
(** * Scheduler

    Ready queues and their two-level bitmap (src/object/tcb.c,
    include/kernel/thread.h, include/object/tcb.h) and the scheduling
    functions of src/kernel/thread.c, with the FPU hand-over of
    src/machine/fpu.c. *)
From S2P Require Import Prelude Dll Structures CapOps CSpace VSpace.
From stdpp Require Import base list sets gmap.
#[local] Open Scope Z_scope.

Definition SchedulerAction_ResumeCurrentThread : Z := 0.
Definition SchedulerAction_ChooseNewThread : Z := 1.

(** ** Thread-state predicates *)
Definition tsType_of (t : tcb) : thread_state_type := tsType (tcbState t).

Definition isRunnable_tcb (t : tcb) : bool :=
  match tsType_of t with ThreadState_Running | ThreadState_Restart => true | _ => false end.
Definition isStopped_tcb (t : tcb) : bool :=
  match tsType_of t with
  | ThreadState_Inactive | ThreadState_BlockedOnReceive | ThreadState_BlockedOnSend
  | ThreadState_BlockedOnNotification | ThreadState_BlockedOnReply => true
  | _ => false
  end.
Definition isBlocked_tcb (t : tcb) : bool :=
  match tsType_of t with
  | ThreadState_BlockedOnReceive | ThreadState_BlockedOnSend
  | ThreadState_BlockedOnNotification | ThreadState_BlockedOnReply => true
  | _ => false
  end.

Definition isRunnable (thread : Z) : K bool :=
  let* t := getTCB thread in ret (isRunnable_tcb t).
(** [#define isSchedulable isRunnable] without MCS. *)
Definition isSchedulable : Z -> K bool := isRunnable.

Definition upd_state (f : thread_state -> thread_state) : tcb -> tcb := set_tcbState f.

(** ** Registers *)
Definition badgeRegister : Z := 0.
Definition capRegister : Z := 0.
Definition msgInfoRegister : Z := 1.
Definition SP_EL0 : Z := 31.
Definition ELR_EL1 : Z := 32.
Definition NextIP : Z := 32.
Definition SPSR_EL1 : Z := 33.
Definition FaultIP : Z := 34.
Definition TPIDR_EL0 : Z := 35.
Definition TPIDRRO_EL0 : Z := 36.
Definition TLS_BASE : Z := TPIDR_EL0.

Definition reg (t : tcb) (r : Z) : Z := default 0 (tcbContext t !! r).
Definition getRegister (thread r : Z) : K Z := let* t := getTCB thread in ret (reg t r).
Definition setRegister (thread r v : Z) : K unit :=
  modTCB thread (set_tcbContext (insert r v)).
Definition getRestartPC (thread : Z) : K Z := getRegister thread FaultIP.
Definition setNextPC (thread v : Z) : K unit := setRegister thread NextIP v.
Definition updateRestartPC (thread : Z) : K unit :=
  let* pc := getRegister thread NextIP in setRegister thread FaultIP pc.

(** ** Ready-queue bitmap *)
Definition ready_queues_index (dom prio : Z) : K Z :=
  if 1 <? numDomains then ret (wadd (dom * CONFIG_NUM_PRIORITIES) prio)
  else assert (dom =? 0) ;;; ret prio.
Definition prio_to_l1index (prio : Z) : Z := Z.shiftr prio wordRadix.
Definition l1index_to_prio (l1index : Z) : Z := wshl l1index wordRadix.
Definition invert_l1index (l1index : Z) : K Z :=
  let inverted := wsub (L2_BITMAP_SIZE - 1) l1index in
  assert (inverted <? L2_BITMAP_SIZE) ;;; ret inverted.

Definition getL1 (dom : Z) : K Z :=
  let* o := gets (fun s => ksReadyQueuesL1Bitmap s !! dom) in from_option_M o.
Definition putL1 (dom v : Z) : K unit := modify (set_ksReadyQueuesL1Bitmap (insert dom v)).
Definition getL2 (dom i : Z) : K Z :=
  let* o := gets (fun s => ksReadyQueuesL2Bitmap s !! (dom, i)) in from_option_M o.
Definition putL2 (dom i v : Z) : K unit :=
  modify (set_ksReadyQueuesL2Bitmap (insert (dom, i) v)).
Definition getReadyQueue (idx : Z) : K tcb_queue :=
  let* o := gets (fun s => ksReadyQueues s !! idx) in from_option_M o.
Definition putReadyQueue (idx : Z) (q : tcb_queue) : K unit :=
  modify (set_ksReadyQueues (insert idx q)).

Definition addToBitmap (dom prio : Z) : K unit :=
  let l1index := prio_to_l1index prio in
  let* l1index_inverted := invert_l1index l1index in
  let* l1 := getL1 dom in
  putL1 dom (Z.lor l1 (BIT l1index)) ;;;
  let* l2 := getL2 dom l1index_inverted in
  putL2 dom l1index_inverted (Z.lor l2 (BIT (Z.land prio (MASK wordRadix)))).

Definition removeFromBitmap (dom prio : Z) : K unit :=
  let l1index := prio_to_l1index prio in
  let* l1index_inverted := invert_l1index l1index in
  let* l2 := getL2 dom l1index_inverted in
  let l2' := Z.land l2 (wnot (BIT (Z.land prio (MASK wordRadix)))) in
  putL2 dom l1index_inverted l2' ;;;
  if l2' =? 0 then
    let* l1 := getL1 dom in
    putL1 dom (Z.land l1 (wnot (BIT l1index)))
  else ret tt.

(** Leading zeros of a nonzero word; the code never calls it on [0]. *)
Definition clzl (x : Z) : Z := wordBits - 1 - Z.log2 x.

Definition getHighestPrio (dom : Z) : K Z :=
  let* l1 := getL1 dom in
  assert (negb (l1 =? 0)) ;;;
  let l1index := wsub (wordBits - 1) (clzl l1) in
  let* l1index_inverted := invert_l1index l1index in
  let* l2 := getL2 dom l1index_inverted in
  assert (negb (l2 =? 0)) ;;;
  let l2index := wsub (wordBits - 1) (clzl l2) in
  ret (Z.lor (l1index_to_prio l1index) l2index).

Definition isHighestPrio (dom prio : Z) : K bool :=
  let* l1 := getL1 dom in
  if l1 =? 0 then ret true
  else let* hp := getHighestPrio dom in ret (hp <=? prio).

(** ** Ready queues *)
Definition tcb_queue_empty (q : tcb_queue) : bool := q_head q =? 0.

Definition tcb_queue_prepend (queue : tcb_queue) (tcb : Z) : K tcb_queue :=
  let* queue' :=
    if tcb_queue_empty queue then ret (mk_queue (q_head queue) tcb)
    else modTCB tcb (set_tcbSchedNext (fun _ => q_head queue)) ;;;
         modTCB (q_head queue) (set_tcbSchedPrev (fun _ => tcb)) ;;;
         ret queue in
  ret (mk_queue tcb (q_end queue')).

Definition tcb_queue_append (queue : tcb_queue) (tcb : Z) : K tcb_queue :=
  let* queue' :=
    if tcb_queue_empty queue then ret (mk_queue tcb (q_end queue))
    else modTCB tcb (set_tcbSchedPrev (fun _ => q_end queue)) ;;;
         modTCB (q_end queue) (set_tcbSchedNext (fun _ => tcb)) ;;;
         ret queue in
  ret (mk_queue (q_head queue') tcb).

Definition tcb_queue_remove (queue : tcb_queue) (tcb : Z) : K tcb_queue :=
  let* t := getTCB tcb in
  let before := tcbSchedPrev t in
  let after := tcbSchedNext t in
  if (q_head queue =? tcb) && (q_end queue =? tcb) then ret (mk_queue 0 0)
  else if q_head queue =? tcb then
    modTCB after (set_tcbSchedPrev (fun _ => 0)) ;;;
    modTCB tcb (set_tcbSchedNext (fun _ => 0)) ;;;
    ret (mk_queue after (q_end queue))
  else if q_end queue =? tcb then
    modTCB before (set_tcbSchedNext (fun _ => 0)) ;;;
    modTCB tcb (set_tcbSchedPrev (fun _ => 0)) ;;;
    ret (mk_queue (q_head queue) before)
  else
    modTCB before (set_tcbSchedNext (fun _ => after)) ;;;
    modTCB after (set_tcbSchedPrev (fun _ => before)) ;;;
    modTCB tcb (set_tcbSchedPrev (fun _ => 0)) ;;;
    modTCB tcb (set_tcbSchedNext (fun _ => 0)) ;;;
    ret queue.

Definition tcbSchedEnqueue (tcb : Z) : K unit :=
  let* t := getTCB tcb in
  if negb (tcbQueued (tcbState t)) then
    let dom := tcbDomain t in
    let prio := tcbPriority t in
    let* idx := ready_queues_index dom prio in
    let* queue := getReadyQueue idx in
    (if tcb_queue_empty queue then addToBitmap dom prio else ret tt) ;;;
    let* queue' := tcb_queue_prepend queue tcb in
    putReadyQueue idx queue' ;;;
    modTCB tcb (upd_state (set_tcbQueued (fun _ => true)))
  else ret tt.

Definition tcbSchedAppend (tcb : Z) : K unit :=
  let* t := getTCB tcb in
  if negb (tcbQueued (tcbState t)) then
    let dom := tcbDomain t in
    let prio := tcbPriority t in
    let* idx := ready_queues_index dom prio in
    let* queue := getReadyQueue idx in
    (if tcb_queue_empty queue then addToBitmap dom prio else ret tt) ;;;
    let* queue' := tcb_queue_append queue tcb in
    putReadyQueue idx queue' ;;;
    modTCB tcb (upd_state (set_tcbQueued (fun _ => true)))
  else ret tt.

Definition tcbSchedDequeue (tcb : Z) : K unit :=
  let* t := getTCB tcb in
  if tcbQueued (tcbState t) then
    let dom := tcbDomain t in
    let prio := tcbPriority t in
    let* idx := ready_queues_index dom prio in
    let* queue := getReadyQueue idx in
    let* new_queue := tcb_queue_remove queue tcb in
    putReadyQueue idx new_queue ;;;
    modTCB tcb (upd_state (set_tcbQueued (fun _ => false))) ;;;
    (if tcb_queue_empty new_queue then removeFromBitmap dom prio else ret tt)
  else ret tt.

(** ** Scheduler action *)
Definition setSchedulerAction (a : Z) : K unit := modify (set_ksSchedulerAction (fun _ => a)).

Definition rescheduleRequired : K unit :=
  let* action := gets ksSchedulerAction in
  (if negb (action =? SchedulerAction_ResumeCurrentThread)
      && negb (action =? SchedulerAction_ChooseNewThread)
   then tcbSchedEnqueue action else ret tt) ;;;
  setSchedulerAction SchedulerAction_ChooseNewThread.

Definition scheduleTCB (tptr : Z) : K unit :=
  let* cur := gets ksCurThread in
  let* action := gets ksSchedulerAction in
  if (tptr =? cur) && (action =? SchedulerAction_ResumeCurrentThread) then
    let* schedulable := isSchedulable tptr in
    if negb schedulable then setSchedulerAction SchedulerAction_ChooseNewThread else ret tt
  else ret tt.

Definition setThreadState (tptr : Z) (ts : thread_state_type) : K unit :=
  modTCB tptr (upd_state (set_tsType (fun _ => ts))) ;;; scheduleTCB tptr.

Definition possibleSwitchTo (target : Z) : K unit :=
  let* t := getTCB target in
  let* curDomain := gets ksCurDomain in
  let* action := gets ksSchedulerAction in
  if negb (curDomain =? tcbDomain t) then tcbSchedEnqueue target
  else if negb (action =? SchedulerAction_ResumeCurrentThread) then
    rescheduleRequired ;;; tcbSchedEnqueue target
  else setSchedulerAction target.

(** ** FPU ownership (src/machine/fpu.c) *)
Definition seL4_TCBFlag_fpuDisabled : Z := 1.
Definition seL4_TCBFlag_MASK : Z := 1.

Definition switchLocalFpuOwner (new_owner : Z) : K unit :=
  doMachineOp op_enableFpu ;;;
  let* owner := gets ksCurFPUOwner in
  (if negb (owner =? 0) then doMachineOp (op_saveFpuState owner) else ret tt) ;;;
  (if negb (new_owner =? 0) then doMachineOp (op_loadFpuState new_owner)
   else doMachineOp op_disableFpu) ;;;
  modify (set_ksCurFPUOwner (fun _ => new_owner)).

Definition switchFpuOwner (new_owner : Z) : K unit := switchLocalFpuOwner new_owner.

Definition nativeThreadUsingFPU (thread : Z) : K bool :=
  gets (fun s => thread =? ksCurFPUOwner s).

Definition fpuRelease (thread : Z) : K unit :=
  let* uses_fpu := nativeThreadUsingFPU thread in
  if (uses_fpu : bool) then switchFpuOwner 0 else ret tt.

Definition lazyFPURestore (thread : Z) : K unit :=
  let* t := getTCB thread in
  if negb (Z.land (tcbFlags t) seL4_TCBFlag_fpuDisabled =? 0) then doMachineOp op_disableFpu
  else
    let* uses_fpu := nativeThreadUsingFPU thread in
    if (uses_fpu : bool) then doMachineOp op_enableFpu else switchLocalFpuOwner thread.

(** ** Choosing a thread *)
Definition Arch_switchToThread (tcb : Z) : K unit := setVMRoot tcb.
Definition Arch_switchToIdleThread : K unit := setGlobalUserVSpace.

Definition switchToThread (thread : Z) : K unit :=
  Arch_switchToThread thread ;;;
  lazyFPURestore thread ;;;
  tcbSchedDequeue thread ;;;
  modify (set_ksCurThread (fun _ => thread)).

Definition switchToIdleThread : K unit :=
  Arch_switchToIdleThread ;;;
  let* idle := gets ksIdleThread in
  modify (set_ksCurThread (fun _ => idle)).

Definition chooseThread : K unit :=
  let* dom := if 1 <? numDomains then gets ksCurDomain else ret 0 in
  let* l1 := getL1 dom in
  if negb (l1 =? 0) then
    let* prio := getHighestPrio dom in
    let* idx := ready_queues_index dom prio in
    let* queue := getReadyQueue idx in
    let thread := q_head queue in
    assert (negb (thread =? 0)) ;;;
    let* schedulable := isSchedulable thread in
    assert schedulable ;;;
    switchToThread thread
  else switchToIdleThread.

(** ** Domains *)
Definition prepareSetDomain (tptr dom : Z) : K unit :=
  let* cur := gets ksCurDomain in
  if negb (cur =? dom) then fpuRelease tptr else ret tt.

Definition prepareNextDomain : K unit := switchLocalFpuOwner 0.

(** [dschedule_t] of include/object/domain.h: the domain in the top 8 bits,
    the duration in the low 56. *)
Definition DSCHED_DOMAIN_BITS : Z := 8.
Definition DSCHED_DOMAIN_SHIFT : Z := 64 - DSCHED_DOMAIN_BITS.
Definition DSCHED_MAX_DURATION : Z := Z.shiftr (word_modulus - 1) DSCHED_DOMAIN_BITS.
Definition DSCHED_DURATION_MASK : Z := DSCHED_MAX_DURATION.

Definition dschedule_make (domain duration : Z) : Z := Z.lor (wshl domain DSCHED_DOMAIN_SHIFT) duration.
Definition dschedule_domain (sched : Z) : Z := Z.shiftr sched DSCHED_DOMAIN_SHIFT.
Definition dschedule_duration (sched : Z) : Z := Z.land sched DSCHED_DURATION_MASK.

Definition getDomSchedule (i : Z) : K Z :=
  let* o := gets (fun s => ksDomSchedule s !! Z.to_nat i) in from_option_M o.

Definition dschedule_is_end_marker (i : Z) : K bool :=
  let* w := getDomSchedule i in ret (w =? 0).

Definition nextDomain : K unit :=
  modify (set_ksDomScheduleIdx (fun i => wadd i 1)) ;;;
  let* i := gets ksDomScheduleIdx in
  let* at_end := dschedule_is_end_marker i in
  (if (at_end : bool) then
     let* start := gets ksDomScheduleStart in modify (set_ksDomScheduleIdx (fun _ => start))
   else ret tt) ;;;
  modify (set_ksWorkUnitsCompleted (fun _ => 0)) ;;;
  let* i' := gets ksDomScheduleIdx in
  let* sched := getDomSchedule i' in
  modify (set_ksCurDomain (fun _ => dschedule_domain sched)) ;;;
  modify (set_ksDomainTime (fun _ => dschedule_duration sched)).

Definition scheduleChooseNewThread : K unit :=
  let* time := gets ksDomainTime in
  (if time =? 0 then prepareNextDomain ;;; nextDomain else ret tt) ;;;
  chooseThread.

Definition schedule : K unit :=
  let* action := gets ksSchedulerAction in
  (if negb (action =? SchedulerAction_ResumeCurrentThread) then
    let* cur := gets ksCurThread in
    let* was_runnable := isSchedulable cur in
    (if (was_runnable : bool) then tcbSchedEnqueue cur else ret tt) ;;;
    if action =? SchedulerAction_ChooseNewThread then scheduleChooseNewThread
    else
      let candidate := action in
      let* schedulable := isSchedulable candidate in
      assert schedulable ;;;
      let* idle := gets ksIdleThread in
      let* cand := getTCB candidate in
      let* curt := getTCB cur in
      let fastfail := (cur =? idle) || (tcbPriority cand <? tcbPriority curt) in
      let* curDomain := gets ksCurDomain in
      let* highest := if fastfail then isHighestPrio curDomain (tcbPriority cand) else ret true in
      if fastfail && negb highest then
        tcbSchedEnqueue candidate ;;;
        setSchedulerAction SchedulerAction_ChooseNewThread ;;;
        scheduleChooseNewThread
      else if was_runnable && (tcbPriority cand =? tcbPriority curt) then
        tcbSchedAppend candidate ;;;
        setSchedulerAction SchedulerAction_ChooseNewThread ;;;
        scheduleChooseNewThread
      else
        assert (negb (candidate =? cur)) ;;;
        switchToThread candidate
  else ret tt) ;;;
  setSchedulerAction SchedulerAction_ResumeCurrentThread.

Definition activateThread : K unit :=
  let* cur := gets ksCurThread in
  let* t := getTCB cur in
  match tsType_of t with
  | ThreadState_Running => ret tt
  | ThreadState_Restart =>
      let* pc := getRestartPC cur in
      setNextPC cur pc ;;;
      setThreadState cur ThreadState_Running
  | ThreadState_IdleThreadState => ret tt
  | _ => fail
  end.

(** ** Priorities, domains and the timer *)
Definition setDomain (tptr dom : Z) : K unit :=
  tcbSchedDequeue tptr ;;;
  modTCB tptr (set_tcbDomain (fun _ => dom)) ;;;
  let* schedulable := isSchedulable tptr in
  (if (schedulable : bool) then tcbSchedEnqueue tptr else ret tt) ;;;
  let* cur := gets ksCurThread in
  if tptr =? cur then rescheduleRequired else ret tt.

Definition setMCPriority (tptr mcp : Z) : K unit := modTCB tptr (set_tcbMCP (fun _ => mcp)).

Definition setPriority (tptr prio : Z) : K unit :=
  tcbSchedDequeue tptr ;;;
  modTCB tptr (set_tcbPriority (fun _ => prio)) ;;;
  let* runnable := isRunnable tptr in
  if (runnable : bool) then
    let* cur := gets ksCurThread in
    if tptr =? cur then rescheduleRequired else possibleSwitchTo tptr
  else ret tt.

Definition timerTick : K unit :=
  let* cur := gets ksCurThread in
  let* t := getTCB cur in
  (if bool_decide (tsType_of t = ThreadState_Running) then
     if 1 <? tcbTimeSlice t then modTCB cur (set_tcbTimeSlice (fun n => wsub n 1))
     else
       modTCB cur (set_tcbTimeSlice (fun _ => CONFIG_TIME_SLICE)) ;;;
       tcbSchedAppend cur ;;;
       rescheduleRequired
   else ret tt) ;;;
  if 1 <? numDomains then
    modify (set_ksDomainTime (fun n => wsub n 1)) ;;;
    let* time := gets ksDomainTime in
    if time =? 0 then rescheduleRequired else ret tt
  else ret tt.

(** ** The bitmap invariant

    [bitmap_wf l1 l2 ne]: bit [p mod 64] of level-2 word [p / 64] (stored at
    the inverted index) is set exactly for the priorities with [ne p], and a
    level-1 bit is set exactly when its level-2 word is nonzero. *)
Definition l2_word_wf (l2 : gmap (Z * Z) Z) (ne : Z -> bool) (i w2 : Z) : Prop :=
  l2 !! (0, L2_BITMAP_SIZE - 1 - i) = Some w2 /\ is_word w2 /\
  forall b, 0 <= b < wordBits -> Z.testbit w2 b = ne (i * wordBits + b).

Definition bitmap_wf (l1 : gmap Z Z) (l2 : gmap (Z * Z) Z) (ne : Z -> bool) : Prop :=
  exists w1, l1 !! 0 = Some w1 /\ is_word w1 /\
    (forall i, L2_BITMAP_SIZE <= i -> Z.testbit w1 i = false) /\
    forall i, 0 <= i < L2_BITMAP_SIZE ->
      exists w2, l2_word_wf l2 ne i w2 /\ Z.testbit w1 i = negb (w2 =? 0).

Definition prio_ok (p : Z) : Prop := 0 <= p < CONFIG_NUM_PRIORITIES.

Lemma prio_split p :
  prio_ok p -> 0 <= p / 64 < L2_BITMAP_SIZE /\ 0 <= p mod 64 < 64 /\ p = p / 64 * 64 + p mod 64.
Proof.
  unfold prio_ok, CONFIG_NUM_PRIORITIES. change L2_BITMAP_SIZE with 4. intros.
  pose proof (Z.mod_pos_bound p 64). pose proof (Z.div_mod p 64).
  assert (p / 64 < 4) by (apply Z.div_lt_upper_bound; lia).
  assert (0 <= p / 64) by (apply Z.div_pos; lia). lia.
Qed.

Lemma prio_to_l1index_div p : prio_to_l1index p = p / 64.
Proof. unfold prio_to_l1index. rewrite Z.shiftr_div_pow2 by done. done. Qed.

Lemma prio_low_bits p : Z.land p (MASK wordRadix) = p mod 64.
Proof. by rewrite land_MASK by done. Qed.

Lemma wp_invert_l1index i Q s :
  0 <= i < L2_BITMAP_SIZE -> Q (L2_BITMAP_SIZE - 1 - i) s -> wp (invert_l1index i) Q s.
Proof.
  change L2_BITMAP_SIZE with 4. intros Hi HQ. unfold invert_l1index.
  change L2_BITMAP_SIZE with 4.
  rewrite wsub_small by (unfold is_word, word_modulus; lia).
  apply wp_bind, wp_assert; [apply Z.ltb_lt; lia|]. by apply wp_ret.
Qed.

Lemma wp_getL1 dom v Q s : ksReadyQueuesL1Bitmap s !! dom = Some v -> Q v s -> wp (getL1 dom) Q s.
Proof. intros H HQ. unfold wp, getL1, bind, gets. by rewrite H. Qed.
Lemma wp_getL2 dom i v Q s : ksReadyQueuesL2Bitmap s !! (dom, i) = Some v -> Q v s -> wp (getL2 dom i) Q s.
Proof. intros H HQ. unfold wp, getL2, bind, gets. by rewrite H. Qed.
Lemma wp_getReadyQueue i v Q s : ksReadyQueues s !! i = Some v -> Q v s -> wp (getReadyQueue i) Q s.
Proof. intros H HQ. unfold wp, getReadyQueue, bind, gets. by rewrite H. Qed.

Definition upd_ne (ne : Z -> bool) (p : Z) (v : bool) : Z -> bool :=
  fun x => if x =? p then v else ne x.

(** Replacing level-2 word [i] by [w2'] and level-1 word by [w1']. *)
Lemma bitmap_wf_update l1 l2 ne ne' w1 w1' i w2' :
  bitmap_wf l1 l2 ne -> l1 !! 0 = Some w1 -> 0 <= i < L2_BITMAP_SIZE ->
  is_word w1' -> is_word w2' ->
  (forall j, 0 <= j -> j <> i -> Z.testbit w1' j = Z.testbit w1 j) ->
  Z.testbit w1' i = negb (w2' =? 0) ->
  (forall b, 0 <= b < wordBits -> Z.testbit w2' b = ne' (i * wordBits + b)) ->
  (forall x, ~ (i * wordBits <= x < (i + 1) * wordBits) -> ne' x = ne x) ->
  bitmap_wf (<[0 := w1']> l1) (<[(0, L2_BITMAP_SIZE - 1 - i) := w2']> l2) ne'.
Proof.
  intros (w1o & Hl1 & _ & Hhi & Hlev) Hl1' Hi Hw1' Hw2' Hsame Hbit Hb2 Hne.
  assert (w1o = w1) as -> by congruence.
  exists w1'. split_and!; [by simplify_map_eq|done| |].
  - intros j Hj. rewrite Hsame by lia. by apply Hhi.
  - intros j Hj. destruct (decide (j = i)) as [->|Hji].
    + exists w2'. split; [|done]. split_and!; [by simplify_map_eq|done|done].
    + destruct (Hlev j Hj) as (w2 & (Hl2 & Hw2 & Hb) & Ht). exists w2. split.
      * split_and!; [rewrite lookup_insert_ne; [done|intros [=]; lia]|done|].
        intros b Hb'. rewrite Hb by done. symmetry. apply Hne. unfold wordBits in *. lia.
      * rewrite Hsame by lia. done.
Qed.

Section Bitmap.
Context (s : kstate) (ne : Z -> bool) (p : Z) (Hp : prio_ok p).
Hypothesis Hwf : bitmap_wf (ksReadyQueuesL1Bitmap s) (ksReadyQueuesL2Bitmap s) ne.

Definition bitmap_post (ne' : Z -> bool) (s' : kstate) : Prop :=
  exists l1 l2, s' = set_ksReadyQueuesL2Bitmap (fun _ => l2) (set_ksReadyQueuesL1Bitmap (fun _ => l1) s)
    /\ bitmap_wf l1 l2 ne'.

Lemma wp_addToBitmap :
  wp (addToBitmap 0 p) (fun _ => bitmap_post (upd_ne ne p true)) s.
Proof.
  destruct (prio_split p Hp) as (Hi & Hb & Hpe).
  pose proof Hwf as (w1 & Hl1 & Hw1 & Hhi & Hlev).
  destruct (Hlev _ Hi) as (w2 & (Hl2 & Hw2 & Hb2) & _).
  unfold addToBitmap. rewrite prio_to_l1index_div, prio_low_bits.
  wp_struct. apply wp_invert_l1index; [done|].
  wp_struct. eapply wp_getL1; [done|]. unfold putL1, putL2. do 2 wp_struct.
  wp_struct. eapply wp_getL2; [st_simpl; done|]. wp_struct.
  eexists _, _; split; [reflexivity|].
  assert (Hi64 : 0 <= p / 64 < wordBits)
    by (change L2_BITMAP_SIZE with 4 in Hi; unfold wordBits; lia).
  assert (Hbit : forall b, 0 <= b < wordBits ->
    Z.testbit (Z.lor w2 (BIT (p mod 64))) b = upd_ne ne p true (p / 64 * wordBits + b)).
  { intros b Hb'. rewrite Z.lor_spec, Hb2, testbit_BIT by (unfold wordBits in *; lia).
    unfold upd_ne, wordBits in *.
    destruct (Z.eqb_spec (p mod 64) b), (Z.eqb_spec (p / 64 * 64 + b) p);
      rewrite ?orb_true_r, ?orb_false_r; (done || lia). }
  eapply bitmap_wf_update; [exact Hwf|exact Hl1|done|..].
  - apply is_word_lor; [done|apply is_word_BIT].
  - apply is_word_lor; [done|apply is_word_BIT].
  - intros j Hj Hne. rewrite Z.lor_spec, testbit_BIT by done.
    rewrite (proj2 (Z.eqb_neq _ _)) by lia. by rewrite orb_false_r.
  - rewrite Z.lor_spec, testbit_BIT, Z.eqb_refl, orb_true_r by lia.
    symmetry. apply negb_true_iff, Z.eqb_neq. intros H0.
    specialize (Hbit (p mod 64) ltac:(unfold wordBits; lia)). rewrite H0, Z.bits_0 in Hbit.
    unfold upd_ne, wordBits in Hbit. rewrite <- Hpe, Z.eqb_refl in Hbit. done.
  - exact Hbit.
  - intros x Hx. unfold upd_ne. destruct (Z.eqb_spec x p); [|done].
    unfold wordBits in *. lia.
Qed.

Lemma wp_removeFromBitmap :
  wp (removeFromBitmap 0 p) (fun _ => bitmap_post (upd_ne ne p false)) s.
Proof.
  destruct (prio_split p Hp) as (Hi & Hb & Hpe).
  pose proof Hwf as (w1 & Hl1 & Hw1 & Hhi & Hlev).
  destruct (Hlev _ Hi) as (w2 & (Hl2 & Hw2 & Hb2) & Ht).
  unfold removeFromBitmap. rewrite prio_to_l1index_div, prio_low_bits.
  wp_struct. apply wp_invert_l1index; [done|].
  wp_struct. eapply wp_getL2; [done|]. unfold putL1, putL2. do 2 wp_struct.
  assert (Hi64 : 0 <= p / 64 < wordBits)
    by (change L2_BITMAP_SIZE with 4 in Hi; unfold wordBits; lia).
  assert (Hbit : forall b, 0 <= b < wordBits ->
    Z.testbit (Z.land w2 (wnot (BIT (p mod 64)))) b = upd_ne ne p false (p / 64 * wordBits + b)).
  { intros b Hb'. rewrite Z.land_spec, Hb2, testbit_wnot, testbit_BIT
      by (apply is_word_BIT || unfold wordBits in *; lia).
    unfold upd_ne, wordBits in *.
    destruct (Z.eqb_spec (p mod 64) b), (Z.eqb_spec (p / 64 * 64 + b) p);
      rewrite ?andb_false_r, ?andb_true_r; (done || lia). }
  assert (Hw2' : is_word (Z.land w2 (wnot (BIT (p mod 64)))))
    by (apply is_word_land; [done|apply is_word_wnot, is_word_BIT]).
  assert (Hne : forall x, ~ (p / 64 * wordBits <= x < (p / 64 + 1) * wordBits) ->
    upd_ne ne p false x = ne x).
  { intros x Hx. unfold upd_ne. destruct (Z.eqb_spec x p); [|done]. unfold wordBits in *. lia. }
  destruct (Z.eqb_spec (Z.land w2 (wnot (BIT (p mod 64)))) 0) as [H0|H0].
  - wp_struct. eapply wp_getL1; [st_simpl; done|]. wp_struct.
    eexists _, _; split; [reflexivity|].
    eapply bitmap_wf_update; [exact Hwf|exact Hl1|done|..]; try done.
    + apply is_word_land; [done|apply is_word_wnot, is_word_BIT].
    + intros j Hj Hji. destruct (Z.lt_ge_cases j wordBits) as [Hj64|Hj64].
      * rewrite Z.land_spec, testbit_wnot, testbit_BIT by (apply is_word_BIT || lia).
        rewrite (proj2 (Z.eqb_neq _ _)) by lia. by rewrite andb_true_r.
      * rewrite Z.land_spec, Hhi; [done|]. change L2_BITMAP_SIZE with 4. unfold wordBits in *. lia.
    + rewrite Z.land_spec, testbit_wnot, testbit_BIT, Z.eqb_refl, andb_false_r
        by (apply is_word_BIT || lia). by rewrite H0.
  - wp_struct. eexists (ksReadyQueuesL1Bitmap s), _; split; [by destruct s|].
    rewrite <- (insert_id (ksReadyQueuesL1Bitmap s) 0 w1) by done.
    eapply bitmap_wf_update; [exact Hwf|exact Hl1|done|..]; try done.
    rewrite Ht. f_equal. rewrite (proj2 (Z.eqb_neq _ 0) H0). apply Z.eqb_neq.
    intros ->. by rewrite Z.land_0_l in H0.
Qed.

(** The bitmap answers with the highest nonempty priority. *)
Lemma wp_getHighestPrio Q :
  (exists x, prio_ok x /\ ne x = true) ->
  (forall hp, prio_ok hp -> ne hp = true -> (forall x, hp < x -> prio_ok x -> ne x = false) -> Q hp s) ->
  wp (getHighestPrio 0) Q s.
Proof.
  intros (x & Hx & Hnx) HQ.
  pose proof Hwf as (w1 & Hl1 & Hw1 & Hhi & Hlev).
  destruct (prio_split x Hx) as (Hxi & Hxb & Hxe).
  assert (Hset : forall y, prio_ok y -> ne y = true -> Z.testbit w1 (y / 64) = true).
  { intros y Hy Hny. destruct (prio_split y Hy) as (Hyi & Hyb & Hye).
    destruct (Hlev _ Hyi) as (w2 & (_ & _ & Hb2) & Ht). rewrite Ht.
    apply negb_true_iff, Z.eqb_neq. intros ->.
    specialize (Hb2 (y mod 64) ltac:(unfold wordBits; lia)). rewrite Z.bits_0 in Hb2.
    unfold wordBits in Hb2. rewrite <- Hye in Hb2. congruence. }
  assert (Hw1n : w1 <> 0).
  { intros ->. specialize (Hset x Hx Hnx). by rewrite Z.bits_0 in Hset. }
  pose proof (word_log2 w1 Hw1 Hw1n) as Hlog1.
  pose proof (Z.bit_log2 w1 ltac:(unfold is_word in Hw1; lia)) as Hbl1.
  assert (Hi : 0 <= Z.log2 w1 < L2_BITMAP_SIZE).
  { split; [lia|]. destruct (Z.lt_ge_cases (Z.log2 w1) L2_BITMAP_SIZE); [done|].
    rewrite Hhi in Hbl1 by done. done. }
  destruct (Hlev _ Hi) as (w2 & (Hl2 & Hw2 & Hb2) & Ht).
  assert (Hw2n : w2 <> 0).
  { intros ->. rewrite Hbl1 in Ht. done. }
  pose proof (word_log2 w2 Hw2 Hw2n) as Hlog2.
  pose proof (Z.bit_log2 w2 ltac:(unfold is_word in Hw2; lia)) as Hbl2.
  unfold getHighestPrio, clzl, l1index_to_prio, wordRadix.
  wp_struct. eapply wp_getL1; [done|].
  wp_struct. apply wp_assert; [by apply negb_true_iff, Z.eqb_neq|].
  replace (wsub (wordBits - 1) (wordBits - 1 - Z.log2 w1)) with (Z.log2 w1)
    by (rewrite wsub_small; unfold is_word, word_modulus, wordBits in *; lia).
  replace (wsub (wordBits - 1) (wordBits - 1 - Z.log2 w2)) with (Z.log2 w2)
    by (rewrite wsub_small; unfold is_word, word_modulus, wordBits in *; lia).
  wp_struct. apply wp_invert_l1index; [done|].
  wp_struct. eapply wp_getL2; [done|].
  wp_struct. apply wp_assert; [by apply negb_true_iff, Z.eqb_neq|].
  replace (wsub (wordBits - 1) (wordBits - 1 - Z.log2 w2)) with (Z.log2 w2)
    by (rewrite wsub_small; unfold is_word, word_modulus, wordBits in *; lia).
  apply wp_ret.
  assert (Hval : Z.lor (wshl (Z.log2 w1) 6) (Z.log2 w2) = Z.log2 w1 * 64 + Z.log2 w2).
  { change L2_BITMAP_SIZE with 4 in Hi. unfold wordBits in *.
    unfold wshl. rewrite wrap_small
      by (rewrite Z.shiftl_mul_pow2 by done; unfold is_word, word_modulus; lia).
    assert (Hsh : Z.shiftl (Z.log2 w1) 6 = Z.log2 w1 * 64) by (rewrite Z.shiftl_mul_pow2; lia).
    pose proof (Z.add_lor_land (Z.shiftl (Z.log2 w1) 6) (Z.log2 w2)) as Hal.
    enough (Z.land (Z.shiftl (Z.log2 w1) 6) (Z.log2 w2) = 0) by lia.
    apply Z.bits_inj'. intros b Hb. rewrite Z.bits_0, Z.land_spec.
    destruct (Z.lt_ge_cases b 6) as [Hb6|Hb6].
    - rewrite Z.shiftl_spec_low by done. done.
    - rewrite (Z.bits_above_log2 (Z.log2 w2)), andb_false_r; [done|lia|].
      destruct (decide (Z.log2 w2 = 0)) as [->|]; [cbn; lia|].
      apply Z.lt_le_trans with 6; [|done]. apply Z.log2_lt_pow2; lia. }
  rewrite Hval. apply HQ.
  - change L2_BITMAP_SIZE with 4 in Hi. unfold prio_ok, CONFIG_NUM_PRIORITIES, wordBits in *. lia.
  - rewrite <- Hb2 by done. done.
  - intros y Hy Hyok. destruct (ne y) eqn:Hny; [|done]. exfalso.
    destruct (prio_split y Hyok) as (Hyi & Hyb & Hye).
    pose proof (Hset y Hyok Hny) as Hsy.
    assert (Hyle : y / 64 <= Z.log2 w1).
    { destruct (Z.lt_ge_cases (Z.log2 w1) (y / 64)); [|done].
      rewrite Z.bits_above_log2 in Hsy; [done|unfold is_word in Hw1; lia|done]. }
    destruct (decide (y / 64 = Z.log2 w1)) as [He|He]; [|unfold wordBits in *; lia].
    assert (Hmod : Z.log2 w2 < y mod 64) by lia.
    specialize (Hb2 (y mod 64) ltac:(unfold wordBits; lia)).
    rewrite Z.bits_above_log2 in Hb2; [|unfold is_word in Hw2; lia|done].
    unfold wordBits in Hb2. rewrite <- He, <- Hye in Hb2. congruence.
Qed.

Lemma bitmap_empty : ksReadyQueuesL1Bitmap s !! 0 = Some 0 -> forall x, prio_ok x -> ne x = false.
Proof.
  intros H0 x Hx. destruct (prio_split x Hx) as (Hxi & Hxb & Hxe).
  pose proof Hwf as (w1 & Hl1 & _ & _ & Hlev). simplify_eq.
  destruct (Hlev _ Hxi) as (w2 & (_ & _ & Hb2) & Ht). rewrite Z.bits_0 in Ht.
  symmetry in Ht. apply negb_false_iff, Z.eqb_eq in Ht as ->.
  specialize (Hb2 (x mod 64) ltac:(unfold wordBits; lia)). rewrite Z.bits_0 in Hb2.
  unfold wordBits in Hb2. by rewrite <- Hxe in Hb2.
Qed.

Lemma bitmap_nonempty w1 :
  ksReadyQueuesL1Bitmap s !! 0 = Some w1 -> w1 <> 0 -> exists x, prio_ok x /\ ne x = true.
Proof.
  intros Hl Hn. pose proof Hwf as (w1' & Hl1 & Hw1 & Hhi & Hlev). simplify_eq.
  pose proof (word_log2 w1 Hw1 Hn) as Hlog1.
  pose proof (Z.bit_log2 w1 ltac:(unfold is_word in Hw1; lia)) as Hbl1.
  assert (Hi : 0 <= Z.log2 w1 < L2_BITMAP_SIZE).
  { split; [lia|]. destruct (Z.lt_ge_cases (Z.log2 w1) L2_BITMAP_SIZE); [done|].
    rewrite Hhi in Hbl1 by done. done. }
  destruct (Hlev _ Hi) as (w2 & (Hl2 & Hw2 & Hb2) & Ht). rewrite Hbl1 in Ht.
  symmetry in Ht. apply negb_true_iff, Z.eqb_neq in Ht.
  pose proof (word_log2 w2 Hw2 Ht) as Hlog2.
  pose proof (Z.bit_log2 w2 ltac:(unfold is_word in Hw2; lia)) as Hbl2.
  exists (Z.log2 w1 * 64 + Z.log2 w2). split; [|by rewrite <- Hb2].
  change L2_BITMAP_SIZE with 4 in Hi. unfold prio_ok, CONFIG_NUM_PRIORITIES, wordBits in *. lia.
Qed.
End Bitmap.
