(* ===== verification/DomSched.v ===== *)
(** * The domain schedule

    The packed entries of include/object/domain.h and the invariant under
    which [nextDomain] (src/kernel/thread.c) always lands on an entry with a
    domain in range and a nonzero duration. *)
From S2P Require Import Prelude Structures CapOps CSpace VSpace Sched.
From stdpp Require Import base list gmap.
#[local] Open Scope Z_scope.

(** Entry [i] of a schedule. *)
Definition entry (l : list Z) (i : Z) : Z := default 0 (l !! Z.to_nat i).

Definition entry_ok (w : Z) : Prop := is_word w /\ dschedule_domain w < numDomains.

(** The last entry is an end marker, the start entry and the current index
    are inside the schedule, and the start entry is not an end marker. *)
Record domsched_wf (l : list Z) (idx start : Z) : Prop := {
  ds_len : 2 <= Z.of_nat (length l) < word_modulus;
  ds_entries : Forall entry_ok l;
  ds_last : entry l (Z.of_nat (length l) - 1) = 0;
  ds_idx : 0 <= idx <= Z.of_nat (length l) - 2;
  ds_start : 0 <= start <= Z.of_nat (length l) - 2;
  ds_start_entry : entry l start <> 0
}.

(** The schedule of [s]. *)
Definition domsched_inv (s : kstate) : Prop :=
  domsched_wf (ksDomSchedule s) (ksDomScheduleIdx s) (ksDomScheduleStart s).

(** Where the index goes next. *)
Definition next_idx (l : list Z) (idx start : Z) : Z :=
  if entry l (idx + 1) =? 0 then start else idx + 1.

Lemma entry_lookup l i : 0 <= i < Z.of_nat (length l) -> l !! Z.to_nat i = Some (entry l i).
Proof.
  intros Hi. unfold entry. destruct (lookup_lt_is_Some_2 l (Z.to_nat i)) as [w Hw]; [lia|]. by rewrite Hw.
Qed.

Lemma dschedule_split w :
  is_word w -> w = dschedule_domain w * 2 ^ 56 + dschedule_duration w /\
  0 <= dschedule_duration w < 2 ^ 56 /\ 0 <= dschedule_domain w.
Proof.
  unfold dschedule_domain, dschedule_duration, is_word. intros [H0 _].
  change DSCHED_DURATION_MASK with (Z.ones 56). change DSCHED_DOMAIN_SHIFT with 56.
  rewrite Z.land_ones, Z.shiftr_div_pow2 by lia.
  pose proof (Z.mod_pos_bound w (2 ^ 56) ltac:(done)). pose proof (Z.div_mod w (2 ^ 56) ltac:(done)).
  pose proof (Z.div_pos w (2 ^ 56)). lia.
Qed.

Lemma entry_nonzero_duration w : entry_ok w -> w <> 0 ->
  dschedule_domain w = 0 /\ dschedule_duration w <> 0.
Proof.
  intros [Hw Hd] Hn. destruct (dschedule_split w Hw) as (He & _ & Hp).
  change numDomains with 1 in Hd. assert (H0 : dschedule_domain w = 0) by lia. split; [done|]. lia.
Qed.

Lemma dschedule_make_split d t :
  0 <= d < 2 ^ 8 -> 0 <= t <= DSCHED_MAX_DURATION -> dschedule_make d t = d * 2 ^ 56 + t.
Proof.
  intros Hd Ht. change DSCHED_MAX_DURATION with (2 ^ 56 - 1) in Ht.
  unfold dschedule_make, wshl. change DSCHED_DOMAIN_SHIFT with 56.
  rewrite Z.shiftl_mul_pow2 by lia.
  rewrite wrap_small by (unfold is_word, word_modulus; lia).
  rewrite <- Z.shiftl_mul_pow2 by lia.
  apply Z.bits_inj'. intros n Hn. rewrite Z.lor_spec, Z.shiftl_spec by done.
  rewrite (Z.shiftl_mul_pow2 d 56) by lia.
  destruct (Z.lt_ge_cases n 56) as [Hlt|Hge].
  - rewrite (Z.testbit_neg_r d) by lia. cbn [orb].
    rewrite <- (Z.mod_pow2_bits_low (d * 2 ^ 56 + t) 56 n) by lia.
    rewrite Z.add_comm, Z.mod_add by done. by rewrite Z.mod_small by lia.
  - assert (Z.testbit t n = false) as ->.
    { destruct (decide (t = 0)) as [->|]; [apply Z.bits_0|]. apply Z.bits_above_log2; [lia|].
      apply Z.log2_lt_pow2; [lia|]. eapply Z.lt_le_trans; [|apply (Z.pow_le_mono_r 2 56); lia]. lia. }
    rewrite orb_false_r. replace n with ((n - 56) + 56) at 2 by lia.
    rewrite <- Z.div_pow2_bits by lia. f_equal.
    rewrite Z.div_add_l by done. rewrite Z.div_small by lia. lia.
Qed.

(** Packing and unpacking an entry. *)
Lemma dschedule_roundtrip d t :
  0 <= d < 2 ^ 8 -> 0 <= t <= DSCHED_MAX_DURATION ->
  dschedule_domain (dschedule_make d t) = d /\ dschedule_duration (dschedule_make d t) = t /\
  is_word (dschedule_make d t).
Proof.
  intros Hd Ht. rewrite dschedule_make_split by done. change DSCHED_MAX_DURATION with (2 ^ 56 - 1) in Ht.
  unfold dschedule_domain, dschedule_duration.
  change DSCHED_DURATION_MASK with (Z.ones 56). change DSCHED_DOMAIN_SHIFT with 56.
  rewrite Z.land_ones, Z.shiftr_div_pow2 by lia.
  rewrite Z.div_add_l, (Z.div_small t), Z.add_0_r by lia. split; [done|].
  rewrite Z.add_comm, Z.mod_add, Z.mod_small by lia. split; [done|].
  unfold is_word, word_modulus. lia.
Qed.

(** [nextDomain] on a well-formed schedule. *)
Section Next.
Context (s : kstate) (Hwf : domsched_inv s).
Notation l := (ksDomSchedule s).
Notation i' := (next_idx l (ksDomScheduleIdx s) (ksDomScheduleStart s)).

Lemma next_idx_ok :
  0 <= i' <= Z.of_nat (length l) - 2 /\ entry l i' <> 0.
Proof.
  destruct Hwf as [Hl He Hlast Hi Hs Hse]. unfold next_idx.
  destruct (Z.eqb_spec (entry l (ksDomScheduleIdx s + 1)) 0) as [H0|H0]; [done|].
  split; [|done]. split; [lia|].
  destruct (decide (ksDomScheduleIdx s + 1 = Z.of_nat (length l) - 1)) as [Heq|]; [|lia].
  rewrite Heq in H0. done.
Qed.

Lemma wp_getDomSchedule i Q s' :
  ksDomSchedule s' = l -> 0 <= i < Z.of_nat (length l) -> Q (entry l i) s' -> wp (getDomSchedule i) Q s'.
Proof.
  intros Hs Hi HQ. unfold getDomSchedule. wp_struct. wp_struct. rewrite Hs.
  by eapply wp_from_option; [by apply entry_lookup|].
Qed.

Lemma next_entry_ok : entry_ok (entry l i').
Proof.
  destruct next_idx_ok as [Hi _]. pose proof (ds_len _ _ _ Hwf).
  eapply (Forall_lookup_1 _ _ _ _ (ds_entries _ _ _ Hwf)). apply entry_lookup. lia.
Qed.

Definition after_next : kstate :=
  set_ksDomainTime (fun _ => dschedule_duration (entry l i'))
    (set_ksCurDomain (fun _ => dschedule_domain (entry l i'))
      (set_ksWorkUnitsCompleted (fun _ => 0) (set_ksDomScheduleIdx (fun _ => i') s))).

Lemma wp_nextDomain Q : Q tt after_next -> wp nextDomain Q s.
Proof.
  intros HQ. destruct next_idx_ok as [Hi _]. pose proof Hwf as [Hl He Hlast Hidx Hs Hse].
  assert (Hinc : set_ksDomScheduleIdx (fun i => wadd i 1) s
                 = set_ksDomScheduleIdx (fun _ => ksDomScheduleIdx s + 1) s).
  { unfold set_ksDomScheduleIdx. by rewrite wadd_small by (unfold is_word; lia). }
  unfold nextDomain. wp_struct. wp_struct. wp_struct. wp_struct. rewrite Hinc. st_simpl.
  unfold dschedule_is_end_marker. wp_struct. wp_struct.
  apply wp_getDomSchedule; [done|lia|]. wp_struct. wp_struct.
  unfold after_next, next_idx in *.
  destruct (entry l (ksDomScheduleIdx s + 1) =? 0);
    repeat (wp_struct; st_simpl); (apply wp_getDomSchedule; [done|lia|]);
    repeat (wp_struct; st_simpl); exact HQ.
Qed.

Lemma after_next_inv :
  domsched_inv after_next /\ ksCurDomain after_next = 0 /\ ksDomainTime after_next <> 0.
Proof.
  destruct next_idx_ok as [Hi Hne]. destruct (entry_nonzero_duration _ next_entry_ok Hne).
  pose proof Hwf as [Hl He Hlast Hidx Hs Hse]. unfold domsched_inv, after_next. st_simpl. done.
Qed.
End Next.
