(* ===== verification/ReadyQueue.v ===== *)
(** * Ready queues: the abstraction to lists

    The abstract scheduler state is a list of threads per priority.  This
    file relates it to the doubly linked queues, the queued flags and the
    two-level bitmap of Sched.v, and shows that the queue operations of
    src/object/tcb.c act on the lists as their names say. *)
From S2P Require Import Prelude Dll Structures CapOps CSpace VSpace Sched.
From stdpp Require Import base list sets gmap.
#[local] Open Scope Z_scope.

(** A link field read through the heap. *)
Definition tlink (f : tcb -> Z) (m : gmap Z tcb) (x : Z) : Z :=
  match m !! x with Some t => f t | None => 0 end.

Lemma tlink_insert f m y t x :
  tlink f (<[y := t]> m) x = if decide (x = y) then f t else tlink f m x.
Proof.
  unfold tlink. rewrite lookup_insert.
  destruct (decide (y = x)), (decide (x = y)); congruence.
Qed.

Lemma tlink_Some f m x t : m !! x = Some t -> tlink f m x = f t.
Proof. unfold tlink. by intros ->. Qed.

(** The part of a thread the ready queues do not own. *)
Definition tcb_erase (t : tcb) : tcb :=
  set_tcbSchedNext (fun _ => 0) (set_tcbSchedPrev (fun _ => 0)
    (upd_state (set_tcbQueued (fun _ => false)) t)).

(** The part of the state the ready queues do not own. *)
Definition sched_erase (s : kstate) : kstate :=
  set_ksTCBs (fun m => tcb_erase <$> m) (set_ksReadyQueues (fun _ => ∅)
    (set_ksReadyQueuesL1Bitmap (fun _ => ∅) (set_ksReadyQueuesL2Bitmap (fun _ => ∅) s))).

(** [s'] differs from [s] at most in the ready queues. *)
Definition sched_eq (s s' : kstate) : Prop := sched_erase s' = sched_erase s.

#[export] Instance sched_eq_equiv : Equivalence sched_eq.
Proof. unfold sched_eq. split; [by intros ?|by intros ??|intros ???; congruence]. Qed.

Record queues_wf (m : gmap Z tcb) (rq : gmap Z tcb_queue) (q : Z -> list Z) : Prop := {
  qwf_prio : forall x t, m !! x = Some t -> prio_ok (tcbPriority t) /\ tcbDomain t = 0 /\ x <> 0;
  qwf_queue : forall p, prio_ok p -> rq !! p = Some (mk_queue (hd_or 0 (q p)) (last_or 0 (q p)));
  qwf_dlist : forall p, prio_ok p -> dlist (tlink tcbSchedNext m) (tlink tcbSchedPrev m) (q p);
  qwf_member : forall p x, prio_ok p -> x ∈ q p ->
    exists t, m !! x = Some t /\ tcbQueued (tcbState t) = true /\ tcbPriority t = p;
  qwf_queued : forall x t, m !! x = Some t -> tcbQueued (tcbState t) = true -> x ∈ q (tcbPriority t);
  qwf_unqueued : forall x t, m !! x = Some t -> tcbQueued (tcbState t) = false ->
    tcbSchedNext t = 0 /\ tcbSchedPrev t = 0
}.

Definition nonempty (q : Z -> list Z) (p : Z) : bool := negb (bool_decide (q p = [])).

(** The ready-queue invariant: [s] represents the lists [q]. *)
Definition ready_wf (s : kstate) (q : Z -> list Z) : Prop :=
  queues_wf (ksTCBs s) (ksReadyQueues s) q /\
  bitmap_wf (ksReadyQueuesL1Bitmap s) (ksReadyQueuesL2Bitmap s) (nonempty q).

Definition upd (q : Z -> list Z) (p : Z) (l : list Z) : Z -> list Z :=
  fun x => if x =? p then l else q x.

Lemma upd_eq q p l : upd q p l p = l.
Proof. unfold upd. by rewrite Z.eqb_refl. Qed.
Lemma upd_ne_eq q p l x : x <> p -> upd q p l x = q x.
Proof. intros H. unfold upd. by rewrite (proj2 (Z.eqb_neq _ _) H). Qed.

Lemma bitmap_wf_ext l1 l2 ne ne' :
  (forall x, prio_ok x -> ne x = ne' x) -> bitmap_wf l1 l2 ne -> bitmap_wf l1 l2 ne'.
Proof.
  intros Hx (w1 & H1 & H2 & H3 & H4). exists w1. split_and!; [done..|].
  intros i Hi. destruct (H4 i Hi) as (w2 & (?&?&Hb) & ?). exists w2. split; [|done].
  split_and!; [done..|]. intros b Hb'. rewrite Hb by done. apply Hx.
  change L2_BITMAP_SIZE with 4 in Hi. unfold prio_ok, CONFIG_NUM_PRIORITIES, wordBits in *. lia.
Qed.

(** Both link fields of the cells of one queue may change, together with the
    queued flags of the cells that enter or leave it. *)
Lemma queues_wf_change m rq q p l' m' :
  queues_wf m rq q -> prio_ok p ->
  tcb_erase <$> m' = tcb_erase <$> m ->
  (forall y, y ∉ q p -> y ∉ l' -> m' !! y = m !! y) ->
  dlist (tlink tcbSchedNext m') (tlink tcbSchedPrev m') l' ->
  (forall y, y ∈ l' -> exists t, m' !! y = Some t /\ tcbQueued (tcbState t) = true /\ tcbPriority t = p) ->
  (forall y, y ∈ l' -> y ∈ q p \/ exists t, m !! y = Some t /\ tcbQueued (tcbState t) = false) ->
  (forall y t, y ∈ q p -> y ∉ l' -> m' !! y = Some t ->
     tcbQueued (tcbState t) = false /\ tcbSchedNext t = 0 /\ tcbSchedPrev t = 0) ->
  queues_wf m' (<[p := mk_queue (hd_or 0 l') (last_or 0 l')]> rq) (upd q p l').
Proof.
  intros [W1 W2 W3 W4 W5 W6] Hp Her Hsame Hdl Hin Hfrom Hout.
  assert (Hother : forall p' y, prio_ok p' -> p' <> p -> y ∈ q p' -> y ∉ q p /\ y ∉ l').
  { intros p' y Hp' Hne Hy. destruct (W4 p' y Hp' Hy) as (t & Hm & Hq & Hpt).
    assert (Hnp : y ∉ q p). { intros Hy'. destruct (W4 p y Hp Hy') as (t' & ?&?&?). congruence. }
    split; [done|]. intros Hl. destruct (Hfrom y Hl) as [|(t' & ?&?)]; [done|congruence]. }
  split.
  - intros x t' Hx. apply (f_equal (.!! x)) in Her. rewrite !lookup_fmap, Hx in Her. cbn in Her.
    destruct (m !! x) as [t|] eqn:Hm; [|done]. cbn in Her. destruct (W1 x t Hm) as (?&?&?).
    injection Her. intros. split_and!; congruence.
  - intros p' Hp'. unfold upd. destruct (Z.eqb_spec p' p) as [->|Hne].
    + by rewrite lookup_insert_eq.
    + rewrite lookup_insert_ne by done. by apply W2.
  - intros p' Hp'. unfold upd. destruct (Z.eqb_spec p' p) as [->|Hne]; [done|].
    eapply dlist_ext; [|by apply W3]. intros y Hy.
    destruct (Hother p' y Hp' Hne Hy). unfold tlink. by rewrite Hsame.
  - intros p' y Hp'. unfold upd. destruct (Z.eqb_spec p' p) as [->|Hne]; [auto|].
    intros Hy. destruct (Hother p' y Hp' Hne Hy). rewrite Hsame by done. by apply W4.
  - intros x t Hx Hq. unfold upd.
    destruct (decide (x ∈ l')) as [Hl|Hl].
    { destruct (Hin x Hl) as (t' & ?&?&?). simplify_eq. by rewrite Z.eqb_refl. }
    destruct (decide (x ∈ q p)) as [Hqp|Hqp].
    { destruct (Hout x t Hqp Hl Hx) as (?&?&?). congruence. }
    rewrite Hsame in Hx by done. pose proof (W5 x t Hx Hq) as Hxq.
    destruct (Z.eqb_spec (tcbPriority t) p) as [He|He]; [|done]. by rewrite He in Hxq.
  - intros x t Hx Hq. destruct (decide (x ∈ l')) as [Hl|Hl].
    { destruct (Hin x Hl) as (t' & ?&?&?). congruence. }
    destruct (decide (x ∈ q p)) as [Hqp|Hqp]; [by apply (Hout x t)|].
    rewrite Hsame in Hx by done. eauto.
Qed.
(** ** Queue primitives *)
Definition links_erase (t : tcb) : tcb :=
  set_tcbSchedNext (fun _ => 0) (set_tcbSchedPrev (fun _ => 0) t).

(** [m'] is [m] with the links of the cells of [l] and [l'] rewritten so that
    they form the list [l']. *)
Record relinked (m m' : gmap Z tcb) (l l' : list Z) : Prop := {
  rl_erase : links_erase <$> m' = links_erase <$> m;
  rl_out : forall y, y ∉ l -> y ∉ l' -> m' !! y = m !! y;
  rl_dlist : dlist (tlink tcbSchedNext m') (tlink tcbSchedPrev m') l'
}.

Lemma links_tcb_erase (m m' : gmap Z tcb) :
  links_erase <$> m' = links_erase <$> m -> tcb_erase <$> m' = tcb_erase <$> m.
Proof.
  intros H. apply map_eq. intros x. apply (f_equal (.!! x)) in H.
  rewrite !lookup_fmap in *. destruct (m' !! x) as [t'|], (m !! x) as [t|]; try done.
  cbn in *. f_equal. injection H. destruct t, t'; cbn. intros. by simplify_eq.
Qed.

Lemma links_lookup (m m' : gmap Z tcb) x t' :
  links_erase <$> m' = links_erase <$> m -> m' !! x = Some t' ->
  exists t, m !! x = Some t /\ links_erase t' = links_erase t.
Proof.
  intros H Hx. apply (f_equal (.!! x)) in H. rewrite !lookup_fmap, Hx in H.
  destruct (m !! x) as [t|]; [|done]. cbn in H. exists t. split; congruence.
Qed.

Lemma set_bitmaps_id s :
  set_ksReadyQueuesL2Bitmap (fun _ => ksReadyQueuesL2Bitmap s)
    (set_ksReadyQueuesL1Bitmap (fun _ => ksReadyQueuesL1Bitmap s) s) = s.
Proof. by destruct s. Qed.

Lemma set_ksTCBs_id s : set_ksTCBs (fun _ => ksTCBs s) s = s.
Proof. by destruct s. Qed.

Lemma links_erase_fields t t' :
  links_erase t' = links_erase t ->
  tcbState t' = tcbState t /\ tcbPriority t' = tcbPriority t /\ tcbDomain t' = tcbDomain t.
Proof. destruct t, t'. cbn. intros H. by simplify_eq. Qed.

Definition queue_of (l : list Z) : tcb_queue := mk_queue (hd_or 0 l) (last_or 0 l).

Lemma queue_of_empty l : 0 ∉ l -> tcb_queue_empty (queue_of l) = bool_decide (l = []).
Proof.
  destruct l as [|x l]; [done|]. intros H. unfold tcb_queue_empty. cbn.
  apply Z.eqb_neq. set_solver.
Qed.

Ltac tlinks := repeat first
  [ rewrite tlink_insert | progress cbn
  | match goal with
    | |- context [decide (?a = ?b)] => destruct (decide (a = b)); simplify_eq
    | H : _ = true |- _ => first [apply bool_decide_eq_true in H]
    end ].

(** Pointer facts after unlinking a cell with known neighbours. *)
Ltac unlink Hp Hn :=
  cbn; rewrite ?Hp, ?Hn; intros; tlinks; try done; unfold tlink; simplify_map_eq; tauto.

Section QueueOps.
Context (s : kstate) (l : list Z) (x : Z) (t : tcb).
Notation m := (ksTCBs s).
Hypothesis Hcells : forall y, y ∈ l -> is_Some (m !! y).
Hypothesis Hd : dlist (tlink tcbSchedNext m) (tlink tcbSchedPrev m) l.
Hypothesis Hx : m !! x = Some t.

Section Add.
Hypothesis Hx0 : x <> 0.
Hypothesis Hxl : x ∉ l.
Hypothesis Hlinks : tcbSchedNext t = 0 /\ tcbSchedPrev t = 0.

Lemma wp_tcb_queue_prepend Q :
  (forall m', relinked m m' l (x :: l) -> Q (queue_of (x :: l)) (set_ksTCBs (fun _ => m') s)) ->
  wp (tcb_queue_prepend (queue_of l) x) Q s.
Proof.
  intros HQ. unfold tcb_queue_prepend. rewrite queue_of_empty by apply Hd.
  destruct l as [|y l'].
  { rewrite bool_decide_eq_true_2 by done. do 3 wp_struct.
    rewrite <- (set_ksTCBs_id s). apply (HQ m). split; [done|done|].
    apply dlist_singleton; [done|..]; unfold tlink; rewrite Hx; tauto. }
  destruct (Hcells y) as [ty Hty]; [set_solver|].
  assert (Hxy : x <> y) by set_solver. assert (y <> 0) by (destruct Hd; set_solver).
  cbn. wp_struct. wp_struct. eapply wp_modTCB; [done|].
  wp_struct. eapply wp_modTCB; [st_simpl; by rewrite lookup_insert_ne|].
  do 2 wp_struct. apply HQ. split; st_simpl.
  - rewrite (fmap_insert_same _ _ _ ty), (fmap_insert_same _ _ _ t); try done.
    by rewrite lookup_insert_ne.
  - intros z Hz1 Hz2. rewrite !lookup_insert_ne by set_solver. done.
  - assert (~ y ∈ l') by (destruct Hd as [Hnd _ _]; nodup_split; done).
    eapply dlist_cons; [exact Hd|done|done|..]; cbn; intros; tlinks;
      try done; unfold tlink; simplify_map_eq; tauto.
Qed.

Lemma wp_tcb_queue_append Q :
  (forall m', relinked m m' l (l ++ [x]) -> Q (queue_of (l ++ [x])) (set_ksTCBs (fun _ => m') s)) ->
  wp (tcb_queue_append (queue_of l) x) Q s.
Proof.
  intros HQ. unfold tcb_queue_append. rewrite queue_of_empty by apply Hd.
  assert (Hq : mk_queue (hd_or x l) x = queue_of (l ++ [x])).
  { unfold queue_of. by rewrite hd_or_app, last_or_snoc. }
  destruct (snoc_cases l) as [Hl|(l' & z & Hl)].
  { rewrite Hl in *. rewrite bool_decide_eq_true_2 by done. do 3 wp_struct.
    rewrite <- (set_ksTCBs_id s). apply (HQ m). split; [done|done|].
    apply dlist_singleton; [done|..]; unfold tlink; rewrite Hx; tauto. }
  assert (Hzl : z ∈ l) by (rewrite Hl; set_solver).
  destruct (Hcells z Hzl) as [tz Htz].
  assert (Hne : l <> []) by (rewrite Hl; by destruct l').
  assert (Hlast : last_or 0 l = z) by (by rewrite Hl, last_or_snoc).
  rewrite bool_decide_eq_false_2 by done. cbn [queue_of q_head q_end]. rewrite Hlast.
  assert (Hxz : x <> z) by set_solver.
  wp_struct. wp_struct. eapply wp_modTCB; [done|].
  wp_struct. eapply wp_modTCB; [st_simpl; by rewrite lookup_insert_ne|].
  do 2 wp_struct. cbn.
  replace (hd_or 0 l) with (hd_or x l) by (by destruct l). rewrite Hq. apply HQ. split; st_simpl.
  - rewrite (fmap_insert_same _ _ _ tz), (fmap_insert_same _ _ _ t); try done.
    by rewrite lookup_insert_ne.
  - intros y Hz1 Hz2. rewrite !lookup_insert_ne by set_solver. done.
  - eapply dlist_snoc; [exact Hd|done|done|..]; rewrite ?Hlast; intros; tlinks;
      try done; unfold tlink; simplify_map_eq; tauto.
Qed.
End Add.

Lemma wp_tcb_queue_remove l1 l2 Q :
  l = l1 ++ x :: l2 ->
  (forall m', relinked m m' l (l1 ++ l2) ->
     (forall t', m' !! x = Some t' -> tcbSchedNext t' = 0 /\ tcbSchedPrev t' = 0) ->
     Q (queue_of (l1 ++ l2)) (set_ksTCBs (fun _ => m') s)) ->
  wp (tcb_queue_remove (queue_of l) x) Q s.
Proof.
  intros Hl HQ. rewrite Hl in *. clear Hl.
  pose proof (dlist_mid _ _ _ _ _ Hd) as [HpL HnL].
  pose proof HpL as Hpv. rewrite (tlink_Some _ _ _ _ Hx) in Hpv.
  pose proof HnL as Hnx. rewrite (tlink_Some _ _ _ _ Hx) in Hnx.
  assert (Hnd : NoDup (l1 ++ x :: l2)) by apply Hd.
  assert (H0 : 0 ∉ l1 ++ x :: l2) by apply Hd.
  unfold tcb_queue_remove. wp_struct. eapply wp_getTCB; [done|].
  unfold queue_of in *. cbn [q_head q_end]. rewrite Hpv, Hnx.
  rewrite hd_or_app, last_or_app in *. cbn [hd_or last_or] in *.
  destruct (snoc_cases l1) as [Hl1|(l1' & a & Hl1)], l2 as [|b l2'].
  - (* the only member *)
    subst l1. cbn in *. rewrite Z.eqb_refl.
    rewrite <- (set_ksTCBs_id s). apply HQ.
    + split; [done|done|apply dlist_nil].
    + intros t' Ht'. by simplify_eq.
  - (* the head *)
    subst l1. cbn in *. rewrite Z.eqb_refl.
    assert (Hxb : x <> b) by (nodup_split; set_solver).
    assert (last_or x (b :: l2') <> x).
    { intros He. assert (x ∈ b :: l2') by (rewrite <- He at 1; by apply last_or_in).
      nodup_split. set_solver. }
    rewrite (proj2 (Z.eqb_neq _ x)) by done. cbn.
    destruct (Hcells b) as [tb Htb]; [set_solver|].
    wp_struct. eapply wp_modTCB; [done|].
    wp_struct. eapply wp_modTCB; [st_simpl; by rewrite lookup_insert_ne|].
    wp_struct. apply (HQ _); clear HQ; st_simpl; [split|].
    + rewrite (fmap_insert_same _ _ _ t), (fmap_insert_same _ _ _ tb); try done.
      by rewrite lookup_insert_ne.
    + intros z Hz1 Hz2. rewrite !lookup_insert_ne by set_solver. done.
    + assert (b <> 0) by set_solver.
      eapply (dlist_remove _ _ _ _ []); [exact Hd|unlink HpL HnL..].
    + intros t' Ht'. rewrite lookup_insert_eq in Ht'. by simplify_eq.
  - (* the last member *)
    subst l1. rewrite last_or_snoc, app_nil_r in *. rewrite hd_or_app in *. cbn in *.
    assert (Hxa : x <> a) by (nodup_split; set_solver).
    assert (hd_or a l1' <> x) by (destruct l1'; cbn; nodup_split; set_solver).
    rewrite Z.eqb_refl, (proj2 (Z.eqb_neq _ x)) by done. cbn.
    destruct (Hcells a) as [ta Hta]; [set_solver|].
    wp_struct. eapply wp_modTCB; [done|].
    wp_struct. eapply wp_modTCB; [st_simpl; by rewrite lookup_insert_ne|].
    wp_struct. apply (HQ _); clear HQ; st_simpl; [split|].
    + rewrite (fmap_insert_same _ _ _ t), (fmap_insert_same _ _ _ ta); try done.
      by rewrite lookup_insert_ne.
    + intros z Hz1 Hz2. rewrite !lookup_insert_ne by set_solver. done.
    + assert (a <> 0) by set_solver.
      rewrite <- (app_nil_r (l1' ++ [a])).
      eapply dlist_remove; [exact Hd|unlink HpL HnL..].
    + intros t' Ht'. rewrite lookup_insert_eq in Ht'. by simplify_eq.
  - (* in the middle *)
    subst l1. rewrite last_or_snoc, hd_or_app in *. cbn in *.
    destruct (nodup_mid _ _ _ Hnd) as [Hx1 Hx2].
    assert (Hxa : x <> a) by (intros ->; apply Hx1; set_solver).
    assert (Hxb : x <> b) by (intros ->; apply Hx2; set_solver).
    assert (Hab : a <> b) by (eapply nodup_disjoint; [exact Hnd|set_solver..]).
    assert (hd_or a l1' <> x).
    { intros <-. apply Hx1. destruct l1'; cbn; set_solver. }
    rewrite (proj2 (Z.eqb_neq _ x)) by done.
    assert (last_or b l2' <> x).
    { intros <-. apply Hx2. by apply (last_or_in 0 (b :: l2')). }
    rewrite (proj2 (Z.eqb_neq _ x)) by done. cbn.
    destruct (Hcells a) as [ta Hta]; [set_solver|].
    destruct (Hcells b) as [tb Htb]; [set_solver|].
    wp_struct. eapply wp_modTCB; [done|].
    wp_struct. eapply wp_modTCB; [st_simpl; by rewrite lookup_insert_ne|].
    wp_struct. eapply wp_modTCB; [st_simpl; by rewrite !lookup_insert_ne|].
    wp_struct. eapply wp_modTCB; [st_simpl; by rewrite lookup_insert_eq|].
    wp_struct. apply (HQ _); clear HQ; st_simpl; [split|].
    + rewrite insert_insert_eq, (fmap_insert_same _ _ _ t), (fmap_insert_same _ _ _ tb),
        (fmap_insert_same _ _ _ ta); try done; by rewrite ?lookup_insert_ne by done.
    + intros z Hz1 Hz2. rewrite !lookup_insert_ne by set_solver. done.
    + assert (a <> 0 /\ b <> 0) as [? ?] by (split; intros ->; apply H0; set_solver).
      eapply dlist_remove; [exact Hd|unlink HpL HnL..].
    + intros t' Ht'. rewrite lookup_insert_eq in Ht'. by simplify_eq.
Qed.
End QueueOps.

(** ** Entering and leaving a queue *)
Definition with_queued (b : bool) (t : tcb) : tcb := upd_state (set_tcbQueued (fun _ => b)) t.

Lemma tlink_with_queued f m x t b :
  m !! x = Some t -> f (with_queued b t) = f t ->
  forall y, tlink f (<[x := with_queued b t]> m) y = tlink f m y.
Proof.
  intros Hm Hf y. rewrite tlink_insert. case_decide; [|done]. subst. by rewrite Hf, (tlink_Some _ _ _ _ Hm).
Qed.

Lemma dlist_with_queued m x t b l :
  m !! x = Some t ->
  dlist (tlink tcbSchedNext m) (tlink tcbSchedPrev m) l ->
  dlist (tlink tcbSchedNext (<[x := with_queued b t]> m)) (tlink tcbSchedPrev (<[x := with_queued b t]> m)) l.
Proof.
  intros Hm Hd. eapply dlist_ext; [|exact Hd]. intros y _.
  by rewrite !(tlink_with_queued _ _ _ t) by done.
Qed.

Section EnterLeave.
Context (m m' : gmap Z tcb) (rq : gmap Z tcb_queue) (q : Z -> list Z) (x : Z) (t t1 : tcb).
Hypothesis Hwf : queues_wf m rq q.
Hypothesis Hx : m !! x = Some t.
Hypothesis Hx1 : m' !! x = Some t1.
Notation p := (tcbPriority t).

Lemma qwf_prio_ok : prio_ok p.
Proof. by destruct (qwf_prio _ _ _ Hwf x t Hx). Qed.

Lemma member_iff : x ∈ q p <-> tcbQueued (tcbState t) = true.
Proof.
  split; intros H; [|by apply (qwf_queued _ _ _ Hwf)].
  destruct (qwf_member _ _ _ Hwf p x qwf_prio_ok H) as (? & ? & ? & ?). congruence.
Qed.

(** The queue of [x] with the cell of [x] swapped for one with flag [b]. *)
Lemma queues_wf_relink l' b :
  relinked m m' (q p) l' ->
  (forall y, y <> x -> y ∈ l' <-> y ∈ q p) ->
  tcbQueued (tcbState t) = negb b -> (x ∈ l' <-> b = true) ->
  (b = false -> tcbSchedNext t1 = 0 /\ tcbSchedPrev t1 = 0) ->
  queues_wf (<[x := with_queued b t1]> m') (<[p := queue_of l']> rq) (upd q p l').
Proof.
  intros [Hle Hout Hdl] Hmem Hq Hxl Hzero.
  assert (Hxq : x ∈ q p <-> b = false) by (rewrite member_iff, Hq by done; by destruct b).
  destruct (links_lookup _ _ _ _ Hle Hx1) as (t0 & Ht0 & Het). rewrite Hx in Ht0.
  injection Ht0 as <-.
  destruct (links_erase_fields _ _ Het) as (_ & Hpt1 & _).
  apply queues_wf_change with (m := m); [done|apply qwf_prio_ok|..].
  - rewrite (fmap_insert_same _ _ _ t1); [by apply links_tcb_erase|done|by destruct t1 as [? [] ? ? ? ? ? ? ? ? ? ? ? ? ? ?]].
  - intros y Hy1 Hy2. destruct (decide (y = x)) as [->|Hyx].
    + exfalso. destruct b; [by apply Hy2, Hxl|].
      by apply Hy1, Hxq.
    + rewrite lookup_insert_ne by done. by apply Hout.
  - by apply dlist_with_queued.
  - intros y Hy. destruct (decide (y = x)) as [->|Hyx].
    + exists (with_queued b t1). split_and!; [by rewrite lookup_insert_eq|by apply Hxl|done].
    + rewrite lookup_insert_ne by done.
      destruct (qwf_member _ _ _ Hwf p y qwf_prio_ok) as (ty & Hty & Hqy & Hpy); [by apply Hmem|].
      assert (Hs : is_Some (m' !! y)).
      { apply (f_equal (.!! y)) in Hle. rewrite !lookup_fmap, Hty in Hle.
        destruct (m' !! y); [eauto|done]. }
      destruct Hs as [ty' Hty']. exists ty'. split; [done|].
      destruct (links_lookup _ _ _ _ Hle Hty') as (ty0 & Hty0 & He).
      assert (ty0 = ty) as -> by congruence.
      destruct (links_erase_fields _ _ He) as (-> & -> & _). done.
  - intros y Hy. destruct (decide (y = x)) as [->|Hyx]; [|left; by apply Hmem].
    destruct b; [right; eauto|left; by apply Hxq].
  - intros y ty Hy Hyl Hty. assert (y = x) as -> by (apply dec_stable; intros ?; by apply Hyl, Hmem).
    rewrite lookup_insert_eq in Hty. injection Hty as <-.
    destruct b; [by exfalso; apply Hyl, Hxl|]. split; [done|]. by apply Hzero.
Qed.
End EnterLeave.

(** ** The operations on a well-formed state *)

(** [s'] is [s] with ready queues [q']. *)
Definition ready_post (s : kstate) (q' : Z -> list Z) (s' : kstate) : Prop :=
  sched_eq s s' /\ ready_wf s' q'.

Lemma sched_eq_update s (m : gmap Z tcb) rq l1 l2 :
  tcb_erase <$> m = tcb_erase <$> ksTCBs s ->
  sched_eq s (set_ksTCBs (fun _ => m) (set_ksReadyQueues (fun _ => rq)
    (set_ksReadyQueuesL2Bitmap (fun _ => l2) (set_ksReadyQueuesL1Bitmap (fun _ => l1) s)))).
Proof. intros H. unfold sched_eq, sched_erase. change (tcb_erase <$> m) with (fmap (M:=gmap Z) tcb_erase m) in H.
  unfold set_ksTCBs. st_simpl. by rewrite H. Qed.

Lemma nonempty_upd q p l x : nonempty (upd q p l) x = upd_ne (nonempty q) p (negb (bool_decide (l = []))) x.
Proof. unfold nonempty, upd, upd_ne. by destruct (x =? p). Qed.

Lemma wp_ready_queues_index p Q s : Q p s -> wp (ready_queues_index 0 p) Q s.
Proof. done. Qed.

Section AddRemove.
Context (s : kstate) (q : Z -> list Z) (x : Z) (t : tcb).
Hypothesis Hwf : ready_wf s q.
Hypothesis Hx : ksTCBs s !! x = Some t.
Notation p := (tcbPriority t).

Let Hq : queues_wf (ksTCBs s) (ksReadyQueues s) q := proj1 Hwf.
Let Hb : bitmap_wf (ksReadyQueuesL1Bitmap s) (ksReadyQueuesL2Bitmap s) (nonempty q) := proj2 Hwf.

Lemma ready_prio : prio_ok p /\ tcbDomain t = 0 /\ x <> 0.
Proof. by apply (qwf_prio _ _ _ Hq). Qed.

Lemma ready_cells : forall y, y ∈ q p -> is_Some (ksTCBs s !! y).
Proof.
  intros y Hy. destruct (qwf_member _ _ _ Hq p y) as (ty & ? & _); [apply ready_prio|done|eauto].
Qed.

(** Setting the bitmap bit before a first insertion. *)
Lemma wp_add_bit l' Q :
  l' <> [] ->
  (forall l1 l2, bitmap_wf l1 l2 (nonempty (upd q p l')) ->
     Q tt (set_ksReadyQueuesL2Bitmap (fun _ => l2) (set_ksReadyQueuesL1Bitmap (fun _ => l1) s))) ->
  wp (if tcb_queue_empty (queue_of (q p)) then addToBitmap 0 p else ret tt) Q s.
Proof.
  intros Hl' HQ. destruct ready_prio as (Hp & _ & _).
  rewrite queue_of_empty by apply (qwf_dlist _ _ _ Hq p Hp).
  destruct (bool_decide (q p = [])) eqn:He.
  - eapply wp_mono; [apply (wp_addToBitmap s (nonempty q) p Hp Hb)|].
    intros [] s' (l1 & l2 & -> & Hbw). apply HQ.
    eapply bitmap_wf_ext; [|exact Hbw]. intros y _.
    by rewrite nonempty_upd, bool_decide_eq_false_2.
  - wp_struct. rewrite <- (set_bitmaps_id s). apply HQ.
    eapply bitmap_wf_ext; [|exact Hb]. intros y _. rewrite nonempty_upd. unfold upd_ne.
    rewrite (bool_decide_eq_false_2 (l' = [])) by done.
    destruct (Z.eqb_spec y p) as [->|]; [|done]. unfold nonempty. by rewrite He.
Qed.

(** Clearing it after a last removal. *)
Lemma wp_remove_bit l' s1 Q :
  0 ∉ l' ->
  ksReadyQueuesL1Bitmap s1 = ksReadyQueuesL1Bitmap s ->
  ksReadyQueuesL2Bitmap s1 = ksReadyQueuesL2Bitmap s ->
  q p <> [] ->
  (forall l1 l2, bitmap_wf l1 l2 (nonempty (upd q p l')) ->
     Q tt (set_ksReadyQueuesL2Bitmap (fun _ => l2) (set_ksReadyQueuesL1Bitmap (fun _ => l1) s1))) ->
  wp (if tcb_queue_empty (queue_of l') then removeFromBitmap 0 p else ret tt) Q s1.
Proof.
  intros H0 H1 H2 Hne HQ. destruct ready_prio as (Hp & _ & _).
  pose proof Hb as Hb1. rewrite <- H1, <- H2 in Hb1.
  rewrite queue_of_empty by done.
  destruct (bool_decide (l' = [])) eqn:He.
  - eapply wp_mono; [apply (wp_removeFromBitmap s1 (nonempty q) p Hp Hb1)|].
    intros [] s' (l1 & l2 & -> & Hbw). apply HQ.
    eapply bitmap_wf_ext; [|exact Hbw]. intros y _. by rewrite nonempty_upd, He.
  - wp_struct. rewrite <- (set_bitmaps_id s1). apply HQ.
    eapply bitmap_wf_ext; [|exact Hb1]. intros y _. rewrite nonempty_upd, He. unfold upd_ne.
    destruct (Z.eqb_spec y p) as [->|]; [|done]. unfold nonempty.
    by rewrite bool_decide_eq_false_2.
Qed.
End AddRemove.

(** The common body of [tcbSchedEnqueue] and [tcbSchedAppend]. *)
Definition sched_add (op : tcb_queue -> Z -> K tcb_queue) (tcb : Z) : K unit :=
  let* t := getTCB tcb in
  if negb (tcbQueued (tcbState t)) then
    let dom := tcbDomain t in
    let prio := tcbPriority t in
    let* idx := ready_queues_index dom prio in
    let* queue := getReadyQueue idx in
    (if tcb_queue_empty queue then addToBitmap dom prio else ret tt) ;;;
    let* queue' := op queue tcb in
    putReadyQueue idx queue' ;;;
    modTCB tcb (upd_state (set_tcbQueued (fun _ => true)))
  else ret tt.

Section SchedAdd.
Context (op : tcb_queue -> Z -> K tcb_queue) (ins : Z -> list Z -> list Z).
Hypothesis Hins : forall x l y, y ∈ ins x l <-> y = x \/ y ∈ l.
Hypothesis Hop : forall s l x t,
  (forall y, y ∈ l -> is_Some (ksTCBs s !! y)) ->
  dlist (tlink tcbSchedNext (ksTCBs s)) (tlink tcbSchedPrev (ksTCBs s)) l ->
  ksTCBs s !! x = Some t -> x <> 0 -> x ∉ l ->
  tcbSchedNext t = 0 /\ tcbSchedPrev t = 0 ->
  forall Q, (forall m', relinked (ksTCBs s) m' l (ins x l) ->
    Q (queue_of (ins x l)) (set_ksTCBs (fun _ => m') s)) -> wp (op (queue_of l) x) Q s.

Lemma wp_sched_add s q x t :
  ready_wf s q -> ksTCBs s !! x = Some t ->
  wp (sched_add op x) (fun _ => ready_post s
    (if tcbQueued (tcbState t) then q else upd q (tcbPriority t) (ins x (q (tcbPriority t))))) s.
Proof.
  intros Hwf Hx. pose proof Hwf as [Hq Hb]. destruct (ready_prio s q x t Hwf Hx) as (Hp & Hd & H0).
  unfold sched_add. wp_struct. eapply wp_getTCB; [done|].
  destruct (tcbQueued (tcbState t)) eqn:Hqd; cbn [negb].
  { wp_struct. by split. }
  cbv zeta. rewrite Hd. wp_struct. apply wp_ready_queues_index.
  wp_struct. eapply wp_getReadyQueue; [by apply (qwf_queue _ _ _ Hq)|]. fold (queue_of (q (tcbPriority t))).
  assert (Hxn : x ∉ q (tcbPriority t)).
  { rewrite (member_iff _ _ _ _ _ Hq Hx). congruence. }
  wp_struct. eapply (wp_add_bit s q x t Hwf Hx (ins x (q (tcbPriority t)))).
  { intros He. eapply (not_elem_of_nil (A:=Z) x). rewrite <- He. apply Hins. by left. }
  intros l1 l2 Hbw. wp_struct. eapply Hop; st_simpl; [|by apply (qwf_dlist _ _ _ Hq)|done|done|done|..].
  { by apply (ready_cells s q x t). }
  { by apply (qwf_unqueued _ _ _ Hq x). }
  intros m' Hrl. wp_struct. unfold putReadyQueue. wp_struct.
  destruct (m' !! x) as [t1|] eqn:Hx1; last first.
  { pose proof (rl_erase _ _ _ _ Hrl) as He. apply (f_equal (.!! x)) in He.
    rewrite !lookup_fmap, Hx, Hx1 in He. done. }
  eapply wp_modTCB; [done|].
  split; [|split; [|exact Hbw]].
  - apply (sched_eq_update s (<[x:=with_queued true t1]> m')
      (<[tcbPriority t := queue_of (ins x (q (tcbPriority t)))]> (ksReadyQueues s)) l1 l2).
    rewrite (fmap_insert_same _ _ _ t1); [apply links_tcb_erase, Hrl|done|].
    by destruct t1 as [? [] ? ? ? ? ? ? ? ? ? ? ? ? ? ?].
  - apply (queues_wf_relink (ksTCBs s)); try done.
    + intros y Hyx. rewrite Hins. tauto.
    + split; [done|]. intros _. apply Hins. by left.
Qed.
End SchedAdd.

Lemma wp_tcbSchedEnqueue s q x t :
  ready_wf s q -> ksTCBs s !! x = Some t ->
  wp (tcbSchedEnqueue x) (fun _ => ready_post s
    (if tcbQueued (tcbState t) then q else upd q (tcbPriority t) (x :: q (tcbPriority t)))) s.
Proof.
  apply (wp_sched_add tcb_queue_prepend cons).
  - intros. apply elem_of_cons.
  - intros. by eapply wp_tcb_queue_prepend.
Qed.

Lemma wp_tcbSchedAppend s q x t :
  ready_wf s q -> ksTCBs s !! x = Some t ->
  wp (tcbSchedAppend x) (fun _ => ready_post s
    (if tcbQueued (tcbState t) then q else upd q (tcbPriority t) (q (tcbPriority t) ++ [x]))) s.
Proof.
  apply (wp_sched_add tcb_queue_append (fun x l => l ++ [x])).
  - intros. rewrite elem_of_app, list_elem_of_singleton. tauto.
  - intros. by eapply wp_tcb_queue_append.
Qed.

Lemma wp_tcbSchedDequeue s q x t :
  ready_wf s q -> ksTCBs s !! x = Some t ->
  wp (tcbSchedDequeue x) (fun _ => ready_post s
    (if tcbQueued (tcbState t) then upd q (tcbPriority t) (del x (q (tcbPriority t))) else q)) s.
Proof.
  intros Hwf Hx. pose proof Hwf as [Hq Hb]. destruct (ready_prio s q x t Hwf Hx) as (Hp & Hd & H0).
  unfold tcbSchedDequeue. wp_struct. eapply wp_getTCB; [done|].
  destruct (tcbQueued (tcbState t)) eqn:Hqd; last first.
  { wp_struct. by split. }
  cbv zeta. rewrite Hd. wp_struct. apply wp_ready_queues_index.
  wp_struct. eapply wp_getReadyQueue; [by apply (qwf_queue _ _ _ Hq)|].
  fold (queue_of (q (tcbPriority t))).
  assert (Hxin : x ∈ q (tcbPriority t)) by (by rewrite (member_iff _ _ _ _ _ Hq Hx)).
  pose proof (qwf_dlist _ _ _ Hq _ Hp) as Hdl. pose proof (dlist_nodup _ _ _ Hdl) as Hnd.
  apply list_elem_of_split in Hxin as (la & lb & Hl).
  rewrite Hl in Hnd. destruct (nodup_mid _ _ _ Hnd) as [Hxa Hxb].
  rewrite Hl, del_split by done. rewrite <- Hl.
  wp_struct. eapply wp_tcb_queue_remove;
    [by apply (ready_cells s q x t)|exact Hdl|exact Hx|exact Hl|].
  intros m' Hrl Hz. wp_struct. unfold putReadyQueue. do 2 wp_struct.
  destruct (m' !! x) as [t1|] eqn:Hx1; last first.
  { pose proof (rl_erase _ _ _ _ Hrl) as He. apply (f_equal (.!! x)) in He.
    rewrite !lookup_fmap, Hx, Hx1 in He. done. }
  eapply wp_modTCB; [done|].
  eapply (wp_remove_bit s q x t Hwf Hx (la ++ lb)); [|done|done| |].
  { pose proof (dlist_nonnull _ _ _ (rl_dlist _ _ _ _ Hrl)). done. }
  { rewrite Hl. by destruct la. }
  intros l1 l2 Hbw. split; [|split; [|exact Hbw]].
  - apply (sched_eq_update s (<[x:=with_queued false t1]> m')
      (<[tcbPriority t := queue_of (la ++ lb)]> (ksReadyQueues s)) l1 l2).
    rewrite (fmap_insert_same _ _ _ t1); [apply links_tcb_erase, Hrl|done|].
    by destruct t1 as [? [] ? ? ? ? ? ? ? ? ? ? ? ? ? ?].
  - apply (queues_wf_relink (ksTCBs s)); try done.
    + intros y Hyx. rewrite Hl, !elem_of_app, elem_of_cons. tauto.
    + split; [|done]. rewrite elem_of_app. tauto.
    + intros _. by apply Hz.
Qed.
