(* ===== verification/Schedule.v ===== *)
(** * The scheduler refines priority round-robin

    An abstract scheduler over lists of threads per priority, and the proof
    that [schedule] (src/kernel/thread.c) implements it: no assertion of the
    code fails and the thread it makes current is the abstract choice. *)
From S2P Require Import Prelude Dll Structures CapOps CSpace VSpace Sched DomSched ReadyQueue.
From stdpp Require Import base list sets gmap.
#[local] Open Scope Z_scope.

(** ** The abstract scheduler *)
Definition queues : Type := Z -> list Z.

Definition enq (q : queues) (p x : Z) : queues := if bool_decide (x ∈ q p) then q else upd q p (x :: q p).
Definition appq (q : queues) (p x : Z) : queues := if bool_decide (x ∈ q p) then q else upd q p (q p ++ [x]).
Definition deq (q : queues) (p x : Z) : queues := if bool_decide (x ∈ q p) then upd q p (del x (q p)) else q.

(** The highest priority below [n] with a ready thread. *)
Fixpoint top_below (q : queues) (n : nat) : option Z :=
  match n with
  | O => None
  | S n' => match q (Z.of_nat n') with [] => top_below q n' | _ => Some (Z.of_nat n') end
  end.
Definition top_prio (q : queues) : option Z := top_below q (Z.to_nat CONFIG_NUM_PRIORITIES).

(** First thread of the highest nonempty queue, the idle thread otherwise. *)
Definition choose (q : queues) (idle : Z) : queues * Z :=
  match top_prio q with
  | Some p => let x := hd_or 0 (q p) in (deq q p x, x)
  | None => (q, idle)
  end.

Definition highest (q : queues) (p : Z) : bool :=
  match top_prio q with Some hp => hp <=? p | None => true end.

(** What [schedule] decides from: thread priorities, which threads are
    runnable, the current and idle threads and the scheduler action. *)
Definition spec_schedule (prio : Z -> Z) (runs : Z -> bool) (idle : Z)
    (q : queues) (cur action : Z) : queues * Z :=
  if action =? SchedulerAction_ResumeCurrentThread then (q, cur) else
  let q1 := if runs cur then enq q (prio cur) cur else q in
  if action =? SchedulerAction_ChooseNewThread then choose q1 idle else
  let fastfail := (cur =? idle) || (prio action <? prio cur) in
  if fastfail && negb (highest q1 (prio action)) then
    choose (enq q1 (prio action) action) idle
  else if runs cur && (prio action =? prio cur) then
    choose (appq q1 (prio action) action) idle
  else (deq q1 (prio action) action, action).

(** The ready lists a fresh choice is made from, when one is made: on
    request, or when the candidate thread does not get the processor. *)
Definition spec_pool (prio : Z -> Z) (runs : Z -> bool) (idle : Z)
    (q : queues) (cur action : Z) : option queues :=
  if action =? SchedulerAction_ResumeCurrentThread then None else
  let q1 := if runs cur then enq q (prio cur) cur else q in
  if action =? SchedulerAction_ChooseNewThread then Some q1 else
  let fastfail := (cur =? idle) || (prio action <? prio cur) in
  if fastfail && negb (highest q1 (prio action)) then Some (enq q1 (prio action) action)
  else if runs cur && (prio action =? prio cur) then Some (appq q1 (prio action) action)
  else None.

Lemma spec_pool_choose prio runs idle q cur action q' :
  spec_pool prio runs idle q cur action = Some q' ->
  spec_schedule prio runs idle q cur action = choose q' idle.
Proof. unfold spec_pool, spec_schedule. intros H. repeat case_match; by simplify_eq. Qed.

Lemma top_below_spec q n :
  match top_below q n with
  | Some p => 0 <= p < Z.of_nat n /\ q p <> [] /\ forall x, p < x < Z.of_nat n -> q x = []
  | None => forall x, 0 <= x < Z.of_nat n -> q x = []
  end.
Proof.
  induction n as [|n IH]; cbn [top_below]; [lia|].
  destruct (q (Z.of_nat n)) as [|a l] eqn:Hq.
  - destruct (top_below q n) as [p|].
    + destruct IH as (?&?&Hx). split_and!; [lia|lia|done|]. intros x Hxn.
      destruct (decide (x = Z.of_nat n)) as [->|]; [done|]. apply Hx. lia.
    + intros x Hx. destruct (decide (x = Z.of_nat n)) as [->|]; [done|]. apply IH. lia.
  - split_and!; [lia|lia|by rewrite Hq|lia].
Qed.

Lemma top_Some q p : top_prio q = Some p -> prio_ok p /\ q p <> [] /\ forall x, p < x -> prio_ok x -> q x = [].
Proof.
  intros H. pose proof (top_below_spec q (Z.to_nat CONFIG_NUM_PRIORITIES)) as Ht.
  unfold top_prio in H. rewrite H in Ht. unfold prio_ok. change CONFIG_NUM_PRIORITIES with 256 in *.
  destruct Ht as (?&?&Hx). split_and!; [lia..|done|]. intros x ??. apply Hx. lia.
Qed.

Lemma top_None q x : top_prio q = None -> prio_ok x -> q x = [].
Proof.
  intros H. pose proof (top_below_spec q (Z.to_nat CONFIG_NUM_PRIORITIES)) as Ht.
  unfold top_prio in H. rewrite H in Ht. unfold prio_ok. change CONFIG_NUM_PRIORITIES with 256 in *.
  intros ?. apply Ht. lia.
Qed.

Lemma nonempty_spec q p : nonempty q p = true <-> q p <> [].
Proof. unfold nonempty. rewrite negb_true_iff, bool_decide_eq_false. done. Qed.

Lemma top_unique q p :
  prio_ok p -> q p <> [] -> (forall x, p < x -> prio_ok x -> q x = []) -> top_prio q = Some p.
Proof.
  intros Hp Hne Hx. destruct (top_prio q) as [p'|] eqn:Ht.
  - apply top_Some in Ht as (Hp' & Hne' & Hx'). f_equal.
    destruct (Z.lt_trichotomy p p') as [H|[H|H]]; [|done|].
    + by rewrite (Hx p') in Hne'.
    + by rewrite (Hx' p) in Hne.
  - by rewrite (top_None _ _ Ht Hp) in Hne.
Qed.

(** ** Views of the concrete state *)
Definition tprio (s : kstate) (x : Z) : Z := tlink tcbPriority (ksTCBs s) x.
Definition trun (s : kstate) (x : Z) : bool :=
  match ksTCBs s !! x with Some t => isRunnable_tcb t | None => false end.

Lemma erase_lookup (m m' : gmap Z tcb) x :
  tcb_erase <$> m' = tcb_erase <$> m -> tcb_erase <$> (m' !! x) = tcb_erase <$> (m !! x).
Proof. intros H. apply (f_equal (.!! x)) in H. by rewrite !lookup_fmap in H. Qed.

Lemma sched_eq_tcbs s s' x :
  sched_eq s s' -> tcb_erase <$> (ksTCBs s' !! x) = tcb_erase <$> (ksTCBs s !! x).
Proof.
  intros H. apply (f_equal ksTCBs) in H. unfold sched_erase in H. st_simpl_in H. by apply erase_lookup.
Qed.

(** A property of threads that ignores links and queued flags is kept. *)
Lemma sched_eq_view {A} (f : tcb -> A) d s s' x :
  (forall t, f (tcb_erase t) = f t) -> sched_eq s s' ->
  match ksTCBs s' !! x with Some t => f t | None => d end =
  match ksTCBs s !! x with Some t => f t | None => d end.
Proof.
  intros Hf H. pose proof (sched_eq_tcbs s s' x H) as Hx.
  destruct (ksTCBs s' !! x) as [t'|], (ksTCBs s !! x) as [t|]; try done.
  apply (inj Some) in Hx. by rewrite <- (Hf t'), <- (Hf t), Hx.
Qed.

Lemma sched_eq_tprio s s' x : sched_eq s s' -> tprio s' x = tprio s x.
Proof. intros H. by apply (sched_eq_view tcbPriority). Qed.
Lemma sched_eq_trun s s' x : sched_eq s s' -> trun s' x = trun s x.
Proof. intros H. by apply (sched_eq_view isRunnable_tcb). Qed.
Lemma sched_eq_some s s' x : sched_eq s s' -> is_Some (ksTCBs s !! x) -> is_Some (ksTCBs s' !! x).
Proof.
  intros H [t Ht]. pose proof (sched_eq_tcbs s s' x H) as Hx. rewrite Ht in Hx.
  destruct (ksTCBs s' !! x); [eauto|done].
Qed.

Lemma sched_eq_field {A} (f : kstate -> A) s s' :
  (forall s, f (sched_erase s) = f s) -> sched_eq s s' -> f s' = f s.
Proof. intros Hf H. rewrite <- (Hf s'), <- (Hf s). by f_equal. Qed.

(** ** Queue operations as list operations *)
Section Ops.
Context (s : kstate) (q : queues) (x : Z) (Q : unit -> kstate -> Prop).
Hypothesis Hwf : ready_wf s q.
Hypothesis Hx : is_Some (ksTCBs s !! x).

Lemma queued_member t :
  ksTCBs s !! x = Some t -> tcbQueued (tcbState t) = bool_decide (x ∈ q (tcbPriority t)).
Proof.
  intros Ht. pose proof (member_iff _ _ _ _ _ (proj1 Hwf) Ht) as Hm.
  case_bool_decide; [by apply Hm|]. destruct (tcbQueued (tcbState t)); [|done]. by exfalso; apply H, Hm.
Qed.

Lemma wp_enq :
  (forall s', sched_eq s s' -> ready_wf s' (enq q (tprio s x) x) -> Q tt s') ->
  wp (tcbSchedEnqueue x) Q s.
Proof.
  destruct Hx as [t Ht]. intros HQ. eapply wp_mono; [by eapply wp_tcbSchedEnqueue|].
  intros [] s' [??]. apply HQ; [done|]. unfold enq, tprio. rewrite (tlink_Some _ _ _ _ Ht).
  by rewrite <- queued_member.
Qed.

Lemma wp_appq :
  (forall s', sched_eq s s' -> ready_wf s' (appq q (tprio s x) x) -> Q tt s') ->
  wp (tcbSchedAppend x) Q s.
Proof.
  destruct Hx as [t Ht]. intros HQ. eapply wp_mono; [by eapply wp_tcbSchedAppend|].
  intros [] s' [??]. apply HQ; [done|]. unfold appq, tprio. rewrite (tlink_Some _ _ _ _ Ht).
  by rewrite <- queued_member.
Qed.

Lemma wp_deq :
  (forall s', sched_eq s s' -> ready_wf s' (deq q (tprio s x) x) -> Q tt s') ->
  wp (tcbSchedDequeue x) Q s.
Proof.
  destruct Hx as [t Ht]. intros HQ. eapply wp_mono; [by eapply wp_tcbSchedDequeue|].
  intros [] s' [??]. apply HQ; [done|]. unfold deq, tprio. rewrite (tlink_Some _ _ _ _ Ht).
  by rewrite <- queued_member.
Qed.
End Ops.

(** ** Switching threads *)

(** The part of the state that follows the hardware: the owner of the FPU,
    the lookup fault and the operations issued, the latest first. *)
Record hw_state : Type := mk_hw { hw_owner : Z; hw_fault : lookup_fault; hw_ops : list machine_op }.

Definition hw_of (s : kstate) : hw_state := mk_hw (ksCurFPUOwner s) (current_lookup_fault s) (ksMachine s).

Definition hw_op (op : machine_op) (h : hw_state) : hw_state :=
  mk_hw (hw_owner h) (hw_fault h) (op :: hw_ops h).

(** Handing the FPU over: the state of the owner is saved, that of the new
    one is loaded, or the unit is switched off. *)
Definition fpu_switch (t o : Z) (ops : list machine_op) : Z * list machine_op :=
  let ops1 := op_enableFpu :: ops in
  let ops2 := if negb (o =? 0) then op_saveFpuState o :: ops1 else ops1 in
  (t, (if negb (t =? 0) then op_loadFpuState t else op_disableFpu) :: ops2).

(** The same done lazily, when a thread is switched to. *)
Definition fpu_restore (flags t o : Z) (ops : list machine_op) : Z * list machine_op :=
  if negb (Z.land flags seL4_TCBFlag_fpuDisabled =? 0) then (o, op_disableFpu :: ops)
  else if t =? o then (o, op_enableFpu :: ops)
  else fpu_switch t o ops.

Definition hw_fpu (f : Z -> list machine_op -> Z * list machine_op) (h : hw_state) : hw_state :=
  let r := f (hw_owner h) (hw_ops h) in mk_hw r.1 (hw_fault h) r.2.

Definition tflags (s : kstate) (x : Z) : Z := tlink tcbFlags (ksTCBs s) x.

(** Entering thread [x]: its address space, then its FPU state. *)
Definition hw_enter (s : kstate) (x : Z) (h : hw_state) : hw_state :=
  hw_fpu (fpu_restore (tflags s x) x)
    (mk_hw (hw_owner h) (vmroot_fault s x (hw_fault h)) (vmroot_op s x :: hw_ops h)).

(** [s] with another current thread and another state of the hardware. *)
Definition switched (x : Z) (h : hw_state) (s : kstate) : kstate :=
  set_ksCurThread (fun _ => x)
    (set_ksCurFPUOwner (fun _ => hw_owner h) (with_trace (hw_fault h, hw_ops h) s)).

Lemma switched_id s : switched (ksCurThread s) (hw_of s) s = s.
Proof. by destruct s. Qed.

Lemma wp_doMachineOp_switched op x h s Q :
  Q tt (switched x (hw_op op h) s) -> wp (doMachineOp op) Q (switched x h s).
Proof. done. Qed.

Lemma wp_switchLocalFpuOwner t x h s Q :
  Q tt (switched x (hw_fpu (fpu_switch t) h) s) -> wp (switchLocalFpuOwner t) Q (switched x h s).
Proof.
  intros HQ. unfold hw_fpu, fpu_switch in HQ. destruct h as [o lf ops]. cbn in HQ.
  unfold switchLocalFpuOwner. wp_struct. apply wp_doMachineOp_switched. do 3 wp_struct.
  change (ksCurFPUOwner _) with o.
  destruct (negb (o =? 0)); [apply wp_doMachineOp_switched|wp_struct];
    (wp_struct; destruct (negb (t =? 0)); apply wp_doMachineOp_switched; exact HQ).
Qed.

Lemma wp_lazyFPURestore t x h s Q :
  is_Some (ksTCBs s !! t) ->
  Q tt (switched x (hw_fpu (fpu_restore (tflags s t) t) h) s) -> wp (lazyFPURestore t) Q (switched x h s).
Proof.
  intros [tc Ht] HQ. unfold tflags, hw_fpu, fpu_restore in HQ. rewrite (tlink_Some _ _ _ _ Ht) in HQ.
  unfold lazyFPURestore. wp_struct. eapply wp_getTCB; [exact Ht|].
  destruct (negb _); [exact HQ|].
  unfold nativeThreadUsingFPU. do 2 wp_struct. change (ksCurFPUOwner _) with (hw_owner h).
  destruct (t =? _); [exact HQ|]. by apply wp_switchLocalFpuOwner.
Qed.

Lemma wp_switchToThread s q t Q :
  ready_wf s q -> vm_ok s -> is_Some (ksTCBs s !! t) ->
  (forall s', sched_eq (switched t (hw_enter s t (hw_of s)) s) s' ->
     ready_wf s' (deq q (tprio s t) t) -> Q tt s') ->
  wp (switchToThread t) Q s.
Proof.
  intros Hwf Hok Ht HQ. unfold switchToThread, Arch_switchToThread.
  wp_struct. apply (wp_setVMRoot_op s Hok t); [exact Ht|].
  set (h0 := mk_hw (ksCurFPUOwner s) (vmroot_fault s t (current_lookup_fault s)) (vmroot_op s t :: ksMachine s)).
  replace (with_trace _ s) with (switched (ksCurThread s) h0 s) by by destruct s.
  wp_struct. apply wp_lazyFPURestore; [done|].
  wp_struct. apply (wp_deq _ q); [exact Hwf|exact Ht|]. intros s' He Hwf'.
  wp_struct. apply HQ; [|exact Hwf'].
  unfold sched_eq, sched_erase in *. apply (f_equal (set_ksCurThread (fun _ => t))) in He. exact He.
Qed.

(** ** The scheduler invariant *)

(** Every ready thread satisfies [P]. *)
Definition qall (P : Z -> Prop) (q : queues) : Prop := forall p x, prio_ok p -> x ∈ q p -> P x.

Lemma qall_enq P q p x : P x -> qall P q -> qall P (enq q p x).
Proof.
  intros Hx Hq p' y Hp'. unfold enq. case_bool_decide; [by apply Hq|].
  unfold upd. destruct (Z.eqb_spec p' p) as [->|]; [|by apply Hq].
  rewrite elem_of_cons. intros [->|Hy]; [done|by apply (Hq p)].
Qed.

Lemma qall_appq P q p x : P x -> qall P q -> qall P (appq q p x).
Proof.
  intros Hx Hq p' y Hp'. unfold appq. case_bool_decide; [by apply Hq|].
  unfold upd. destruct (Z.eqb_spec p' p) as [->|]; [|by apply Hq].
  rewrite elem_of_app, list_elem_of_singleton. intros [Hy| ->]; [by apply (Hq p)|done].
Qed.

Lemma qall_deq P q p x : qall P q -> qall P (deq q p x).
Proof.
  intros Hq p' y Hp'. unfold deq. case_bool_decide; [|by apply Hq].
  unfold upd. destruct (Z.eqb_spec p' p) as [->|]; [|by apply Hq].
  rewrite elem_of_del. intros [_ Hy]. by apply (Hq p).
Qed.

Record sched_inv (s : kstate) (q : queues) : Prop := {
  si_ready : ready_wf s q;
  si_queued : qall (fun x => trun s x = true) q;
  si_cur : is_Some (ksTCBs s !! ksCurThread s);
  si_idle : is_Some (ksTCBs s !! ksIdleThread s);
  si_dom : ksCurDomain s = 0;
  si_domsched : domsched_inv s;
  si_vm : vm_ok s;
  si_action : ksSchedulerAction s = SchedulerAction_ResumeCurrentThread
    \/ ksSchedulerAction s = SchedulerAction_ChooseNewThread
    \/ (trun s (ksSchedulerAction s) = true /\ ksSchedulerAction s <> ksCurThread s)
}.

(** What the scheduler leaves alone: everything but the ready queues, the
    current thread, the scheduler action, the FPU owner, the hardware trace,
    the lookup fault, the position in the domain schedule, the domain time and
    the preemption counter.  [schedule_post] says what becomes of each of these. *)
Definition frame_hide (s : kstate) : kstate :=
  set_ksSchedulerAction (fun _ => 0) (set_ksDomainTime (fun _ => 0)
    (set_ksDomScheduleIdx (fun _ => 0) (set_ksWorkUnitsCompleted (fun _ => 0)
      (switched 0 (mk_hw 0 lookup_fault_invalid_root []) (sched_erase s))))).

Definition sched_frame (s s' : kstate) : Prop :=
  frame_hide s' = frame_hide s.

#[export] Instance sched_frame_equiv : Equivalence sched_frame.
Proof. unfold sched_frame. split; [by intros ?|by intros ??|intros ???; congruence]. Qed.

Lemma sched_eq_frame s s' : sched_eq s s' -> sched_frame s s'.
Proof. unfold sched_eq, sched_frame, frame_hide. by intros ->. Qed.

Lemma sched_eq_domsched s s' : sched_eq s s' -> domsched_inv s -> domsched_inv s'.
Proof.
  unfold domsched_inv. intros He.
  by rewrite (sched_eq_field ksDomSchedule s s'), (sched_eq_field ksDomScheduleIdx s s'),
    (sched_eq_field ksDomScheduleStart s s').
Qed.

Lemma switched_frame x h s s' : sched_eq (switched x h s) s' -> sched_frame s s'.
Proof. intros H. apply sched_eq_frame in H. exact H. Qed.

Lemma sched_frame_field {A} (f : kstate -> A) s s' :
  (forall s, f (frame_hide s) = f s) ->
  sched_frame s s' -> f s' = f s.
Proof. intros Hf H. rewrite <- (Hf s'), <- (Hf s). by f_equal. Qed.

Lemma sched_frame_tcbs s s' x :
  sched_frame s s' -> tcb_erase <$> (ksTCBs s' !! x) = tcb_erase <$> (ksTCBs s !! x).
Proof.
  intros H. apply (f_equal ksTCBs) in H.
  change (tcb_erase <$> ksTCBs s' = tcb_erase <$> ksTCBs s) in H.
  by apply erase_lookup.
Qed.

Lemma sched_frame_trun s s' x : sched_frame s s' -> trun s' x = trun s x.
Proof.
  intros H. apply (sched_frame_tcbs _ _ x) in H. unfold trun.
  destruct (ksTCBs s' !! x) as [t'|], (ksTCBs s !! x) as [t|]; try done.
  apply (inj Some) in H. change (isRunnable_tcb (tcb_erase t') = isRunnable_tcb (tcb_erase t)). by rewrite H.
Qed.

Lemma sched_frame_some s s' x : sched_frame s s' -> is_Some (ksTCBs s !! x) -> is_Some (ksTCBs s' !! x).
Proof.
  intros H [t Ht]. apply (sched_frame_tcbs _ _ x) in H. rewrite Ht in H.
  destruct (ksTCBs s' !! x); [eauto|done].
Qed.

Lemma sched_frame_vm s s' : sched_frame s s' -> vm_ok s -> vm_ok s'.
Proof.
  intros H. apply vm_ok_same; try (by apply sched_frame_field).
  intros x. by apply (sched_frame_some s' s).
Qed.

(** Entering a thread only looks at what the scheduler leaves alone. *)
Lemma sched_frame_enter s s' x h : sched_frame s s' -> hw_enter s' x h = hw_enter s x h.
Proof.
  intros H. unfold hw_enter.
  destruct (vmroot_same s s' x) as [-> ->]; [by apply (sched_frame_field _ s s')..|].
  assert (tflags s' x = tflags s x) as ->; [|done].
  apply (sched_frame_tcbs _ _ x) in H. unfold tflags, tlink.
  destruct (ksTCBs s' !! x) as [t'|], (ksTCBs s !! x) as [t|]; try done.
  apply (inj Some) in H. change (tcbFlags (tcb_erase t') = tcbFlags (tcb_erase t)). by rewrite H.
Qed.

Lemma trun_some s x : trun s x = true -> exists t, ksTCBs s !! x = Some t /\ isRunnable_tcb t = true.
Proof. unfold trun. destruct (ksTCBs s !! x); [eauto|done]. Qed.

Lemma wp_isSchedulable s x Q :
  is_Some (ksTCBs s !! x) -> Q (trun s x) s -> wp (isSchedulable x) Q s.
Proof.
  intros [t Ht] HQ. unfold isSchedulable, isRunnable. wp_struct. eapply wp_getTCB; [done|].
  wp_struct. unfold trun in HQ. by rewrite Ht in HQ.
Qed.

(** ** The bitmap queries *)
Lemma ready_top_None s q :
  ready_wf s q -> ksReadyQueuesL1Bitmap s !! 0 = Some 0 -> top_prio q = None.
Proof.
  intros [_ Hb] H0. destruct (top_prio q) as [p|] eqn:Ht; [|done]. apply top_Some in Ht as (Hp & Hne & _).
  pose proof (bitmap_empty s (nonempty q) Hb H0 p Hp) as Hn.
  apply nonempty_spec in Hne. congruence.
Qed.

Lemma wp_getHighestPrio_top s q w1 Q :
  ready_wf s q -> ksReadyQueuesL1Bitmap s !! 0 = Some w1 -> w1 <> 0 ->
  (forall p, top_prio q = Some p -> Q p s) -> wp (getHighestPrio 0) Q s.
Proof.
  intros [_ Hb] Hl Hw HQ. apply (wp_getHighestPrio s (nonempty q) Hb).
  - by apply (bitmap_nonempty s (nonempty q) Hb w1).
  - intros hp Hp Hne Hx. apply HQ, top_unique; [done|by apply nonempty_spec|].
    intros x ??. destruct (q x) eqn:He; [done|]. exfalso.
    assert (nonempty q x = true) by (apply nonempty_spec; congruence).
    rewrite Hx in H1; done.
Qed.

Lemma wp_isHighestPrio s q p Q :
  ready_wf s q -> Q (highest q p) s -> wp (isHighestPrio 0 p) Q s.
Proof.
  intros Hwf HQ. pose proof Hwf as [_ (w1 & Hl1 & _)].
  unfold isHighestPrio, highest in *. wp_struct. eapply wp_getL1; [done|].
  destruct (Z.eqb_spec w1 0) as [->|Hw].
  - wp_struct. by rewrite (ready_top_None s q Hwf Hl1) in HQ.
  - wp_struct. eapply (wp_getHighestPrio_top s q); [done..|]. intros hp Ht. wp_struct.
    by rewrite Ht in HQ.
Qed.

(** ** What a scheduling decision does besides *)

(** The thread of the highest ready list is entered; without one the idle
    thread runs in the empty address space and keeps the FPU as it is. *)
Definition hw_choose (s : kstate) (q : queues) (h : hw_state) : hw_state :=
  match top_prio q with
  | Some p => hw_enter s (hd_or 0 (q p)) h
  | None => hw_op op_setCurrentUserVSpaceRoot_global h
  end.

(** A fresh choice in an expired domain releases the FPU first. *)
Definition hw_fresh (s : kstate) (q : queues) : hw_state :=
  hw_choose s q (if ksDomainTime s =? 0 then hw_fpu (fpu_switch 0) (hw_of s) else hw_of s).

Definition hw_schedule (s : kstate) (pool : option queues) : hw_state :=
  match pool with
  | Some q => hw_fresh s q
  | None =>
      if ksSchedulerAction s =? SchedulerAction_ResumeCurrentThread then hw_of s
      else hw_enter s (ksSchedulerAction s) (hw_of s)
  end.

(** The position in the domain schedule, the time left in the domain and the
    preemption counter. *)
Definition dom_of (s : kstate) : Z * Z * Z :=
  (ksDomScheduleIdx s, ksDomainTime s, ksWorkUnitsCompleted s).

(** An expired domain is replaced when a fresh choice is made, and only then. *)
Definition dom_schedule (s : kstate) (pool : option queues) : Z * Z * Z :=
  match pool with
  | Some _ => if ksDomainTime s =? 0 then dom_of (after_next s) else dom_of s
  | None => dom_of s
  end.

Lemma sched_frame_choose s s' q h : sched_frame s s' -> hw_choose s' q h = hw_choose s q h.
Proof. intros H. unfold hw_choose. destruct (top_prio q); [by apply sched_frame_enter|done]. Qed.

Lemma sched_eq_hw s s' : sched_eq s s' -> hw_of s' = hw_of s /\ dom_of s' = dom_of s.
Proof. intros H. by split; apply (sched_eq_field _ s s'). Qed.

(** ** Choosing a thread *)
Lemma wp_chooseThread s q Q :
  ready_wf s q -> vm_ok s -> qall (fun x => trun s x = true) q ->
  (forall s', sched_eq (switched (choose q (ksIdleThread s)).2 (hw_choose s q (hw_of s)) s) s' ->
     ready_wf s' (choose q (ksIdleThread s)).1 -> Q tt s') ->
  wp chooseThread Q s.
Proof.
  intros Hwf Hvm Hall HQ. pose proof Hwf as [Hq (w1 & Hl1 & _)].
  unfold chooseThread. wp_struct. cbn [Z.ltb]. change (1 <? numDomains) with false. cbv iota.
  wp_struct. wp_struct. eapply wp_getL1; [done|].
  destruct (Z.eqb_spec w1 0) as [->|Hw]; cbn [negb].
  - unfold switchToIdleThread, Arch_switchToIdleThread, choose, hw_choose in *.
    rewrite (ready_top_None s q Hwf Hl1) in HQ. rewrite <- (switched_id s) at 1.
    wp_struct. apply wp_doMachineOp_switched. do 3 wp_struct.
    eapply HQ; [|exact Hwf]. reflexivity.
  - wp_struct. eapply (wp_getHighestPrio_top s q); [done..|]. intros p Ht.
    unfold choose, hw_choose in HQ. rewrite Ht in HQ. cbn in HQ.
    apply top_Some in Ht as (Hp & Hne & _).
    wp_struct. apply wp_ready_queues_index. wp_struct.
    eapply wp_getReadyQueue; [by apply (qwf_queue _ _ _ Hq)|]. cbn [q_head].
    pose proof (hd_or_in 0 _ Hne) as Hin.
    destruct (qwf_member _ _ _ Hq p _ Hp Hin) as (t & Ht & _ & Hpt).
    wp_struct. wp_struct.
    { apply negb_true_iff, Z.eqb_neq. by destruct (qwf_prio _ _ _ Hq _ _ Ht) as (_ & _ & ?). }
    wp_struct. apply wp_isSchedulable; [eauto|]. rewrite (Hall p) by done.
    wp_struct. wp_struct. apply (wp_switchToThread s q); [done|done|eauto|].
    unfold tprio. rewrite (tlink_Some _ _ _ _ Ht), Hpt. exact HQ.
Qed.

(** ** [schedule] *)
Definition schedule_post (s : kstate) (q' : queues) (cur' : Z) (h' : hw_state) (d' : Z * Z * Z)
    (s' : kstate) : Prop :=
  sched_frame s s' /\ sched_inv s' q' /\ ksCurThread s' = cur' /\
  ksSchedulerAction s' = SchedulerAction_ResumeCurrentThread /\ hw_of s' = h' /\ dom_of s' = d'.

Section ScheduleProof.
Context (s : kstate) (q : queues).
Hypothesis Hinv : sched_inv s q.
Notation post q' c h d := (fun s' => schedule_post s q' c h d
  (set_ksSchedulerAction (fun _ => SchedulerAction_ResumeCurrentThread) s')).

Lemma schedule_finish s1 q' c h d :
  sched_frame s s1 -> ready_wf s1 q' -> qall (fun x => trun s x = true) q' ->
  ksCurThread s1 = c -> is_Some (ksTCBs s !! c) -> domsched_inv s1 ->
  hw_of s1 = h -> dom_of s1 = d -> post q' c h d s1.
Proof.
  intros Hf Hwf Hall Hc Hsome Hds Hh Hd. destruct Hinv.
  split_and!; [exact Hf| |exact Hc|done|exact Hh|exact Hd].
  split; st_simpl; [exact Hwf| | | | |exact Hds| |by left].
  - intros p x Hp Hx. rewrite <- (Hall p x Hp Hx). by apply (sched_frame_trun s s1).
  - rewrite Hc. by apply (sched_frame_some s s1).
  - rewrite (sched_frame_field ksIdleThread s s1) by done. by apply (sched_frame_some s s1).
  - by rewrite (sched_frame_field ksCurDomain s s1).
  - by apply (sched_frame_vm s).
Qed.

Lemma qall_frame s1 q1 :
  sched_frame s s1 -> qall (fun x => trun s x = true) q1 -> qall (fun x => trun s1 x = true) q1.
Proof. intros Hf Hall p x Hp Hx. rewrite <- (Hall p x Hp Hx). by apply sched_frame_trun. Qed.

Lemma choose_member q1 idle :
  qall (fun x => trun s x = true) q1 -> is_Some (ksTCBs s !! idle) ->
  is_Some (ksTCBs s !! (choose q1 idle).2) /\ qall (fun x => trun s x = true) (choose q1 idle).1.
Proof.
  intros Hall Hidle. unfold choose. destruct (top_prio q1) as [p|] eqn:Ht; [|done].
  apply top_Some in Ht as (Hp & Hne & _). cbn. split; [|by apply qall_deq].
  destruct (trun_some s (hd_or 0 (q1 p))) as (t & Ht & _); [|eauto].
  apply (Hall p); [done|by apply hd_or_in].
Qed.

Lemma wp_choose_finish s1 q1 :
  sched_frame s s1 -> ready_wf s1 q1 -> qall (fun x => trun s x = true) q1 -> domsched_inv s1 ->
  wp chooseThread
    (fun _ => post (choose q1 (ksIdleThread s)).1 (choose q1 (ksIdleThread s)).2
       (hw_choose s q1 (hw_of s1)) (dom_of s1)) s1.
Proof.
  intros Hf Hwf Hall Hds.
  apply (wp_chooseThread s1 q1); [done|by eapply sched_frame_vm, si_vm|by apply qall_frame|].
  rewrite (sched_frame_field ksIdleThread s s1), (sched_frame_choose s s1) by done.
  intros s2 He Hwf2. destruct (choose_member q1 _ Hall (si_idle _ _ Hinv)) as [Hs Ha].
  destruct (sched_eq_hw _ _ He) as [Hh Hd].
  apply schedule_finish; [|done|done| |done| |by rewrite Hh; destruct (hw_choose _ _ _)|exact Hd].
  - by etrans; [|eapply switched_frame].
  - by rewrite (sched_eq_field ksCurThread _ _ ltac:(done) He).
  - exact (sched_eq_domsched _ _ He Hds).
Qed.

(** From a state that differs by the ready queues only. *)
Lemma wp_scheduleChooseNewThread s1 q1 :
  sched_frame s s1 -> ready_wf s1 q1 -> qall (fun x => trun s x = true) q1 -> domsched_inv s1 ->
  hw_of s1 = hw_of s -> dom_of s1 = dom_of s ->
  wp scheduleChooseNewThread
    (fun _ => post (choose q1 (ksIdleThread s)).1 (choose q1 (ksIdleThread s)).2
       (hw_schedule s (Some q1)) (dom_schedule s (Some q1))) s1.
Proof.
  intros Hf Hwf Hall Hds Hh Hd. unfold scheduleChooseNewThread, hw_schedule, hw_fresh, dom_schedule.
  do 2 wp_struct. pose proof Hd as Hd'. unfold dom_of in Hd'. injection Hd' as Hi Ht Hw.
  rewrite Ht. destruct (ksDomainTime s =? 0); wp_struct; [|wp_struct; rewrite <- Hd, <- Hh; by apply wp_choose_finish].
  wp_struct. unfold prepareNextDomain. rewrite <- (switched_id s1).
  apply wp_switchLocalFpuOwner. rewrite Hh. set (h1 := hw_fpu _ _).
  apply wp_nextDomain; [exact Hds|].
  destruct (after_next_inv (switched (ksCurThread s1) h1 s1) Hds) as (Hds' & Hd0 & _).
  assert (Hdom : dom_of (after_next s) = dom_of (after_next (switched (ksCurThread s1) h1 s1))).
  { unfold dom_of, after_next. st_simpl. change (ksDomSchedule (switched _ _ _)) with (ksDomSchedule s1).
    change (ksDomScheduleIdx (switched _ _ _)) with (ksDomScheduleIdx s1).
    change (ksDomScheduleStart (switched _ _ _)) with (ksDomScheduleStart s1).
    rewrite (sched_frame_field ksDomSchedule s s1), (sched_frame_field ksDomScheduleStart s s1) by done.
    by rewrite Hi. }
  rewrite Hdom. replace h1 with (hw_of (after_next (switched (ksCurThread s1) h1 s1))) at 1 by by destruct h1.
  apply wp_choose_finish; [|exact Hwf|done|exact Hds'].
  etrans; [exact Hf|]. unfold sched_frame, frame_hide.
  unfold after_next in *. st_simpl_in Hd0. rewrite Hd0.
  assert (H1 : ksCurDomain s1 = 0)
    by (by rewrite (sched_frame_field ksCurDomain s s1), (si_dom _ _ Hinv)).
  rewrite <- H1. by destruct s1.
Qed.

Lemma wp_enqueue_current c :
  c = ksCurThread s ->
  forall Q, (forall s1, sched_eq s s1 -> ready_wf s1 (if trun s c then enq q (tprio s c) c else q) -> Q tt s1) ->
  wp (if trun s c then tcbSchedEnqueue c else ret tt) Q s.
Proof.
  intros -> Q HQ. destruct (trun s _).
  - apply (wp_enq s q); [apply Hinv|apply Hinv|done].
  - wp_struct. apply HQ; [reflexivity|apply Hinv].
Qed.

Lemma wp_schedule_raw :
  wp schedule (fun _ s' =>
    let r := spec_schedule (tprio s) (trun s) (ksIdleThread s) q (ksCurThread s) (ksSchedulerAction s) in
    let pool := spec_pool (tprio s) (trun s) (ksIdleThread s) q (ksCurThread s) (ksSchedulerAction s) in
    schedule_post s r.1 r.2 (hw_schedule s pool) (dom_schedule s pool) s') s.
Proof.
  pose proof (si_queued _ _ Hinv) as Hall. pose proof (si_cur _ _ Hinv) as [tcur Hcur].
  unfold schedule, spec_schedule, spec_pool. wp_struct. wp_struct. wp_struct.
  destruct (Z.eqb_spec (ksSchedulerAction s) SchedulerAction_ResumeCurrentThread) as [Ha|Ha]; cbn [negb].
  { wp_struct. unfold setSchedulerAction. wp_struct.
    cbn [hw_schedule dom_schedule]. rewrite Ha.
    apply schedule_finish; [reflexivity|apply Hinv|done|done|apply Hinv|apply Hinv|done|done]. }
  do 2 wp_struct. wp_struct. apply wp_isSchedulable; [apply Hinv|].
  wp_struct. apply wp_enqueue_current; [done|]. intros s1 He1 Hwf1.
  pose proof (sched_eq_frame _ _ He1) as Hf1. destruct (sched_eq_hw _ _ He1) as [Hh1 Hd1].
  set (q1 := if trun s (ksCurThread s) then _ else q) in *.
  assert (Hall1 : qall (fun x => trun s x = true) q1).
  { unfold q1. destruct (trun s (ksCurThread s)) eqn:?; [by apply qall_enq|done]. }
  unfold setSchedulerAction.
  destruct (Z.eqb_spec (ksSchedulerAction s) SchedulerAction_ChooseNewThread) as [Ha'|Ha'].
  { apply wp_scheduleChooseNewThread; [done|done|done| |exact Hh1|exact Hd1].
    eapply sched_eq_domsched; [exact He1|apply Hinv]. }
  destruct (si_action _ _ Hinv) as [|[|[Hrun Hne]]]; [done|done|].
  set (c := ksSchedulerAction s) in *.
  destruct (trun_some _ _ Hrun) as (tc & Htc & _).
  assert (Hc1 : is_Some (ksTCBs s1 !! c)) by (apply (sched_eq_some s); eauto).
  wp_struct. apply wp_isSchedulable; [done|]. rewrite (sched_eq_trun s s1), Hrun by done.
  wp_struct. wp_struct. do 2 wp_struct. rewrite (sched_eq_field ksIdleThread s s1) by done.
  destruct Hc1 as [tc1 Htc1]. wp_struct. eapply wp_getTCB; [done|].
  destruct (sched_eq_some s s1 (ksCurThread s) He1 (si_cur _ _ Hinv)) as [tcur1 Htcur1].
  wp_struct. eapply wp_getTCB; [done|].
  assert (Hpc : tcbPriority tc1 = tprio s c).
  { rewrite <- (sched_eq_tprio s s1) by done. unfold tprio. by rewrite (tlink_Some _ _ _ _ Htc1). }
  assert (Hpcur : tcbPriority tcur1 = tprio s (ksCurThread s)).
  { rewrite <- (sched_eq_tprio s s1) by done. unfold tprio. by rewrite (tlink_Some _ _ _ _ Htcur1). }
  rewrite Hpc, Hpcur. wp_struct. wp_struct.
  rewrite (sched_eq_field ksCurDomain s s1), (si_dom _ _ Hinv) by done.
  set (fastfail := (ksCurThread s =? ksIdleThread s) || _).
  wp_struct.
  apply wp_mono with (Q := fun hi s2 => s2 = s1 /\ (fastfail && negb hi = fastfail && negb (highest q1 (tprio s c)))).
  { destruct fastfail; [|by wp_struct]. by apply (wp_isHighestPrio s1 q1). }
  intros hi s2 [-> Hhi]. rewrite Hhi. clear hi Hhi.
  assert (Hctcb : is_Some (ksTCBs s1 !! c)) by eauto.
  destruct (fastfail && _).
  { wp_struct. apply (wp_enq s1 q1); [done|done|]. intros s2 He2 Hwf2.
    rewrite (sched_eq_tprio s s1) in Hwf2 by done. wp_struct. unfold setSchedulerAction. wp_struct.
    pose proof (sched_eq_domsched _ _ He2 (sched_eq_domsched _ _ He1 (si_domsched _ _ Hinv))) as Hds2.
    destruct (sched_eq_hw _ _ He2) as [Hh2 Hd2].
    apply wp_scheduleChooseNewThread;
      [|exact Hwf2|by apply qall_enq|exact Hds2|by rewrite <- Hh1, <- Hh2|by rewrite <- Hd1, <- Hd2].
    etrans; [exact Hf1|]. apply sched_eq_frame in He2. exact He2. }
  destruct (trun s (ksCurThread s) && _).
  { wp_struct. apply (wp_appq s1 q1); [done|done|]. intros s2 He2 Hwf2.
    rewrite (sched_eq_tprio s s1) in Hwf2 by done. wp_struct. unfold setSchedulerAction. wp_struct.
    pose proof (sched_eq_domsched _ _ He2 (sched_eq_domsched _ _ He1 (si_domsched _ _ Hinv))) as Hds2.
    destruct (sched_eq_hw _ _ He2) as [Hh2 Hd2].
    apply wp_scheduleChooseNewThread;
      [|exact Hwf2|by apply qall_appq|exact Hds2|by rewrite <- Hh1, <- Hh2|by rewrite <- Hd1, <- Hd2].
    etrans; [exact Hf1|]. apply sched_eq_frame in He2. exact He2. }
  wp_struct. wp_struct; [by apply negb_true_iff, Z.eqb_neq|].
  apply (wp_switchToThread s1 q1); [done|by eapply sched_frame_vm, si_vm|done|]. intros s2 He2 Hwf2.
  rewrite (sched_eq_tprio s s1) in Hwf2 by done. rewrite (sched_frame_enter s s1), Hh1 in He2 by done.
  destruct (sched_eq_hw _ _ He2) as [Hh2 Hd2]. unfold hw_schedule. fold c. rewrite (proj2 (Z.eqb_neq _ _) Ha).
  apply schedule_finish;
    [|done|by apply qall_deq| |eauto| |by rewrite Hh2; destruct (hw_enter _ _ _)|exact (eq_trans Hd2 Hd1)].
  - etrans; [exact Hf1|]. by eapply switched_frame.
  - by rewrite (sched_eq_field ksCurThread _ _ ltac:(done) He2).
  - eapply sched_eq_domsched; [exact He2|]. exact (sched_eq_domsched _ _ He1 (si_domsched _ _ Hinv)).
Qed.
End ScheduleProof.
