(* ===== verification/Mdb.v ===== *)
(** * The mapping database

    Capability slots and their doubly linked derivation list: the operations
    of src/object/cnode.c that insert, move, swap and remove a slot, and the
    queries built on the list. *)
From S2P Require Import Prelude Dll Structures CapOps CSpace.
From stdpp Require Import base list sets gmap.
#[local] Open Scope Z_scope.

Definition upd_mdb (f : mdb_node -> mdb_node) : cte -> cte := set_cteMDBNode f.
Definition setCap (slot : Z) (c : cap) : K unit := modCTE slot (set_cte_cap (fun _ => c)).
Definition setMDB (slot : Z) (n : mdb_node) : K unit := modCTE slot (upd_mdb (fun _ => n)).
Definition setNext (slot v : Z) : K unit := modCTE slot (upd_mdb (set_mdbNext (fun _ => v))).
Definition setPrev (slot v : Z) : K unit := modCTE slot (upd_mdb (set_mdbPrev (fun _ => v))).

(** ** Untyped free indices (include/object/untyped.h) *)
Definition MAX_FREE_INDEX (sizeBits : Z) : Z := BIT (wsub sizeBits seL4_MinUntypedBits).
Definition FREE_INDEX_TO_OFFSET (freeIndex : Z) : Z := wshl freeIndex seL4_MinUntypedBits.
Definition GET_FREE_REF (base freeIndex : Z) : Z := wadd base (FREE_INDEX_TO_OFFSET freeIndex).
Definition GET_FREE_INDEX (base free : Z) : Z := Z.shiftr (wsub free base) seL4_MinUntypedBits.
Definition GET_OFFSET_FREE_PTR (base offset : Z) : Z := wadd base offset.
Definition OFFSET_TO_FREE_INDEX (offset : Z) : Z := Z.shiftr offset seL4_MinUntypedBits.

(** ** Insertion *)
Definition setUntypedCapAsFull (srcCap newCap : cap) (srcSlot : Z) : K unit :=
  match srcCap, newCap with
  | cap_untyped_cap _ dev srcBits srcPtr, cap_untyped_cap _ _ newBits newPtr =>
      if (srcPtr =? newPtr) && (newBits =? srcBits) then
        modCTE srcSlot (set_cte_cap (fun c =>
          match c with
          | cap_untyped_cap _ dev bits ptr => cap_untyped_cap (MAX_FREE_INDEX srcBits) dev bits ptr
          | _ => c
          end))
      else ret tt
  | _, _ => ret tt
  end.

Definition cteInsert (newCap : cap) (srcSlot destSlot : Z) : K unit :=
  let* src := getCTE srcSlot in
  let srcMDB := cteMDBNode src in
  let srcCap := cte_cap src in
  let* newCapIsRevocable := from_option_M (isCapRevocable newCap srcCap) in
  let newMDB := mdb_node_new (mdbNext srcMDB) newCapIsRevocable newCapIsRevocable srcSlot in
  let* dest := getCTE destSlot in
  assert (cap_is_null (cte_cap dest)) ;;;
  assert ((mdbNext (cteMDBNode dest) =? 0) && (mdbPrev (cteMDBNode dest) =? 0)) ;;;
  setUntypedCapAsFull srcCap newCap srcSlot ;;;
  setCap destSlot newCap ;;;
  setMDB destSlot newMDB ;;;
  setNext srcSlot destSlot ;;;
  if negb (mdbNext newMDB =? 0) then setPrev (mdbNext newMDB) destSlot else ret tt.

Definition insertNewCap (parent slot : Z) (c : cap) : K unit :=
  let* p := getCTE parent in
  let next := mdbNext (cteMDBNode p) in
  setCap slot c ;;;
  setMDB slot (mdb_node_new next true true parent) ;;;
  (if negb (next =? 0) then setPrev next slot else ret tt) ;;;
  setNext parent slot.

(** ** Moving and swapping *)
Definition cteMove (newCap : cap) (srcSlot destSlot : Z) : K unit :=
  let* dest := getCTE destSlot in
  assert (cap_is_null (cte_cap dest)) ;;;
  assert ((mdbNext (cteMDBNode dest) =? 0) && (mdbPrev (cteMDBNode dest) =? 0)) ;;;
  let* src := getCTE srcSlot in
  let mdb := cteMDBNode src in
  setCap destSlot newCap ;;;
  setCap srcSlot cap_null_cap ;;;
  setMDB destSlot mdb ;;;
  setMDB srcSlot nullMDBNode ;;;
  let prev_ptr := mdbPrev mdb in
  (if negb (prev_ptr =? 0) then setNext prev_ptr destSlot else ret tt) ;;;
  let next_ptr := mdbNext mdb in
  if negb (next_ptr =? 0) then setPrev next_ptr destSlot else ret tt.

Definition cteSwap (cap1 : cap) (slot1 : Z) (cap2 : cap) (slot2 : Z) : K unit :=
  setCap slot1 cap2 ;;;
  setCap slot2 cap1 ;;;
  let* c1 := getCTE slot1 in
  let mdb1 := cteMDBNode c1 in
  (if negb (mdbPrev mdb1 =? 0) then setNext (mdbPrev mdb1) slot2 else ret tt) ;;;
  (if negb (mdbNext mdb1 =? 0) then setPrev (mdbNext mdb1) slot2 else ret tt) ;;;
  let* c2 := getCTE slot2 in
  let mdb2 := cteMDBNode c2 in
  setMDB slot1 mdb2 ;;;
  setMDB slot2 mdb1 ;;;
  (if negb (mdbPrev mdb2 =? 0) then setNext (mdbPrev mdb2) slot1 else ret tt) ;;;
  if negb (mdbNext mdb2 =? 0) then setPrev (mdbNext mdb2) slot1 else ret tt.

Definition capSwapForDelete (slot1 slot2 : Z) : K unit :=
  if slot1 =? slot2 then ret tt
  else
    let* c1 := getCTE slot1 in
    let* c2 := getCTE slot2 in
    cteSwap (cte_cap c1) slot1 (cte_cap c2) slot2.

(** ** Interrupt state kept with IRQ-handler capabilities *)
Definition setIRQState (irqState : irq_state) (irq : Z) : K unit :=
  modify (set_intStateIRQTable (insert irq irqState)) ;;;
  doMachineOp (op_maskInterrupt (bool_decide (irqState = IRQInactive)) irq).

Definition deletedIRQHandler (irq : Z) : K unit := setIRQState IRQInactive irq.

Definition Arch_postCapDeletion (c : cap) : K unit := ret tt.

Definition postCapDeletion (c : cap) : K unit :=
  match c with
  | cap_irq_handler_cap irq => deletedIRQHandler irq
  | _ => if isArchCap c then Arch_postCapDeletion c else ret tt
  end.

(** ** Removal *)
Definition emptySlot (slot : Z) (cleanupInfo : cap) : K unit :=
  let* c := getCTE slot in
  if negb (cap_is_null (cte_cap c)) then
    let mdbNode := cteMDBNode c in
    let prev := mdbPrev mdbNode in
    let next := mdbNext mdbNode in
    (if negb (prev =? 0) then setNext prev next else ret tt) ;;;
    (if negb (next =? 0) then setPrev next prev else ret tt) ;;;
    (if negb (next =? 0) then
       modCTE next (upd_mdb (set_mdbFirstBadged (fun b => b || mdbFirstBadged mdbNode)))
     else ret tt) ;;;
    setCap slot cap_null_cap ;;;
    setMDB slot nullMDBNode ;;;
    postCapDeletion cleanupInfo
  else ret tt.

(** ** Queries *)
Definition ensureNoChildren (slot : Z) : K exception_t :=
  let* c := getCTE slot in
  if negb (mdbNext (cteMDBNode c) =? 0) then
    let* next := getCTE (mdbNext (cteMDBNode c)) in
    if isMDBParentOf c next then
      syscall_error_type seL4_RevokeFirst ;;; ret EXCEPTION_SYSCALL_ERROR
    else ret EXCEPTION_NONE
  else ret EXCEPTION_NONE.

Definition ensureEmptySlot (slot : Z) : K exception_t :=
  let* c := getCTE slot in
  if negb (cap_is_null (cte_cap c)) then
    syscall_error_type seL4_DeleteFirst ;;; ret EXCEPTION_SYSCALL_ERROR
  else ret EXCEPTION_NONE.

Definition isFinalCapability (slot : Z) : K bool :=
  let* c := getCTE slot in
  let mdb := cteMDBNode c in
  let* prevIsSameObject :=
    if mdbPrev mdb =? 0 then ret false
    else let* prev := getCTE (mdbPrev mdb) in ret (sameObjectAs (cte_cap prev) (cte_cap c)) in
  if prevIsSameObject then ret false
  else if mdbNext mdb =? 0 then ret true
  else let* next := getCTE (mdbNext mdb) in ret (negb (sameObjectAs (cte_cap c) (cte_cap next))).

Definition slotCapLongRunningDelete (slot : Z) : K bool :=
  let* c := getCTE slot in
  if cap_is_null (cte_cap c) then ret false
  else
    let* final := isFinalCapability slot in
    if negb final then ret false
    else ret match cte_cap c with
             | cap_thread_cap _ | cap_zombie_cap _ _ | cap_cnode_cap _ _ _ _ => true
             | _ => false
             end.

(** ** Reply master *)
Definition setupReplyMaster (thread : Z) : K unit :=
  let slot := TCB_PTR_CTE_PTR thread tcbReply in
  let* c := getCTE slot in
  if cap_is_null (cte_cap c) then
    setCap slot (cap_reply_cap true true thread) ;;;
    setMDB slot nullMDBNode ;;;
    modCTE slot (upd_mdb (set_mdbRevocable (fun _ => true))) ;;;
    modCTE slot (upd_mdb (set_mdbFirstBadged (fun _ => true)))
  else ret tt.

(** ** Deriving capabilities *)
Definition asidInvalid : Z := 0.

(** [None] is the failing default branch. *)
Definition Arch_deriveCap (slot : Z) (c : cap) : K (exception_t * cap) :=
  match c with
  | cap_vspace_cap _ _ isMapped | cap_page_table_cap _ _ isMapped _ =>
      if (isMapped : bool) then ret (EXCEPTION_NONE, c)
      else syscall_error_type seL4_IllegalOperation ;;; ret (EXCEPTION_SYSCALL_ERROR, cap_null_cap)
  | cap_frame_cap _ base sz addr rights dev =>
      ret (EXCEPTION_NONE, cap_frame_cap asidInvalid base sz addr rights dev)
  | cap_asid_control_cap | cap_asid_pool_cap _ _ | cap_sgi_signal_cap _ _ => ret (EXCEPTION_NONE, c)
  | _ => fail
  end.

Definition deriveCap (slot : Z) (c : cap) : K (exception_t * cap) :=
  if isArchCap c then Arch_deriveCap slot c
  else match c with
  | cap_zombie_cap _ _ | cap_irq_control_cap | cap_reply_cap _ _ _ => ret (EXCEPTION_NONE, cap_null_cap)
  | cap_untyped_cap _ _ _ _ =>
      let* status := ensureNoChildren slot in
      ret (if is_none status then (EXCEPTION_NONE, c) else (status, cap_null_cap))
  | _ => ret (EXCEPTION_NONE, c)
  end.
