(* ===== verification/MdbInv.v ===== *)
(** * The mapping database: lists of slots

    The derivation list as the lists of slot addresses it represents, and
    the effect of the operations of Mdb.v on those lists. *)
From S2P Require Import Prelude Dll Structures CapOps CSpace Mdb.
From stdpp Require Import base list sets gmap.
#[local] Open Scope Z_scope.

(** ** Abstract list operations *)

(** [b] inserted right after [a]. *)
Definition ins (a b : Z) (l : list Z) : list Z := l ≫= fun x => if decide (x = a) then [a; b] else [x].
(** [a] and [b] exchanged. *)
Definition transp (a b x : Z) : Z := if decide (x = a) then b else if decide (x = b) then a else x.
Definition swp (a b : Z) (l : list Z) : list Z := transp a b <$> l.

Lemma ins_notin a b l : a ∉ l -> ins a b l = l.
Proof.
  unfold ins. induction l as [|x l IH]; intros H; [done|]. cbn.
  rewrite decide_False by set_solver. cbn. f_equal. apply IH. set_solver.
Qed.

Lemma ins_split a b l1 l2 : a ∉ l1 -> a ∉ l2 -> ins a b (l1 ++ a :: l2) = l1 ++ a :: b :: l2.
Proof.
  intros H1 H2. unfold ins. rewrite bind_app. cbn. rewrite decide_True by done.
  pose proof (ins_notin a b l1 H1) as E1. pose proof (ins_notin a b l2 H2) as E2.
  unfold ins in *. by rewrite E1, E2.
Qed.

Lemma elem_of_ins a b y l : a ∈ l -> y ∈ ins a b l <-> y = b \/ y ∈ l.
Proof.
  intros Ha. unfold ins. rewrite list_elem_of_bind. split.
  - intros (x & Hy & Hx). case_decide; set_solver.
  - intros [->|Hy].
    + exists a. rewrite decide_True by done. set_solver.
    + exists y. case_decide; set_solver.
Qed.

Lemma transp_inv a b x : transp a b (transp a b x) = x.
Proof. unfold transp. repeat case_decide; congruence. Qed.
#[export] Instance transp_inj a b : Inj (=) (=) (transp a b).
Proof. intros x y H. rewrite <- (transp_inv a b x), <- (transp_inv a b y). by f_equal. Qed.

Lemma concat_ins a b cs : concat (ins a b <$> cs) = ins a b (concat cs).
Proof. induction cs as [|l cs IH]; [done|]. cbn. unfold ins in *. by rewrite bind_app, IH. Qed.
Lemma concat_del x cs : concat (del x <$> cs) = del x (concat cs).
Proof. induction cs as [|l cs IH]; [done|]. cbn. unfold del in *. by rewrite filter_app, IH. Qed.
Lemma concat_swp a b cs : concat (swp a b <$> cs) = swp a b (concat cs).
Proof. induction cs as [|l cs IH]; [done|]. cbn. unfold swp in *. by rewrite fmap_app, IH. Qed.

(** Renaming the cells of a list by [f] renames the list. *)
Lemma dlist_rename nx pv nx' pv' f l :
  Inj (=) (=) f -> f 0 = 0 ->
  (forall x, x ∈ l -> nx' (f x) = f (nx x) /\ pv' (f x) = f (pv x)) ->
  dlist nx pv l -> dlist nx' pv' (f <$> l).
Proof.
  intros Hinj H0 Hf [Hnd Hnn Hs]. split.
  - by apply NoDup_fmap_2.
  - intros (x & Hx & Hin)%list_elem_of_fmap. apply Hnn.
    assert (x = 0) as -> by (apply (inj f); congruence). done.
  - assert (Hgen : forall p n, dseg nx pv p l n -> dseg nx' pv' (f p) (f <$> l) (f n)).
    { clear Hs Hnd Hnn. induction l as [|y l IH]; intros p n; [done|]. cbn.
      intros (Hp & Hn & Hs). destruct (Hf y) as [E1 E2]; [by left|].
      split_and!; [by rewrite E2, Hp| |apply IH; [|done]].
      - rewrite E1, Hn. by destruct l.
      - intros z Hz. apply Hf. by right. }
    specialize (Hgen 0 0 Hs). by rewrite H0 in Hgen.
Qed.

(** ** Heap cells *)
Definition clink (f : mdb_node -> Z) (m : gmap Z cte) (x : Z) : Z :=
  match m !! x with Some c => f (cteMDBNode c) | None => 0 end.

(** [m'] is [m] with cell [x] rewritten by [F x]. *)
Definition cell_map (m : gmap Z cte) (F : Z -> cte -> cte) (m' : gmap Z cte) : Prop :=
  forall x, m' !! x = F x <$> m !! x.

Definition at_ (p : Z) (f : cte -> cte) : Z -> cte -> cte :=
  fun x c => if decide (x = p) then f c else c.

Lemma cell_map_refl m : cell_map m (fun _ c => c) m.
Proof. intros x. by destruct (m !! x). Qed.

Lemma cell_map_at m F m1 p f c :
  cell_map m F m1 -> m1 !! p = Some c -> cell_map m (fun x c => at_ p f x (F x c)) (<[p := f c]> m1).
Proof.
  intros H Hp x. unfold at_. rewrite lookup_insert. pose proof (H p) as Hp'. rewrite Hp in Hp'.
  destruct (decide (p = x)) as [<-|Hn].
  - destruct (m !! p); [|done]. cbn in *. rewrite decide_True by done. congruence.
  - rewrite H. destruct (m !! x); cbn; [|done]. by rewrite decide_False.
Qed.

(** Symbolic execution of an update of a cell reached through a pointer that
    may be null. *)
Section CellWp.
Context (s : kstate) (m m1 : gmap Z cte) (F : Z -> cte -> cte).
Hypothesis Hm : cell_map m F m1.
Hypothesis H0 : m !! 0 = None.
Notation st m := (set_ksCTEs (fun _ => m) s).

Lemma wp_getCTE_map p Q c :
  m !! p = Some c -> Q (F p c) (st m1) -> wp (getCTE p) Q (st m1).
Proof.
  intros Hp HQ. eapply wp_getCTE; [|exact HQ]. st_simpl. by rewrite Hm, Hp.
Qed.

Lemma wp_modCTE_map p f Q :
  is_Some (m !! p) ->
  (forall m2, cell_map m (fun x c => at_ p f x (F x c)) m2 -> Q tt (st m2)) ->
  wp (modCTE p f) Q (st m1).
Proof.
  intros [c Hp] HQ.
  eapply wp_modCTE; [st_simpl; by rewrite Hm, Hp|].
  apply (HQ (<[p := f (F p c)]> m1)). apply cell_map_at; [done|]. by rewrite Hm, Hp.
Qed.

Lemma wp_modCTE_if p f Q :
  (p <> 0 -> is_Some (m !! p)) ->
  (forall m2, cell_map m (fun x c => at_ p f x (F x c)) m2 -> Q tt (st m2)) ->
  wp (if negb (p =? 0) then modCTE p f else ret tt) Q (st m1).
Proof.
  intros Hp HQ. destruct (Z.eqb_spec p 0) as [->|Hn]; cbn.
  - apply HQ. intros x. rewrite Hm. unfold at_.
    destruct (decide (x = 0)) as [->|]; [by rewrite H0|done].
  - by apply wp_modCTE_map; auto.
Qed.
End CellWp.

Lemma clink_map f m F m' x :
  cell_map m F m' ->
  clink f m' x = match m !! x with Some c => f (cteMDBNode (F x c)) | None => 0 end.
Proof. intros H. unfold clink. rewrite H. by destruct (m !! x). Qed.

(** ** Well-formed mapping databases *)
Record mdb_wf (m : gmap Z cte) (cs : list (list Z)) : Prop := {
  mw_null : m !! 0 = None;
  mw_nodup : NoDup (concat cs);
  mw_chain : forall l, l ∈ cs -> dlist (clink mdbNext m) (clink mdbPrev m) l;
  mw_cells : forall x, x ∈ concat cs -> exists c, m !! x = Some c /\ cte_cap c <> cap_null_cap;
  mw_out : forall x c, m !! x = Some c -> x ∉ concat cs ->
    cte_cap c = cap_null_cap /\ mdbNext (cteMDBNode c) = 0 /\ mdbPrev (cteMDBNode c) = 0
}.

Lemma cap_is_null_spec c : cap_is_null c = true <-> c = cap_null_cap.
Proof. by destruct c. Qed.

Lemma elem_of_concat (cs : list (list Z)) x : x ∈ concat cs <-> exists l, l ∈ cs /\ x ∈ l.
Proof.
  induction cs as [|l cs IH]; cbn; [set_solver|]. rewrite elem_of_app, IH. set_solver.
Qed.

Lemma dlist_links nx pv l x :
  dlist nx pv l -> x ∈ l ->
  (nx x <> 0 -> nx x ∈ l /\ pv (nx x) = x) /\ (pv x <> 0 -> pv x ∈ l /\ nx (pv x) = x) /\
  nx x <> x /\ pv x <> x.
Proof.
  intros Hd Hx. apply list_elem_of_split in Hx as (l1 & l2 & ->).
  destruct (dlist_mid _ _ _ _ _ Hd) as [Hp Hn]. pose proof (dlist_nodup _ _ _ Hd) as Hnd.
  pose proof (dlist_nonnull _ _ _ Hd) as H0. destruct (nodup_mid _ _ _ Hnd) as [Hx1 Hx2].
  assert (x <> 0) by (intros ->; apply H0; set_solver).
  rewrite Hp, Hn. split_and!.
  - destruct l2 as [|y l2]; [done|]. cbn. intros _. split; [set_solver|].
    pose proof (dlist_mid nx pv (l1 ++ [x]) y l2) as Hm. rewrite <- app_assoc in Hm.
    destruct (Hm Hd) as [-> _]. by rewrite last_or_snoc.
  - destruct (snoc_cases l1) as [->|(l1' & z & ->)]; [done|]. rewrite last_or_snoc. intros _.
    split; [set_solver|]. rewrite <- app_assoc in Hd. cbn in Hd.
    by destruct (dlist_mid _ _ _ _ _ Hd) as [_ ->].
  - destruct l2; cbn; set_solver.
  - destruct (snoc_cases l1) as [->|(l1' & z & ->)]; [done|]. rewrite last_or_snoc. set_solver.
Qed.

(** No slot follows that is derived from the capability of [slot]. *)
Definition childless (m : gmap Z cte) (slot : Z) : Prop :=
  forall c d, m !! slot = Some c -> m !! mdbNext (cteMDBNode c) = Some d -> isMDBParentOf c d = false.

Section Facts.
Context (m : gmap Z cte) (cs : list (list Z)) (Hwf : mdb_wf m cs).
Notation nx := (clink mdbNext m).
Notation pv := (clink mdbPrev m).

Lemma mw_cell_nonnull x c : m !! x = Some c -> cte_cap c <> cap_null_cap -> x ∈ concat cs.
Proof.
  intros Hx Hc. destruct (decide (x ∈ concat cs)) as [|Hn]; [done|].
  by destruct (mw_out _ _ Hwf x c Hx Hn).
Qed.

Lemma mw_link_out x : x ∉ concat cs -> nx x = 0 /\ pv x = 0.
Proof.
  intros Hx. unfold clink. destruct (m !! x) eqn:Hc; [|done].
  by destruct (mw_out _ _ Hwf x c Hc Hx) as (_ & ? & ?).
Qed.

Lemma mw_links x :
  (nx x <> 0 -> nx x ∈ concat cs /\ pv (nx x) = x) /\
  (pv x <> 0 -> pv x ∈ concat cs /\ nx (pv x) = x) /\ (x <> 0 -> nx x <> x /\ pv x <> x).
Proof.
  destruct (decide (x ∈ concat cs)) as [Hx|Hx].
  - apply elem_of_concat in Hx as (l & Hl & Hx).
    destruct (dlist_links _ _ _ _ (mw_chain _ _ Hwf l Hl) Hx) as (H1 & H2 & ?).
    split_and!; [intros Hn; destruct (H1 Hn)|intros Hn; destruct (H2 Hn)|done];
      (split; [apply elem_of_concat; eauto|done]).
  - destruct (mw_link_out x Hx) as [-> ->]. by split_and!.
Qed.

Lemma mw_next_iff x y : x <> 0 -> y <> 0 -> nx x = y <-> pv y = x.
Proof.
  intros Hx Hy. destruct (mw_links x) as (H1 & _). destruct (mw_links y) as (_ & H2 & _).
  split; intros E; [destruct H1|destruct H2]; congruence.
Qed.

Lemma mw_is_some x : x ∈ concat cs -> is_Some (m !! x).
Proof. intros H. destruct (mw_cells _ _ Hwf x H) as (c & ? & _). eauto. Qed.
Lemma mw_next_some x : nx x <> 0 -> is_Some (m !! nx x).
Proof. intros H. destruct (mw_links x) as (H1 & _). by apply mw_is_some, H1. Qed.
Lemma mw_prev_some x : pv x <> 0 -> is_Some (m !! pv x).
Proof. intros H. destruct (mw_links x) as (_ & H1 & _). by apply mw_is_some, H1. Qed.
Lemma mw_nonzero x : is_Some (m !! x) -> x <> 0.
Proof. intros [c Hc] ->. by rewrite (mw_null _ _ Hwf) in Hc. Qed.
End Facts.

Lemma clink_Some f m x c : m !! x = Some c -> clink f m x = f (cteMDBNode c).
Proof. unfold clink. by intros ->. Qed.

(** ** Exchanging two slots *)
Section Exchange.
Context (m : gmap Z cte) (cs : list (list Z)) (a b : Z) (ca cb : cte).
Hypothesis Hwf : mdb_wf m cs.
Hypothesis Ha : m !! a = Some ca.
Hypothesis Hb : m !! b = Some cb.
Hypothesis Hab : a <> b.

(** The cell at [x] after the exchange: the content of its partner with
    the links renamed. *)
Definition exchanged (m' : gmap Z cte) : Prop :=
  (forall x, is_Some (m' !! x) <-> is_Some (m !! x)) /\
  forall x, x <> 0 -> clink mdbNext m' (transp a b x) = transp a b (clink mdbNext m x)
    /\ clink mdbPrev m' (transp a b x) = transp a b (clink mdbPrev m x).

Lemma transp_0 : transp a b 0 = 0.
Proof.
  pose proof (mw_nonzero _ _ Hwf a ltac:(eauto)). pose proof (mw_nonzero _ _ Hwf b ltac:(eauto)).
  unfold transp. by rewrite !decide_False.
Qed.

Lemma mdb_wf_exchanged m' :
  m' !! 0 = None -> exchanged m' ->
  (forall x c', m' !! x = Some c' -> x <> a -> x <> b ->
     exists c, m !! x = Some c /\ cte_cap c' = cte_cap c) ->
  (forall c', m' !! a = Some c' -> cte_cap c' = cap_null_cap <-> cte_cap cb = cap_null_cap) ->
  (forall c', m' !! b = Some c' -> cte_cap c' = cap_null_cap <-> cte_cap ca = cap_null_cap) ->
  mdb_wf m' (swp a b <$> cs).
Proof.
  intros H0 [Hdom Hlk] Hother Hcapa Hcapb.
  assert (Hin : forall x, x ∈ concat (swp a b <$> cs) <-> transp a b x ∈ concat cs).
  { intros x. rewrite concat_swp. unfold swp. rewrite list_elem_of_fmap. split.
    - intros (y & -> & Hy). by rewrite transp_inv.
    - intros Hx. exists (transp a b x). by rewrite transp_inv. }
  assert (Hnull : forall x c' c, m' !! x = Some c' -> m !! transp a b x = Some c ->
            cte_cap c' = cap_null_cap <-> cte_cap c = cap_null_cap).
  { intros x c' c Hx' Hx. unfold transp in Hx. case_decide as E1; [|case_decide as E2].
    - subst x. rewrite Hb in Hx. injection Hx as <-. by apply Hcapa.
    - subst x. rewrite Ha in Hx. injection Hx as <-. by apply Hcapb.
    - destruct (Hother x c' Hx' E1 E2) as (c0 & ? & ->). by simplify_eq. }
  assert (Hcell : forall x, is_Some (m' !! x) -> is_Some (m !! transp a b x)).
  { intros x Hx. unfold transp. case_decide; [eauto|]. case_decide; [eauto|]. by apply Hdom. }
  split.
  - done.
  - rewrite concat_swp. apply NoDup_fmap_2; [apply _|apply Hwf].
  - intros l (l0 & -> & Hl)%list_elem_of_fmap. unfold swp.
    eapply dlist_rename; [apply _|apply transp_0| |by apply (mw_chain _ _ Hwf)].
    intros x Hx. apply Hlk. intros ->. by destruct (mw_chain _ _ Hwf l0 Hl).
  - intros x Hx. apply Hin in Hx. destruct (mw_cells _ _ Hwf _ Hx) as (c & Hc & Hn).
    assert (is_Some (m' !! x)) as [c' Hc'].
    { apply Hdom. destruct (decide (x = a)) as [->|]; [eauto|]. destruct (decide (x = b)) as [->|]; [eauto|].
      unfold transp in Hc. rewrite !decide_False in Hc by done. eauto. }
    exists c'. split; [done|]. by rewrite (Hnull x c' c).
  - intros x c' Hc' Hx. rewrite Hin in Hx.
    destruct (Hcell x ltac:(eauto)) as [c Hc].
    destruct (mw_out _ _ Hwf _ c Hc Hx) as (Hcn & Hn & Hp).
    assert (Hx0 : transp a b x <> 0) by (apply (mw_nonzero _ _ Hwf); eauto).
    destruct (Hlk _ Hx0) as [E1 E2]. rewrite transp_inv in E1, E2.
    rewrite (clink_Some _ _ _ _ Hc') in E1. rewrite (clink_Some _ _ _ _ Hc') in E2.
    rewrite (clink_Some _ _ _ _ Hc) in E1. rewrite (clink_Some _ _ _ _ Hc) in E2.
    rewrite Hn, transp_0 in E1. rewrite Hp, transp_0 in E2.
    split_and!; [by apply (Hnull x c' c)|done|done].
Qed.
End Exchange.

(** ** [cteSwap] *)
Lemma set_ksCTEs_id s : set_ksCTEs (fun _ => ksCTEs s) s = s.
Proof. by destruct s. Qed.

Definition cte_data (c : cte) : cap * bool * bool :=
  (cte_cap c, mdbRevocable (cteMDBNode c), mdbFirstBadged (cteMDBNode c)).
Definition with_cap (cp : cap) (d : cap * bool * bool) : cap * bool * bool := (cp, d.1.2, d.2).

Lemma at_eq p f c : at_ p f p c = f c.
Proof. unfold at_. by rewrite decide_True. Qed.
Lemma at_ne p f x c : x <> p -> at_ p f x c = c.
Proof. intros. unfold at_. by rewrite decide_False. Qed.

(** Reading a field of an updated cell. *)
Section AtFields.
Context (p x : Z) (c : cte).
Lemma at_next_next v : mdbNext (cteMDBNode (at_ p (upd_mdb (set_mdbNext (fun _ => v))) x c)) =
  if decide (x = p) then v else mdbNext (cteMDBNode c).
Proof. unfold at_. by case_decide. Qed.
Lemma at_next_prev v : mdbNext (cteMDBNode (at_ p (upd_mdb (set_mdbPrev (fun _ => v))) x c)) =
  mdbNext (cteMDBNode c).
Proof. unfold at_. by case_decide. Qed.
Lemma at_prev_prev v : mdbPrev (cteMDBNode (at_ p (upd_mdb (set_mdbPrev (fun _ => v))) x c)) =
  if decide (x = p) then v else mdbPrev (cteMDBNode c).
Proof. unfold at_. by case_decide. Qed.
Lemma at_prev_next v : mdbPrev (cteMDBNode (at_ p (upd_mdb (set_mdbNext (fun _ => v))) x c)) =
  mdbPrev (cteMDBNode c).
Proof. unfold at_. by case_decide. Qed.
Lemma at_next_mdb n : mdbNext (cteMDBNode (at_ p (upd_mdb (fun _ => n)) x c)) =
  if decide (x = p) then mdbNext n else mdbNext (cteMDBNode c).
Proof. unfold at_. by case_decide. Qed.
Lemma at_prev_mdb n : mdbPrev (cteMDBNode (at_ p (upd_mdb (fun _ => n)) x c)) =
  if decide (x = p) then mdbPrev n else mdbPrev (cteMDBNode c).
Proof. unfold at_. by case_decide. Qed.
Lemma at_mdb_cap v : cteMDBNode (at_ p (set_cte_cap (fun _ => v)) x c) = cteMDBNode c.
Proof. unfold at_. by case_decide. Qed.
Lemma at_data_next v : cte_data (at_ p (upd_mdb (set_mdbNext (fun _ => v))) x c) = cte_data c.
Proof. unfold at_. by case_decide. Qed.
Lemma at_data_prev v : cte_data (at_ p (upd_mdb (set_mdbPrev (fun _ => v))) x c) = cte_data c.
Proof. unfold at_. by case_decide. Qed.
Lemma at_data_mdb n : cte_data (at_ p (upd_mdb (fun _ => n)) x c) =
  if decide (x = p) then (cte_cap c, mdbRevocable n, mdbFirstBadged n) else cte_data c.
Proof. unfold at_. by case_decide. Qed.
Lemma at_data_cap v : cte_data (at_ p (set_cte_cap (fun _ => v)) x c) =
  if decide (x = p) then with_cap v (cte_data c) else cte_data c.
Proof. unfold at_. by case_decide. Qed.
Lemma at_cap_mdb g : cte_cap (at_ p (upd_mdb g) x c) = cte_cap c.
Proof. unfold at_. by case_decide. Qed.
Lemma at_cap_cap v : cte_cap (at_ p (set_cte_cap (fun _ => v)) x c) =
  if decide (x = p) then v else cte_cap c.
Proof. unfold at_. by case_decide. Qed.
End AtFields.

Ltac at_fields :=
  repeat first
    [ rewrite at_next_next | rewrite at_next_prev | rewrite at_prev_prev | rewrite at_prev_next
    | rewrite at_next_mdb | rewrite at_prev_mdb | rewrite at_mdb_cap | rewrite at_data_next | rewrite at_data_prev
    | rewrite at_data_mdb | rewrite at_data_cap | rewrite at_cap_mdb | rewrite at_cap_cap ].

Lemma transp_l a b : transp a b a = b.
Proof. unfold transp. by rewrite decide_True. Qed.
Lemma transp_r a b : transp a b b = a.
Proof. unfold transp. repeat case_decide; congruence. Qed.
Lemma transp_o a b x : x <> a -> x <> b -> transp a b x = x.
Proof. intros. unfold transp. by rewrite !decide_False. Qed.

(** Case analysis on every pointer comparison of the goal. *)
Ltac ptr_cases :=
  repeat (case_decide; simplify_eq; cbn in *; try tauto; try congruence);
  try (intuition congruence).

Section Swap.
Context (s : kstate) (cs : list (list Z)) (a b : Z) (ca cb : cte) (cap1 cap2 : cap).
Notation m := (ksCTEs s).
Hypothesis Hwf : mdb_wf m cs.
Hypothesis Ha : m !! a = Some ca.
Hypothesis Hb : m !! b = Some cb.
Hypothesis Hab : a <> b.

Notation pa := (mdbPrev (cteMDBNode ca)).
Notation na := (mdbNext (cteMDBNode ca)).
Notation pb := (mdbPrev (cteMDBNode cb)).
Notation nb := (mdbNext (cteMDBNode cb)).

(** The cell at [x] after [cteSwap]. *)
Definition swap_cell (x : Z) (c : cte) : cte :=
  let mdb2 := mdb_node_new (if decide (b = pa) then b else nb) (mdbRevocable (cteMDBNode cb))
                (mdbFirstBadged (cteMDBNode cb)) (if decide (b = na) then b else pb) in
  at_ (if decide (b = pa) then b else nb) (upd_mdb (set_mdbPrev (fun _ => a))) x
    (at_ (if decide (b = na) then b else pb) (upd_mdb (set_mdbNext (fun _ => a))) x
       (at_ b (upd_mdb (fun _ => cteMDBNode ca)) x (at_ a (upd_mdb (fun _ => mdb2)) x
          (at_ na (upd_mdb (set_mdbPrev (fun _ => b))) x (at_ pa (upd_mdb (set_mdbNext (fun _ => b))) x
             (at_ b (set_cte_cap (fun _ => cap1)) x (at_ a (set_cte_cap (fun _ => cap2)) x c))))))).

Lemma wp_cteSwap_cells Q :
  (forall m', cell_map m swap_cell m' -> Q tt (set_ksCTEs (fun _ => m') s)) ->
  wp (cteSwap cap1 a cap2 b) Q s.
Proof.
  intros HQ. pose proof (mw_null _ _ Hwf) as H0.
  pose proof (mw_prev_some _ _ Hwf a) as Hpa. pose proof (mw_next_some _ _ Hwf a) as Hna.
  pose proof (mw_prev_some _ _ Hwf b) as Hpb. pose proof (mw_next_some _ _ Hwf b) as Hnb.
  rewrite (clink_Some _ _ _ _ Ha) in Hpa. rewrite (clink_Some _ _ _ _ Ha) in Hna.
  rewrite (clink_Some _ _ _ _ Hb) in Hpb. rewrite (clink_Some _ _ _ _ Hb) in Hnb.
  unfold cteSwap, setCap, setNext, setPrev, setMDB. rewrite <- (set_ksCTEs_id s).
  pose proof (cell_map_refl m) as M.
  wp_struct. eapply wp_modCTE_map; [exact M|eauto|]. clear M. intros m1 M.
  wp_struct. eapply wp_modCTE_map; [exact M|eauto|]. clear M. intros m2 M.
  wp_struct. eapply wp_getCTE_map; [exact M|exact Ha|].
  cbv beta. rewrite at_ne, at_eq by done. cbn [cteMDBNode set_cte_cap].
  wp_struct. eapply wp_modCTE_if; [exact M|exact H0|done|]. clear M. intros m3 M.
  wp_struct. eapply wp_modCTE_if; [exact M|exact H0|done|]. clear M. intros m4 M.
  wp_struct. eapply wp_getCTE_map; [exact M|exact Hb|].
  cbv beta. rewrite (at_eq b), (at_ne a) by done.
  set (cb' := at_ na _ b _).
  assert (Hcb' : cteMDBNode cb' = mdb_node_new (if decide (b = pa) then b else nb)
            (mdbRevocable (cteMDBNode cb)) (mdbFirstBadged (cteMDBNode cb))
            (if decide (b = na) then b else pb)).
  { unfold cb', at_. destruct cb as [? []]. by repeat case_decide. }
  rewrite Hcb'. cbn [mdbPrev mdbNext].
  wp_struct. eapply wp_modCTE_map; [exact M|eauto|]. clear M. intros m5 M.
  wp_struct. eapply wp_modCTE_map; [exact M|eauto|]. clear M. intros m6 M.
  wp_struct. eapply wp_modCTE_if;
    [exact M|exact H0|intros ?; destruct (decide (b = na)); [by exists cb|by apply Hpb]|].
  clear M. intros m7 M. eapply wp_modCTE_if;
    [exact M|exact H0|intros ?; destruct (decide (b = pa)); [by exists cb|by apply Hnb]|].
  clear M. intros m8 M. apply HQ. exact M.
Qed.

Lemma swap_cell_exchanged m' : cell_map m swap_cell m' -> exchanged m a b m'.
Proof.
  intros M.
  assert (Han : a <> 0) by (apply (mw_nonzero _ _ Hwf); eauto).
  assert (Hbn : b <> 0) by (apply (mw_nonzero _ _ Hwf); eauto).
  split.
  { intros x. rewrite M. by destruct (m !! x). }
  intros x Hx0.
  assert (Hlk : forall y, y <> 0 -> (clink mdbNext m x = y <-> clink mdbPrev m y = x)
    /\ (clink mdbNext m y = x <-> clink mdbPrev m x = y)
    /\ clink mdbNext m y <> y /\ clink mdbPrev m y <> y).
  { intros y Hy. destruct (mw_links _ _ Hwf y) as (_ & _ & Hs). destruct (Hs Hy).
    split_and!; [by apply (mw_next_iff _ _ Hwf)..|done|done]. }
  pose proof (Hlk a Han) as (Ha1 & Ha2 & Ha3 & Ha4). pose proof (Hlk b Hbn) as (Hb1 & Hb2 & Hb3 & Hb4).
  pose proof (mw_next_iff _ _ Hwf a b Han Hbn) as Hab1.
  pose proof (mw_next_iff _ _ Hwf b a Hbn Han) as Hab2.
  clear Hlk. rewrite !(clink_map _ _ _ _ _ M).
  destruct (decide (x = a)) as [Hxa|Hxa]; [|destruct (decide (x = b)) as [Hxb|Hxb]].
  - subst x. rewrite transp_l, Hb, !(clink_Some _ _ _ _ Ha), !(clink_Some _ _ _ _ Hb) in *.
    unfold swap_cell. at_fields. clear M Ha Hb Hwf.
    destruct ca as [capa [na' ra fa pa']], cb as [capb [nb' rb fb pb']]. cbn in *.
    unfold transp. split; ptr_cases.
  - subst x. rewrite transp_r, Ha, !(clink_Some _ _ _ _ Ha), !(clink_Some _ _ _ _ Hb) in *.
    unfold swap_cell. at_fields. clear M Ha Hb Hwf.
    destruct ca as [capa [na' ra fa pa']], cb as [capb [nb' rb fb pb']]. cbn in *.
    unfold transp. split; ptr_cases.
  - rewrite transp_o by done. rewrite !(clink_Some _ _ _ _ Ha), !(clink_Some _ _ _ _ Hb) in *.
    destruct (m !! x) as [c|] eqn:Hx; last first.
    { unfold clink. rewrite Hx, transp_o by congruence. done. }
    rewrite !(clink_Some _ _ _ _ Hx) in *.
    unfold swap_cell. at_fields. clear M Ha Hb Hwf Hx.
    destruct ca as [capa [na' ra fa pa']], cb as [capb [nb' rb fb pb']], c as [capc [nc rc fc pc]].
    cbn in *. unfold transp. split; ptr_cases.
Qed.

Lemma wp_cteSwap_raw Q :
  (forall m', exchanged m a b m' -> m' !! 0 = None ->
    (forall x, x <> a -> x <> b -> cte_data <$> m' !! x = cte_data <$> m !! x) ->
    cte_data <$> m' !! a = Some (with_cap cap2 (cte_data cb)) ->
    cte_data <$> m' !! b = Some (with_cap cap1 (cte_data ca)) ->
    Q tt (set_ksCTEs (fun _ => m') s)) ->
  wp (cteSwap cap1 a cap2 b) Q s.
Proof.
  intros HQ. apply wp_cteSwap_cells. intros m' M. apply HQ.
  - by apply swap_cell_exchanged.
  - by rewrite M, (mw_null _ _ Hwf).
  - intros x Hxa Hxb. rewrite M. destruct (m !! x) as [c|]; [|done]. cbn. f_equal.
    unfold swap_cell. at_fields. by rewrite !decide_False.
  - rewrite M, Ha. cbn. unfold swap_cell. at_fields.
    unfold with_cap. by repeat (case_decide; try done).
  - rewrite M, Hb. cbn. unfold swap_cell. at_fields.
    unfold with_cap. by repeat (case_decide; try done).
Qed.

Lemma wp_cteSwap_wf Q :
  (cap1 = cap_null_cap <-> cte_cap ca = cap_null_cap) ->
  (cap2 = cap_null_cap <-> cte_cap cb = cap_null_cap) ->
  (forall m', mdb_wf m' (swp a b <$> cs) ->
    (forall x, x <> a -> x <> b -> cte_data <$> m' !! x = cte_data <$> m !! x) ->
    cte_data <$> m' !! a = Some (with_cap cap2 (cte_data cb)) ->
    cte_data <$> m' !! b = Some (with_cap cap1 (cte_data ca)) ->
    Q tt (set_ksCTEs (fun _ => m') s)) ->
  wp (cteSwap cap1 a cap2 b) Q s.
Proof.
  intros H1 H2 HQ. apply wp_cteSwap_raw. intros m' Hex H0 Ho Da Db. apply HQ; [|done..].
  eapply mdb_wf_exchanged; [done..| | |].
  - intros x c' Hx Hxa Hxb. specialize (Ho x Hxa Hxb). rewrite Hx in Ho.
    destruct (m !! x) as [c|]; [|done]. exists c. split; [done|]. cbn in Ho. by simplify_eq.
  - intros c' Hc. rewrite Hc in Da. cbn in Da. injection Da as -> _ _. done.
  - intros c' Hc. rewrite Hc in Db. cbn in Db. injection Db as -> _ _. done.
Qed.
End Swap.

(** ** [cteMove] *)
Ltac clinks H :=
  rewrite ?(clink_Some mdbNext _ _ _ H), ?(clink_Some mdbPrev _ _ _ H) in *.

Section Move.
Context (s : kstate) (cs : list (list Z)) (src dest : Z) (ca cb : cte) (newCap : cap).
Notation m := (ksCTEs s).
Hypothesis Hwf : mdb_wf m cs.
Hypothesis Ha : m !! src = Some ca.
Hypothesis Hb : m !! dest = Some cb.
Hypothesis Hsrc : cte_cap ca <> cap_null_cap.
Hypothesis Hdest : cte_cap cb = cap_null_cap.

Definition move_cell (x : Z) (c : cte) : cte :=
  let mdb := cteMDBNode ca in
  at_ (mdbNext mdb) (upd_mdb (set_mdbPrev (fun _ => dest))) x
    (at_ (mdbPrev mdb) (upd_mdb (set_mdbNext (fun _ => dest))) x
       (at_ src (upd_mdb (fun _ => nullMDBNode)) x (at_ dest (upd_mdb (fun _ => mdb)) x
          (at_ src (set_cte_cap (fun _ => cap_null_cap)) x
             (at_ dest (set_cte_cap (fun _ => newCap)) x c))))).

Lemma move_ne : src <> dest.
Proof. intros ->. congruence. Qed.

Lemma dest_unlinked : mdbNext (cteMDBNode cb) = 0 /\ mdbPrev (cteMDBNode cb) = 0 /\ dest ∉ concat cs.
Proof.
  destruct (decide (dest ∈ concat cs)) as [Hin|Hn].
  - destruct (mw_cells _ _ Hwf _ Hin) as (c & ? & ?). congruence.
  - by destruct (mw_out _ _ Hwf _ _ Hb Hn) as (_ & ? & ?).
Qed.

Lemma wp_cteMove_cells Q :
  (forall m', cell_map m move_cell m' -> Q tt (set_ksCTEs (fun _ => m') s)) ->
  wp (cteMove newCap src dest) Q s.
Proof.
  intros HQ. pose proof (mw_null _ _ Hwf) as H0. pose proof move_ne as Hne.
  destruct dest_unlinked as (Hdn & Hdp & _).
  pose proof (mw_prev_some _ _ Hwf src) as Hpa. pose proof (mw_next_some _ _ Hwf src) as Hna.
  rewrite (clink_Some _ _ _ _ Ha) in Hpa. rewrite (clink_Some _ _ _ _ Ha) in Hna.
  unfold cteMove, setCap, setNext, setPrev, setMDB. rewrite <- (set_ksCTEs_id s).
  pose proof (cell_map_refl m) as M.
  wp_struct. eapply wp_getCTE_map; [exact M|exact Hb|].
  wp_struct. wp_struct; [by rewrite Hdest|]. wp_struct. wp_struct; [by rewrite Hdn, Hdp|].
  wp_struct. eapply wp_getCTE_map; [exact M|exact Ha|].
  wp_struct. eapply wp_modCTE_map; [exact M|eauto|]. clear M. intros m1 M.
  wp_struct. eapply wp_modCTE_map; [exact M|eauto|]. clear M. intros m2 M.
  wp_struct. eapply wp_modCTE_map; [exact M|eauto|]. clear M. intros m3 M.
  wp_struct. eapply wp_modCTE_map; [exact M|eauto|]. clear M. intros m4 M.
  wp_struct. eapply wp_modCTE_if; [exact M|exact H0|done|]. clear M. intros m5 M.
  eapply wp_modCTE_if; [exact M|exact H0|done|]. clear M. intros m6 M.
  apply HQ. exact M.
Qed.

Lemma move_cell_exchanged m' : cell_map m move_cell m' -> exchanged m src dest m'.
Proof.
  intros M. destruct dest_unlinked as (Hdn & Hdp & _). pose proof move_ne as Hne.
  assert (Han : src <> 0) by (apply (mw_nonzero _ _ Hwf); eauto).
  assert (Hbn : dest <> 0) by (apply (mw_nonzero _ _ Hwf); eauto).
  split.
  { intros x. rewrite M. by destruct (m !! x). }
  intros x Hx0.
  pose proof (mw_next_iff _ _ Hwf x src Hx0 Han) as Ha1.
  pose proof (mw_next_iff _ _ Hwf src x Han Hx0) as Ha2.
  pose proof (mw_next_iff _ _ Hwf x dest Hx0 Hbn) as Hb1.
  pose proof (mw_next_iff _ _ Hwf dest x Hbn Hx0) as Hb2.
  pose proof (mw_next_iff _ _ Hwf dest src Hbn Han) as Hb3.
  pose proof (mw_next_iff _ _ Hwf src dest Han Hbn) as Hb4.
  destruct (proj2 (proj2 (mw_links _ _ Hwf src)) Han) as [Ha3 Ha4].
  rewrite !(clink_map _ _ _ _ _ M). clinks Ha. clinks Hb. rewrite ?Hdn, ?Hdp in *.
  destruct (decide (x = src)) as [Hxa|Hxa]; [|destruct (decide (x = dest)) as [Hxb|Hxb]].
  - subst x. rewrite transp_l, Hb in *. clinks Ha.
    unfold move_cell. at_fields. clear M Ha Hb Hwf.
    destruct ca as [capa [na' ra fa pa']], cb as [capb [nb' rb fb pb']]. cbn in *.
    unfold transp. split; ptr_cases.
  - subst x. rewrite transp_r, Ha in *. clinks Hb. rewrite ?Hdn, ?Hdp in *.
    unfold move_cell. at_fields. clear M Ha Hb Hwf.
    destruct ca as [capa [na' ra fa pa']], cb as [capb [nb' rb fb pb']]. cbn in *.
    unfold transp. split; ptr_cases.
  - rewrite transp_o by done.
    destruct (m !! x) as [c|] eqn:Hx; last first.
    { unfold clink. rewrite Hx, transp_o by congruence. done. }
    clinks Hx.
    unfold move_cell. at_fields. clear M Ha Hb Hwf Hx.
    destruct ca as [capa [na' ra fa pa']], cb as [capb [nb' rb fb pb']], c as [capc [nc rc fc pc]].
    cbn in *. unfold transp. split; ptr_cases.
Qed.

Lemma wp_cteMove_wf Q :
  newCap <> cap_null_cap ->
  (forall m', mdb_wf m' (swp src dest <$> cs) ->
    (forall x, x <> src -> x <> dest -> cte_data <$> m' !! x = cte_data <$> m !! x) ->
    m' !! src = Some null_cte ->
    cte_data <$> m' !! dest = Some (with_cap newCap (cte_data ca)) ->
    Q tt (set_ksCTEs (fun _ => m') s)) ->
  wp (cteMove newCap src dest) Q s.
Proof.
  intros Hnew HQ. apply wp_cteMove_cells. intros m' M.
  pose proof (move_cell_exchanged _ M) as Hex. pose proof move_ne as Hne.
  destruct dest_unlinked as (Hdn & Hdp & _).
  assert (Han : src <> 0) by (apply (mw_nonzero _ _ Hwf); eauto).
  assert (Ho : forall x, x <> src -> x <> dest -> cte_data <$> m' !! x = cte_data <$> m !! x).
  { intros x Hxa Hxb. rewrite M. destruct (m !! x) as [c|]; [|done]. cbn. f_equal.
    unfold move_cell. at_fields. by rewrite !decide_False. }
  assert (Hs : m' !! src = Some null_cte).
  { destruct (proj2 (proj2 (mw_links _ _ Hwf src)) Han) as [Ha3 Ha4].
    clinks Ha.
    rewrite M, Ha. cbn. unfold move_cell, null_cte. f_equal.
    rewrite (at_ne (mdbNext _)), (at_ne (mdbPrev _)), at_eq by congruence.
    rewrite at_ne, at_eq by done. done. }
  assert (Hd : cte_data <$> m' !! dest = Some (with_cap newCap (cte_data ca))).
  { rewrite M, Hb. cbn. unfold move_cell. at_fields. unfold with_cap.
    by repeat (case_decide; try done). }
  apply HQ; [|done..]. eapply mdb_wf_exchanged; [exact Hwf|exact Ha|exact Hb|..].
  - by rewrite M, (mw_null _ _ Hwf).
  - exact Hex.
  - intros x c' Hx Hxa Hxb. specialize (Ho x Hxa Hxb). rewrite Hx in Ho.
    destruct (m !! x) as [c|]; [|done]. exists c. split; [done|]. cbn in Ho. by simplify_eq.
  - intros c' Hc. rewrite Hs in Hc. by simplify_eq.
  - intros c' Hc. rewrite Hc in Hd. cbn in Hd. injection Hd as -> _ _. done.
Qed.
End Move.

(** ** Insertion *)

(** [m'] links the fresh slot [b] right after [a]. *)
Definition linked_after (m m' : gmap Z cte) (a b : Z) : Prop :=
  clink mdbNext m' a = b /\ clink mdbNext m' b = clink mdbNext m a /\ clink mdbPrev m' b = a /\
  (clink mdbNext m a <> 0 -> clink mdbPrev m' (clink mdbNext m a) = b) /\
  (forall x, x <> a -> x <> b -> clink mdbNext m' x = clink mdbNext m x) /\
  (forall x, x <> clink mdbNext m a -> x <> b -> clink mdbPrev m' x = clink mdbPrev m x).

Lemma mdb_wf_linked m m' cs a b :
  mdb_wf m cs -> a ∈ concat cs -> b ∉ concat cs -> b <> 0 -> m' !! 0 = None ->
  linked_after m m' a b ->
  (exists c, m' !! b = Some c /\ cte_cap c <> cap_null_cap) ->
  (forall x, x <> b -> (cap_is_null ∘ cte_cap) <$> m' !! x = (cap_is_null ∘ cte_cap) <$> m !! x) ->
  mdb_wf m' (ins a b <$> cs).
Proof.
  intros Hwf Ha Hb Hb0 H0 (L1 & L2 & L3 & L4 & L5 & L6) Hcb Hnull.
  pose proof Ha as Has. apply list_elem_of_split in Has as (la & lb & Hsplit).
  pose proof (mw_nodup _ _ Hwf) as Hnd. rewrite Hsplit in Hnd.
  destruct (nodup_mid _ _ _ Hnd) as [Hla Hlb].
  assert (Hmem : forall x, x ∈ concat (ins a b <$> cs) <-> x = b \/ x ∈ concat cs)
    by (intros x; rewrite concat_ins; by apply elem_of_ins).
  split.
  - done.
  - rewrite concat_ins, Hsplit, ins_split by done. rewrite Hsplit in Hb.
    apply NoDup_app in Hnd as (N1 & N2 & N3). apply NoDup_cons in N3 as [N3 N4].
    apply NoDup_app. split_and!; [done|set_solver|].
    apply NoDup_cons; split; [set_solver|]. apply NoDup_cons; split; [set_solver|done].
  - intros l (l0 & -> & Hl)%list_elem_of_fmap.
    pose proof (mw_chain _ _ Hwf l0 Hl) as Hd.
    assert (Hbl : b ∉ l0) by (intros Hin; apply Hb, elem_of_concat; eauto).
    destruct (decide (a ∈ l0)) as [Hal|Hal].
    + pose proof Hal as Hs. apply list_elem_of_split in Hs as (l1 & l2 & ->).
      destruct (nodup_mid _ _ _ (dlist_nodup _ _ _ Hd)). rewrite ins_split by done.
      by eapply dlist_insert_after; [exact Hd|done..].
    + rewrite ins_notin by done. eapply dlist_ext; [|exact Hd]. intros x Hx.
      assert (x <> a) by congruence. assert (x <> b) by congruence.
      split; [by apply L5|]. apply L6; [|done]. intros ->.
      destruct (dlist_links _ _ _ _ Hd Hx) as (_ & Hp & _).
      destruct (mw_links _ _ Hwf a) as (Hn & _ & _).
      assert (Hn0 : clink mdbNext m a <> 0).
      { intros He. destruct Hd as [_ Hz _]. rewrite He in Hx. done. }
      destruct (Hn Hn0) as [_ Hpa]. rewrite Hpa in Hp.
      destruct Hp as [? _]; [|done]. intros ->. by destruct (mw_cells _ _ Hwf 0 Ha) as (? & ? & _);
        rewrite (mw_null _ _ Hwf) in *.
  - intros x Hx. apply Hmem in Hx as [->|Hx]; [done|].
    assert (x <> b) by congruence. specialize (Hnull x H).
    destruct (mw_cells _ _ Hwf x Hx) as (c & Hc & Hcn). rewrite Hc in Hnull.
    destruct (m' !! x) as [c'|]; [|done]. exists c'. split; [done|]. cbn in Hnull. injection Hnull as Hnull.
    intros He. rewrite He in Hnull. cbn in Hnull. symmetry in Hnull. by apply cap_is_null_spec in Hnull.
  - intros x c' Hx Hn. rewrite Hmem in Hn. assert (x <> b) by tauto. assert (Hxn : x ∉ concat cs) by tauto.
    specialize (Hnull x H). rewrite Hx in Hnull. destruct (m !! x) as [c|] eqn:Hc; [|done].
    cbn in Hnull. injection Hnull as Hnull.
    destruct (mw_out _ _ Hwf x c Hc Hxn) as (E1 & E2 & E3).
    rewrite E1 in Hnull. apply cap_is_null_spec in Hnull.
    assert (Hxa : x <> a) by congruence.
    split; [done|]. specialize (L5 x Hxa H). rewrite !(clink_Some mdbNext _ _ _ Hx), (clink_Some mdbNext _ _ _ Hc) in L5.
    assert (Hxna : x <> clink mdbNext m a).
    { intros ->. apply Hxn. destruct (mw_links _ _ Hwf a) as (Hnn & _ & _). apply Hnn.
      intros He. rewrite He, H0 in Hx. done. }
    specialize (L6 x Hxna H). rewrite (clink_Some mdbPrev _ _ _ Hx), (clink_Some mdbPrev _ _ _ Hc) in L6.
    split; congruence.
Qed.

(** The source capability after a child untyped has been inserted. *)
Definition full_cap (srcCap newCap c : cap) : cap :=
  match srcCap, newCap with
  | cap_untyped_cap _ _ srcBits srcPtr, cap_untyped_cap _ _ newBits newPtr =>
      if (srcPtr =? newPtr) && (newBits =? srcBits) then
        match c with
        | cap_untyped_cap _ dev bits ptr => cap_untyped_cap (MAX_FREE_INDEX srcBits) dev bits ptr
        | _ => c
        end
      else c
  | _, _ => c
  end.

Lemma full_cap_null sc nc c : cap_is_null (full_cap sc nc c) = cap_is_null c.
Proof. unfold full_cap. destruct sc, nc; try done. case_match; [by destruct c|done]. Qed.

Section Insert.
Context (s : kstate) (cs : list (list Z)) (src dest : Z) (ca cb : cte) (newCap : cap).
Notation m := (ksCTEs s).
Hypothesis Hwf : mdb_wf m cs.
Hypothesis Ha : m !! src = Some ca.
Hypothesis Hb : m !! dest = Some cb.
Hypothesis Hsrc : cte_cap ca <> cap_null_cap.
Hypothesis Hdest : cte_cap cb = cap_null_cap.
Notation na := (mdbNext (cteMDBNode ca)).

Definition insert_cell (fsrc : cap -> cap) (rev : bool) (x : Z) (c : cte) : cte :=
  at_ na (upd_mdb (set_mdbPrev (fun _ => dest))) x (at_ src (upd_mdb (set_mdbNext (fun _ => dest))) x
    (at_ dest (upd_mdb (fun _ => mdb_node_new na rev rev src)) x
      (at_ dest (set_cte_cap (fun _ => newCap)) x (at_ src (set_cte_cap fsrc) x c)))).

Lemma at_mdb_capf p f x c : cteMDBNode (at_ p (set_cte_cap f) x c) = cteMDBNode c.
Proof. unfold at_. by case_decide. Qed.

Lemma insert_cell_linked fsrc rev m' :
  cell_map m (insert_cell fsrc rev) m' -> linked_after m m' src dest.
Proof.
  intros M. assert (Hne : src <> dest) by congruence.
  destruct (dest_unlinked s cs dest cb Hwf Hb Hdest) as (Hdn & Hdp & Hdin).
  assert (Han : src <> 0) by (apply (mw_nonzero _ _ Hwf); eauto).
  assert (Hbn : dest <> 0) by (apply (mw_nonzero _ _ Hwf); eauto).
  pose proof (mw_next_iff _ _ Hwf src dest Han Hbn) as Hb4.
  destruct (proj2 (proj2 (mw_links _ _ Hwf src)) Han) as [Ha3 Ha4].
  clinks Ha. clinks Hb. rewrite ?Hdn, ?Hdp in *.
  unfold linked_after. clinks Ha.
  assert (Hnd : na <> dest) by (intros E; apply Hb4 in E; congruence).
  split_and!.
  - rewrite (clink_map _ _ _ _ _ M), Ha. unfold insert_cell. at_fields. ptr_cases.
  - rewrite (clink_map _ _ _ _ _ M), Hb. unfold insert_cell. at_fields. cbn. ptr_cases.
  - rewrite (clink_map _ _ _ _ _ M), Hb. unfold insert_cell. at_fields. cbn. ptr_cases.
  - intros Hn0. pose proof (mw_next_some _ _ Hwf src) as Hs. clinks Ha. destruct (Hs Hn0) as [cn Hcn].
    rewrite (clink_map _ _ _ _ _ M), Hcn. unfold insert_cell. at_fields. cbn. ptr_cases.
  - intros x Hxa Hxb. rewrite (clink_map _ _ _ _ _ M). unfold clink. destruct (m !! x); [|done].
    unfold insert_cell. at_fields. rewrite at_mdb_capf. cbn. ptr_cases.
  - intros x Hxa Hxb. rewrite (clink_map _ _ _ _ _ M). unfold clink. destruct (m !! x); [|done].
    unfold insert_cell. at_fields. rewrite at_mdb_capf. cbn. ptr_cases.
Qed.

Lemma insert_cell_wf fsrc rev m' :
  newCap <> cap_null_cap -> (forall c, cap_is_null (fsrc c) = cap_is_null c) ->
  cell_map m (insert_cell fsrc rev) m' -> mdb_wf m' (ins src dest <$> cs).
Proof.
  intros Hnew Hf M. destruct (dest_unlinked s cs dest cb Hwf Hb Hdest) as (Hdn & Hdp & Hdin).
  apply mdb_wf_linked with (m := m); [done| |done| | | | |].
  - by apply (mw_cell_nonnull _ _ Hwf src ca).
  - apply (mw_nonzero _ _ Hwf); eauto.
  - by rewrite M, (mw_null _ _ Hwf).
  - by apply (insert_cell_linked fsrc rev).
  - exists (insert_cell fsrc rev dest cb). split; [by rewrite M, Hb|].
    unfold insert_cell. at_fields. by rewrite decide_True.
  - intros x Hx. rewrite M. destruct (m !! x) as [c|]; [|done]. cbn. f_equal.
    unfold insert_cell. at_fields. rewrite decide_False by done. unfold at_. case_decide; [|done].
    apply Hf.
Qed.

Lemma insert_cell_data fsrc rev m' :
  cell_map m (insert_cell fsrc rev) m' ->
  (forall x, x <> src -> x <> dest -> cte_data <$> m' !! x = cte_data <$> m !! x) /\
  cte_data <$> m' !! src = Some (with_cap (fsrc (cte_cap ca)) (cte_data ca)) /\
  cte_data <$> m' !! dest = Some (newCap, rev, rev).
Proof.
  intros M. assert (Hne : src <> dest) by congruence. split_and!.
  - intros x Hxa Hxb. rewrite M. destruct (m !! x) as [c|]; [|done]. cbn. f_equal.
    unfold insert_cell. at_fields. rewrite !decide_False by done. by rewrite at_ne.
  - rewrite M, Ha. cbn. unfold insert_cell. at_fields. rewrite !decide_False by done.
    by rewrite at_eq.
  - rewrite M, Hb. cbn. unfold insert_cell. at_fields. by rewrite !decide_True.
Qed.

Lemma cell_map_at_ext (F G : Z -> cte -> cte) m1 :
  (forall x c, m !! x = Some c -> F x c = G x c) -> cell_map m F m1 -> cell_map m G m1.
Proof. intros H M x. rewrite M. destruct (m !! x) eqn:E; [|done]. cbn. f_equal. by apply H. Qed.

Lemma wp_cteInsert_wf rev Q :
  newCap <> cap_null_cap -> isCapRevocable newCap (cte_cap ca) = Some rev ->
  (forall m', mdb_wf m' (ins src dest <$> cs) ->
    (forall x, x <> src -> x <> dest -> cte_data <$> m' !! x = cte_data <$> m !! x) ->
    cte_data <$> m' !! src = Some (with_cap (full_cap (cte_cap ca) newCap (cte_cap ca)) (cte_data ca)) ->
    cte_data <$> m' !! dest = Some (newCap, rev, rev) ->
    Q tt (set_ksCTEs (fun _ => m') s)) ->
  wp (cteInsert newCap src dest) Q s.
Proof.
  intros Hnew Hrev HQ. pose proof (mw_null _ _ Hwf) as H0.
  assert (Hne : src <> dest) by congruence.
  destruct (dest_unlinked s cs dest cb Hwf Hb Hdest) as (Hdn & Hdp & Hdin).
  pose proof (mw_next_some _ _ Hwf src) as Hna. rewrite (clink_Some _ _ _ _ Ha) in Hna.
  set (f := full_cap (cte_cap ca) newCap).
  assert (Hend : forall m', cell_map m (insert_cell f rev) m' -> Q tt (set_ksCTEs (fun _ => m') s)).
  { intros m' M. destruct (insert_cell_data f rev m' M) as (D1 & D2 & D3).
    apply HQ; [|done..]. apply (insert_cell_wf f rev); [done|apply full_cap_null|done]. }
  unfold cteInsert, setCap, setNext, setPrev, setMDB. rewrite <- (set_ksCTEs_id s).
  pose proof (cell_map_refl m) as M.
  wp_struct. eapply wp_getCTE_map; [exact M|exact Ha|]. cbv beta.
  wp_struct. eapply wp_from_option; [exact Hrev|].
  wp_struct. eapply wp_getCTE_map; [exact M|exact Hb|].
  wp_struct. wp_struct; [by rewrite Hdest|]. wp_struct. wp_struct; [by rewrite Hdn, Hdp|].
  wp_struct.
  assert (Hfull : forall Q1, (forall m1, cell_map m (fun x c => at_ src (set_cte_cap f) x c) m1 ->
      Q1 tt (set_ksCTEs (fun _ => m1) s)) ->
    wp (setUntypedCapAsFull (cte_cap ca) newCap src) Q1 (set_ksCTEs (fun _ => m) s)).
  { intros Q1 HQ1. unfold setUntypedCapAsFull.
    assert (Hid : (forall c, f c = c) -> Q1 tt (set_ksCTEs (fun _ => m) s)).
    { intros Hf. apply HQ1. eapply cell_map_at_ext; [|exact M]. intros x c _. unfold at_.
      case_decide; [|done]. destruct c as [cp n].
      unfold set_cte_cap. cbn -[f]. by rewrite Hf. }
    unfold f, full_cap in *.
    destruct (cte_cap ca); try (by apply Hid). destruct newCap; try (by apply Hid).
    destruct ((_ =? _) && (_ =? _)); [|by apply Hid].
    eapply wp_modCTE_map; [exact M|eauto|]. intros m1 M1. apply HQ1. exact M1. }
  apply Hfull. clear M Hfull. intros m1 M.
  wp_struct. eapply wp_modCTE_map; [exact M|eauto|]. clear M. intros m2 M.
  wp_struct. eapply wp_modCTE_map; [exact M|eauto|]. clear M. intros m3 M.
  wp_struct. eapply wp_modCTE_map; [exact M|eauto|]. clear M. intros m4 M.
  cbn [mdbNext]. eapply wp_modCTE_if; [exact M|exact H0|done|]. clear M. intros m5 M.
  apply Hend. exact M.
Qed.
End Insert.

(** ** [insertNewCap] *)
Section InsertNew.
Context (s : kstate) (cs : list (list Z)) (parent slot : Z) (ca cb : cte) (newCap : cap).
Notation m := (ksCTEs s).
Hypothesis Hwf : mdb_wf m cs.
Hypothesis Ha : m !! parent = Some ca.
Hypothesis Hb : m !! slot = Some cb.
Hypothesis Hsrc : cte_cap ca <> cap_null_cap.
Hypothesis Hdest : cte_cap cb = cap_null_cap.

Lemma wp_insertNewCap_wf Q :
  newCap <> cap_null_cap ->
  (forall m', mdb_wf m' (ins parent slot <$> cs) ->
    (forall x, x <> slot -> cte_data <$> m' !! x = cte_data <$> m !! x) ->
    cte_data <$> m' !! slot = Some (newCap, true, true) ->
    Q tt (set_ksCTEs (fun _ => m') s)) ->
  wp (insertNewCap parent slot newCap) Q s.
Proof.
  intros Hnew HQ. pose proof (mw_null _ _ Hwf) as H0.
  assert (Hne : parent <> slot) by congruence.
  assert (Han : parent <> 0) by (apply (mw_nonzero _ _ Hwf); eauto).
  destruct (proj2 (proj2 (mw_links _ _ Hwf parent)) Han) as [Ha3 _]. clinks Ha.
  pose proof (mw_next_some _ _ Hwf parent) as Hna. rewrite (clink_Some _ _ _ _ Ha) in Hna.
  unfold insertNewCap, setCap, setNext, setPrev, setMDB. rewrite <- (set_ksCTEs_id s).
  pose proof (cell_map_refl m) as M.
  wp_struct. eapply wp_getCTE_map; [exact M|exact Ha|]. cbv beta zeta.
  wp_struct. eapply wp_modCTE_map; [exact M|eauto|]. clear M. intros m2 M.
  wp_struct. eapply wp_modCTE_map; [exact M|eauto|]. clear M. intros m3 M.
  wp_struct. eapply wp_modCTE_if; [exact M|exact H0|done|]. clear M. intros m5 M.
  eapply wp_modCTE_map; [exact M|eauto|]. clear M. intros m4 M.
  assert (M' : cell_map m (insert_cell parent slot ca newCap (fun c => c) true) m4).
  { eapply cell_map_at_ext; [|exact M]. intros x c _. unfold insert_cell, at_.
    destruct c as [cp n]. repeat case_decide; subst; done. }
  destruct (insert_cell_data s parent slot ca cb newCap Ha Hb Hsrc Hdest _ _ _ M') as (D1 & D2 & D3).
  apply HQ; [|..|done].
  - by apply (insert_cell_wf s cs parent slot ca cb newCap Hwf Ha Hb Hsrc Hdest (fun c => c) true).
  - intros x Hx. destruct (decide (x = parent)) as [->|]; [|by apply D1].
    rewrite D2, Ha. done.
Qed.
End InsertNew.

(** ** Removal *)
Definition unlinked (m m' : gmap Z cte) (a : Z) : Prop :=
  let na := clink mdbNext m a in let pa := clink mdbPrev m a in
  (pa <> 0 -> clink mdbNext m' pa = na) /\ (na <> 0 -> clink mdbPrev m' na = pa) /\
  (forall x, x <> a -> x <> pa -> clink mdbNext m' x = clink mdbNext m x) /\
  (forall x, x <> a -> x <> na -> clink mdbPrev m' x = clink mdbPrev m x).

Lemma mdb_wf_unlinked m m' cs a :
  mdb_wf m cs -> a ∈ concat cs -> m' !! 0 = None -> unlinked m m' a -> m' !! a = Some null_cte ->
  (forall x, x <> a -> (cap_is_null ∘ cte_cap) <$> m' !! x = (cap_is_null ∘ cte_cap) <$> m !! x) ->
  mdb_wf m' (del a <$> cs).
Proof.
  intros Hwf Ha H0 (L1 & L2 & L3 & L4) Hma Hnull.
  assert (Hmem : forall x, x ∈ concat (del a <$> cs) <-> x <> a /\ x ∈ concat cs)
    by (intros x; rewrite concat_del; by apply elem_of_del).
  destruct (mw_links _ _ Hwf a) as (Hna & Hpa & _).
  split.
  - done.
  - rewrite concat_del. apply NoDup_filter, Hwf.
  - intros l (l0 & -> & Hl)%list_elem_of_fmap.
    pose proof (mw_chain _ _ Hwf l0 Hl) as Hd.
    destruct (decide (a ∈ l0)) as [Hal|Hal].
    + pose proof Hal as Hs. apply list_elem_of_split in Hs as (l1 & l2 & ->).
      destruct (nodup_mid _ _ _ (dlist_nodup _ _ _ Hd)). rewrite del_split by done.
      by eapply dlist_remove; [exact Hd|done..].
    + rewrite del_notin by done. eapply dlist_ext; [|exact Hd]. intros x Hx.
      assert (x <> a) by congruence. assert (x <> 0) by (intros ->; by destruct Hd).
      destruct (dlist_links _ _ _ _ Hd Hx) as (Hn & Hp & _).
      assert (a <> 0).
      { intros ->. destruct (mw_cells _ _ Hwf 0 Ha) as (? & Hc & _). rewrite (mw_null _ _ Hwf) in Hc. done. }
      split; [apply L3|apply L4]; try done; intros ->.
      * destruct Hpa as [_ E]; [done|]. rewrite E in Hn. by destruct Hn.
      * destruct Hna as [_ E]; [done|]. rewrite E in Hp. by destruct Hp.
  - intros x Hx. apply Hmem in Hx as [Hxa Hx]. specialize (Hnull x Hxa).
    destruct (mw_cells _ _ Hwf x Hx) as (c & Hc & Hcn). rewrite Hc in Hnull.
    destruct (m' !! x) as [c'|]; [|done]. exists c'. split; [done|]. cbn in Hnull. injection Hnull as Hnull.
    intros He. rewrite He in Hnull. symmetry in Hnull. by apply cap_is_null_spec in Hnull.
  - intros x c' Hx Hn. rewrite Hmem in Hn. destruct (decide (x = a)) as [->|Hxa].
    { rewrite Hma in Hx. injection Hx as <-. done. }
    assert (Hxn : x ∉ concat cs) by tauto.
    specialize (Hnull x Hxa). rewrite Hx in Hnull. destruct (m !! x) as [c|] eqn:Hc; [|done].
    cbn in Hnull. injection Hnull as Hnull.
    destruct (mw_out _ _ Hwf x c Hc Hxn) as (E1 & E2 & E3).
    rewrite E1 in Hnull. apply cap_is_null_spec in Hnull. split; [done|].
    assert (x <> 0) by (intros ->; congruence).
    assert (Hxp : x <> clink mdbPrev m a) by (intros ->; by apply Hxn, Hpa).
    assert (Hxx : x <> clink mdbNext m a) by (intros ->; by apply Hxn, Hna).
    specialize (L3 x Hxa Hxp). specialize (L4 x Hxa Hxx).
    rewrite (clink_Some _ _ _ _ Hx), (clink_Some _ _ _ _ Hc) in L3.
    rewrite (clink_Some _ _ _ _ Hx), (clink_Some _ _ _ _ Hc) in L4. split; congruence.
Qed.

Section EmptySlot.
Context (s : kstate) (cs : list (list Z)) (slot : Z) (ca : cte).
Notation m := (ksCTEs s).
Hypothesis Hwf : mdb_wf m cs.
Hypothesis Ha : m !! slot = Some ca.
Hypothesis Hsrc : cte_cap ca <> cap_null_cap.
Notation na := (mdbNext (cteMDBNode ca)).
Notation pa := (mdbPrev (cteMDBNode ca)).

Definition empty_cell (x : Z) (c : cte) : cte :=
  at_ slot (upd_mdb (fun _ => nullMDBNode)) x (at_ slot (set_cte_cap (fun _ => cap_null_cap)) x
    (at_ na (upd_mdb (set_mdbFirstBadged (fun b => b || mdbFirstBadged (cteMDBNode ca)))) x
      (at_ na (upd_mdb (set_mdbPrev (fun _ => pa))) x
        (at_ pa (upd_mdb (set_mdbNext (fun _ => na))) x c)))).

Lemma at_next_fb p g x c :
  mdbNext (cteMDBNode (at_ p (upd_mdb (set_mdbFirstBadged g)) x c)) = mdbNext (cteMDBNode c).
Proof. unfold at_. by case_decide. Qed.
Lemma at_prev_fb p g x c :
  mdbPrev (cteMDBNode (at_ p (upd_mdb (set_mdbFirstBadged g)) x c)) = mdbPrev (cteMDBNode c).
Proof. unfold at_. by case_decide. Qed.

Lemma wp_emptySlot_wf info Q :
  (forall m', mdb_wf m' (del slot <$> cs) -> m' !! slot = Some null_cte ->
    (forall x, x <> slot -> x <> na -> cte_data <$> m' !! x = cte_data <$> m !! x) ->
    (na <> 0 -> exists cn, m !! na = Some cn /\ cte_data <$> m' !! na =
       Some (cte_cap cn, mdbRevocable (cteMDBNode cn),
             mdbFirstBadged (cteMDBNode cn) || mdbFirstBadged (cteMDBNode ca))) ->
    wp (postCapDeletion info) Q (set_ksCTEs (fun _ => m') s)) ->
  wp (emptySlot slot info) Q s.
Proof.
  intros HQ. pose proof (mw_null _ _ Hwf) as H0.
  assert (Han : slot <> 0) by (apply (mw_nonzero _ _ Hwf); eauto).
  destruct (proj2 (proj2 (mw_links _ _ Hwf slot)) Han) as [Ha3 Ha4].
  destruct (mw_links _ _ Hwf slot) as (Hn1 & Hp1 & _).
  pose proof (mw_prev_some _ _ Hwf slot) as Hpa. pose proof (mw_next_some _ _ Hwf slot) as Hna.
  clinks Ha.
  unfold emptySlot, setCap, setNext, setPrev, setMDB. rewrite <- (set_ksCTEs_id s).
  pose proof (cell_map_refl m) as M.
  wp_struct. eapply wp_getCTE_map; [exact M|exact Ha|]. cbv beta zeta.
  rewrite (proj2 (negb_true_iff _)) by (destruct (cap_is_null (cte_cap ca)) eqn:E;
    [by apply cap_is_null_spec in E|done]).
  wp_struct. eapply wp_modCTE_if; [exact M|exact H0|done|]. clear M. intros m1 M.
  wp_struct. eapply wp_modCTE_if; [exact M|exact H0|done|]. clear M. intros m2 M.
  wp_struct. eapply wp_modCTE_if; [exact M|exact H0|done|]. clear M. intros m3 M.
  wp_struct. eapply wp_modCTE_map; [exact M|eauto|]. clear M. intros m4 M.
  wp_struct. eapply wp_modCTE_map; [exact M|eauto|]. clear M. intros m5 M.
  change (cell_map m empty_cell m5) in M. clear m1 m2 m3 m4.
  assert (Hs : m5 !! slot = Some null_cte).
  { rewrite M, Ha. cbn. unfold empty_cell, null_cte. f_equal. rewrite at_eq, at_eq. done. }
  assert (Ho : forall x, x <> slot -> x <> na -> cte_data <$> m5 !! x = cte_data <$> m !! x).
  { intros x Hx Hxn. rewrite M. destruct (m !! x); [|done]. cbn. f_equal. unfold empty_cell.
    rewrite (at_ne slot), (at_ne slot), (at_ne na) by done. at_fields. done. }
  assert (Hn : na <> 0 -> exists cn, m !! na = Some cn /\ cte_data <$> m5 !! na =
       Some (cte_cap cn, mdbRevocable (cteMDBNode cn),
             mdbFirstBadged (cteMDBNode cn) || mdbFirstBadged (cteMDBNode ca))).
  { intros Hn. destruct (Hna Hn) as [cn Hcn]. exists cn. split; [done|]. rewrite M, Hcn. cbn.
    unfold empty_cell. rewrite (at_ne slot), (at_ne slot), at_eq, at_eq by done.
    f_equal. unfold at_. case_decide; by destruct cn as [? []]. }
  apply HQ; try done.
  apply mdb_wf_unlinked with (m := m); [done|by apply (mw_cell_nonnull _ _ Hwf slot ca)| |
    |done|].
  - by rewrite M, H0.
  - unfold unlinked. clinks Ha. split_and!.
    + intros Hp. destruct (Hpa Hp) as [cp Hcp]. rewrite (clink_map _ _ _ _ _ M), Hcp.
      unfold empty_cell. at_fields. rewrite at_next_fb. at_fields. ptr_cases.
    + intros Hnn. destruct (Hna Hnn) as [cp Hcp]. rewrite (clink_map _ _ _ _ _ M), Hcp.
      unfold empty_cell. at_fields. rewrite at_prev_fb. at_fields. ptr_cases.
    + intros x Hx Hxp. rewrite (clink_map _ _ _ _ _ M). unfold clink. destruct (m !! x); [|done].
      unfold empty_cell. at_fields. rewrite at_next_fb. at_fields. ptr_cases.
    + intros x Hx Hxn. rewrite (clink_map _ _ _ _ _ M). unfold clink. destruct (m !! x); [|done].
      unfold empty_cell. at_fields. rewrite at_prev_fb. at_fields. ptr_cases.
  - intros x Hx. rewrite M. destruct (m !! x) as [c|]; [|done]. cbn. f_equal.
    unfold empty_cell. at_fields. by rewrite decide_False.
Qed.
End EmptySlot.
