(* ===== verification/Messages.v ===== *)
(** * Messages

    Message registers, IPC buffers and message-info words
    (include/api/types.h, include/object/tcb.h, src/object/tcb.c), the
    receive slots of src/object/cnode.c and the fault messages of
    src/api/faults.c. *)
From S2P Require Import Prelude Dll Structures CapOps CSpace VSpace Sched Mdb.
From stdpp Require Import base list sets gmap.
#[local] Open Scope Z_scope.

(** ** Message-info words: label 52, capsUnwrapped 3, extraCaps 2, length 7 *)
Definition bf_get (w shift bits : Z) : Z := Z.land (Z.shiftr w shift) (MASK bits).
Definition bf_set (w shift bits v : Z) : Z :=
  Z.lor (Z.land w (wnot (wshl (MASK bits) shift))) (Z.land (wshl v shift) (wshl (MASK bits) shift)).

Definition seL4_MessageInfo_get_label (mi : Z) : Z := bf_get mi 12 52.
Definition seL4_MessageInfo_get_capsUnwrapped (mi : Z) : Z := bf_get mi 9 3.
Definition seL4_MessageInfo_get_extraCaps (mi : Z) : Z := bf_get mi 7 2.
Definition seL4_MessageInfo_get_length (mi : Z) : Z := bf_get mi 0 7.
Definition seL4_MessageInfo_set_capsUnwrapped (mi v : Z) : Z := bf_set mi 9 3 v.
Definition seL4_MessageInfo_set_extraCaps (mi v : Z) : Z := bf_set mi 7 2 v.
Definition seL4_MessageInfo_set_length (mi v : Z) : Z := bf_set mi 0 7 v.
Definition seL4_MessageInfo_new (label caps extra len : Z) : Z :=
  bf_set (bf_set (bf_set (bf_set 0 12 52 label) 9 3 caps) 7 2 extra) 0 7 len.

Definition messageInfoFromWord (w : Z) : Z :=
  if seL4_MsgMaxLength <? seL4_MessageInfo_get_length w
  then seL4_MessageInfo_set_length w seL4_MsgMaxLength else w.
Definition wordFromMessageInfo (mi : Z) : Z := mi.

(** ** Registers *)
Definition n_msgRegisters : Z := 4.
Definition n_frameRegisters : Z := 17.
Definition n_gpRegisters : Z := 19.
Definition n_exceptionMessage : Z := 3.
Definition n_syscallMessage : Z := 12.

(** [array[i]]; out of range is [None]. *)
Definition arr (l : list Z) (i : Z) : option Z := if i <? 0 then None else nth_error l (Z.to_nat i).

Definition msgRegisters : list Z := [2; 3; 4; 5].
Definition frameRegisters : list Z :=
  [FaultIP; SP_EL0; SPSR_EL1; 0; 1; 2; 3; 4; 5; 6; 7; 8; 16; 17; 18; 29; 30].
Definition gpRegisters : list Z :=
  [9; 10; 11; 12; 13; 14; 15; 19; 20; 21; 22; 23; 24; 25; 26; 27; 28; TPIDR_EL0; TPIDRRO_EL0].

Inductive MessageID := MessageID_Syscall | MessageID_Exception.
Definition fault_messages (id : MessageID) : list Z :=
  match id with
  | MessageID_Syscall => [0; 1; 2; 3; 4; 5; 6; 7; FaultIP; SP_EL0; ELR_EL1; SPSR_EL1]
  | MessageID_Exception => [FaultIP; SP_EL0; SPSR_EL1]
  end.

Definition PSTATE_USER : Z := 64.

(** Without hypervisor support [archInfo] is always false. *)
Definition Arch_getSanitiseRegisterInfo (thread : Z) : bool := false.
Definition sanitiseRegister (r v : Z) (archInfo : bool) : Z :=
  if r =? SPSR_EL1 then
    if archInfo && ((Z.land v 31 =? 0) || (Z.land v 31 =? 4) || (Z.land v 31 =? 5)) then v
    else Z.lor (Z.land v 0xf0000000) PSTATE_USER
  else v.

Definition setMR (receiver receiveIPCBuffer offset r : Z) : K Z :=
  if n_msgRegisters <=? offset then
    if negb (receiveIPCBuffer =? 0) then
      storeWord receiveIPCBuffer (offset + 1) r ;;; ret (offset + 1)
    else ret n_msgRegisters
  else
    let* m := from_option_M (arr msgRegisters offset) in
    setRegister receiver m r ;;; ret (offset + 1).

Definition getSyscallArg (i ipc_buffer : Z) : K Z :=
  if i <? n_msgRegisters then
    let* cur := gets ksCurThread in
    let* m := from_option_M (arr msgRegisters i) in
    getRegister cur m
  else
    assert (negb (ipc_buffer =? 0)) ;;;
    loadWord ipc_buffer (i + 1).

(** ** IPC buffers *)
Definition lookupIPCBuffer (isReceiver : bool) (thread : Z) : K Z :=
  let* t := getTCB thread in
  let w_bufferPtr := tcbIPCBuffer t in
  let* c := getCTE (TCB_PTR_CTE_PTR thread tcbBuffer) in
  match cte_cap c with
  | cap_frame_cap _ basePtr size _ vm_rights isDevice =>
      if (isDevice : bool) then ret 0
      else if bool_decide (vm_rights = VMReadWrite)
              || (negb isReceiver && bool_decide (vm_rights = VMReadOnly)) then
        ret (wadd basePtr (Z.land w_bufferPtr (MASK (pageBitsForSize size))))
      else ret 0
  | _ => ret 0
  end.

Definition copyMRs (sender sendBuf receiver recvBuf n : Z) : K Z :=
  let k := Z.min n n_msgRegisters in
  for_ 0 k (fun i =>
    let* m := from_option_M (arr msgRegisters i) in
    let* v := getRegister sender m in
    setRegister receiver m v) ;;;
  if (recvBuf =? 0) || (sendBuf =? 0) then ret k
  else
    for_ k n (fun i => let* v := loadWord sendBuf (i + 1) in storeWord recvBuf (i + 1) v) ;;;
    ret (Z.max k n).

(** ** Extra capabilities *)
Definition getExtraCPtr (bufferPtr i : Z) : K Z := loadWord bufferPtr (seL4_MsgMaxLength + 2 + i).
Definition setExtraBadge (bufferPtr badge i : Z) : K unit :=
  storeWord bufferPtr (seL4_MsgMaxLength + 2 + i) badge.

(** [current_extra_caps.excaprefs] up to its terminating NULL. *)
Definition excaprefs (i : nat) : K (option Z) := gets (fun s => nth_error (current_extra_caps s) i).
Definition set_extra_caps (l : list Z) : K unit := modify (set_current_extra_caps (fun _ => l)).

(** The loop body writes [excaprefs[i]] and keeps the entries after it. *)
Fixpoint lookupExtraCaps_loop (n : nat) (i : Z) (thread bufferPtr : Z) : K exception_t :=
  match n with
  | O =>
      (if i <? seL4_MsgMaxExtraCaps then
         modify (set_current_extra_caps (take (Z.to_nat i)))
       else ret tt) ;;;
      ret EXCEPTION_NONE
  | S n' =>
      let* cptr := getExtraCPtr bufferPtr i in
      let* (status, slot) := lookupSlot thread cptr in
      if negb (is_none status) then
        modify (set_current_fault (fun _ => seL4_Fault_CapFault cptr false)) ;;;
        ret status
      else
        modify (set_current_extra_caps (fun l => take (Z.to_nat i) l ++ slot :: drop (S (Z.to_nat i)) l)) ;;;
        lookupExtraCaps_loop n' (i + 1) thread bufferPtr
  end.

Definition lookupExtraCaps (thread bufferPtr info : Z) : K exception_t :=
  if bufferPtr =? 0 then set_extra_caps [] ;;; ret EXCEPTION_NONE
  else
    let length := seL4_MessageInfo_get_extraCaps info in
    lookupExtraCaps_loop (Z.to_nat length) 0 thread bufferPtr.

(** ** Receive slots (cnode.c) *)
Record cap_transfer : Type := mk_cap_transfer {
  ctReceiveRoot : Z; ctReceiveIndex : Z; ctReceiveDepth : Z
}.
Definition capTransferFromWords (buffer offset : Z) : K cap_transfer :=
  let* r := loadWord buffer offset in
  let* i := loadWord buffer (offset + 1) in
  let* d := loadWord buffer (offset + 2) in
  ret (mk_cap_transfer r i d).
Definition loadCapTransfer (buffer : Z) : K cap_transfer :=
  capTransferFromWords buffer (seL4_MsgMaxLength + seL4_MsgMaxExtraCaps + 2).

Definition getReceiveSlots (thread buffer : Z) : K Z :=
  if buffer =? 0 then ret 0
  else
    let* ct := loadCapTransfer buffer in
    let* (status, cnode) := lookupCap thread (ctReceiveRoot ct) in
    if negb (is_none status) then ret 0
    else
      let* (status, slot) := lookupTargetSlot cnode (ctReceiveIndex ct) (ctReceiveDepth ct) in
      if negb (is_none status) then ret 0
      else
        let* c := getCTE slot in
        if negb (cap_is_null (cte_cap c)) then ret 0 else ret slot.

(** ** Error messages *)
Definition seL4_CapFault_IP : Z := 0.
Definition seL4_CapFault_Addr : Z := 1.
Definition seL4_CapFault_InRecvPhase : Z := 2.
Definition seL4_CapFault_LookupFailureType : Z := 3.

Definition lookup_fault_get_lufType (l : lookup_fault) : Z :=
  match l with
  | lookup_fault_invalid_root => 0
  | lookup_fault_missing_capability _ => 1
  | lookup_fault_depth_mismatch _ _ => 2
  | lookup_fault_guard_mismatch _ _ _ => 3
  end.

Definition setMRs_lookup_failure (receiver receiveIPCBuffer : Z) (luf : lookup_fault) (offset : Z) : K Z :=
  let* i := setMR receiver receiveIPCBuffer offset (lookup_fault_get_lufType luf + 1) in
  (if offset =? seL4_CapFault_LookupFailureType then ret tt else assert (offset =? 1)) ;;;
  match luf with
  | lookup_fault_invalid_root => ret i
  | lookup_fault_missing_capability bitsLeft => setMR receiver receiveIPCBuffer (offset + 1) bitsLeft
  | lookup_fault_depth_mismatch bitsFound bitsLeft =>
      let* _ := setMR receiver receiveIPCBuffer (offset + 1) bitsLeft in
      setMR receiver receiveIPCBuffer (offset + 2) bitsFound
  | lookup_fault_guard_mismatch guardFound bitsLeft bitsFound =>
      let* _ := setMR receiver receiveIPCBuffer (offset + 1) bitsLeft in
      let* _ := setMR receiver receiveIPCBuffer (offset + 2) guardFound in
      setMR receiver receiveIPCBuffer (offset + 3) bitsFound
  end.

(** [seL4_NoError] is the failing default branch. *)
Definition setMRs_syscall_error (thread receiveIPCBuffer : Z) : K Z :=
  let* e := gets current_syscall_error in
  match se_type e with
  | seL4_InvalidArgument => setMR thread receiveIPCBuffer 0 (se_invalidArgumentNumber e)
  | seL4_InvalidCapability => setMR thread receiveIPCBuffer 0 (se_invalidCapNumber e)
  | seL4_IllegalOperation | seL4_AlignmentError | seL4_TruncatedMessage
  | seL4_DeleteFirst | seL4_RevokeFirst => ret 0
  | seL4_RangeError =>
      let* _ := setMR thread receiveIPCBuffer 0 (se_rangeErrorMin e) in
      setMR thread receiveIPCBuffer 1 (se_rangeErrorMax e)
  | seL4_FailedLookup =>
      let* _ := setMR thread receiveIPCBuffer 0 (if se_failedLookupWasSource e then 1 else 0) in
      let* luf := gets current_lookup_fault in
      setMRs_lookup_failure thread receiveIPCBuffer luf 1
  | seL4_NotEnoughMemory => setMR thread receiveIPCBuffer 0 (se_memoryLeft e)
  | seL4_NoError => fail
  end.

Definition replyFromKernel_error (thread : Z) : K unit :=
  let* ipcBuffer := lookupIPCBuffer true thread in
  setRegister thread badgeRegister 0 ;;;
  let* len := setMRs_syscall_error thread ipcBuffer in
  let* e := gets current_syscall_error in
  setRegister thread msgInfoRegister
    (wordFromMessageInfo (seL4_MessageInfo_new (seL4_Error_code (se_type e)) 0 0 len)).

Definition replyFromKernel_success_empty (thread : Z) : K unit :=
  setRegister thread badgeRegister 0 ;;;
  setRegister thread msgInfoRegister (wordFromMessageInfo (seL4_MessageInfo_new 0 0 0 0)).

(** ** Fault messages *)
Definition seL4_Fault_get_seL4_FaultType (f : seL4_Fault) : Z :=
  match f with
  | seL4_Fault_NullFault => 0
  | seL4_Fault_CapFault _ _ => 1
  | seL4_Fault_UnknownSyscall _ => 2
  | seL4_Fault_UserException _ _ => 3
  | seL4_Fault_VMFault _ _ _ => 5
  end.

Definition copyMRsFaultReply (sender receiver : Z) (id : MessageID) (length : Z) : K unit :=
  let archInfo := Arch_getSanitiseRegisterInfo receiver in
  let k := Z.min length n_msgRegisters in
  for_ 0 k (fun i =>
    let* r := from_option_M (arr (fault_messages id) i) in
    let* m := from_option_M (arr msgRegisters i) in
    let* v := getRegister sender m in
    setRegister receiver r (sanitiseRegister r v archInfo)) ;;;
  if k <? length then
    let* sendBuf := lookupIPCBuffer false sender in
    if negb (sendBuf =? 0) then
      for_ k length (fun i =>
        let* r := from_option_M (arr (fault_messages id) i) in
        let* v := loadWord sendBuf (i + 1) in
        setRegister receiver r (sanitiseRegister r v archInfo))
    else ret tt
  else ret tt.

Definition copyMRsFault (sender receiver : Z) (id : MessageID) (length receiveIPCBuffer : Z) : K unit :=
  let k := Z.min length n_msgRegisters in
  for_ 0 k (fun i =>
    let* m := from_option_M (arr msgRegisters i) in
    let* r := from_option_M (arr (fault_messages id) i) in
    let* v := getRegister sender r in
    setRegister receiver m v) ;;;
  if negb (receiveIPCBuffer =? 0) then
    for_ k length (fun i =>
      let* r := from_option_M (arr (fault_messages id) i) in
      let* v := getRegister sender r in
      storeWord receiveIPCBuffer (i + 1) v)
  else ret tt.

Definition Arch_setMRs_fault (sender receiver receiveIPCBuffer : Z) (f : seL4_Fault) : K Z :=
  match f with
  | seL4_Fault_VMFault address FSR instructionFault =>
      let* pc := getRestartPC sender in
      let* _ := setMR receiver receiveIPCBuffer 0 pc in
      let* _ := setMR receiver receiveIPCBuffer 1 address in
      let* _ := setMR receiver receiveIPCBuffer 2 (Z.b2z instructionFault) in
      setMR receiver receiveIPCBuffer 3 FSR
  | _ => fail
  end.

Definition setMRs_fault (sender receiver receiveIPCBuffer : Z) : K Z :=
  let* t := getTCB sender in
  match tcbFault t with
  | seL4_Fault_CapFault address inReceivePhase =>
      let* pc := getRestartPC sender in
      let* _ := setMR receiver receiveIPCBuffer seL4_CapFault_IP pc in
      let* _ := setMR receiver receiveIPCBuffer seL4_CapFault_Addr address in
      let* _ := setMR receiver receiveIPCBuffer seL4_CapFault_InRecvPhase (Z.b2z inReceivePhase) in
      setMRs_lookup_failure receiver receiveIPCBuffer (tcbLookupFailure t)
        seL4_CapFault_LookupFailureType
  | seL4_Fault_UnknownSyscall n =>
      copyMRsFault sender receiver MessageID_Syscall n_syscallMessage receiveIPCBuffer ;;;
      setMR receiver receiveIPCBuffer n_syscallMessage n
  | seL4_Fault_UserException number code =>
      copyMRsFault sender receiver MessageID_Exception n_exceptionMessage receiveIPCBuffer ;;;
      let* _ := setMR receiver receiveIPCBuffer n_exceptionMessage number in
      setMR receiver receiveIPCBuffer (n_exceptionMessage + 1) code
  | f => Arch_setMRs_fault sender receiver receiveIPCBuffer f
  end.

Definition Arch_handleFaultReply (receiver sender : Z) (f : seL4_Fault) : K bool :=
  match f with seL4_Fault_VMFault _ _ _ => ret true | _ => fail end.

Definition handleFaultReply (receiver sender : Z) : K bool :=
  let* w := getRegister sender msgInfoRegister in
  let tag := messageInfoFromWord w in
  let label := seL4_MessageInfo_get_label tag in
  let length := seL4_MessageInfo_get_length tag in
  let* r := getTCB receiver in
  match tcbFault r with
  | seL4_Fault_CapFault _ _ => ret true
  | seL4_Fault_UnknownSyscall _ =>
      copyMRsFaultReply sender receiver MessageID_Syscall (Z.min length n_syscallMessage) ;;;
      ret (label =? 0)
  | seL4_Fault_UserException _ _ =>
      copyMRsFaultReply sender receiver MessageID_Exception (Z.min length n_exceptionMessage) ;;;
      ret (label =? 0)
  | f => Arch_handleFaultReply receiver sender f
  end.

(** ** Arguments

    An argument is a register of the caller or a word of its buffer. *)
Definition user_word (s : kstate) (t : tcb) (v : Z) : Prop :=
  (exists r, v = reg t r) \/ (exists a, v = mem_word (ksMem s) a).

Lemma wp_getSyscallArg s i buffer t (Q : Z -> kstate -> Prop) :
  0 <= i -> ksTCBs s !! ksCurThread s = Some t -> buffer <> 0 ->
  (forall v, user_word s t v -> Q v s) -> wp (getSyscallArg i buffer) Q s.
Proof.
  intros Hi Ht Hb HQ. unfold getSyscallArg, n_msgRegisters. destruct (Z.ltb_spec i 4).
  - wp_struct. apply wp_gets. wp_struct.
    assert (i = 0 \/ i = 1 \/ i = 2 \/ i = 3) as Hc by lia.
    destruct Hc as [->|[->|[->| ->]]]; apply wp_ret; cbv beta; unfold getRegister;
      wp_struct; (eapply wp_getTCB; [exact Ht|]); apply wp_ret, HQ; left; eauto.
  - wp_struct. apply wp_assert; [by apply negb_true_iff, Z.eqb_neq|]. apply wp_gets, HQ. right. eauto.
Qed.
