(* ===== verification/Objects.v ===== *)
(** * Endpoint queues, notifications and thread cancellation

    The intrusive queues of src/object/tcb.c, src/object/notification.c, the
    cancelling half of src/object/endpoint.c, [finaliseCap] of
    src/object/objecttype.c and [suspend]/[restart] of src/kernel/thread.c.

    [finaliseCap] and [cancelIPC] call each other through [cteDeleteOne]; the
    inner call is always made with [exposed] set and then fails before it can
    reach a thread or an IRQ handler.  [finaliseCap_with] takes those two
    cases as arguments so that the functions can be defined in order;
    [finaliseCap_exposed] shows that they do not matter when [exposed]. *)
From S2P Require Import Prelude Dll Structures CapOps CSpace VSpace Sched Mdb Messages.
From stdpp Require Import base list sets gmap.
#[local] Open Scope Z_scope.

(** ** Endpoint queues (tcb.c) *)
Definition tcbEPAppend (tcb : Z) (queue : tcb_queue) : K tcb_queue :=
  let* queue1 :=
    if q_head queue =? 0 then ret (mk_queue tcb (q_end queue))
    else modTCB (q_end queue) (set_tcbEPNext (fun _ => tcb)) ;;; ret queue in
  modTCB tcb (set_tcbEPPrev (fun _ => q_end queue1)) ;;;
  modTCB tcb (set_tcbEPNext (fun _ => 0)) ;;;
  ret (mk_queue (q_head queue1) tcb).

Definition tcbEPDequeue (tcb : Z) (queue : tcb_queue) : K tcb_queue :=
  let* t := getTCB tcb in
  let* queue1 :=
    if negb (tcbEPPrev t =? 0) then
      modTCB (tcbEPPrev t) (set_tcbEPNext (fun _ => tcbEPNext t)) ;;; ret queue
    else ret (mk_queue (tcbEPNext t) (q_end queue)) in
  let* t1 := getTCB tcb in
  if negb (tcbEPNext t1 =? 0) then
    modTCB (tcbEPNext t1) (set_tcbEPPrev (fun _ => tcbEPPrev t1)) ;;; ret queue1
  else ret (mk_queue (q_head queue1) (tcbEPPrev t1)).

Definition ep_ptr_get_queue (epptr : Z) : K tcb_queue :=
  let* e := getEP epptr in ret (mk_queue (epQueue_head e) (epQueue_tail e)).
Definition ep_ptr_set_queue (epptr : Z) (q : tcb_queue) : K unit :=
  modEP epptr (set_epQueue_head (fun _ => q_head q)) ;;;
  modEP epptr (set_epQueue_tail (fun _ => q_end q)).
Definition endpoint_ptr_set_state (epptr : Z) (st : endpoint_state) : K unit :=
  modEP epptr (set_ep_state (fun _ => st)).

Definition ntfn_ptr_get_queue (ntfnPtr : Z) : K tcb_queue :=
  let* n := getNTFN ntfnPtr in ret (mk_queue (ntfnQueue_head n) (ntfnQueue_tail n)).
Definition ntfn_ptr_set_queue (ntfnPtr : Z) (q : tcb_queue) : K unit :=
  modNTFN ntfnPtr (set_ntfnQueue_head (fun _ => q_head q)) ;;;
  modNTFN ntfnPtr (set_ntfnQueue_tail (fun _ => q_end q)).
Definition notification_ptr_set_state (ntfnPtr : Z) (st : notification_state) : K unit :=
  modNTFN ntfnPtr (set_ntfn_state (fun _ => st)).

(** Fuel for the loops that follow [tcbEPNext]: no list is longer than the
    number of threads. *)
Definition tcb_fuel (s : kstate) : nat := S (size (ksTCBs s)).

(** [for (; thread; thread = thread->tcbEPNext) body(thread)] *)
Fixpoint ep_loop (fuel : nat) (thread : Z) (body : Z -> K unit) : K unit :=
  match fuel with
  | O => fail
  | S fuel' =>
      if thread =? 0 then ret tt
      else
        body thread ;;;
        let* t := getTCB thread in
        ep_loop fuel' (tcbEPNext t) body
  end.

Definition restart_waiter (thread : Z) : K unit :=
  setThreadState thread ThreadState_Restart ;;;
  tcbSchedEnqueue thread.

(** ** Cancelling everything on an endpoint or notification *)
Definition cancelAllIPC (epptr : Z) : K unit :=
  let* e := getEP epptr in
  match ep_state e with
  | EPState_Idle => ret tt
  | _ =>
      let thread := epQueue_head e in
      endpoint_ptr_set_state epptr EPState_Idle ;;;
      modEP epptr (set_epQueue_head (fun _ => 0)) ;;;
      modEP epptr (set_epQueue_tail (fun _ => 0)) ;;;
      let* fuel := gets tcb_fuel in
      ep_loop fuel thread restart_waiter ;;;
      rescheduleRequired
  end.

Definition cancelAllSignals (ntfnPtr : Z) : K unit :=
  let* n := getNTFN ntfnPtr in
  if bool_decide (ntfn_state n = NtfnState_Waiting) then
    let thread := ntfnQueue_head n in
    notification_ptr_set_state ntfnPtr NtfnState_Idle ;;;
    modNTFN ntfnPtr (set_ntfnQueue_head (fun _ => 0)) ;;;
    modNTFN ntfnPtr (set_ntfnQueue_tail (fun _ => 0)) ;;;
    let* fuel := gets tcb_fuel in
    ep_loop fuel thread restart_waiter ;;;
    rescheduleRequired
  else ret tt.

(** The loop of [cancelBadgedSends] with the local [queue] as accumulator. *)
Fixpoint cancelBadgedSends_loop (fuel : nat) (thread badge : Z) (queue : tcb_queue) : K tcb_queue :=
  match fuel with
  | O => fail
  | S fuel' =>
      if thread =? 0 then ret queue
      else
        let* t := getTCB thread in
        let b := blockingIPCBadge (tcbState t) in
        let next := tcbEPNext t in
        let* queue' :=
          if b =? badge then
            setThreadState thread ThreadState_Restart ;;;
            tcbSchedEnqueue thread ;;;
            tcbEPDequeue thread queue
          else ret queue in
        cancelBadgedSends_loop fuel' next badge queue'
  end.

Definition cancelBadgedSends (epptr badge : Z) : K unit :=
  let* e := getEP epptr in
  match ep_state e with
  | EPState_Idle | EPState_Recv => ret tt
  | EPState_Send =>
      let* queue := ep_ptr_get_queue epptr in
      endpoint_ptr_set_state epptr EPState_Idle ;;;
      modEP epptr (set_epQueue_head (fun _ => 0)) ;;;
      modEP epptr (set_epQueue_tail (fun _ => 0)) ;;;
      let* fuel := gets tcb_fuel in
      let* queue' := cancelBadgedSends_loop fuel (q_head queue) badge queue in
      ep_ptr_set_queue epptr queue' ;;;
      (if negb (q_head queue' =? 0) then endpoint_ptr_set_state epptr EPState_Send else ret tt) ;;;
      rescheduleRequired
  end.

(** ** Binding a notification *)
Definition doUnbindNotification (ntfnPtr tcbptr : Z) : K unit :=
  modNTFN ntfnPtr (set_ntfnBoundTCB (fun _ => 0)) ;;;
  modTCB tcbptr (set_tcbBoundNotification (fun _ => 0)).

Definition unbindMaybeNotification (ntfnPtr : Z) : K unit :=
  let* n := getNTFN ntfnPtr in
  if negb (ntfnBoundTCB n =? 0) then doUnbindNotification ntfnPtr (ntfnBoundTCB n) else ret tt.

Definition unbindNotification (tcb : Z) : K unit :=
  let* t := getTCB tcb in
  if negb (tcbBoundNotification t =? 0) then doUnbindNotification (tcbBoundNotification t) tcb
  else ret tt.

Definition bindNotification (tcb ntfnPtr : Z) : K unit :=
  modNTFN ntfnPtr (set_ntfnBoundTCB (fun _ => tcb)) ;;;
  modTCB tcb (set_tcbBoundNotification (fun _ => ntfnPtr)).

(** ** Finalising a capability *)
Definition Arch_finaliseCap (c : cap) (final : bool) : K (cap * cap) :=
  (match c with
   | cap_asid_pool_cap base pool => if final then deleteASIDPool base pool else ret tt
   | cap_vspace_cap asid base mapped =>
       if final && mapped then deleteASID asid base else ret tt
   | cap_page_table_cap asid base mapped vaddr =>
       if final && mapped then unmapPageTable asid vaddr base else ret tt
   | cap_frame_cap asid base sz vaddr _ _ =>
       if negb (asid =? 0) then unmapPage sz asid vaddr base else ret tt
   | _ => ret tt
   end) ;;;
  ret (cap_null_cap, cap_null_cap).

(** Pairs are [(remainder, cleanupInfo)]. *)
Definition finaliseCap_with (thread_case irq_case : Z -> K unit)
    (c : cap) (final exposed : bool) : K (cap * cap) :=
  let done := ret (cap_null_cap, cap_null_cap) in
  if isArchCap c then Arch_finaliseCap c final
  else match c with
  | cap_endpoint_cap _ _ _ _ _ ptr =>
      (if final then cancelAllIPC ptr else ret tt) ;;; done
  | cap_notification_cap _ _ _ ptr =>
      (if final then unbindMaybeNotification ptr ;;; cancelAllSignals ptr else ret tt) ;;; done
  | cap_reply_cap _ _ _ | cap_null_cap | cap_domain_cap => done
  | _ =>
      if exposed then fail
      else match c with
      | cap_cnode_cap radix _ _ ptr =>
          if final then ret (Zombie_new (wshl 1 radix) radix ptr, cap_null_cap) else done
      | cap_thread_cap tcb =>
          if final then
            let cte_ptr := TCB_PTR_CTE_PTR tcb tcbCTable in
            thread_case tcb ;;;
            ret (Zombie_new tcbArchCNodeEntries ZombieType_ZombieTCB cte_ptr, cap_null_cap)
          else done
      | cap_zombie_cap _ _ => ret (c, cap_null_cap)
      | cap_irq_handler_cap irq =>
          if final then irq_case irq ;;; ret (cap_null_cap, c) else done
      | _ => done
      end
  end.

(** [None] is the failing default branch. *)
Definition capRemovable (c : cap) (slot : Z) : option bool :=
  match c with
  | cap_null_cap => Some true
  | cap_zombie_cap id type =>
      let n := cap_zombie_cap_get_capZombieNumber id type in
      let z_slot := cap_zombie_cap_get_capZombiePtr id type in
      Some ((n =? 0) || ((n =? 1) && (slot =? z_slot)))
  | _ => None
  end.

Definition cteDeleteOne (slot : Z) : K unit :=
  let* c := getCTE slot in
  if negb (cap_is_null (cte_cap c)) then
    let* final := isFinalCapability slot in
    let* (remainder, cleanupInfo) :=
      finaliseCap_with (fun _ => fail) (fun _ => fail) (cte_cap c) final true in
    let* removable := from_option_M (capRemovable remainder slot) in
    assert (removable && cap_is_null cleanupInfo) ;;;
    emptySlot slot cap_null_cap
  else ret tt.

(** ** Cancelling one thread *)
Definition cancelSignal (threadPtr ntfnPtr : Z) : K unit :=
  let* n := getNTFN ntfnPtr in
  assert (bool_decide (ntfn_state n = NtfnState_Waiting)) ;;;
  let* q := ntfn_ptr_get_queue ntfnPtr in
  let* q' := tcbEPDequeue threadPtr q in
  ntfn_ptr_set_queue ntfnPtr q' ;;;
  (if q_head q' =? 0 then notification_ptr_set_state ntfnPtr NtfnState_Idle else ret tt) ;;;
  setThreadState threadPtr ThreadState_Inactive.

Definition cancelIPC (tptr : Z) : K unit :=
  let* t := getTCB tptr in
  match tsType_of t with
  | ThreadState_BlockedOnSend | ThreadState_BlockedOnReceive =>
      let epptr := blockingObject (tcbState t) in
      let* e := getEP epptr in
      assert (negb (bool_decide (ep_state e = EPState_Idle))) ;;;
      let* queue := ep_ptr_get_queue epptr in
      let* queue' := tcbEPDequeue tptr queue in
      ep_ptr_set_queue epptr queue' ;;;
      (if q_head queue' =? 0 then endpoint_ptr_set_state epptr EPState_Idle else ret tt) ;;;
      setThreadState tptr ThreadState_Inactive
  | ThreadState_BlockedOnNotification => cancelSignal tptr (blockingObject (tcbState t))
  | ThreadState_BlockedOnReply =>
      modTCB tptr (set_tcbFault (fun _ => seL4_Fault_NullFault)) ;;;
      let* slot := getCTE (TCB_PTR_CTE_PTR tptr tcbReply) in
      let callerCap := mdbNext (cteMDBNode slot) in
      if negb (callerCap =? 0) then cteDeleteOne callerCap else ret tt
  | _ => ret tt
  end.

(** ** Suspending and restarting (thread.c) *)
Definition suspend (target : Z) : K unit :=
  cancelIPC target ;;;
  let* t := getTCB target in
  (if bool_decide (tsType_of t = ThreadState_Running) then updateRestartPC target else ret tt) ;;;
  tcbSchedDequeue target ;;;
  setThreadState target ThreadState_Inactive.

Definition restart (target : Z) : K unit :=
  let* t := getTCB target in
  if isStopped_tcb t then
    cancelIPC target ;;;
    setupReplyMaster target ;;;
    setThreadState target ThreadState_Restart ;;;
    tcbSchedEnqueue target ;;;
    possibleSwitchTo target
  else ret tt.

(** ** The real [finaliseCap] *)
Definition Arch_prepareThreadDelete (thread : Z) : K unit := fpuRelease thread.

Definition finalise_thread (tcb : Z) : K unit :=
  unbindNotification tcb ;;;
  suspend tcb ;;;
  Arch_prepareThreadDelete tcb.

Definition irq_slot (irq : Z) : K Z := gets (fun s => cte_offset (intStateIRQNode s) irq).

Definition deletingIRQHandler (irq : Z) : K unit :=
  let* slot := irq_slot irq in cteDeleteOne slot.

Definition finaliseCap : cap -> bool -> bool -> K (cap * cap) :=
  finaliseCap_with finalise_thread deletingIRQHandler.

(** With [exposed] the two deferred cases are never reached. *)
Lemma finaliseCap_exposed f g c final :
  finaliseCap_with f g c final true = finaliseCap c final true.
Proof. by destruct c. Qed.

(** ** Notifications (notification.c) *)
Definition ntfn_set_active (ntfnPtr badge : Z) : K unit :=
  notification_ptr_set_state ntfnPtr NtfnState_Active ;;;
  modNTFN ntfnPtr (set_ntfnMsgIdentifier (fun _ => badge)).

Definition sendSignal (ntfnPtr badge : Z) : K unit :=
  let* n := getNTFN ntfnPtr in
  match ntfn_state n with
  | NtfnState_Idle =>
      let tcb := ntfnBoundTCB n in
      if negb (tcb =? 0) then
        let* t := getTCB tcb in
        if bool_decide (tsType_of t = ThreadState_BlockedOnReceive) then
          cancelIPC tcb ;;;
          setThreadState tcb ThreadState_Running ;;;
          setRegister tcb badgeRegister badge ;;;
          possibleSwitchTo tcb
        else ntfn_set_active ntfnPtr badge
      else ntfn_set_active ntfnPtr badge
  | NtfnState_Waiting =>
      let* q := ntfn_ptr_get_queue ntfnPtr in
      let dest := q_head q in
      assert (negb (dest =? 0)) ;;;
      let* q' := tcbEPDequeue dest q in
      ntfn_ptr_set_queue ntfnPtr q' ;;;
      (if q_head q' =? 0 then notification_ptr_set_state ntfnPtr NtfnState_Idle else ret tt) ;;;
      setThreadState dest ThreadState_Running ;;;
      setRegister dest badgeRegister badge ;;;
      possibleSwitchTo dest
  | NtfnState_Active =>
      let badge2 := Z.lor (ntfnMsgIdentifier n) badge in
      modNTFN ntfnPtr (set_ntfnMsgIdentifier (fun _ => badge2))
  end.

Definition doNBRecvFailedTransfer (thread : Z) : K unit := setRegister thread badgeRegister 0.

Definition receiveSignal (thread : Z) (c : cap) (isBlocking : bool) : K unit :=
  match c with
  | cap_notification_cap _ _ _ ntfnPtr =>
      let* n := getNTFN ntfnPtr in
      match ntfn_state n with
      | NtfnState_Idle | NtfnState_Waiting =>
          if isBlocking then
            modTCB thread (upd_state (set_tsType (fun _ => ThreadState_BlockedOnNotification))) ;;;
            modTCB thread (upd_state (set_blockingObject (fun _ => ntfnPtr))) ;;;
            scheduleTCB thread ;;;
            let* q := ntfn_ptr_get_queue ntfnPtr in
            let* q' := tcbEPAppend thread q in
            notification_ptr_set_state ntfnPtr NtfnState_Waiting ;;;
            ntfn_ptr_set_queue ntfnPtr q'
          else doNBRecvFailedTransfer thread
      | NtfnState_Active =>
          setRegister thread badgeRegister (ntfnMsgIdentifier n) ;;;
          notification_ptr_set_state ntfnPtr NtfnState_Idle
      end
  | _ => fail
  end.

Definition completeSignal (ntfnPtr tcb : Z) : K unit :=
  let* n := getNTFN ntfnPtr in
  if negb (tcb =? 0) && bool_decide (ntfn_state n = NtfnState_Active) then
    setRegister tcb badgeRegister (ntfnMsgIdentifier n) ;;;
    notification_ptr_set_state ntfnPtr NtfnState_Idle
  else fail.
