(* ===== verification/Ipc.v ===== *)
(** * Inter-process communication

    Message transfer (src/kernel/thread.c), the endpoint operations of
    src/object/endpoint.c, caller capabilities (src/object/tcb.c) and fault
    delivery (src/kernel/faulthandler.c). *)
From S2P Require Import Prelude Dll Structures CapOps CSpace VSpace Sched Mdb Messages Objects.
From stdpp Require Import base list sets gmap.
#[local] Open Scope Z_scope.

(** ** Caller capabilities *)
Definition setupCallerCap (sender receiver : Z) (canGrant : bool) : K unit :=
  setThreadState sender ThreadState_BlockedOnReply ;;;
  let replySlot := TCB_PTR_CTE_PTR sender tcbReply in
  let* r := getCTE replySlot in
  (match cte_cap r with
   | cap_reply_cap g master tcb =>
       assert master ;;; assert g ;;; assert (tcb =? sender)
   | _ => fail
   end) ;;;
  let callerSlot := TCB_PTR_CTE_PTR receiver tcbCaller in
  let* c := getCTE callerSlot in
  assert (cap_is_null (cte_cap c)) ;;;
  cteInsert (cap_reply_cap canGrant false sender) replySlot callerSlot.

Definition deleteCallerCap (receiver : Z) : K unit :=
  cteDeleteOne (TCB_PTR_CTE_PTR receiver tcbCaller).

(** ** Capability transfer

    [endpoint] is [0] for a reply.  The loop carries [info] and [destSlot];
    [n] bounds the remaining iterations and [i] is the loop counter at exit. *)
Fixpoint transferCaps_loop (n : nat) (i info endpoint destSlot receiveBuffer : Z) : K (Z * Z) :=
  match n with
  | O => ret (info, i)
  | S n' =>
      let* ref := excaprefs (Z.to_nat i) in
      match ref with
      | None => ret (info, i)
      | Some slot =>
          let* c := getCTE slot in
          let is_ep := match cte_cap c with
                       | cap_endpoint_cap _ _ _ _ _ ptr => ptr =? endpoint
                       | _ => false
                       end in
          if (is_ep : bool) then
            let* badge := from_option_M (cap_endpoint_cap_get_capEPBadge (cte_cap c)) in
            setExtraBadge receiveBuffer badge i ;;;
            let info' := seL4_MessageInfo_set_capsUnwrapped info
                           (Z.lor (seL4_MessageInfo_get_capsUnwrapped info) (wshl 1 i)) in
            transferCaps_loop n' (i + 1) info' endpoint destSlot receiveBuffer
          else if destSlot =? 0 then ret (info, i)
          else
            let* (status, newcap) := deriveCap slot (cte_cap c) in
            if negb (is_none status) then ret (info, i)
            else if cap_is_null newcap then ret (info, i)
            else
              cteInsert newcap slot destSlot ;;;
              transferCaps_loop n' (i + 1) info endpoint 0 receiveBuffer
      end
  end.

Definition transferCaps (info endpoint receiver receiveBuffer : Z) : K Z :=
  let info1 := seL4_MessageInfo_set_extraCaps info 0 in
  let info2 := seL4_MessageInfo_set_capsUnwrapped info1 0 in
  let* ref := excaprefs 0 in
  if (match ref with None => true | Some _ => false end) || (receiveBuffer =? 0) then ret info2
  else
    let* destSlot := getReceiveSlots receiver receiveBuffer in
    let* (info3, i) :=
      transferCaps_loop (Z.to_nat seL4_MsgMaxExtraCaps) 0 info2 endpoint destSlot receiveBuffer in
    ret (seL4_MessageInfo_set_extraCaps info3 i).

(** ** Message transfer *)
Definition doNormalTransfer (sender sendBuffer endpoint badge : Z) (canGrant : bool)
    (receiver receiveBuffer : Z) : K unit :=
  let* w := getRegister sender msgInfoRegister in
  let tag := messageInfoFromWord w in
  (if canGrant then
     let* status := lookupExtraCaps sender sendBuffer tag in
     if negb (is_none status) then set_extra_caps [] else ret tt
   else set_extra_caps []) ;;;
  let* msgTransferred :=
    copyMRs sender sendBuffer receiver receiveBuffer (seL4_MessageInfo_get_length tag) in
  let* tag1 := transferCaps tag endpoint receiver receiveBuffer in
  let tag2 := seL4_MessageInfo_set_length tag1 msgTransferred in
  setRegister receiver msgInfoRegister (wordFromMessageInfo tag2) ;;;
  setRegister receiver badgeRegister badge.

Definition doFaultTransfer (badge sender receiver receiverIPCBuffer : Z) : K unit :=
  let* sent := setMRs_fault sender receiver receiverIPCBuffer in
  let* t := getTCB sender in
  let msgInfo := seL4_MessageInfo_new (seL4_Fault_get_seL4_FaultType (tcbFault t)) 0 0 sent in
  setRegister receiver msgInfoRegister (wordFromMessageInfo msgInfo) ;;;
  setRegister receiver badgeRegister badge.

Definition is_NullFault (f : seL4_Fault) : bool :=
  match f with seL4_Fault_NullFault => true | _ => false end.

Definition doIPCTransfer (sender endpoint badge : Z) (grant : bool) (receiver : Z) : K unit :=
  let* receiveBuffer := lookupIPCBuffer true receiver in
  let* t := getTCB sender in
  if is_NullFault (tcbFault t) then
    let* sendBuffer := lookupIPCBuffer false sender in
    doNormalTransfer sender sendBuffer endpoint badge grant receiver receiveBuffer
  else doFaultTransfer badge sender receiver receiveBuffer.

Definition doReplyTransfer (sender receiver slot : Z) (grant : bool) : K unit :=
  let* r := getTCB receiver in
  assert (bool_decide (tsType_of r = ThreadState_BlockedOnReply)) ;;;
  if is_NullFault (tcbFault r) then
    doIPCTransfer sender 0 0 grant receiver ;;;
    cteDeleteOne slot ;;;
    setThreadState receiver ThreadState_Running ;;;
    possibleSwitchTo receiver
  else
    cteDeleteOne slot ;;;
    let* restart := handleFaultReply receiver sender in
    modTCB receiver (set_tcbFault (fun _ => seL4_Fault_NullFault)) ;;;
    if (restart : bool) then
      setThreadState receiver ThreadState_Restart ;;;
      possibleSwitchTo receiver
    else setThreadState receiver ThreadState_Inactive.

(** ** Endpoints *)
Definition sendIPC (blocking do_call : bool) (badge : Z) (canGrant canGrantReply : bool)
    (thread epptr : Z) : K unit :=
  let* e := getEP epptr in
  match ep_state e with
  | EPState_Idle | EPState_Send =>
      if blocking then
        modTCB thread (upd_state (set_tsType (fun _ => ThreadState_BlockedOnSend))) ;;;
        modTCB thread (upd_state (set_blockingObject (fun _ => epptr))) ;;;
        modTCB thread (upd_state (set_blockingIPCBadge (fun _ => badge))) ;;;
        modTCB thread (upd_state (set_blockingIPCCanGrant (fun _ => canGrant))) ;;;
        modTCB thread (upd_state (set_blockingIPCCanGrantReply (fun _ => canGrantReply))) ;;;
        modTCB thread (upd_state (set_blockingIPCIsCall (fun _ => do_call))) ;;;
        scheduleTCB thread ;;;
        let* queue := ep_ptr_get_queue epptr in
        let* queue' := tcbEPAppend thread queue in
        endpoint_ptr_set_state epptr EPState_Send ;;;
        ep_ptr_set_queue epptr queue'
      else ret tt
  | EPState_Recv =>
      let* queue := ep_ptr_get_queue epptr in
      let dest := q_head queue in
      assert (negb (dest =? 0)) ;;;
      let* queue' := tcbEPDequeue dest queue in
      ep_ptr_set_queue epptr queue' ;;;
      (if q_head queue' =? 0 then endpoint_ptr_set_state epptr EPState_Idle else ret tt) ;;;
      doIPCTransfer thread epptr badge canGrant dest ;;;
      let* d := getTCB dest in
      let replyCanGrant := blockingIPCCanGrant (tcbState d) in
      setThreadState dest ThreadState_Running ;;;
      possibleSwitchTo dest ;;;
      if do_call then
        if canGrant || canGrantReply then setupCallerCap thread dest replyCanGrant
        else setThreadState thread ThreadState_Inactive
      else ret tt
  end.

Definition receiveIPC (thread : Z) (c : cap) (isBlocking : bool) : K unit :=
  match c with
  | cap_endpoint_cap _ _ capCanGrant _ _ epptr =>
      let* t := getTCB thread in
      let ntfnPtr := tcbBoundNotification t in
      let* active :=
        if negb (ntfnPtr =? 0) then
          let* n := getNTFN ntfnPtr in ret (bool_decide (ntfn_state n = NtfnState_Active))
        else ret false in
      if (active : bool) then completeSignal ntfnPtr thread
      else
        let* e := getEP epptr in
        match ep_state e with
        | EPState_Idle | EPState_Recv =>
            if isBlocking then
              modTCB thread (upd_state (set_tsType (fun _ => ThreadState_BlockedOnReceive))) ;;;
              modTCB thread (upd_state (set_blockingObject (fun _ => epptr))) ;;;
              modTCB thread (upd_state (set_blockingIPCCanGrant (fun _ => capCanGrant))) ;;;
              scheduleTCB thread ;;;
              let* queue := ep_ptr_get_queue epptr in
              let* queue' := tcbEPAppend thread queue in
              endpoint_ptr_set_state epptr EPState_Recv ;;;
              ep_ptr_set_queue epptr queue'
            else doNBRecvFailedTransfer thread
        | EPState_Send =>
            let* queue := ep_ptr_get_queue epptr in
            let sender := q_head queue in
            assert (negb (sender =? 0)) ;;;
            let* queue' := tcbEPDequeue sender queue in
            ep_ptr_set_queue epptr queue' ;;;
            (if q_head queue' =? 0 then endpoint_ptr_set_state epptr EPState_Idle else ret tt) ;;;
            let* st := getTCB sender in
            let badge := blockingIPCBadge (tcbState st) in
            let canGrant := blockingIPCCanGrant (tcbState st) in
            let canGrantReply := blockingIPCCanGrantReply (tcbState st) in
            doIPCTransfer sender epptr badge canGrant thread ;;;
            let* st' := getTCB sender in
            let do_call := blockingIPCIsCall (tcbState st') in
            if do_call then
              if canGrant || canGrantReply then setupCallerCap sender thread capCanGrant
              else setThreadState sender ThreadState_Inactive
            else
              setThreadState sender ThreadState_Running ;;;
              possibleSwitchTo sender
        end
  | _ => fail
  end.

(** ** Fault delivery *)
Definition is_CapFault (f : seL4_Fault) : bool :=
  match f with seL4_Fault_CapFault _ _ => true | _ => false end.

Definition sendFaultIPC (tptr : Z) : K exception_t :=
  let* original_lookup_fault := gets current_lookup_fault in
  let* t := getTCB tptr in
  let handlerCPtr := tcbFaultHandler t in
  let* (status, handlerCap) := lookupCap tptr handlerCPtr in
  if negb (is_none status) then
    modify (set_current_fault (fun _ => seL4_Fault_CapFault handlerCPtr false)) ;;;
    ret EXCEPTION_FAULT
  else
    let bad :=
      modify (set_current_fault (fun _ => seL4_Fault_CapFault handlerCPtr false)) ;;;
      modify (set_current_lookup_fault (fun _ => lookup_fault_missing_capability 0)) ;;;
      ret EXCEPTION_FAULT in
    match handlerCap with
    | cap_endpoint_cap badge canGrantReply canGrant canSend _ epptr =>
        if canSend && (canGrant || canGrantReply) then
          let* f := gets current_fault in
          modTCB tptr (set_tcbFault (fun _ => f)) ;;;
          (if is_CapFault f then modTCB tptr (set_tcbLookupFailure (fun _ => original_lookup_fault))
           else ret tt) ;;;
          sendIPC true true badge canGrant true tptr epptr ;;;
          ret EXCEPTION_NONE
        else bad
    | _ => bad
    end.

Definition handleDoubleFault (tptr : Z) (ex1 : seL4_Fault) : K unit :=
  setThreadState tptr ThreadState_Inactive.

Definition handleFault (tptr : Z) : K unit :=
  let* fault := gets current_fault in
  let* status := sendFaultIPC tptr in
  if negb (is_none status) then handleDoubleFault tptr fault else ret tt.
