(* ===== verification/Delete.v ===== *)
(** * Deletion and revocation

    [cteDelete], [finaliseSlot], [reduceZombie] and [cteRevoke] of
    src/object/cnode.c with the preemption point of src/model/preemption.c.

    The three deletion functions call each other: they share one fuel
    argument, consumed at every call and at every turn of the loop of
    [finaliseSlot]. *)
From S2P Require Import Prelude Dll Structures CapOps CSpace VSpace Sched Mdb Messages Objects.
From stdpp Require Import base list sets gmap.
#[local] Open Scope Z_scope.

(** ** Preemption *)

(** The interrupt controller answers with the next element of
    [ksIRQPending]; an exhausted list answers no. *)
Definition isIRQPending : K bool :=
  let* l := gets ksIRQPending in
  modify (set_ksIRQPending (fun l => tail l)) ;;;
  ret (match l with b :: _ => b | [] => false end).

Definition preemptionPoint : K exception_t :=
  modify (set_ksWorkUnitsCompleted (fun n => wadd n 1)) ;;;
  let* n := gets ksWorkUnitsCompleted in
  if CONFIG_MAX_NUM_WORK_UNITS_PER_PREEMPTION <=? n then
    modify (set_ksWorkUnitsCompleted (fun _ => 0)) ;;;
    let* pending := isIRQPending in
    ret (if (pending : bool) then EXCEPTION_PREEMPTED else EXCEPTION_NONE)
  else ret EXCEPTION_NONE.

(** ** Deletion *)
Record finaliseSlot_ret : Type := mk_finaliseSlot_ret {
  fs_status : exception_t; fs_success : bool; fs_cleanupInfo : cap
}.

Definition capCyclicZombie (c : cap) (slot : Z) : bool :=
  match c with
  | cap_zombie_cap id type => cap_zombie_cap_get_capZombiePtr id type =? slot
  | _ => false
  end.

Definition slot_cap (slot : Z) : K cap := let* c := getCTE slot in ret (cte_cap c).

(** [reduceZombie] given the deletion of the last slot of the zombie. *)
Definition reduceZombie_with (delete : Z -> bool -> K exception_t) (slot : Z) (immediate : bool)
    : K exception_t :=
  let* c := slot_cap slot in
  match c with
  | cap_zombie_cap id type =>
      let ptr := cap_zombie_cap_get_capZombiePtr id type in
      let n := cap_zombie_cap_get_capZombieNumber id type in
      assert (0 <? n) ;;;
      if immediate then
        let endSlot := cte_offset ptr (n - 1) in
        let* status := delete endSlot false in
        if negb (is_none status) then ret status
        else
          let* c' := slot_cap slot in
          (match c' with
           | cap_null_cap => ret tt
           | cap_zombie_cap id' type' =>
               let ptr2 := cap_zombie_cap_get_capZombiePtr id' type' in
               if (ptr =? ptr2) && (cap_zombie_cap_get_capZombieNumber id' type' =? n)
                  && (type' =? type) then
                 let* e := slot_cap endSlot in
                 assert (cap_is_null e) ;;;
                 setCap slot (cap_zombie_cap_set_capZombieNumber id' type' (n - 1))
               else assert ((ptr2 =? slot) && negb (ptr =? slot))
           | _ => fail
           end) ;;;
          ret EXCEPTION_NONE
      else
        assert (negb (ptr =? slot)) ;;;
        let* p := slot_cap ptr in
        (match p with
         | cap_zombie_cap id' type' => assert (negb (ptr =? cap_zombie_cap_get_capZombiePtr id' type'))
         | _ => ret tt
         end) ;;;
        capSwapForDelete ptr slot ;;;
        ret EXCEPTION_NONE
  | _ => fail
  end.

(** [finaliseSlot] given the deletion used by [reduceZombie]. *)
Fixpoint finaliseSlot_with (delete : Z -> bool -> K exception_t) (fuel : nat)
    (slot : Z) (immediate : bool) : K finaliseSlot_ret :=
  match fuel with
  | O => fail
  | S fuel' =>
      let* c := slot_cap slot in
      if cap_is_null c then ret (mk_finaliseSlot_ret EXCEPTION_NONE true cap_null_cap)
      else
        let* final := isFinalCapability slot in
        let* (remainder, cleanupInfo) := finaliseCap c final false in
        let* removable := from_option_M (capRemovable remainder slot) in
        if (removable : bool) then ret (mk_finaliseSlot_ret EXCEPTION_NONE true cleanupInfo)
        else
          setCap slot remainder ;;;
          if negb immediate && capCyclicZombie remainder slot then
            ret (mk_finaliseSlot_ret EXCEPTION_NONE false cleanupInfo)
          else
            let* status := reduceZombie_with delete slot immediate in
            if negb (is_none status) then ret (mk_finaliseSlot_ret status false cap_null_cap)
            else
              let* status' := preemptionPoint in
              if negb (is_none status') then ret (mk_finaliseSlot_ret status' false cap_null_cap)
              else finaliseSlot_with delete fuel' slot immediate
  end.

Fixpoint cteDelete (fuel : nat) (slot : Z) (exposed : bool) : K exception_t :=
  match fuel with
  | O => fail
  | S fuel' =>
      let* fs_ret := finaliseSlot_with (cteDelete fuel') fuel slot exposed in
      if negb (is_none (fs_status fs_ret)) then ret (fs_status fs_ret)
      else
        (if exposed || fs_success fs_ret then emptySlot slot (fs_cleanupInfo fs_ret) else ret tt) ;;;
        ret EXCEPTION_NONE
  end.

Definition finaliseSlot (fuel : nat) : Z -> bool -> K finaliseSlot_ret :=
  finaliseSlot_with (cteDelete fuel) (S fuel).
Definition reduceZombie (fuel : nat) : Z -> bool -> K exception_t :=
  reduceZombie_with (cteDelete fuel).

(** ** Revocation *)
Fixpoint cteRevoke (fuel : nat) (slot : Z) : K exception_t :=
  match fuel with
  | O => fail
  | S fuel' =>
      let* c := getCTE slot in
      let nextPtr := mdbNext (cteMDBNode c) in
      if nextPtr =? 0 then ret EXCEPTION_NONE
      else
        let* n := getCTE nextPtr in
        if negb (isMDBParentOf c n) then ret EXCEPTION_NONE
        else
          let* status := cteDelete fuel nextPtr true in
          if negb (is_none status) then ret status
          else
            let* status' := preemptionPoint in
            if negb (is_none status') then ret status'
            else cteRevoke fuel' slot
  end.
