(* ===== verification/Untyped.v ===== *)
(** * Untyped memory

    Retyping: src/object/untyped.c, [createObject] and [createNewObjects] of
    src/object/objecttype.c and [Arch_createObject] of
    src/arch/arm/64/object/objecttype.c.

    The heap of the model is typed.  Memory changes type where the source
    carries an AUXUPD annotation: [resetUntypedCap] makes the whole region
    untyped bytes and [createObject] types the new objects, which are zeroed
    memory read at the new type. *)
From S2P Require Import Prelude Dll Structures CapOps CSpace VSpace Sched Mdb Messages Objects Delete.
From stdpp Require Import base list sets gmap.
#[local] Open Scope Z_scope.

Definition alignUp (baseValue alignment : Z) : Z :=
  Z.land (wadd baseValue (wsub (BIT alignment) 1)) (wnot (MASK alignment)).

Definition ROUND_DOWN (n b : Z) : Z := wshl (Z.shiftr n b) b.

Definition cap_untyped_cap_set_capFreeIndex (c : cap) (v : Z) : cap :=
  match c with
  | cap_untyped_cap _ dev bits ptr => cap_untyped_cap v dev bits ptr
  | _ => c
  end.

(** ** Typing memory *)

(** The addresses of [base .. base + 2^bits). *)
Definition in_region (base bits a : Z) : bool := (base <=? a) && (a <? base + 2 ^ bits).

Definition outside {A} (base bits : Z) (m : gmap Z A) : gmap Z A :=
  filter (fun p => in_region base bits p.1 = false) m.

(** [typ_region_bytes] *)
Definition untype_region (base bits : Z) (s : kstate) : kstate :=
  set_ksCTEs (outside base bits) (set_ksTCBs (outside base bits)
    (set_ksEPs (outside base bits) (set_ksNTFNs (outside base bits)
      (set_ksPTEs (outside base bits) (set_ksASIDPools (outside base bits) s))))).

Definition clearMemory (ptr bits : Z) : K unit :=
  modify (set_ksMem (outside ptr bits)) ;;;
  doMachineOp (op_clearMemory ptr bits).

(** [ptr_arr_retyps n] for [n] zeroed capability slots. *)
Fixpoint null_slots (n : nat) (p : Z) (m : gmap Z cte) : gmap Z cte :=
  match n with
  | O => m
  | S n' => <[cte_offset p (Z.of_nat n') := null_cte]> (null_slots n' p m)
  end.

(** [ptr_retyps] for [n] zeroed page table entries. *)
Fixpoint null_ptes (n : nat) (p : Z) (m : gmap Z pte) : gmap Z pte :=
  match n with
  | O => m
  | S n' => <[pte_offset p (Z.of_nat n') := pte_invalid]> (null_ptes n' p m)
  end.

Definition TCB_OFFSET : Z := BIT TCB_SIZE_BITS.

(** ** Object creation *)
Definition create_frame (sz : vm_page_size) (regionBase : Z) (deviceMemory : bool) : K cap :=
  (if deviceMemory then ret tt
   else cleanCacheRange_RAM regionBase (wadd regionBase (MASK (pageBitsForSize sz))) (addrFromPPtr regionBase)) ;;;
  ret (cap_frame_cap asidInvalid regionBase sz 0 VMReadWrite deviceMemory).

Definition Arch_createObject (t regionBase userSize : Z) (deviceMemory : bool) : K cap :=
  if t =? seL4_ARM_SmallPageObject then create_frame ARMSmallPage regionBase deviceMemory
  else if t =? seL4_ARM_LargePageObject then create_frame ARMLargePage regionBase deviceMemory
  else if t =? seL4_ARM_HugePageObject then create_frame ARMHugePage regionBase deviceMemory
  else if t =? seL4_ARM_VSpaceObject then
    modify (set_ksPTEs (null_ptes (Z.to_nat (2 ^ seL4_VSpaceIndexBits)) regionBase)) ;;;
    cleanCacheRange_PoU regionBase (wadd regionBase (MASK seL4_VSpaceBits)) (addrFromPPtr regionBase) ;;;
    ret (cap_vspace_cap asidInvalid regionBase false)
  else if t =? seL4_ARM_PageTableObject then
    modify (set_ksPTEs (null_ptes (Z.to_nat (2 ^ PT_INDEX_BITS)) regionBase)) ;;;
    cleanCacheRange_PoU regionBase (wadd regionBase (MASK seL4_PageTableBits)) (addrFromPPtr regionBase) ;;;
    ret (cap_page_table_cap asidInvalid regionBase false 0)
  else fail.

Definition Arch_initContext (t : tcb) : tcb := set_tcbContext (insert SPSR_EL1 PSTATE_USER) t.

Definition createObject (t regionBase userSize : Z) (deviceMemory : bool) : K cap :=
  if seL4_NonArchObjectTypeCount <=? t then Arch_createObject t regionBase userSize deviceMemory
  else if t =? seL4_TCBObject then
    let tcb := wadd regionBase TCB_OFFSET in
    modify (set_ksCTEs (null_slots (Z.to_nat tcbCNodeEntries) regionBase)) ;;;
    putTCB tcb zero_tcb ;;;
    modTCB tcb Arch_initContext ;;;
    modTCB tcb (set_tcbTimeSlice (fun _ => CONFIG_TIME_SLICE)) ;;;
    let* dom := gets ksCurDomain in
    modTCB tcb (set_tcbDomain (fun _ => dom)) ;;;
    ret (cap_thread_cap tcb)
  else if t =? seL4_EndpointObject then
    putEP regionBase zero_endpoint ;;;
    ret (cap_endpoint_cap 0 true true true true regionBase)
  else if t =? seL4_NotificationObject then
    putNTFN regionBase zero_notification ;;;
    ret (cap_notification_cap 0 true true regionBase)
  else if t =? seL4_CapTableObject then
    modify (set_ksCTEs (null_slots (Z.to_nat (2 ^ userSize)) regionBase)) ;;;
    ret (cap_cnode_cap userSize 0 0 regionBase)
  else if t =? seL4_UntypedObject then
    ret (cap_untyped_cap 0 deviceMemory userSize regionBase)
  else fail.

Definition createNewObjects (t parent destCNode destOffset destLength regionBase userSize : Z)
    (deviceMemory : bool) : K unit :=
  let* objectSize := from_option_M (getObjectSize t userSize) in
  for_ 0 destLength (fun i =>
    modify (untype_region (wadd regionBase (wshl i objectSize)) objectSize) ;;;
    let* c := createObject t (wadd regionBase (wshl i objectSize)) userSize deviceMemory in
    insertNewCap parent (cte_offset destCNode (wadd destOffset i)) c).

(** ** Resetting *)

(** [for (; offset != -BIT(chunk); offset -= BIT(chunk))] *)
Fixpoint resetUntypedCap_loop (fuel : nat) (offset : Z) (srcSlot : Z) (prev_cap : cap)
    (regionBase chunk : Z) : K exception_t :=
  match fuel with
  | O => fail
  | S fuel' =>
      if offset =? wrap (- BIT chunk) then ret EXCEPTION_NONE
      else
        clearMemory (GET_OFFSET_FREE_PTR regionBase offset) chunk ;;;
        setCap srcSlot (cap_untyped_cap_set_capFreeIndex prev_cap (OFFSET_TO_FREE_INDEX offset)) ;;;
        let* status := preemptionPoint in
        if negb (is_none status) then ret status
        else resetUntypedCap_loop fuel' (wsub offset (BIT chunk)) srcSlot prev_cap regionBase chunk
  end.

Definition resetUntypedCap (srcSlot : Z) : K exception_t :=
  let* prev_cap := slot_cap srcSlot in
  match prev_cap with
  | cap_untyped_cap freeIndex deviceMemory block_size regionBase =>
      let chunk := CONFIG_RESET_CHUNK_BITS in
      let offset := FREE_INDEX_TO_OFFSET freeIndex in
      if offset =? 0 then ret EXCEPTION_NONE
      else
        modify (untype_region regionBase block_size) ;;;
        if deviceMemory || (block_size <? chunk) then
          (if negb deviceMemory then clearMemory regionBase block_size else ret tt) ;;;
          setCap srcSlot (cap_untyped_cap_set_capFreeIndex prev_cap 0) ;;;
          ret EXCEPTION_NONE
        else
          let offset0 := ROUND_DOWN (wsub offset 1) chunk in
          resetUntypedCap_loop (S (S (Z.to_nat (Z.shiftr offset0 chunk)))) offset0 srcSlot prev_cap
            regionBase chunk
  | _ => fail
  end.

(** ** Retype *)
Definition invokeUntyped_Retype (srcSlot : Z) (reset : bool)
    (retypeBase newType userSize destCNode destOffset destLength : Z) (deviceMemory : bool)
    : K exception_t :=
  let* c := slot_cap srcSlot in
  match c with
  | cap_untyped_cap _ _ _ regionBase =>
      let* status := if reset then resetUntypedCap srcSlot else ret EXCEPTION_NONE in
      if negb (is_none status) then ret status
      else
        let* objectSize := from_option_M (getObjectSize newType userSize) in
        let totalObjectSize := wshl destLength objectSize in
        let freeRef := wadd retypeBase totalObjectSize in
        let* c' := slot_cap srcSlot in
        setCap srcSlot (cap_untyped_cap_set_capFreeIndex c' (GET_FREE_INDEX regionBase freeRef)) ;;;
        createNewObjects newType srcSlot destCNode destOffset destLength retypeBase userSize deviceMemory ;;;
        ret EXCEPTION_NONE
  | _ => fail
  end.

Definition UntypedRetype : Z := 1.

Fixpoint ensureEmptySlots (n : nat) (destCNode i : Z) : K exception_t :=
  match n with
  | O => ret EXCEPTION_NONE
  | S n' =>
      let* status := ensureEmptySlot (cte_offset destCNode i) in
      if negb (is_none status) then ret status else ensureEmptySlots n' destCNode (wadd i 1)
  end.

(** Raising a system-call error. *)
Definition sys_error (m : K unit) : K exception_t := m ;;; ret EXCEPTION_SYSCALL_ERROR.

(** Where the objects go in the block: the end of [decodeUntypedInvocation]. *)
Definition decode_allocate (slot : Z) (c : cap)
    (newType userObjSize objectSize destCNode nodeOffset nodeWindow : Z) : K exception_t :=
  let* status := ensureNoChildren slot in
  match c with
  | cap_untyped_cap capFreeIndex deviceMemory blockSize capPtr =>
    let reset := is_none status in
    let freeIndex := if reset then 0 else capFreeIndex in
    let freeRef := GET_FREE_REF capPtr freeIndex in
    let untypedFreeBytes := wsub (BIT blockSize) (FREE_INDEX_TO_OFFSET freeIndex) in
    if Z.shiftr untypedFreeBytes objectSize <? nodeWindow then
      sys_error (set_syscall_error (fun e =>
        set_se_memoryLeft (fun _ => untypedFreeBytes) (set_se_type (fun _ => seL4_NotEnoughMemory) e)))
    else if deviceMemory && negb (Arch_isFrameType newType) && negb (newType =? seL4_UntypedObject) then
      sys_error (syscall_invalidArgument 1)
    else
    let alignedFreeRef := alignUp freeRef objectSize in
    let* cur := gets ksCurThread in
    setThreadState cur ThreadState_Restart ;;;
    invokeUntyped_Retype slot reset alignedFreeRef newType userObjSize destCNode nodeOffset
      nodeWindow deviceMemory
  | _ => fail
  end.

Definition decodeUntypedInvocation (invLabel length slot : Z) (c : cap) (call : bool) (buffer : Z)
    : K exception_t :=
  let* ref0 := excaprefs 0 in
  if negb (invLabel =? UntypedRetype) then sys_error (syscall_error_type seL4_IllegalOperation)
  else match ref0 with
  | None => sys_error (syscall_error_type seL4_TruncatedMessage)
  | Some rootSlot =>
    if length <? 6 then sys_error (syscall_error_type seL4_TruncatedMessage)
    else
    let* newType := getSyscallArg 0 buffer in
    let* userObjSize := getSyscallArg 1 buffer in
    let* nodeIndex := getSyscallArg 2 buffer in
    let* nodeDepth := getSyscallArg 3 buffer in
    let* nodeOffset := getSyscallArg 4 buffer in
    let* nodeWindow := getSyscallArg 5 buffer in
    if seL4_ObjectTypeCount <=? newType then sys_error (syscall_invalidArgument 0)
    else
    let* objectSize := from_option_M (getObjectSize newType userObjSize) in
    if (wordBits <=? userObjSize) || (seL4_MaxUntypedBits <? objectSize) then
      sys_error (syscall_rangeError 0 seL4_MaxUntypedBits)
    else if (newType =? seL4_CapTableObject) && (userObjSize =? 0) then
      sys_error (syscall_invalidArgument 1)
    else if (newType =? seL4_UntypedObject) && (userObjSize <? seL4_MinUntypedBits) then
      sys_error (syscall_invalidArgument 1)
    else
    let* rootCap := slot_cap rootSlot in
    let* (status, nodeCap) :=
      if nodeDepth =? 0 then ret (EXCEPTION_NONE, rootCap)
      else
        let* (st, sl) := lookupTargetSlot rootCap nodeIndex nodeDepth in
        if negb (is_none st) then ret (st, cap_null_cap)
        else let* nc := slot_cap sl in ret (EXCEPTION_NONE, nc) in
    if negb (is_none status) then ret status
    else match nodeCap with
    | cap_cnode_cap radix _ _ destCNode =>
      let nodeSize := wshl 1 radix in
      if wsub nodeSize 1 <? nodeOffset then sys_error (syscall_rangeError 0 (wsub nodeSize 1))
      else if (nodeWindow <? 1) || (CONFIG_RETYPE_FAN_OUT_LIMIT <? nodeWindow) then
        sys_error (syscall_rangeError 1 CONFIG_RETYPE_FAN_OUT_LIMIT)
      else if wsub nodeSize nodeOffset <? nodeWindow then
        sys_error (syscall_rangeError 1 (wsub nodeSize nodeOffset))
      else
      let* status := ensureEmptySlots (Z.to_nat nodeWindow) destCNode nodeOffset in
      if negb (is_none status) then ret status
      else
      decode_allocate slot c newType userObjSize objectSize destCNode nodeOffset nodeWindow
    | _ =>
      syscall_failedLookup false ;;;
      set_lookup_fault (lookup_fault_missing_capability nodeDepth) ;;;
      ret EXCEPTION_SYSCALL_ERROR
    end
  end.
