(* ===== verification/UntypedOps.v ===== *)
(** * Regions of untyped memory

    The arithmetic of free indices and alignment, memory that holds no object
    ([clear]), and what [createObject] puts into it (src/object/untyped.c,
    src/object/objecttype.c). *)
From S2P Require Import Prelude Dll Structures CapOps CSpace VSpace Sched Mdb MdbInv Messages Objects Delete Untyped.
From stdpp Require Import base list sets gmap.
#[local] Open Scope Z_scope.

(** ** Alignment *)
Lemma pow2_pos n : 0 <= n -> 0 < 2 ^ n.
Proof. intros. apply Z.pow_pos_nonneg; lia. Qed.

Lemma pow2_split a b : 0 <= a <= b -> 2 ^ b = 2 ^ (b - a) * 2 ^ a.
Proof. intros. rewrite <- Z.pow_add_r by lia. f_equal. lia. Qed.

Lemma aligned_smaller x a b : 0 <= a <= b -> x mod 2 ^ b = 0 -> x mod 2 ^ a = 0.
Proof.
  intros Hab Hx. pose proof (pow2_pos a). pose proof (pow2_pos b).
  apply Z.mod_divide; [lia|]. apply Z.mod_divide in Hx as [k Hk]; [|lia].
  exists (k * 2 ^ (b - a)). rewrite Hk, (pow2_split a b) by done. lia.
Qed.

(** An untyped capability: a naturally aligned block, and a free index in
    units of the smallest object. *)
Record untyped_wf (fi bits ptr : Z) : Prop := {
  uw_bits : seL4_MinUntypedBits <= bits <= seL4_MaxUntypedBits;
  uw_ptr : 0 < ptr /\ ptr + 2 ^ bits < word_modulus;
  uw_align : ptr mod 2 ^ bits = 0;
  uw_free : 0 <= fi /\ fi * 2 ^ seL4_MinUntypedBits <= 2 ^ bits
}.

(** Where the free part of the block starts. *)
Definition free_ref (fi ptr : Z) : Z := ptr + fi * 2 ^ seL4_MinUntypedBits.

Section FreeIndex.
Context (fi bits ptr : Z) (Hw : untyped_wf fi bits ptr).

Lemma uw_pow : 16 <= 2 ^ bits < word_modulus.
Proof.
  destruct Hw as [Hb _ _ _]. unfold seL4_MinUntypedBits, seL4_MaxUntypedBits in Hb. split.
  - change 16 with (2 ^ 4). apply Z.pow_le_mono_r; lia.
  - change word_modulus with (2 ^ 64). apply Z.pow_lt_mono_r; lia.
Qed.

Lemma FREE_INDEX_TO_OFFSET_val : FREE_INDEX_TO_OFFSET fi = fi * 2 ^ seL4_MinUntypedBits.
Proof.
  pose proof uw_pow. destruct Hw as [_ _ _ [? ?]]. unfold FREE_INDEX_TO_OFFSET, wshl.
  rewrite Z.shiftl_mul_pow2 by done. apply wrap_small. unfold is_word.
  change (2 ^ seL4_MinUntypedBits) with 16 in *. lia.
Qed.

Lemma GET_FREE_REF_val : GET_FREE_REF ptr fi = free_ref fi ptr.
Proof.
  unfold GET_FREE_REF, free_ref. rewrite FREE_INDEX_TO_OFFSET_val. apply wadd_small.
  destruct Hw as [_ [? ?] _ [? ?]]. unfold is_word. change (2 ^ seL4_MinUntypedBits) with 16 in *. lia.
Qed.

(** An address of the block at a multiple of the smallest object. *)
Lemma GET_FREE_INDEX_val a :
  a mod 2 ^ seL4_MinUntypedBits = 0 -> ptr <= a <= ptr + 2 ^ bits ->
  free_ref (GET_FREE_INDEX ptr a) ptr = a /\ untyped_wf (GET_FREE_INDEX ptr a) bits ptr.
Proof.
  intros Ha Hr. pose proof uw_pow. destruct Hw as [Hb [? ?] Hal [? ?]].
  unfold GET_FREE_INDEX. rewrite wsub_small by (unfold is_word; lia). rewrite Z.shiftr_div_pow2 by done.
  assert (Hp : ptr mod 2 ^ seL4_MinUntypedBits = 0) by (eapply aligned_smaller; [|exact Hal]; by destruct Hb).
  unfold free_ref. change (2 ^ seL4_MinUntypedBits) with 16 in *.
  assert (Hd : (a - ptr) mod 16 = 0) by (rewrite Zminus_mod, Ha, Hp; done).
  pose proof (Z.div_mod (a - ptr) 16 ltac:(lia)). split; [lia|].
  split; [done|done|done|]. change (2 ^ seL4_MinUntypedBits) with 16. split; [|lia].
  apply Z.div_pos; lia.
Qed.
End FreeIndex.

Lemma alignUp_val x o :
  0 <= o < wordBits -> 0 <= x -> x + 2 ^ o - 1 < word_modulus ->
  alignUp x o = x + 2 ^ o - 1 - (x + 2 ^ o - 1) mod 2 ^ o.
Proof.
  intros Ho Hx Hm. pose proof (pow2_pos o ltac:(lia)). pose proof (pow2_is_word o Ho) as [_ Hw].
  unfold alignUp. rewrite BIT_pow by done. rewrite (wsub_small (2 ^ o)) by (unfold is_word; lia).
  rewrite wadd_small by (unfold is_word; lia). rewrite land_wnot_MASK; [|unfold is_word; lia|done].
  by replace (x + (2 ^ o - 1)) with (x + 2 ^ o - 1) by lia.
Qed.

(** What the comment in [decodeUntypedInvocation] says: if the objects fit in
    the free bytes they also fit after aligning the start up. *)
Lemma retype_fits fi bits ptr o n :
  untyped_wf fi bits ptr -> 0 <= o < wordBits -> 1 <= n ->
  n <= Z.shiftr (wsub (BIT bits) (FREE_INDEX_TO_OFFSET fi)) o ->
  let base := alignUp (GET_FREE_REF ptr fi) o in
  base mod 2 ^ o = 0 /\ free_ref fi ptr <= base /\ base + n * 2 ^ o <= ptr + 2 ^ bits.
Proof.
  intros Hw Ho Hn Hfit. cbv zeta. rewrite (GET_FREE_REF_val _ _ _ Hw).
  rewrite (FREE_INDEX_TO_OFFSET_val _ _ _ Hw) in Hfit. pose proof (uw_pow _ _ _ Hw) as Hb.
  destruct Hw as [Hbits [Hp0 Hp] Hal [Hf0 Hf]].
  unfold seL4_MinUntypedBits, seL4_MaxUntypedBits in Hbits.
  rewrite BIT_pow in Hfit by (unfold wordBits; lia).
  set (off := fi * 2 ^ seL4_MinUntypedBits) in *. unfold free_ref. fold off.
  assert (0 <= off) by (unfold off, seL4_MinUntypedBits; lia).
  rewrite wsub_small, Z.shiftr_div_pow2 in Hfit by (unfold is_word; lia).
  pose proof (pow2_pos o ltac:(lia)) as HP. set (P := 2 ^ o) in *.
  pose proof (Z.div_mod (2 ^ bits - off) P ltac:(lia)) as Hdm.
  pose proof (Z.mod_pos_bound (2 ^ bits - off) P HP) as Hr.
  set (q := (2 ^ bits - off) / P) in *. set (r := (2 ^ bits - off) mod P) in *.
  assert (HPF : P <= 2 ^ bits) by nia.
  assert (Hob : o <= bits) by (apply (Z.pow_le_mono_r_iff 2); lia).
  assert (Htop : (ptr + 2 ^ bits) mod P = 0).
  { rewrite Zplus_mod. pose proof (aligned_smaller ptr o bits ltac:(lia) Hal) as Hpm. fold P in Hpm.
    rewrite Hpm, (pow2_split o bits) by lia. fold P. by rewrite Z_mod_mult. }
  assert (Hk : ptr + 2 ^ bits = P * ((ptr + 2 ^ bits) / P)) by (apply Z_div_exact_full_2; lia).
  set (k := (ptr + 2 ^ bits) / P) in *.
  rewrite alignUp_val by (done || fold P; nia). fold P.
  assert (Hm : (ptr + off + P - 1) mod P = P - 1 - r).
  { replace (ptr + off + P - 1) with ((P - 1 - r) + (k - q) * P) by nia. rewrite Z_mod_plus_full.
    apply Z.mod_small. lia. }
  rewrite Hm. replace (ptr + off + P - 1 - (P - 1 - r)) with ((k - q) * P) by nia.
  rewrite Z_mod_mult. split_and!; [done|nia|nia].
Qed.

(** ** Page table entries of new tables *)
Lemma pte_offset_val p i : is_word (p + 2 ^ 12) -> 0 <= p -> 0 <= i < 512 -> pte_offset p i = p + 8 * i.
Proof.
  unfold pte_offset, wshl, is_word, word_modulus. change seL4_PageTableEntryBits with 3. intros Hp H0 Hi.
  rewrite Z.shiftl_mul_pow2 by done. rewrite (wrap_small (i * 2 ^ 3)) by (unfold is_word, word_modulus; lia).
  rewrite wadd_small by (unfold is_word, word_modulus; lia). lia.
Qed.

Lemma null_ptes_lookup n p m i : 0 <= i < Z.of_nat n -> null_ptes n p m !! pte_offset p i = Some pte_invalid.
Proof.
  induction n as [|n IH]; intros Hi; [lia|]. cbn [null_ptes].
  destruct (decide (pte_offset p (Z.of_nat n) = pte_offset p i)) as [->|Hne]; [by rewrite lookup_insert_eq|].
  rewrite lookup_insert_ne by done. apply IH. destruct (decide (i = Z.of_nat n)) as [->|]; [done|lia].
Qed.

Lemma null_ptes_other n p m a :
  (forall i, 0 <= i < Z.of_nat n -> pte_offset p i <> a) -> null_ptes n p m !! a = m !! a.
Proof.
  induction n as [|n IH]; intros Ha; [done|]. cbn [null_ptes]. rewrite lookup_insert_ne by (apply Ha; lia).
  apply IH. intros i Hi. apply Ha. lia.
Qed.

(** ** Slots of new objects *)
Lemma cte_offset_val p i : 0 <= p -> 0 <= i -> p + 32 * i < word_modulus -> cte_offset p i = p + 32 * i.
Proof.
  unfold cte_offset, wshl. change seL4_SlotBits with 5. intros Hp Hi Hm.
  rewrite Z.shiftl_mul_pow2 by done. change (2 ^ 5) with 32.
  rewrite (wrap_small (i * 32)) by (unfold is_word; lia). rewrite wadd_small by (unfold is_word; lia). lia.
Qed.

Lemma null_slots_lookup n p m i : 0 <= i < Z.of_nat n -> null_slots n p m !! cte_offset p i = Some null_cte.
Proof.
  induction n as [|n IH]; intros Hi; [lia|]. cbn [null_slots].
  destruct (decide (cte_offset p (Z.of_nat n) = cte_offset p i)) as [->|Hne]; [by rewrite lookup_insert_eq|].
  rewrite lookup_insert_ne by done. apply IH. destruct (decide (i = Z.of_nat n)) as [->|]; [done|lia].
Qed.

Lemma null_slots_other n p m a :
  (forall i, 0 <= i < Z.of_nat n -> cte_offset p i <> a) -> null_slots n p m !! a = m !! a.
Proof.
  induction n as [|n IH]; intros Ha; [done|]. cbn [null_slots]. rewrite lookup_insert_ne by (apply Ha; lia).
  apply IH. intros i Hi. apply Ha. lia.
Qed.

(** Empty slots at fresh addresses do not disturb the mapping database. *)
Lemma mdb_wf_null_slot m cs a : mdb_wf m cs -> m !! a = None -> a <> 0 -> mdb_wf (<[a := null_cte]> m) cs.
Proof.
  intros Hwf Ha H0. destruct Hwf as [W1 W2 W3 W4 W5].
  assert (Hl : forall f x, f nullMDBNode = 0 -> clink f (<[a := null_cte]> m) x = clink f m x).
  { intros f x Hf. unfold clink. destruct (decide (a = x)) as [<-|].
    - by rewrite lookup_insert_eq, Ha.
    - by rewrite lookup_insert_ne. }
  assert (Hne : forall x, x ∈ concat cs -> a <> x).
  { intros x Hx ->. destruct (W4 x Hx) as (c & ? & _). congruence. }
  split; [by rewrite lookup_insert_ne|done| | |].
  - intros l Hc. eapply dlist_ext; [|by apply W3]. intros x _. by rewrite !Hl.
  - intros x Hx. rewrite lookup_insert_ne by auto. by apply W4.
  - intros x c Hx. destruct (decide (a = x)) as [<-|].
    + rewrite lookup_insert_eq in Hx. by injection Hx as <-.
    + rewrite lookup_insert_ne in Hx by done. by apply W5.
Qed.

Lemma mdb_wf_null_slots n p m cs :
  mdb_wf m cs -> (forall i, 0 <= i < Z.of_nat n -> m !! cte_offset p i = None /\ cte_offset p i <> 0) ->
  (forall i j, 0 <= i < Z.of_nat n -> 0 <= j < Z.of_nat n -> cte_offset p i = cte_offset p j -> i = j) ->
  mdb_wf (null_slots n p m) cs.
Proof.
  intros Hwf. induction n as [|n IH]; intros Hf Hinj; [done|]. cbn [null_slots].
  apply mdb_wf_null_slot.
  - apply IH; [intros i Hi; apply Hf; lia|intros i j Hi Hj; apply Hinj; lia].
  - rewrite null_slots_other; [apply Hf; lia|]. intros i Hi He. apply Hinj in He; lia.
  - apply Hf. lia.
Qed.

(** ** Memory without objects *)

(** [lo, hi) holds no object and, when [z], only zeroes.  Device memory is
    never written. *)
Record clear (z : bool) (s : kstate) (lo hi : Z) : Prop := {
  cl_ctes : forall a, lo <= a < hi -> ksCTEs s !! a = None;
  cl_tcbs : forall a, lo <= a < hi -> ksTCBs s !! a = None;
  cl_eps : forall a, lo <= a < hi -> ksEPs s !! a = None;
  cl_ntfns : forall a, lo <= a < hi -> ksNTFNs s !! a = None;
  cl_ptes : forall a, lo <= a < hi -> ksPTEs s !! a = None;
  cl_pools : forall a, lo <= a < hi -> ksASIDPools s !! a = None;
  cl_mem : z = true -> forall a, lo <= a < hi -> ksMem s !! a = None
}.

Lemma clear_sub z s lo hi lo' hi' : clear z s lo hi -> lo <= lo' -> hi' <= hi -> clear z s lo' hi'.
Proof.
  intros [C T E N P A M] ? ?.
  split; intros; [apply C|apply T|apply E|apply N|apply P|apply A|apply M]; (done || lia).
Qed.

(** The fields a retype leaves alone. *)
Definition retype_hide (s : kstate) : kstate :=
  set_ksCTEs (fun _ => ∅) (set_ksTCBs (fun _ => ∅) (set_ksEPs (fun _ => ∅) (set_ksNTFNs (fun _ => ∅)
    (set_ksPTEs (fun _ => ∅) (set_ksMachine (fun _ => []) s))))).

(** [s'] differs from [s] in objects of [lo, hi), in capability slots and in
    the hardware operations performed. *)
Record grown (s s' : kstate) (lo hi : Z) : Prop := {
  gr_tcbs : forall a, ~ (lo <= a < hi) -> ksTCBs s' !! a = ksTCBs s !! a;
  gr_eps : forall a, ~ (lo <= a < hi) -> ksEPs s' !! a = ksEPs s !! a;
  gr_ntfns : forall a, ~ (lo <= a < hi) -> ksNTFNs s' !! a = ksNTFNs s !! a;
  gr_ptes : forall a, ~ (lo <= a < hi) -> ksPTEs s' !! a = ksPTEs s !! a;
  gr_rest : retype_hide s' = retype_hide s
}.

Lemma grown_refl s lo hi : grown s s lo hi.
Proof. by split. Qed.

Lemma grown_trans s s1 s2 lo mid hi :
  lo <= mid <= hi -> grown s s1 lo mid -> grown s1 s2 mid hi -> grown s s2 lo hi.
Proof.
  intros Hr [A1 A2 A3 A4 A5] [B1 B2 B3 B4 B5].
  split; [intros a Ha; rewrite ?B1, ?B2, ?B3, ?B4 by lia; auto with lia..|congruence].
Qed.

Lemma grown_field {A} (f : kstate -> A) s s' lo hi :
  (forall x, f (retype_hide x) = f x) -> grown s s' lo hi -> f s' = f s.
Proof. intros Hf [_ _ _ _ H]. by rewrite <- (Hf s'), H. Qed.

Lemma grown_ctes s s' m lo hi : grown s s' lo hi -> grown s (set_ksCTEs (fun _ => m) s') lo hi.
Proof. by intros []. Qed.

Lemma outside_clear {A} base bits (m : gmap Z A) :
  (forall a, base <= a < base + 2 ^ bits -> m !! a = None) -> outside base bits m = m.
Proof.
  intros H. apply map_filter_id. intros a x Ha. cbn. unfold in_region.
  destruct (Z.leb_spec base a), (Z.ltb_spec a (base + 2 ^ bits)); try done.
  rewrite H in Ha; [done|lia].
Qed.

(** Setting a field to what it is. *)
Lemma set_ksCTEs_same f s : f (ksCTEs s) = ksCTEs s -> set_ksCTEs f s = s.
Proof. intros H. destruct s. cbn in H. unfold set_ksCTEs. cbn. by rewrite H. Qed.
Lemma set_ksTCBs_same f s : f (ksTCBs s) = ksTCBs s -> set_ksTCBs f s = s.
Proof. intros H. destruct s. cbn in H. unfold set_ksTCBs. cbn. by rewrite H. Qed.
Lemma set_ksEPs_same f s : f (ksEPs s) = ksEPs s -> set_ksEPs f s = s.
Proof. intros H. destruct s. cbn in H. unfold set_ksEPs. cbn. by rewrite H. Qed.
Lemma set_ksNTFNs_same f s : f (ksNTFNs s) = ksNTFNs s -> set_ksNTFNs f s = s.
Proof. intros H. destruct s. cbn in H. unfold set_ksNTFNs. cbn. by rewrite H. Qed.
Lemma set_ksPTEs_same f s : f (ksPTEs s) = ksPTEs s -> set_ksPTEs f s = s.
Proof. intros H. destruct s. cbn in H. unfold set_ksPTEs. cbn. by rewrite H. Qed.
Lemma set_ksASIDPools_same f s : f (ksASIDPools s) = ksASIDPools s -> set_ksASIDPools f s = s.
Proof. intros H. destruct s. cbn in H. unfold set_ksASIDPools. cbn. by rewrite H. Qed.

Lemma untype_region_clear z s base bits : clear z s base (base + 2 ^ bits) -> untype_region base bits s = s.
Proof.
  intros [C T E N P A _]. unfold untype_region.
  rewrite (set_ksASIDPools_same _ s) by by apply outside_clear.
  rewrite (set_ksPTEs_same _ s) by by apply outside_clear.
  rewrite (set_ksNTFNs_same _ s) by by apply outside_clear.
  rewrite (set_ksEPs_same _ s) by by apply outside_clear.
  rewrite (set_ksTCBs_same _ s) by by apply outside_clear.
  by apply set_ksCTEs_same, outside_clear.
Qed.

(** ** New objects *)

(** The capability to a new object: all rights, no badge, no mapping. *)
Definition new_cap (t us : Z) (dev : bool) (addr : Z) : cap :=
  if t =? seL4_UntypedObject then cap_untyped_cap 0 dev us addr
  else if t =? seL4_TCBObject then cap_thread_cap (addr + 2 ^ TCB_SIZE_BITS)
  else if t =? seL4_EndpointObject then cap_endpoint_cap 0 true true true true addr
  else if t =? seL4_NotificationObject then cap_notification_cap 0 true true addr
  else if t =? seL4_CapTableObject then cap_cnode_cap us 0 0 addr
  else if t =? seL4_ARM_VSpaceObject then cap_vspace_cap asidInvalid addr false
  else if t =? seL4_ARM_PageTableObject then cap_page_table_cap asidInvalid addr false 0
  else cap_frame_cap asidInvalid addr
    (if t =? seL4_ARM_SmallPageObject then ARMSmallPage
     else if t =? seL4_ARM_LargePageObject then ARMLargePage else ARMHugePage) 0 VMReadWrite dev.

(** A thread that has never run. *)
Definition fresh_tcb (dom : Z) : tcb :=
  set_tcbDomain (fun _ => dom) (set_tcbTimeSlice (fun _ => CONFIG_TIME_SLICE) (Arch_initContext zero_tcb)).

Definition slot_count (t us : Z) : nat :=
  if t =? seL4_TCBObject then Z.to_nat tcbCNodeEntries
  else if t =? seL4_CapTableObject then Z.to_nat (2 ^ us) else O.

(** The object of type [t] at [addr] in its initial state. *)
Record object_at (s : kstate) (t us addr : Z) : Prop := {
  oa_slots : forall i, 0 <= i < Z.of_nat (slot_count t us) ->
    cte_data <$> ksCTEs s !! cte_offset addr i = Some (cap_null_cap, false, false);
  oa_tcb : t = seL4_TCBObject -> ksTCBs s !! (addr + 2 ^ TCB_SIZE_BITS) = Some (fresh_tcb (ksCurDomain s));
  oa_ep : t = seL4_EndpointObject -> ksEPs s !! addr = Some zero_endpoint;
  oa_ntfn : t = seL4_NotificationObject -> ksNTFNs s !! addr = Some zero_notification;
  oa_table : t = seL4_ARM_VSpaceObject \/ t = seL4_ARM_PageTableObject ->
    forall i, 0 <= i < 512 -> ksPTEs s !! pte_offset addr i = Some pte_invalid
}.

(** What the decoder has checked of the type and the size. *)
Definition valid_object (t us : Z) : Prop :=
  0 <= t < seL4_ObjectTypeCount /\ 0 <= us < wordBits /\
  (t = seL4_CapTableObject -> us <> 0) /\ (t = seL4_UntypedObject -> seL4_MinUntypedBits <= us).

Lemma object_types t us : valid_object t us ->
  t = 0 \/ t = 1 \/ t = 2 \/ t = 3 \/ t = 4 \/ t = 5 \/ t = 6 \/ t = 7 \/ t = 8 \/ t = 9.
Proof. unfold valid_object, seL4_ObjectTypeCount. lia. Qed.

Lemma object_size t us : valid_object t us -> exists o, getObjectSize t us = Some o /\ seL4_MinUntypedBits <= o /\
  (t = seL4_CapTableObject -> o = us + 5) /\ (t = seL4_UntypedObject -> o = us) /\
  (t <> seL4_CapTableObject -> o < wordBits).
Proof.
  intros Hv. pose proof (object_types _ _ Hv) as Ht. destruct Hv as (_ & Hus & Hc & Hu).
  assert (Hw : wadd seL4_SlotBits us = us + 5).
  { unfold wadd, seL4_SlotBits, wordBits in *. rewrite wrap_small by (unfold is_word, word_modulus; lia). lia. }
  unfold seL4_MinUntypedBits, wordBits in *.
  repeat destruct Ht as [Ht|Ht]; subst t; (eexists; split; [reflexivity|]); [by split_and!; auto with lia|..];
    try by split_and!.
  rewrite Hw. split_and!; [lia|done..].
Qed.

Lemma table_grown s addr f : 0 < addr -> addr + 2 ^ 12 < word_modulus ->
  grown s (set_ksMachine f (set_ksPTEs (null_ptes (Z.to_nat (2 ^ 9)) addr) s)) addr (addr + 2 ^ 12).
Proof.
  intros H0 H1. split; try done. intros a Ha. st_simpl. apply null_ptes_other. intros i Hi <-. apply Ha.
  rewrite pte_offset_val by (unfold is_word; lia). lia.
Qed.

Section Create.
Context (s : kstate) (t us o addr : Z) (dev : bool).
Hypothesis Hv : valid_object t us.
Hypothesis Ho : getObjectSize t us = Some o.
Hypothesis Hlo : 0 < addr.
Hypothesis Hhi : addr + 2 ^ o < word_modulus.

(** The slots of a new object lie inside it, at distinct addresses. *)
Lemma slot_count_size : 32 * Z.of_nat (slot_count t us) <= 2 ^ o.
Proof.
  pose proof (object_types _ _ Hv) as Ht. destruct (object_size _ _ Hv) as (o' & Ho' & _ & Hc & _).
  assert (o' = o) as -> by congruence. clear Ho'. destruct Hv as (_ & Hus & _).
  pose proof (Z.pow_nonneg 2 o ltac:(lia)).
  destruct (decide (t = seL4_CapTableObject)) as [Hct|Hct].
  - rewrite (Hc Hct). subst t. change (slot_count seL4_CapTableObject us) with (Z.to_nat (2 ^ us)).
    rewrite Z2Nat.id by (apply Z.pow_nonneg; lia). rewrite Z.pow_add_r by lia. lia.
  - destruct (decide (t = seL4_TCBObject)) as [->|Hn].
    + injection Ho as <-. change (slot_count seL4_TCBObject us) with 5%nat. change (2 ^ seL4_TCBBits) with 2048. lia.
    + unfold slot_count. rewrite (proj2 (Z.eqb_neq _ _) Hn), (proj2 (Z.eqb_neq _ _) Hct). lia.
Qed.

Lemma new_slot_val i : 0 <= i < Z.of_nat (slot_count t us) ->
  cte_offset addr i = addr + 32 * i /\ addr <= cte_offset addr i < addr + 2 ^ o.
Proof. intros Hi. pose proof slot_count_size. rewrite cte_offset_val by lia. split; [done|lia]. Qed.

Lemma new_slots_outside m a : ~ (addr <= a < addr + 2 ^ o) -> null_slots (slot_count t us) addr m !! a = m !! a.
Proof. intros Ha. apply null_slots_other. intros i Hi <-. by destruct (new_slot_val i Hi). Qed.

Lemma new_slots_wf m cs :
  mdb_wf m cs -> (forall a, addr <= a < addr + 2 ^ o -> m !! a = None) ->
  mdb_wf (null_slots (slot_count t us) addr m) cs.
Proof.
  intros Hwf Hc. apply mdb_wf_null_slots; [done|..].
  - intros i Hi. destruct (new_slot_val i Hi) as [_ Hr]. split; [by apply Hc|lia].
  - intros i j Hi Hj. destruct (new_slot_val i Hi) as [-> _], (new_slot_val j Hj) as [-> _]. lia.
Qed.

Definition created (s' : kstate) : Prop :=
  ksCTEs s' = null_slots (slot_count t us) addr (ksCTEs s) /\ grown s s' addr (addr + 2 ^ o) /\
  object_at s' t us addr.

Lemma created_slots s' : ksCTEs s' = null_slots (slot_count t us) addr (ksCTEs s) ->
  forall i, 0 <= i < Z.of_nat (slot_count t us) ->
    cte_data <$> ksCTEs s' !! cte_offset addr i = Some (cap_null_cap, false, false).
Proof. intros -> i Hi. by rewrite null_slots_lookup. Qed.

End Create.

Ltac object_case :=
  cbv beta iota zeta delta [createObject Arch_createObject create_frame new_cap seL4_NonArchObjectTypeCount
    seL4_UntypedObject seL4_TCBObject seL4_EndpointObject seL4_NotificationObject seL4_CapTableObject
    seL4_ARM_HugePageObject seL4_ARM_VSpaceObject seL4_ARM_SmallPageObject seL4_ARM_LargePageObject
    seL4_ARM_PageTableObject Z.leb Z.eqb Z.compare Pos.compare Pos.compare_cont Pos.eqb].

Lemma wp_createObject s t us o addr dev Q :
  valid_object t us -> getObjectSize t us = Some o -> 0 < addr -> addr + 2 ^ o < word_modulus ->
  (forall s', created s t us o addr s' -> Q (new_cap t us dev addr) s') ->
  wp (createObject t addr us dev) Q s.
Proof.
  intros Hv Ho Hlo Hhi HQ. pose proof (object_types _ _ Hv) as Ht.
  assert (Hfin : forall c s', c = new_cap t us dev addr -> ksCTEs s' = null_slots (slot_count t us) addr (ksCTEs s) ->
    grown s s' addr (addr + 2 ^ o) ->
    (t = seL4_TCBObject -> ksTCBs s' !! (addr + 2 ^ TCB_SIZE_BITS) = Some (fresh_tcb (ksCurDomain s'))) ->
    (t = seL4_EndpointObject -> ksEPs s' !! addr = Some zero_endpoint) ->
    (t = seL4_NotificationObject -> ksNTFNs s' !! addr = Some zero_notification) ->
    (t = seL4_ARM_VSpaceObject \/ t = seL4_ARM_PageTableObject ->
       forall i, 0 <= i < 512 -> ksPTEs s' !! pte_offset addr i = Some pte_invalid) -> Q c s').
  { intros c s' -> Hc Hg H1 H2 H3 H4. apply HQ. split; [done|]. split; [done|].
    split; [by eapply created_slots|done..]. }
  assert (Hin : addr < addr + 2 ^ o) by (pose proof (pow2_pos o); destruct (object_size _ _ Hv) as (o' & ? & ? & _);
    assert (o' = o) as -> by congruence; unfold seL4_MinUntypedBits in *; lia).
  repeat destruct Ht as [Ht|Ht]; subst t; object_case.
  - wp_struct. apply Hfin; (done || apply grown_refl || by intros [|]).
  - assert (Htcb : wadd addr TCB_OFFSET = addr + 2 ^ TCB_SIZE_BITS).
    { injection Ho as <-. change (2 ^ seL4_TCBBits) with 2048 in *. change TCB_OFFSET with 1024.
      change (2 ^ TCB_SIZE_BITS) with 1024. apply wadd_small. unfold is_word. lia. }
    assert (Htin : addr <= addr + 2 ^ TCB_SIZE_BITS < addr + 2 ^ o).
    { injection Ho as <-. change (2 ^ TCB_SIZE_BITS) with 1024. change (2 ^ seL4_TCBBits) with 2048. lia. }
    rewrite Htcb. set (p := addr + 2 ^ TCB_SIZE_BITS) in *.
    do 3 wp_struct. apply wp_putTCB. wp_struct. eapply wp_modTCB; [apply lookup_insert_eq|].
    wp_struct. eapply wp_modTCB; [apply lookup_insert_eq|]. do 3 wp_struct. eapply wp_modTCB; [apply lookup_insert_eq|].
    wp_struct. apply Hfin; try done; try by intros [|].
    + split; try done. intros a Ha. st_simpl. by rewrite !lookup_insert_ne by lia.
    + intros _. st_simpl. by rewrite lookup_insert_eq.
  - wp_struct. unfold putEP. do 2 wp_struct. apply Hfin; try done; try by intros [|].
    + split; try done. intros a Ha. st_simpl. by rewrite lookup_insert_ne by lia.
    + intros _. st_simpl. by rewrite lookup_insert_eq.
  - wp_struct. unfold putNTFN. do 2 wp_struct. apply Hfin; try done; try by intros [|].
    + split; try done. intros a Ha. st_simpl. by rewrite lookup_insert_ne by lia.
    + intros _. st_simpl. by rewrite lookup_insert_eq.
  - wp_struct. wp_struct. wp_struct. apply Hfin; try done; try by intros [|].
  - destruct dev; repeat wp_struct; apply Hfin; try done; by intros [|].
  - repeat wp_struct. apply Hfin; try done; [injection Ho as <-; by apply table_grown|].
    intros _ i Hi. st_simpl. by apply null_ptes_lookup.
  - destruct dev; repeat wp_struct; apply Hfin; try done; by intros [|].
  - destruct dev; repeat wp_struct; apply Hfin; try done; by intros [|].
  - repeat wp_struct. apply Hfin; try done; [injection Ho as <-; by apply table_grown|].
    intros _ i Hi. st_simpl. by apply null_ptes_lookup.
Qed.
