(* ===== verification/CNodeInv.v ===== *)
(** * CNode invocations

    [decodeCNodeInvocation] and the [invokeCNode*] functions of
    src/object/cnode.c.  [fuel] bounds the turns of deletion and revocation
    (see [Delete]). *)
From S2P Require Import Prelude Dll Structures CapOps CSpace VSpace Sched Mdb Messages Objects Delete Untyped.
From stdpp Require Import base list sets gmap.
#[local] Open Scope Z_scope.

(** [enum invocation_label] and [enum arch_invocation_label] are generated;
    these are the CNode labels of this configuration. *)
Definition CNodeRevoke : Z := 17.
Definition CNodeDelete : Z := 18.
Definition CNodeCancelBadgedSends : Z := 19.
Definition CNodeCopy : Z := 20.
Definition CNodeMint : Z := 21.
Definition CNodeMove : Z := 22.
Definition CNodeMutate : Z := 23.
Definition CNodeRotate : Z := 24.
Definition CNodeSaveCaller : Z := 25.
Definition CNODE_LAST_INVOCATION : Z := CNodeSaveCaller.

(** ** Invocations *)
Definition invokeCNodeRevoke (fuel : nat) (destSlot : Z) : K exception_t := cteRevoke fuel destSlot.

Definition invokeCNodeDelete (fuel : nat) (destSlot : Z) : K exception_t := cteDelete fuel destSlot true.

Definition invokeCNodeCancelBadgedSends (c : cap) : K exception_t :=
  match c with
  | cap_endpoint_cap badge _ _ _ _ ep =>
      (if negb (badge =? 0) then cancelBadgedSends ep badge else ret tt) ;;;
      ret EXCEPTION_NONE
  | _ => fail
  end.

Definition invokeCNodeInsert (c : cap) (srcSlot destSlot : Z) : K exception_t :=
  cteInsert c srcSlot destSlot ;;; ret EXCEPTION_NONE.

Definition invokeCNodeMove (c : cap) (srcSlot destSlot : Z) : K exception_t :=
  cteMove c srcSlot destSlot ;;; ret EXCEPTION_NONE.

Definition invokeCNodeRotate (cap1 cap2 : cap) (slot1 slot2 slot3 : Z) : K exception_t :=
  (if slot1 =? slot3 then cteSwap cap1 slot1 cap2 slot2
   else cteMove cap2 slot2 slot3 ;;; cteMove cap1 slot1 slot2) ;;;
  ret EXCEPTION_NONE.

Definition invokeCNodeSaveCaller (destSlot : Z) : K exception_t :=
  let* cur := gets ksCurThread in
  let srcSlot := TCB_PTR_CTE_PTR cur tcbCaller in
  let* c := slot_cap srcSlot in
  (match c with
   | cap_null_cap => ret tt
   | cap_reply_cap _ master _ => if negb master then cteMove c srcSlot destSlot else ret tt
   | _ => fail
   end) ;;;
  ret EXCEPTION_NONE.

(** ** Decoding *)
Definition restart_current : K unit :=
  let* cur := gets ksCurThread in setThreadState cur ThreadState_Restart.

Definition missing_capability (isSource : bool) (depth : Z) : K exception_t :=
  syscall_failedLookup isSource ;;;
  set_lookup_fault (lookup_fault_missing_capability depth) ;;;
  ret EXCEPTION_SYSCALL_ERROR.

(** The [switch] of the copying labels: the derived capability and whether
    the source is moved. *)
Definition decodeCNodeCopy_switch (invLabel length srcSlot : Z) (srcCap : cap) (buffer : Z)
    : K (exception_t * cap * bool) :=
  let truncated :=
    syscall_error_type seL4_TruncatedMessage ;;; ret (EXCEPTION_SYSCALL_ERROR, cap_null_cap, false) in
  if invLabel =? CNodeCopy then
    if length <? 5 then truncated
    else
      let* w := getSyscallArg 4 buffer in
      let* (status, newCap) := deriveCap srcSlot (maskCapRights (rightsFromWord w) srcCap) in
      ret (status, newCap, false)
  else if invLabel =? CNodeMint then
    if length <? 6 then truncated
    else
      let* w := getSyscallArg 4 buffer in
      let* capData := getSyscallArg 5 buffer in
      let* (status, newCap) :=
        deriveCap srcSlot (updateCapData false capData (maskCapRights (rightsFromWord w) srcCap)) in
      ret (status, newCap, false)
  else if invLabel =? CNodeMove then ret (EXCEPTION_NONE, srcCap, true)
  else if invLabel =? CNodeMutate then
    if length <? 5 then truncated
    else
      let* capData := getSyscallArg 4 buffer in
      ret (EXCEPTION_NONE, updateCapData true capData srcCap, true)
  else fail.

Definition decodeCNodeCopy (invLabel length destSlot buffer : Z) : K exception_t :=
  let* ref0 := excaprefs 0 in
  match ref0 with
  | None => sys_error (syscall_error_type seL4_TruncatedMessage)
  | Some rootSlot =>
    if length <? 4 then sys_error (syscall_error_type seL4_TruncatedMessage)
    else
    let* srcIndex := getSyscallArg 2 buffer in
    let* srcDepth := getSyscallArg 3 buffer in
    let* srcRoot := slot_cap rootSlot in
    let* status := ensureEmptySlot destSlot in
    if negb (is_none status) then ret status
    else
    let* (status, srcSlot) := lookupSourceSlot srcRoot srcIndex srcDepth in
    if negb (is_none status) then ret status
    else
    let* srcCap := slot_cap srcSlot in
    if cap_is_null srcCap then missing_capability true srcDepth
    else
    let* (status, newCap, isMove) := decodeCNodeCopy_switch invLabel length srcSlot srcCap buffer in
    if negb (is_none status) then ret status
    else if cap_is_null newCap then sys_error (syscall_error_type seL4_IllegalOperation)
    else
    restart_current ;;;
    if (isMove : bool) then invokeCNodeMove newCap srcSlot destSlot
    else invokeCNodeInsert newCap srcSlot destSlot
  end.

Definition decodeCNodeRotate (length destSlot buffer : Z) : K exception_t :=
  let* ref0 := excaprefs 0 in
  let* ref1 := excaprefs 1 in
  match ref0, ref1 with
  | Some pivotRootSlot, Some srcRootSlot =>
    if length <? 8 then sys_error (syscall_error_type seL4_TruncatedMessage)
    else
    let* pivotNewData := getSyscallArg 2 buffer in
    let* pivotIndex := getSyscallArg 3 buffer in
    let* pivotDepth := getSyscallArg 4 buffer in
    let* srcNewData := getSyscallArg 5 buffer in
    let* srcIndex := getSyscallArg 6 buffer in
    let* srcDepth := getSyscallArg 7 buffer in
    let* pivotRoot := slot_cap pivotRootSlot in
    let* srcRoot := slot_cap srcRootSlot in
    let* (status, srcSlot) := lookupSourceSlot srcRoot srcIndex srcDepth in
    if negb (is_none status) then ret status
    else
    let* (status, pivotSlot) := lookupPivotSlot pivotRoot pivotIndex pivotDepth in
    if negb (is_none status) then ret status
    else if (pivotSlot =? srcSlot) || (pivotSlot =? destSlot) then
      sys_error (syscall_error_type seL4_IllegalOperation)
    else
    let* status := if negb (srcSlot =? destSlot) then ensureEmptySlot destSlot else ret EXCEPTION_NONE in
    if negb (is_none status) then ret status
    else
    let* srcCap := slot_cap srcSlot in
    if cap_is_null srcCap then missing_capability true srcDepth
    else
    let* pivotCap := slot_cap pivotSlot in
    if cap_is_null pivotCap then missing_capability false pivotDepth
    else
    let newSrcCap := updateCapData true srcNewData srcCap in
    let newPivotCap := updateCapData true pivotNewData pivotCap in
    if cap_is_null newSrcCap then sys_error (syscall_error_type seL4_IllegalOperation)
    else if cap_is_null newPivotCap then sys_error (syscall_error_type seL4_IllegalOperation)
    else
    restart_current ;;;
    invokeCNodeRotate newSrcCap newPivotCap srcSlot pivotSlot destSlot
  | _, _ => sys_error (syscall_error_type seL4_TruncatedMessage)
  end.

Definition decodeCNodeInvocation (fuel : nat) (invLabel length : Z) (c : cap) (buffer : Z) : K exception_t :=
  assert (cap_is_cnode c) ;;;
  if (invLabel <? CNodeRevoke) || (CNODE_LAST_INVOCATION <? invLabel) then
    sys_error (syscall_error_type seL4_IllegalOperation)
  else if length <? 2 then sys_error (syscall_error_type seL4_TruncatedMessage)
  else
  let* index := getSyscallArg 0 buffer in
  let* w_bits := getSyscallArg 1 buffer in
  let* (status, destSlot) := lookupTargetSlot c index w_bits in
  if negb (is_none status) then ret status
  else if (CNodeCopy <=? invLabel) && (invLabel <=? CNodeMutate) then
    decodeCNodeCopy invLabel length destSlot buffer
  else if invLabel =? CNodeRevoke then restart_current ;;; invokeCNodeRevoke fuel destSlot
  else if invLabel =? CNodeDelete then restart_current ;;; invokeCNodeDelete fuel destSlot
  else if invLabel =? CNodeSaveCaller then
    let* status := ensureEmptySlot destSlot in
    if negb (is_none status) then ret status
    else restart_current ;;; invokeCNodeSaveCaller destSlot
  else if invLabel =? CNodeCancelBadgedSends then
    let* destCap := slot_cap destSlot in
    if negb (hasCancelSendRights destCap) then sys_error (syscall_error_type seL4_IllegalOperation)
    else restart_current ;;; invokeCNodeCancelBadgedSends destCap
  else if invLabel =? CNodeRotate then decodeCNodeRotate length destSlot buffer
  else ret EXCEPTION_NONE.
