(* ===== verification/MmuInv.v ===== *)
(** * Invocations of address-space objects

    [decodeARMMMUInvocation] and the [perform*] functions of
    src/arch/arm/64/kernel/vspace.c and include/.../mode/kernel/vspace.h:
    flushing, mapping and unmapping of page tables and frames, ASID pools;
    and the VM fault handler. *)
From S2P Require Import Prelude Dll Structures CapOps CSpace VSpace Sched Mdb Messages Objects Delete Untyped CNodeInv.
From stdpp Require Import base list gmap.
#[local] Open Scope Z_scope.

(** The invocation labels are generated by the build. *)
Record mmu_labels : Type := mk_mmu_labels {
  ARMVSpaceClean_Data : Z;
  ARMVSpaceInvalidate_Data : Z;
  ARMVSpaceCleanInvalidate_Data : Z;
  ARMVSpaceUnify_Instruction : Z;
  ARMPageTableMap : Z;
  ARMPageTableUnmap : Z;
  ARMPageMap : Z;
  ARMPageUnmap : Z;
  ARMPageClean_Data : Z;
  ARMPageInvalidate_Data : Z;
  ARMPageCleanInvalidate_Data : Z;
  ARMPageUnify_Instruction : Z;
  ARMPageGetAddress : Z;
  ARMASIDControlMakePool : Z;
  ARMASIDPoolAssign : Z
}.

(** [memzero] of page-table memory. *)
Definition invalidate_ptes (base bits : Z) (m : gmap Z pte) : gmap Z pte :=
  map_imap (fun a e => Some (if in_region base bits a then pte_invalid else e)) m.

Definition clearMemory_PT (ptr bits : Z) : K unit :=
  modify (set_ksPTEs (invalidate_ptes ptr bits)) ;;;
  cleanCacheRange_PoU ptr (wsub (wadd ptr (BIT bits)) 1) (addrFromPPtr ptr).

(** ** Capability updates *)
Definition cap_page_table_cap_set_mapping (asid vaddr : Z) (c : cap) : cap :=
  match c with
  | cap_page_table_cap _ base _ _ => cap_page_table_cap asid base true vaddr
  | _ => c
  end.
Definition cap_page_table_cap_set_capPTIsMapped (b : bool) (c : cap) : cap :=
  match c with
  | cap_page_table_cap asid base _ vaddr => cap_page_table_cap asid base b vaddr
  | _ => c
  end.
Definition cap_frame_cap_set_mapping (asid vaddr : Z) (c : cap) : cap :=
  match c with
  | cap_frame_cap _ base sz _ r dev => cap_frame_cap asid base sz vaddr r dev
  | _ => c
  end.

(** ** Performing *)
Definition performPageTableInvocationMap (c : cap) (ctSlot : Z) (e : pte) (slot : Z) : K exception_t :=
  setCap ctSlot c ;;;
  putPTE slot e ;;;
  cleanByVA_PoU slot (addrFromPPtr slot) ;;;
  ret EXCEPTION_NONE.

Definition performPageTableInvocationUnmap (c : cap) (ctSlot : Z) : K exception_t :=
  match c with
  | cap_page_table_cap asid base isMapped vaddr =>
      (if (isMapped : bool) then
         unmapPageTable asid vaddr base ;;;
         clearMemory_PT base seL4_PageTableBits
       else ret tt) ;;;
      modCTE ctSlot (fun ct => set_cte_cap (cap_page_table_cap_set_capPTIsMapped false) ct) ;;;
      ret EXCEPTION_NONE
  | _ => fail
  end.

Definition performPageInvocationMap (asid : Z) (c : cap) (ctSlot : Z) (e : pte) (slot : Z)
    : K exception_t :=
  let* old := getPTE slot in
  let tlbflush_required := pte_ptr_get_valid old in
  setCap ctSlot c ;;;
  putPTE slot e ;;;
  cleanByVA_PoU slot (addrFromPPtr slot) ;;;
  (if tlbflush_required then
     assert (asid <? BIT 16) ;;;
     match c with
     | cap_frame_cap _ _ _ vaddr _ _ => invalidateTLBByASIDVA asid vaddr
     | _ => fail
     end
   else ret tt) ;;;
  ret EXCEPTION_NONE.

Definition performPageInvocationUnmap (c : cap) (ctSlot : Z) : K exception_t :=
  match c with
  | cap_frame_cap asid base sz vaddr _ _ =>
      (if negb (asid =? 0) then unmapPage sz asid vaddr base else ret tt) ;;;
      modCTE ctSlot (fun ct => set_cte_cap (cap_frame_cap_set_mapping asidInvalid 0) ct) ;;;
      ret EXCEPTION_NONE
  | _ => fail
  end.

Definition performPageGetAddress (base_ptr : Z) (call : bool) : K exception_t :=
  let base := addrFromPPtr base_ptr in
  let* thread := gets ksCurThread in
  (if call then
     let* ipcBuffer := lookupIPCBuffer true thread in
     setRegister thread badgeRegister 0 ;;;
     let* length := setMR thread ipcBuffer 0 base in
     setRegister thread msgInfoRegister (wordFromMessageInfo (seL4_MessageInfo_new 0 0 0 length))
   else ret tt) ;;;
  let* cur := gets ksCurThread in
  setThreadState cur ThreadState_Running ;;;
  ret EXCEPTION_NONE.

Definition performASIDControlInvocation (frame slot parent asid_base : Z) : K exception_t :=
  modify (untype_region frame seL4_ASIDPoolBits) ;;;
  modCTE parent (set_cte_cap (fun c =>
    match c with
    | cap_untyped_cap _ dev bits ptr => cap_untyped_cap (MAX_FREE_INDEX bits) dev bits ptr
    | _ => c
    end)) ;;;
  modify (set_ksMem (outside frame seL4_ASIDPoolBits)) ;;;
  modify (set_ksASIDPools (insert frame ∅)) ;;;
  cteInsert (cap_asid_pool_cap asid_base frame) parent slot ;;;
  assert (Z.land asid_base (MASK asidLowBits) =? 0) ;;;
  modify (set_armKSASIDTable (insert (ASID_HIGH asid_base) frame)) ;;;
  ret EXCEPTION_NONE.

Definition performASIDPoolInvocation (asid poolPtr vspaceCapSlot : Z) : K exception_t :=
  let* c := slot_cap vspaceCapSlot in
  match c with
  | cap_vspace_cap _ base _ =>
      setCap vspaceCapSlot (cap_vspace_cap asid base true) ;;;
      let* pool := getPool poolPtr in
      modify (set_ksASIDPools (insert poolPtr (<[ASID_LOW asid := asid_map_vspace base]> pool))) ;;;
      ret EXCEPTION_NONE
  | _ => fail
  end.

Definition checkVPAlignment (sz : vm_page_size) (w : Z) : bool :=
  Z.land w (MASK (pageBitsForSize sz)) =? 0.

Section Decode.
Context (L : mmu_labels).

Definition doFlush (invLabel start end_ pstart : Z) : K unit :=
  if (invLabel =? ARMVSpaceClean_Data L) || (invLabel =? ARMPageClean_Data L) then
    cleanCacheRange_RAM start end_ pstart
  else if (invLabel =? ARMVSpaceInvalidate_Data L) || (invLabel =? ARMPageInvalidate_Data L) then
    invalidateCacheRange_RAM start end_ pstart
  else if (invLabel =? ARMVSpaceCleanInvalidate_Data L) || (invLabel =? ARMPageCleanInvalidate_Data L) then
    cleanInvalidateCacheRange_RAM start end_ pstart
  else if (invLabel =? ARMVSpaceUnify_Instruction L) || (invLabel =? ARMPageUnify_Instruction L) then
    cleanCacheRange_PoU start end_ pstart ;;;
    doMachineOp op_dsb ;;;
    invalidateCacheRange_I start end_ pstart ;;;
    doMachineOp op_isb
  else fail.

(** [performVSpaceFlush] and [performPageFlush] have the same body. *)
Definition performVSpaceFlush (invLabel vspaceRoot asid start end_ pstart : Z) : K exception_t :=
  (if start <? end_ then
     let* root_switched := setVMRootForFlush vspaceRoot asid in
     doFlush invLabel start end_ pstart ;;;
     (if (root_switched : bool) then let* cur := gets ksCurThread in setVMRoot cur else ret tt)
   else ret tt) ;;;
  ret EXCEPTION_NONE.

Definition performPageFlush (invLabel vspaceRoot asid start end_ pstart : Z) : K exception_t :=
  (if start <? end_ then
     let* root_switched := setVMRootForFlush vspaceRoot asid in
     doFlush invLabel start end_ pstart ;;;
     (if (root_switched : bool) then let* cur := gets ksCurThread in setVMRoot cur else ret tt)
   else ret tt) ;;;
  ret EXCEPTION_NONE.

(** ** The root table *)
Definition decodeARMVSpaceRootInvocation (invLabel length cte : Z) (c : cap) (buffer : Z) : K exception_t :=
  if (invLabel =? ARMVSpaceClean_Data L) || (invLabel =? ARMVSpaceInvalidate_Data L)
     || (invLabel =? ARMVSpaceCleanInvalidate_Data L) || (invLabel =? ARMVSpaceUnify_Instruction L) then
    if length <? 2 then sys_error (syscall_error_type seL4_TruncatedMessage)
    else
    let* start := getSyscallArg 0 buffer in
    let* end_ := getSyscallArg 1 buffer in
    if end_ <=? start then sys_error (syscall_invalidArgument 1)
    else if USER_TOP <? end_ then sys_error (syscall_error_type seL4_IllegalOperation)
    else match c with
    | cap_vspace_cap asid vspaceRoot true =>
      let* (status, vspace_root) := findVSpaceForASID asid in
      if negb (is_none status) then sys_error (syscall_failedLookup false)
      else if negb (vspace_root =? vspaceRoot) then sys_error (syscall_invalidCapability 0)
      else
      let* resolve_ret := lookupPTSlot vspaceRoot start in
      let* e := getPTE (ptSlot resolve_ret) in
      let bits := ptBitsLeft resolve_ret in
      if negb (pte_is_page_type e) then restart_current ;;; ret EXCEPTION_NONE
      else if negb (ROUND_DOWN start bits =? ROUND_DOWN (wsub end_ 1) bits) then
        sys_error (syscall_rangeError start (wadd (ROUND_DOWN start bits) (MASK bits)))
      else
      let* r := if invLabel =? ARMVSpaceInvalidate_Data L then vmRightsFromPTE e else ret VMReadWrite in
      if (invLabel =? ARMVSpaceInvalidate_Data L) && negb (bool_decide (r = VMReadWrite)) then
        sys_error (syscall_error_type seL4_IllegalOperation)
      else
      let* frame_base := pte_get_page_base_address e in
      let pstart := wadd frame_base (Z.land start (MASK bits)) in
      restart_current ;;;
      performVSpaceFlush invLabel vspaceRoot asid start (wsub end_ 1) pstart
    | _ => sys_error (syscall_invalidCapability 0)
    end
  else sys_error (syscall_error_type seL4_IllegalOperation).

(** ** Page tables *)
Definition decodeARMPageTableInvocation (invLabel length cte : Z) (c : cap) (buffer : Z) : K exception_t :=
  if invLabel =? ARMPageTableUnmap L then
    let* final := isFinalCapability cte in
    if negb final then sys_error (syscall_error_type seL4_RevokeFirst)
    else restart_current ;;; performPageTableInvocationUnmap c cte
  else if negb (invLabel =? ARMPageTableMap L) then sys_error (syscall_error_type seL4_IllegalOperation)
  else
  let* ref0 := excaprefs 0 in
  match ref0, c with
  | None, _ => sys_error (syscall_error_type seL4_TruncatedMessage)
  | Some rootSlot, cap_page_table_cap _ ptBase isMapped _ =>
    if length <? 2 then sys_error (syscall_error_type seL4_TruncatedMessage)
    else if (isMapped : bool) then sys_error (syscall_invalidCapability 0)
    else
    let* vaddr := getSyscallArg 0 buffer in
    let* vspaceRootCap := slot_cap rootSlot in
    match vspaceRootCap with
    | cap_vspace_cap asid vspaceRoot true =>
      if USER_TOP <? vaddr then sys_error (syscall_invalidArgument 0)
      else
      let* (status, vspace_root) := findVSpaceForASID asid in
      if negb (is_none status) then sys_error (syscall_failedLookup false)
      else if negb (vspace_root =? vspaceRoot) then sys_error (syscall_invalidCapability 1)
      else
      let* lu_ret := lookupPTSlot vspaceRoot vaddr in
      let* old := if ptBitsLeft lu_ret =? seL4_PageBits then ret pte_invalid else getPTE (ptSlot lu_ret) in
      if (ptBitsLeft lu_ret =? seL4_PageBits) || pte_ptr_get_valid old then
        sys_error (syscall_error_type seL4_DeleteFirst)
      else
      let e := pte_pte_table_new (addrFromPPtr ptBase) in
      let c' := cap_page_table_cap_set_mapping asid (Z.land vaddr (wnot (MASK (ptBitsLeft lu_ret)))) c in
      restart_current ;;;
      performPageTableInvocationMap c' cte e (ptSlot lu_ret)
    | _ => sys_error (syscall_invalidCapability 1)
    end
  | _, _ => fail
  end.

(** ** Frames *)
Definition decodeFrameMap (length cte : Z) (c : cap) (buffer : Z) : K exception_t :=
  let* ref0 := excaprefs 0 in
  match ref0, c with
  | None, _ => sys_error (syscall_error_type seL4_TruncatedMessage)
  | Some rootSlot, cap_frame_cap frame_asid basePtr frameSize mappedAddress frameRights _ =>
    if length <? 3 then sys_error (syscall_error_type seL4_TruncatedMessage)
    else
    let* vaddr := getSyscallArg 0 buffer in
    let* attributes := getSyscallArg 2 buffer in
    let* vspaceRootCap := slot_cap rootSlot in
    let* w_rights := getSyscallArg 1 buffer in
    let vmRights := maskVMRights frameRights (rightsFromWord w_rights) in
    match vspaceRootCap with
    | cap_vspace_cap asid vspaceRoot true =>
      let* (status, vspace_root) := findVSpaceForASID asid in
      if negb (is_none status) then sys_error (syscall_failedLookup false)
      else if negb (vspace_root =? vspaceRoot) then sys_error (syscall_invalidCapability 1)
      else if negb (checkVPAlignment frameSize vaddr) then sys_error (syscall_error_type seL4_AlignmentError)
      else if negb (frame_asid =? asidInvalid) && negb (frame_asid =? asid) then
        sys_error (syscall_invalidCapability 1)
      else if negb (frame_asid =? asidInvalid) && negb (mappedAddress =? vaddr) then
        sys_error (syscall_invalidArgument 0)
      else if (frame_asid =? asidInvalid)
              && (USER_TOP <? wsub (wadd vaddr (BIT (pageBitsForSize frameSize))) 1) then
        sys_error (syscall_invalidArgument 0)
      else
      let c' := cap_frame_cap_set_mapping asid vaddr c in
      let base := addrFromPPtr basePtr in
      let* lu_ret := lookupPTSlot vspaceRoot vaddr in
      if negb (ptBitsLeft lu_ret =? pageBitsForSize frameSize) then
        set_lookup_fault (lookup_fault_missing_capability (ptBitsLeft lu_ret)) ;;;
        sys_error (syscall_failedLookup false)
      else
      restart_current ;;;
      performPageInvocationMap asid c' cte (makeUserPagePTE base vmRights attributes frameSize) (ptSlot lu_ret)
    | _ => sys_error (syscall_invalidCapability 1)
    end
  | _, _ => fail
  end.

Definition decodeFrameFlush (invLabel length : Z) (c : cap) (buffer : Z) : K exception_t :=
  match c with
  | cap_frame_cap asid basePtr frameSize vaddr _ _ =>
    if length <? 2 then sys_error (syscall_error_type seL4_TruncatedMessage)
    else if asid =? 0 then sys_error (syscall_error_type seL4_IllegalOperation)
    else
    let* (status, vspace_root) := findVSpaceForASID asid in
    if negb (is_none status) then sys_error (syscall_failedLookup false)
    else
    let* start := getSyscallArg 0 buffer in
    let* end_ := getSyscallArg 1 buffer in
    let page_size := BIT (pageBitsForSize frameSize) in
    if end_ <=? start then sys_error (syscall_invalidArgument 1)
    else if (page_size <=? start) || (page_size <? end_) then sys_error (syscall_invalidArgument 0)
    else
    let pstart := wadd (addrFromPPtr basePtr) start in
    let* lu_ret := lookupPTSlot vspace_root vaddr in
    let* e := getPTE (ptSlot lu_ret) in
    if negb (ptBitsLeft lu_ret =? pageBitsForSize frameSize) || negb (pte_is_page_type e) then
      sys_error (syscall_invalidCapability 0)
    else
    let* frame_base := pte_get_page_base_address e in
    if negb (frame_base =? addrFromPPtr basePtr) then sys_error (syscall_invalidCapability 0)
    else
    let* r := if invLabel =? ARMPageInvalidate_Data L then vmRightsFromPTE e else ret VMReadWrite in
    if (invLabel =? ARMPageInvalidate_Data L) && negb (bool_decide (r = VMReadWrite)) then
      sys_error (syscall_error_type seL4_IllegalOperation)
    else
    restart_current ;;;
    performPageFlush invLabel vspace_root asid (wadd vaddr start) (wsub (wadd vaddr end_) 1) pstart
  | _ => fail
  end.

Definition decodeARMFrameInvocation (invLabel length cte : Z) (c : cap) (call : bool) (buffer : Z)
    : K exception_t :=
  if invLabel =? ARMPageMap L then decodeFrameMap length cte c buffer
  else if invLabel =? ARMPageUnmap L then restart_current ;;; performPageInvocationUnmap c cte
  else if (invLabel =? ARMPageClean_Data L) || (invLabel =? ARMPageInvalidate_Data L)
          || (invLabel =? ARMPageCleanInvalidate_Data L) || (invLabel =? ARMPageUnify_Instruction L) then
    decodeFrameFlush invLabel length c buffer
  else if invLabel =? ARMPageGetAddress L then
    match c with
    | cap_frame_cap _ basePtr _ _ _ _ => restart_current ;;; performPageGetAddress basePtr call
    | _ => fail
    end
  else sys_error (syscall_error_type seL4_IllegalOperation).

(** ** ASID pools *)

(** [for (i = 0; i < nASIDPools && armKSASIDTable[i]; i++);] *)
Fixpoint find_free_pool (n : nat) (i : Z) : K Z :=
  match n with
  | O => ret i
  | S n' =>
      let* p := gets (fun s => asid_table s i) in
      if p =? 0 then ret i else find_free_pool n' (i + 1)
  end.

(** [for (i = 0; i < (1 << asidLowBits) && (asid + i == 0 || pool->array[i]
    is not none); i++);] *)
Fixpoint find_free_asid (n : nat) (pool : asid_pool) (asid i : Z) : Z :=
  match n with
  | O => i
  | S n' =>
      if (wadd asid i =? 0) || match pool_entry pool i with asid_map_none => false | _ => true end
      then find_free_asid n' pool asid (i + 1)
      else i
  end.

Definition decodeASIDControl (invLabel length buffer : Z) : K exception_t :=
  if negb (invLabel =? ARMASIDControlMakePool L) then sys_error (syscall_error_type seL4_IllegalOperation)
  else
  let* ref0 := excaprefs 0 in
  let* ref1 := excaprefs 1 in
  match ref0, ref1 with
  | Some parentSlot, Some rootSlot =>
    if length <? 2 then sys_error (syscall_error_type seL4_TruncatedMessage)
    else
    let* index := getSyscallArg 0 buffer in
    let* depth := getSyscallArg 1 buffer in
    let* untyped := slot_cap parentSlot in
    let* root := slot_cap rootSlot in
    let* i := find_free_pool (Z.to_nat nASIDPools) 0 in
    if i =? nASIDPools then sys_error (syscall_error_type seL4_DeleteFirst)
    else
    let asid_base := wshl i asidLowBits in
    match untyped with
    | cap_untyped_cap _ isDevice blockSize frame =>
      if negb (blockSize =? seL4_ASIDPoolBits) || isDevice then sys_error (syscall_invalidCapability 1)
      else
      let* status := ensureNoChildren parentSlot in
      if negb (is_none status) then ret status
      else
      let* (status, destSlot) := lookupTargetSlot root index depth in
      if negb (is_none status) then ret status
      else
      let* status := ensureEmptySlot destSlot in
      if negb (is_none status) then ret status
      else
      restart_current ;;;
      performASIDControlInvocation frame destSlot parentSlot asid_base
    | _ => sys_error (syscall_invalidCapability 1)
    end
  | _, _ => sys_error (syscall_error_type seL4_TruncatedMessage)
  end.

Definition decodeASIDPool (invLabel asid_base poolCapPtr : Z) : K exception_t :=
  if negb (invLabel =? ARMASIDPoolAssign L) then sys_error (syscall_error_type seL4_IllegalOperation)
  else
  let* ref0 := excaprefs 0 in
  match ref0 with
  | None => sys_error (syscall_error_type seL4_TruncatedMessage)
  | Some vspaceCapSlot =>
    let* vspaceCap := slot_cap vspaceCapSlot in
    if negb (isVTableRoot vspaceCap) || isValidNativeRoot vspaceCap then
      sys_error (syscall_invalidCapability 1)
    else
    let* pool := gets (fun s => asid_table s (ASID_HIGH asid_base)) in
    if pool =? 0 then
      syscall_failedLookup false ;;;
      set_lookup_fault lookup_fault_invalid_root ;;;
      ret EXCEPTION_SYSCALL_ERROR
    else if negb (pool =? poolCapPtr) then sys_error (syscall_invalidCapability 0)
    else
    let* p := getPool pool in
    let i := find_free_asid (Z.to_nat (BIT asidLowBits)) p asid_base 0 in
    if i =? BIT asidLowBits then sys_error (syscall_error_type seL4_DeleteFirst)
    else
    restart_current ;;;
    performASIDPoolInvocation (wadd asid_base i) pool vspaceCapSlot
  end.

Definition decodeARMMMUInvocation (invLabel length cptr cte : Z) (c : cap) (call : bool) (buffer : Z)
    : K exception_t :=
  match c with
  | cap_vspace_cap _ _ _ => decodeARMVSpaceRootInvocation invLabel length cte c buffer
  | cap_page_table_cap _ _ _ _ => decodeARMPageTableInvocation invLabel length cte c buffer
  | cap_frame_cap _ _ _ _ _ _ => decodeARMFrameInvocation invLabel length cte c call buffer
  | cap_asid_control_cap => decodeASIDControl invLabel length buffer
  | cap_asid_pool_cap asid_base pool => decodeASIDPool invLabel asid_base pool
  | _ => fail
  end.
End Decode.

(** ** VM faults

    The fault address and syndrome registers are read from the hardware. *)
Section Fault.
Context (getFAR getESR : K Z).

Definition ARMDataAbort : Z := 0.
Definition ARMPrefetchAbort : Z := 1.

(** The [FSR] field has 32 bits. *)
Definition seL4_Fault_VMFault_new (address FSR : Z) (instructionFault : bool) : seL4_Fault :=
  seL4_Fault_VMFault address (Z.land FSR 0xffffffff) instructionFault.

Definition handleVMFault (thread vm_faultType : Z) : K exception_t :=
  if vm_faultType =? ARMDataAbort then
    let* addr := getFAR in
    let* fault := getESR in
    modify (set_current_fault (fun _ => seL4_Fault_VMFault_new addr fault false)) ;;;
    ret EXCEPTION_FAULT
  else if vm_faultType =? ARMPrefetchAbort then
    let* pc := getRestartPC thread in
    let* fault := getESR in
    modify (set_current_fault (fun _ => seL4_Fault_VMFault_new pc fault true)) ;;;
    ret EXCEPTION_FAULT
  else fail.
End Fault.
