(* ===== verification/TcbInv.v ===== *)
(** * TCB invocations

    The invocation half of src/object/tcb.c, with [checkValidIPCBuffer] and
    [isValidVTableRoot] of src/arch/arm/64/kernel/vspace.c.  [fuel] bounds the
    deletions of [invokeTCB_ThreadControl]. *)
From S2P Require Import Prelude Dll Structures CapOps CSpace VSpace Sched Mdb Messages Objects Delete Untyped CNodeInv.
From stdpp Require Import base list sets gmap.
#[local] Open Scope Z_scope.

Definition TCBReadRegisters : Z := 2.
Definition TCBWriteRegisters : Z := 3.
Definition TCBCopyRegisters : Z := 4.
Definition TCBConfigure : Z := 5.
Definition TCBSetPriority : Z := 6.
Definition TCBSetMCPriority : Z := 7.
Definition TCBSetSchedParams : Z := 8.
Definition TCBSetIPCBuffer : Z := 9.
Definition TCBSetSpace : Z := 10.
Definition TCBSuspend : Z := 11.
Definition TCBResume : Z := 12.
Definition TCBBindNotification : Z := 13.
Definition TCBUnbindNotification : Z := 14.
Definition TCBSetTLSBase : Z := 15.
Definition TCBSetFlags : Z := 16.

Definition NULL_PRIO : Z := 0.
Definition seL4_IPCBufferSizeBits : Z := 10.

(** [enum thread_control_flag] *)
Definition thread_control_update_priority : Z := 1.
Definition thread_control_update_ipc_buffer : Z := 2.
Definition thread_control_update_space : Z := 4.
Definition thread_control_update_mcp : Z := 8.
Definition has_flag (flags f : Z) : bool := negb (Z.land flags f =? 0).

(** The target of an invocation on a thread capability. *)
Definition cap_thread_cap_get_capTCBPtr (c : cap) : K Z :=
  match c with cap_thread_cap tcb => ret tcb | _ => fail end.

(** ** Architecture hooks *)
Definition Arch_decodeTransfer (flags : Z) : Z := 0.
Definition Arch_performTransfer (arch src dest : Z) : K exception_t := ret EXCEPTION_NONE.
Definition Arch_postModifyRegisters (tptr : Z) : K unit := ret tt.

Definition checkValidIPCBuffer (vptr : Z) (c : cap) : K exception_t :=
  match c with
  | cap_frame_cap _ _ _ _ _ isDevice =>
      if (isDevice : bool) then sys_error (syscall_error_type seL4_IllegalOperation)
      else if negb (Z.land vptr (MASK seL4_IPCBufferSizeBits) =? 0) then
        sys_error (syscall_error_type seL4_AlignmentError)
      else ret EXCEPTION_NONE
  | _ => sys_error (syscall_error_type seL4_IllegalOperation)
  end.

(** ** Priorities *)
Definition checkPrio (prio auth : Z) : K exception_t :=
  let* t := getTCB auth in
  let mcp := tcbMCP t in
  assert (mcp <=? seL4_MaxPrio) ;;;
  if mcp <? prio then
    syscall_rangeError seL4_MinPrio mcp ;;; ret EXCEPTION_SYSCALL_ERROR
  else ret EXCEPTION_NONE.

(** ** Invocations *)
Definition invokeTCB_Suspend (thread : Z) : K exception_t := suspend thread ;;; ret EXCEPTION_NONE.
Definition invokeTCB_Resume (thread : Z) : K exception_t := restart thread ;;; ret EXCEPTION_NONE.

Definition invokeTCB_NotificationControl (tcb ntfnPtr : Z) : K exception_t :=
  (if negb (ntfnPtr =? 0) then bindNotification tcb ntfnPtr else unbindNotification tcb) ;;;
  ret EXCEPTION_NONE.

Definition invokeSetTLSBase (thread tls_base : Z) : K exception_t :=
  setRegister thread TLS_BASE tls_base ;;;
  let* cur := gets ksCurThread in
  (if thread =? cur then rescheduleRequired else ret tt) ;;;
  ret EXCEPTION_NONE.

Definition invokeSetFlags (thread clear set : Z) (call : bool) : K unit :=
  let* cur_thread := gets ksCurThread in
  let* t := getTCB thread in
  let flags := Z.lor (Z.land (tcbFlags t) (wnot clear)) (Z.land set seL4_TCBFlag_MASK) in
  modTCB thread (set_tcbFlags (fun _ => flags)) ;;;
  (if has_flag flags seL4_TCBFlag_fpuDisabled then fpuRelease thread
   else if thread =? cur_thread then lazyFPURestore thread else ret tt) ;;;
  (if call then
     let* ipcBuffer := lookupIPCBuffer true cur_thread in
     setRegister cur_thread badgeRegister 0 ;;;
     let* length := setMR cur_thread ipcBuffer 0 flags in
     setRegister cur_thread msgInfoRegister (wordFromMessageInfo (seL4_MessageInfo_new 0 0 0 length))
   else ret tt) ;;;
  setThreadState cur_thread ThreadState_Running.

(** [for (i = 0; i < n_frameRegisters; i++)] over a register array. *)
Definition copyRegisters (regs : list Z) (src dest : Z) : K unit :=
  for_ 0 (Z.of_nat (length regs)) (fun i =>
    let* r := from_option_M (arr regs i) in
    let* v := getRegister src r in
    setRegister dest r v).

Definition invokeTCB_CopyRegisters (dest tcb_src : Z)
    (suspendSource resumeTarget transferFrame transferInteger : bool) (transferArch : Z)
    : K exception_t :=
  (if suspendSource then suspend tcb_src else ret tt) ;;;
  (if resumeTarget then restart dest else ret tt) ;;;
  (if transferFrame then
     copyRegisters frameRegisters tcb_src dest ;;;
     let* pc := getRestartPC dest in
     setNextPC dest pc
   else ret tt) ;;;
  (if transferInteger then copyRegisters gpRegisters tcb_src dest else ret tt) ;;;
  Arch_postModifyRegisters dest ;;;
  let* cur := gets ksCurThread in
  (if dest =? cur then rescheduleRequired else ret tt) ;;;
  Arch_performTransfer transferArch tcb_src dest.

(** Two loops send one register array: the first [n_msgRegisters] message
    words in registers, the rest in the buffer.  [base] is the number of words
    already sent; the count of words sent is returned. *)
Definition sendRegisters (regs : list Z) (base n tcb_src thread ipcBuffer : Z) : K Z :=
  let len := Z.of_nat (length regs) in
  let i1 := Z.max 0 (Z.min len (Z.min (n - base) (n_msgRegisters - base))) in
  for_ 0 i1 (fun i =>
    let* r := from_option_M (arr regs i) in
    let* m := from_option_M (arr msgRegisters (i + base)) in
    let* v := getRegister tcb_src r in
    setRegister thread m v) ;;;
  if negb (ipcBuffer =? 0) && (i1 <? len) && (i1 + base <? n) then
    let i2 := Z.min len (n - base) in
    for_ i1 i2 (fun i =>
      let* r := from_option_M (arr regs i) in
      let* v := getRegister tcb_src r in
      storeWord ipcBuffer (i + base + 1) v) ;;;
    ret i2
  else ret i1.

Definition invokeTCB_ReadRegisters (tcb_src : Z) (suspendSource : bool) (n arch : Z) (call : bool)
    : K exception_t :=
  let* thread := gets ksCurThread in
  (if suspendSource then suspend tcb_src else ret tt) ;;;
  let* cur := gets ksCurThread in
  let* e := Arch_performTransfer arch tcb_src cur in
  if negb (is_none e) then ret e
  else
  (if call then
     let* ipcBuffer := lookupIPCBuffer true thread in
     setRegister thread badgeRegister 0 ;;;
     let* j := sendRegisters frameRegisters 0 n tcb_src thread ipcBuffer in
     let* i := sendRegisters gpRegisters n_frameRegisters n tcb_src thread ipcBuffer in
     setRegister thread msgInfoRegister (wordFromMessageInfo (seL4_MessageInfo_new 0 0 0 (i + j)))
   else ret tt) ;;;
  setThreadState thread ThreadState_Running ;;;
  ret EXCEPTION_NONE.

Definition writeRegisters (regs : list Z) (base n dest buffer : Z) (archInfo : bool) : K unit :=
  for_ 0 (Z.min (Z.of_nat (length regs)) (n - base)) (fun i =>
    let* r := from_option_M (arr regs i) in
    let* v := getSyscallArg (i + base + 2) buffer in
    setRegister dest r (sanitiseRegister r v archInfo)).

Definition invokeTCB_WriteRegisters (dest : Z) (resumeTarget : bool) (n0 arch buffer : Z)
    : K exception_t :=
  let* cur := gets ksCurThread in
  let* e := Arch_performTransfer arch cur dest in
  if negb (is_none e) then ret e
  else
  let n := if n_frameRegisters + n_gpRegisters <? n0 then n_frameRegisters + n_gpRegisters else n0 in
  let archInfo := Arch_getSanitiseRegisterInfo dest in
  writeRegisters frameRegisters 0 n dest buffer archInfo ;;;
  writeRegisters gpRegisters n_frameRegisters n dest buffer archInfo ;;;
  let* pc := getRestartPC dest in
  setNextPC dest pc ;;;
  Arch_postModifyRegisters dest ;;;
  (if resumeTarget then restart dest else ret tt) ;;;
  let* cur' := gets ksCurThread in
  (if dest =? cur' then rescheduleRequired else ret tt) ;;;
  ret EXCEPTION_NONE.

(** Copying a derived capability into the TCB's own CNode, if its source and
    the invoked thread capability still designate the same objects. *)
Definition installTCBRoot (target slot rootSlot : Z) (newCap : cap) (srcSlot : Z) : K unit :=
  let* srcCap := slot_cap srcSlot in
  if sameObjectAs newCap srcCap then
    let* thisCap := slot_cap slot in
    if sameObjectAs (cap_thread_cap target) thisCap then cteInsert newCap srcSlot rootSlot
    else ret tt
  else ret tt.

Definition invokeTCB_ThreadControl (fuel : nat) (target slot faultep mcp priority : Z)
    (cRoot_newCap : cap) (cRoot_srcSlot : Z) (vRoot_newCap : cap) (vRoot_srcSlot : Z)
    (bufferAddr : Z) (bufferCap : cap) (bufferSrcSlot updateFlags : Z) : K exception_t :=
  let space := has_flag updateFlags thread_control_update_space in
  (if space then modTCB target (set_tcbFaultHandler (fun _ => faultep)) else ret tt) ;;;
  (if has_flag updateFlags thread_control_update_mcp then setMCPriority target mcp else ret tt) ;;;
  let* e :=
    if space then
      let rootSlot := TCB_PTR_CTE_PTR target tcbCTable in
      let* e := cteDelete fuel rootSlot true in
      if negb (is_none e) then ret e
      else installTCBRoot target slot rootSlot cRoot_newCap cRoot_srcSlot ;;; ret EXCEPTION_NONE
    else ret EXCEPTION_NONE in
  if negb (is_none e) then ret e
  else
  let* e :=
    if space then
      let rootSlot := TCB_PTR_CTE_PTR target tcbVTable in
      let* e := cteDelete fuel rootSlot true in
      if negb (is_none e) then ret e
      else installTCBRoot target slot rootSlot vRoot_newCap vRoot_srcSlot ;;; ret EXCEPTION_NONE
    else ret EXCEPTION_NONE in
  if negb (is_none e) then ret e
  else
  let* e :=
    if has_flag updateFlags thread_control_update_ipc_buffer then
      let bufferSlot := TCB_PTR_CTE_PTR target tcbBuffer in
      let* e := cteDelete fuel bufferSlot true in
      if negb (is_none e) then ret e
      else
        modTCB target (set_tcbIPCBuffer (fun _ => bufferAddr)) ;;;
        (if negb (bufferSrcSlot =? 0) then
           installTCBRoot target slot bufferSlot bufferCap bufferSrcSlot
         else ret tt) ;;;
        let* cur := gets ksCurThread in
        (if target =? cur then rescheduleRequired else ret tt) ;;;
        ret EXCEPTION_NONE
    else ret EXCEPTION_NONE in
  if negb (is_none e) then ret e
  else
  (if has_flag updateFlags thread_control_update_priority then setPriority target priority else ret tt) ;;;
  ret EXCEPTION_NONE.

(** ** Decoding *)
Definition truncated : K exception_t := sys_error (syscall_error_type seL4_TruncatedMessage).
Definition illegal : K exception_t := sys_error (syscall_error_type seL4_IllegalOperation).

Definition decodeSetTLSBase (c : cap) (length buffer : Z) : K exception_t :=
  if length <? 1 then truncated
  else
  let* tls_base := getSyscallArg 0 buffer in
  restart_current ;;;
  let* thread := cap_thread_cap_get_capTCBPtr c in
  invokeSetTLSBase thread tls_base.

Definition decodeSetFlags (c : cap) (length : Z) (call : bool) (buffer : Z) : K exception_t :=
  let* thread := cap_thread_cap_get_capTCBPtr c in
  if length <? 2 then truncated
  else
  let* clear := getSyscallArg 0 buffer in
  let* set := getSyscallArg 1 buffer in
  restart_current ;;;
  invokeSetFlags thread clear set call ;;;
  ret EXCEPTION_NONE.

Definition decodeCopyRegisters (c : cap) (length buffer : Z) : K exception_t :=
  let* ref0 := excaprefs 0 in
  match ref0 with
  | None => truncated
  | Some slot =>
    if length <? 1 then truncated
    else
    let* flags := getSyscallArg 0 buffer in
    let transferArch := Arch_decodeTransfer (Z.shiftr flags 8) in
    let* source_cap := slot_cap slot in
    match source_cap with
    | cap_thread_cap srcTCB =>
        restart_current ;;;
        let* dest := cap_thread_cap_get_capTCBPtr c in
        invokeTCB_CopyRegisters dest srcTCB (has_flag flags (BIT 0)) (has_flag flags (BIT 1))
          (has_flag flags (BIT 2)) (has_flag flags (BIT 3)) transferArch
    | _ => sys_error (syscall_invalidCapability 1)
    end
  end.

Definition decodeReadRegisters (c : cap) (length : Z) (call : bool) (buffer : Z) : K exception_t :=
  if length <? 2 then truncated
  else
  let* flags := getSyscallArg 0 buffer in
  let* n := getSyscallArg 1 buffer in
  if (n <? 1) || (n_frameRegisters + n_gpRegisters <? n) then
    sys_error (syscall_rangeError 1 (n_frameRegisters + n_gpRegisters))
  else
  let transferArch := Arch_decodeTransfer (Z.shiftr flags 8) in
  let* thread := cap_thread_cap_get_capTCBPtr c in
  let* cur := gets ksCurThread in
  if thread =? cur then illegal
  else
  restart_current ;;;
  invokeTCB_ReadRegisters thread (has_flag flags (BIT 0)) n transferArch call.

Definition decodeWriteRegisters (c : cap) (length buffer : Z) : K exception_t :=
  if length <? 2 then truncated
  else
  let* flags := getSyscallArg 0 buffer in
  let* w := getSyscallArg 1 buffer in
  if wsub length 2 <? w then truncated
  else
  let transferArch := Arch_decodeTransfer (Z.shiftr flags 8) in
  let* thread := cap_thread_cap_get_capTCBPtr c in
  let* cur := gets ksCurThread in
  if thread =? cur then illegal
  else
  restart_current ;;;
  invokeTCB_WriteRegisters thread (has_flag flags (BIT 0)) w transferArch buffer.

(** Deriving the buffer capability: its slot is dropped when the address is
    zero. *)
Definition decode_buffer_cap (bufferAddr bufferSlot : Z) (bufferCap : cap)
    : K (exception_t * Z * cap) :=
  if bufferAddr =? 0 then ret (EXCEPTION_NONE, 0, bufferCap)
  else
    let* (status, derived) := deriveCap bufferSlot bufferCap in
    if negb (is_none status) then ret (status, bufferSlot, bufferCap)
    else
      let* e := checkValidIPCBuffer bufferAddr derived in
      ret (e, bufferSlot, derived).

(** Deriving the two roots of a thread, common to [decodeTCBConfigure] and
    [decodeSetSpace]. *)
Definition decode_space_caps (target cRootData : Z) (cRootCap0 : cap) (cRootSlot vRootData : Z)
    (vRootCap0 : cap) (vRootSlot : Z) : K (exception_t * cap * cap) :=
  let err m := let* e := m in ret (e, cap_null_cap, cap_null_cap) in
  let* long1 := slotCapLongRunningDelete (TCB_PTR_CTE_PTR target tcbCTable) in
  let* long2 :=
    if (long1 : bool) then ret true else slotCapLongRunningDelete (TCB_PTR_CTE_PTR target tcbVTable) in
  if (long2 : bool) then err illegal
  else
  let cRootCap1 := if negb (cRootData =? 0) then updateCapData false cRootData cRootCap0 else cRootCap0 in
  let* (status, cRootCap) := deriveCap cRootSlot cRootCap1 in
  if negb (is_none status) then err (ret status)
  else if negb (cap_is_cnode cRootCap) then err illegal
  else
  let vRootCap1 := if negb (vRootData =? 0) then updateCapData false vRootData vRootCap0 else vRootCap0 in
  let* (status, vRootCap) := deriveCap vRootSlot vRootCap1 in
  if negb (is_none status) then err (ret status)
  else if negb (isValidVTableRoot vRootCap) then err illegal
  else ret (EXCEPTION_NONE, cRootCap, vRootCap).

Definition TCBCONFIGURE_ARGS : Z := 4.
Definition DECODE_SET_SPACE_PARAMS : Z := 3.

Definition decodeTCBConfigure (fuel : nat) (c : cap) (length slot buffer : Z) : K exception_t :=
  let* ref0 := excaprefs 0 in
  let* ref1 := excaprefs 1 in
  let* ref2 := excaprefs 2 in
  match ref0, ref1, ref2 with
  | Some cRootSlot, Some vRootSlot, Some bufferSlot0 =>
    if length <? TCBCONFIGURE_ARGS then truncated
    else
    let* faultEP := getSyscallArg 0 buffer in
    let* cRootData := getSyscallArg 1 buffer in
    let* vRootData := getSyscallArg 2 buffer in
    let* bufferAddr := getSyscallArg 3 buffer in
    let* cRootCap0 := slot_cap cRootSlot in
    let* vRootCap0 := slot_cap vRootSlot in
    let* bufferCap0 := slot_cap bufferSlot0 in
    let* (e, bufferSlot, bufferCap) := decode_buffer_cap bufferAddr bufferSlot0 bufferCap0 in
    if negb (is_none e) then ret e
    else
    let* target := cap_thread_cap_get_capTCBPtr c in
    let* (e, cRootCap, vRootCap) :=
      decode_space_caps target cRootData cRootCap0 cRootSlot vRootData vRootCap0 vRootSlot in
    if negb (is_none e) then ret e
    else
    restart_current ;;;
    invokeTCB_ThreadControl fuel target slot faultEP NULL_PRIO NULL_PRIO cRootCap cRootSlot
      vRootCap vRootSlot bufferAddr bufferCap bufferSlot
      (Z.lor thread_control_update_space thread_control_update_ipc_buffer)
  | _, _, _ => truncated
  end.

Definition decodeSetSpace (fuel : nat) (c : cap) (length slot buffer : Z) : K exception_t :=
  let* ref0 := excaprefs 0 in
  let* ref1 := excaprefs 1 in
  match ref0, ref1 with
  | Some cRootSlot, Some vRootSlot =>
    if length <? DECODE_SET_SPACE_PARAMS then truncated
    else
    let* faultEP := getSyscallArg 0 buffer in
    let* cRootData := getSyscallArg 1 buffer in
    let* vRootData := getSyscallArg 2 buffer in
    let* cRootCap0 := slot_cap cRootSlot in
    let* vRootCap0 := slot_cap vRootSlot in
    let* target := cap_thread_cap_get_capTCBPtr c in
    let* (e, cRootCap, vRootCap) :=
      decode_space_caps target cRootData cRootCap0 cRootSlot vRootData vRootCap0 vRootSlot in
    if negb (is_none e) then ret e
    else
    restart_current ;;;
    invokeTCB_ThreadControl fuel target slot faultEP NULL_PRIO NULL_PRIO cRootCap cRootSlot
      vRootCap vRootSlot 0 cap_null_cap 0 thread_control_update_space
  | _, _ => truncated
  end.

Definition decodeSetIPCBuffer (fuel : nat) (c : cap) (length slot buffer : Z) : K exception_t :=
  let* ref0 := excaprefs 0 in
  match ref0 with
  | None => truncated
  | Some bufferSlot0 =>
    if length <? 1 then truncated
    else
    let* bufferPtr := getSyscallArg 0 buffer in
    let* bufferCap0 := slot_cap bufferSlot0 in
    let* (e, bufferSlot, bufferCap) := decode_buffer_cap bufferPtr bufferSlot0 bufferCap0 in
    if negb (is_none e) then ret e
    else
    restart_current ;;;
    let* target := cap_thread_cap_get_capTCBPtr c in
    invokeTCB_ThreadControl fuel target slot 0 NULL_PRIO NULL_PRIO cap_null_cap 0 cap_null_cap 0
      bufferPtr bufferCap bufferSlot thread_control_update_ipc_buffer
  end.

(** [invokeTCB_ThreadControl] with only scheduling parameters. *)
Definition thread_control_sched (fuel : nat) (c : cap) (mcp priority flags : Z) : K exception_t :=
  restart_current ;;;
  let* target := cap_thread_cap_get_capTCBPtr c in
  invokeTCB_ThreadControl fuel target 0 0 mcp priority cap_null_cap 0 cap_null_cap 0 0 cap_null_cap 0 flags.

Definition decodeSetPriority (fuel : nat) (c : cap) (length buffer : Z) : K exception_t :=
  let* ref0 := excaprefs 0 in
  match ref0 with
  | None => truncated
  | Some slot =>
    if length <? 1 then truncated
    else
    let* newPrio := getSyscallArg 0 buffer in
    let* authCap := slot_cap slot in
    match authCap with
    | cap_thread_cap authTCB =>
        let* status := checkPrio newPrio authTCB in
        if negb (is_none status) then ret status
        else thread_control_sched fuel c NULL_PRIO newPrio thread_control_update_priority
    | _ => sys_error (syscall_invalidCapability 1)
    end
  end.

Definition decodeSetMCPriority (fuel : nat) (c : cap) (length buffer : Z) : K exception_t :=
  let* ref0 := excaprefs 0 in
  match ref0 with
  | None => truncated
  | Some slot =>
    if length <? 1 then truncated
    else
    let* newMcp := getSyscallArg 0 buffer in
    let* authCap := slot_cap slot in
    match authCap with
    | cap_thread_cap authTCB =>
        let* status := checkPrio newMcp authTCB in
        if negb (is_none status) then ret status
        else thread_control_sched fuel c newMcp NULL_PRIO thread_control_update_mcp
    | _ => sys_error (syscall_invalidCapability 1)
    end
  end.

Definition decodeSetSchedParams (fuel : nat) (c : cap) (length buffer : Z) : K exception_t :=
  let* ref0 := excaprefs 0 in
  match ref0 with
  | None => truncated
  | Some slot =>
    if length <? 2 then truncated
    else
    let* newMcp := getSyscallArg 0 buffer in
    let* newPrio := getSyscallArg 1 buffer in
    let* authCap := slot_cap slot in
    match authCap with
    | cap_thread_cap authTCB =>
        let* status := checkPrio newMcp authTCB in
        if negb (is_none status) then ret status
        else
        let* status := checkPrio newPrio authTCB in
        if negb (is_none status) then ret status
        else thread_control_sched fuel c newMcp newPrio
               (Z.lor thread_control_update_mcp thread_control_update_priority)
    | _ => sys_error (syscall_invalidCapability 1)
    end
  end.

Definition decodeBindNotification (c : cap) : K exception_t :=
  let* ref0 := excaprefs 0 in
  match ref0 with
  | None => truncated
  | Some slot =>
    let* tcb := cap_thread_cap_get_capTCBPtr c in
    let* t := getTCB tcb in
    if negb (tcbBoundNotification t =? 0) then illegal
    else
    let* ntfn_cap := slot_cap slot in
    match ntfn_cap with
    | cap_notification_cap _ canReceive _ ntfnPtr =>
        if negb canReceive then illegal
        else
        let* n := getNTFN ntfnPtr in
        if negb (ntfnQueue_head n =? 0) || negb (ntfnBoundTCB n =? 0) then illegal
        else
        restart_current ;;;
        invokeTCB_NotificationControl tcb ntfnPtr
    | _ => illegal
    end
  end.

Definition decodeUnbindNotification (c : cap) : K exception_t :=
  let* tcb := cap_thread_cap_get_capTCBPtr c in
  let* t := getTCB tcb in
  if tcbBoundNotification t =? 0 then illegal
  else
  restart_current ;;;
  invokeTCB_NotificationControl tcb 0.

Definition decodeTCBInvocation (fuel : nat) (invLabel length : Z) (c : cap) (slot : Z) (call : bool)
    (buffer : Z) : K exception_t :=
  if invLabel =? TCBReadRegisters then decodeReadRegisters c length call buffer
  else if invLabel =? TCBWriteRegisters then decodeWriteRegisters c length buffer
  else if invLabel =? TCBCopyRegisters then decodeCopyRegisters c length buffer
  else if invLabel =? TCBSuspend then
    restart_current ;;; let* tcb := cap_thread_cap_get_capTCBPtr c in invokeTCB_Suspend tcb
  else if invLabel =? TCBResume then
    restart_current ;;; let* tcb := cap_thread_cap_get_capTCBPtr c in invokeTCB_Resume tcb
  else if invLabel =? TCBConfigure then decodeTCBConfigure fuel c length slot buffer
  else if invLabel =? TCBSetPriority then decodeSetPriority fuel c length buffer
  else if invLabel =? TCBSetMCPriority then decodeSetMCPriority fuel c length buffer
  else if invLabel =? TCBSetSchedParams then decodeSetSchedParams fuel c length buffer
  else if invLabel =? TCBSetIPCBuffer then decodeSetIPCBuffer fuel c length slot buffer
  else if invLabel =? TCBSetSpace then decodeSetSpace fuel c length slot buffer
  else if invLabel =? TCBBindNotification then decodeBindNotification c
  else if invLabel =? TCBUnbindNotification then decodeUnbindNotification c
  else if invLabel =? TCBSetTLSBase then decodeSetTLSBase c length buffer
  else if invLabel =? TCBSetFlags then decodeSetFlags c length call buffer
  else illegal.
