(* ===== verification/Interrupt.v ===== *)
(** * Interrupts

    src/object/interrupt.c and src/arch/arm/object/interrupt.c, for the GICv2
    the qemu-arm-virt platform is built with. *)
From S2P Require Import Prelude Dll Structures CapOps CSpace VSpace Sched Mdb Messages Objects Delete Untyped CNodeInv.
From stdpp Require Import base list sets gmap.
#[local] Open Scope Z_scope.

Definition IRQIssueIRQHandler : Z := 26.
Definition IRQAckIRQ : Z := 27.
Definition IRQSetIRQHandler : Z := 28.
Definition IRQClearIRQHandler : Z := 29.

(** [maxIRQ] of the generated platform header. *)
Definition maxIRQ : Z := 159.
Definition NUM_SGIS : Z := 16.
Definition GIC_SGI_NUM_TARGETS : Z := 8.

Definition maskInterrupt (disable : bool) (irq : Z) : K unit := doMachineOp (op_maskInterrupt disable irq).
Definition ackInterrupt (irq : Z) : K unit := doMachineOp (op_ackInterrupt irq).

Definition getIRQState (irq : Z) : K irq_state :=
  let* o := gets (fun s => intStateIRQTable s !! irq) in from_option_M o.

Definition isIRQActive (irq : Z) : K bool :=
  let* st := getIRQState irq in ret (negb (bool_decide (st = IRQInactive))).

Definition Arch_checkIRQ (irq_w : Z) : K exception_t :=
  if maxIRQ <? irq_w then syscall_rangeError 0 maxIRQ ;;; ret EXCEPTION_SYSCALL_ERROR
  else ret EXCEPTION_NONE.

(** ** IRQ control *)
Definition invokeIRQControl (irq handlerSlot controlSlot : Z) : K exception_t :=
  setIRQState IRQSignal irq ;;;
  cteInsert (cap_irq_handler_cap irq) controlSlot handlerSlot ;;;
  ret EXCEPTION_NONE.

Definition Arch_invokeIRQControl (irq handlerSlot controlSlot : Z) (trigger : bool) : K exception_t :=
  doMachineOp (op_setIRQTrigger irq trigger) ;;;
  invokeIRQControl irq handlerSlot controlSlot.

Definition Arch_invokeIssueSGISignal (irq target sgiSlot controlSlot : Z) : K exception_t :=
  cteInsert (cap_sgi_signal_cap irq target) controlSlot sgiSlot ;;;
  ret EXCEPTION_NONE.

Definition plat_SGITargetValid (target : Z) : bool := target <=? GIC_SGI_NUM_TARGETS - 1.

(** Looking up an empty destination slot, as every issuing branch does. *)
Definition lookup_empty_target (cnodeCap : cap) (index depth : Z) (k : Z -> K exception_t)
    : K exception_t :=
  let* (status, destSlot) := lookupTargetSlot cnodeCap index depth in
  if negb (is_none status) then ret status
  else
    let* status' := ensureEmptySlot destSlot in
    if negb (is_none status') then ret status' else k destSlot.

Section ArchLabels.
(** The architecture labels are numbered by generated headers. *)
Variables ARMIRQIssueIRQHandlerTrigger ARMIRQIssueSGISignal : Z.

Definition Arch_decodeIRQControlInvocation (invLabel length srcSlot buffer : Z) : K exception_t :=
  let* ref0 := excaprefs 0 in
  if invLabel =? ARMIRQIssueIRQHandlerTrigger then
    match ref0 with
    | None => sys_error (syscall_error_type seL4_TruncatedMessage)
    | Some rootSlot =>
      if length <? 4 then sys_error (syscall_error_type seL4_TruncatedMessage)
      else
      let* irq := getSyscallArg 0 buffer in
      let* trigger := getSyscallArg 1 buffer in
      let* index := getSyscallArg 2 buffer in
      let* depth := getSyscallArg 3 buffer in
      let* cnodeCap := slot_cap rootSlot in
      let* status := Arch_checkIRQ irq in
      if negb (is_none status) then ret status
      else
      let* active := isIRQActive irq in
      if (active : bool) then sys_error (syscall_error_type seL4_RevokeFirst)
      else lookup_empty_target cnodeCap index depth (fun destSlot =>
        restart_current ;;;
        Arch_invokeIRQControl irq destSlot srcSlot (negb (trigger =? 0)))
    end
  else if invLabel =? ARMIRQIssueSGISignal then
    match ref0 with
    | None => sys_error (syscall_error_type seL4_TruncatedMessage)
    | Some rootSlot =>
      if length <? 4 then sys_error (syscall_error_type seL4_TruncatedMessage)
      else if NUM_SGIS =? 0 then sys_error (syscall_error_type seL4_IllegalOperation)
      else
      let* irq := getSyscallArg 0 buffer in
      let* target := getSyscallArg 1 buffer in
      let* index := getSyscallArg 2 buffer in
      let* depth := getSyscallArg 3 buffer in
      let* cnodeCap := slot_cap rootSlot in
      if NUM_SGIS <=? irq then sys_error (syscall_rangeError 0 (NUM_SGIS - 1))
      else if negb (plat_SGITargetValid target) then sys_error (syscall_invalidArgument 1)
      else lookup_empty_target cnodeCap index depth (fun destSlot =>
        restart_current ;;;
        Arch_invokeIssueSGISignal irq target destSlot srcSlot)
    end
  else sys_error (syscall_error_type seL4_IllegalOperation).

Definition decodeIRQControlInvocation (invLabel length srcSlot buffer : Z) : K exception_t :=
  if invLabel =? IRQIssueIRQHandler then
    let* ref0 := excaprefs 0 in
    match ref0 with
    | None => sys_error (syscall_error_type seL4_TruncatedMessage)
    | Some rootSlot =>
      if length <? 3 then sys_error (syscall_error_type seL4_TruncatedMessage)
      else
      let* irq := getSyscallArg 0 buffer in
      let* index := getSyscallArg 1 buffer in
      let* depth := getSyscallArg 2 buffer in
      let* cnodeCap := slot_cap rootSlot in
      let* status := Arch_checkIRQ irq in
      if negb (is_none status) then ret status
      else
      let* active := isIRQActive irq in
      if (active : bool) then sys_error (syscall_error_type seL4_RevokeFirst)
      else lookup_empty_target cnodeCap index depth (fun destSlot =>
        restart_current ;;;
        invokeIRQControl irq destSlot srcSlot)
    end
  else Arch_decodeIRQControlInvocation invLabel length srcSlot buffer.
End ArchLabels.

Definition invokeSGISignalGenerate (irq target : Z) : K exception_t :=
  doMachineOp (op_sendSGI irq target) ;;; ret EXCEPTION_NONE.

Definition decodeSGISignalInvocation (invLabel length : Z) (c : cap) (buffer : Z) : K exception_t :=
  match c with
  | cap_sgi_signal_cap irq target =>
      restart_current ;;; invokeSGISignalGenerate irq target
  | _ => fail
  end.

(** ** IRQ handlers *)
Definition invokeIRQHandler_AckIRQ (irq : Z) : K unit := maskInterrupt false irq.

Definition invokeIRQHandler_SetIRQHandler (irq : Z) (c : cap) (slot : Z) : K unit :=
  let* irqSlot := irq_slot irq in
  cteDeleteOne irqSlot ;;;
  cteInsert c slot irqSlot.

Definition invokeIRQHandler_ClearIRQHandler (irq : Z) : K unit :=
  let* irqSlot := irq_slot irq in
  cteDeleteOne irqSlot.

Definition decodeIRQHandlerInvocation (invLabel irq : Z) : K exception_t :=
  if invLabel =? IRQAckIRQ then
    restart_current ;;; invokeIRQHandler_AckIRQ irq ;;; ret EXCEPTION_NONE
  else if invLabel =? IRQSetIRQHandler then
    let* ref0 := excaprefs 0 in
    match ref0 with
    | None => sys_error (syscall_error_type seL4_TruncatedMessage)
    | Some slot =>
      let* ntfnCap := slot_cap slot in
      match ntfnCap with
      | cap_notification_cap _ _ true _ =>
          restart_current ;;;
          invokeIRQHandler_SetIRQHandler irq ntfnCap slot ;;;
          ret EXCEPTION_NONE
      | _ => sys_error (syscall_invalidCapability 0)
      end
    end
  else if invLabel =? IRQClearIRQHandler then
    restart_current ;;; invokeIRQHandler_ClearIRQHandler irq ;;; ret EXCEPTION_NONE
  else sys_error (syscall_error_type seL4_IllegalOperation).

(** ** Delivery *)
Definition handleInterrupt (irq : Z) : K unit :=
  if maxIRQ <? irq then
    maskInterrupt true irq ;;;
    ackInterrupt irq
  else
    let* st := getIRQState irq in
    (match st with
     | IRQSignal =>
         let* slot := irq_slot irq in
         let* c := slot_cap slot in
         (match c with
          | cap_notification_cap badge _ true ptr => sendSignal ptr badge
          | _ => ret tt
          end) ;;;
         maskInterrupt true irq
     | IRQTimer =>
         timerTick ;;;
         doMachineOp op_resetTimer
     | IRQReserved => doMachineOp (op_handleReservedIRQ irq)
     | IRQInactive => maskInterrupt true irq
     end) ;;;
    ackInterrupt irq.
