(* ===== verification/Domain.v ===== *)
(** * Scheduling domains

    src/object/domain.c: assigning threads to domains and editing the domain
    schedule. *)
From S2P Require Import Prelude Dll Structures CapOps CSpace VSpace Sched Mdb Messages Objects Delete Untyped CNodeInv.
From stdpp Require Import base list sets gmap.
#[local] Open Scope Z_scope.

Definition DomainSetSet : Z := 30.
Definition DomainScheduleConfigure : Z := 31.
Definition DomainScheduleSetStart : Z := 32.
Definition TIME_ARG_SIZE : Z := 1.

(** [domScheduleLength]: the number of entries of [ksDomSchedule]. *)
Definition domScheduleLength : K Z := gets (fun s => Z.of_nat (length (ksDomSchedule s))).

Definition mode_parseTimeArg (i buffer : Z) : K Z := getSyscallArg i buffer.

Definition invokeDomainSetSet (tcb domain : Z) : K unit :=
  prepareSetDomain tcb domain ;;;
  setDomain tcb domain.

Definition decodeDomainSetSetInvocation (length buffer : Z) : K exception_t :=
  if length =? 0 then sys_error (syscall_error_type seL4_TruncatedMessage)
  else
  let* domain := getSyscallArg 0 buffer in
  if numDomains <=? domain then sys_error (syscall_invalidArgument 0)
  else
  let* ref0 := excaprefs 0 in
  match ref0 with
  | None => sys_error (syscall_error_type seL4_TruncatedMessage)
  | Some slot =>
    let* tcap := slot_cap slot in
    match tcap with
    | cap_thread_cap tcb =>
        restart_current ;;;
        invokeDomainSetSet tcb domain ;;;
        ret EXCEPTION_NONE
    | _ => sys_error (syscall_invalidArgument 1)
    end
  end.

(** A store outside the array is stuck. *)
Definition invokeDomainScheduleConfigure (index domain duration : Z) : K unit :=
  let* len := domScheduleLength in
  assert (index <? len) ;;;
  modify (set_ksDomSchedule (insert (Z.to_nat index) (dschedule_make domain duration))).

Definition decodeDomainScheduleConfigure (length buffer : Z) : K exception_t :=
  if length <? 2 + TIME_ARG_SIZE then sys_error (syscall_error_type seL4_TruncatedMessage)
  else
  let* index := getSyscallArg 0 buffer in
  let* domain := getSyscallArg 1 buffer in
  let* duration := mode_parseTimeArg 2 buffer in
  let* len := domScheduleLength in
  let* start := gets ksDomScheduleStart in
  if wsub len 1 <=? index then sys_error (syscall_rangeError 0 (wsub len 2))
  else if numDomains <=? domain then sys_error (syscall_rangeError 0 (numDomains - 1))
  else if DSCHED_MAX_DURATION <? duration then sys_error (syscall_invalidArgument 2)
  else if (duration =? 0) && negb (domain =? 0) then sys_error (syscall_invalidArgument 1)
  else if (index =? start) && (duration =? 0) then sys_error (syscall_invalidArgument 2)
  else
  restart_current ;;;
  invokeDomainScheduleConfigure index domain duration ;;;
  ret EXCEPTION_NONE.

Definition invokeDomainScheduleSetStart (index : Z) : K unit :=
  modify (set_ksDomScheduleStart (fun _ => index)) ;;;
  modify (set_ksDomainTime (fun _ => 0)) ;;;
  let* len := domScheduleLength in
  modify (set_ksDomScheduleIdx (fun _ => wsub len 2)) ;;;
  rescheduleRequired.

Definition decodeDomainScheduleSetStart (length buffer : Z) : K exception_t :=
  if length <? 1 then sys_error (syscall_error_type seL4_TruncatedMessage)
  else
  let* index := getSyscallArg 0 buffer in
  let* len := domScheduleLength in
  if len <=? index then sys_error (syscall_rangeError 0 (wsub len 1))
  else
  let* at_end := dschedule_is_end_marker index in
  if (at_end : bool) then sys_error (syscall_invalidArgument 0)
  else
  restart_current ;;;
  invokeDomainScheduleSetStart index ;;;
  ret EXCEPTION_NONE.

Definition decodeDomainInvocation (invLabel length buffer : Z) : K exception_t :=
  if invLabel =? DomainSetSet then decodeDomainSetSetInvocation length buffer
  else if invLabel =? DomainScheduleConfigure then decodeDomainScheduleConfigure length buffer
  else if invLabel =? DomainScheduleSetStart then decodeDomainScheduleSetStart length buffer
  else sys_error (syscall_error_type seL4_IllegalOperation).
