(* ===== verification/Syscall.v ===== *)
(** * System calls and kernel entries

    [decodeInvocation] and [performInvocation_*] of src/object/objecttype.c,
    [Arch_decodeInvocation] of src/arch/arm/64/object/objecttype.c, and the
    event handlers of src/api/syscall.c.  The invocation labels, the fault
    registers and the interrupt controller are parameters. *)
From S2P Require Import Prelude Dll Structures CapOps CSpace VSpace Sched Mdb Messages Objects Ipc Delete Untyped CNodeInv MmuInv TcbInv Interrupt Domain.
From stdpp Require Import base list sets gmap.
#[local] Open Scope Z_scope.

(** ** Invocations of simple objects *)
Definition performInvocation_Endpoint (ep badge : Z) (canGrant canGrantReply block call : bool)
    : K exception_t :=
  let* cur := gets ksCurThread in
  sendIPC block call badge canGrant canGrantReply cur ep ;;;
  ret EXCEPTION_NONE.

Definition performInvocation_Notification (ntfn badge : Z) : K exception_t :=
  sendSignal ntfn badge ;;; ret EXCEPTION_NONE.

Definition performInvocation_Reply (thread slot : Z) (canGrant : bool) : K exception_t :=
  let* cur := gets ksCurThread in
  doReplyTransfer cur thread slot canGrant ;;;
  ret EXCEPTION_NONE.

Inductive syscall_t :=
  | SysCall | SysReplyRecv | SysSend | SysNBSend | SysRecv | SysReply | SysYield | SysNBRecv.

Section Kernel.
(** Bound on the turns of deletion and revocation. *)
Variable fuel : nat.
Variables ARMIRQIssueIRQHandlerTrigger ARMIRQIssueSGISignal : Z.
(** The invocation labels of address-space objects. *)
Variable L : mmu_labels.
(** The fault address and syndrome registers. *)
Variables getFAR getESR : K Z.
(** The interrupt controller's acknowledge read, and its answer for none. *)
Variable getActiveIRQ : K Z.
Variable irqInvalid : Z.

Definition Arch_decodeInvocation (invLabel length cptr slot : Z) (c : cap) (call : bool) (buffer : Z)
    : K exception_t :=
  match c with
  | cap_sgi_signal_cap _ _ => decodeSGISignalInvocation invLabel length c buffer
  | _ => decodeARMMMUInvocation L invLabel length cptr slot c call buffer
  end.

Definition decodeInvocation (invLabel length capIndex slot : Z) (c : cap) (block call : bool)
    (buffer : Z) : K exception_t :=
  if isArchCap c then Arch_decodeInvocation invLabel length capIndex slot c call buffer
  else match c with
  | cap_null_cap | cap_zombie_cap _ _ => sys_error (syscall_invalidCapability 0)
  | cap_endpoint_cap badge canGrantReply canGrant canSend _ ep =>
      if negb canSend then sys_error (syscall_invalidCapability 0)
      else
        restart_current ;;;
        performInvocation_Endpoint ep badge canGrant canGrantReply block call
  | cap_notification_cap badge _ canSend ntfn =>
      if negb canSend then sys_error (syscall_invalidCapability 0)
      else
        restart_current ;;;
        performInvocation_Notification ntfn badge
  | cap_reply_cap canGrant master tcb =>
      if (master : bool) then sys_error (syscall_invalidCapability 0)
      else
        restart_current ;;;
        performInvocation_Reply tcb slot canGrant
  | cap_thread_cap _ => decodeTCBInvocation fuel invLabel length c slot call buffer
  | cap_domain_cap => decodeDomainInvocation invLabel length buffer
  | cap_cnode_cap _ _ _ _ => decodeCNodeInvocation fuel invLabel length c buffer
  | cap_untyped_cap _ _ _ _ => decodeUntypedInvocation invLabel length slot c call buffer
  | cap_irq_control_cap =>
      decodeIRQControlInvocation ARMIRQIssueIRQHandlerTrigger ARMIRQIssueSGISignal
        invLabel length slot buffer
  | cap_irq_handler_cap irq => decodeIRQHandlerInvocation invLabel irq
  | _ => fail
  end.

(** ** Events *)
Definition set_current_fault_to (f : seL4_Fault) : K unit := modify (set_current_fault (fun _ => f)).

Definition handleSpuriousIRQ : K unit := ret tt.

Definition checkInterrupt : K unit :=
  let* irq := getActiveIRQ in
  if negb (irq =? irqInvalid) then handleInterrupt irq else handleSpuriousIRQ.

(** Every entry ends by choosing a thread and making it runnable. *)
Definition kernel_exit : K exception_t :=
  schedule ;;; activateThread ;;; ret EXCEPTION_NONE.

Definition handleInterruptEntry : K exception_t := checkInterrupt ;;; kernel_exit.

Definition handleUnknownSyscall (w : Z) : K exception_t :=
  set_current_fault_to (seL4_Fault_UnknownSyscall w) ;;;
  let* cur := gets ksCurThread in
  handleFault cur ;;;
  kernel_exit.

Definition handleUserLevelFault (w_a w_b : Z) : K exception_t :=
  set_current_fault_to (seL4_Fault_UserException w_a w_b) ;;;
  let* cur := gets ksCurThread in
  handleFault cur ;;;
  kernel_exit.

Definition handleVMFaultEvent (vm_faultType : Z) : K exception_t :=
  let* cur := gets ksCurThread in
  let* status := handleVMFault getFAR getESR cur vm_faultType in
  (if negb (is_none status) then let* cur' := gets ksCurThread in handleFault cur' else ret tt) ;;;
  kernel_exit.

Definition handleInvocation (isCall isBlocking : bool) : K exception_t :=
  let* thread := gets ksCurThread in
  let* mi := getRegister thread msgInfoRegister in
  let info := messageInfoFromWord mi in
  let* cptr := getRegister thread capRegister in
  let* (status, slot, c) := lookupCapAndSlot thread cptr in
  if negb (is_none status) then
    set_current_fault_to (seL4_Fault_CapFault cptr false) ;;;
    when isBlocking (handleFault thread) ;;;
    ret EXCEPTION_NONE
  else
  let* buffer := lookupIPCBuffer false thread in
  let* status := lookupExtraCaps thread buffer info in
  if negb (is_none status) then
    when isBlocking (handleFault thread) ;;;
    ret EXCEPTION_NONE
  else
  let length0 := seL4_MessageInfo_get_length info in
  let length := if (n_msgRegisters <? length0) && (buffer =? 0) then n_msgRegisters else length0 in
  let* status := decodeInvocation (seL4_MessageInfo_get_label info) length cptr slot c
                   isBlocking isCall buffer in
  match status with
  | EXCEPTION_PREEMPTED => ret status
  | EXCEPTION_SYSCALL_ERROR =>
      when isCall (replyFromKernel_error thread) ;;;
      ret EXCEPTION_NONE
  | _ =>
      let* t := getTCB thread in
      (if bool_decide (tsType_of t = ThreadState_Restart) then
         when isCall (replyFromKernel_success_empty thread) ;;;
         setThreadState thread ThreadState_Running
       else ret tt) ;;;
      ret EXCEPTION_NONE
  end.

Definition handleReply : K unit :=
  let* cur := gets ksCurThread in
  let callerSlot := TCB_PTR_CTE_PTR cur tcbCaller in
  let* callerCap := slot_cap callerSlot in
  match callerCap with
  | cap_reply_cap canGrant false caller =>
      assert (negb (caller =? cur)) ;;;
      doReplyTransfer cur caller callerSlot canGrant
  | cap_null_cap => ret tt
  | _ => fail
  end.

(** The three failing branches of [handleRecv]. *)
Definition recv_missing_cap (epCPtr : Z) : K unit :=
  set_lookup_fault (lookup_fault_missing_capability 0) ;;;
  set_current_fault_to (seL4_Fault_CapFault epCPtr true) ;;;
  let* cur := gets ksCurThread in
  handleFault cur.

Definition handleRecv (isBlocking : bool) : K unit :=
  let* cur := gets ksCurThread in
  let* epCPtr := getRegister cur capRegister in
  let* (status, c) := lookupCap cur epCPtr in
  if negb (is_none status) then
    set_current_fault_to (seL4_Fault_CapFault epCPtr true) ;;;
    handleFault cur
  else match c with
  | cap_endpoint_cap _ _ _ _ canReceive _ =>
      if negb canReceive then recv_missing_cap epCPtr
      else
        deleteCallerCap cur ;;;
        receiveIPC cur c isBlocking
  | cap_notification_cap _ canReceive _ ntfnPtr =>
      let* n := getNTFN ntfnPtr in
      let boundTCB := ntfnBoundTCB n in
      if negb canReceive || (negb (boundTCB =? 0) && negb (boundTCB =? cur)) then
        recv_missing_cap epCPtr
      else receiveSignal cur c isBlocking
  | _ => recv_missing_cap epCPtr
  end.

Definition handleYield : K unit :=
  let* cur := gets ksCurThread in
  tcbSchedDequeue cur ;;;
  tcbSchedAppend cur ;;;
  rescheduleRequired.

Definition invocation_event (isCall isBlocking : bool) : K unit :=
  let* e := handleInvocation isCall isBlocking in
  if negb (is_none e) then checkInterrupt else ret tt.

Definition handleSyscall (syscall : syscall_t) : K exception_t :=
  (match syscall with
   | SysSend => invocation_event false true
   | SysNBSend => invocation_event false false
   | SysCall => invocation_event true true
   | SysRecv => handleRecv true
   | SysReply => handleReply
   | SysReplyRecv => handleReply ;;; handleRecv true
   | SysNBRecv => handleRecv false
   | SysYield => handleYield
   end) ;;;
  kernel_exit.
End Kernel.
