(* ===== verification/Fastpath.v ===== *)
(** * The fastpath

    src/fastpath/fastpath.c, include/fastpath/fastpath.h and
    include/arch/arm/arch/64/mode/fastpath/fastpath.h: short versions of
    [SysCall] and [SysReplyRecv] for the common case, which write the words of
    the kernel's structures directly.  Whenever a check fails they fall back to
    [slowpath], the ordinary handler.

    A shift by 64 or more is undefined in C and fails here.  [fastpath_restore]
    loads the user registers from the thread's context, with the badge and the
    message word in the first two. *)
From S2P Require Import Prelude Dll Structures CapOps CSpace VSpace Sched Mdb Messages Objects Ipc Delete Untyped CNodeInv MmuInv TcbInv Interrupt Domain Syscall.
From stdpp Require Import base list gmap.
#[local] Open Scope Z_scope.

(** ** Words written without their accessors *)
Definition thread_state_ptr_set_tsType_np (ts : thread_state_type) (st : thread_state) : thread_state :=
  set_blockingObject (fun _ => 0) (set_tsType (fun _ => ts) st).

Definition thread_state_ptr_mset_blockingObject_tsType (ep_ref : Z) (ts : thread_state_type)
    (st : thread_state) : thread_state :=
  set_blockingObject (fun _ => ep_ref) (set_tsType (fun _ => ts) st).

Definition mdb_node_ptr_mset_mdbNext_mdbRevocable_mdbFirstBadged
    (next : Z) (revocable firstBadged : bool) (n : mdb_node) : mdb_node :=
  mdb_node_new next revocable firstBadged (mdbPrev n).

Definition mdb_node_ptr_set_mdbPrev_np (prev : Z) (n : mdb_node) : mdb_node :=
  set_mdbPrev (fun _ => prev) n.

Definition cap_reply_cap_ptr_new_np (canGrant master : bool) (tcb : Z) : cap :=
  cap_reply_cap canGrant master tcb.

Definition endpoint_ptr_mset_epQueue_tail_state (tail : Z) (st : endpoint_state) (e : endpoint) : endpoint :=
  set_epQueue_tail (fun _ => tail) (set_ep_state (fun _ => st) e).

Definition endpoint_ptr_set_epQueue_head_np (head : Z) (e : endpoint) : endpoint :=
  set_epQueue_head (fun _ => head) e.

(** ** Checks *)
Definition fastpath_mi_check (msgInfo : Z) : bool := 4 <? Z.land msgInfo (MASK (7 + 2)).

Definition isValidVTableRoot_fp (c : cap) : bool :=
  match c with cap_vspace_cap _ _ isMapped => isMapped | _ => false end.

Definition fastpath_reply_cap_check (c : cap) : bool :=
  match c with cap_reply_cap _ _ _ => true | _ => false end.

(** [x << n] and [x >> n]. *)
Definition c_shl (x n : Z) : K Z := assert (n <? wordBits) ;;; ret (wshl x n).
Definition c_shr (x n : Z) : K Z := assert (n <? wordBits) ;;; ret (Z.shiftr x n).

(** The [do] loop of [lookup_fp]; [bits] grows at every turn. *)
Fixpoint lookup_fp_loop (fuel : nat) (c : cap) (cptr bits : Z) : K cap :=
  match fuel with
  | O => fail
  | S fuel' =>
      match c with
      | cap_cnode_cap radixBits guardBits capGuard nodePtr =>
          let* cptr2 := c_shl cptr bits in
          let* mismatch :=
            if negb (guardBits =? 0) then
              let* g := c_shr cptr2 (wsub wordBits guardBits) in ret (negb (g =? capGuard))
            else ret false in
          if (mismatch : bool) then ret cap_null_cap
          else
            let* shifted := c_shl cptr2 guardBits in
            let* radix := c_shr shifted (wsub wordBits radixBits) in
            let* slot := getCTE (cte_offset nodePtr radix) in
            let c' := cte_cap slot in
            let bits' := wadd bits (wadd guardBits radixBits) in
            if (bits' <? wordBits) && cap_is_cnode c' then lookup_fp_loop fuel' c' cptr bits'
            else if wordBits <? bits' then ret cap_null_cap
            else ret c'
      | _ => fail
      end
  end.

Definition lookup_fp (c : cap) (cptr : Z) : K cap :=
  if negb (cap_is_cnode c) then ret cap_null_cap
  else lookup_fp_loop (S (Z.to_nat wordBits)) c cptr 0.

(** ** Actions *)
Definition fastpath_copy_mrs (length src dest : Z) : K unit :=
  let* r0 := from_option_M (arr msgRegisters 0) in
  for_ 0 length (fun i =>
    let* v := getRegister src (wadd r0 i) in
    setRegister dest (wadd r0 i) v).

Definition armv_contextSwitch_HWASID (vspace asid : Z) : K unit :=
  doMachineOp (op_setCurrentUserVSpaceRoot asid (addrFromPPtr vspace)).

Definition switchToThread_fp (thread vroot stored_hw_asid : Z) : K unit :=
  armv_contextSwitch_HWASID vroot (Z.land stored_hw_asid 0xffff) ;;;
  lazyFPURestore thread ;;;
  modify (set_ksCurThread (fun _ => thread)).

Definition fastpath_restore (badge msgInfo cur_thread : Z) : K unit :=
  setRegister cur_thread badgeRegister badge ;;;
  setRegister cur_thread msgInfoRegister msgInfo.

(** The check of a thread's address space: the root and the identifier, if the
    identifier is still assigned to the root. *)
Definition vspace_check_fp (newVTable : cap) : K (option (Z * Z)) :=
  if negb (isValidVTableRoot_fp newVTable) then ret None
  else match newVTable with
  | cap_vspace_cap asid cap_pd _ =>
      let* asid_map := findMapForASID asid in
      match asid_map with
      | asid_map_vspace vspace_root =>
          ret (if vspace_root =? cap_pd then Some (cap_pd, asid) else None)
      | asid_map_none => ret None
      end
  | _ => ret None
  end.

Definition maxDom : Z := numDomains - 1.

(** ** Call *)

(** After the point of no return. *)
Definition fastpath_call_commit (cur dest ep_ptr badge cap_pd stored_hw_asid info : Z) : K unit :=
  let* d := getTCB dest in
  modEP ep_ptr (endpoint_ptr_set_epQueue_head_np (tcbEPNext d)) ;;;
  (if negb (tcbEPNext d =? 0) then modTCB (tcbEPNext d) (set_tcbEPPrev (fun _ => 0))
   else modEP ep_ptr (endpoint_ptr_mset_epQueue_tail_state 0 EPState_Idle)) ;;;
  modTCB cur (upd_state (thread_state_ptr_set_tsType_np ThreadState_BlockedOnReply)) ;;;
  let replySlot := TCB_PTR_CTE_PTR cur tcbReply in
  let callerSlot := TCB_PTR_CTE_PTR dest tcbCaller in
  let* d1 := getTCB dest in
  let replyCanGrant := blockingIPCCanGrant (tcbState d1) in
  modCTE callerSlot (set_cte_cap (fun _ => cap_reply_cap_ptr_new_np replyCanGrant false cur)) ;;;
  modCTE callerSlot (set_cteMDBNode (mdb_node_ptr_set_mdbPrev_np replySlot)) ;;;
  modCTE replySlot (set_cteMDBNode
    (mdb_node_ptr_mset_mdbNext_mdbRevocable_mdbFirstBadged callerSlot true true)) ;;;
  fastpath_copy_mrs (seL4_MessageInfo_get_length info) cur dest ;;;
  modTCB dest (upd_state (thread_state_ptr_set_tsType_np ThreadState_Running)) ;;;
  switchToThread_fp dest cap_pd stored_hw_asid ;;;
  let msgInfo := wordFromMessageInfo (seL4_MessageInfo_set_capsUnwrapped info 0) in
  let* cur' := gets ksCurThread in
  fastpath_restore badge msgInfo cur'.

Section Fastpath.
(** The ordinary handler of a system call: [handleSyscall].  [slowpath] is
    called here with [SysCall] and [SysReplyRecv] only, which pass its test of
    the range of the standard system calls. *)
Variable handleSyscall : syscall_t -> K exception_t.

Definition slowpath (syscall : syscall_t) : K unit := let* _ := handleSyscall syscall in ret tt.

Definition fastpath_call (cptr msgInfo : Z) : K unit :=
  let* cur := gets ksCurThread in
  let* curt := getTCB cur in
  let fault_type := seL4_Fault_get_seL4_FaultType (tcbFault curt) in
  if fastpath_mi_check msgInfo || negb (fault_type =? 0) then slowpath SysCall
  else
  let* ct := getCTE (TCB_PTR_CTE_PTR cur tcbCTable) in
  let* ep_cap := lookup_fp (cte_cap ct) cptr in
  match ep_cap with
  | cap_endpoint_cap badge canGrantReply canGrant true _ ep_ptr =>
    let* e := getEP ep_ptr in
    let dest := epQueue_head e in
    if negb (bool_decide (ep_state e = EPState_Recv)) then slowpath SysCall
    else
    let* newVTable := getCTE (TCB_PTR_CTE_PTR dest tcbVTable) in
    let* vspace := vspace_check_fp (cte_cap newVTable) in
    match vspace with
    | None => slowpath SysCall
    | Some (cap_pd, stored_hw_asid) =>
      let* dom := if negb (maxDom =? 0) then gets ksCurDomain else ret 0 in
      let* d := getTCB dest in
      let* highest :=
        if tcbPriority d <? tcbPriority curt then isHighestPrio dom (tcbPriority d) else ret true in
      let* curDomain := gets ksCurDomain in
      if negb highest then slowpath SysCall
      else if negb canGrant && negb canGrantReply then slowpath SysCall
      else if negb (tcbDomain d =? curDomain) && (0 <? maxDom) then slowpath SysCall
      else fastpath_call_commit cur dest ep_ptr badge cap_pd stored_hw_asid msgInfo
    end
  | _ => slowpath SysCall
  end.

(** ** Reply and receive *)

(** Placing the current thread in the endpoint's queue. *)
Definition fastpath_ep_append (cur ep_ptr : Z) : K unit :=
  let* e := getEP ep_ptr in
  let endpointTail := epQueue_tail e in
  if endpointTail =? 0 then
    modTCB cur (set_tcbEPPrev (fun _ => 0)) ;;;
    modTCB cur (set_tcbEPNext (fun _ => 0)) ;;;
    modEP ep_ptr (endpoint_ptr_set_epQueue_head_np cur) ;;;
    modEP ep_ptr (endpoint_ptr_mset_epQueue_tail_state cur EPState_Recv)
  else
    modTCB endpointTail (set_tcbEPNext (fun _ => cur)) ;;;
    modTCB cur (set_tcbEPPrev (fun _ => endpointTail)) ;;;
    modTCB cur (set_tcbEPNext (fun _ => 0)) ;;;
    modEP ep_ptr (endpoint_ptr_mset_epQueue_tail_state cur EPState_Recv).

(** After the point of no return. *)
Definition fastpath_reply_recv_commit
    (cur caller ep_ptr : Z) (canGrant : bool) (cap_pd stored_hw_asid info : Z) : K unit :=
  modTCB cur (upd_state
    (thread_state_ptr_mset_blockingObject_tsType ep_ptr ThreadState_BlockedOnReceive)) ;;;
  modTCB cur (upd_state (set_blockingIPCCanGrant (fun _ => canGrant))) ;;;
  fastpath_ep_append cur ep_ptr ;;;
  let callerSlot := TCB_PTR_CTE_PTR cur tcbCaller in
  let* c := getCTE callerSlot in
  modCTE (mdbPrev (cteMDBNode c)) (set_cteMDBNode
    (mdb_node_ptr_mset_mdbNext_mdbRevocable_mdbFirstBadged 0 true true)) ;;;
  modCTE callerSlot (set_cte_cap (fun _ => cap_null_cap)) ;;;
  modCTE callerSlot (set_cteMDBNode (fun _ => nullMDBNode)) ;;;
  let badge := 0 in
  fastpath_copy_mrs (seL4_MessageInfo_get_length info) cur caller ;;;
  modTCB caller (upd_state (thread_state_ptr_set_tsType_np ThreadState_Running)) ;;;
  switchToThread_fp caller cap_pd stored_hw_asid ;;;
  let msgInfo := wordFromMessageInfo (seL4_MessageInfo_set_capsUnwrapped info 0) in
  let* cur' := gets ksCurThread in
  fastpath_restore badge msgInfo cur'.

Definition fastpath_reply_recv (cptr msgInfo : Z) : K unit :=
  let* cur := gets ksCurThread in
  let* curt := getTCB cur in
  let fault_type := seL4_Fault_get_seL4_FaultType (tcbFault curt) in
  if fastpath_mi_check msgInfo || negb (fault_type =? 0) then slowpath SysReplyRecv
  else
  let* ct := getCTE (TCB_PTR_CTE_PTR cur tcbCTable) in
  let* ep_cap := lookup_fp (cte_cap ct) cptr in
  match ep_cap with
  | cap_endpoint_cap _ _ canGrant _ true ep_ptr =>
    let* active :=
      if negb (tcbBoundNotification curt =? 0) then
        let* n := getNTFN (tcbBoundNotification curt) in
        ret (bool_decide (ntfn_state n = NtfnState_Active))
      else ret false in
    if (active : bool) then slowpath SysReplyRecv
    else
    let* e := getEP ep_ptr in
    if bool_decide (ep_state e = EPState_Send) then slowpath SysReplyRecv
    else
    let* callerSlot := getCTE (TCB_PTR_CTE_PTR cur tcbCaller) in
    if negb (fastpath_reply_cap_check (cte_cap callerSlot)) then slowpath SysReplyRecv
    else match cte_cap callerSlot with
    | cap_reply_cap _ _ caller =>
      let* callert := getTCB caller in
      let fault_type := seL4_Fault_get_seL4_FaultType (tcbFault callert) in
      if negb (fault_type =? 0) then slowpath SysReplyRecv
      else
      let* newVTable := getCTE (TCB_PTR_CTE_PTR caller tcbVTable) in
      let* vspace := vspace_check_fp (cte_cap newVTable) in
      match vspace with
      | None => slowpath SysReplyRecv
      | Some (cap_pd, stored_hw_asid) =>
        let* dom := if negb (maxDom =? 0) then gets ksCurDomain else ret 0 in
        let* highest := isHighestPrio dom (tcbPriority callert) in
        let* curDomain := gets ksCurDomain in
        if negb highest then slowpath SysReplyRecv
        else if negb (tcbDomain callert =? curDomain) && (0 <? maxDom) then slowpath SysReplyRecv
        else fastpath_reply_recv_commit cur caller ep_ptr canGrant cap_pd stored_hw_asid msgInfo
      end
    | _ => slowpath SysReplyRecv
    end
  | _ => slowpath SysReplyRecv
  end.
End Fastpath.
