(* ===== verification/Concrete.v ===== *)
(** * Concrete states

    Small kernel states on which the theorems of the development are applied:
    an idle thread and two user threads, all ready queues empty, and a domain
    schedule of one entry and its end marker, as after boot. *)
From S2P Require Import Prelude Dll Structures CapOps CSpace VSpace Sched DomSched ReadyQueue Schedule.
From stdpp Require Import base list gmap.
#[local] Open Scope Z_scope.

Definition idle_ptr : Z := 4096.
Definition tcb_A : Z := 8192.
Definition tcb_B : Z := 12288.

Definition mk_thread (st : thread_state_type) (prio : Z) : tcb :=
  set_tcbPriority (fun _ => prio) (set_tcbMCP (fun _ => 255)
    (set_tcbTimeSlice (fun _ => CONFIG_TIME_SLICE)
      (upd_state (set_tsType (fun _ => st)) zero_tcb))).

Definition boot_tcbs : gmap Z tcb :=
  <[idle_ptr := mk_thread ThreadState_IdleThreadState 0]>
    (<[tcb_A := mk_thread ThreadState_Running 100]>
      (<[tcb_B := mk_thread ThreadState_Running 200]> ∅)).

Definition empty_queues : gmap Z tcb_queue :=
  list_to_map ((fun p => (p, empty_queue)) <$> seqZ 0 CONFIG_NUM_PRIORITIES).
Definition empty_l1 : gmap Z Z := <[0 := 0]> ∅.
Definition empty_l2 : gmap (Z * Z) Z :=
  list_to_map ((fun i => ((0, i), 0)) <$> seqZ 0 L2_BITMAP_SIZE).

(** The slots of the three threads' root tables, empty. *)
Definition vtable_slots : gmap Z cte :=
  <[TCB_PTR_CTE_PTR idle_ptr tcbVTable := null_cte]>
    (<[TCB_PTR_CTE_PTR tcb_A tcbVTable := null_cte]>
      (<[TCB_PTR_CTE_PTR tcb_B tcbVTable := null_cte]> ∅)).

Definition state_vm (ptes : gmap Z pte) (pools : gmap Z asid_pool) (table : gmap Z Z)
    (ctes : gmap Z cte) (tcbs : gmap Z tcb) (eps : gmap Z endpoint)
    (ntfns : gmap Z notification) (cur action : Z) : kstate :=
  mk_kstate ctes tcbs eps ntfns ptes pools table ∅ empty_queues empty_l1 empty_l2 cur idle_ptr action
    0 DSCHED_MAX_DURATION 0 0 [dschedule_make 0 DSCHED_MAX_DURATION; 0] 0 0 65536 ∅
    lookup_fault_invalid_root seL4_Fault_NullFault (mk_syscall_error 0 0 0 0 0 false seL4_NoError)
    [] [] [].
Definition state_with : gmap Z cte -> gmap Z tcb -> gmap Z endpoint -> gmap Z notification -> Z -> Z -> kstate :=
  state_vm ∅ ∅ ∅.

Definition boot_state (cur action : Z) : kstate := state_with vtable_slots boot_tcbs ∅ ∅ cur action.

(** ** The empty ready queues are well formed *)
Definition thread_fresh (x : Z) (t : tcb) : Prop :=
  0 <= tcbPriority t /\ tcbPriority t < CONFIG_NUM_PRIORITIES /\ tcbDomain t = 0 /\ x <> 0 /\
  tcbQueued (tcbState t) = false /\ tcbSchedNext t = 0 /\ tcbSchedPrev t = 0 /\
  (x = idle_ptr \/ x = tcb_A \/ x = tcb_B).

Lemma empty_queues_lookup p : prio_ok p -> empty_queues !! p = Some empty_queue.
Proof.
  intros Hp. apply elem_of_list_to_map_1.
  - rewrite <- list_fmap_compose. unfold compose. cbn. rewrite list_fmap_id. apply NoDup_seqZ.
  - apply list_elem_of_fmap. exists p. split; [done|]. apply elem_of_seqZ.
    unfold prio_ok, CONFIG_NUM_PRIORITIES in *. lia.
Qed.

Lemma empty_ready_wf ptes pools table ctes tcbs eps ntfns cur action :
  map_Forall thread_fresh tcbs ->
  ready_wf (state_vm ptes pools table ctes tcbs eps ntfns cur action) (fun _ => []).
Proof.
  intros Hf. split.
  - split; cbn.
    + intros x t Hx. destruct (Hf x t Hx) as (?&?&?&?&_). done.
    + intros p Hp. by rewrite empty_queues_lookup.
    + intros p _. apply dlist_nil.
    + intros p x _ Hx. by apply elem_of_nil in Hx.
    + intros x t Hx Hq. destruct (Hf x t Hx) as (_&_&_&_&Hqf&_). congruence.
    + intros x t Hx _. by destruct (Hf x t Hx) as (_&_&_&_&_&?&?&_).
  - exists 0. split; [done|]. split; [done|]. split; [intros; apply Z.bits_0|].
    intros i Hi. exists 0. rewrite Z.bits_0. split; [|done]. unfold l2_word_wf. split; [|split].
    + change L2_BITMAP_SIZE with 4 in *. assert (i = 0 \/ i = 1 \/ i = 2 \/ i = 3) as Hc by lia.
      destruct Hc as [->|[->|[->| ->]]]; reflexivity.
    + done.
    + intros b Hb. by rewrite Z.bits_0.
Qed.

Lemma boot_fresh : map_Forall thread_fresh boot_tcbs.
Proof. apply (bool_decide_unpack _). vm_compute. exact I. Qed.

Lemma boot_domsched ptes pools table ctes tcbs eps ntfns cur action :
  domsched_inv (state_vm ptes pools table ctes tcbs eps ntfns cur action).
Proof.
  split; cbn.
  - done.
  - repeat constructor; done.
  - done.
  - done.
  - done.
  - done.
Qed.

Lemma boot_vm ctes tcbs eps ntfns cur action :
  map_Forall thread_fresh tcbs -> vtable_slots ⊆ ctes ->
  vm_ok (state_with ctes tcbs eps ntfns cur action).
Proof.
  intros Hf Hsub. split; [|done|by intros i j []]. intros x [t Hx]. cbn.
  destruct (Hf x t Hx) as (_&_&_&_&_&_&_&[->|[->| ->]]);
    (eexists; eapply lookup_weaken; [|exact Hsub]; reflexivity).
Qed.

(** A state reached by a computation that succeeds. *)
Definition run_to {A} (m : K A) (s : kstate) : kstate :=
  match m s with Some (_, s') => s' | None => s end.

Lemma run_to_wp {A} (m : K A) (P : kstate -> Prop) s : wp m (fun _ => P) s -> P (run_to m s).
Proof. unfold wp, run_to. by destruct (m s) as [[a s']|]. Qed.

(** The threads [tcbs] with thread A put in its ready queue. *)
Definition ready_A (tcbs : gmap Z tcb) (cur action : Z) : kstate :=
  run_to (tcbSchedEnqueue tcb_A) (state_with vtable_slots tcbs ∅ ∅ cur action).

Section ReadyA.
Context (tcbs : gmap Z tcb) (cur action : Z) (t : tcb).
Hypothesis Hfresh : map_Forall thread_fresh tcbs.
Hypothesis HA : tcbs !! tcb_A = Some t.
Notation q := (upd (fun _ => []) (tcbPriority t) [tcb_A]).

Lemma ready_A_post : ready_post (state_with vtable_slots tcbs ∅ ∅ cur action) q (ready_A tcbs cur action).
Proof.
  destruct (Hfresh _ _ HA) as (_&_&_&_&Hq&_).
  refine (run_to_wp (tcbSchedEnqueue tcb_A) (ready_post _ q) _ _).
  eapply wp_mono; [apply (wp_tcbSchedEnqueue _ (fun _ => []) tcb_A t); [by apply empty_ready_wf|done]|].
  rewrite Hq. done.
Qed.

Hypothesis Hrun : isRunnable_tcb t = true.
Hypothesis Hcur : is_Some (tcbs !! cur).
Hypothesis Hidle : is_Some (tcbs !! idle_ptr).
Hypothesis Haction : action = SchedulerAction_ResumeCurrentThread \/ action = SchedulerAction_ChooseNewThread.

Lemma ready_A_inv : sched_inv (ready_A tcbs cur action) q.
Proof.
  destruct ready_A_post as [He Hwf]. split.
  - done.
  - intros p x Hp. unfold upd. destruct (p =? _); rewrite ?list_elem_of_singleton, ?elem_of_nil; [|done].
    intros ->. rewrite (sched_eq_trun _ _ _ He). unfold trun. cbn. by rewrite HA.
  - rewrite (sched_eq_field ksCurThread _ _ ltac:(done) He). by apply (sched_eq_some _ _ _ He).
  - rewrite (sched_eq_field ksIdleThread _ _ ltac:(done) He). by apply (sched_eq_some _ _ _ He).
  - by rewrite (sched_eq_field ksCurDomain _ _ ltac:(done) He).
  - eapply sched_eq_domsched; [exact He|apply boot_domsched].
  - apply (sched_frame_vm (state_with vtable_slots tcbs ∅ ∅ cur action)); [by apply sched_eq_frame|by apply boot_vm].
  - rewrite (sched_eq_field ksSchedulerAction _ _ ltac:(done) He). cbn. tauto.
Qed.
End ReadyA.

(** Thread A is ready, the idle thread runs and a choice is pending. *)
Definition s_ready : kstate := ready_A boot_tcbs idle_ptr SchedulerAction_ChooseNewThread.
Definition q_ready : queues := upd (fun _ => []) 100 [tcb_A].

Lemma s_ready_inv : sched_inv s_ready q_ready.
Proof.
  apply (ready_A_inv boot_tcbs _ _ (mk_thread ThreadState_Running 100)); try done; try by (vm_compute; eauto).
  exact boot_fresh.
Qed.

(** Threads A and B share a priority; B runs with one tick left. *)
Definition rr_tcbs : gmap Z tcb :=
  <[idle_ptr := mk_thread ThreadState_IdleThreadState 0]>
    (<[tcb_A := mk_thread ThreadState_Running 100]>
      (<[tcb_B := set_tcbTimeSlice (fun _ => 1) (mk_thread ThreadState_Running 100)]> ∅)).
Definition s_rr : kstate := ready_A rr_tcbs tcb_B SchedulerAction_ResumeCurrentThread.

Lemma s_rr_inv : sched_inv s_rr q_ready.
Proof.
  apply (ready_A_inv rr_tcbs _ _ (mk_thread ThreadState_Running 100)); try done; try by (vm_compute; eauto).
  apply (bool_decide_unpack _). vm_compute. exact I.
Qed.

(** With empty ready queues the scheduler invariant is about the current
    thread and the address spaces only. *)
Lemma empty_sched_inv_vm ptes pools table ctes tcbs eps ntfns cur action :
  map_Forall thread_fresh tcbs -> vm_ok (state_vm ptes pools table ctes tcbs eps ntfns cur action) ->
  is_Some (tcbs !! cur) -> is_Some (tcbs !! idle_ptr) ->
  action = SchedulerAction_ResumeCurrentThread \/ action = SchedulerAction_ChooseNewThread ->
  sched_inv (state_vm ptes pools table ctes tcbs eps ntfns cur action) (fun _ => []).
Proof.
  intros Hf Hvm Hc Hi Ha. split; cbn; [by apply empty_ready_wf| |done|done|done|apply boot_domsched|done|tauto].
  intros p x _ Hx. by apply elem_of_nil in Hx.
Qed.

Lemma empty_sched_inv ctes tcbs eps ntfns cur action :
  map_Forall thread_fresh tcbs -> vtable_slots ⊆ ctes -> is_Some (tcbs !! cur) -> is_Some (tcbs !! idle_ptr) ->
  action = SchedulerAction_ResumeCurrentThread \/ action = SchedulerAction_ChooseNewThread ->
  sched_inv (state_with ctes tcbs eps ntfns cur action) (fun _ => []).
Proof. intros Hf Hsub. apply empty_sched_inv_vm; [done|by apply boot_vm]. Qed.
