(* ===== verification/SchedOps.v ===== *)
(** * Rules for the scheduler's clients

    How thread-state changes, [scheduleTCB], [rescheduleRequired] and
    [possibleSwitchTo] of src/kernel/thread.c and src/object/tcb.c act on the
    scheduler invariant: the interface that the IPC operations are verified
    against. *)
From stdpp Require Import base list sets gmap.
From S2P Require Import Prelude Dll Structures CapOps CSpace VSpace Sched DomSched ReadyQueue Schedule.
#[local] Open Scope Z_scope.

(** ** Changing thread fields the queues do not read *)
Definition queue_key (t : tcb) : Z * Z * bool * Z * Z :=
  (tcbPriority t, tcbDomain t, tcbQueued (tcbState t), tcbSchedNext t, tcbSchedPrev t).

Lemma ready_wf_key s q m' :
  (forall x, queue_key <$> m' !! x = queue_key <$> ksTCBs s !! x) ->
  ready_wf s q -> ready_wf (set_ksTCBs (fun _ => m') s) q.
Proof.
  intros Hk [[W1 W2 W3 W4 W5 W6] Hb]. split; [|exact Hb]. st_simpl.
  assert (Hr : forall x t', m' !! x = Some t' -> exists t, ksTCBs s !! x = Some t /\ queue_key t' = queue_key t).
  { intros x t' Hx. specialize (Hk x). rewrite Hx in Hk. destruct (ksTCBs s !! x) as [t|]; [|done].
    exists t. split; [done|]. cbn in Hk. congruence. }
  assert (Hl : forall x t, ksTCBs s !! x = Some t -> exists t', m' !! x = Some t' /\ queue_key t' = queue_key t).
  { intros x t Hx. specialize (Hk x). rewrite Hx in Hk. destruct (m' !! x) as [t'|]; [|done].
    exists t'. split; [done|]. cbn in Hk. congruence. }
  assert (Hlink : forall f, (forall t t', queue_key t' = queue_key t -> f t' = f t) ->
    forall x, tlink f m' x = tlink f (ksTCBs s) x).
  { intros f Hf x. unfold tlink. specialize (Hk x).
    destruct (m' !! x), (ksTCBs s !! x); try done. apply Hf. cbn in Hk. congruence. }
  unfold queue_key in *. split.
  - intros x t' Hx. destruct (Hr x t' Hx) as (t & Ht & [= -> -> _ _ _]). eauto.
  - done.
  - intros p Hp. eapply dlist_ext; [|by apply W3]. intros y _.
    split; apply Hlink; intros; congruence.
  - intros p x Hp Hx. destruct (W4 p x Hp Hx) as (t & Ht & ? & ?).
    destruct (Hl x t Ht) as (t' & ? & [=]). exists t'. split_and!; congruence.
  - intros x t' Hx Hq. destruct (Hr x t' Hx) as (t & Ht & [=]). replace (tcbPriority t') with (tcbPriority t) by congruence.
    apply (W5 x t); congruence.
  - intros x t' Hx Hq. destruct (Hr x t' Hx) as (t & Ht & [=]). destruct (W6 x t Ht); [congruence|]. split; congruence.
Qed.

(** A thread field the ready queues ignore. *)
Lemma sched_eq_fmap {A} (f : tcb -> A) s s' x :
  (forall t, f (tcb_erase t) = f t) -> sched_eq s s' -> f <$> ksTCBs s' !! x = f <$> ksTCBs s !! x.
Proof.
  intros Hf H. pose proof (sched_eq_tcbs s s' x H) as Hx.
  destruct (ksTCBs s' !! x) as [t'|], (ksTCBs s !! x) as [t|]; try done.
  apply (inj Some) in Hx. cbn. by rewrite <- (Hf t'), <- (Hf t), Hx.
Qed.

(** The scheduler invariant survives a change of fields it does not read. *)
Lemma sched_inv_key s q m' a :
  (forall x, queue_key <$> m' !! x = queue_key <$> ksTCBs s !! x) ->
  (forall x, isRunnable_tcb <$> m' !! x = isRunnable_tcb <$> ksTCBs s !! x) ->
  a = SchedulerAction_ResumeCurrentThread \/ a = SchedulerAction_ChooseNewThread ->
  sched_inv s q ->
  sched_inv (set_ksSchedulerAction (fun _ => a) (set_ksTCBs (fun _ => m') s)) q.
Proof.
  intros Hk Hr Ha [I1 I2 I3 I4 I5 I6 I7 _].
  assert (Hs : forall x, is_Some (ksTCBs s !! x) -> is_Some (m' !! x)).
  { intros x [t Ht]. specialize (Hk x). rewrite Ht in Hk. destruct (m' !! x); [eauto|done]. }
  split; st_simpl; [by apply ready_wf_key| |by apply Hs|by apply Hs|done|done| |tauto].
  2:{ revert I7. apply vm_ok_same; try done. st_simpl. intros x [t Ht]. specialize (Hr x).
      rewrite Ht in Hr. destruct (ksTCBs s !! x); [eauto|done]. }
  intros p x Hp Hx. specialize (I2 p x Hp Hx). unfold trun in *. st_simpl. specialize (Hr x).
  destruct (m' !! x), (ksTCBs s !! x); cbn in *; congruence.
Qed.

Lemma sched_inv_sched_eq s s' q q' :
  sched_inv s q -> sched_eq s s' -> ready_wf s' q' -> qall (fun x => trun s x = true) q' ->
  sched_inv s' q'.
Proof.
  intros [I1 I2 I3 I4 I5 I6 Ivm I7] He Hwf Hall. split.
  - done.
  - intros p x Hp Hx. rewrite (sched_eq_trun s s') by done. by apply (Hall p).
  - rewrite (sched_eq_field ksCurThread s s') by done. by apply (sched_eq_some s).
  - rewrite (sched_eq_field ksIdleThread s s') by done. by apply (sched_eq_some s).
  - by rewrite (sched_eq_field ksCurDomain s s').
  - by apply (sched_eq_domsched s).
  - by eapply sched_frame_vm; [apply sched_eq_frame|].
  - rewrite (sched_eq_field ksSchedulerAction s s'), (sched_eq_field ksCurThread s s') by done.
    by rewrite (sched_eq_trun s s').
Qed.

(** ** Rules *)

(** A scheduler action that may be stored: none, a choice, or a runnable
    thread other than the current one. *)
Definition action_ok (s : kstate) (a : Z) : Prop :=
  a = SchedulerAction_ResumeCurrentThread \/ a = SchedulerAction_ChooseNewThread \/
  (trun s a = true /\ a <> ksCurThread s).

Lemma sched_inv_action s q a :
  sched_inv s q -> action_ok s a -> sched_inv (set_ksSchedulerAction (fun _ => a) s) q.
Proof.
  intros [] Ha. split; try done. by eapply vm_ok_same; [..|eassumption].
Qed.

(** A thread that is in no ready queue and is not about to run can change
    anything the queues do not read. *)
Lemma sched_inv_tcb s q x t t' :
  sched_inv s q -> ksTCBs s !! x = Some t -> queue_key t' = queue_key t ->
  (tcbQueued (tcbState t) = false \/ isRunnable_tcb t' = true) ->
  (ksSchedulerAction s <> x \/ isRunnable_tcb t' = true) ->
  sched_inv (set_ksTCBs (insert x t') s) q.
Proof.
  intros Hinv Hx Hk Hq Ha. pose proof Hinv as [I1 I2 I3 I4 I5 I6 Ivm I7].
  change (set_ksTCBs (insert x t') s) with (set_ksTCBs (fun _ => <[x := t']> (ksTCBs s)) s).
  assert (Hsome : forall y, is_Some (ksTCBs s !! y) -> is_Some (<[x:=t']> (ksTCBs s) !! y)).
  { intros y [ty Hy]. destruct (decide (y = x)) as [->|]; simplify_map_eq; eauto. }
  assert (Hrun : forall y, y <> x \/ isRunnable_tcb t' = true -> trun s y = true ->
    trun (set_ksTCBs (fun _ => <[x := t']> (ksTCBs s)) s) y = true).
  { intros y Hy Hr. unfold trun in *. st_simpl. destruct (decide (y = x)) as [->|]; simplify_map_eq;
      destruct Hy; done. }
  split; st_simpl; [|  |by apply Hsome|by apply Hsome|done|done| |].
  - apply ready_wf_key; [|done]. intros y.
    destruct (decide (y = x)) as [->|]; [rewrite lookup_insert_eq, Hx; exact (f_equal Some Hk)|by rewrite lookup_insert_ne].
  - intros p y Hp Hy. apply Hrun; [|by apply (I2 p)]. destruct Hq as [Hq|]; [|by right]. left. intros ->.
    destruct (qwf_member _ _ _ (proj1 I1) p x Hp Hy) as (ty & Hty & ? & _). congruence.
  - revert Ivm. apply vm_ok_same; try done. st_simpl. intros y Hy.
    destruct (decide (y = x)) as [->|]; simplify_map_eq; eauto.
  - destruct I7 as [?|[?|[Hr Hn]]]; [by left|by right; left|]. right; right. split; [|done].
    apply Hrun; [|done]. destruct Ha as [Ha|]; [left; congruence|by right].
Qed.

Lemma set_action_id s : set_ksSchedulerAction (fun _ => ksSchedulerAction s) s = s.
Proof. by destruct s. Qed.

Definition action_after (s : kstate) (x : Z) : Z :=
  if (x =? ksCurThread s) && (ksSchedulerAction s =? SchedulerAction_ResumeCurrentThread) && negb (trun s x)
  then SchedulerAction_ChooseNewThread else ksSchedulerAction s.

Lemma wp_scheduleTCB s x Q :
  is_Some (ksTCBs s !! x) -> Q tt (set_ksSchedulerAction (fun _ => action_after s x) s) ->
  wp (scheduleTCB x) Q s.
Proof.
  intros Hx HQ. unfold scheduleTCB, action_after in *. do 2 wp_struct. do 2 wp_struct.
  destruct (_ && (_ =? SchedulerAction_ResumeCurrentThread)); cbn [andb] in HQ.
  - wp_struct. apply wp_isSchedulable; [done|]. destruct (trun s x); cbn [negb] in *.
    + wp_struct. by rewrite set_action_id in HQ.
    + exact HQ.
  - wp_struct. by rewrite set_action_id in HQ.
Qed.

Lemma action_after_cases s x :
  action_after s x = ksSchedulerAction s \/ action_after s x = SchedulerAction_ChooseNewThread.
Proof. unfold action_after. case_match; tauto. Qed.

Lemma sched_inv_action_after s q x :
  sched_inv s q -> sched_inv (set_ksSchedulerAction (fun _ => action_after s x) s) q.
Proof.
  intros Hinv. apply sched_inv_action; [done|].
  destruct (action_after_cases s x) as [-> | ->]; [apply Hinv|by right; left].
Qed.

(** Setting the state of a thread that is not ready to run. *)
Lemma wp_setThreadState s q x t st Q :
  sched_inv s q -> ksTCBs s !! x = Some t -> tcbQueued (tcbState t) = false ->
  ksSchedulerAction s <> x ->
  (forall a, let s' := set_ksSchedulerAction (fun _ => a)
       (set_ksTCBs (insert x (upd_state (set_tsType (fun _ => st)) t)) s) in
     (a = ksSchedulerAction s \/ a = SchedulerAction_ChooseNewThread) -> sched_inv s' q -> Q tt s') ->
  wp (setThreadState x st) Q s.
Proof.
  intros Hinv Hx Hq Ha HQ. unfold setThreadState. wp_struct. eapply wp_modTCB; [exact Hx|].
  set (t' := upd_state (set_tsType (fun _ => st)) t) in *.
  assert (Hinv' : sched_inv (set_ksTCBs (insert x t') s) q) by (eapply sched_inv_tcb; eauto).
  apply wp_scheduleTCB; [st_simpl; rewrite lookup_insert_eq; eauto|].
  apply HQ; [apply (action_after_cases (set_ksTCBs (insert x t') s))|].
  by apply sched_inv_action_after.
Qed.

Lemma wp_rescheduleRequired s q Q :
  sched_inv s q ->
  (forall s' q', sched_eq (set_ksSchedulerAction (fun _ => SchedulerAction_ChooseNewThread) s) s' ->
     ksSchedulerAction s' = SchedulerAction_ChooseNewThread ->
     (forall p x, x ∈ q p -> x ∈ q' p) -> sched_inv s' q' -> Q tt s') ->
  wp rescheduleRequired Q s.
Proof.
  intros Hinv HQ. unfold rescheduleRequired. do 2 wp_struct. wp_struct. unfold setSchedulerAction.
  destruct (si_action _ _ Hinv) as [Ha|[Ha|[Hr Hn]]].
  - rewrite Ha. cbn. repeat wp_struct. apply (HQ _ q); [reflexivity|done|done|].
    apply sched_inv_action; [done|by right; left].
  - rewrite Ha. cbn. repeat wp_struct. apply (HQ _ q); [reflexivity|done|done|].
    apply sched_inv_action; [done|by right; left].
  - assert (Hs : is_Some (ksTCBs s !! ksSchedulerAction s)).
    { destruct (trun_some _ _ Hr) as (t & Ht & _). eauto. }
    case_match.
    + apply (wp_enq s q); [apply Hinv|done|]. intros s1 He Hwf. wp_struct.
      apply (HQ _ (enq q (tprio s (ksSchedulerAction s)) (ksSchedulerAction s))); [|done| |].
      * unfold sched_eq, sched_erase in *. apply (f_equal (set_ksSchedulerAction (fun _ => 1))) in He. exact He.
      * intros p y Hy. unfold enq. case_bool_decide; [done|]. unfold upd.
        destruct (Z.eqb_spec p (tprio s (ksSchedulerAction s))) as [->|]; [by right|done].
      * apply sched_inv_action; [|by right; left]. eapply sched_inv_sched_eq; [exact Hinv|done|done|].
        apply qall_enq; [done|apply Hinv].
    + wp_struct. wp_struct. apply (HQ _ q); [reflexivity|done|done|].
      apply sched_inv_action; [done|by right; left].
Qed.

(** A thread is scheduled: it is the next one or it is ready. *)
Definition scheduled (s : kstate) (q : queues) (x : Z) : Prop :=
  ksSchedulerAction s = x \/ x ∈ q (tprio s x).

Lemma enq_in q p x : x ∈ enq q p x p.
Proof. unfold enq. case_bool_decide; [done|]. rewrite upd_eq. by left. Qed.

Lemma enq_mono q p x p' y : y ∈ q p' -> y ∈ enq q p x p'.
Proof.
  unfold enq. case_bool_decide; [done|]. unfold upd. destruct (Z.eqb_spec p' p) as [->|]; [by right|done].
Qed.

Lemma wp_possibleSwitchTo s q x Q :
  sched_inv s q -> trun s x = true -> x <> ksCurThread s ->
  (forall s' q' a, sched_eq (set_ksSchedulerAction (fun _ => a) s) s' ->
     sched_inv s' q' -> (forall p y, y ∈ q p -> y ∈ q' p) -> scheduled s' q' x -> Q tt s') ->
  wp (possibleSwitchTo x) Q s.
Proof.
  intros Hinv Hrun Hne HQ. destruct (trun_some _ _ Hrun) as (t & Ht & Hrt).
  destruct (qwf_prio _ _ _ (proj1 (si_ready _ _ Hinv)) x t Ht) as (_ & Hdom & _).
  unfold possibleSwitchTo. wp_struct. eapply wp_getTCB; [exact Ht|]. do 4 wp_struct.
  rewrite (si_dom _ _ Hinv), Hdom. cbn [Z.eqb negb].
  destruct (Z.eqb_spec (ksSchedulerAction s) SchedulerAction_ResumeCurrentThread) as [Ha|Ha]; cbn [negb].
  - unfold setSchedulerAction. wp_struct. apply (HQ _ q x); [reflexivity| |done|by left].
    apply sched_inv_action; [done|by right; right].
  - wp_struct. eapply wp_rescheduleRequired; [exact Hinv|]. intros s1 q1 He1 Ha1 Hm Hinv1.
    assert (Hr1 : trun s1 x = true) by (by rewrite (sched_eq_trun _ _ _ He1)).
    apply (wp_enq s1 q1); [apply Hinv1| |].
    { destruct (trun_some _ _ Hr1) as (t1 & ? & _). eauto. }
    intros s2 He2 Hwf2. apply (HQ _ (enq q1 (tprio s1 x) x) SchedulerAction_ChooseNewThread).
    + by etrans.
    + eapply sched_inv_sched_eq; [exact Hinv1|done|done|]. by apply qall_enq, Hinv1.
    + intros p y Hy. by apply enq_mono, Hm.
    + right. rewrite (sched_eq_tprio s1 s2) by done. apply enq_in.
Qed.
