(* ===== verification/EpQueue.v ===== *)
(** * Queues of waiting threads

    Endpoints and notifications keep the threads that wait on them in an
    intrusive list over the [tcbEPNext] and [tcbEPPrev] fields.  This file
    relates those lists, the states of the objects and the states of the
    threads ([ipc_wf]), and gives the rules of the queue operations of
    src/object/tcb.c on the abstract lists. *)
From stdpp Require Import base list sets gmap.
From S2P Require Import Prelude Dll Structures CapOps CSpace VSpace Sched DomSched ReadyQueue Schedule SchedOps Mdb MdbInv Messages Objects.
#[local] Open Scope Z_scope.

(** ** The queue primitives *)
Notation ep_next m := (tlink tcbEPNext m).
Notation ep_prev m := (tlink tcbEPPrev m).
Definition ep_erase (t : tcb) : tcb := set_tcbEPNext (fun _ => 0) (set_tcbEPPrev (fun _ => 0) t).

(** [m'] is [m] with the endpoint links of the cells of [l] and [l']
    rewritten so that they form the list [l']. *)
Record ep_relinked (m m' : gmap Z tcb) (l l' : list Z) : Prop := {
  er_erase : ep_erase <$> m' = ep_erase <$> m;
  er_out : forall y, y ∉ l -> y ∉ l' -> m' !! y = m !! y;
  er_dlist : dlist (ep_next m') (ep_prev m') l'
}.

(** The cell at [p], unless null, with one link redirected. *)
Definition link_at (p : Z) (f : tcb -> tcb) (m : gmap Z tcb) : gmap Z tcb :=
  if decide (p = 0) then m else match m !! p with Some t => <[p := f t]> m | None => m end.

Lemma link_at_0 f m : link_at 0 f m = m.
Proof. done. Qed.
Lemma link_at_ne p f m y : y <> p -> link_at p f m !! y = m !! y.
Proof. intros. unfold link_at. case_decide; [done|]. case_match; [|done]. by rewrite lookup_insert_ne. Qed.
Lemma link_at_erase p f m :
  (forall t, ep_erase (f t) = ep_erase t) -> ep_erase <$> link_at p f m = ep_erase <$> m.
Proof.
  intros Hf. unfold link_at. case_decide; [done|]. case_match; [|done]. by eapply fmap_insert_same.
Qed.
Lemma tlink_link_at g p f m v :
  (forall t, g (f t) = v) -> is_Some (m !! p) -> p <> 0 -> tlink g (link_at p f m) p = v.
Proof.
  intros Hg [t Ht] Hp. unfold link_at, tlink. rewrite decide_False, Ht by done.
  by rewrite lookup_insert_eq.
Qed.
Lemma tlink_link_at_ne g p f m y : y <> p -> tlink g (link_at p f m) y = tlink g m y.
Proof. intros. unfold tlink. by rewrite link_at_ne. Qed.
Lemma tlink_link_at_same g p f m y : (forall t, g (f t) = g t) -> tlink g (link_at p f m) y = tlink g m y.
Proof.
  intros Hg. destruct (decide (y = p)) as [->|]; [|by apply tlink_link_at_ne].
  unfold link_at, tlink. case_decide; [done|]. destruct (m !! p) eqn:E; [|by rewrite E].
  by rewrite lookup_insert_eq, Hg.
Qed.

(** One guarded link update of the queue operations. *)
Lemma wp_link_at {A} p f (a b : A) Q s :
  (p <> 0 -> is_Some (ksTCBs s !! p)) ->
  Q (if p =? 0 then b else a) (set_ksTCBs (fun _ => link_at p f (ksTCBs s)) s) ->
  wp (if negb (p =? 0) then modTCB p f ;;; ret a else ret b) Q s.
Proof.
  intros Hp HQ. destruct (Z.eqb_spec p 0) as [->|Hn]; cbn [negb].
  - wp_struct. by rewrite link_at_0, set_ksTCBs_id in HQ.
  - destruct (Hp Hn) as [t Ht]. wp_struct. eapply wp_modTCB; [exact Ht|]. wp_struct.
    unfold link_at in HQ. by rewrite decide_False, Ht in HQ.
Qed.

Section EpOps.
Context (s : kstate) (x : Z) (t : tcb).
Notation m := (ksTCBs s).
Hypothesis Hx : m !! x = Some t.

Lemma wp_tcbEPAppend l Q :
  (forall y, y ∈ l -> is_Some (m !! y)) -> dlist (ep_next m) (ep_prev m) l -> x <> 0 -> x ∉ l ->
  (forall m', ep_relinked m m' l (l ++ [x]) -> Q (queue_of (l ++ [x])) (set_ksTCBs (fun _ => m') s)) ->
  wp (tcbEPAppend x (queue_of l)) Q s.
Proof.
  intros Hcells Hd Hx0 Hxl HQ. unfold tcbEPAppend. wp_struct.
  assert (Hq : mk_queue (hd_or x l) x = queue_of (l ++ [x])).
  { unfold queue_of. by rewrite hd_or_app, last_or_snoc. }
  destruct (snoc_cases l) as [->|(l' & z & Hl)].
  { cbn [queue_of q_head q_end hd_or last_or Z.eqb]. wp_struct. cbn [q_head q_end]. wp_struct. eapply wp_modTCB; [done|].
    wp_struct. eapply wp_modTCB; [st_simpl; apply lookup_insert_eq|]. wp_struct.
    apply (HQ (<[x := _]> (<[x := _]> m))). split; cbn.
    - rewrite insert_insert_eq. by apply (fmap_insert_same _ _ _ t).
    - intros y _ Hy. rewrite !lookup_insert_ne by set_solver. done.
    - apply dlist_singleton; [done|..]; tlinks; done. }
  assert (Hzl : z ∈ l) by (rewrite Hl; set_solver).
  destruct (Hcells z Hzl) as [tz Htz].
  assert (Hne : l <> []) by (rewrite Hl; by destruct l').
  assert (Hlast : last_or 0 l = z) by (by rewrite Hl, last_or_snoc).
  assert (Hxz : x <> z) by set_solver.
  assert (Hhd : hd_or 0 l <> 0).
  { intros E. apply (dlist_nonnull _ _ _ Hd). rewrite <- E. by apply hd_or_in. }
  change (queue_of l) with (mk_queue (hd_or 0 l) (last_or 0 l)). rewrite Hlast. cbn [q_head q_end].
  rewrite (proj2 (Z.eqb_neq _ 0)) by done.
  wp_struct. eapply wp_modTCB; [done|]. wp_struct. cbn [q_end].
  wp_struct. eapply wp_modTCB; [st_simpl; by rewrite lookup_insert_ne|].
  wp_struct. eapply wp_modTCB; [st_simpl; apply lookup_insert_eq|]. wp_struct. cbn [q_head].
  replace (hd_or 0 l) with (hd_or x l) by (by destruct l). rewrite Hq.
  apply (HQ (<[x := _]> (<[x := _]> (<[z := _]> m)))). split.
  - rewrite insert_insert_eq, (fmap_insert_same _ _ _ t), (fmap_insert_same _ _ _ tz); try done.
    by rewrite lookup_insert_ne.
  - intros y Hy1 Hy2. rewrite !lookup_insert_ne by set_solver. done.
  - eapply dlist_snoc; [exact Hd|done|done|..]; rewrite ?Hlast; intros; tlinks;
      try done; unfold tlink; simplify_map_eq; tauto.
Qed.

Lemma queue_of_removed (l1 l2 : list Z) :
  0 ∉ l1 ++ x :: l2 ->
  mk_queue (if last_or 0 l1 =? 0 then hd_or 0 l2 else hd_or 0 (l1 ++ x :: l2))
    (if hd_or 0 l2 =? 0 then last_or 0 l1 else last_or 0 (l1 ++ x :: l2)) = queue_of (l1 ++ l2).
Proof.
  intros H0. unfold queue_of. f_equal.
  - rewrite !hd_or_app. destruct (snoc_cases l1) as [->|(l1' & z & ->)]; [done|].
    rewrite last_or_snoc, (proj2 (Z.eqb_neq _ 0)) by (intros ->; set_solver). by destruct l1'.
  - rewrite !last_or_app. destruct l2 as [|z l2]; [done|]. cbn [hd_or].
    by rewrite (proj2 (Z.eqb_neq _ 0)) by (intros ->; set_solver).
Qed.

Lemma wp_tcbEPDequeue l1 l2 Q :
  let l := l1 ++ x :: l2 in
  (forall y, y ∈ l -> is_Some (m !! y)) -> dlist (ep_next m) (ep_prev m) l ->
  (forall m', ep_relinked m m' l (l1 ++ l2) -> m' !! x = Some t ->
     Q (queue_of (l1 ++ l2)) (set_ksTCBs (fun _ => m') s)) ->
  wp (tcbEPDequeue x (queue_of l)) Q s.
Proof.
  intros l Hcells Hd HQ. pose proof (dlist_mid _ _ _ _ _ Hd) as [Hpv Hnx].
  pose proof Hpv as Hpt. pose proof Hnx as Hnt.
  rewrite (tlink_Some _ _ _ _ Hx) in Hpt. rewrite (tlink_Some _ _ _ _ Hx) in Hnt.
  assert (Hxl : x ∈ l) by (unfold l; set_solver).
  destruct (dlist_links _ _ _ _ Hd Hxl) as (Hn & Hp & Hnx' & Hpx).
  rewrite Hnx in Hn, Hnx'. rewrite Hpv in Hp, Hpx. set (p := last_or 0 l1) in *. set (n := hd_or 0 l2) in *.
  unfold tcbEPDequeue. wp_struct. eapply wp_getTCB; [done|]. rewrite Hpt, Hnt.
  wp_struct. apply wp_link_at; [intros E; apply Hcells, (Hp E)|].
  set (m1 := link_at p (set_tcbEPNext (fun _ => n)) m).
  assert (Hx1 : m1 !! x = Some t) by (unfold m1; by rewrite link_at_ne).
  wp_struct. eapply wp_getTCB; [exact Hx1|]. rewrite Hnt, Hpt.
  set (q1 := if p =? 0 then _ else _).
  apply wp_link_at.
  { intros E. st_simpl. unfold m1. destruct (decide (n = p)) as [->|]; [|rewrite link_at_ne by done; apply Hcells, (Hn E)].
    unfold link_at. rewrite decide_False by done. destruct (Hcells p (proj1 (Hp E))) as [tp ->].
    rewrite lookup_insert_eq. eauto. }
  st_simpl. set (m2 := link_at n (set_tcbEPPrev (fun _ => p)) m1).
  assert (Hq : (if n =? 0 then mk_queue (q_head q1) p else q1) = queue_of (l1 ++ l2)).
  { rewrite <- queue_of_removed by apply (dlist_nonnull _ _ _ Hd). unfold q1. fold p n.
    destruct (p =? 0), (n =? 0); done. }
  rewrite Hq. apply (HQ m2); [|unfold m2; by rewrite link_at_ne]. split.
  - unfold m2, m1. by rewrite !link_at_erase.
  - intros y Hy1 _. unfold m2, m1.
    assert (forall z, (z <> 0 -> z ∈ l /\ True) -> y <> z \/ z = 0) as Hz.
    { intros z Hz. destruct (decide (z = 0)); [by right|]. left. intros ->. by apply Hy1, Hz. }
    destruct (Hz n) as [?| ->], (Hz p) as [?| ->]; rewrite ?link_at_0, ?link_at_ne by done;
      try done; intros E; split; try done; try apply (Hn E); try apply (Hp E).
  - eapply dlist_remove; [exact Hd|..]; rewrite ?Hpv, ?Hnx.
    + intros E. unfold m2. rewrite tlink_link_at_same by done. unfold m1.
      apply tlink_link_at; [done..| |done]. apply Hcells, (Hp E).
    + intros E. unfold m2. apply tlink_link_at; [done..| |done].
      unfold m1. destruct (decide (n = p)) as [->|]; [|rewrite link_at_ne by done; apply Hcells, (Hn E)].
      unfold link_at. rewrite decide_False by done. destruct (Hcells p (proj1 (Hp E))) as [tp ->].
      rewrite lookup_insert_eq. eauto.
    + intros y _ Hy. unfold m2. rewrite tlink_link_at_same by done. by apply tlink_link_at_ne.
    + intros y _ Hy. unfold m2. rewrite tlink_link_at_ne by done. by apply tlink_link_at_same.
Qed.
End EpOps.

(** ** Objects that threads wait on *)
Inductive wobj := WEP (epptr : Z) | WNTFN (ntfnPtr : Z).
#[export] Instance wobj_eq_dec : EqDecision wobj.
Proof. solve_decision. Defined.

(** The queue stored in an object and the state of the threads in it; no
    state when nobody waits. *)
Definition ep_kind (st : endpoint_state) : option thread_state_type :=
  match st with
  | EPState_Idle => None
  | EPState_Send => Some ThreadState_BlockedOnSend
  | EPState_Recv => Some ThreadState_BlockedOnReceive
  end.
Definition ep_waiting (e : endpoint) : tcb_queue * option thread_state_type :=
  (mk_queue (epQueue_head e) (epQueue_tail e), ep_kind (ep_state e)).
Definition ntfn_waiting (n : notification) : tcb_queue * option thread_state_type :=
  (mk_queue (ntfnQueue_head n) (ntfnQueue_tail n),
   match ntfn_state n with NtfnState_Waiting => Some ThreadState_BlockedOnNotification | _ => None end).
Definition waiting (s : kstate) (o : wobj) : option (tcb_queue * option thread_state_type) :=
  match o with WEP a => ep_waiting <$> ksEPs s !! a | WNTFN a => ntfn_waiting <$> ksNTFNs s !! a end.

(** The object a thread waits on. *)
Definition blocked_on (t : tcb) : option wobj :=
  match tsType_of t with
  | ThreadState_BlockedOnSend | ThreadState_BlockedOnReceive => Some (WEP (blockingObject (tcbState t)))
  | ThreadState_BlockedOnNotification => Some (WNTFN (blockingObject (tcbState t)))
  | _ => None
  end.

(** [x] waits on [o] in state [w]. *)
Definition waits (m : gmap Z tcb) (x : Z) (o : wobj) (w : option thread_state_type) : Prop :=
  exists t, m !! x = Some t /\ Some (tsType_of t) = w /\ blocked_on t = Some o.

(** [s] represents the queues [q]; the threads of [X] are in transit: out of
    every queue, whatever their state says.  No thread lives at the addresses
    that encode scheduler actions. *)
Record ipc_wf (s : kstate) (q : wobj -> list Z) (X : list Z) : Prop := {
  iw_waiting : forall o, match waiting s o with
    | Some (qu, w) => qu = queue_of (q o) /\ (w = None <-> q o = []) /\
        forall x, x ∈ q o -> waits (ksTCBs s) x o w
    | None => q o = []
    end;
  iw_list : forall o, dlist (ep_next (ksTCBs s)) (ep_prev (ksTCBs s)) (q o);
  iw_blocked : forall x t o, ksTCBs s !! x = Some t -> blocked_on t = Some o -> x ∈ X \/ x ∈ q o;
  iw_transit : forall x o, x ∈ X -> x ∉ q o;
  iw_null : ksTCBs s !! 0 = None;
  iw_action : ksTCBs s !! SchedulerAction_ChooseNewThread = None
}.

Definition updq (q : wobj -> list Z) (o : wobj) (l : list Z) : wobj -> list Z :=
  fun o' => if decide (o' = o) then l else q o'.

Lemma updq_eq q o l : updq q o l o = l.
Proof. unfold updq. by rewrite decide_True. Qed.
Lemma updq_ne q o l o' : o' <> o -> updq q o l o' = q o'.
Proof. intros. unfold updq. by rewrite decide_False. Qed.

(** What the waiting queues read of a thread. *)
Definition ipc_view (t : tcb) : thread_state_type * Z * Z * Z :=
  (tsType_of t, blockingObject (tcbState t), tcbEPNext t, tcbEPPrev t).

Lemma ipc_view_blocked t t' : ipc_view t' = ipc_view t -> blocked_on t' = blocked_on t /\ tsType_of t' = tsType_of t.
Proof. unfold ipc_view, blocked_on. intros [= -> -> _ _]. done. Qed.

Section IpcFacts.
Context (s : kstate) (q : wobj -> list Z) (X : list Z) (Hwf : ipc_wf s q X).

Lemma iw_member o x : x ∈ q o -> exists w, waiting s o = Some (queue_of (q o), Some w) /\ waits (ksTCBs s) x o (Some w).
Proof.
  intros Hx. pose proof (iw_waiting _ _ _ Hwf o) as H. destruct (waiting s o) as [[qu w]|].
  - destruct H as (-> & _ & Hw). destruct (Hw x Hx) as (t & Ht & <- & Hb). eexists. split; [done|].
    exists t. done.
  - rewrite H in Hx. set_solver.
Qed.

Lemma iw_cells o x : x ∈ q o -> is_Some (ksTCBs s !! x).
Proof. intros Hx. destruct (iw_member o x Hx) as (w & _ & t & Ht & _). eauto. Qed.

Lemma iw_disjoint o o' x : x ∈ q o -> x ∈ q o' -> o = o'.
Proof.
  intros H1 H2. destruct (iw_member _ _ H1) as (w1 & _ & t1 & Ht1 & _ & Hb1).
  destruct (iw_member _ _ H2) as (w2 & _ & t2 & Ht2 & _ & Hb2). congruence.
Qed.

Lemma iw_nonnull x : is_Some (ksTCBs s !! x) -> x <> 0.
Proof. intros [t Ht] ->. by rewrite (iw_null _ _ _ Hwf) in Ht. Qed.
End IpcFacts.

(** Nothing the queues read changed. *)
Lemma ipc_wf_same s s' q X :
  ipc_wf s q X -> ksEPs s' = ksEPs s -> ksNTFNs s' = ksNTFNs s ->
  (forall x, ipc_view <$> ksTCBs s' !! x = ipc_view <$> ksTCBs s !! x) ->
  ipc_wf s' q X.
Proof.
  intros [W1 W2 W3 W4 W5 W6] He Hn Hv.
  assert (Hl : forall x t, ksTCBs s !! x = Some t -> exists t', ksTCBs s' !! x = Some t' /\ ipc_view t' = ipc_view t).
  { intros x t Hx. specialize (Hv x). rewrite Hx in Hv. destruct (ksTCBs s' !! x) as [t'|]; [|done].
    exists t'. split; [done|]. by apply (inj Some) in Hv. }
  assert (Hl' : forall x t, ksTCBs s' !! x = Some t -> exists t', ksTCBs s !! x = Some t' /\ ipc_view t = ipc_view t').
  { intros x t Hx. specialize (Hv x). rewrite Hx in Hv. destruct (ksTCBs s !! x) as [t'|]; [|done].
    exists t'. split; [done|]. by apply (inj Some) in Hv. }
  assert (Hlink : forall f, (forall t t', ipc_view t' = ipc_view t -> f t' = f t) ->
    forall x, tlink f (ksTCBs s') x = tlink f (ksTCBs s) x).
  { intros f Hf x. unfold tlink. specialize (Hv x).
    destruct (ksTCBs s' !! x), (ksTCBs s !! x); try done. apply Hf. by apply (inj Some) in Hv. }
  split.
  - intros o. specialize (W1 o). replace (waiting s' o) with (waiting s o) by (by destruct o; cbn; rewrite ?He, ?Hn).
    destruct (waiting s o) as [[qu w]|]; [|done]. destruct W1 as (? & ? & W1). split_and!; [done..|].
    intros x Hx. destruct (W1 x Hx) as (t & Ht & Hw & Hb). destruct (Hl x t Ht) as (t' & Ht' & Hv').
    apply ipc_view_blocked in Hv' as [Hb' Hty]. exists t'. split_and!; congruence.
  - intros o. eapply dlist_ext; [|apply W2]. intros x _. split; apply Hlink; unfold ipc_view; intros; congruence.
  - intros x t o Hx Hb. destruct (Hl' x t Hx) as (t' & Ht' & Hv'). apply ipc_view_blocked in Hv' as [Hb' _].
    apply (W3 x t'); [done|congruence].
  - done.
  - specialize (Hv 0). rewrite W5 in Hv. by destruct (ksTCBs s' !! 0).
  - specialize (Hv SchedulerAction_ChooseNewThread). rewrite W6 in Hv.
    by destruct (ksTCBs s' !! SchedulerAction_ChooseNewThread).
Qed.

(** One queue changes. *)
Lemma ipc_wf_change s s' q X X' o l' qu w :
  ipc_wf s q X ->
  (forall o', o' <> o -> waiting s' o' = waiting s o') ->
  waiting s' o = Some (qu, w) -> qu = queue_of l' -> (w = None <-> l' = []) ->
  (forall x, x ∈ l' -> waits (ksTCBs s') x o w) ->
  dlist (ep_next (ksTCBs s')) (ep_prev (ksTCBs s')) l' ->
  (forall y, y ∉ q o -> y ∉ l' -> ipc_view <$> ksTCBs s' !! y = ipc_view <$> ksTCBs s !! y) ->
  (forall y, y ∈ l' -> y ∈ q o \/ ((forall o', y ∉ q o') /\ is_Some (ksTCBs s !! y))) ->
  (forall y, y ∈ q o -> y ∈ l' \/ y ∈ X') ->
  (forall y, y ∈ X' -> y ∉ l' /\ (y ∈ q o \/ y ∈ X)) ->
  (forall y, y ∈ X -> y ∈ X' \/ y ∈ l') ->
  ipc_wf s' (updq q o l') X'.
Proof.
  intros Hwf Hwo Hwq -> Hwn Hmem Hdl Hout Hnew Hold HX' HX. pose proof Hwf as [W1 W2 W3 W4 W5 W6].
  assert (Hother : forall o' y, o' <> o -> y ∈ q o' -> y ∉ q o /\ y ∉ l').
  { intros o' y Hne Hy. assert (Hno : y ∉ q o) by (intros Hy'; apply Hne; by eapply iw_disjoint).
    split; [done|]. intros Hl. destruct (Hnew y Hl) as [?|[Hn _]]; [done|]. by apply (Hn o'). }
  split.
  - intros o'. destruct (decide (o' = o)) as [->|Hne].
    + rewrite Hwq, updq_eq. done.
    + rewrite Hwo, updq_ne by done. specialize (W1 o'). destruct (waiting s o') as [[qu w']|]; [|done].
      destruct W1 as (? & ? & W1). split_and!; [done..|]. intros y Hy.
      destruct (Hother o' y Hne Hy) as [H1 H2]. destruct (W1 y Hy) as (t & Ht & Hw & Hb).
      specialize (Hout y H1 H2). rewrite Ht in Hout. destruct (ksTCBs s' !! y) as [t'|] eqn:Ht'; [|done].
      apply (inj Some), ipc_view_blocked in Hout as [Hb' Hty]. exists t'. split_and!; congruence.
  - intros o'. destruct (decide (o' = o)) as [->|Hne]; [by rewrite updq_eq|]. rewrite updq_ne by done.
    eapply dlist_ext; [|apply W2]. intros y Hy. destruct (Hother o' y Hne Hy) as [H1 H2].
    specialize (Hout y H1 H2). unfold tlink.
    destruct (ksTCBs s' !! y), (ksTCBs s !! y); try done. apply (inj Some) in Hout.
    unfold ipc_view in Hout. split; congruence.
  - intros y t' o' Ht' Hb. destruct (decide (y ∈ l')) as [Hl|Hl].
    { right. destruct (Hmem y Hl) as (t2 & Ht2 & _ & Hb2). assert (o' = o) as -> by congruence. by rewrite updq_eq. }
    destruct (decide (y ∈ q o)) as [Hq|Hq]; [left; destruct (Hold y Hq); done|].
    specialize (Hout y Hq Hl). rewrite Ht' in Hout. destruct (ksTCBs s !! y) as [t|] eqn:Ht; [|done].
    apply (inj Some), ipc_view_blocked in Hout as [Hb' _].
    destruct (W3 y t o') as [Hx|Hx]; [done|congruence| |].
    + left. destruct (HX y Hx); done.
    + right. rewrite updq_ne; [done|]. intros ->. done.
  - intros y o' Hy. destruct (HX' y Hy) as [Hl Hqx]. destruct (decide (o' = o)) as [->|Hne]; [by rewrite updq_eq|].
    rewrite updq_ne by done. intros Hy'. destruct (Hother o' y Hne Hy') as [H1 _].
    destruct Hqx as [|Hx]; [done|]. by apply (W4 y o' Hx).
  - destruct (decide (0 ∈ q o)) as [H0|H0]; [by apply (dlist_nonnull _ _ _ (W2 o)) in H0|].
    destruct (decide (0 ∈ l')) as [H1|H1]; [by apply (dlist_nonnull _ _ _ Hdl) in H1|].
    specialize (Hout 0 H0 H1). rewrite W5 in Hout. by destruct (ksTCBs s' !! 0).
  - set (a := SchedulerAction_ChooseNewThread) in *.
    assert (Ha : a ∉ q o).
    { intros Hin. destruct (iw_cells _ _ _ Hwf o a Hin) as [t Ht]. by rewrite W6 in Ht. }
    destruct (decide (a ∈ l')) as [Hl|Hl].
    { destruct (Hnew a Hl) as [?|[_ [t Ht]]]; [done|]. by rewrite W6 in Ht. }
    specialize (Hout a Ha Hl). rewrite W6 in Hout. by destruct (ksTCBs s' !! a).
Qed.

(** A thread outside every queue can change. *)
Lemma ipc_wf_tcb s q X X' x t t' :
  ipc_wf s q X -> ksTCBs s !! x = Some t -> (forall o, x ∉ q o) ->
  (forall y, y <> x -> y ∈ X' <-> y ∈ X) -> (x ∈ X' \/ blocked_on t' = None) ->
  ipc_wf (set_ksTCBs (insert x t') s) q X'.
Proof.
  intros Hwf Hx Hq HX Hx'. pose proof Hwf as [W1 W2 W3 W4 W5 W6].
  assert (Hin : forall o y, y ∈ q o -> y <> x) by (intros o y Hy ->; by apply (Hq o)).
  split; st_simpl.
  - intros o. specialize (W1 o). change (waiting (set_ksTCBs (insert x t') s) o) with (waiting s o).
    destruct (waiting s o) as [[qu w]|]; [|done]. destruct W1 as (? & ? & W1). split_and!; [done..|].
    intros y Hy. destruct (W1 y Hy) as (ty & ? & ? & ?). exists ty. rewrite lookup_insert_ne by (apply not_eq_sym; eauto). done.
  - intros o. eapply dlist_ext; [|apply W2]. intros y Hy. rewrite !tlink_insert, !decide_False by eauto. done.
  - intros y ty o Hy Hb. destruct (decide (y = x)) as [->|Hne].
    + rewrite lookup_insert_eq in Hy. simplify_eq. destruct Hx' as [|Hx']; [by left|congruence].
    + rewrite lookup_insert_ne in Hy by done. rewrite HX by done. by eapply W3.
  - intros y o Hy. destruct (decide (y = x)) as [->|Hne]; [apply Hq|]. rewrite HX in Hy by done. by apply W4.
  - rewrite lookup_insert_ne; [done|]. intros ->. congruence.
  - rewrite lookup_insert_ne; [done|]. intros ->. congruence.
Qed.

(** ** Rules of the queue operations *)

(** [s'] differs from [s] in objects and endpoint links only. *)
Definition ep_frame (s s' : kstate) : Prop :=
  ep_erase <$> ksTCBs s' = ep_erase <$> ksTCBs s /\
  s' = set_ksTCBs (fun _ => ksTCBs s') (set_ksEPs (fun _ => ksEPs s') (set_ksNTFNs (fun _ => ksNTFNs s') s)).

(** An endpoint that loses a waiter, with [l] left, is the only object that
    changes; it is idle when nobody is left. *)
Definition ep_left (epptr : Z) (e : endpoint) (l : list Z) (s s' : kstate) : Prop :=
  exists e', ksEPs s' = <[epptr := e']> (ksEPs s) /\ ksNTFNs s' = ksNTFNs s /\
    ep_state e' = if bool_decide (l = []) then EPState_Idle else ep_state e.

Lemma ep_erase_lookup (m m' : gmap Z tcb) x :
  ep_erase <$> m' = ep_erase <$> m -> ep_erase <$> m' !! x = ep_erase <$> m !! x.
Proof. intros H. apply (f_equal (.!! x)) in H. by rewrite !lookup_fmap in H. Qed.

Lemma ep_erase_fmap {A} (f : tcb -> A) (m m' : gmap Z tcb) x :
  (forall t, f (ep_erase t) = f t) -> ep_erase <$> m' = ep_erase <$> m -> f <$> m' !! x = f <$> m !! x.
Proof.
  intros Hf H. apply (ep_erase_lookup _ _ x) in H.
  destruct (m' !! x) as [t'|], (m !! x) as [t|]; try done. apply (inj Some) in H. cbn.
  by rewrite <- (Hf t'), <- (Hf t), H.
Qed.

Lemma ep_frame_fmap {A} (f : tcb -> A) s s' x :
  (forall t, f (ep_erase t) = f t) -> ep_frame s s' -> f <$> ksTCBs s' !! x = f <$> ksTCBs s !! x.
Proof. intros Hf [He _]. by apply ep_erase_fmap. Qed.

Lemma ep_frame_sched s s' rq : ep_frame s s' -> sched_inv s rq -> sched_inv s' rq.
Proof.
  intros [He Hs'] [I1 I2 I3 I4 I5 I6 Ivm I7]. rewrite Hs'. clear Hs'. set (m' := ksTCBs s') in *.
  assert (Hrun : forall x, isRunnable_tcb <$> m' !! x = isRunnable_tcb <$> ksTCBs s !! x)
    by (intros x; by apply ep_erase_fmap).
  assert (Htr : forall x, trun (set_ksTCBs (fun _ => m') s) x = trun s x).
  { intros x. specialize (Hrun x). unfold trun. st_simpl.
    destruct (m' !! x), (ksTCBs s !! x); cbn in *; congruence. }
  assert (Hs : forall x, is_Some (ksTCBs s !! x) -> is_Some (m' !! x)).
  { intros x [t Ht]. specialize (Hrun x). rewrite Ht in Hrun. destruct (m' !! x); [eauto|done]. }
  split; [|intros p x Hp Hx; etrans; [exact (Htr x)|by apply (I2 p)]|by apply Hs|by apply Hs|done|done| |].
  - destruct (ready_wf_key s rq m') as [Hq Hb]; [intros x; by apply ep_erase_fmap|done|]. split; [exact Hq|exact Hb].
  - revert Ivm. apply vm_ok_same; try done. intros x [t Ht]. change (m' !! x = Some t) in Ht.
    specialize (Hrun x). rewrite Ht in Hrun. destruct (ksTCBs s !! x); [eauto|done].
  - destruct I7 as [?|[?|[Hr ?]]]; [by left|by right; left|right; right]. split; [|done].
    etrans; [exact (Htr _)|exact Hr].
Qed.

(** Threads keep their states when links change. *)
Lemma waits_relinked m m' l l' x o w : ep_relinked m m' l l' -> waits m x o w -> waits m' x o w.
Proof.
  intros Hr (t & Ht & Hw & Hb). pose proof (ep_erase_lookup _ _ x (er_erase _ _ _ _ Hr)) as He.
  rewrite Ht in He. destruct (m' !! x) as [t'|] eqn:Hm'; [|done]. apply (inj Some) in He.
  exists t'. split; [done|]. change (tsType_of t') with (tsType_of (ep_erase t')).
  change (blocked_on t') with (blocked_on (ep_erase t')). by rewrite He.
Qed.

Section QueueRules.
Context (s : kstate) (q : wobj -> list Z) (X : list Z) (x : Z) (t : tcb).
Hypothesis Hwf : ipc_wf s q X.
Hypothesis Hx : ksTCBs s !! x = Some t.

(** The state after the queue of [o] became [l']. *)
Lemma relinked_wf o s' m' l' w X' :
  ep_relinked (ksTCBs s) m' (q o) l' -> ksTCBs s' = m' ->
  (forall o', o' <> o -> waiting s' o' = waiting s o') ->
  waiting s' o = Some (queue_of l', w) -> (w = None <-> l' = []) ->
  (forall y, y ∈ l' -> waits (ksTCBs s) y o w) ->
  (forall y, y ∈ l' -> y ∈ q o \/ ((forall o', y ∉ q o') /\ is_Some (ksTCBs s !! y))) ->
  (forall y, y ∈ q o -> y ∈ l' \/ y ∈ X') ->
  (forall y, y ∈ X' -> y ∉ l' /\ (y ∈ q o \/ y ∈ X)) ->
  (forall y, y ∈ X -> y ∈ X' \/ y ∈ l') ->
  ipc_wf s' (updq q o l') X'.
Proof.
  intros Hr Hm Hwo Hwq Hwn Hmem Hnew Hold HX' HX. eapply ipc_wf_change; [exact Hwf|exact Hwo|exact Hwq|done|done|..]; rewrite ?Hm.
  - intros y Hy. eapply waits_relinked; [exact Hr|auto].
  - apply Hr.
  - intros y H1 H2. by rewrite (er_out _ _ _ _ Hr).
  - done.
  - done.
  - done.
  - done.
Qed.

Section Enqueue.
Hypothesis HxX : X = [x].
Variable o : wobj.
Hypothesis Hbo : blocked_on t = Some o.

Lemma enqueue_facts :
  x <> 0 /\ x ∉ q o /\ (forall y, y ∈ q o -> is_Some (ksTCBs s !! y)) /\
  dlist (ep_next (ksTCBs s)) (ep_prev (ksTCBs s)) (q o).
Proof.
  split_and!.
  - eapply iw_nonnull; eauto.
  - apply (iw_transit _ _ _ Hwf). rewrite HxX. by left.
  - intros y. by eapply iw_cells.
  - apply Hwf.
Qed.

(** A queue of waiting threads of the same kind takes one more. *)
Lemma enqueue_wf s' m' w :
  ep_relinked (ksTCBs s) m' (q o) (q o ++ [x]) -> ksTCBs s' = m' ->
  (forall o', o' <> o -> waiting s' o' = waiting s o') ->
  waiting s' o = Some (queue_of (q o ++ [x]), Some w) -> tsType_of t = w ->
  (forall qu w', waiting s o = Some (qu, w') -> w' = None \/ w' = Some w) ->
  ipc_wf s' (updq q o (q o ++ [x])) [].
Proof.
  intros Hr Hm Hwo Hwq Hty Hcompat. eapply relinked_wf; [exact Hr|exact Hm|exact Hwo|exact Hwq|..].
  - split; [done|]. by destruct (q o).
  - intros y. rewrite elem_of_app, list_elem_of_singleton. intros [Hy| ->].
    + destruct (iw_member _ _ _ Hwf o y Hy) as (w' & Hw & Hwt).
      destruct (Hcompat _ _ Hw) as [?|E]; [done|]. injection E as ->. done.
    + exists t. rewrite Hty. done.
  - intros y. rewrite elem_of_app, list_elem_of_singleton. intros [Hy| ->]; [by left|right].
    split; [|by eauto]. intros o'. apply (iw_transit _ _ _ Hwf). rewrite HxX. by left.
  - intros y Hy. left. rewrite elem_of_app. by left.
  - intros y Hy. set_solver.
  - intros y Hy. rewrite HxX in Hy. right. set_solver.
Qed.

Lemma wp_ep_enqueue epptr e st w Q :
  o = WEP epptr -> ksEPs s !! epptr = Some e ->
  (ep_state e = EPState_Idle \/ ep_state e = st) ->
  ep_kind st = Some w -> tsType_of t = w ->
  (forall s', ep_frame s s' -> ipc_wf s' (updq q o (q o ++ [x])) [] -> Q tt s') ->
  wp (let* queue := ep_ptr_get_queue epptr in
      let* queue' := tcbEPAppend x queue in
      endpoint_ptr_set_state epptr st ;;; ep_ptr_set_queue epptr queue') Q s.
Proof.
  intros Ho He Hst Hw Hty HQ. destruct enqueue_facts as (Hx0 & Hxq & Hcells & Hd).
  pose proof (iw_waiting _ _ _ Hwf o) as Hwt. rewrite Ho in Hwt. cbn in Hwt. rewrite He in Hwt. cbn in Hwt.
  destruct Hwt as (Hqu & _ & _). rewrite <- Ho in Hqu.
  unfold ep_ptr_get_queue, endpoint_ptr_set_state, ep_ptr_set_queue.
  wp_struct. wp_struct. eapply wp_getEP; [exact He|]. wp_struct. rewrite Hqu.
  wp_struct. eapply wp_tcbEPAppend; [exact Hx|exact Hcells|exact Hd|done|done|]. intros m' Hr.
  wp_struct. eapply wp_modEP; [exact He|]. wp_struct. eapply wp_modEP; [st_simpl; apply lookup_insert_eq|].
  eapply wp_modEP; [st_simpl; apply lookup_insert_eq|]. apply HQ.
  - split; [apply Hr|by destruct s].
  - eapply enqueue_wf; [exact Hr|done| | |exact Hty|].
    + intros [a|a] Hne; cbn; [|done]. rewrite !lookup_insert_ne by congruence. done.
    + rewrite Ho. cbn. rewrite lookup_insert_eq. unfold ep_waiting. cbn -[hd_or last_or]. by rewrite Hw.
    + rewrite Ho. cbn. rewrite He. intros qu w' [= _ <-]. destruct Hst as [-> | ->]; [by left|right; exact Hw].
Qed.

Lemma wp_ntfn_enqueue ntfnPtr n Q :
  o = WNTFN ntfnPtr -> ksNTFNs s !! ntfnPtr = Some n ->
  tsType_of t = ThreadState_BlockedOnNotification ->
  (forall s', ep_frame s s' -> ipc_wf s' (updq q o (q o ++ [x])) [] -> Q tt s') ->
  wp (let* queue := ntfn_ptr_get_queue ntfnPtr in
      let* queue' := tcbEPAppend x queue in
      notification_ptr_set_state ntfnPtr NtfnState_Waiting ;;; ntfn_ptr_set_queue ntfnPtr queue') Q s.
Proof.
  intros Ho He Hty HQ. destruct enqueue_facts as (Hx0 & Hxq & Hcells & Hd).
  pose proof (iw_waiting _ _ _ Hwf o) as Hwt. rewrite Ho in Hwt. cbn in Hwt. rewrite He in Hwt. cbn in Hwt.
  destruct Hwt as (Hqu & _ & _). rewrite <- Ho in Hqu.
  unfold ntfn_ptr_get_queue, notification_ptr_set_state, ntfn_ptr_set_queue.
  wp_struct. wp_struct. eapply wp_getNTFN; [exact He|]. wp_struct. rewrite Hqu.
  wp_struct. eapply wp_tcbEPAppend; [exact Hx|exact Hcells|exact Hd|done|done|]. intros m' Hr.
  wp_struct. eapply wp_modNTFN; [exact He|]. wp_struct. eapply wp_modNTFN; [st_simpl; apply lookup_insert_eq|].
  eapply wp_modNTFN; [st_simpl; apply lookup_insert_eq|]. apply HQ.
  - split; [apply Hr|by destruct s].
  - eapply enqueue_wf; [exact Hr|done| | |exact Hty|].
    + intros [a|a] Hne; cbn; [done|]. rewrite !lookup_insert_ne by congruence. done.
    + rewrite Ho. cbn. rewrite lookup_insert_eq. done.
    + rewrite Ho. cbn. rewrite He. unfold ntfn_waiting. intros qu w' [= _ <-]. destruct (ntfn_state n); tauto.
Qed.
End Enqueue.

Section Dequeue.
Hypothesis HX : X = [].
Variable o : wobj.
Hypothesis Hxo : x ∈ q o.

Lemma dequeue_wf s' m' w :
  ep_relinked (ksTCBs s) m' (q o) (del x (q o)) -> ksTCBs s' = m' ->
  (forall o', o' <> o -> waiting s' o' = waiting s o') ->
  (forall qu w0, waiting s o = Some (qu, w0) -> del x (q o) <> [] -> w = w0) ->
  (del x (q o) = [] -> w = None) ->
  waiting s' o = Some (queue_of (del x (q o)), w) ->
  ipc_wf s' (updq q o (del x (q o))) [x].
Proof.
  intros Hr Hm Hwo Hkeep Hidle Hwq.
  assert (Hwt : forall y, y ∈ del x (q o) -> waits (ksTCBs s) y o w).
  { intros y Hy. assert (Hne : del x (q o) <> []) by (intros E; rewrite E in Hy; set_solver).
    apply elem_of_del in Hy as [_ Hy]. destruct (iw_member _ _ _ Hwf o y Hy) as (w0 & Hw & Ht).
    by rewrite (Hkeep _ _ Hw Hne). }
  eapply relinked_wf; [exact Hr|exact Hm|exact Hwo|exact Hwq| |exact Hwt|..].
  - split; [|apply Hidle]. intros ->. destruct (del x (q o)) as [|y l]; [done|].
    destruct (Hwt y) as (ty & _ & ? & _); [by left|done].
  - intros y Hy. apply elem_of_del in Hy. tauto.
  - intros y Hy. rewrite list_elem_of_singleton, elem_of_del. destruct (decide (y = x)); tauto.
  - intros y Hy. rewrite list_elem_of_singleton in Hy. rewrite Hy, elem_of_del. tauto.
  - rewrite HX. set_solver.
Qed.

Lemma wp_dequeue {A} (k : tcb_queue -> K A) Q :
  (forall m', ep_relinked (ksTCBs s) m' (q o) (del x (q o)) -> m' !! x = Some t ->
     wp (k (queue_of (del x (q o)))) Q (set_ksTCBs (fun _ => m') s)) ->
  wp (bind (tcbEPDequeue x (queue_of (q o))) k) Q s.
Proof.
  intros HQ. pose proof (iw_list _ _ _ Hwf o) as Hd. assert (Hx' := Hxo).
  apply list_elem_of_split in Hx' as (l1 & l2 & E).
  destruct (nodup_mid l1 l2 x) as [H1 H2]; [rewrite <- E; apply Hd|].
  rewrite E, del_split in HQ by done. rewrite E in Hd |- *. wp_struct.
  apply (wp_tcbEPDequeue s x t Hx); [|exact Hd|exact HQ].
  intros y Hy. rewrite <- E in Hy. by eapply iw_cells.
Qed.

Lemma wp_ep_dequeue {A} epptr e (k : K A) Q :
  o = WEP epptr -> ksEPs s !! epptr = Some e ->
  (forall s', ep_frame s s' -> ep_left epptr e (del x (q o)) s s' -> ksTCBs s' !! x = Some t ->
     ipc_wf s' (updq q o (del x (q o))) [x] -> wp k Q s') ->
  wp (let* queue' := tcbEPDequeue x (queue_of (q o)) in
      ep_ptr_set_queue epptr queue' ;;;
      (if q_head queue' =? 0 then endpoint_ptr_set_state epptr EPState_Idle else ret tt) ;;; k) Q s.
Proof.
  intros Ho He HQ. apply wp_dequeue. intros m' Hr Hx'.
  assert (H0 : 0 ∉ del x (q o)) by apply (dlist_nonnull _ _ _ (er_dlist _ _ _ _ Hr)).
  pose proof (queue_of_empty _ H0) as Hemp. unfold tcb_queue_empty in Hemp. rewrite Hemp.
  unfold ep_ptr_set_queue, endpoint_ptr_set_state. wp_struct.
  wp_struct. eapply wp_modEP; [exact He|]. eapply wp_modEP; [st_simpl; apply lookup_insert_eq|].
  wp_struct. case_bool_decide as Hd.
  - eapply wp_modEP; [st_simpl; apply lookup_insert_eq|].
    apply HQ; [split; [apply Hr|by destruct s]| |exact Hx'|].
    { eexists. split_and!; [st_simpl; by rewrite !insert_insert_eq|done|by rewrite bool_decide_true]. }
    eapply dequeue_wf with (w := None); [exact Hr|done| |done|done|].
    + intros [a|a] Hne; cbn; [|done]. rewrite !lookup_insert_ne by congruence. done.
    + rewrite Ho. cbn. rewrite lookup_insert_eq. done.
  - wp_struct. apply HQ; [split; [apply Hr|by destruct s]| |exact Hx'|].
    { eexists. split_and!; [st_simpl; by rewrite !insert_insert_eq|done|by rewrite bool_decide_false]. }
    eapply dequeue_wf with (w := ep_kind (ep_state e)); [exact Hr|done| | |done|].
    + intros [a|a] Hne; cbn; [|done]. rewrite !lookup_insert_ne by congruence. done.
    + rewrite Ho. cbn. rewrite He. intros qu w0 [= _ <-]. done.
    + rewrite Ho. cbn. rewrite lookup_insert_eq. done.
Qed.

Lemma wp_ntfn_dequeue {A} ntfnPtr n (k : K A) Q :
  o = WNTFN ntfnPtr -> ksNTFNs s !! ntfnPtr = Some n ->
  (forall s', ep_frame s s' -> ksTCBs s' !! x = Some t ->
     ipc_wf s' (updq q o (del x (q o))) [x] -> wp k Q s') ->
  wp (let* queue' := tcbEPDequeue x (queue_of (q o)) in
      ntfn_ptr_set_queue ntfnPtr queue' ;;;
      (if q_head queue' =? 0 then notification_ptr_set_state ntfnPtr NtfnState_Idle else ret tt) ;;; k) Q s.
Proof.
  intros Ho He HQ. apply wp_dequeue. intros m' Hr Hx'.
  assert (H0 : 0 ∉ del x (q o)) by apply (dlist_nonnull _ _ _ (er_dlist _ _ _ _ Hr)).
  pose proof (queue_of_empty _ H0) as Hemp. unfold tcb_queue_empty in Hemp. rewrite Hemp.
  unfold ntfn_ptr_set_queue, notification_ptr_set_state. wp_struct.
  wp_struct. eapply wp_modNTFN; [exact He|]. eapply wp_modNTFN; [st_simpl; apply lookup_insert_eq|].
  wp_struct. case_bool_decide as Hd.
  - eapply wp_modNTFN; [st_simpl; apply lookup_insert_eq|]. apply HQ; [split; [apply Hr|by destruct s]|exact Hx'|].
    eapply dequeue_wf with (w := None); [exact Hr|done| |done|done|].
    + intros [a|a] Hne; cbn; [done|]. rewrite !lookup_insert_ne by congruence. done.
    + rewrite Ho. cbn. rewrite lookup_insert_eq. done.
  - wp_struct. apply HQ; [split; [apply Hr|by destruct s]|exact Hx'|].
    eapply dequeue_wf with (w := (ntfn_waiting n).2); [exact Hr|done| | |done|].
    + intros [a|a] Hne; cbn; [done|]. rewrite !lookup_insert_ne by congruence. done.
    + rewrite Ho. cbn. rewrite He. intros qu w0 [= _ <-]. done.
    + rewrite Ho. cbn. rewrite lookup_insert_eq. done.
Qed.
End Dequeue.
End QueueRules.
