(* ===== verification/SchedThm.v ===== *)
(** * Theorems on the scheduler

    What src/kernel/thread.c and the queue half of src/object/tcb.c promise:
    the scheduler refines the abstract one of [Schedule], picks a thread of
    highest priority, and shares a priority round-robin. *)
From stdpp Require Import base list sets gmap.
From S2P Require Import Prelude Dll Structures CapOps CSpace VSpace Sched DomSched ReadyQueue Schedule SchedOps Concrete.
#[local] Open Scope Z_scope.

(** The priority of whatever becomes current dominates the ready threads. *)
Lemma top_dominates q p : prio_ok p -> q p <> [] -> exists hp, top_prio q = Some hp /\ p <= hp.
Proof.
  intros Hp Hne. destruct (top_prio q) as [hp|] eqn:Ht.
  - exists hp. split; [done|]. apply top_Some in Ht as (Hhp & _ & Hx).
    destruct (Z.le_gt_cases p hp); [done|]. by rewrite Hx in Hne by (done || lia).
  - by rewrite (top_None _ _ Ht Hp) in Hne.
Qed.

Definition dominates (prio : Z -> Z) (q : queues) (x : Z) : Prop :=
  forall p, prio_ok p -> q p <> [] -> p <= prio x.

Lemma choose_dominates prio q idle :
  (forall p x, prio_ok p -> x ∈ q p -> prio x = p) -> dominates prio (choose q idle).1 (choose q idle).2.
Proof.
  intros Hprio p Hp Hne. unfold choose in *. destruct (top_prio q) as [hp|] eqn:Ht.
  - cbn in *. pose proof Ht as Ht'. apply top_Some in Ht as (Hhp & Hne' & _).
    rewrite (Hprio hp) by (done || by apply hd_or_in).
    assert (Hq : q p <> []).
    { intros H0. apply Hne. unfold deq, upd. case_bool_decide; [|done].
      destruct (Z.eqb_spec p hp) as [->|]; [done|done]. }
    destruct (top_dominates q p Hp Hq) as (hp' & Hhp' & ?). congruence.
  - cbn in *. by rewrite (top_None _ _ Ht Hp) in Hne.
Qed.

Lemma enq_prio prio q x :
  (forall p y, prio_ok p -> y ∈ q p -> prio y = p) ->
  forall p y, prio_ok p -> y ∈ enq q (prio x) x p -> prio y = p.
Proof.
  intros H p y Hp. unfold enq. case_bool_decide; [by apply H|]. unfold upd.
  destruct (Z.eqb_spec p (prio x)) as [->|]; [|by apply H].
  rewrite elem_of_cons. intros [->|?]; [done|by apply H].
Qed.

Lemma appq_prio prio q x :
  (forall p y, prio_ok p -> y ∈ q p -> prio y = p) ->
  forall p y, prio_ok p -> y ∈ appq q (prio x) x p -> prio y = p.
Proof.
  intros H p y Hp. unfold appq. case_bool_decide; [by apply H|]. unfold upd.
  destruct (Z.eqb_spec p (prio x)) as [->|]; [|by apply H].
  rewrite elem_of_app, list_elem_of_singleton. intros [?| ->]; [by apply H|done].
Qed.

Lemma enq_nonempty q p0 x p : enq q p0 x p <> [] -> p = p0 \/ q p <> [].
Proof.
  unfold enq. case_bool_decide; [by right|]. unfold upd.
  destruct (Z.eqb_spec p p0); [by left|by right].
Qed.

Lemma deq_nonempty q p0 x p : deq q p0 x p <> [] -> q p <> [].
Proof.
  unfold deq. case_bool_decide as Hin; [|done]. unfold upd.
  destruct (Z.eqb_spec p p0) as [->|]; [|done]. intros _ H. rewrite H in Hin. by apply elem_of_nil in Hin.
Qed.

Lemma spec_schedule_dominates prio runs idle q cur action :
  (forall p x, prio_ok p -> x ∈ q p -> prio x = p) ->
  (action <> SchedulerAction_ChooseNewThread -> dominates prio q cur) ->
  let r := spec_schedule prio runs idle q cur action in dominates prio r.1 r.2.
Proof.
  intros Hprio Htop. unfold spec_schedule. cbn zeta.
  destruct (Z.eqb_spec action SchedulerAction_ResumeCurrentThread) as [->|Ha]; [by apply Htop|].
  set (q1 := if runs cur then enq q (prio cur) cur else q).
  assert (Hq1 : forall p x, prio_ok p -> x ∈ q1 p -> prio x = p).
  { unfold q1. destruct (runs cur); [by apply enq_prio|done]. }
  destruct (Z.eqb_spec action SchedulerAction_ChooseNewThread) as [->|Ha']; [by apply choose_dominates|].
  specialize (Htop Ha').
  destruct ((cur =? idle) || (prio action <? prio cur)) eqn:Hff; cbn [andb].
  - destruct (negb (highest q1 (prio action))) eqn:Hhi.
    { by apply choose_dominates, enq_prio. }
    destruct (runs cur && _); [by apply choose_dominates, appq_prio|].
    intros p Hp Hne. cbn in *. apply deq_nonempty in Hne.
    destruct (top_dominates q1 p Hp Hne) as (hp & Ht & Hle).
    unfold highest in Hhi. rewrite Ht in Hhi. bool_hyps. lia.
  - destruct (runs cur && _); [by apply choose_dominates, appq_prio|].
    intros p Hp Hne. cbn in *. apply deq_nonempty in Hne. bool_hyps.
    assert (p <= prio cur); [|lia].
    unfold q1 in Hne. destruct (runs cur); [|by apply Htop].
    destruct (enq_nonempty _ _ _ _ Hne) as [->|]; [lia|by apply Htop].
Qed.

Lemma ready_prio_of s q p x : ready_wf s q -> prio_ok p -> x ∈ q p -> tprio s x = p.
Proof.
  intros [Hq _] Hp Hx. destruct (qwf_member _ _ _ Hq p x Hp Hx) as (t & Ht & _ & ?).
  unfold tprio. by rewrite (tlink_Some _ _ _ _ Ht).
Qed.

(** C1: [schedule] refines the abstract scheduler.  From a state that
    represents the ready lists [q], no assertion of the code fails and the
    whole next state is determined, up to the links of the ready queues: the
    next current thread and the ready lists are those of [spec_schedule]; the
    scheduler invariant holds again with action "resume"; the address space of
    the next thread and then its FPU state are installed by exactly the
    hardware operations of [hw_schedule] (the empty root for the idle thread,
    nothing at all on resume), which also gives the FPU owner and the lookup
    fault; the position in the domain schedule, the domain time and the
    preemption counter are those of [dom_schedule], which moves an expired
    domain to the next entry of the schedule exactly when a fresh choice is
    made; and nothing else changes. *)
Theorem schedule_refines s q :
  sched_inv s q ->
  wp schedule (fun _ s' =>
    let r := spec_schedule (tprio s) (trun s) (ksIdleThread s) q (ksCurThread s) (ksSchedulerAction s) in
    let pool := spec_pool (tprio s) (trun s) (ksIdleThread s) q (ksCurThread s) (ksSchedulerAction s) in
    sched_frame s s' /\ sched_inv s' r.1 /\ ksCurThread s' = r.2 /\
    ksSchedulerAction s' = SchedulerAction_ResumeCurrentThread /\
    hw_of s' = hw_schedule s pool /\ dom_of s' = dom_schedule s pool) s.
Proof. intros H. exact (wp_schedule_raw s q H). Qed.

Lemma sched_inv_time s q f : sched_inv s q -> sched_inv (set_ksDomainTime f s) q.
Proof.
  intros [I1 I2 I3 I4 I5 I6 I7 I8]. split; [exact I1|exact I2|exact I3|exact I4|exact I5|exact I6| |exact I8].
  by eapply vm_ok_same; [..|exact I7].
Qed.

(** Thread A is ready and the time of the domain is over. *)
Definition s_expired : kstate := set_ksDomainTime (fun _ => 0) s_ready.

Lemma s_expired_inv : sched_inv s_expired q_ready.
Proof. exact (sched_inv_time _ _ _ s_ready_inv). Qed.

(** The domain gets its time again, the FPU is released, A's address space
    (it has none) is installed and its FPU state loaded. *)
Lemma schedule_refines_witness :
  sched_inv s_expired q_ready /\
  wp schedule (fun _ s' => ksCurThread s' = tcb_A /\ ksDomainTime s' = DSCHED_MAX_DURATION /\
    ksMachine s' = [op_loadFpuState tcb_A; op_enableFpu; op_setCurrentUserVSpaceRoot_global;
                    op_disableFpu; op_enableFpu]) s_expired.
Proof.
  split; [exact s_expired_inv|].
  refine (wp_mono _ _ _ _ (schedule_refines s_expired q_ready s_expired_inv) _).
  intros [] s' (_ & _ & Hc & _ & Hh & Hd). rewrite Hc. split; [vm_compute; reflexivity|].
  apply (f_equal (fun d => d.1.2)) in Hd. apply (f_equal hw_ops) in Hh.
  split; [etransitivity; [exact Hd|]|etransitivity; [exact Hh|]]; vm_compute; reflexivity.
Defined.

(** C2: After [schedule] no ready thread has a higher priority than the
    current one, provided that held before or a fresh choice was requested;
    so the condition is kept from one scheduling decision to the next. *)
Theorem schedule_highest_priority s q :
  sched_inv s q ->
  (ksSchedulerAction s <> SchedulerAction_ChooseNewThread -> dominates (tprio s) q (ksCurThread s)) ->
  wp schedule (fun _ s' => exists q', sched_inv s' q' /\ dominates (tprio s') q' (ksCurThread s')) s.
Proof.
  intros Hinv Htop. eapply wp_mono; [exact (wp_schedule_raw s q Hinv)|].
  intros [] s' (Hf & Hinv' & Hc & _). eexists. split; [exact Hinv'|].
  assert (Hp : forall x, tprio s' x = tprio s x).
  { intros x. pose proof (sched_frame_tcbs s s' x Hf) as Hx. unfold tprio, tlink.
    destruct (ksTCBs s' !! x) as [t'|], (ksTCBs s !! x) as [t|]; try done.
    apply (inj Some) in Hx. change (tcbPriority (tcb_erase t') = tcbPriority (tcb_erase t)). by rewrite Hx. }
  intros p Hp' Hne. rewrite Hp, Hc. revert p Hp' Hne. apply spec_schedule_dominates; [|done].
  intros p x Hpk Hx. apply (ready_prio_of s q); [apply Hinv|done|done].
Qed.

Lemma schedule_highest_priority_witness :
  sched_inv s_ready q_ready /\
  wp schedule (fun _ s' => exists q', sched_inv s' q' /\ dominates (tprio s') q' (ksCurThread s')) s_ready.
Proof.
  split; [exact s_ready_inv|]. apply (schedule_highest_priority s_ready q_ready s_ready_inv).
  intros H. exfalso. apply H. vm_compute. reflexivity.
Defined.

(** [tcbSchedEnqueue] puts an unqueued thread at the head of the ready
    list of its priority, leaves a queued one where it is, and changes nothing
    but the ready queues. *)
Theorem tcbSchedEnqueue_spec s q x t :
  ready_wf s q -> ksTCBs s !! x = Some t ->
  wp (tcbSchedEnqueue x) (fun _ s' => sched_eq s s' /\ ready_wf s'
    (if tcbQueued (tcbState t) then q else upd q (tcbPriority t) (x :: q (tcbPriority t)))) s.
Proof. exact (wp_tcbSchedEnqueue s q x t). Qed.

Lemma tcbSchedEnqueue_spec_witness :
  ready_wf s_ready q_ready /\
  wp (tcbSchedEnqueue tcb_B) (fun _ s' => ready_wf s' (upd q_ready 200 [tcb_B])) s_ready.
Proof.
  split; [apply s_ready_inv|].
  refine (wp_mono _ _ _ _ (tcbSchedEnqueue_spec s_ready q_ready tcb_B (mk_thread ThreadState_Running 200)
    (si_ready _ _ s_ready_inv) eq_refl) _).
  intros [] s' [_ H]. exact H.
Defined.

(** [tcbSchedAppend] puts an unqueued thread at the tail of the ready list
    of its priority and leaves a queued one where it is. *)
Theorem tcbSchedAppend_spec s q x t :
  ready_wf s q -> ksTCBs s !! x = Some t ->
  wp (tcbSchedAppend x) (fun _ s' => sched_eq s s' /\ ready_wf s'
    (if tcbQueued (tcbState t) then q else upd q (tcbPriority t) (q (tcbPriority t) ++ [x]))) s.
Proof. exact (wp_tcbSchedAppend s q x t). Qed.

Lemma tcbSchedAppend_spec_witness :
  ready_wf s_ready q_ready /\
  wp (tcbSchedAppend tcb_B) (fun _ s' => ready_wf s' (upd q_ready 200 [tcb_B])) s_ready.
Proof.
  split; [apply s_ready_inv|].
  refine (wp_mono _ _ _ _ (tcbSchedAppend_spec s_ready q_ready tcb_B (mk_thread ThreadState_Running 200)
    (si_ready _ _ s_ready_inv) eq_refl) _).
  intros [] s' [_ H]. exact H.
Defined.

(** [tcbSchedDequeue] unlinks a queued thread, wherever it stands in its
    queue, and does nothing to an unqueued one. *)
Theorem tcbSchedDequeue_spec s q x t :
  ready_wf s q -> ksTCBs s !! x = Some t ->
  wp (tcbSchedDequeue x) (fun _ s' => sched_eq s s' /\ ready_wf s'
    (if tcbQueued (tcbState t) then upd q (tcbPriority t) (del x (q (tcbPriority t))) else q)) s.
Proof. exact (wp_tcbSchedDequeue s q x t). Qed.

Lemma tcbSchedDequeue_spec_witness :
  ready_wf s_ready q_ready /\
  wp (tcbSchedDequeue tcb_A) (fun _ s' => exists q', ready_wf s' q' /\ q' 100 = []) s_ready.
Proof.
  split; [apply s_ready_inv|].
  refine (wp_mono _ _ _ _ (tcbSchedDequeue_spec s_ready q_ready tcb_A
    (upd_state (set_tcbQueued (fun _ => true)) (mk_thread ThreadState_Running 100))
    (si_ready _ _ s_ready_inv) eq_refl) _).
  intros [] s' [_ H]. eexists. split; [exact H|]. vm_compute. reflexivity.
Defined.

(** The two-level bitmap answers for the queues: on a state with a ready
    thread, [getHighestPrio] returns the highest priority with a nonempty
    ready list, asserting nothing false and changing nothing. *)
Theorem getHighestPrio_spec s q :
  ready_wf s q -> (exists p, prio_ok p /\ q p <> []) ->
  wp (getHighestPrio 0) (fun p s' => s' = s /\ prio_ok p /\ q p <> [] /\
    forall p', prio_ok p' -> q p' <> [] -> p' <= p) s.
Proof.
  intros Hwf (p0 & Hp0 & Hne0). pose proof Hwf as [Hq (w1 & Hl1 & Hrest)].
  destruct (decide (w1 = 0)) as [->|Hw].
  { pose proof (ready_top_None s q Hwf Hl1) as Ht. by rewrite (top_None _ _ Ht Hp0) in Hne0. }
  eapply (wp_getHighestPrio_top s q); [done..|]. intros p Ht.
  apply top_Some in Ht as Ht'. destruct Ht' as (Hp & Hne & _). split_and!; try apply Hp; try done.
  intros p' Hp' Hne'. destruct (top_dominates q p' Hp' Hne') as (hp & Hhp & ?). congruence.
Qed.

Lemma getHighestPrio_spec_witness :
  ready_wf s_ready q_ready /\
  wp (getHighestPrio 0) (fun p s' => s' = s_ready /\ q_ready p <> []) s_ready.
Proof.
  split; [apply s_ready_inv|].
  refine (wp_mono _ _ _ _ (getHighestPrio_spec s_ready q_ready (si_ready _ _ s_ready_inv) _) _).
  - exists 100. split; [vm_compute; split; discriminate || reflexivity|]. discriminate.
  - intros p s' (-> & _ & H & _). split; [reflexivity|exact H].
Defined.

(** Advancing the domain schedule from any well-formed position, including
    the last entry, lands on an entry that is not the end marker: the current
    domain is in range, the new domain time is positive, the position is again
    well formed, and nothing but the position, the domain, the domain time and
    the preemption counter changes. *)
Theorem nextDomain_spec s :
  domsched_inv s ->
  wp nextDomain (fun _ s' =>
    s' = after_next s /\ domsched_inv s' /\
    0 <= ksCurDomain s' < numDomains /\ 0 < ksDomainTime s') s.
Proof.
  intros Hwf. apply wp_nextDomain; [done|]. destruct (after_next_inv s Hwf) as (H1 & H2 & H3).
  split_and!; [done|done|lia|rewrite H2; done|].
  assert (Hw : 0 <= ksDomainTime (after_next s)); [|lia].
  unfold after_next. st_simpl. apply dschedule_split, next_entry_ok, Hwf.
Qed.

Lemma nextDomain_spec_witness :
  domsched_inv s_ready /\ wp nextDomain (fun _ s' => 0 < ksDomainTime s') s_ready.
Proof.
  split; [apply s_ready_inv|].
  refine (wp_mono _ _ _ _ (nextDomain_spec s_ready (si_domsched _ _ s_ready_inv)) _).
  intros [] s' (_ & _ & _ & H). exact H.
Defined.

(** ** The timer *)

(** The time slice of a thread. *)
Definition tslice (s : kstate) (x : Z) : option Z := tcbTimeSlice <$> ksTCBs s !! x.

(** The running thread gets a slice back and goes to the tail of its list. *)
Lemma wp_expire_slice s q t :
  sched_inv s q -> ksSchedulerAction s = SchedulerAction_ResumeCurrentThread ->
  ksTCBs s !! ksCurThread s = Some t -> tsType_of t = ThreadState_Running ->
  tcbTimeSlice t <= 1 ->
  wp timerTick (fun _ s' =>
    sched_inv s' (appq q (tcbPriority t) (ksCurThread s)) /\
    ksSchedulerAction s' = SchedulerAction_ChooseNewThread /\
    ksCurThread s' = ksCurThread s /\ tprio s' (ksCurThread s) = tcbPriority t /\
    tslice s' (ksCurThread s) = Some CONFIG_TIME_SLICE) s.
Proof.
  intros Hinv Ha Ht Hrun Hts. set (cur := ksCurThread s) in *.
  unfold timerTick. wp_struct. wp_struct. wp_struct.
  eapply wp_getTCB; [done|]. wp_struct. rewrite bool_decide_true by done.
  destruct (Z.ltb_spec 1 (tcbTimeSlice t)); [lia|].
  wp_struct. eapply wp_modTCB; [done|]. fold cur.
  set (t0 := set_tcbTimeSlice (fun _ => CONFIG_TIME_SLICE) t).
  set (s0 := set_ksTCBs (insert cur t0) s).
  assert (Hinv0 : sched_inv s0 q).
  { replace s0 with (set_ksSchedulerAction (fun _ => SchedulerAction_ResumeCurrentThread)
      (set_ksTCBs (fun _ => <[cur := t0]> (ksTCBs s)) s)) by (unfold s0; rewrite <- Ha; by destruct s).
    apply sched_inv_key; [| |by left|done];
      intros x; destruct (decide (x = cur)) as [->|]; by simplify_map_eq. }
  assert (Ht0 : ksTCBs s0 !! cur = Some t0) by (unfold s0; st_simpl; by simplify_map_eq).
  wp_struct. eapply (wp_appq s0 q); [apply Hinv0|eauto|]. intros s1 He1 Hwf1.
  unfold tprio in Hwf1. rewrite (tlink_Some _ _ _ _ Ht0) in Hwf1. change (tcbPriority t0) with (tcbPriority t) in Hwf1.
  assert (Hinv1 : sched_inv s1 (appq q (tcbPriority t) cur)).
  { eapply sched_inv_sched_eq; [exact Hinv0|done|done|]. apply qall_appq; [|apply Hinv0].
    unfold trun. rewrite Ht0. change (isRunnable_tcb t = true). unfold isRunnable_tcb. by rewrite Hrun. }
  unfold rescheduleRequired. do 2 wp_struct.
  rewrite (sched_eq_field ksSchedulerAction s0 s1) by done.
  change (ksSchedulerAction s0) with (ksSchedulerAction s). rewrite Ha. cbn -[appq].
  unfold setSchedulerAction. repeat wp_struct. st_simpl. split_and!.
  - rewrite <- (set_ksTCBs_id s1). by apply sched_inv_key; [..|right|].
  - done.
  - by rewrite (sched_eq_field ksCurThread s0 s1).
  - change (tprio s1 cur = tcbPriority t). rewrite (sched_eq_tprio s0 s1) by done.
    unfold tprio. by rewrite (tlink_Some _ _ _ _ Ht0).
  - change (tslice s1 cur = Some CONFIG_TIME_SLICE). unfold tslice.
    rewrite (sched_eq_fmap tcbTimeSlice s0 s1) by done. by rewrite Ht0.
Qed.

(** With the current thread already queued behind [x], [x] is chosen. *)
Lemma spec_choose_next prio runs idle q cur p x l :
  prio cur = p -> prio_ok p -> q p = x :: l -> cur ∈ q p ->
  (forall p', prio_ok p' -> p < p' -> q p' = []) ->
  spec_schedule prio runs idle q cur SchedulerAction_ChooseNewThread = (deq q p x, x).
Proof.
  intros Hpc Hp Hq Hin Htop. unfold spec_schedule.
  change (SchedulerAction_ChooseNewThread =? SchedulerAction_ResumeCurrentThread) with false.
  change (SchedulerAction_ChooseNewThread =? SchedulerAction_ChooseNewThread) with true. cbv iota zeta.
  assert (Hen : enq q (prio cur) cur = q).
  { unfold enq. rewrite Hpc. by rewrite bool_decide_true. }
  rewrite Hen. destruct (runs cur); unfold choose; rewrite (top_unique q p) by (rewrite ?Hq; auto; done);
    by rewrite Hq.
Qed.

(** C3: Round robin.  When the timer ends the slice of the running thread
    [cur] and a thread [x] of the same priority heads the highest ready list
    [x :: l], then after [timerTick] and [schedule] the thread [x] runs, the
    ready list is [l ++ [cur]], the other lists are untouched and [cur] has a
    full slice again. *)
Theorem timer_round_robin s q t x l :
  sched_inv s q -> ksSchedulerAction s = SchedulerAction_ResumeCurrentThread ->
  ksTCBs s !! ksCurThread s = Some t -> tsType_of t = ThreadState_Running ->
  tcbQueued (tcbState t) = false -> tcbTimeSlice t <= 1 ->
  q (tcbPriority t) = x :: l ->
  (forall p, prio_ok p -> tcbPriority t < p -> q p = []) ->
  wp (timerTick ;;; schedule) (fun _ s' =>
    ksCurThread s' = x /\ tslice s' (ksCurThread s) = Some CONFIG_TIME_SLICE /\
    exists q', sched_inv s' q' /\ q' (tcbPriority t) = l ++ [ksCurThread s] /\
      forall p, prio_ok p -> p <> tcbPriority t -> q' p = q p) s.
Proof.
  intros Hinv Ha Ht Hrun Hqd Hts Hq Htop. wp_struct. eapply wp_mono; [by apply (wp_expire_slice s q t)|].
  set (cur := ksCurThread s) in *. set (p := tcbPriority t) in *.
  intros [] s2 (Hinv2 & Ha2 & Hc2 & Hp2 & Hsl).
  destruct (qwf_prio _ _ _ (proj1 (si_ready _ _ Hinv)) cur t Ht) as (Hp & _).
  assert (Hnin : cur ∉ q p).
  { intros Hin. destruct (qwf_member _ _ _ (proj1 (si_ready _ _ Hinv)) p cur Hp Hin) as (t' & ? & ? & _).
    congruence. }
  unfold appq in Hinv2. rewrite bool_decide_false, Hq in Hinv2 by done.
  set (q1 := upd q p ((x :: l) ++ [cur])) in *.
  assert (Hq1 : q1 p = x :: (l ++ [cur])) by (unfold q1; by rewrite upd_eq).
  eapply wp_mono; [exact (wp_schedule_raw s2 q1 Hinv2)|].
  rewrite Ha2, Hc2, (spec_choose_next (tprio s2) _ _ q1 cur p x (l ++ [cur]) Hp2 Hp Hq1).
  2: { rewrite Hq1, elem_of_cons, elem_of_app, list_elem_of_singleton. tauto. }
  2: { intros p' Hp' Hlt. unfold q1. rewrite upd_ne_eq by lia. by apply Htop. }
  intros [] s' (Hf & Hinv' & Hc & _). cbn in Hinv', Hc. split_and!; [exact Hc| |].
  - unfold tslice in *. rewrite <- Hsl. pose proof (sched_frame_tcbs s2 s' cur Hf) as Hft.
    destruct (ksTCBs s' !! cur) as [t'|], (ksTCBs s2 !! cur) as [t2|]; try done.
    apply (inj Some) in Hft. cbn. f_equal.
    change (tcbTimeSlice (tcb_erase t') = tcbTimeSlice (tcb_erase t2)). by rewrite Hft.
  - eexists. split; [exact Hinv'|]. unfold deq.
    rewrite bool_decide_true by (rewrite Hq1; apply list_elem_of_here). rewrite upd_eq. split.
    + destruct (qwf_dlist _ _ _ (proj1 (si_ready _ _ Hinv2)) p Hp) as [Hnd _ _]. rewrite Hq1 in Hnd |- *.
      apply (del_split x [] (l ++ [cur])); [apply not_elem_of_nil|]. by apply NoDup_cons in Hnd as [? _].
    + intros p' Hp' Hne. rewrite upd_ne_eq by done. unfold q1. by rewrite upd_ne_eq.
Qed.

Lemma timer_round_robin_witness :
  sched_inv s_rr q_ready /\ wp (timerTick ;;; schedule) (fun _ s' => ksCurThread s' = tcb_A) s_rr.
Proof.
  split; [exact s_rr_inv|].
  refine (wp_mono _ _ _ _ (timer_round_robin s_rr q_ready
    (set_tcbTimeSlice (fun _ => 1) (mk_thread ThreadState_Running 100)) tcb_A []
    s_rr_inv eq_refl eq_refl eq_refl eq_refl _ eq_refl _) _).
  - vm_compute. discriminate.
  - intros p _ Hlt. unfold q_ready. apply upd_ne_eq. cbn in Hlt. lia.
  - intros [] s' (H & _). exact H.
Defined.
