(* ===== verification/CSpaceThm.v ===== *)
(** * Theorems on capability lookup

    [resolveAddressBits] decides the guarded-page-table relation [resolves],
    and the CNode-operation lookup built on it classifies its errors. *)
From stdpp Require Import base list gmap.
From S2P Require Import Prelude Dll Structures CapOps CSpace VSpace Sched DomSched ReadyQueue Schedule Concrete.
#[local] Open Scope Z_scope.

(** Only the lookup fault differs. *)
Definition fault_only (s s' : kstate) : Prop := exists f, s' = set_current_lookup_fault (fun _ => f) s.

Lemma wp_resolveAddressBits s c capptr n :
  is_word capptr -> cspace_wf (ksCTEs s) -> cnode_cap_ok (ksCTEs s) c -> 0 <= n <= wordBits ->
  wp (resolveAddressBits c capptr n) (resolve_post n capptr s c n) s.
Proof.
  intros Hw Hwf Hok Hn. unfold resolveAddressBits.
  destruct (cap_is_cnode c) eqn:Hc; cbn [negb].
  - apply resolve_loop_spec; [done..|lia].
  - unfold set_lookup_fault. repeat wp_struct. right. split_and!; [done..|by eexists|].
    intros slot rem H. by inversion H; subst.
Qed.

(** The relation is a function of the address and the depth. *)
Lemma resolves_functional s c cp n slot rem slot' rem' :
  is_word cp -> cspace_wf (ksCTEs s) -> cnode_cap_ok (ksCTEs s) c -> 0 <= n <= wordBits ->
  resolves (ksCTEs s) c (cp mod 2 ^ n) n slot rem ->
  resolves (ksCTEs s) c (cp mod 2 ^ n) n slot' rem' -> slot' = slot /\ rem' = rem.
Proof.
  intros Hw Hwf. revert c n slot rem slot' rem'.
  enough (forall k c n slot rem slot' rem', n < Z.of_nat k ->
    cnode_cap_ok (ksCTEs s) c -> 0 <= n <= wordBits ->
    resolves (ksCTEs s) c (cp mod 2 ^ n) n slot rem ->
    resolves (ksCTEs s) c (cp mod 2 ^ n) n slot' rem' -> slot' = slot /\ rem' = rem) as H.
  { intros c n slot rem slot' rem' Hok Hn. apply (H (S (Z.to_nat n))); [lia|done..]. }
  induction k as [|k IH]; intros c n slot rem slot' rem' Hk Hok Hn H1 H2; [lia|].
  destruct c as [| | | | |radix gb guard ptr| | | | | | | | | | | ]; try (by inversion H1).
  destruct Hok as (Hr & Hg & Hl & Hguard & _).
  apply resolves_inv in H1 as (_ & _ & H1); [|lia|lia|done].
  apply resolves_inv in H2 as (_ & _ & H2); [|lia|lia|done]. cbn zeta in *.
  destruct H1 as [(?&->&->)|(Hp & c1 & Hc1 & H1)], H2 as [(?&->&->)|(? & c2 & Hc2 & H2)]; try lia.
  assert (c2 = c1) as -> by congruence.
  destruct (cap_is_cnode (cte_cap c1)); [|destruct H1 as [-> ->], H2 as [-> ->]; by split_and!].
  eapply (IH (cte_cap c1)); [| | |exact H1|exact H2]; [lia|by eapply Hwf|lia].
Qed.

(** C22: [resolveAddressBits] terminates, trips no assertion and decides the
    resolution relation: it returns a slot exactly when the address resolves,
    and then the slot and the bits left are those of the relation and nothing
    is written; otherwise it reports a lookup fault with the depth requested
    and changes only [current_lookup_fault]. *)
Theorem resolveAddressBits_refines s c capptr n :
  is_word capptr -> cspace_wf (ksCTEs s) -> cnode_cap_ok (ksCTEs s) c -> 0 <= n <= wordBits ->
  wp (resolveAddressBits c capptr n) (fun r s' =>
    (ra_status r = EXCEPTION_NONE /\ s' = s /\
       forall slot rem, resolves (ksCTEs s) c (capptr mod 2 ^ n) n slot rem <->
                        slot = ra_slot r /\ rem = ra_bitsRemaining r) \/
    (ra_status r = EXCEPTION_LOOKUP_FAULT /\ ra_slot r = 0 /\ ra_bitsRemaining r = n /\
       fault_only s s' /\
       forall slot rem, ~ resolves (ksCTEs s) c (capptr mod 2 ^ n) n slot rem)) s.
Proof.
  intros Hw Hwf Hok Hn. eapply wp_mono; [by apply wp_resolveAddressBits|].
  intros r s' [(?&?&Hres)|(?&?&?&?&?)]; [left|right; done]. split_and!; [done..|].
  intros slot rem. split; [|by intros [-> ->]].
  intros H'. by eapply (resolves_functional s c capptr n).
Qed.

(** ** A concrete CSpace

    A CNode of four slots at 65536 whose slot 2 holds a capability to the
    CNode itself, under a two-bit guard 01. *)
Definition cs_node : Z := 65536.
Definition cs_cap : cap := cap_cnode_cap 2 2 1 cs_node.
Definition cs_ctes : gmap Z cte :=
  <[cte_offset cs_node 0 := null_cte]> (<[cte_offset cs_node 1 := null_cte]>
    (<[cte_offset cs_node 2 := mk_cte cs_cap nullMDBNode]>
      (<[cte_offset cs_node 3 := mk_cte (cap_endpoint_cap 0 true true true true 1024) nullMDBNode]> ∅))).
Definition s_cs : kstate := state_with cs_ctes boot_tcbs ∅ ∅ idle_ptr SchedulerAction_ResumeCurrentThread.

Lemma cs_cap_ok : cnode_cap_ok cs_ctes cs_cap.
Proof.
  cbn. unfold wordBits. split_and!; [lia..|]. intros i Hi.
  assert (i = 0 \/ i = 1 \/ i = 2 \/ i = 3) as [->|[->|[->| ->]]] by lia; vm_compute; eauto.
Qed.

Lemma cs_wf : cspace_wf cs_ctes.
Proof.
  assert (H : map_Forall (fun _ c => cte_cap c = cs_cap \/ cap_is_cnode (cte_cap c) = false) cs_ctes).
  { apply (bool_decide_unpack _). vm_compute. exact I. }
  intros p c Hp. destruct (H p c Hp) as [->|Hn]; [exact cs_cap_ok|].
  by destruct (cte_cap c).
Qed.

(** Address 01 10 01 11: twice the guard, slot 2, then slot 3. *)
Lemma cs_resolves : resolves cs_ctes cs_cap 103 8 (cte_offset cs_node 3) 0.
Proof.
  change 103 with ((1 * 2 ^ 2 + 2) * 2 ^ 4 + 7). change 8 with (2 + 2 + 4).
  apply (resolves_down _ 2 2 1 cs_node 2 4 7 (mk_cte cs_cap nullMDBNode)); try done; try lia.
  change 7 with (1 * 2 ^ 2 + 3). change 4 with (2 + 2). by apply resolves_full.
Qed.

Lemma resolveAddressBits_refines_witness :
  cspace_wf (ksCTEs s_cs) /\
  wp (resolveAddressBits cs_cap 103 8) (fun r _ =>
    ra_slot r = cte_offset cs_node 3 /\ ra_bitsRemaining r = 0) s_cs.
Proof.
  split; [exact cs_wf|]. eapply wp_mono.
  { apply (resolveAddressBits_refines s_cs cs_cap 103 8); [done|exact cs_wf|exact cs_cap_ok|done]. }
  cbv beta. change (ksCTEs s_cs) with cs_ctes. change (103 mod 2 ^ 8) with 103.
  intros r s' [(_ & _ & H)|(_ & _ & _ & _ & H)].
  - destruct (proj1 (H _ _) cs_resolves) as [-> ->]. split; reflexivity.
  - destruct (H _ _ cs_resolves).
Defined.

(** ** The lookup of the CNode operations *)
Lemma wp_lookupSlotForCNodeOp s isSource root capptr depth :
  is_word capptr -> cspace_wf (ksCTEs s) -> cnode_cap_ok (ksCTEs s) root ->
  wp (lookupSlotForCNodeOp isSource root capptr depth) (fun r s' =>
    (r.1 = EXCEPTION_NONE /\ s' = s /\ cap_is_cnode root = true /\ 1 <= depth <= wordBits /\
       resolves (ksCTEs s) root (capptr mod 2 ^ depth) depth r.2 0) \/
    (r = (EXCEPTION_SYSCALL_ERROR, 0) /\
       set_current_syscall_error (fun _ => current_syscall_error s) (set_current_lookup_fault (fun _ => current_lookup_fault s) s') = s /\
       (if cap_is_cnode root && negb ((1 <=? depth) && (depth <=? wordBits))
        then se_type (current_syscall_error s') = seL4_RangeError /\
             se_rangeErrorMin (current_syscall_error s') = 1 /\ se_rangeErrorMax (current_syscall_error s') = wordBits
        else se_type (current_syscall_error s') = seL4_FailedLookup /\
             se_failedLookupWasSource (current_syscall_error s') = isSource /\
             forall slot, ~ resolves (ksCTEs s) root (capptr mod 2 ^ depth) depth slot 0))) s.
Proof.
  intros Hw Hwf Hok. unfold lookupSlotForCNodeOp, syscall_failedLookup, set_syscall_error, set_lookup_fault, syscall_rangeError.
  destruct (cap_is_cnode root) eqn:Hc; cbn [negb andb].
  2: { repeat wp_struct. right. split_and!; [done|by destruct s|done|done|].
       intros slot H. by inversion H; subst. }
  destruct (Z.ltb_spec depth 1), (Z.ltb_spec wordBits depth); cbn [orb];
    try (repeat wp_struct; right; split_and!; [done|by destruct s|];
      destruct (Z.leb_spec 1 depth), (Z.leb_spec depth wordBits); cbn; try lia; done).
  wp_struct. eapply wp_mono; [apply wp_resolveAddressBits; [done..|lia]|].
  destruct (Z.leb_spec 1 depth), (Z.leb_spec depth wordBits); cbn [andb negb]; try lia.
  intros r s' [(->&->&Hres)|(->&_&_&(f & ->)&Hno)]; cbn [is_none].
  - destruct (Z.eqb_spec (ra_bitsRemaining r) 0) as [Hb|Hb]; cbn; repeat wp_struct.
    + left. rewrite Hb in Hres. by split_and!.
    + right. split_and!; [done|by destruct s|done|done|].
      intros slot H'. destruct (resolves_functional s root capptr depth _ _ _ _ Hw Hwf Hok ltac:(lia) Hres H'). congruence.
  - cbn. repeat wp_struct. right. split_and!; [done|by destruct s|done|done|]. intros slot. apply Hno.
Qed.

(** C29: Looking up the slot a CNode operation names succeeds exactly when
    the root is a CNode, the depth is between 1 and the word size and the
    address resolves with no bits left; a depth out of range is a range error
    with those bounds, every other failure is a failed lookup that says
    whether the source was being looked up, and only the error and fault
    registers change. *)
Theorem lookupSlotForCNodeOp_spec s isSource root capptr depth :
  is_word capptr -> cspace_wf (ksCTEs s) -> cnode_cap_ok (ksCTEs s) root ->
  wp (lookupSlotForCNodeOp isSource root capptr depth) (fun r s' =>
    (r.1 = EXCEPTION_NONE /\ s' = s /\ cap_is_cnode root = true /\ 1 <= depth <= wordBits /\
       resolves (ksCTEs s) root (capptr mod 2 ^ depth) depth r.2 0) \/
    (r = (EXCEPTION_SYSCALL_ERROR, 0) /\
       set_current_syscall_error (fun _ => current_syscall_error s)
         (set_current_lookup_fault (fun _ => current_lookup_fault s) s') = s /\
       (if cap_is_cnode root && negb ((1 <=? depth) && (depth <=? wordBits))
        then se_type (current_syscall_error s') = seL4_RangeError /\
             se_rangeErrorMin (current_syscall_error s') = 1 /\
             se_rangeErrorMax (current_syscall_error s') = wordBits
        else se_type (current_syscall_error s') = seL4_FailedLookup /\
             se_failedLookupWasSource (current_syscall_error s') = isSource /\
             forall slot, ~ resolves (ksCTEs s) root (capptr mod 2 ^ depth) depth slot 0))) s.
Proof. exact (wp_lookupSlotForCNodeOp s isSource root capptr depth). Qed.

Lemma lookupSlotForCNodeOp_spec_witness :
  cspace_wf (ksCTEs s_cs) /\
  wp (lookupSlotForCNodeOp true cs_cap 103 8) (fun r _ => r.1 = EXCEPTION_NONE) s_cs.
Proof.
  split; [exact cs_wf|]. eapply wp_mono.
  { apply (lookupSlotForCNodeOp_spec s_cs true cs_cap 103 8); [done|exact cs_wf|exact cs_cap_ok]. }
  cbv beta. change (ksCTEs s_cs) with cs_ctes. change (103 mod 2 ^ 8) with 103.
  intros r s' [(H & _)|(_ & _ & _ & _ & H)]; [exact H|]. destruct (H _ cs_resolves).
Defined.
