(* ===== verification/MdbThm.v ===== *)
(** * Theorems on the mapping database

    The slot operations of src/object/cnode.c as operations on the derivation
    lists: [ins], [del] and [swp] of [MdbInv]. *)
From stdpp Require Import base list sets gmap.
From S2P Require Import Prelude Dll Structures CapOps CSpace VSpace Sched DomSched ReadyQueue Schedule Mdb MdbInv Concrete.
#[local] Open Scope Z_scope.

(** The data of a slot, without its links: capability, revocable and
    first-badged flags.  [kept s s' P] says that [s'] differs from [s] only in
    capability slots, and that the data of the slots outside [P] is kept. *)
Definition slot_data (s : kstate) (x : Z) : option (cap * bool * bool) := cte_data <$> ksCTEs s !! x.
Definition kept (s s' : kstate) (P : Z -> Prop) : Prop :=
  s' = set_ksCTEs (fun _ => ksCTEs s') s /\ forall x, ~ P x -> slot_data s' x = slot_data s x.

Lemma kept_intro s m' (P : Z -> Prop) :
  (forall x, ~ P x -> cte_data <$> m' !! x = cte_data <$> ksCTEs s !! x) ->
  kept s (set_ksCTEs (fun _ => m') s) P.
Proof. by split. Qed.

(** ** A concrete database: slots 0 and 1 hold an endpoint capability and a
    copy of it, slot 2 is free *)
Definition slot_at (i : Z) : Z := cte_offset 65536 i.
Definition ep_cap : cap := cap_endpoint_cap 0 true true true true 1024.
Definition db_ctes : gmap Z cte :=
  <[slot_at 0 := mk_cte ep_cap (mdb_node_new (slot_at 1) true true 0)]>
    (<[slot_at 1 := mk_cte ep_cap (mdb_node_new 0 false false (slot_at 0))]>
      (<[slot_at 2 := null_cte]> ∅)).
Definition db_lists : list (list Z) := [[slot_at 0; slot_at 1]].
Definition s_db : kstate := state_with db_ctes boot_tcbs ∅ ∅ idle_ptr SchedulerAction_ResumeCurrentThread.

Lemma db_wf : mdb_wf db_ctes db_lists.
Proof.
  split.
  - reflexivity.
  - apply (bool_decide_unpack _). vm_compute. exact I.
  - intros l Hl. apply list_elem_of_singleton in Hl as ->. split.
    + apply (bool_decide_unpack _). vm_compute. exact I.
    + apply (bool_decide_unpack _). vm_compute. exact I.
    + vm_compute. repeat split.
  - intros x Hx. cbn in Hx. rewrite !elem_of_cons, elem_of_nil in Hx.
    destruct Hx as [->|[->|[]]]; (eexists; split; [reflexivity|discriminate]).
  - assert (H : map_Forall (fun x c => x ∈ concat db_lists \/ c = null_cte) db_ctes).
    { apply (bool_decide_unpack _). vm_compute. exact I. }
    intros x c Hx Hn. destruct (H x c Hx) as [?| ->]; done.
Qed.

(** C30: [cteInsert] derives a capability: the destination enters the derivation
    list right after its source with the new capability, both its flags are
    the revocability of the derivation, an untyped source is marked full
    exactly when the new capability covers it, every other slot keeps its
    data, and the database stays well formed. *)
Theorem cteInsert_spec s cs src dest newCap ca cb rev :
  mdb_wf (ksCTEs s) cs ->
  ksCTEs s !! src = Some ca -> ksCTEs s !! dest = Some cb ->
  cte_cap ca <> cap_null_cap -> cte_cap cb = cap_null_cap ->
  newCap <> cap_null_cap -> isCapRevocable newCap (cte_cap ca) = Some rev ->
  wp (cteInsert newCap src dest) (fun _ s' =>
    mdb_wf (ksCTEs s') (ins src dest <$> cs) /\ kept s s' (fun x => x = src \/ x = dest) /\
    slot_data s' src = Some (full_cap (cte_cap ca) newCap (cte_cap ca),
                             mdbRevocable (cteMDBNode ca), mdbFirstBadged (cteMDBNode ca)) /\
    slot_data s' dest = Some (newCap, rev, rev)) s.
Proof.
  intros Hwf Ha Hb Hsrc Hdest Hnew Hrev. eapply wp_cteInsert_wf; [done..|].
  intros m' Hwf' Ho Hs Hd. split_and!; [done|apply kept_intro; intros; apply Ho; tauto|exact Hs|exact Hd].
Qed.

Lemma cteInsert_spec_witness :
  mdb_wf (ksCTEs s_db) db_lists /\
  wp (cteInsert ep_cap (slot_at 0) (slot_at 2)) (fun _ s' =>
    mdb_wf (ksCTEs s') [[slot_at 0; slot_at 2; slot_at 1]]) s_db.
Proof.
  split; [exact db_wf|].
  eapply wp_mono.
  { apply (cteInsert_spec s_db db_lists (slot_at 0) (slot_at 2) ep_cap
      (mk_cte ep_cap (mdb_node_new (slot_at 1) true true 0)) null_cte false db_wf);
      (reflexivity || discriminate). }
  intros [] s' (H & _). exact H.
Defined.

(** C31: [cteMove] moves a capability with its place in the derivation list:
    the destination takes the source's position and flags, the source becomes
    an empty unlinked slot, and every other slot keeps its data. *)
Theorem cteMove_spec s cs src dest newCap ca cb :
  mdb_wf (ksCTEs s) cs ->
  ksCTEs s !! src = Some ca -> ksCTEs s !! dest = Some cb ->
  cte_cap ca <> cap_null_cap -> cte_cap cb = cap_null_cap -> newCap <> cap_null_cap ->
  wp (cteMove newCap src dest) (fun _ s' =>
    mdb_wf (ksCTEs s') (swp src dest <$> cs) /\ kept s s' (fun x => x = src \/ x = dest) /\
    ksCTEs s' !! src = Some null_cte /\
    slot_data s' dest = Some (newCap, mdbRevocable (cteMDBNode ca), mdbFirstBadged (cteMDBNode ca))) s.
Proof.
  intros Hwf Ha Hb Hsrc Hdest Hnew. eapply wp_cteMove_wf; [done..|].
  intros m' Hwf' Ho Hs Hd. split_and!; [done|apply kept_intro; intros; apply Ho; tauto|exact Hs|exact Hd].
Qed.

Lemma cteMove_spec_witness :
  mdb_wf (ksCTEs s_db) db_lists /\
  wp (cteMove ep_cap (slot_at 0) (slot_at 2)) (fun _ s' =>
    mdb_wf (ksCTEs s') [[slot_at 2; slot_at 1]] /\ ksCTEs s' !! slot_at 0 = Some null_cte) s_db.
Proof.
  split; [exact db_wf|].
  eapply wp_mono.
  { apply (cteMove_spec s_db db_lists (slot_at 0) (slot_at 2) ep_cap
      (mk_cte ep_cap (mdb_node_new (slot_at 1) true true 0)) null_cte db_wf);
      (reflexivity || discriminate). }
  intros [] s' (H & _ & H0 & _). split; [exact H|exact H0].
Defined.

(** C32: [cteSwap] exchanges two slots, adjacent in the derivation list or not:
    their positions, and with them the flags, change places, the given
    capabilities are installed crosswise, and the database stays well formed. *)
Theorem cteSwap_spec s cs a b cap1 cap2 ca cb :
  mdb_wf (ksCTEs s) cs ->
  ksCTEs s !! a = Some ca -> ksCTEs s !! b = Some cb -> a <> b ->
  (cap1 = cap_null_cap <-> cte_cap ca = cap_null_cap) ->
  (cap2 = cap_null_cap <-> cte_cap cb = cap_null_cap) ->
  wp (cteSwap cap1 a cap2 b) (fun _ s' =>
    mdb_wf (ksCTEs s') (swp a b <$> cs) /\ kept s s' (fun x => x = a \/ x = b) /\
    slot_data s' a = Some (cap2, mdbRevocable (cteMDBNode cb), mdbFirstBadged (cteMDBNode cb)) /\
    slot_data s' b = Some (cap1, mdbRevocable (cteMDBNode ca), mdbFirstBadged (cteMDBNode ca))) s.
Proof.
  intros Hwf Ha Hb Hab H1 H2. eapply wp_cteSwap_wf; [done..|].
  intros m' Hwf' Ho Hs Hd. split_and!; [done|apply kept_intro; intros; apply Ho; tauto|exact Hs|exact Hd].
Qed.

Lemma cteSwap_spec_witness :
  mdb_wf (ksCTEs s_db) db_lists /\
  wp (cteSwap ep_cap (slot_at 0) ep_cap (slot_at 1)) (fun _ s' =>
    mdb_wf (ksCTEs s') [[slot_at 1; slot_at 0]]) s_db.
Proof.
  split; [exact db_wf|].
  eapply wp_mono.
  { apply (cteSwap_spec s_db db_lists (slot_at 0) (slot_at 1) ep_cap ep_cap
      (mk_cte ep_cap (mdb_node_new (slot_at 1) true true 0))
      (mk_cte ep_cap (mdb_node_new 0 false false (slot_at 0))) db_wf);
      (reflexivity || discriminate || (split; discriminate)). }
  intros [] s' (H & _). exact H.
Defined.

(** The interrupt released by the deletion of its last handler. *)
Definition released (info : cap) (s : kstate) : kstate :=
  match info with
  | cap_irq_handler_cap irq =>
      set_ksMachine (cons (op_maskInterrupt true irq)) (set_intStateIRQTable (insert irq IRQInactive) s)
  | _ => s
  end.

Lemma wp_postCapDeletion info s Q : Q tt (released info s) -> wp (postCapDeletion info) Q s.
Proof. by destruct info. Qed.

(** C33: [emptySlot] unlinks a slot: the slot is empty and out of its list,
    the next slot inherits a set first-badged flag, every other slot keeps its
    data, and an interrupt handed over for cleanup is masked and inactive. *)
Theorem emptySlot_spec s cs slot info ca :
  mdb_wf (ksCTEs s) cs -> ksCTEs s !! slot = Some ca -> cte_cap ca <> cap_null_cap ->
  let next := mdbNext (cteMDBNode ca) in
  wp (emptySlot slot info) (fun _ s' =>
    mdb_wf (ksCTEs s') (del slot <$> cs) /\ ksCTEs s' !! slot = Some null_cte /\
    (forall x, x <> slot -> slot_data s' x =
      if decide (x = next) then
        (fun d => (d.1.1, d.1.2, d.2 || mdbFirstBadged (cteMDBNode ca))) <$> slot_data s x
      else slot_data s x) /\
    s' = released info (set_ksCTEs (fun _ => ksCTEs s') s)) s.
Proof.
  intros Hwf Ha Hsrc. cbn zeta. eapply wp_emptySlot_wf; [done..|].
  intros m' Hwf' Hs Ho Hn. apply wp_postCapDeletion.
  assert (Hc : forall s0, ksCTEs (released info s0) = ksCTEs s0) by (by destruct info).
  split_and!; rewrite ?Hc; [done|done| |by destruct info].
  intros x Hx. unfold slot_data. rewrite Hc. st_simpl. case_decide as Hxn; [|by apply Ho].
  subst x. assert (Hn0 : mdbNext (cteMDBNode ca) <> 0 \/ mdbNext (cteMDBNode ca) = 0) by lia.
  destruct Hn0 as [Hn0|Hn0].
  - destruct (Hn Hn0) as (cn & Hcn & ->). by rewrite Hcn.
  - rewrite Hn0. by rewrite (mw_null _ _ Hwf), (mw_null _ _ Hwf').
Qed.

Lemma emptySlot_spec_witness :
  mdb_wf (ksCTEs s_db) db_lists /\
  wp (emptySlot (slot_at 0) (cap_irq_handler_cap 30)) (fun _ s' =>
    mdb_wf (ksCTEs s') [[slot_at 1]] /\ intStateIRQTable s' !! 30 = Some IRQInactive) s_db.
Proof.
  split; [exact db_wf|].
  eapply wp_mono.
  { apply (emptySlot_spec s_db db_lists (slot_at 0) (cap_irq_handler_cap 30)
      (mk_cte ep_cap (mdb_node_new (slot_at 1) true true 0)) db_wf); (reflexivity || discriminate). }
  intros [] s' (H & _ & _ & Hs). split; [exact H|]. rewrite Hs. reflexivity.
Defined.

(** [insertNewCap] links a freshly created capability right after its
    untyped parent, revocable and first-badged, and leaves the data of every
    other slot alone. *)
Theorem insertNewCap_spec s cs parent slot newCap ca cb :
  mdb_wf (ksCTEs s) cs ->
  ksCTEs s !! parent = Some ca -> ksCTEs s !! slot = Some cb ->
  cte_cap ca <> cap_null_cap -> cte_cap cb = cap_null_cap -> newCap <> cap_null_cap ->
  wp (insertNewCap parent slot newCap) (fun _ s' =>
    mdb_wf (ksCTEs s') (ins parent slot <$> cs) /\ kept s s' (fun x => x = slot) /\
    slot_data s' slot = Some (newCap, true, true)) s.
Proof.
  intros Hwf Ha Hb Hsrc Hdest Hnew. eapply wp_insertNewCap_wf; [done..|].
  intros m' Hwf' Ho Hd. split_and!; [done|by apply kept_intro|exact Hd].
Qed.

Lemma insertNewCap_spec_witness :
  mdb_wf (ksCTEs s_db) db_lists /\
  wp (insertNewCap (slot_at 1) (slot_at 2) (cap_thread_cap tcb_A)) (fun _ s' =>
    mdb_wf (ksCTEs s') [[slot_at 0; slot_at 1; slot_at 2]]) s_db.
Proof.
  split; [exact db_wf|].
  eapply wp_mono.
  { apply (insertNewCap_spec s_db db_lists (slot_at 1) (slot_at 2) (cap_thread_cap tcb_A)
      (mk_cte ep_cap (mdb_node_new 0 false false (slot_at 0))) null_cte db_wf);
      (reflexivity || discriminate). }
  intros [] s' (H & _). exact H.
Defined.

(** ** Deriving and deleting *)
Lemma del_ins a b l : b ∉ l -> del b (ins a b l) = l.
Proof.
  unfold ins. induction l as [|x l IH]; intros Hb; [done|]. apply not_elem_of_cons in Hb as [Hbx Hbl].
  cbn. unfold del in *. rewrite filter_app, IH by done. case_decide as Hx.
  - subst. rewrite filter_cons_True by done. by rewrite filter_cons_False by tauto.
  - by rewrite filter_cons_True by done.
Qed.

Lemma full_cap_other sc nc c : cap_is_untyped nc = false -> full_cap sc nc c = c.
Proof. unfold full_cap. by destruct sc, nc. Qed.

(** The successor of an inserted slot is not the slot it was inserted after. *)
Lemma ins_next_other m m1 cs src dest :
  mdb_wf m cs -> mdb_wf m1 (ins src dest <$> cs) -> src ∈ concat cs ->
  src <> clink mdbNext m1 dest.
Proof.
  intros Hwf Hwf1 Hin. apply elem_of_concat in Hin as (l0 & Hl0 & Hin).
  apply list_elem_of_split in Hin as (la & lb & ->).
  pose proof (mw_chain _ _ Hwf _ Hl0) as Hd.
  destruct (nodup_mid _ _ _ (dlist_nodup _ _ _ Hd)) as [Hla Hlb].
  assert (Hd1 : dlist (clink mdbNext m1) (clink mdbPrev m1) (ins src dest (la ++ src :: lb))).
  { apply (mw_chain _ _ Hwf1). apply list_elem_of_fmap. eauto. }
  rewrite ins_split in Hd1 by done.
  replace (la ++ src :: dest :: lb) with ((la ++ [src]) ++ dest :: lb) in Hd1 by (by rewrite <- app_assoc).
  destruct (dlist_mid _ _ _ _ _ Hd1) as [_ ->]. intros Heq.
  pose proof (dlist_nonnull _ _ _ Hd) as Hnn. destruct lb as [|z lb]; cbn in Heq; set_solver.
Qed.

(** Deleting what was just derived restores the database: after
    [cteInsert] and [emptySlot] on the same destination the derivation lists
    are the original ones, and the destination is empty again. *)
Theorem derive_delete_roundtrip s cs src dest newCap ca cb rev :
  mdb_wf (ksCTEs s) cs ->
  ksCTEs s !! src = Some ca -> ksCTEs s !! dest = Some cb ->
  cte_cap ca <> cap_null_cap -> cte_cap cb = cap_null_cap ->
  newCap <> cap_null_cap -> isCapRevocable newCap (cte_cap ca) = Some rev ->
  wp (cteInsert newCap src dest ;;; emptySlot dest cap_null_cap) (fun _ s' =>
    mdb_wf (ksCTEs s') cs /\ ksCTEs s' !! dest = Some null_cte /\
    (cap_is_untyped newCap = false -> slot_data s' src = slot_data s src)) s.
Proof.
  intros Hwf Ha Hb Hsrc Hdest Hnew Hrev. wp_struct. eapply wp_cteInsert_wf; [done..|].
  intros m1 Hwf1 _ Hs1 Hd1.
  destruct (m1 !! dest) as [cd|] eqn:Hcd; [|done]. cbn in Hd1. injection Hd1 as Hcap Hr1 Hr2.
  assert (Hdn : cte_cap cd <> cap_null_cap) by congruence.
  eapply wp_emptySlot_wf; [exact Hwf1|exact Hcd|exact Hdn|].
  assert (Hdd : dest ∉ concat cs).
  { intros Hin. destruct (mw_cells _ _ Hwf dest Hin) as (c & ? & ?). congruence. }
  assert (Hback : del dest <$> (ins src dest <$> cs) = cs).
  { rewrite <- list_fmap_compose. rewrite <- (list_fmap_id cs) at 2. apply list_fmap_ext.
    intros i l Hl. apply del_ins. intros Hin. apply Hdd, elem_of_concat. exists l.
    split; [by eapply list_elem_of_lookup_2|done]. }
  intros m2 Hwf2 Hs2 Ho2 Hn2. rewrite Hback in Hwf2. apply wp_postCapDeletion. split_and!; [done|done|].
  intros Hu. unfold slot_data. st_simpl.
  assert (Hne : src <> dest) by congruence.
  assert (Hfull : full_cap (cte_cap ca) newCap (cte_cap ca) = cte_cap ca).
  { by apply full_cap_other. }
  assert (Hin : src ∈ concat cs) by exact (mw_cell_nonnull _ _ Hwf _ _ Ha Hsrc).
  rewrite Ho2; [|done|rewrite <- (clink_Some mdbNext _ _ _ Hcd); by eapply ins_next_other].
  st_simpl. rewrite Hs1, Ha, Hfull. done.
Qed.

Lemma derive_delete_roundtrip_witness :
  mdb_wf (ksCTEs s_db) db_lists /\
  wp (cteInsert ep_cap (slot_at 0) (slot_at 2) ;;; emptySlot (slot_at 2) cap_null_cap) (fun _ s' =>
    mdb_wf (ksCTEs s') db_lists) s_db.
Proof.
  split; [exact db_wf|].
  eapply wp_mono.
  { apply (derive_delete_roundtrip s_db db_lists (slot_at 0) (slot_at 2) ep_cap
      (mk_cte ep_cap (mdb_node_new (slot_at 1) true true 0)) null_cte false db_wf);
      (reflexivity || discriminate). }
  intros [] s' (H & _). exact H.
Defined.
