(* ===== verification/CapThm.v ===== *)
(** * Theorems on capabilities

    What src/object/objecttype.c promises of the pure capability functions:
    regions contain what they should, identity of objects is an equivalence,
    finality is read off the neighbours of a slot, and no derivation adds
    authority. *)
From stdpp Require Import base list sets gmap.
From S2P Require Import Prelude Dll Structures CapOps CSpace VSpace Sched DomSched ReadyQueue Schedule Mdb MdbInv Messages Objects Ipc Delete Untyped CNodeInv Concrete.
#[local] Open Scope Z_scope.
Import Regions.

(** ** Regions *)

(** An untyped capability and another capability stand in the region
    relation exactly when the other one covers memory and its bytes lie inside
    the untyped block: the wrap-around comparisons of the code decide
    containment of the address ranges. *)
Theorem sameRegionAs_untyped fi dev bits ptr c :
  region_wf (cap_untyped_cap fi dev bits ptr) -> region_wf c ->
  sameRegionAs (cap_untyped_cap fi dev bits ptr) c = true <->
  cap_get_capIsPhysical c = true /\
  forall a, base c <= a < base c + size c -> ptr <= a < ptr + 2 ^ bits.
Proof.
  intros Hu Hc. rewrite untyped_iff by done. apply and_iff_compat_l.
  destruct Hc as (Hb & _ & _). assert (0 < size c) by (apply Z.pow_pos_nonneg; lia).
  split; [intros; lia|]. intros H'. split.
  - apply (H' (base c)). lia.
  - specialize (H' (base c + size c - 1)). lia.
Qed.

Definition ut_cap : cap := cap_untyped_cap 0 false 16 65536.
Lemma sameRegionAs_untyped_witness :
  region_wf ut_cap /\
  (sameRegionAs ut_cap (cap_endpoint_cap 0 true true true true 66560) = true <->
   cap_get_capIsPhysical (cap_endpoint_cap 0 true true true true 66560) = true /\
   forall a, 66560 <= a < 66560 + 16 -> 65536 <= a < 65536 + 2 ^ 16).
Proof.
  assert (Hu : region_wf ut_cap) by (unfold region_wf; vm_compute; intuition congruence).
  split; [exact Hu|]. refine (sameRegionAs_untyped 0 false 16 65536 _ Hu _).
  unfold region_wf. vm_compute. intuition congruence.
Defined.

(** ** Object identity *)

(** On capabilities that stand for an object of their own,
    [sameObjectAs] is an equivalence; the relation is symmetric and transitive
    on all capabilities, zombies and untyped memory included. *)
Theorem sameObjectAs_equivalence :
  (forall c, is_object c = true -> sameObjectAs c c = true) /\
  (forall a b, sameObjectAs a b = sameObjectAs b a) /\
  (forall a b c, sameObjectAs a b = true -> sameObjectAs b c = true -> sameObjectAs a c = true).
Proof. split_and!; [apply same_object_refl|apply same_object_sym|apply same_object_trans]. Qed.

(** The region relation is transitive: what a capability derived from
    another one covers is covered by every ancestor. *)
Theorem sameRegionAs_trans a b c :
  sameRegionAs a b = true -> sameRegionAs b c = true -> sameRegionAs a c = true.
Proof. apply trans. Qed.

Lemma sameRegionAs_trans_witness :
  sameRegionAs ut_cap (cap_untyped_cap 0 false 12 69632) = true /\
  sameRegionAs ut_cap (cap_frame_cap 0 69632 ARMSmallPage 0 VMReadWrite false) = true.
Proof.
  split; [reflexivity|].
  apply (sameRegionAs_trans ut_cap (cap_untyped_cap 0 false 12 69632)); reflexivity.
Defined.

(** ** Finality *)

(** The capability of a slot. *)
Definition slot_capability (m : gmap Z cte) (x : Z) : cap := default cap_null_cap (cte_cap <$> m !! x).
Definition same_object (m : gmap Z cte) (x y : Z) : bool :=
  sameObjectAs (slot_capability m x) (slot_capability m y).

(** Capabilities to one object are neighbours: they are in one list, with
    nothing else between them. *)
Definition grouped (m : gmap Z cte) (cs : list (list Z)) : Prop :=
  (forall l l' x y, l ∈ cs -> l' ∈ cs -> x ∈ l -> y ∈ l' -> same_object m x y = true -> l = l') /\
  (forall l1 x mid y l2 z, l1 ++ x :: mid ++ y :: l2 ∈ cs -> same_object m x y = true -> z ∈ mid ->
    same_object m x z = true).

Lemma slot_capability_Some m x c : m !! x = Some c -> slot_capability m x = cte_cap c.
Proof. unfold slot_capability. by intros ->. Qed.

Lemma same_object_comm m x y : same_object m x y = same_object m y x.
Proof. apply same_object_sym. Qed.

(** A member of the list of [x] with the same object makes a neighbour of
    [x] have it. *)
Lemma grouped_prev m cs la x lb y :
  grouped m cs -> la ++ x :: lb ∈ cs -> y ∈ la -> same_object m x y = true ->
  same_object m (last_or 0 la) x = true.
Proof.
  intros Hg Hin Hy Hs. rewrite same_object_comm in Hs. apply list_elem_of_split in Hy as (l1 & l2 & ->).
  destruct (snoc_cases l2) as [->|(l2' & z & ->)]; [by rewrite last_or_snoc|].
  rewrite app_comm_cons, app_assoc, last_or_snoc. rewrite same_object_comm.
  rewrite same_object_comm in Hs. refine (same_object_trans _ _ _ Hs _).
  rewrite <- app_assoc in Hin.
  apply (proj2 Hg l1 y (l2' ++ [z]) x lb z); [exact Hin|by rewrite same_object_comm|set_solver].
Qed.

Lemma grouped_next m cs la x lb y :
  grouped m cs -> la ++ x :: lb ∈ cs -> y ∈ lb -> same_object m x y = true ->
  same_object m x (hd_or 0 lb) = true.
Proof.
  intros Hg Hin Hy Hs. destruct lb as [|z lb']; [set_solver|]. cbn.
  apply elem_of_cons in Hy as [->|Hy]; [done|]. apply list_elem_of_split in Hy as (l1 & l2 & ->).
  apply (proj2 Hg la x (z :: l1) y l2 z); [done|done|set_solver].
Qed.

Lemma final_iff m cs x la lb :
  mdb_wf m cs -> grouped m cs -> la ++ x :: lb ∈ cs ->
  (forall y, y ∈ concat cs -> y <> x -> same_object m x y = false) <->
  (forall y, y ∈ la \/ y ∈ lb -> same_object m x y = false).
Proof.
  intros Hwf Hg Hin. pose proof (dlist_nodup _ _ _ (mw_chain _ _ Hwf _ Hin)) as Hnd.
  destruct (nodup_mid _ _ _ Hnd) as [Ha Hb]. split; intros H y Hy.
  - apply H; [|set_solver]. apply elem_of_concat. exists (la ++ x :: lb). set_solver.
  - intros Hne. destruct (same_object m x y) eqn:Hs; [|done]. apply elem_of_concat in Hy as (l & Hl & Hy).
    rewrite <- (proj1 Hg (la ++ x :: lb) l x y) in Hy by (done || set_solver).
    rewrite <- Hs. apply H. set_solver.
Qed.

Section Final.
Context (s : kstate) (cs : list (list Z)) (x : Z) (ca : cte) (la lb : list Z).
Notation m := (ksCTEs s).
Hypothesis Hwf : mdb_wf (ksCTEs s) cs.
Hypothesis Hg : grouped (ksCTEs s) cs.
Hypothesis Hx : ksCTEs s !! x = Some ca.
Hypothesis Hin : la ++ x :: lb ∈ cs.

Lemma final_cell y : y ∈ la ++ x :: lb -> y <> 0 /\ exists c, m !! y = Some c.
Proof.
  intros Hy. split.
  - intros ->. by apply (dlist_nonnull _ _ _ (mw_chain _ _ Hwf _ Hin)).
  - destruct (mw_cells _ _ Hwf y) as (c & ? & _); [|by eauto]. apply elem_of_concat. eauto.
Qed.

Lemma wp_prevIsSameObject :
  wp (if last_or 0 la =? 0 then ret false
      else let* prev := getCTE (last_or 0 la) in ret (sameObjectAs (cte_cap prev) (cte_cap ca)))
    (fun b s' => s' = s /\ (b = true <-> exists y, y ∈ la /\ same_object m x y = true)) s.
Proof.
  destruct (Z.eqb_spec (last_or 0 la) 0) as [He|He].
  - apply wp_ret. split; [done|]. split; [done|]. intros (y & Hy & _).
    destruct (final_cell (last_or 0 la)) as [? _]; [|done].
    apply elem_of_app. left. apply last_or_in. intros ->. set_solver.
  - assert (Hlast : last_or 0 la ∈ la) by (apply last_or_in; intros ->; done).
    destruct (final_cell (last_or 0 la)) as (_ & cp & Hcp); [set_solver|].
    wp_struct. eapply wp_getCTE; [exact Hcp|]. apply wp_ret. split; [done|].
    rewrite <- (slot_capability_Some m _ _ Hcp), <- (slot_capability_Some m _ _ Hx).
    fold (same_object m (last_or 0 la) x). split.
    + intros Hs. exists (last_or 0 la). by rewrite same_object_comm.
    + intros (y & Hy & Hs). by eapply grouped_prev.
Qed.

Lemma wp_nextIsOtherObject :
  wp (if hd_or 0 lb =? 0 then ret true
      else let* next := getCTE (hd_or 0 lb) in ret (negb (sameObjectAs (cte_cap ca) (cte_cap next))))
    (fun b s' => s' = s /\ (b = true <-> forall y, y ∈ lb -> same_object m x y = false)) s.
Proof.
  destruct (Z.eqb_spec (hd_or 0 lb) 0) as [He|He].
  - apply wp_ret. split; [done|]. split; [|done]. intros _ y Hy.
    destruct (final_cell (hd_or 0 lb)) as [? _]; [|done].
    apply elem_of_app. right. right. apply hd_or_in. intros ->. set_solver.
  - assert (Hhd : hd_or 0 lb ∈ lb) by (apply hd_or_in; intros ->; done).
    destruct (final_cell (hd_or 0 lb)) as (_ & cn & Hcn); [set_solver|].
    wp_struct. eapply wp_getCTE; [exact Hcn|]. apply wp_ret. split; [done|].
    rewrite <- (slot_capability_Some m _ _ Hcn), <- (slot_capability_Some m _ _ Hx).
    fold (same_object m x (hd_or 0 lb)). rewrite negb_true_iff. split; [|auto].
    intros Hs y Hy. destruct (same_object m x y) eqn:Hsy; [|done].
    rewrite <- Hs. symmetry. by eapply grouped_next.
Qed.
End Final.

(** [isFinalCapability] looks at the two neighbours of a slot only. *)
Lemma wp_isFinalCapability s cs x ca :
  mdb_wf (ksCTEs s) cs -> grouped (ksCTEs s) cs ->
  ksCTEs s !! x = Some ca -> cte_cap ca <> cap_null_cap ->
  wp (isFinalCapability x) (fun r s' =>
    s' = s /\ (r = true <-> forall y, y ∈ concat cs -> y <> x ->
      sameObjectAs (cte_cap ca) (slot_capability (ksCTEs s) y) = false)) s.
Proof.
  intros Hwf Hg Hx Hc.
  pose proof (mw_cell_nonnull _ cs Hwf x ca Hx Hc) as Hin. apply elem_of_concat in Hin as (l & Hl & Hin).
  apply list_elem_of_split in Hin as (la & lb & ->).
  destruct (dlist_mid _ _ _ _ _ (mw_chain _ _ Hwf _ Hl)) as [Hp Hn].
  rewrite (clink_Some _ _ _ _ Hx) in Hp. rewrite (clink_Some _ _ _ _ Hx) in Hn.
  rewrite <- (slot_capability_Some _ x ca Hx).
  unfold isFinalCapability. wp_struct. eapply wp_getCTE; [exact Hx|]. cbv zeta. rewrite Hp, Hn.
  wp_struct. eapply wp_mono; [exact (wp_prevIsSameObject s cs x ca la lb Hwf Hg Hx Hl)|]. intros b s' [-> Hb]. cbv beta.
  assert (Hfin := final_iff (ksCTEs s) cs x la lb Hwf Hg Hl).
  unfold same_object in Hfin.
  destruct b.
  - apply wp_ret. split; [done|]. rewrite Hfin. split; [done|]. intros H.
    destruct (proj1 Hb eq_refl) as (y & Hy & Hs). unfold same_object in Hs. rewrite H in Hs by (by left). done.
  - eapply wp_mono; [exact (wp_nextIsOtherObject s cs x ca la lb Hwf Hg Hx Hl)|]. intros b s' [-> Hr']. rewrite Hr', Hfin. split; [done|].
    split; [|intros H y Hy; apply H; by right]. intros Hr y [Hy|Hy]; [|by apply Hr].
    destruct (same_object (ksCTEs s) x y) eqn:Hs; [|exact Hs].
    discriminate (proj2 Hb (ex_intro _ y (conj Hy Hs))).
Qed.

(** [isFinalCapability] looks at the two neighbours of a slot only, and
    that is enough: in a database that groups the capabilities to an object,
    it returns true exactly when no other slot of the whole database holds a
    capability to the same object. *)
Theorem isFinalCapability_spec s cs x ca :
  mdb_wf (ksCTEs s) cs -> grouped (ksCTEs s) cs ->
  ksCTEs s !! x = Some ca -> cte_cap ca <> cap_null_cap ->
  wp (isFinalCapability x) (fun r s' =>
    s' = s /\ (r = true <-> forall y, y ∈ concat cs -> y <> x ->
      sameObjectAs (cte_cap ca) (slot_capability (ksCTEs s) y) = false)) s.
Proof. exact (wp_isFinalCapability s cs x ca). Qed.

(** Two copies of an endpoint capability and, in a list of its own, the only
    capability to a notification. *)
Definition fin_ctes : gmap Z cte :=
  <[65536 := mk_cte (cap_endpoint_cap 0 true true true true 1024) (mdb_node_new 65568 true true 0)]>
    (<[65568 := mk_cte (cap_endpoint_cap 7 true true true true 1024) (mdb_node_new 0 false false 65536)]>
      (<[65600 := mk_cte (cap_notification_cap 0 true true 2048) (mdb_node_new 0 true true 0)]> ∅)).
Definition fin_lists : list (list Z) := [[65536; 65568]; [65600]].
Definition s_fin : kstate := state_with fin_ctes boot_tcbs ∅ ∅ idle_ptr SchedulerAction_ResumeCurrentThread.

Lemma fin_wf : mdb_wf fin_ctes fin_lists.
Proof.
  split.
  - reflexivity.
  - apply (bool_decide_unpack _). vm_compute. exact I.
  - intros l Hl. unfold fin_lists in Hl. rewrite !elem_of_cons, elem_of_nil in Hl.
    destruct Hl as [->|[->|[]]]; split; try (apply (bool_decide_unpack _); vm_compute; exact I);
      vm_compute; repeat split.
  - intros x Hx. cbn in Hx. rewrite !elem_of_cons, elem_of_nil in Hx.
    destruct Hx as [->|[->|[->|[]]]]; (eexists; split; [reflexivity|discriminate]).
  - assert (H : map_Forall (fun x _ => x ∈ concat fin_lists) fin_ctes).
    { apply (bool_decide_unpack _). vm_compute. exact I. }
    intros x c Hx Hn. destruct (Hn (H x c Hx)).
Qed.

Lemma fin_grouped : grouped fin_ctes fin_lists.
Proof.
  split.
  - intros l l' x y Hl Hl' Hx Hy Hs. unfold fin_lists in *. rewrite !elem_of_cons, elem_of_nil in *.
    destruct Hl as [->|[->|[]]], Hl' as [->|[->|[]]]; rewrite ?elem_of_cons, ?elem_of_nil in *; try done;
      destruct_or?; subst; done.
  - intros l1 x mid y l2 z Hl Hs Hz. unfold fin_lists in Hl. rewrite !elem_of_cons, elem_of_nil in Hl.
    exfalso. destruct mid as [|w mid]; [set_solver|].
    destruct Hl as [Hl|[Hl|[]]]; apply (f_equal length) in Hl; rewrite !length_app in Hl; cbn in Hl;
      rewrite ?length_app in Hl; cbn in Hl; lia.
Qed.

Lemma isFinalCapability_spec_witness :
  (mdb_wf (ksCTEs s_fin) fin_lists /\ grouped (ksCTEs s_fin) fin_lists) /\
  wp (isFinalCapability 65600) (fun r s' => s' = s_fin) s_fin.
Proof.
  split; [exact (conj fin_wf fin_grouped)|].
  eapply wp_mono.
  { apply (isFinalCapability_spec s_fin fin_lists 65600
      (mk_cte (cap_notification_cap 0 true true 2048) (mdb_node_new 0 true true 0)) fin_wf fin_grouped);
      (reflexivity || discriminate). }
  intros r s' [-> _]. reflexivity.
Defined.


(** ** Rights, badges and guards *)

(** Masking rights never adds any: the masked capability names the same
    object with the same badge and lacks no restriction of the original one,
    masking twice is masking with the intersection, and regions do not
    change. *)
Theorem maskCapRights_spec r1 r2 c x :
  Rights.le (maskCapRights r1 c) c = true /\
  maskCapRights r1 (maskCapRights r2 c) = maskCapRights (Rights.meet r1 r2) c /\
  sameRegionAs (maskCapRights r1 c) x = sameRegionAs c x.
Proof.
  split_and!; [apply Rights.mask_le|apply Rights.mask_mask|apply Rights.mask_same_region].
Qed.

(** [updateCapData] writes a badge once: an endpoint capability that has
    a badge already, or whose data must be preserved, becomes the null
    capability; a guard that does not fit beside the radix does too, and a
    guard that fits leaves a well formed CNode capability; in every case the
    result is null or names what the original names. *)
Theorem updateCapData_spec preserve data c x :
  is_word data ->
  (updateCapData preserve data c = cap_null_cap \/
   sameRegionAs (updateCapData preserve data c) x = sameRegionAs c x) /\
  match c with
  | cap_endpoint_cap b gr g sd rc p =>
      updateCapData preserve data c =
        (if decide (preserve = false /\ b = 0) then cap_endpoint_cap data gr g sd rc p else cap_null_cap)
  | cap_cnode_cap radix _ _ p => 0 < radix < wordBits -> CapData.cnode_wf (updateCapData preserve data c)
  | _ => True
  end.
Proof.
  intros Hd. split; [apply CapData.update_same_region|].
  destruct c; try done; [apply CapData.badge_once|]. intros Hr. by apply CapData.guard_wf.
Qed.

Lemma updateCapData_spec_witness :
  is_word 42 /\
  updateCapData false 42 (cap_endpoint_cap 7 true true true true 1024) = cap_null_cap.
Proof.
  assert (Hw : is_word 42) by (unfold is_word, word_modulus; lia). split; [exact Hw|].
  destruct (updateCapData_spec false 42 (cap_endpoint_cap 7 true true true true 1024) cap_null_cap Hw)
    as [_ H]. rewrite H. reflexivity.
Defined.

(** ** Zombies *)

(** Pointers and counts that the identifier of a zombie can hold. *)
Definition zombie_ok (number type ptr : Z) : Prop :=
  let bits := cap_zombie_cap_get_capZombieBits type + 1 in
  (type = ZombieType_ZombieTCB \/ 0 <= type < wordBits - 1) /\
  is_word ptr /\ ptr mod 2 ^ bits = 0 /\ 0 <= number < 2 ^ bits.

Lemma zombie_bits type :
  (type = ZombieType_ZombieTCB \/ 0 <= type < wordBits - 1) ->
  0 <= cap_zombie_cap_get_capZombieBits type + 1 < wordBits /\
  (if type =? ZombieType_ZombieTCB then MASK (TCB_CNODE_RADIX + 1) else MASK (type + 1)) =
  MASK (cap_zombie_cap_get_capZombieBits type + 1).
Proof.
  unfold cap_zombie_cap_get_capZombieBits, ZombieType_ZombieCNode.
  intros [->|Ht]; [done|]. change ZombieType_ZombieTCB with 64. unfold wordBits, wordRadix in *.
  rewrite (proj2 (Z.eqb_neq type 64)) by lia. rewrite land_MASK by done.
  rewrite Z.mod_small by (change (2 ^ 6) with 64; lia). split; [lia|done].
Qed.

(** An aligned pointer and a small number share a word. *)
Lemma pack_word ptr number bits :
  0 <= bits < wordBits -> is_word ptr -> ptr mod 2 ^ bits = 0 -> 0 <= number < 2 ^ bits ->
  let w := Z.lor (Z.land ptr (wnot (MASK bits))) (Z.land number (MASK bits)) in
  w = ptr + number /\ Z.land w (MASK bits) = number /\ Z.land w (wnot (MASK bits)) = ptr.
Proof.
  intros Hb Hp Hm Hn w. pose proof (pow2_is_word bits Hb) as Hw.
  assert (Hlt : number < word_modulus) by (unfold is_word in Hw; lia).
  assert (E : w = ptr + number).
  { unfold w. rewrite land_wnot_MASK, land_MASK by done. rewrite Hm, Z.mod_small by done.
    rewrite Z.sub_0_r. symmetry. apply Z.add_nocarry_lor. apply Z.bits_inj'. intros i Hi.
    rewrite Z.land_spec, Z.bits_0. destruct (Z.lt_ge_cases i bits).
    - apply Z.mod_divide in Hm; [|lia]. destruct Hm as [k ->].
      by rewrite Z.mul_pow2_bits_low, andb_false_l.
    - destruct (decide (number = 0)) as [->|]; [by rewrite Z.bits_0, andb_false_r|].
      rewrite (Z.bits_above_log2 number), andb_false_r; [done|lia|].
      apply Z.log2_lt_pow2; [lia|]. eapply Z.lt_le_trans; [apply Hn|]. apply Z.pow_le_mono_r; lia. }
  assert (Hmod : (ptr + number) mod 2 ^ bits = number).
  { rewrite Z.add_mod, Hm, Z.add_0_l, Z.mod_mod by lia. by apply Z.mod_small. }
  assert (Hword : is_word w).
  { apply is_word_lor; apply is_word_land; try done; try apply is_word_wnot; try apply wrap_is_word.
    unfold is_word. lia. }
  split_and!; [done|by rewrite land_MASK, E, Hmod by done|].
  rewrite land_wnot_MASK by done. rewrite E, Hmod. lia.
Qed.

(** The identifier of a zombie is a lossless packing: the number of slots
    and the pointer stored by [Zombie_new] are read back exactly, and setting
    the number replaces it and keeps the pointer. *)
Theorem zombie_roundtrip number type ptr n :
  zombie_ok number type ptr -> zombie_ok n type ptr ->
  exists id, Zombie_new number type ptr = cap_zombie_cap id type /\
    cap_zombie_cap_get_capZombieNumber id type = number /\
    cap_zombie_cap_get_capZombiePtr id type = ptr /\
    exists id', cap_zombie_cap_set_capZombieNumber id type n = cap_zombie_cap id' type /\
      cap_zombie_cap_get_capZombieNumber id' type = n /\
      cap_zombie_cap_get_capZombiePtr id' type = ptr.
Proof.
  intros (Ht & Hw & Hm & Hn) (_ & _ & _ & Hn'). destruct (zombie_bits type Ht) as [Hb Hmask].
  unfold Zombie_new, cap_zombie_cap_get_capZombieNumber, cap_zombie_cap_get_capZombiePtr,
    cap_zombie_cap_set_capZombieNumber.
  destruct (pack_word ptr number _ Hb Hw Hm Hn) as (_ & H1 & H2).
  destruct (pack_word ptr n _ Hb Hw Hm Hn') as (_ & H3 & H4).
  eexists. split; [by rewrite Hmask|]. split_and!; [done|done|].
  assert (E : Z.land ptr (wnot (MASK (cap_zombie_cap_get_capZombieBits type + 1))) = ptr).
  { rewrite land_wnot_MASK, Hm by done. lia. }
  cbv zeta. rewrite H2. rewrite E in H3, H4. eexists. split; [reflexivity|done].
Qed.

Lemma zombie_roundtrip_witness :
  zombie_ok 5 ZombieType_ZombieTCB 65536 /\
  exists id, Zombie_new 5 ZombieType_ZombieTCB 65536 = cap_zombie_cap id ZombieType_ZombieTCB /\
    cap_zombie_cap_get_capZombieNumber id ZombieType_ZombieTCB = 5.
Proof.
  assert (H5 : zombie_ok 5 ZombieType_ZombieTCB 65536).
  { split; [by left|]. vm_compute. intuition congruence. }
  split; [exact H5|].
  destruct (zombie_roundtrip 5 ZombieType_ZombieTCB 65536 5 H5 H5) as (id & E & H & _).
  exists id. split; [exact E|exact H].
Defined.

(** ** Derivation *)

(** [authority_le c1 c2]: [c1] is null, or names the object of [c2] with no
    right [c2] lacks, and with its badge unless [c2] has none.  Guards and
    mapping data are not authority. *)
Definition authority_le (c1 c2 : cap) : bool :=
  match c1, c2 with
  | cap_null_cap, _ => true
  | cap_endpoint_cap b1 gr1 g1 s1 r1 p1, cap_endpoint_cap b2 gr2 g2 s2 r2 p2 =>
      (p1 =? p2) && ((b1 =? b2) || (b2 =? 0)) && implb gr1 gr2 && implb g1 g2 && implb s1 s2 && implb r1 r2
  | cap_notification_cap b1 r1 s1 p1, cap_notification_cap b2 r2 s2 p2 =>
      (p1 =? p2) && ((b1 =? b2) || (b2 =? 0)) && implb r1 r2 && implb s1 s2
  | cap_reply_cap g1 m1 p1, cap_reply_cap g2 m2 p2 => implb g1 g2 && Bool.eqb m1 m2 && (p1 =? p2)
  | cap_cnode_cap radix1 _ _ p1, cap_cnode_cap radix2 _ _ p2 => (radix1 =? radix2) && (p1 =? p2)
  | cap_frame_cap _ b1 z1 _ r1 v1, cap_frame_cap _ b2 z2 _ r2 v2 =>
      (b1 =? b2) && bool_decide (z1 = z2) && Rights.vm_le r1 r2 && Bool.eqb v1 v2
  | _, _ => bool_decide (c1 = c2)
  end.

(** What a copying invocation can do to a capability before deriving it. *)
Definition transformed (preserve : bool) (data : option Z) (mask : option seL4_CapRights) (c : cap) : cap :=
  let c := match mask with Some r => maskCapRights r c | None => c end in
  match data with Some d => updateCapData preserve d c | None => c end.

Lemma implb_and_l a b : implb (a && b) a = true.
Proof. by destruct a, b. Qed.
Lemma implb_refl a : implb a a = true.
Proof. by destruct a. Qed.
Lemma mask_vm_le r mask : Rights.vm_le (maskVMRights r mask) r = true.
Proof. destruct mask as [[] [] [] []], r; done. Qed.
Lemma vm_le_refl r : Rights.vm_le r r = true.
Proof. by destruct r. Qed.

Lemma authority_le_refl c : authority_le c c = true.
Proof.
  destruct c; cbn; rewrite ?Z.eqb_refl, ?implb_refl, ?Bool.eqb_reflx, ?vm_le_refl, ?bool_decide_true by done; done.
Qed.

(** Removing the mapping of a frame capability is deriving it. *)
Definition unmap_frame (c : cap) : cap :=
  match c with
  | cap_frame_cap _ base sz addr rights dev => cap_frame_cap asidInvalid base sz addr rights dev
  | _ => c
  end.

Lemma transformed_authority preserve data mask c :
  authority_le (transformed preserve data mask c) c = true /\
  authority_le (unmap_frame (transformed preserve data mask c)) c = true.
Proof.
  destruct c; split; destruct mask as [mask|], data as [d|]; cbn -[wadd MASK wordBits];
    repeat case_match; cbn; bool_hyps;
    rewrite ?Z.eqb_refl, ?bool_decide_true, ?Bool.eqb_reflx, ?implb_and_l, ?implb_refl, ?mask_vm_le,
      ?vm_le_refl, ?orb_true_r by done; try done.
Qed.

Lemma wp_ensureNoChildren s cs slot c (Q : exception_t -> kstate -> Prop) :
  mdb_wf (ksCTEs s) cs -> ksCTEs s !! slot = Some c ->
  (forall e f, (e = EXCEPTION_NONE \/ e = EXCEPTION_SYSCALL_ERROR) ->
     Q e (set_current_syscall_error f s)) ->
  wp (ensureNoChildren slot) Q s.
Proof.
  intros Hwf Hs HQ.
  assert (Hid : Q EXCEPTION_NONE s).
  { replace s with (set_current_syscall_error (fun e => e) s) by (by destruct s). apply HQ. by left. }
  unfold ensureNoChildren. wp_struct. eapply wp_getCTE; [exact Hs|].
  destruct (Z.eqb_spec (mdbNext (cteMDBNode c)) 0) as [|Hn]; cbn [negb]; [by apply wp_ret|].
  destruct (mw_next_some _ _ Hwf slot) as [cn Hcn]; rewrite (clink_Some _ _ _ _ Hs) in *; [done|].
  wp_struct. eapply wp_getCTE; [exact Hcn|]. destruct (isMDBParentOf c cn); [|by apply wp_ret].
  wp_struct. apply wp_modify, wp_ret, HQ. by right.
Qed.

Lemma wp_ensureNoChildren_none s cs slot :
  mdb_wf (ksCTEs s) cs -> is_Some (ksCTEs s !! slot) -> childless (ksCTEs s) slot ->
  wp (ensureNoChildren slot) (fun ex s' => ex = EXCEPTION_NONE /\ s' = s) s.
Proof.
  intros Hwf [c Hs] Hch. unfold ensureNoChildren. wp_struct. eapply wp_getCTE; [exact Hs|].
  destruct (Z.eqb_spec (mdbNext (cteMDBNode c)) 0) as [|Hn]; cbn [negb]; [by wp_struct|].
  destruct (mw_next_some _ _ Hwf slot) as [cn Hcn]; rewrite (clink_Some _ _ _ _ Hs) in *; [done|].
  wp_struct. eapply wp_getCTE; [exact Hcn|]. rewrite (Hch c cn Hs Hcn). by wp_struct.
Qed.

(** [deriveCap] changes no slot and answers null or the capability itself,
    unmapped when it is a frame. *)
Lemma wp_deriveCap s cs slot c c0 (Q : exception_t * cap -> kstate -> Prop) :
  mdb_wf (ksCTEs s) cs -> ksCTEs s !! slot = Some c0 ->
  (forall e f c', (c' = cap_null_cap \/ e = EXCEPTION_NONE /\ c' = unmap_frame c) ->
     Q (e, c') (set_current_syscall_error f s)) ->
  wp (deriveCap slot c) Q s.
Proof.
  intros Hwf Hs HQ.
  assert (Hid : forall e c', (c' = cap_null_cap \/ e = EXCEPTION_NONE /\ c' = unmap_frame c) -> Q (e, c') s).
  { intros e c' H. replace s with (set_current_syscall_error (fun e => e) s) by (by destruct s). by apply HQ. }
  unfold deriveCap. destruct c; cbn [isArchCap Arch_deriveCap];
    repeat case_match; try (apply wp_ret, Hid; tauto).
  all: wp_struct.
  - eapply wp_ensureNoChildren; [done..|]. intros e f He. apply wp_ret. destruct (is_none e); apply HQ; tauto.
  - apply wp_modify, wp_ret, HQ. tauto.
  - apply wp_modify, wp_ret, HQ. tauto.
Qed.

(** C34: Copying, minting, moving and mutating never amplify authority: for
    every argument the user passes, the capability the invocation will install
    is null or names the object of the source with no right the source lacks
    and with its badge unless it had none; no slot changes, and a failed
    derivation hands over the null capability. *)
Theorem decodeCNodeCopy_no_amplification s cs invLabel length srcSlot ca buffer t :
  mdb_wf (ksCTEs s) cs -> ksCTEs s !! srcSlot = Some ca ->
  ksTCBs s !! ksCurThread s = Some t -> buffer <> 0 ->
  invLabel ∈ [CNodeCopy; CNodeMint; CNodeMove; CNodeMutate] ->
  wp (decodeCNodeCopy_switch invLabel length srcSlot (cte_cap ca) buffer) (fun r s' =>
    ksCTEs s' = ksCTEs s /\ authority_le r.1.2 (cte_cap ca) = true /\
    (r.1.1 <> EXCEPTION_NONE -> r.1.2 = cap_null_cap)) s.
Proof.
  intros Hwf Hs Ht Hb Hl.
  assert (Hder : forall preserve data mask (b : bool),
    wp (let* x := deriveCap srcSlot (transformed preserve data mask (cte_cap ca)) in
        let '(status, newCap) := x in ret (status, newCap, b)) (fun r s' =>
      ksCTEs s' = ksCTEs s /\ authority_le r.1.2 (cte_cap ca) = true /\
      (r.1.1 <> EXCEPTION_NONE -> r.1.2 = cap_null_cap)) s).
  { intros. wp_struct. eapply wp_deriveCap; [done..|]. intros e f c' Hc'. apply wp_ret. cbn.
    split; [done|]. destruct Hc' as [->|[-> ->]]; [done|]. split; [apply transformed_authority|done]. }
  assert (Harg : forall i (Q : Z -> kstate -> Prop), 0 <= i -> (forall v, Q v s) -> wp (getSyscallArg i buffer) Q s).
  { intros i Q Hi HQ. by eapply wp_getSyscallArg. }
  rewrite !elem_of_cons, elem_of_nil in Hl. unfold decodeCNodeCopy_switch.
  destruct Hl as [->|[->|[->|[->|[]]]]]; cbn [Z.eqb]; cbn -[deriveCap getSyscallArg].
  - case_match; [by wp_struct; apply wp_modify, wp_ret|]. wp_struct. apply Harg; [done|]. intros w.
    apply (Hder false None (Some (rightsFromWord w))).
  - case_match; [by wp_struct; apply wp_modify, wp_ret|].
    wp_struct. apply Harg; [done|]. intros w. wp_struct. apply Harg; [done|]. intros d.
    apply (Hder false (Some d) (Some (rightsFromWord w))).
  - apply wp_ret. split_and!; [done|apply authority_le_refl|done].
  - case_match; [by wp_struct; apply wp_modify, wp_ret|]. wp_struct. apply Harg; [done|]. intros d.
    apply wp_ret. split_and!; [done|apply (transformed_authority true (Some d) None)|done].
Qed.

Lemma decodeCNodeCopy_no_amplification_witness :
  (mdb_wf (ksCTEs s_fin) fin_lists /\ CNodeMint ∈ [CNodeCopy; CNodeMint; CNodeMove; CNodeMutate]) /\
  wp (decodeCNodeCopy_switch CNodeMint 6 65600 (cap_notification_cap 0 true true 2048) 131072)
    (fun r s' => authority_le r.1.2 (cap_notification_cap 0 true true 2048) = true) s_fin.
Proof.
  assert (Hl : CNodeMint ∈ [CNodeCopy; CNodeMint; CNodeMove; CNodeMutate]) by (right; left).
  split; [exact (conj fin_wf Hl)|]. eapply wp_mono.
  { apply (decodeCNodeCopy_no_amplification s_fin fin_lists CNodeMint 6 65600
      (mk_cte (cap_notification_cap 0 true true 2048) (mdb_node_new 0 true true 0)) 131072
      (mk_thread ThreadState_IdleThreadState 0) fin_wf); [reflexivity|reflexivity|discriminate|exact Hl]. }
  intros r s' (_ & H & _). exact H.
Defined.
