(* ===== verification/MsgThm.v ===== *)
(** * Theorems on messages

    Message-info words as records of bit fields, the transfer of message
    registers between threads, fault messages and the replies to them. *)
From stdpp Require Import base list sets gmap.
From S2P Require Import Prelude Dll Structures CapOps CSpace VSpace Sched DomSched ReadyQueue Schedule Mdb Messages Objects Ipc Concrete.
#[local] Open Scope Z_scope.

Ltac wp_some := eapply wp_from_option; [reflexivity|].

(** ** Bit fields *)
Section BitFields.
Context (sh bits : Z).
Hypothesis Hsh : 0 <= sh.
Hypothesis Hbits : 0 < bits.
Hypothesis Hfit : sh + bits <= 64.

Lemma field_mask_bits i : 0 <= i < 64 ->
  Z.testbit (wshl (MASK bits) sh) i = (sh <=? i) && (i <? sh + bits).
Proof.
  intros Hi. unfold wshl, wrap, word_modulus. rewrite Z.mod_pow2_bits_low, Z.shiftl_spec by lia.
  destruct (decide (bits = 64)) as [->|].
  - change (MASK 64) with (Z.ones 64). rewrite Z.testbit_ones by lia.
    assert (sh = 0) as -> by lia. rewrite Z.sub_0_r. done.
  - rewrite MASK_ones, Z.testbit_ones by (unfold wordBits; lia).
    destruct (Z.leb_spec sh i), (Z.ltb_spec i (sh + bits)), (Z.leb_spec 0 (i - sh)), (Z.ltb_spec (i - sh) bits);
      done || lia.
Qed.

Lemma bf_set_bits w v i : 0 <= i < 64 ->
  Z.testbit (bf_set w sh bits v) i =
  if (sh <=? i) && (i <? sh + bits) then Z.testbit v (i - sh) else Z.testbit w i.
Proof.
  intros Hi. unfold bf_set. rewrite Z.lor_spec, !Z.land_spec.
  rewrite testbit_wnot by (done || apply wrap_is_word). rewrite field_mask_bits by done.
  unfold wshl at 1. unfold wrap, word_modulus. rewrite Z.mod_pow2_bits_low, Z.shiftl_spec by lia.
  destruct ((sh <=? i) && (i <? sh + bits)); cbn; by rewrite ?andb_true_r, ?andb_false_r, ?orb_false_r.
Qed.

Lemma bf_get_bits w i : is_word w -> 0 <= i ->
  Z.testbit (bf_get w sh bits) i = (i <? bits) && Z.testbit w (i + sh).
Proof.
  intros Hw Hi. unfold bf_get. rewrite Z.land_spec, Z.shiftr_spec by done.
  destruct (decide (bits = 64)) as [->|].
  - change (MASK 64) with (Z.ones 64). rewrite Z.testbit_ones by lia.
    destruct (Z.leb_spec 0 i); [|lia]. cbn. apply andb_comm.
  - rewrite MASK_ones, Z.testbit_ones by (unfold wordBits; lia).
    destruct (Z.leb_spec 0 i); [|lia]. cbn. apply andb_comm.
Qed.
End BitFields.

Lemma bf_set_word w sh bits v : is_word w -> is_word (bf_set w sh bits v).
Proof.
  intros. unfold bf_set. apply is_word_lor; [apply is_word_land; [done|apply is_word_wnot, wrap_is_word]|].
  apply is_word_land; apply wrap_is_word.
Qed.

Lemma bf_get_set w sh bits v :
  0 <= sh -> 0 < bits -> sh + bits <= 64 -> is_word w -> 0 <= v < 2 ^ bits ->
  bf_get (bf_set w sh bits v) sh bits = v.
Proof.
  intros Hs Hb Hf Hw Hv. apply Z.bits_inj'. intros i Hi.
  rewrite bf_get_bits by (done || lia || by apply bf_set_word). destruct (Z.ltb_spec i bits) as [Hib|Hib]; cbn.
  - rewrite bf_set_bits by lia. rewrite (proj2 (Z.leb_le _ _)), (proj2 (Z.ltb_lt _ _)) by lia.
    cbn. f_equal. lia.
  - symmetry. destruct (decide (v = 0)) as [->|]; [apply Z.bits_0|]. apply Z.bits_above_log2; [lia|].
    apply Z.log2_lt_pow2; [lia|]. eapply Z.lt_le_trans; [apply Hv|]. apply Z.pow_le_mono_r; lia.
Qed.

Lemma bf_get_set_other w sh bits v sh' bits' :
  0 <= sh -> 0 < bits -> sh + bits <= 64 -> 0 <= sh' -> 0 < bits' -> sh' + bits' <= 64 -> is_word w ->
  sh + bits <= sh' \/ sh' + bits' <= sh ->
  bf_get (bf_set w sh bits v) sh' bits' = bf_get w sh' bits'.
Proof.
  intros Hs Hb Hf Hs' Hb' Hf' Hw Hd. apply Z.bits_inj'. intros i Hi.
  rewrite !bf_get_bits by (done || lia || by apply bf_set_word).
  destruct (Z.ltb_spec i bits') as [Hib|Hib]; cbn; [|done]. rewrite bf_set_bits by lia.
  destruct (Z.leb_spec sh (i + sh')), (Z.ltb_spec (i + sh') (sh + bits)); cbn; done || lia.
Qed.

Ltac mi_solve :=
  unfold seL4_MessageInfo_get_label, seL4_MessageInfo_get_capsUnwrapped,
    seL4_MessageInfo_get_extraCaps, seL4_MessageInfo_get_length, seL4_MessageInfo_set_length,
    seL4_MessageInfo_set_extraCaps, seL4_MessageInfo_set_capsUnwrapped, seL4_MessageInfo_new;
  repeat first
    [ rewrite bf_get_set by first [done | lia | (repeat apply bf_set_word); done]
    | rewrite bf_get_set_other by first [done | lia | (repeat apply bf_set_word); done] ];
  try done.

(** A message-info word keeps its four fields apart: what
    [seL4_MessageInfo_new] packs is read back exactly, and storing a length
    changes the length only. *)
Theorem messageInfo_roundtrip label caps extra len len' :
  0 <= label < 2 ^ 52 -> 0 <= caps < 2 ^ 3 -> 0 <= extra < 2 ^ 2 -> 0 <= len < 2 ^ 7 ->
  0 <= len' < 2 ^ 7 ->
  let mi := seL4_MessageInfo_new label caps extra len in
  let mi' := seL4_MessageInfo_set_length mi len' in
  (seL4_MessageInfo_get_label mi = label /\ seL4_MessageInfo_get_capsUnwrapped mi = caps /\
   seL4_MessageInfo_get_extraCaps mi = extra /\ seL4_MessageInfo_get_length mi = len) /\
  (seL4_MessageInfo_get_label mi' = label /\ seL4_MessageInfo_get_capsUnwrapped mi' = caps /\
   seL4_MessageInfo_get_extraCaps mi' = extra /\ seL4_MessageInfo_get_length mi' = len').
Proof.
  intros. assert (Hw0 : is_word 0) by (unfold is_word, word_modulus; lia).
  split; split_and!; unfold mi', mi; mi_solve.
Qed.

Lemma messageInfo_roundtrip_witness :
  seL4_MessageInfo_get_label (seL4_MessageInfo_new 5 0 2 4) = 5 /\
  seL4_MessageInfo_get_length (seL4_MessageInfo_set_length (seL4_MessageInfo_new 5 0 2 4) 120) = 120.
Proof.
  assert (H : forall n, 0 <= n < 128 -> 0 <= n < 2 ^ 7) by (intros n Hn; exact Hn).
  destruct (messageInfo_roundtrip 5 0 2 4 120) as [(H1 & _) (_ & _ & _ & H2)]; [lia..|].
  exact (conj H1 H2).
Defined.

(** C36: A message-info word that a user thread supplies never announces
    more than [seL4_MsgMaxLength] words; the other fields are taken as given,
    and a word whose length is in range is not changed at all. *)
Theorem messageInfoFromWord_spec w :
  is_word w ->
  let mi := messageInfoFromWord w in
  seL4_MessageInfo_get_length mi = Z.min (seL4_MessageInfo_get_length w) seL4_MsgMaxLength /\
  seL4_MessageInfo_get_label mi = seL4_MessageInfo_get_label w /\
  seL4_MessageInfo_get_extraCaps mi = seL4_MessageInfo_get_extraCaps w /\
  seL4_MessageInfo_get_capsUnwrapped mi = seL4_MessageInfo_get_capsUnwrapped w /\
  (seL4_MessageInfo_get_length w <= seL4_MsgMaxLength -> mi = w).
Proof.
  intros Hw. cbn zeta. unfold messageInfoFromWord, seL4_MsgMaxLength.
  destruct (Z.ltb_spec 120 (seL4_MessageInfo_get_length w)).
  - split_and!; [rewrite Z.min_r by lia|..|lia]; mi_solve.
  - split_and!; [by rewrite Z.min_l by lia|done..].
Qed.

Lemma messageInfoFromWord_spec_witness :
  is_word (seL4_MessageInfo_new 9 0 1 127) /\
  seL4_MessageInfo_get_length (messageInfoFromWord (seL4_MessageInfo_new 9 0 1 127)) = 120.
Proof.
  assert (H : is_word (seL4_MessageInfo_new 9 0 1 127)) by (vm_compute; intuition congruence).
  split; [exact H|]. destruct (messageInfoFromWord_spec _ H) as [E _]. rewrite E. reflexivity.
Defined.

(** ** Transfer of message registers *)

(** Address of message word [i] in the IPC buffer at [buf], and message
    register [i] of thread [t]: in a CPU register or in the buffer. *)
Definition buf_addr (buf i : Z) : Z := wadd buf (wshl (i + 1) 3).
Definition msg_reg (s : kstate) (t buf i : Z) : option Z :=
  if i <? n_msgRegisters then tc ← ksTCBs s !! t; r ← arr msgRegisters i; Some (reg tc r)
  else Some (mem_word (ksMem s) (buf_addr buf i)).

Lemma buf_addr_inj buf i j :
  0 <= i <= 2 ^ 32 -> 0 <= j <= 2 ^ 32 -> buf_addr buf i = buf_addr buf j -> i = j.
Proof.
  intros Hi Hj. unfold buf_addr, wadd, wshl, wrap. rewrite !Z.shiftl_mul_pow2 by lia.
  change (2 ^ 32) with 4294967296 in *. change (2 ^ 3) with 8.
  unfold word_modulus. change (2 ^ 64) with 18446744073709551616.
  rewrite !(Z.mod_small (_ * 8)) by lia. intros H.
  apply (f_equal (fun x => (x - buf) mod 18446744073709551616)) in H.
  rewrite !Zminus_mod_idemp_l in H.
  replace (buf + (i + 1) * 8 - buf) with ((i + 1) * 8) in H by lia.
  replace (buf + (j + 1) * 8 - buf) with ((j + 1) * 8) in H by lia.
  rewrite !Z.mod_small in H by lia. lia.
Qed.

Lemma arr_msgRegisters i : 0 <= i < n_msgRegisters -> arr msgRegisters i = Some (i + 2).
Proof.
  unfold n_msgRegisters. intros H. assert (i = 0 \/ i = 1 \/ i = 2 \/ i = 3) as Hc by lia.
  by destruct Hc as [->|[->|[->| ->]]].
Qed.

Lemma wp_getRegister s t r tc (Q : Z -> kstate -> Prop) :
  ksTCBs s !! t = Some tc -> Q (reg tc r) s -> wp (getRegister t r) Q s.
Proof. intros Ht HQ. unfold getRegister. wp_struct. eapply wp_getTCB; [done|]. by wp_struct. Qed.

Definition with_reg (r v : Z) (t : tcb) : tcb := set_tcbContext (insert r v) t.
Lemma wp_setRegister s t r v tc Q :
  ksTCBs s !! t = Some tc -> Q tt (set_ksTCBs (insert t (with_reg r v tc)) s) ->
  wp (setRegister t r v) Q s.
Proof. intros Ht HQ. unfold setRegister. by eapply wp_modTCB. Qed.

Lemma reg_with_reg r v t r' : reg (with_reg r v t) r' = if decide (r' = r) then v else reg t r'.
Proof.
  unfold reg, with_reg. cbn. rewrite lookup_insert. destruct (decide (r = r')), (decide (r' = r)); naive_solver.
Qed.

(** The effect of copying the message registers [lo, hi): everything but the
    receiver's CPU registers and the receiver's buffer words is kept. *)
Record mrs_copied (s : kstate) (sender sendBuf receiver recvBuf lo hi : Z) (s' : kstate) : Prop := {
  mc_words : forall i, lo <= i < hi -> msg_reg s' receiver recvBuf i = msg_reg s sender sendBuf i;
  mc_low : forall i, 0 <= i < lo -> msg_reg s' receiver recvBuf i = msg_reg s receiver recvBuf i;
  mc_ctx : exists tc tc', ksTCBs s !! receiver = Some tc /\ ksTCBs s' !! receiver = Some tc' /\
    set_tcbContext (fun _ => ∅) tc' = set_tcbContext (fun _ => ∅) tc /\
    forall r, ~ (2 <= r < n_msgRegisters + 2) -> reg tc' r = reg tc r;
  mc_tcbs : forall x, x <> receiver -> ksTCBs s' !! x = ksTCBs s !! x;
  mc_mem : forall a, (forall i, Z.max lo n_msgRegisters <= i < hi -> a <> buf_addr recvBuf i) ->
    ksMem s' !! a = ksMem s !! a;
  mc_rest : set_ksTCBs (fun _ => ∅) (set_ksMem (fun _ => ∅) s') =
    set_ksTCBs (fun _ => ∅) (set_ksMem (fun _ => ∅) s)
}.

Section CopyMRs.
Context (sender sendBuf receiver recvBuf n : Z).
Hypothesis Hne : sender <> receiver.
Hypothesis Hn : 0 <= n <= seL4_MsgMaxLength.
Hypothesis Hdisj : forall i j, n_msgRegisters <= i < n -> n_msgRegisters <= j < n ->
  buf_addr sendBuf i <> buf_addr recvBuf j.
Notation copied := (fun s => mrs_copied s sender sendBuf receiver recvBuf).

Lemma copied_nil s : is_Some (ksTCBs s !! receiver) -> copied s 0 0 s.
Proof.
  intros [tc Ht]. split; try done; [lia|]. exists tc, tc. done.
Qed.

(** One more register. *)
Lemma copied_reg s i s' tc tr :
  0 <= i < n_msgRegisters -> copied s 0 i s' ->
  ksTCBs s' !! sender = Some tc -> ksTCBs s' !! receiver = Some tr ->
  copied s 0 (i + 1) (set_ksTCBs (insert receiver (with_reg (i + 2) (reg tc (i + 2)) tr)) s').
Proof.
  intros Hi [W L (t0 & t1 & Ht0 & Ht1 & He & Hr) T M R] Hs Hrc. split; st_simpl.
  - intros j Hj. unfold msg_reg. rewrite (proj2 (Z.ltb_lt j _)) by lia.
    st_simpl. rewrite lookup_insert_eq. cbn. rewrite arr_msgRegisters by lia. cbn. rewrite reg_with_reg.
    rewrite T in Hs by done. rewrite Hs. cbn.
    case_decide as Hji; [by assert (j = i) as -> by lia|].
    assert (Hlt : 0 <= j < i) by lia. specialize (W j Hlt). unfold msg_reg in W.
    rewrite (proj2 (Z.ltb_lt j _)) in W by lia. rewrite Hrc, Hs, arr_msgRegisters in W by lia. exact W.
  - lia.
  - exists t0, (with_reg (i + 2) (reg tc (i + 2)) tr). rewrite lookup_insert_eq. rewrite Ht1 in Hrc. injection Hrc as <-.
    split_and!; [exact Ht0|reflexivity|exact He|]. intros r Hn2. rewrite reg_with_reg, decide_False by lia. by apply Hr.
  - intros x Hx. rewrite lookup_insert_ne by done. by apply T.
  - intros a Ha. apply M. intros j Hj. apply Ha. lia.
  - exact R.
Qed.

(** One more buffer word. *)
Lemma copied_word s i s' :
  n_msgRegisters <= i < n -> copied s 0 i s' ->
  copied s 0 (i + 1) (set_ksMem (insert (buf_addr recvBuf i)
    (mem_word (ksMem s') (buf_addr sendBuf i))) s').
Proof.
  unfold seL4_MsgMaxLength, n_msgRegisters in *. intros Hi [W L C T M R]. split; st_simpl; try done.
  - intros j Hj. unfold msg_reg, n_msgRegisters in *. st_simpl.
    destruct (decide (j = i)) as [->|Hji].
    + rewrite (proj2 (Z.ltb_ge _ _)) by lia. unfold mem_word. rewrite lookup_insert_eq. cbn.
      f_equal. f_equal. apply M. intros k Hk. apply Hdisj; lia.
    + rewrite <- W by lia. destruct (Z.ltb_spec j 4); [done|]. unfold mem_word.
      rewrite lookup_insert_ne; [done|]. intros E. apply buf_addr_inj in E; lia.
  - lia.
  - unfold n_msgRegisters in *. intros a Ha. rewrite lookup_insert_ne; [apply M; intros j Hj; apply Ha; lia|].
    intros <-. apply (Ha i); lia.
Qed.

Lemma wp_copyMRs s Q :
  is_Some (ksTCBs s !! sender) -> is_Some (ksTCBs s !! receiver) ->
  let cnt := if (recvBuf =? 0) || (sendBuf =? 0) then Z.min n n_msgRegisters else n in
  (forall s', copied s 0 cnt s' -> Q cnt s') ->
  wp (copyMRs sender sendBuf receiver recvBuf n) Q s.
Proof.
  intros [tc Hs] Hr cnt HQ. unfold copyMRs. wp_struct.
  apply wp_for with (I := fun i s' => copied s 0 i s').
  - unfold n_msgRegisters. lia.
  - by apply copied_nil.
  - intros i s' Hi Hc. wp_struct. rewrite arr_msgRegisters by lia. cbn [from_option_M]. wp_struct.
    wp_struct. pose proof (mc_tcbs _ _ _ _ _ _ _ _ Hc sender Hne) as Hs'. rewrite Hs in Hs'.
    destruct (mc_ctx _ _ _ _ _ _ _ _ Hc) as (? & tr & _ & Htr & _).
    eapply wp_getRegister; [exact Hs'|]. eapply wp_setRegister; [exact Htr|].
    apply copied_reg; [lia|done..].
  - intros s' Hc. unfold cnt in HQ. destruct ((recvBuf =? 0) || (sendBuf =? 0)).
    { wp_struct. by apply HQ. }
    wp_struct. apply wp_for with (I := fun i s' => copied s 0 i s'); [lia|done| |].
    + intros i s1 Hi Hc1. wp_struct. unfold loadWord, storeWord. wp_struct. wp_struct.
      apply copied_word; [lia|done].
    + intros s1 Hc1. wp_struct. rewrite Z.max_r by lia. by apply HQ.
Qed.
End CopyMRs.

(** [copyMRs] delivers a message exactly: the announced words that fit
    (all of them when both threads have a buffer, the four register words
    otherwise) are the same at the receiver afterwards, and nothing else
    changes: no other thread, no other register of the receiver, no memory
    outside the receiver's message words. *)
Theorem copyMRs_spec s sender sendBuf receiver recvBuf n :
  is_Some (ksTCBs s !! sender) -> is_Some (ksTCBs s !! receiver) -> sender <> receiver ->
  0 <= n <= seL4_MsgMaxLength ->
  (forall i j, n_msgRegisters <= i < n -> n_msgRegisters <= j < n ->
     buf_addr sendBuf i <> buf_addr recvBuf j) ->
  wp (copyMRs sender sendBuf receiver recvBuf n) (fun cnt s' =>
    cnt = (if (recvBuf =? 0) || (sendBuf =? 0) then Z.min n n_msgRegisters else n) /\
    mrs_copied s sender sendBuf receiver recvBuf 0 cnt s') s.
Proof. intros. apply wp_copyMRs; [done..|]. intros s' Hc. by split. Qed.

Lemma copyMRs_spec_witness :
  (is_Some (ksTCBs (boot_state tcb_A 0) !! tcb_A) /\ tcb_A <> tcb_B) /\
  wp (copyMRs tcb_A 65536 tcb_B 131072 6) (fun cnt _ => cnt = 6) (boot_state tcb_A 0).
Proof.
  assert (Hne : tcb_A <> tcb_B) by discriminate.
  assert (HA : is_Some (ksTCBs (boot_state tcb_A 0) !! tcb_A)) by (eexists; reflexivity).
  assert (HB : is_Some (ksTCBs (boot_state tcb_A 0) !! tcb_B)) by (eexists; reflexivity).
  assert (Hd : forall i j, n_msgRegisters <= i < 6 -> n_msgRegisters <= j < 6 ->
    buf_addr 65536 i <> buf_addr 131072 j).
  { unfold n_msgRegisters. intros i j Hi Hj.
    assert (i = 4 \/ i = 5) as [->| ->] by lia; assert (j = 4 \/ j = 5) as [->| ->] by lia; discriminate. }
  split; [exact (conj HA Hne)|]. eapply wp_mono.
  { apply (copyMRs_spec (boot_state tcb_A 0) tcb_A 65536 tcb_B 131072 6 HA HB Hne);
      [unfold seL4_MsgMaxLength; lia|exact Hd]. }
  intros cnt s' [-> _]. reflexivity.
Defined.

(** ** Fault messages *)
Lemma wp_setMR_reg s t buf i v tc (Q : Z -> kstate -> Prop) :
  0 <= i < n_msgRegisters -> ksTCBs s !! t = Some tc ->
  Q (i + 1) (set_ksTCBs (insert t (with_reg (i + 2) v tc)) s) ->
  wp (setMR t buf i v) Q s.
Proof.
  intros Hi Ht HQ. unfold setMR. rewrite (proj2 (Z.leb_gt _ _)) by lia.
  rewrite arr_msgRegisters by done. wp_struct. cbn [from_option_M]. wp_struct. wp_struct.
  eapply wp_setRegister; [exact Ht|]. by wp_struct.
Qed.

Lemma set_ksTCBs_twice x t1 t2 s :
  set_ksTCBs (insert x t2) (set_ksTCBs (insert x t1) s) = set_ksTCBs (insert x t2) s.
Proof. destruct s. unfold set_ksTCBs. cbn. by rewrite insert_insert_eq. Qed.

Ltac step_reg Ht :=
  first [eapply wp_setMR_reg; [done|st_simpl; apply lookup_insert_eq|rewrite set_ksTCBs_twice]
        |eapply wp_setRegister; [st_simpl; apply lookup_insert_eq|rewrite set_ksTCBs_twice]
        |eapply wp_setMR_reg; [done|exact Ht|]
        |eapply wp_setRegister; [exact Ht|]].

(** The handler of a virtual-memory fault learns all of it from CPU
    registers, whether or not it has an IPC buffer: the four message words are
    the faulting program counter, the address, whether it was an instruction
    fetch and the syndrome; the message info has the fault's label and length
    four, the badge is the handler capability's, and no other thread, nor
    anything else, changes. *)
Theorem doFaultTransfer_VMFault s badge sender receiver buf ts tr address FSR instr :
  ksTCBs s !! sender = Some ts -> ksTCBs s !! receiver = Some tr -> sender <> receiver ->
  tcbFault ts = seL4_Fault_VMFault address FSR instr ->
  wp (doFaultTransfer badge sender receiver buf) (fun _ s' => exists tr',
    s' = set_ksTCBs (insert receiver tr') s /\
    (reg tr' <$> msgRegisters) = [reg ts FaultIP; address; Z.b2z instr; FSR] /\
    reg tr' badgeRegister = badge /\
    seL4_MessageInfo_get_label (reg tr' msgInfoRegister) = 5 /\
    seL4_MessageInfo_get_length (reg tr' msgInfoRegister) = 4 /\
    seL4_MessageInfo_get_extraCaps (reg tr' msgInfoRegister) = 0) s.
Proof.
  intros Hs Hr Hne Hf. unfold doFaultTransfer, setMRs_fault. wp_struct. wp_struct.
  eapply wp_getTCB; [exact Hs|]. rewrite Hf. cbn [Arch_setMRs_fault].
  unfold getRestartPC. wp_struct. eapply wp_getRegister; [exact Hs|].
  wp_struct. step_reg Hr. wp_struct. step_reg Hr. wp_struct. step_reg Hr. step_reg Hr.
  wp_struct. eapply wp_getTCB; [st_simpl; rewrite lookup_insert_ne; [exact Hs|done]|].
  rewrite Hf. wp_struct. step_reg Hr. step_reg Hr.
  eexists. split; [reflexivity|]. cbn [fmap list_fmap msgRegisters]. rewrite !reg_with_reg. cbn. done.
Qed.

(** Thread A waits for a reply to a fault on address 4096. *)
Definition fault_tcbs : gmap Z tcb :=
  <[idle_ptr := mk_thread ThreadState_IdleThreadState 0]>
    (<[tcb_A := set_tcbFault (fun _ => seL4_Fault_VMFault 4096 7 false) (mk_thread ThreadState_BlockedOnReply 100)]>
      (<[tcb_B := mk_thread ThreadState_Running 200]> ∅)).
Definition s_fault : kstate := state_with ∅ fault_tcbs ∅ ∅ tcb_B SchedulerAction_ResumeCurrentThread.

Lemma doFaultTransfer_VMFault_witness :
  tcb_A <> tcb_B /\
  wp (doFaultTransfer 77 tcb_A tcb_B 0) (fun _ s' => exists tr',
    s' = set_ksTCBs (insert tcb_B tr') s_fault /\ (reg tr' <$> msgRegisters) = [0; 4096; 0; 7]) s_fault.
Proof.
  split; [discriminate|]. eapply wp_mono.
  { apply (doFaultTransfer_VMFault s_fault 77 tcb_A tcb_B 0
      (set_tcbFault (fun _ => seL4_Fault_VMFault 4096 7 false) (mk_thread ThreadState_BlockedOnReply 100))
      (mk_thread ThreadState_Running 200) 4096 7 false); (reflexivity || discriminate). }
  intros [] s' (tr' & H1 & H2 & _). exists tr'. exact (conj H1 H2).
Defined.

(** ** Replies to faults cannot leave user mode *)

(** The exception level and stack selection bits of the saved program status
    are those of EL0. *)
Definition user_mode (t : tcb) : Prop := Z.land (reg t SPSR_EL1) 31 = 0.
Lemma sanitised_user r v : r = SPSR_EL1 -> Z.land (sanitiseRegister r v false) 31 = 0.
Proof.
  intros ->. change (sanitiseRegister SPSR_EL1 v false) with (Z.lor (Z.land v 0xf0000000) 64).
  rewrite Z.land_lor_distr_l, <- Z.land_assoc. change (Z.land 0xf0000000 31) with 0.
  by rewrite Z.land_0_r.
Qed.

Lemma fault_messages_some id i :
  0 <= i < (match id with MessageID_Syscall => n_syscallMessage | MessageID_Exception => n_exceptionMessage end) ->
  exists r, arr (fault_messages id) i = Some r.
Proof.
  unfold n_syscallMessage, n_exceptionMessage. intros Hi. unfold arr.
  rewrite (proj2 (Z.ltb_ge i 0)) by lia.
  destruct (nth_error (fault_messages id) (Z.to_nat i)) eqn:E; [eauto|].
  apply nth_error_None in E. destruct id; cbn in E; lia.
Qed.

Lemma wp_lookupIPCBuffer s b t c (Q : Z -> kstate -> Prop) :
  is_Some (ksTCBs s !! t) -> ksCTEs s !! TCB_PTR_CTE_PTR t tcbBuffer = Some c ->
  (forall a, Q a s) -> wp (lookupIPCBuffer b t) Q s.
Proof.
  intros [tc Ht] Hc HQ. unfold lookupIPCBuffer. wp_struct. eapply wp_getTCB; [exact Ht|].
  wp_struct. eapply wp_getCTE; [exact Hc|]. destruct (cte_cap c); repeat case_match; wp_struct; apply HQ.
Qed.

Section FaultReply.
Context (s0 : kstate) (sender receiver : Z) (c : cte) (tr : tcb).
Hypothesis Hs : is_Some (ksTCBs s0 !! sender).
Hypothesis Hr : ksTCBs s0 !! receiver = Some tr.
Hypothesis Hc : ksCTEs s0 !! TCB_PTR_CTE_PTR sender tcbBuffer = Some c.

(** [s0] with other saved registers of the receiver, in user mode if they were. *)
Definition reply_inv (s : kstate) : Prop :=
  exists tr', s = set_ksTCBs (insert receiver tr') s0 /\
    tr' = set_tcbContext (fun _ => tcbContext tr') tr /\ (user_mode tr -> user_mode tr').

Lemma reply_inv_refl : reply_inv s0.
Proof using Hr.
  clear Hs Hc c sender. exists tr. split_and!; [|by destruct tr|done]. unfold set_ksTCBs. rewrite insert_id by done. by destruct s0.
Qed.

Lemma reply_inv_receiver s : reply_inv s -> is_Some (ksTCBs s !! receiver).
Proof. intros (tr' & -> & _). st_simpl. rewrite lookup_insert_eq. eauto. Qed.

Lemma reply_inv_lookup s x : reply_inv s -> is_Some (ksTCBs s0 !! x) -> is_Some (ksTCBs s !! x).
Proof.
  intros (tr' & -> & _) H. st_simpl. destruct (decide (x = receiver)) as [->|];
    [rewrite lookup_insert_eq; eauto|by rewrite lookup_insert_ne].
Qed.

Lemma wp_set_sanitised s r v :
  reply_inv s ->
  wp (setRegister receiver r (sanitiseRegister r v false)) (fun _ => reply_inv) s.
Proof.
  intros (tr' & -> & Htr & Hu). eapply wp_setRegister; [st_simpl; by rewrite lookup_insert_eq|].
  set (v' := sanitiseRegister r v false). exists (with_reg r v' tr'). split_and!.
  - unfold set_ksTCBs. cbn. by rewrite insert_insert_eq.
  - rewrite Htr. by destruct tr.
  - intros H. unfold user_mode. rewrite reg_with_reg. case_decide; [by apply sanitised_user|by apply Hu].
Qed.

Lemma wp_copyMRsFaultReply id length s :
  0 <= length <= (match id with MessageID_Syscall => n_syscallMessage | MessageID_Exception => n_exceptionMessage end) ->
  reply_inv s -> wp (copyMRsFaultReply sender receiver id length) (fun _ => reply_inv) s.
Proof.
  intros Hl Hinv. unfold copyMRsFaultReply, Arch_getSanitiseRegisterInfo. wp_struct.
  apply wp_for with (I := fun _ s => reply_inv s); [unfold n_msgRegisters; lia|done| |].
  - intros i s1 Hi H1. destruct (fault_messages_some id i) as [r ->]; [lia|].
    wp_struct. wp_some. wp_struct. rewrite arr_msgRegisters by lia. wp_some.
    destruct (reply_inv_lookup _ _ H1 Hs) as [tc Ht]. wp_struct. eapply wp_getRegister; [exact Ht|].
    by apply wp_set_sanitised.
  - intros s1 H1. destruct (Z.ltb_spec (Z.min length n_msgRegisters) length); [|by wp_struct].
    wp_struct. eapply wp_lookupIPCBuffer;
      [by apply (reply_inv_lookup _ _ H1)|destruct H1 as (? & -> & _); exact Hc|].
    intros a. destruct (negb (a =? 0)); [|by wp_struct].
    apply wp_for with (I := fun _ s => reply_inv s); [lia|done| |done].
    intros i s2 Hi H2. destruct (fault_messages_some id i) as [r ->]; [unfold n_msgRegisters in *; lia|].
    wp_struct. wp_some. wp_struct. unfold loadWord. wp_struct.
    by apply wp_set_sanitised.
Qed.
End FaultReply.

(** C35: Whatever a fault handler puts into its reply, the faulting thread
    stays in user mode if it was: [handleFaultReply] sanitises the saved
    program status it copies, so an exception level of EL0 is kept.  Nothing
    else changes: only the saved registers of the faulting thread are written,
    every other thread and the rest of the state are as before. *)
Theorem handleFaultReply_user_mode s sender receiver c tr :
  is_Some (ksTCBs s !! sender) -> ksTCBs s !! receiver = Some tr ->
  ksCTEs s !! TCB_PTR_CTE_PTR sender tcbBuffer = Some c ->
  tcbFault tr <> seL4_Fault_NullFault ->
  wp (handleFaultReply receiver sender) (fun _ s' => exists tr',
    s' = set_ksTCBs (insert receiver tr') s /\
    tr' = set_tcbContext (fun _ => tcbContext tr') tr /\ (user_mode tr -> user_mode tr')) s.
Proof.
  intros [ts Hs] Hr Hc Hf. unfold handleFaultReply. wp_struct. eapply wp_getRegister; [exact Hs|].
  wp_struct. eapply wp_getTCB; [exact Hr|].
  pose proof (reply_inv_refl s receiver tr Hr) as Hinv.
  assert (Hlen : 0 <= seL4_MessageInfo_get_length (messageInfoFromWord (reg ts msgInfoRegister))).
  { unfold seL4_MessageInfo_get_length, bf_get. apply Z.land_nonneg. by right. }
  destruct (tcbFault tr) eqn:E; try done; cbn [Arch_handleFaultReply]; try by wp_struct.
  all: wp_struct; eapply wp_mono;
    [eapply (wp_copyMRsFaultReply s); [eauto|exact Hr|exact Hc| |exact Hinv];
     unfold n_syscallMessage, n_exceptionMessage; lia|].
  all: intros [] s' H; by wp_struct.
Qed.

(** Thread A waits for a reply to an exception; thread B handles it with a
    status word that asks for EL1; the idle thread runs at EL1. *)
Definition exn_tcb : tcb :=
  set_tcbFault (fun _ => seL4_Fault_UserException 3 9)
    (with_reg SPSR_EL1 PSTATE_USER (mk_thread ThreadState_BlockedOnReply 100)).
Definition exn_tcbs : gmap Z tcb :=
  <[idle_ptr := with_reg SPSR_EL1 0x45 (mk_thread ThreadState_IdleThreadState 0)]>
    (<[tcb_A := exn_tcb]>
      (<[tcb_B := with_reg msgInfoRegister 3 (with_reg 4 0xffffffff (mk_thread ThreadState_Running 200))]> ∅)).
Definition s_exn : kstate :=
  state_with (<[TCB_PTR_CTE_PTR tcb_B tcbBuffer := null_cte]> ∅) exn_tcbs ∅ ∅ tcb_B
    SchedulerAction_ResumeCurrentThread.

Lemma handleFaultReply_user_mode_witness :
  user_mode exn_tcb /\
  wp (handleFaultReply tcb_A tcb_B) (fun _ s' => exists tr',
    ksTCBs s' !! tcb_A = Some tr' /\ user_mode tr') s_exn.
Proof.
  assert (Hu : user_mode exn_tcb) by reflexivity.
  split; [exact Hu|]. eapply wp_mono.
  { apply (handleFaultReply_user_mode s_exn tcb_B tcb_A null_cte exn_tcb);
      [eexists; reflexivity|reflexivity|reflexivity|discriminate]. }
  intros ? s' (tr' & -> & _ & H). exists tr'. split; [|exact (H Hu)]. st_simpl. apply lookup_insert_eq.
Defined.
