(* ===== verification/IpcThm.v ===== *)
(** * Theorems on endpoints and notifications

    Blocking, waking and cancelling as operations on the abstract wait queues
    of [EpQueue], with the scheduler invariant kept on the way. *)
From stdpp Require Import base list sets gmap.
From S2P Require Import Prelude Dll Structures CapOps CSpace VSpace Sched DomSched ReadyQueue Schedule SchedOps Mdb MdbInv Messages Objects EpQueue Ipc Concrete.
#[local] Open Scope Z_scope.

(** The kernel invariant of this file: ready queues [rq] and wait queues [q]. *)
Definition kinv (s : kstate) (rq : queues) (q : wobj -> list Z) : Prop :=
  sched_inv s rq /\ ipc_wf s q [].

(** What the queue operations do not own of a thread. *)
Notation thread_at s x := (ep_erase <$> ksTCBs s !! x).

Lemma unblocked_out s q X x t o :
  ipc_wf s q X -> ksTCBs s !! x = Some t -> blocked_on t = None -> x ∉ q o.
Proof.
  intros Hwf Ht Hb Hin. destruct (iw_member _ _ _ Hwf o x Hin) as (w & _ & t' & Ht' & _ & Hb'). congruence.
Qed.

Lemma runnable_unblocked t : isRunnable_tcb t = true -> blocked_on t = None.
Proof. unfold isRunnable_tcb, blocked_on. by destruct (tsType_of t). Qed.

Lemma set_ksTCBs_merge x t1 t2 s :
  set_ksTCBs (insert x t2) (set_ksTCBs (insert x t1) s) = set_ksTCBs (insert x t2) s.
Proof. destruct s. unfold set_ksTCBs. cbn. by rewrite insert_insert_eq. Qed.

Ltac mod_thread Hx :=
  wp_struct; first
    [ eapply wp_modTCB; [st_simpl; apply lookup_insert_eq|rewrite set_ksTCBs_merge]
    | eapply wp_modTCB; [exact Hx|] ].

(** ** Blocking *)
Section Block.
Context (s : kstate) (rq : queues) (q : wobj -> list Z) (x : Z) (t t' : tcb) (o : wobj).
Hypothesis Hinv : kinv s rq q.
Hypothesis Hx : ksTCBs s !! x = Some t.
Hypothesis Hrun : isRunnable_tcb t = true.
Hypothesis Hq : tcbQueued (tcbState t) = false.
Hypothesis Ha : ksSchedulerAction s <> x.
Hypothesis Hk : queue_key t' = queue_key t.
Hypothesis Hb : blocked_on t' = Some o.

(** The state in which the blocked thread enters the queue of [o]. *)
Definition about_to_wait (s1 : kstate) : Prop :=
  sched_inv s1 rq /\ ipc_wf s1 q [x] /\ ksTCBs s1 !! x = Some t' /\
  exists a, s1 = set_ksSchedulerAction (fun _ => a) (set_ksTCBs (insert x t') s) /\
    (x = ksCurThread s -> a <> SchedulerAction_ResumeCurrentThread).

Lemma blocked_not_runnable : isRunnable_tcb t' = false.
Proof. unfold isRunnable_tcb, blocked_on in *. by destruct (tsType_of t'). Qed.

Lemma wp_block {A} (k : K A) Q :
  (forall s1, about_to_wait s1 -> wp k Q s1) ->
  wp (scheduleTCB x ;;; k) Q (set_ksTCBs (insert x t') s).
Proof.
  intros HQ. destruct Hinv as [Hsi Hwf]. set (s0 := set_ksTCBs (insert x t') s).
  assert (Hsi0 : sched_inv s0 rq) by (eapply sched_inv_tcb; eauto).
  wp_struct. apply wp_scheduleTCB; [unfold s0; st_simpl; rewrite lookup_insert_eq; eauto|]. apply HQ.
  split_and!.
  - by apply sched_inv_action_after.
  - apply (ipc_wf_same s0); [|done|done|done].
    eapply ipc_wf_tcb; [exact Hwf|exact Hx| | |by left; left].
    + intros o'. eapply unblocked_out; [done..|]. by apply runnable_unblocked.
    + intros y Hy. rewrite list_elem_of_singleton. set_solver.
  - unfold s0. st_simpl. apply lookup_insert_eq.
  - eexists. split; [reflexivity|]. intros Hc. unfold action_after.
    change (ksCurThread s0) with (ksCurThread s). rewrite <- Hc, Z.eqb_refl.
    assert (Hr0 : trun s0 x = false).
    { unfold trun, s0. st_simpl. rewrite lookup_insert_eq. apply blocked_not_runnable. }
    rewrite Hr0. destruct (Z.eqb_spec (ksSchedulerAction s0) SchedulerAction_ResumeCurrentThread); done.
Qed.

(** What blocking on [o] leaves behind. *)
Definition blocked_post (s' : kstate) : Prop :=
  kinv s' rq (updq q o (q o ++ [x])) /\ thread_at s' x = Some (ep_erase t') /\
  (forall y, y <> x -> thread_at s' y = thread_at s y) /\
  (x = ksCurThread s -> ksSchedulerAction s' <> SchedulerAction_ResumeCurrentThread).

Lemma blocked_post_intro s1 s' :
  about_to_wait s1 -> ep_frame s1 s' -> ipc_wf s' (updq q o (q o ++ [x])) [] -> blocked_post s'.
Proof.
  intros (Hsi & _ & Hx1 & a & -> & Hact) Hf Hwf'.
  assert (Hth : forall y, thread_at s' y = thread_at (set_ksTCBs (insert x t') s) y).
  { intros y. by rewrite (ep_frame_fmap ep_erase _ _ y ltac:(done) Hf). }
  split_and!.
  - split; [by eapply ep_frame_sched|done].
  - rewrite Hth. st_simpl. by rewrite lookup_insert_eq.
  - intros y Hy. rewrite Hth. st_simpl. by rewrite lookup_insert_ne.
  - destruct Hf as [_ ->]. exact Hact.
Qed.
End Block.

(** A thread waiting to send. *)
Definition as_sender (epptr badge : Z) (canGrant canGrantReply isCall : bool) (t : tcb) : tcb :=
  upd_state (fun st => mk_thread_state ThreadState_BlockedOnSend epptr badge canGrant canGrantReply isCall
    (tcbQueued st)) t.

(** A blocking send with no receiver queues the sender: it ends up last in
    the endpoint's queue, in state BlockedOnSend with its badge and rights
    recorded, and the endpoint becomes a sending one; the ready queues and
    every other thread are as before, and a sender that was running makes the
    kernel reschedule.  A non-blocking send with no receiver does nothing. *)
Theorem sendIPC_no_receiver s rq q blocking do_call badge canGrant canGrantReply thread epptr t e :
  kinv s rq q -> ksTCBs s !! thread = Some t -> isRunnable_tcb t = true ->
  tcbQueued (tcbState t) = false -> ksSchedulerAction s <> thread ->
  ksEPs s !! epptr = Some e -> ep_state e <> EPState_Recv ->
  wp (sendIPC blocking do_call badge canGrant canGrantReply thread epptr) (fun _ s' =>
    if blocking then
      blocked_post s rq q thread (as_sender epptr badge canGrant canGrantReply do_call t) (WEP epptr) s'
    else s' = s) s.
Proof.
  intros Hinv Hx Hrun Hq Ha He Hst. unfold sendIPC. wp_struct. eapply wp_getEP; [exact He|].
  destruct blocking.
  2: { destruct (ep_state e); [by wp_struct|by wp_struct|done]. }
  assert (Hcase : ep_state e = EPState_Idle \/ ep_state e = EPState_Send) by (destruct (ep_state e); tauto).
  set (body := bind (modTCB thread _) _).
  assert (Hb : wp body (fun _ s' =>
    blocked_post s rq q thread (as_sender epptr badge canGrant canGrantReply do_call t) (WEP epptr) s') s).
  { unfold body. do 6 mod_thread Hx.
    match goal with |- wp _ _ (set_ksTCBs (insert thread ?u) s) =>
      change u with (as_sender epptr badge canGrant canGrantReply do_call t) end.
    set (t' := as_sender epptr badge canGrant canGrantReply do_call t).
    eapply wp_block; [exact Hinv|exact Hx|exact Hrun|exact Hq|exact Ha|done|reflexivity|].
    intros s1 Hs1. pose proof Hs1 as (_ & Hwf1 & Hx1 & a & Es1 & _).
    eapply wp_ep_enqueue with (o := WEP epptr); [exact Hwf1|exact Hx1|done|done|done| |exact Hcase|done|done|].
    { by rewrite Es1. }
    intros s' Hf Hwf'. by eapply blocked_post_intro. }
  destruct (ep_state e); [exact Hb|exact Hb|done].
Qed.

(** A thread waiting to receive. *)
Definition as_receiver (epptr : Z) (canGrant : bool) (t : tcb) : tcb :=
  upd_state (fun st => mk_thread_state ThreadState_BlockedOnReceive epptr (blockingIPCBadge st) canGrant
    (blockingIPCCanGrantReply st) (blockingIPCIsCall st) (tcbQueued st)) t.

(** A blocking receive with neither a sender nor a pending signal queues
    the receiver last in the endpoint's queue, in state BlockedOnReceive; a
    non-blocking one only answers badge zero. *)
Theorem receiveIPC_no_sender s rq q thread badge rd gr canGrant sd isBlocking epptr t e :
  kinv s rq q -> ksTCBs s !! thread = Some t -> isRunnable_tcb t = true ->
  tcbQueued (tcbState t) = false -> ksSchedulerAction s <> thread ->
  ksEPs s !! epptr = Some e -> ep_state e <> EPState_Send ->
  (tcbBoundNotification t <> 0 ->
     exists n, ksNTFNs s !! tcbBoundNotification t = Some n /\ ntfn_state n <> NtfnState_Active) ->
  wp (receiveIPC thread (cap_endpoint_cap badge gr canGrant sd rd epptr) isBlocking) (fun _ s' =>
    if isBlocking then blocked_post s rq q thread (as_receiver epptr canGrant t) (WEP epptr) s'
    else s' = set_ksTCBs (insert thread (set_tcbContext (insert badgeRegister 0) t)) s) s.
Proof.
  intros Hinv Hx Hrun Hq Ha He Hst Hn. unfold receiveIPC. wp_struct. eapply wp_getTCB; [exact Hx|].
  wp_struct. apply wp_mono with (Q := fun b s' => b = false /\ s' = s).
  { destruct (Z.eqb_spec (tcbBoundNotification t) 0) as [|Hb]; cbn [negb]; [by wp_struct|].
    destruct (Hn Hb) as (n & Hl & Hna). wp_struct. eapply wp_getNTFN; [exact Hl|]. wp_struct.
    by rewrite bool_decide_false. }
  intros b s' [-> ->]. wp_struct. eapply wp_getEP; [exact He|].
  assert (Hcase : ep_state e = EPState_Idle \/ ep_state e = EPState_Recv) by (destruct (ep_state e); tauto).
  set (body := if isBlocking then _ else _).
  assert (Hb : wp body (fun _ s' =>
    if isBlocking then blocked_post s rq q thread (as_receiver epptr canGrant t) (WEP epptr) s'
    else s' = set_ksTCBs (insert thread (set_tcbContext (insert badgeRegister 0) t)) s) s).
  { unfold body. destruct isBlocking; [|unfold doNBRecvFailedTransfer, setRegister; by eapply wp_modTCB].
    do 3 mod_thread Hx.
    match goal with |- wp _ _ (set_ksTCBs (insert thread ?u) s) =>
      change u with (as_receiver epptr canGrant t) end.
    eapply wp_block; [exact Hinv|exact Hx|exact Hrun|exact Hq|exact Ha|done|reflexivity|].
    intros s1 Hs1. pose proof Hs1 as (_ & Hwf1 & Hx1 & a & Es1 & _).
    eapply wp_ep_enqueue with (o := WEP epptr); [exact Hwf1|exact Hx1|done|done|done| |exact Hcase|done|done|].
    { by rewrite Es1. }
    intros s' Hf Hwf'. by eapply blocked_post_intro. }
  destruct (ep_state e); [exact Hb|done|exact Hb].
Qed.

(** A thread waiting for a signal. *)
Definition as_waiter (ntfnPtr : Z) (t : tcb) : tcb :=
  upd_state (fun st => set_blockingObject (fun _ => ntfnPtr)
    (set_tsType (fun _ => ThreadState_BlockedOnNotification) st)) t.

(** Waiting on a notification: a pending signal is taken at once, its
    badge delivered and the notification idle again; otherwise a blocking wait
    queues the thread last and a non-blocking one answers badge zero. *)
Theorem receiveSignal_spec s rq q thread badge rd sd isBlocking ntfnPtr t n :
  kinv s rq q -> ksTCBs s !! thread = Some t -> isRunnable_tcb t = true ->
  tcbQueued (tcbState t) = false -> ksSchedulerAction s <> thread ->
  ksNTFNs s !! ntfnPtr = Some n ->
  wp (receiveSignal thread (cap_notification_cap badge rd sd ntfnPtr) isBlocking) (fun _ s' =>
    if decide (ntfn_state n = NtfnState_Active) then
      s' = set_ksNTFNs (insert ntfnPtr (set_ntfn_state (fun _ => NtfnState_Idle) n))
        (set_ksTCBs (insert thread (set_tcbContext (insert badgeRegister (ntfnMsgIdentifier n)) t)) s)
    else if isBlocking then blocked_post s rq q thread (as_waiter ntfnPtr t) (WNTFN ntfnPtr) s'
    else s' = set_ksTCBs (insert thread (set_tcbContext (insert badgeRegister 0) t)) s) s.
Proof.
  intros Hinv Hx Hrun Hq Ha Hl. unfold receiveSignal. wp_struct. eapply wp_getNTFN; [exact Hl|].
  set (body := if isBlocking then _ else _).
  assert (Hb : wp body (fun _ s' =>
    if isBlocking then blocked_post s rq q thread (as_waiter ntfnPtr t) (WNTFN ntfnPtr) s'
    else s' = set_ksTCBs (insert thread (set_tcbContext (insert badgeRegister 0) t)) s) s).
  { unfold body. destruct isBlocking; [|unfold doNBRecvFailedTransfer, setRegister; by eapply wp_modTCB].
    do 2 mod_thread Hx.
    match goal with |- wp _ _ (set_ksTCBs (insert thread ?u) s) =>
      change u with (as_waiter ntfnPtr t) end.
    eapply wp_block; [exact Hinv|exact Hx|exact Hrun|exact Hq|exact Ha|done|reflexivity|].
    intros s1 Hs1. pose proof Hs1 as (_ & Hwf1 & Hx1 & a & Es1 & _).
    eapply wp_ntfn_enqueue with (o := WNTFN ntfnPtr); [exact Hwf1|exact Hx1|done|done|done| |done|].
    { by rewrite Es1. }
    intros s' Hf Hwf'. by eapply blocked_post_intro. }
  destruct (ntfn_state n) eqn:Hn; case_decide; try done; try exact Hb.
  unfold setRegister, notification_ptr_set_state. wp_struct. eapply wp_modTCB; [exact Hx|].
  eapply wp_modNTFN; [exact Hl|]. done.
Qed.

(** ** Cancelling *)

(** A blocked thread is neither ready nor next to run. *)
Lemma blocked_off s rq q x t o :
  kinv s rq q -> ksTCBs s !! x = Some t -> blocked_on t = Some o ->
  x ∈ q o /\ tcbQueued (tcbState t) = false /\ ksSchedulerAction s <> x.
Proof.
  intros [Hsi Hwf] Hx Hb.
  assert (Hnr : trun s x = false).
  { unfold trun. rewrite Hx. unfold isRunnable_tcb, blocked_on in *. by destruct (tsType_of t). }
  split_and!.
  - destruct (iw_blocked _ _ _ Hwf x t o Hx Hb) as [?|?]; [set_solver|done].
  - destruct (tcbQueued (tcbState t)) eqn:E; [|done]. destruct (si_ready _ _ Hsi) as [Hq _].
    pose proof (qwf_queued _ _ _ Hq x t Hx E) as Hm. destruct (qwf_prio _ _ _ Hq x t Hx) as (Hp & _).
    pose proof (si_queued _ _ Hsi _ _ Hp Hm) as Hr. cbv beta in Hr. congruence.
  - intros E. destruct (si_action _ _ Hsi) as [H|[H|[H _]]]; rewrite E in H; [| |congruence]; subst x.
    + rewrite H in Hx. pose proof (iw_null _ _ _ Hwf) as H0. unfold SchedulerAction_ResumeCurrentThread in Hx.
      congruence.
    + rewrite H in Hx. by rewrite (iw_action _ _ _ Hwf) in Hx.
Qed.

(** A dequeued thread takes an unblocked state and is back in no queue. *)
Lemma wp_leave s rq q x t st Q :
  sched_inv s rq -> ipc_wf s q [x] -> ksTCBs s !! x = Some t -> tcbQueued (tcbState t) = false ->
  ksSchedulerAction s <> x ->
  blocked_on (upd_state (set_tsType (fun _ => st)) t) = None ->
  (forall a, let s' := set_ksSchedulerAction (fun _ => a)
       (set_ksTCBs (insert x (upd_state (set_tsType (fun _ => st)) t)) s) in kinv s' rq q -> Q tt s') ->
  wp (setThreadState x st) Q s.
Proof.
  intros Hsi Hwf Hx Hq Ha Hb HQ. eapply wp_setThreadState; [done..|]. intros a s' _ Hsi'. apply HQ.
  split; [done|]. set (s0 := set_ksTCBs (insert x (upd_state (set_tsType (fun _ => st)) t)) s).
  apply (ipc_wf_same s0); [|done|done|done].
  eapply ipc_wf_tcb; [exact Hwf|exact Hx| | |by right].
  - intros o. apply (iw_transit _ _ _ Hwf). by left.
  - intros y Hy. rewrite list_elem_of_singleton. set_solver.
Qed.

(** What remains of a cancelled thread. *)
Definition cancelled_post (s : kstate) rq q (x : Z) (t : tcb) (o : wobj) (s' : kstate) : Prop :=
  kinv s' rq (updq q o (del x (q o))) /\
  thread_at s' x = Some (ep_erase (upd_state (set_tsType (fun _ => ThreadState_Inactive)) t)) /\
  (forall y, y <> x -> thread_at s' y = thread_at s y).

Lemma wp_cancelled s rq q x t o s1 :
  kinv s rq q -> ksTCBs s !! x = Some t -> blocked_on t = Some o -> ep_frame s s1 ->
  ksTCBs s1 !! x = Some t -> ipc_wf s1 (updq q o (del x (q o))) [x] ->
  wp (setThreadState x ThreadState_Inactive) (fun _ => cancelled_post s rq q x t o) s1.
Proof.
  intros Hinv Hx Hb Hf Hx1 Hwf1. destruct (blocked_off _ _ _ _ _ _ Hinv Hx Hb) as (_ & Hnq & Hna).
  destruct Hinv as [Hsi Hwf].
  eapply wp_leave; [by eapply ep_frame_sched|exact Hwf1|exact Hx1|exact Hnq| |done|].
  - destruct Hf as [_ ->]. exact Hna.
  - intros a s' Hk. split_and!; [exact Hk| |].
    + unfold s'. st_simpl. by rewrite lookup_insert_eq.
    + intros y Hy. unfold s'. st_simpl. rewrite lookup_insert_ne by done.
      by apply (ep_frame_fmap ep_erase _ _ y).
Qed.

Lemma wp_cancelIPC_blocked s rq q thread t o :
  kinv s rq q -> ksTCBs s !! thread = Some t -> blocked_on t = Some o ->
  wp (cancelIPC thread) (fun _ => cancelled_post s rq q thread t o) s.
Proof.
  intros Hinv Hx Hb. destruct (blocked_off _ _ _ _ _ _ Hinv Hx Hb) as (Hin & _).
  pose proof Hinv as [_ Hwf]. destruct (iw_member _ _ _ Hwf o thread Hin) as (w & Hw & t0 & Ht0 & Hty & _).
  assert (t0 = t) as -> by congruence.
  assert (Hep : forall epptr, o = WEP epptr -> blockingObject (tcbState t) = epptr ->
    wp (let* e := getEP epptr in
        assert (negb (bool_decide (ep_state e = EPState_Idle))) ;;;
        let* queue := ep_ptr_get_queue epptr in
        let* queue' := tcbEPDequeue thread queue in
        ep_ptr_set_queue epptr queue' ;;;
        (if q_head queue' =? 0 then endpoint_ptr_set_state epptr EPState_Idle else ret tt) ;;;
        setThreadState thread ThreadState_Inactive) (fun _ => cancelled_post s rq q thread t o) s).
  { intros epptr Ho _. rewrite Ho in Hw. cbn in Hw. destruct (ksEPs s !! epptr) as [e|] eqn:He; [|done].
    apply (inj Some), pair_equal_spec in Hw as [Hqu Hk]. wp_struct. eapply wp_getEP; [exact He|].
    wp_struct. wp_struct. { rewrite bool_decide_false; [done|]. intros E. by rewrite E in Hk. }
    unfold ep_ptr_get_queue. wp_struct. wp_struct. eapply wp_getEP; [exact He|]. wp_struct.
    rewrite Hqu, <- Ho.
    eapply wp_ep_dequeue; [exact Hwf|exact Hx|done|exact Hin|exact Ho|exact He|].
    intros s1 Hf _ Hx1 Hwf1. by apply wp_cancelled. }
  unfold cancelIPC. wp_struct. eapply wp_getTCB; [exact Hx|].
  unfold blocked_on in Hb. destruct (tsType_of t) eqn:Ht; try done; injection Hb as Ho.
  - by apply Hep.
  - by apply Hep.
  - clear Hep. unfold cancelSignal. set (a := blockingObject (tcbState t)) in *. rewrite <- Ho in Hw.
    cbn in Hw. destruct (ksNTFNs s !! a) as [n|] eqn:He; [|done].
    apply (inj Some), pair_equal_spec in Hw as [Hqu Hk]. wp_struct. eapply wp_getNTFN; [exact He|].
    wp_struct. wp_struct. { apply bool_decide_eq_true_2. by destruct (ntfn_state n). }
    unfold ntfn_ptr_get_queue. wp_struct. wp_struct. eapply wp_getNTFN; [exact He|]. wp_struct.
    rewrite Hqu, Ho.
    eapply wp_ntfn_dequeue; [exact Hwf|exact Hx|done|exact Hin|by rewrite Ho|exact He|].
    intros s1 Hf Hx1 Hwf1. apply wp_cancelled; [done|done| |done..].
    unfold blocked_on. by rewrite Ht, <- Ho.
Qed.

(** C38: Cancelling a thread that waits on an endpoint or a notification takes
    it out of that queue, wherever it is in it, and leaves it inactive; an
    object nobody waits on any more is idle, every other waiter keeps its
    place, and the invariants hold. *)
Theorem cancelIPC_blocked s rq q thread t o :
  kinv s rq q -> ksTCBs s !! thread = Some t -> blocked_on t = Some o ->
  wp (cancelIPC thread) (fun _ => cancelled_post s rq q thread t o) s.
Proof. exact (wp_cancelIPC_blocked s rq q thread t o). Qed.

(** ** Waking *)

(** A thread without the links and the queued flag that queues own. *)
Definition core (t : tcb) : tcb := tcb_erase (ep_erase t).
Notation core_at s x := (core <$> ksTCBs s !! x).

Lemma ipc_wf_sched_eq s s' q X : sched_eq s s' -> ipc_wf s q X -> ipc_wf s' q X.
Proof.
  intros He Hwf. apply (ipc_wf_same s); [done|..].
  - by apply (sched_eq_field ksEPs).
  - by apply (sched_eq_field ksNTFNs).
  - intros x. by apply sched_eq_fmap.
Qed.

Lemma core_sched_eq s s' x : sched_eq s s' -> core_at s' x = core_at s x.
Proof. intros He. by apply sched_eq_fmap. Qed.

Lemma core_ep_frame s s' x : ep_frame s s' -> core_at s' x = core_at s x.
Proof. intros Hf. by apply (ep_frame_fmap core). Qed.

(** Waking a dequeued thread: it runs with the badge and is scheduled. *)
Definition woken_post (s : kstate) (rq : queues) (q : wobj -> list Z) (x : Z) (badge : Z) (t : tcb) (o : wobj) (s' : kstate) : Prop :=
  exists rq', kinv s' rq' (updq q o (del x (q o))) /\ scheduled s' rq' x /\
    (forall p y, y ∈ rq p -> y ∈ rq' p) /\
    core_at s' x = Some (core (set_tcbContext (insert badgeRegister badge)
      (upd_state (set_tsType (fun _ => ThreadState_Running)) t))) /\
    (forall y, y <> x -> core_at s' y = core_at s y).

Lemma wp_wake s rq q x t o s1 badge :
  kinv s rq q -> ksTCBs s !! x = Some t -> blocked_on t = Some o -> x <> ksCurThread s ->
  ep_frame s s1 -> ksTCBs s1 !! x = Some t -> ipc_wf s1 (updq q o (del x (q o))) [x] ->
  wp (setThreadState x ThreadState_Running ;;; setRegister x badgeRegister badge ;;; possibleSwitchTo x)
    (fun _ => woken_post s rq q x badge t o) s1.
Proof.
  intros Hinv Hx Hb Hc Hf Hx1 Hwf1. destruct (blocked_off _ _ _ _ _ _ Hinv Hx Hb) as (_ & Hnq & Hna).
  assert (Hcur : ksCurThread s1 = ksCurThread s) by (destruct Hf as [_ ->]; done).
  assert (Hact : ksSchedulerAction s1 <> x) by (destruct Hf as [_ ->]; exact Hna).
  wp_struct. eapply wp_leave; [eapply ep_frame_sched; [exact Hf|apply Hinv]|exact Hwf1|exact Hx1|exact Hnq|exact Hact|done|].
  intros a s2 [Hsi2 Hwf2]. set (t2 := upd_state (set_tsType (fun _ => ThreadState_Running)) t) in *.
  assert (Hx2 : ksTCBs s2 !! x = Some t2) by (unfold s2; st_simpl; apply lookup_insert_eq).
  wp_struct. unfold setRegister. eapply wp_modTCB; [exact Hx2|].
  set (t3 := set_tcbContext (insert badgeRegister badge) t2). set (s3 := set_ksTCBs (insert x t3) s2).
  assert (Hx3 : ksTCBs s3 !! x = Some t3) by (unfold s3; st_simpl; apply lookup_insert_eq).
  assert (Hsi3 : sched_inv s3 rq) by (eapply sched_inv_tcb; [exact Hsi2|exact Hx2|done|by right|by right]).
  assert (Hwf3 : ipc_wf s3 (updq q o (del x (q o))) []).
  { eapply ipc_wf_tcb; [exact Hwf2|exact Hx2| |done|by right]. intros o'. by eapply unblocked_out. }
  eapply wp_possibleSwitchTo; [exact Hsi3|unfold trun; by rewrite Hx3| |].
  { change (x <> ksCurThread s1). by rewrite Hcur. }
  intros s' rq' a' He Hsi' Hm Hsch. exists rq'.
  assert (Hcore : forall y, core_at s' y = core_at s3 y).
  { intros y. by rewrite (core_sched_eq _ _ y He). }
  split_and!; [split; [done|]|done|done| |].
  - eapply ipc_wf_sched_eq; [exact He|]. by apply (ipc_wf_same s3).
  - by rewrite Hcore, Hx3.
  - intros y Hy. rewrite Hcore. unfold s3, s2. st_simpl. rewrite !lookup_insert_ne by done.
    by apply core_ep_frame.
Qed.

(** C39: A signal to a notification with waiting threads wakes exactly the
    first one: it leaves the queue, runs with the signal's badge in its badge
    register and is scheduled; nobody else is woken or changed, and the
    invariants hold. *)
Theorem sendSignal_wakes_first s rq q ntfnPtr badge x l t n :
  kinv s rq q -> ksNTFNs s !! ntfnPtr = Some n -> q (WNTFN ntfnPtr) = x :: l ->
  ksTCBs s !! x = Some t -> x <> ksCurThread s ->
  wp (sendSignal ntfnPtr badge) (fun _ s' =>
    woken_post s rq q x badge t (WNTFN ntfnPtr) s' /\ del x (q (WNTFN ntfnPtr)) = l) s.
Proof.
  intros Hinv Hn Hq Hx Hc. pose proof Hinv as [_ Hwf]. set (o := WNTFN ntfnPtr) in *.
  assert (Hin : x ∈ q o) by (rewrite Hq; by left).
  destruct (iw_member _ _ _ Hwf o x Hin) as (w & Hw & t0 & Ht0 & Hty & Hb).
  assert (t0 = t) as -> by congruence.
  assert (Hdel : del x (q o) = l).
  { pose proof (dlist_nodup _ _ _ (iw_list _ _ _ Hwf o)) as Hnd. rewrite Hq in *.
    apply NoDup_cons in Hnd as [Hxl _]. apply (del_split x [] l); [set_solver|done]. }
  unfold o in Hw. cbn in Hw. rewrite Hn in Hw. cbn in Hw. apply (inj Some), pair_equal_spec in Hw as [Hqu Hk].
  unfold sendSignal. wp_struct. eapply wp_getNTFN; [exact Hn|].
  destruct (ntfn_state n); try done.
  unfold ntfn_ptr_get_queue. wp_struct. wp_struct. eapply wp_getNTFN; [exact Hn|]. wp_struct.
  rewrite Hqu. assert (Hhd : q_head (queue_of (q (WNTFN ntfnPtr))) = x) by (fold o; by rewrite Hq).
  rewrite Hhd. wp_struct. wp_struct.
  { apply negb_true_iff, Z.eqb_neq. eapply iw_nonnull; eauto. }
  fold o. eapply wp_ntfn_dequeue; [exact Hwf|exact Hx|done|exact Hin|done|exact Hn|].
  intros s1 Hf Hx1 Hwf1. eapply wp_mono; [by eapply wp_wake|]. by intros [] s' H.
Qed.

Lemma set_ksNTFNs_merge x n1 n2 s :
  set_ksNTFNs (insert x n2) (set_ksNTFNs (insert x n1) s) = set_ksNTFNs (insert x n2) s.
Proof. destruct s. unfold set_ksNTFNs. cbn. by rewrite insert_insert_eq. Qed.

Lemma set_ksTCBs_NTFNs f g s : set_ksTCBs f (set_ksNTFNs g s) = set_ksNTFNs g (set_ksTCBs f s).
Proof. by destruct s. Qed.

(** Signals sent one after the other. *)
Fixpoint sendSignals (ntfnPtr : Z) (badges : list Z) : K unit :=
  match badges with
  | [] => ret tt
  | b :: bs => sendSignal ntfnPtr b ;;; sendSignals ntfnPtr bs
  end.

Lemma wp_accumulate bs : forall s ntfnPtr n,
  ksNTFNs s !! ntfnPtr = Some n -> ntfn_state n = NtfnState_Active ->
  wp (sendSignals ntfnPtr bs) (fun _ s' => s' = set_ksNTFNs (insert ntfnPtr
    (set_ntfnMsgIdentifier (fun m => foldl Z.lor m bs) n)) s) s.
Proof.
  induction bs as [|b bs IH]; intros s ntfnPtr n Hn Ha; cbn [sendSignals foldl].
  - wp_struct. destruct s, n. unfold set_ksNTFNs. cbn in *. by rewrite insert_id.
  - wp_struct. unfold sendSignal. wp_struct. eapply wp_getNTFN; [exact Hn|]. rewrite Ha.
    eapply wp_modNTFN; [exact Hn|]. eapply wp_mono.
    { eapply IH; [st_simpl; apply lookup_insert_eq|done]. }
    intros [] s' ->. destruct s. unfold set_ksNTFNs. cbn. by rewrite insert_insert_eq.
Qed.

(** C40: No signal is lost while nobody waits: however many signals reach an
    idle, unbound notification, one receive takes them all, delivering the
    bitwise or of their badges to the receiver and leaving the notification
    idle, with nothing else changed. *)
Theorem signals_accumulate s ntfnPtr n b bs thread t cbadge rd sd isBlocking :
  ksNTFNs s !! ntfnPtr = Some n -> ntfn_state n = NtfnState_Idle -> ntfnBoundTCB n = 0 ->
  ksTCBs s !! thread = Some t ->
  wp (sendSignals ntfnPtr (b :: bs) ;;;
      receiveSignal thread (cap_notification_cap cbadge rd sd ntfnPtr) isBlocking) (fun _ s' =>
    let badge := foldl Z.lor b bs in
    s' = set_ksNTFNs (insert ntfnPtr (set_ntfnMsgIdentifier (fun _ => badge) n))
      (set_ksTCBs (insert thread (set_tcbContext (insert badgeRegister badge) t)) s)) s.
Proof.
  intros Hn Hi Hb Ht. wp_struct. cbn [sendSignals]. wp_struct. unfold sendSignal. wp_struct.
  eapply wp_getNTFN; [exact Hn|]. rewrite Hi, Hb. cbn [Z.eqb negb].
  unfold ntfn_set_active, notification_ptr_set_state. wp_struct. eapply wp_modNTFN; [exact Hn|].
  eapply wp_modNTFN; [st_simpl; apply lookup_insert_eq|]. eapply wp_mono.
  { eapply wp_accumulate; [st_simpl; apply lookup_insert_eq|done]. }
  intros [] s' ->. unfold receiveSignal. wp_struct. eapply wp_getNTFN; [st_simpl; apply lookup_insert_eq|].
  cbn [set_ntfnMsgIdentifier set_ntfn_state ntfn_state ntfnMsgIdentifier].
  unfold setRegister, notification_ptr_set_state. wp_struct. eapply wp_modTCB; [exact Ht|].
  eapply wp_modNTFN; [st_simpl; apply lookup_insert_eq|].
  rewrite !set_ksTCBs_NTFNs, !set_ksNTFNs_merge. destruct n as [? ? ? ? st]. cbn in Hi. subst st.
  reflexivity.
Qed.

(** ** Cancelling everybody *)

(** A thread that cannot run is neither ready nor next. *)
Lemma idle_off s rq q X x t :
  sched_inv s rq -> ipc_wf s q X -> ksTCBs s !! x = Some t -> isRunnable_tcb t = false ->
  tcbQueued (tcbState t) = false /\ ksSchedulerAction s <> x.
Proof.
  intros Hsi Hwf Hx Hr.
  assert (Hnr : trun s x = false) by (unfold trun; by rewrite Hx).
  split.
  - destruct (tcbQueued (tcbState t)) eqn:E; [|done]. destruct (si_ready _ _ Hsi) as [Hq _].
    pose proof (qwf_queued _ _ _ Hq x t Hx E) as Hm. destruct (qwf_prio _ _ _ Hq x t Hx) as (Hp & _).
    pose proof (si_queued _ _ Hsi _ _ Hp Hm) as Hr'. cbv beta in Hr'. congruence.
  - intros E. destruct (si_action _ _ Hsi) as [H|[H|[H _]]]; rewrite E in H; [| |congruence]; rewrite H in Hx.
    + pose proof (iw_null _ _ _ Hwf) as H0. unfold SchedulerAction_ResumeCurrentThread in Hx. congruence.
    + by rewrite (iw_action _ _ _ Hwf) in Hx.
Qed.

Fixpoint nchain (nx : Z -> Z) (l : list Z) : Prop :=
  match l with [] => True | x :: l' => nx x = hd_or 0 l' /\ nchain nx l' end.

Lemma dseg_nchain nx pv p l : dseg nx pv p l 0 -> nchain nx l.
Proof. revert p. induction l as [|x l IH]; intros p; cbn; [done|]. intros (_ & ? & ?). eauto. Qed.

Lemma nchain_ext nx nx' l : (forall x, nx' x = nx x) -> nchain nx l -> nchain nx' l.
Proof. intros H. induction l; cbn; [done|]. rewrite H. tauto. Qed.

Lemma nodup_size (m : gmap Z tcb) l : NoDup l -> (forall x, x ∈ l -> is_Some (m !! x)) -> (length l <= size m)%nat.
Proof.
  intros Hnd Hin. rewrite <- (size_list_to_set (C := gset Z) l Hnd), <- size_dom.
  apply subseteq_size. intros x Hx. apply elem_of_list_to_set in Hx. by apply elem_of_dom, Hin.
Qed.

Lemma ipc_wf_ext s q q' X : (forall o, q' o = q o) -> ipc_wf s q X -> ipc_wf s q' X.
Proof.
  intros H [W1 W2 W3 W4 W5 W6]. split; [| | | |done|done].
  - intros o. rewrite H. apply W1.
  - intros o. rewrite H. apply W2.
  - intros x t o. rewrite H. apply W3.
  - intros x o. rewrite H. apply W4.
Qed.

Definition restarted (t : tcb) : tcb := upd_state (set_tsType (fun _ => ThreadState_Restart)) t.

(** Waking the chain [l]. *)
Definition restart_post (s : kstate) (rq : queues) (q : wobj -> list Z) (l : list Z) (s' : kstate) : Prop :=
  exists rq', kinv s' rq' q /\ (forall p y, y ∈ rq p -> y ∈ rq' p) /\
    (forall x, x ∈ l -> core_at s' x = (core ∘ restarted) <$> ksTCBs s !! x /\ x ∈ rq' (tprio s x)) /\
    (forall y, y ∉ l -> core_at s' y = core_at s y).

Section Restart.
Context (s : kstate) (rq : queues) (q : wobj -> list Z) (x : Z) (l : list Z) (t : tcb).
Hypothesis Hsi : sched_inv s rq.
Hypothesis Hwf : ipc_wf s q (x :: l).
Hypothesis Hnd : NoDup (x :: l).
Hypothesis Hx : ksTCBs s !! x = Some t.
Hypothesis Hr : isRunnable_tcb t = false.

Lemma wp_restart_waiter Q :
  (forall s' a, sched_eq (set_ksSchedulerAction (fun _ => a) (set_ksTCBs (insert x (restarted t)) s)) s' ->
     sched_inv s' (enq rq (tcbPriority t) x) -> ipc_wf s' q l -> Q tt s') ->
  wp (restart_waiter x) Q s.
Proof.
  intros HQ. destruct (idle_off _ _ _ _ _ _ Hsi Hwf Hx Hr) as [Hq Ha].
  apply NoDup_cons in Hnd as [Hxl _].
  unfold restart_waiter. wp_struct. eapply wp_setThreadState; [done..|]. intros a s1 _ Hsi1.
  assert (Hx1 : ksTCBs s1 !! x = Some (restarted t)) by (unfold s1; st_simpl; apply lookup_insert_eq).
  assert (Hwf1 : ipc_wf s1 q l).
  { apply (ipc_wf_same (set_ksTCBs (insert x (restarted t)) s)); [|done..].
    eapply ipc_wf_tcb; [exact Hwf|exact Hx| | |by right].
    - intros o. apply (iw_transit _ _ _ Hwf). by left.
    - intros y Hy. set_solver. }
  apply (wp_enq s1 rq); [apply Hsi1|eauto|]. intros s2 He Hwf2.
  assert (Hp : tprio s1 x = tcbPriority t) by (unfold tprio; by rewrite (tlink_Some _ _ _ _ Hx1)).
  rewrite Hp in Hwf2. apply (HQ s2 a); [exact He| |by eapply ipc_wf_sched_eq].
  eapply sched_inv_sched_eq; [exact Hsi1|exact He|exact Hwf2|]. apply qall_enq; [|apply Hsi1].
  unfold trun. by rewrite Hx1.
Qed.
End Restart.

Lemma wp_restart_loop l : forall fuel s rq q,
  sched_inv s rq -> ipc_wf s q l -> NoDup l -> nchain (ep_next (ksTCBs s)) l ->
  (forall x, x ∈ l -> exists t, ksTCBs s !! x = Some t /\ isRunnable_tcb t = false) ->
  (length l < fuel)%nat ->
  wp (ep_loop fuel (hd_or 0 l) restart_waiter) (fun _ => restart_post s rq q l) s.
Proof.
  induction l as [|x l IH]; intros fuel s rq q Hsi Hwf Hnd Hch Hcells Hfuel;
    (destruct fuel as [|fuel]; [cbn in Hfuel; lia|]); cbn [ep_loop hd_or].
  { rewrite Z.eqb_refl. wp_struct. exists rq. split_and!; [done|done|set_solver|done]. }
  destruct (Hcells x) as (t & Hx & Hr); [by left|]. destruct Hch as [Hn Hch].
  rewrite (tlink_Some _ _ _ _ Hx) in Hn.
  rewrite (proj2 (Z.eqb_neq x 0)) by (eapply iw_nonnull; eauto).
  wp_struct. eapply wp_restart_waiter; [done..|]. intros s1 a He Hsi1 Hwf1.
  apply NoDup_cons in Hnd as [Hxl Hnd].
  set (s0 := set_ksSchedulerAction (fun _ => a) (set_ksTCBs (insert x (restarted t)) s)) in *.
  assert (Hx1 : tcbEPNext <$> ksTCBs s1 !! x = Some (hd_or 0 l)).
  { rewrite (sched_eq_fmap tcbEPNext s0 s1) by done. unfold s0. st_simpl. rewrite lookup_insert_eq. cbn.
    by rewrite Hn. }
  destruct (ksTCBs s1 !! x) as [t1|] eqn:Ht1; [|done]. apply (inj Some) in Hx1.
  wp_struct. eapply wp_getTCB; [exact Ht1|]. rewrite Hx1.
  assert (Hview : forall (f : tcb -> Z) y, (forall t, f (tcb_erase t) = f t) -> f (restarted t) = f t ->
    tlink f (ksTCBs s1) y = tlink f (ksTCBs s) y).
  { intros f y Hf Hft. unfold tlink. pose proof (sched_eq_fmap f s0 s1 y Hf He) as H. revert H.
    unfold s0. st_simpl. destruct (decide (y = x)) as [->|].
    - rewrite lookup_insert_eq, Hx, Ht1. cbn. congruence.
    - rewrite lookup_insert_ne by done. destruct (ksTCBs s1 !! y), (ksTCBs s !! y); cbn; congruence. }
  assert (Hother : forall y, y <> x -> core_at s1 y = core_at s y).
  { intros y Hy. rewrite (core_sched_eq _ _ y He). unfold s0. st_simpl. by rewrite lookup_insert_ne. }
  eapply wp_mono.
  { apply IH; [exact Hsi1|exact Hwf1|exact Hnd| | |cbn in Hfuel; lia].
    - eapply nchain_ext; [|exact Hch]. intros y. by apply Hview.
    - intros y Hy. destruct (Hcells y) as (ty & Hty & Hry); [by right|].
      pose proof (sched_eq_fmap isRunnable_tcb s0 s1 y ltac:(done) He) as H. revert H. unfold s0. st_simpl.
      rewrite lookup_insert_ne, Hty by set_solver. destruct (ksTCBs s1 !! y) as [ty1|]; [|done].
      intros [= H]. exists ty1. rewrite H. done. }
  intros [] s2 (rq2 & Hk & Hm & Hin & Hout). exists rq2.
  assert (Hm' : forall p y, y ∈ enq rq (tcbPriority t) x p -> y ∈ rq2 p) by exact Hm.
  split_and!; [done|intros p y Hy; by apply Hm', enq_mono| |].
  - intros y Hy. apply elem_of_cons in Hy as [->|Hy].
    + rewrite (Hout x Hxl), (core_sched_eq _ _ x He). unfold s0. st_simpl. rewrite lookup_insert_eq, Hx.
      split; [done|]. unfold tprio. rewrite (tlink_Some _ _ _ _ Hx). apply Hm', enq_in.
    + destruct (Hin y Hy) as [H1 H2]. rewrite H1. split.
      * assert (Hne : y <> x) by set_solver. pose proof (sched_eq_fmap (core ∘ restarted) s0 s1 y ltac:(done) He) as H.
        rewrite H. unfold s0. st_simpl. by rewrite lookup_insert_ne.
      * unfold tprio in *. by rewrite <- (Hview tcbPriority y).
  - intros y Hy. rewrite Hout by set_solver. apply Hother. set_solver.
Qed.

(** Waking a whole queue, given that its object has been reset. *)
Lemma wp_restart_queue s rq q o s1 :
  kinv s rq q -> ep_frame s s1 -> ksTCBs s1 = ksTCBs s -> ipc_wf s1 (updq q o []) (q o) ->
  wp (let* fuel := gets tcb_fuel in ep_loop fuel (hd_or 0 (q o)) restart_waiter ;;; rescheduleRequired)
    (fun _ => restart_post s rq (updq q o []) (q o)) s1.
Proof.
  intros [Hsi Hwf] Hf Ht Hwf1. pose proof (iw_list _ _ _ Hwf o) as Hd.
  wp_struct. wp_struct. wp_struct. eapply wp_mono.
  { apply wp_restart_loop; [by eapply ep_frame_sched|exact Hwf1|apply Hd| | |].
    - rewrite Ht. eapply dseg_nchain, Hd.
    - intros x Hx. destruct (iw_member _ _ _ Hwf o x Hx) as (w & _ & t & Htx & _ & Hb). exists t. rewrite Ht.
      split; [done|]. unfold isRunnable_tcb, blocked_on in *. by destruct (tsType_of t).
    - unfold tcb_fuel. apply Nat.lt_succ_r, nodup_size; [apply Hd|]. intros x Hx. rewrite Ht. by eapply iw_cells. }
  intros [] s2 (rq2 & [Hsi2 Hwf2] & Hm & Hin & Hout).
  eapply wp_rescheduleRequired; [exact Hsi2|]. intros s3 rq3 He _ Hm3 Hsi3. exists rq3. split_and!.
  - split; [done|]. eapply ipc_wf_sched_eq; [exact He|]. by apply (ipc_wf_same s2).
  - intros p y Hy. by apply Hm3, Hm.
  - intros x Hx. destruct (Hin x Hx) as [H1 H2]. rewrite Ht in H1. split.
    + by rewrite (core_sched_eq _ _ x He).
    + apply Hm3. unfold tprio in *. by rewrite Ht in H2.
  - intros y Hy. rewrite (core_sched_eq _ _ y He). etrans; [apply (Hout y Hy)|]. by rewrite Ht.
Qed.

(** An object whose queue is reset leaves its waiters in transit. *)
Lemma reset_wf s q o s1 :
  ipc_wf s q [] -> ksTCBs s1 = ksTCBs s ->
  (forall o', o' <> o -> waiting s1 o' = waiting s o') -> waiting s1 o = Some (empty_queue, None) ->
  ipc_wf s1 (updq q o []) (q o).
Proof.
  intros Hwf Ht Hwo Hw. eapply ipc_wf_change; [exact Hwf|exact Hwo|exact Hw|done|done|..]; rewrite ?Ht; try set_solver.
  apply dlist_nil.
Qed.

Lemma wp_cancelAllIPC s rq q epptr e :
  kinv s rq q -> ksEPs s !! epptr = Some e ->
  wp (cancelAllIPC epptr) (fun _ => restart_post s rq (updq q (WEP epptr) []) (q (WEP epptr))) s.
Proof.
  intros Hinv He. pose proof Hinv as [_ Hwf]. set (o := WEP epptr).
  pose proof (iw_waiting _ _ _ Hwf o) as Hw. cbn in Hw. rewrite He in Hw. cbn in Hw. fold o in Hw.
  destruct Hw as (Hqu & Hidle & _). injection Hqu as Hhd _.
  unfold cancelAllIPC. wp_struct. eapply wp_getEP; [exact He|].
  cbv zeta. set (body := bind (endpoint_ptr_set_state _ _) _).
  assert (Hb : wp body (fun _ => restart_post s rq (updq q o []) (q o)) s).
  { unfold body, endpoint_ptr_set_state. rewrite Hhd.
    wp_struct. eapply wp_modEP; [exact He|]. wp_struct. eapply wp_modEP; [st_simpl; apply lookup_insert_eq|].
    wp_struct. eapply wp_modEP; [st_simpl; apply lookup_insert_eq|].
    apply wp_restart_queue; [done|split; [done|by destruct s]|done|]. eapply reset_wf; [exact Hwf|done|..].
    - intros [a|a] Hne; cbn; [|done]. rewrite !lookup_insert_ne by (intros ->; by apply Hne). done.
    - cbn. rewrite lookup_insert_eq. done. }
  destruct (ep_state e); [|exact Hb|exact Hb].
  assert (Hq : q o = []) by (by apply Hidle). rewrite Hq. wp_struct.
  exists rq. split_and!; [|done|set_solver|done].
  destruct Hinv as [Hsi _]. split; [done|]. eapply ipc_wf_ext; [|exact Hwf]. intros o'. unfold updq. case_decide; congruence.
Qed.

(** C37: Deleting an endpoint frees everybody: after [cancelAllIPC] the
    endpoint is idle with an empty queue, every thread that waited on it is in
    state Restart and in the ready queue of its priority, every other thread
    is untouched and the invariants hold; the loop over the queue ends. *)
Theorem cancelAllIPC_spec s rq q epptr e :
  kinv s rq q -> ksEPs s !! epptr = Some e ->
  wp (cancelAllIPC epptr) (fun _ => restart_post s rq (updq q (WEP epptr) []) (q (WEP epptr))) s.
Proof. exact (wp_cancelAllIPC s rq q epptr e). Qed.

Lemma wp_cancelAllSignals s rq q ntfnPtr n :
  kinv s rq q -> ksNTFNs s !! ntfnPtr = Some n ->
  wp (cancelAllSignals ntfnPtr) (fun _ => restart_post s rq (updq q (WNTFN ntfnPtr) []) (q (WNTFN ntfnPtr))) s.
Proof.
  intros Hinv He. pose proof Hinv as [_ Hwf]. set (o := WNTFN ntfnPtr).
  pose proof (iw_waiting _ _ _ Hwf o) as Hw. cbn in Hw. rewrite He in Hw. cbn in Hw. fold o in Hw.
  destruct Hw as (Hqu & Hidle & _). injection Hqu as Hhd _.
  unfold cancelAllSignals. wp_struct. eapply wp_getNTFN; [exact He|].
  case_bool_decide as Hs; cbv zeta.
  - rewrite Hhd. unfold notification_ptr_set_state.
    wp_struct. eapply wp_modNTFN; [exact He|]. wp_struct. eapply wp_modNTFN; [st_simpl; apply lookup_insert_eq|].
    wp_struct. eapply wp_modNTFN; [st_simpl; apply lookup_insert_eq|].
    apply wp_restart_queue; [done|split; [done|by destruct s]|done|]. eapply reset_wf; [exact Hwf|done|..].
    + intros [a|a] Hne; cbn; [done|]. rewrite !lookup_insert_ne by (intros ->; by apply Hne). done.
    + cbn. rewrite lookup_insert_eq. done.
  - assert (Hq : q o = []) by (apply Hidle; by destruct (ntfn_state n)). rewrite Hq. wp_struct.
    exists rq. split_and!; [|done|set_solver|done].
    destruct Hinv as [Hsi _]. split; [done|]. eapply ipc_wf_ext; [|exact Hwf]. intros o'. unfold updq. case_decide; congruence.
Qed.

(** Deleting a notification frees everybody: after [cancelAllSignals] its
    queue is empty, every thread that waited is in state Restart and ready,
    every other thread is untouched and the invariants hold. *)
Theorem cancelAllSignals_spec s rq q ntfnPtr n :
  kinv s rq q -> ksNTFNs s !! ntfnPtr = Some n ->
  wp (cancelAllSignals ntfnPtr) (fun _ => restart_post s rq (updq q (WNTFN ntfnPtr) []) (q (WNTFN ntfnPtr))) s.
Proof. exact (wp_cancelAllSignals s rq q ntfnPtr n). Qed.

(** ** Concrete states *)
Definition ep_ptr : Z := 1024.
Definition ntfn_ptr : Z := 2048.

(** Thread A runs; the endpoint and the notification are idle. *)
Definition s_idle : kstate :=
  state_with vtable_slots boot_tcbs (<[ep_ptr := zero_endpoint]> ∅) (<[ntfn_ptr := zero_notification]> ∅)
    tcb_A SchedulerAction_ResumeCurrentThread.
Definition tA : tcb := mk_thread ThreadState_Running 100.

Lemma s_idle_kinv : kinv s_idle (fun _ => []) (fun _ => []).
Proof.
  split.
  - apply empty_sched_inv; [exact boot_fresh|done|by eexists|by eexists|by left].
  - split; try done; [|intros; apply dlist_nil| |set_solver].
    + intros [a|a]; cbn.
      * destruct (decide (a = ep_ptr)) as [->|]; [rewrite lookup_insert_eq|by rewrite lookup_insert_ne].
        split_and!; [done|done|set_solver].
      * destruct (decide (a = ntfn_ptr)) as [->|]; [rewrite lookup_insert_eq|by rewrite lookup_insert_ne].
        split_and!; [done|done|set_solver].
    + assert (H : map_Forall (fun _ t => isRunnable_tcb t = true \/ tsType_of t = ThreadState_IdleThreadState) boot_tcbs).
      { apply (bool_decide_unpack _). vm_compute. exact I. }
      intros x t o Hx Hb. exfalso. unfold blocked_on, isRunnable_tcb in *.
      destruct (H x t Hx) as [Hr|Hr]; destruct (tsType_of t); done.
Qed.

(** The idle thread runs, A waits to receive and B waits for a signal. *)
Definition waiterA : tcb := as_receiver ep_ptr true (mk_thread ThreadState_Running 100).
Definition waiterB : tcb := as_waiter ntfn_ptr (mk_thread ThreadState_Running 200).
Definition wait_tcbs : gmap Z tcb :=
  <[tcb_A := waiterA]> (<[tcb_B := waiterB]> (<[idle_ptr := mk_thread ThreadState_IdleThreadState 0]> ∅)).
Definition s_wait : kstate :=
  state_with vtable_slots wait_tcbs (<[ep_ptr := mk_endpoint tcb_A tcb_A EPState_Recv]> ∅)
    (<[ntfn_ptr := mk_notification 0 0 tcb_B tcb_B NtfnState_Waiting]> ∅)
    idle_ptr SchedulerAction_ResumeCurrentThread.
Definition q_wait : wobj -> list Z :=
  updq (updq (fun _ => []) (WEP ep_ptr) [tcb_A]) (WNTFN ntfn_ptr) [tcb_B].

Lemma q_wait_ep a : q_wait (WEP a) = if decide (a = ep_ptr) then [tcb_A] else [].
Proof. unfold q_wait, updq. repeat case_decide; naive_solver. Qed.
Lemma q_wait_ntfn a : q_wait (WNTFN a) = if decide (a = ntfn_ptr) then [tcb_B] else [].
Proof. unfold q_wait, updq. repeat case_decide; naive_solver. Qed.

Lemma s_wait_kinv : kinv s_wait (fun _ => []) q_wait.
Proof.
  split.
  - apply empty_sched_inv; [apply (bool_decide_unpack _); vm_compute; exact I|done|by eexists|by eexists|by left].
  - split; try done.
    + intros [a|a]; rewrite ?q_wait_ep, ?q_wait_ntfn; case_decide as Ha; cbn.
      * subst a. rewrite lookup_insert_eq. split_and!; [done|done|].
        intros x ->%list_elem_of_singleton. exists waiterA. done.
      * by rewrite lookup_insert_ne.
      * subst a. rewrite lookup_insert_eq. split_and!; [done|done|].
        intros x ->%list_elem_of_singleton. exists waiterB. done.
      * by rewrite lookup_insert_ne.
    + intros [a|a]; rewrite ?q_wait_ep, ?q_wait_ntfn; case_decide; try apply dlist_nil; by apply dlist_singleton.
    + intros x t o Hx Hb. right. cbn in Hx. unfold wait_tcbs in Hx.
      apply lookup_insert_Some in Hx as [[<- <-]|[_ Hx]]; [injection Hb as <-; rewrite q_wait_ep; by left|].
      apply lookup_insert_Some in Hx as [[<- <-]|[_ Hx]]; [injection Hb as <-; rewrite q_wait_ntfn; by left|].
      apply lookup_insert_Some in Hx as [[<- <-]|[_ Hx]]; [done|]. by rewrite lookup_empty in Hx.
    + intros x o Hx. set_solver.
Qed.

(** ** Witnesses *)
Lemma sendIPC_no_receiver_witness :
  kinv s_idle (fun _ => []) (fun _ => []) /\
  wp (sendIPC true true 7 true true tcb_A ep_ptr) (fun _ s' =>
    blocked_post s_idle (fun _ => []) (fun _ => []) tcb_A (as_sender ep_ptr 7 true true true tA) (WEP ep_ptr) s') s_idle.
Proof.
  split; [exact s_idle_kinv|].
  apply (sendIPC_no_receiver s_idle (fun _ => []) (fun _ => []) true true 7 true true tcb_A ep_ptr tA zero_endpoint
    s_idle_kinv); (reflexivity || discriminate).
Defined.

Lemma receiveIPC_no_sender_witness :
  kinv s_idle (fun _ => []) (fun _ => []) /\
  wp (receiveIPC tcb_A (cap_endpoint_cap 0 true true true true ep_ptr) true) (fun _ s' =>
    blocked_post s_idle (fun _ => []) (fun _ => []) tcb_A (as_receiver ep_ptr true tA) (WEP ep_ptr) s') s_idle.
Proof.
  split; [exact s_idle_kinv|].
  apply (receiveIPC_no_sender s_idle (fun _ => []) (fun _ => []) tcb_A 0 true true true true true ep_ptr tA zero_endpoint
    s_idle_kinv); (reflexivity || discriminate || (intros H; destruct (H eq_refl))).
Defined.

Lemma receiveSignal_spec_witness :
  kinv s_idle (fun _ => []) (fun _ => []) /\
  wp (receiveSignal tcb_A (cap_notification_cap 0 true true ntfn_ptr) true) (fun _ s' =>
    blocked_post s_idle (fun _ => []) (fun _ => []) tcb_A (as_waiter ntfn_ptr tA) (WNTFN ntfn_ptr) s') s_idle.
Proof.
  split; [exact s_idle_kinv|].
  apply (receiveSignal_spec s_idle (fun _ => []) (fun _ => []) tcb_A 0 true true true ntfn_ptr tA zero_notification
    s_idle_kinv); (reflexivity || discriminate).
Defined.

Lemma cancelIPC_blocked_witness :
  kinv s_wait (fun _ => []) q_wait /\
  wp (cancelIPC tcb_B) (fun _ => cancelled_post s_wait (fun _ => []) q_wait tcb_B waiterB (WNTFN ntfn_ptr)) s_wait.
Proof.
  split; [exact s_wait_kinv|].
  apply (cancelIPC_blocked s_wait (fun _ => []) q_wait tcb_B waiterB (WNTFN ntfn_ptr) s_wait_kinv); reflexivity.
Defined.

Lemma sendSignal_wakes_first_witness :
  kinv s_wait (fun _ => []) q_wait /\
  wp (sendSignal ntfn_ptr 5) (fun _ s' =>
    woken_post s_wait (fun _ => []) q_wait tcb_B 5 waiterB (WNTFN ntfn_ptr) s') s_wait.
Proof.
  split; [exact s_wait_kinv|]. eapply wp_mono.
  { apply (sendSignal_wakes_first s_wait (fun _ => []) q_wait ntfn_ptr 5 tcb_B [] waiterB
      (mk_notification 0 0 tcb_B tcb_B NtfnState_Waiting) s_wait_kinv); (reflexivity || discriminate). }
  intros [] s' [H _]. exact H.
Defined.

Lemma signals_accumulate_witness :
  ksNTFNs s_idle !! ntfn_ptr = Some zero_notification /\
  wp (sendSignals ntfn_ptr [1; 4] ;;; receiveSignal tcb_A (cap_notification_cap 0 true true ntfn_ptr) true)
    (fun _ s' => s' = set_ksNTFNs (insert ntfn_ptr (set_ntfnMsgIdentifier (fun _ => 5) zero_notification))
      (set_ksTCBs (insert tcb_A (set_tcbContext (insert badgeRegister 5) tA)) s_idle)) s_idle.
Proof.
  assert (Hn : ksNTFNs s_idle !! ntfn_ptr = Some zero_notification) by reflexivity. split; [exact Hn|].
  apply (signals_accumulate s_idle ntfn_ptr zero_notification 1 [4] tcb_A tA 0 true true true Hn); reflexivity.
Defined.

Lemma cancelAllIPC_spec_witness :
  kinv s_wait (fun _ => []) q_wait /\
  wp (cancelAllIPC ep_ptr) (fun _ =>
    restart_post s_wait (fun _ => []) (updq q_wait (WEP ep_ptr) []) (q_wait (WEP ep_ptr))) s_wait.
Proof.
  split; [exact s_wait_kinv|].
  apply (cancelAllIPC_spec s_wait (fun _ => []) q_wait ep_ptr (mk_endpoint tcb_A tcb_A EPState_Recv) s_wait_kinv).
  reflexivity.
Defined.

Lemma cancelAllSignals_spec_witness :
  kinv s_wait (fun _ => []) q_wait /\
  wp (cancelAllSignals ntfn_ptr) (fun _ =>
    restart_post s_wait (fun _ => []) (updq q_wait (WNTFN ntfn_ptr) []) (q_wait (WNTFN ntfn_ptr))) s_wait.
Proof.
  split; [exact s_wait_kinv|].
  apply (cancelAllSignals_spec s_wait (fun _ => []) q_wait ntfn_ptr (mk_notification 0 0 tcb_B tcb_B NtfnState_Waiting)
    s_wait_kinv). reflexivity.
Defined.
