(* ===== verification/IpcXfer.v ===== *)
(** * The delivery of messages

    A send to an endpoint with a waiting receiver: the message, its badge and
    its length are at the receiver afterwards, nothing else changes
    ([ipc_rest] says what that means), and the invariants of the scheduler and
    of the wait queues hold. *)
From stdpp Require Import base list sets gmap.
From S2P Require Import Prelude Dll Structures CapOps CSpace VSpace Sched DomSched ReadyQueue Schedule SchedOps Mdb MdbInv Messages Objects EpQueue Ipc Concrete MsgThm IpcThm.
#[local] Open Scope Z_scope.

(** ** Transfer *)

(** The buffer that [lookupIPCBuffer] finds. *)
Definition buffer_of (s : kstate) (isReceiver : bool) (thread : Z) : Z :=
  match lookupIPCBuffer isReceiver thread s with Some (v, _) => v | None => 0 end.

Lemma wp_lookupIPCBuffer_of s b thread Q :
  is_Some (ksTCBs s !! thread) -> is_Some (ksCTEs s !! TCB_PTR_CTE_PTR thread tcbBuffer) ->
  Q (buffer_of s b thread) s -> wp (lookupIPCBuffer b thread) Q s.
Proof.
  intros [t Ht] [c Hc] HQ. assert (H : wp (lookupIPCBuffer b thread) (fun _ s' => s' = s) s).
  { unfold lookupIPCBuffer. wp_struct. eapply wp_getTCB; [exact Ht|]. wp_struct. eapply wp_getCTE; [exact Hc|].
    repeat case_match; by apply wp_ret. }
  unfold buffer_of in HQ. unfold wp in *. destruct (lookupIPCBuffer b thread s) as [[v s']|]; [by subst|done].
Qed.

(** How many message words arrive. *)
Definition delivered_words (sendBuf recvBuf n : Z) : Z :=
  if (recvBuf =? 0) || (sendBuf =? 0) then Z.min n n_msgRegisters else n.

(** The receiver [td'] and the memory [mem'] after a transfer to [td]. *)
Record delivery (s : kstate) (ts td td' : tcb) (mem' : gmap Z Z) (sendBuf recvBuf cnt badge info : Z) : Prop := {
  dl_frame : set_tcbContext (fun _ => ∅) td' = set_tcbContext (fun _ => ∅) td;
  dl_regs : forall i, 0 <= i < n_msgRegisters -> i < cnt -> reg td' (i + 2) = reg ts (i + 2);
  dl_words : forall i, n_msgRegisters <= i < cnt -> mem_word mem' (buf_addr recvBuf i) = mem_word (ksMem s) (buf_addr sendBuf i);
  dl_badge : reg td' badgeRegister = badge;
  dl_info : reg td' msgInfoRegister = info;
  dl_others : forall r, ~ (0 <= r < n_msgRegisters + 2) -> reg td' r = reg td r;
  dl_mem : forall a, (forall i, n_msgRegisters <= i < cnt -> a <> buf_addr recvBuf i) -> mem' !! a = ksMem s !! a
}.

(** The state after it. *)
Definition after_delivery (s : kstate) (receiver : Z) (td' : tcb) (mem' : gmap Z Z) : kstate :=
  set_current_extra_caps (fun _ => []) (set_ksMem (fun _ => mem') (set_ksTCBs (insert receiver td') s)).

Lemma copied_state s sender sendBuf receiver recvBuf lo hi s' tc : mrs_copied s sender sendBuf receiver recvBuf lo hi s' ->
  ksTCBs s' !! receiver = Some tc ->
  s' = set_ksMem (fun _ => ksMem s') (set_ksTCBs (insert receiver tc) s).
Proof.
  intros [_ _ _ T _ R] Hr. assert (E : ksTCBs s' = <[receiver := tc]> (ksTCBs s)).
  { apply map_eq. intros x. destruct (decide (x = receiver)) as [->|Hne]; [by rewrite lookup_insert_eq|].
    rewrite lookup_insert_ne by done. by apply T. }
  transitivity (set_ksMem (fun _ => ksMem s') (set_ksTCBs (fun _ => ksTCBs s') (set_ksTCBs (fun _ => ∅) (set_ksMem (fun _ => ∅) s')))); [by destruct s'|].
  rewrite R, E. by destruct s.
Qed.

Section Transfer.
Context (s : kstate) (sender receiver endpoint badge : Z) (canGrant : bool) (ts td : tcb).
Hypothesis Hne : sender <> receiver.
Hypothesis Hts : ksTCBs s !! sender = Some ts.
Hypothesis Htd : ksTCBs s !! receiver = Some td.
Hypothesis Hnf : tcbFault ts = seL4_Fault_NullFault.
Hypothesis Hbs : is_Some (ksCTEs s !! TCB_PTR_CTE_PTR sender tcbBuffer).
Hypothesis Hbr : is_Some (ksCTEs s !! TCB_PTR_CTE_PTR receiver tcbBuffer).
Hypothesis Hw : is_word (reg ts msgInfoRegister).

Notation tag := (messageInfoFromWord (reg ts msgInfoRegister)).
Notation n := (seL4_MessageInfo_get_length tag).
Notation sendBuf := (buffer_of s false sender).
Notation recvBuf := (buffer_of s true receiver).
Notation cnt := (delivered_words sendBuf recvBuf n).

(** The message word at the receiver: no capabilities, the length delivered. *)
Definition sent_info (tag cnt : Z) : Z :=
  seL4_MessageInfo_set_length (seL4_MessageInfo_set_capsUnwrapped (seL4_MessageInfo_set_extraCaps tag 0) 0) cnt.

Hypothesis Hcaps : canGrant = false \/ seL4_MessageInfo_get_extraCaps tag = 0.
Hypothesis Hdisj : forall i j, n_msgRegisters <= i < n -> n_msgRegisters <= j < n -> buf_addr sendBuf i <> buf_addr recvBuf j.

Lemma tag_length : 0 <= n <= seL4_MsgMaxLength.
Proof.
  unfold messageInfoFromWord, seL4_MsgMaxLength. destruct (Z.ltb_spec 120 (seL4_MessageInfo_get_length (reg ts msgInfoRegister))) as [H|H].
  - assert (E : seL4_MessageInfo_get_length (seL4_MessageInfo_set_length (reg ts msgInfoRegister) 120) = 120) by mi_solve. rewrite E. lia.
  - split; [|done]. unfold seL4_MessageInfo_get_length, bf_get. apply Z.land_nonneg. by right.
Qed.

Lemma wp_no_extra_caps (Q : unit -> kstate -> Prop) :
  Q tt (set_current_extra_caps (fun _ => []) s) ->
  wp (if canGrant then let* status := lookupExtraCaps sender sendBuf tag in
        if negb (is_none status) then set_extra_caps [] else ret tt
      else set_extra_caps []) Q s.
Proof.
  intros HQ. destruct canGrant.
  - destruct Hcaps as [?|H0]; [done|]. wp_struct. unfold lookupExtraCaps. destruct (sendBuf =? 0).
    + unfold set_extra_caps. by repeat wp_struct.
    + rewrite H0. cbn [lookupExtraCaps_loop Z.to_nat]. change (0 <? seL4_MsgMaxExtraCaps) with true. cbv iota.
      repeat wp_struct. exact HQ.
  - unfold set_extra_caps. by wp_struct.
Qed.

Lemma wp_doIPCTransfer (Q : unit -> kstate -> Prop) :
  (forall td' mem', delivery s ts td td' mem' sendBuf recvBuf cnt badge (sent_info tag cnt) ->
     Q tt (after_delivery s receiver td' mem')) ->
  wp (doIPCTransfer sender endpoint badge canGrant receiver) Q s.
Proof.
  intros HQ. unfold doIPCTransfer. wp_struct. apply wp_lookupIPCBuffer_of; [by eexists|done|].
  wp_struct. eapply wp_getTCB; [exact Hts|]. rewrite Hnf. cbn [is_NullFault].
  wp_struct. apply wp_lookupIPCBuffer_of; [by eexists|done|]. unfold doNormalTransfer. wp_struct. eapply wp_getRegister; [exact Hts|].
  cbv zeta. wp_struct. apply wp_no_extra_caps. wp_struct.
  apply wp_copyMRs; [done|apply tag_length|exact Hdisj|by eexists|by eexists|]. fold cnt. intros s2 Hc.
  pose proof (mc_ctx _ _ _ _ _ _ _ _ Hc) as (tc0 & td2 & E0 & Htd2 & Hf & Hr). cbn in E0. rewrite Htd in E0. injection E0 as <-.
  pose proof (copied_state _ _ _ _ _ _ _ _ _ Hc Htd2) as E2.
  wp_struct. unfold transferCaps, excaprefs. cbv zeta. wp_struct. wp_struct. assert (Ecaps : current_extra_caps s2 = []) by (by rewrite E2).
  rewrite Ecaps. cbn [nth_error Z.to_nat orb]. wp_struct. wp_struct. eapply wp_setRegister; [exact Htd2|].
  eapply wp_setRegister; [st_simpl; apply lookup_insert_eq|]. rewrite set_ksTCBs_merge.
  set (td' := with_reg badgeRegister badge _).
  replace (set_ksTCBs (insert receiver td') s2) with (after_delivery s receiver td' (ksMem s2))
    by (rewrite E2; unfold after_delivery; destruct s; unfold set_ksTCBs, set_ksMem, set_current_extra_caps; cbn; by rewrite insert_insert_eq).
  apply HQ. unfold td'. clear td'. split.
  - rewrite <- Hf. by destruct td2.
  - intros i Hi Hic. rewrite !reg_with_reg. unfold badgeRegister, msgInfoRegister. rewrite !decide_False by lia.
    pose proof (mc_words _ _ _ _ _ _ _ _ Hc i ltac:(lia)) as Hm. unfold msg_reg in Hm. rewrite (proj2 (Z.ltb_lt i _)) in Hm by lia.
    rewrite Htd2 in Hm. cbn in Hm. rewrite Hts, arr_msgRegisters in Hm by lia. cbn in Hm. by injection Hm.
  - intros i Hi. pose proof (mc_words _ _ _ _ _ _ _ _ Hc i ltac:(unfold n_msgRegisters in *; lia)) as Hm. unfold msg_reg in Hm.
    rewrite (proj2 (Z.ltb_ge i _)) in Hm by lia. by injection Hm.
  - rewrite reg_with_reg. by rewrite decide_True.
  - rewrite !reg_with_reg. unfold badgeRegister, msgInfoRegister. by rewrite decide_False, decide_True.
  - intros r Hnr. rewrite !reg_with_reg. unfold badgeRegister, msgInfoRegister, n_msgRegisters in *. rewrite !decide_False by lia. apply Hr. unfold n_msgRegisters. lia.
  - intros a Ha. apply (mc_mem _ _ _ _ _ _ _ _ Hc). intros i Hi. apply Ha. lia.
Qed.
End Transfer.

(** ** The invariants *)
Lemma context_only td td' : set_tcbContext (fun _ => ∅) td' = set_tcbContext (fun _ => ∅) td ->
  td' = set_tcbContext (fun _ => tcbContext td') td.
Proof.
  intros H. transitivity (set_tcbContext (fun _ => tcbContext td') (set_tcbContext (fun _ => ∅) td')); [by destruct td'|].
  rewrite H. by destruct td.
Qed.

Lemma after_delivery_kinv s rq q X x td td' mem' : sched_inv s rq -> ipc_wf s q X -> ksTCBs s !! x = Some td ->
  (tcbQueued (tcbState td) = false /\ ksSchedulerAction s <> x) \/ isRunnable_tcb td = true ->
  set_tcbContext (fun _ => ∅) td' = set_tcbContext (fun _ => ∅) td ->
  sched_inv (after_delivery s x td' mem') rq /\ ipc_wf (after_delivery s x td' mem') q X.
Proof.
  intros Hsi Hwf Hx Hok Hf%context_only. rewrite Hf. set (t1 := set_tcbContext _ td). split.
  - assert (H1 : sched_inv (set_ksTCBs (insert x t1) s) rq).
    { change (isRunnable_tcb td) with (isRunnable_tcb t1) in Hok. eapply sched_inv_tcb; [exact Hsi|exact Hx|done|tauto|tauto]. }
    destruct H1 as [I1 I2 I3 I4 I5 I6 I7 I8]. split; try done. by eapply vm_ok_same; [..|exact I7].
  - apply (ipc_wf_same s); [done|done|done|]. intros y. unfold after_delivery. st_simpl.
    destruct (decide (y = x)) as [->|Hne]; [by rewrite lookup_insert_eq, Hx|by rewrite lookup_insert_ne].
Qed.

(** What a delivery leaves alone: everything but the threads, the ready
    queues, the scheduler action, the memory, the endpoints and the list of
    capabilities in transit.  So the capability slots, the page tables, the
    identifier pools and their table, the notifications, the interrupts, the
    domain schedule, the current thread and the hardware are as before. *)
Definition ipc_hide (s : kstate) : kstate :=
  set_ksTCBs (fun _ => ∅) (set_ksReadyQueues (fun _ => ∅) (set_ksReadyQueuesL1Bitmap (fun _ => ∅)
    (set_ksReadyQueuesL2Bitmap (fun _ => ∅) (set_ksMem (fun _ => ∅) (set_ksEPs (fun _ => ∅)
      (set_current_extra_caps (fun _ => []) (set_ksSchedulerAction (fun _ => 0) s))))))).

(** The frame of a delivery on [epptr]: of the endpoints only that one
    changes, and it is idle when nobody of [l] is left; no capability is in
    transit. *)
Record ipc_rest (epptr : Z) (e : endpoint) (l : list Z) (s s' : kstate) : Prop := {
  ir_hide : ipc_hide s' = ipc_hide s;
  ir_caps : current_extra_caps s' = [];
  ir_endpoint : exists e', ksEPs s' = <[epptr := e']> (ksEPs s) /\
    ep_state e' = if bool_decide (l = []) then EPState_Idle else ep_state e
}.

(** A later state that agrees on the rest keeps the frame. *)
Lemma ipc_rest_through epptr e l s s1 x td' mem' s' :
  ep_frame s s1 -> ep_left epptr e l s s1 ->
  ipc_hide s' = ipc_hide s1 -> ksEPs s' = ksEPs s1 ->
  current_extra_caps s' = current_extra_caps (after_delivery s1 x td' mem') ->
  ipc_rest epptr e l s s'.
Proof.
  intros [_ Hf] (e' & He & Hn & Hst) Hh Hep Hcaps. split.
  - rewrite Hh, Hf, Hn. by destruct s.
  - by rewrite Hcaps.
  - exists e'. by rewrite Hep.
Qed.

(** The receiver runs. *)
Definition running (t : tcb) : tcb := upd_state (set_tsType (fun _ => ThreadState_Running)) t.

Lemma wp_set_running s rq q x t (Q : unit -> kstate -> Prop) :
  sched_inv s rq -> ipc_wf s q [x] -> ksTCBs s !! x = Some t -> tcbQueued (tcbState t) = false ->
  ksSchedulerAction s <> x -> x <> ksCurThread s ->
  (forall s' rq', kinv s' rq' q -> scheduled s' rq' x -> (forall p y, y ∈ rq p -> y ∈ rq' p) ->
     core_at s' x = Some (core (running t)) -> (forall y, y <> x -> core_at s' y = core_at s y) -> ksMem s' = ksMem s ->
     ipc_hide s' = ipc_hide s -> ksEPs s' = ksEPs s -> current_extra_caps s' = current_extra_caps s -> Q tt s') ->
  wp (setThreadState x ThreadState_Running ;;; possibleSwitchTo x) Q s.
Proof.
  intros Hsi Hwf Hx Hq Ha Hc HQ. wp_struct. eapply wp_leave; [exact Hsi|exact Hwf|exact Hx|exact Hq|exact Ha|done|].
  intros a s2 [Hsi2 Hwf2]. assert (Hx2 : ksTCBs s2 !! x = Some (running t)) by (unfold s2; st_simpl; apply lookup_insert_eq).
  eapply wp_possibleSwitchTo; [exact Hsi2|unfold trun; by rewrite Hx2|done|]. intros s' rq' a' He Hsi' Hm Hsch.
  assert (Hcore : forall y, core_at s' y = core_at s2 y) by (intros y; by rewrite (core_sched_eq _ _ y He)).
  apply (HQ s' rq'); [split; [done|]|done|done| | | | | |].
  - eapply ipc_wf_sched_eq; [exact He|]. by apply (ipc_wf_same s2).
  - by rewrite Hcore, Hx2.
  - intros y Hy. rewrite Hcore. unfold s2. st_simpl. by rewrite lookup_insert_ne.
  - by rewrite (sched_eq_field ksMem _ _ ltac:(done) He).
  - by rewrite (sched_eq_field ipc_hide _ _ ltac:(done) He).
  - by rewrite (sched_eq_field ksEPs _ _ ltac:(done) He).
  - by rewrite (sched_eq_field current_extra_caps _ _ ltac:(done) He).
Qed.

(** ** Sending to a waiting receiver *)

(** What a send promises: the receiver [x] has the message, runs and is
    scheduled; no other thread has changed, and nothing outside [ipc_rest]. *)
Record sent (s : kstate) (rq : queues) (q : wobj -> list Z) (sender x epptr badge : Z) (l : list Z) (e : endpoint) (ts td : tcb) (s' : kstate)
    (rq' : queues) (td' : tcb) : Prop := {
  st_kinv : kinv s' rq' (updq q (WEP epptr) l);
  st_scheduled : scheduled s' rq' x /\ forall p y, y ∈ rq p -> y ∈ rq' p;
  st_receiver : core_at s' x = Some (core (running td'));
  st_message : let tag := messageInfoFromWord (reg ts msgInfoRegister) in
    let cnt := delivered_words (buffer_of s false sender) (buffer_of s true x) (seL4_MessageInfo_get_length tag) in
    delivery s ts td td' (ksMem s') (buffer_of s false sender) (buffer_of s true x) cnt badge (sent_info tag cnt);
  st_others : forall y, y <> x -> core_at s' y = core_at s y;
  st_rest : ipc_rest epptr e l s s'
}.

(** What the sender needs: a message without capabilities, and two buffers
    that do not share message words. *)
Record can_send (s : kstate) (sender x : Z) (canGrant : bool) (ts : tcb) : Prop := {
  cs_sender : ksTCBs s !! sender = Some ts /\ sender <> x;
  cs_fault : tcbFault ts = seL4_Fault_NullFault;
  cs_slots : is_Some (ksCTEs s !! TCB_PTR_CTE_PTR sender tcbBuffer) /\ is_Some (ksCTEs s !! TCB_PTR_CTE_PTR x tcbBuffer);
  cs_word : is_word (reg ts msgInfoRegister);
  cs_caps : canGrant = false \/ seL4_MessageInfo_get_extraCaps (messageInfoFromWord (reg ts msgInfoRegister)) = 0;
  cs_apart : let n := seL4_MessageInfo_get_length (messageInfoFromWord (reg ts msgInfoRegister)) in
    forall i j, n_msgRegisters <= i < n -> n_msgRegisters <= j < n ->
      buf_addr (buffer_of s false sender) i <> buf_addr (buffer_of s true x) j
}.

Lemma buffer_of_ext s s1 b y : ksCTEs s1 = ksCTEs s -> tcbIPCBuffer <$> ksTCBs s1 !! y = tcbIPCBuffer <$> ksTCBs s !! y ->
  buffer_of s1 b y = buffer_of s b y.
Proof.
  intros Hc Ht. unfold buffer_of, lookupIPCBuffer, getTCB, getCTE, bind, gets, from_option_M. destruct s, s1. cbn in *. subst.
  destruct (ksTCBs0 !! y) as [t1|], (ksTCBs !! y) as [t|]; try done. injection Ht as Ht. cbn.
  destruct (ksCTEs !! TCB_PTR_CTE_PTR y tcbBuffer) as [c|]; [|done]. cbn. rewrite Ht.
  destruct (cte_cap c); try done. cbn. match goal with |- context [if ?d then ret 0 else _] => destruct d end; [done|]. by destruct (_ || _).
Qed.

Lemma delivery_ext s s1 ts ts1 td td' mem' sb rb cnt badge info :
  ksMem s1 = ksMem s -> tcbContext ts1 = tcbContext ts ->
  delivery s1 ts1 td td' mem' sb rb cnt badge info -> delivery s ts td td' mem' sb rb cnt badge info.
Proof.
  intros Em Ec [D1 D2 D3 D4 D5 D6 D7]. rewrite Em in *. split; try done. intros i Hi Hc. rewrite (D2 i Hi Hc). unfold reg. by rewrite Ec.
Qed.

Lemma ep_frame_thread s s1 y t : ep_frame s s1 -> ksTCBs s !! y = Some t ->
  exists t1, ksTCBs s1 !! y = Some t1 /\ ep_erase t1 = ep_erase t.
Proof.
  intros Hf Ht. pose proof (ep_frame_fmap ep_erase _ _ y ltac:(done) Hf) as E.
  rewrite Ht in E. destruct (ksTCBs s1 !! y) as [t1|]; [|done]. apply (inj Some) in E. by exists t1.
Qed.

(** The transfer and the wake-up, after the receiver has left the queue. *)
Lemma wp_deliver s rq q sender x epptr badge canGrant l e ts td s1 (k : bool -> K unit) (Q : unit -> kstate -> Prop) :
  kinv s rq q -> q (WEP epptr) = x :: l -> ksTCBs s !! x = Some td -> blocked_on td = Some (WEP epptr) -> x <> ksCurThread s ->
  can_send s sender x canGrant ts ->
  ep_frame s s1 -> ep_left epptr e l s s1 -> ksTCBs s1 !! x = Some td -> ipc_wf s1 (updq q (WEP epptr) l) [x] ->
  (forall g s' rq' td', sent s rq q sender x epptr badge l e ts td s' rq' td' -> wp (k g) Q s') ->
  wp (doIPCTransfer sender epptr badge canGrant x ;;; let* d := getTCB x in
      let replyCanGrant := blockingIPCCanGrant (tcbState d) in
      setThreadState x ThreadState_Running ;;; possibleSwitchTo x ;;; k replyCanGrant) Q s1.
Proof.
  intros Hinv Hq Hx Hb Hc [[Hts Hne] Hnf [Hs1 Hs2] Hw Hcaps Hap] Hf Hleft Hx1 Hwf1 HQ.
  destruct (blocked_off _ _ _ _ _ _ Hinv Hx Hb) as (_ & Hnq & Hna). destruct Hinv as [Hsi _].
  destruct (ep_frame_thread _ _ _ _ Hf Hts) as (ts1 & Hts1 & Ets).
  assert (Ec : tcbContext ts1 = tcbContext ts) by (change (tcbContext (ep_erase ts1) = tcbContext (ep_erase ts)); by rewrite Ets).
  assert (Efault : tcbFault ts1 = tcbFault ts) by (change (tcbFault (ep_erase ts1) = tcbFault (ep_erase ts)); by rewrite Ets).
  assert (Ereg : forall r, reg ts1 r = reg ts r) by (intros r; unfold reg; by rewrite Ec).
  assert (Ecte : ksCTEs s1 = ksCTEs s /\ ksMem s1 = ksMem s /\ ksSchedulerAction s1 = ksSchedulerAction s /\ ksCurThread s1 = ksCurThread s)
    by (destruct Hf as [_ ->]; by split_and!).
  destruct Ecte as (Ecte & Emem & Eact & Ecur).
  assert (Ebuf : forall b y, buffer_of s1 b y = buffer_of s b y).
  { intros b y. apply buffer_of_ext; [done|]. by apply (ep_frame_fmap tcbIPCBuffer). }
  wp_struct. apply (wp_doIPCTransfer s1 sender x epptr badge canGrant ts1 td);
    rewrite ?Ecte, ?Ebuf, ?Ereg, ?Efault; [done|done|done|done|done|done|done|done|exact Hap|].
  intros td' mem' Hd. wp_struct. eapply wp_getTCB; [unfold after_delivery; st_simpl; apply lookup_insert_eq|].
  destruct (after_delivery_kinv s1 rq (updq q (WEP epptr) l) [x] x td td' mem') as [Hsi2 Hwf2];
    [by eapply ep_frame_sched|done|done|left; by rewrite Eact|apply Hd|].
  pose proof (context_only _ _ (dl_frame _ _ _ _ _ _ _ _ _ _ Hd)) as Etd.
  cbv zeta. apply wp_seq2. eapply (wp_set_running _ rq (updq q (WEP epptr) l) x td'); [exact Hsi2|exact Hwf2|unfold after_delivery; st_simpl; apply lookup_insert_eq|by rewrite Etd| | |].
  - change (ksSchedulerAction s1 <> x). congruence.
  - change (x <> ksCurThread s1). congruence.
  - intros s' rq' Hk Hsch Hm Hcx Hco Em Eh Eep Ecaps. apply (HQ _ s' rq' td').
    split; [done|by split|done| | |by eapply ipc_rest_through].
    + cbn zeta. rewrite Em. change (ksMem (after_delivery s1 x td' mem')) with mem'. eapply delivery_ext; [exact Emem|exact Ec|exact Hd].
    + intros y Hy. rewrite Hco by done. unfold after_delivery. st_simpl. rewrite lookup_insert_ne by done. by apply core_ep_frame.
Qed.

(** The head of a wait queue. *)
Lemma head_waits s rq q o x l t : kinv s rq q -> q o = x :: l -> ksTCBs s !! x = Some t ->
  exists w, waiting s o = Some (queue_of (q o), Some w) /\ blocked_on t = Some o /\ x ∈ q o /\ del x (q o) = l.
Proof.
  intros [_ Hwf] Hq Hx. assert (Hin : x ∈ q o) by (rewrite Hq; by left).
  destruct (iw_member _ _ _ Hwf o x Hin) as (w & Hw & t0 & Ht0 & Hty & Hb). assert (t0 = t) as -> by congruence.
  exists w. split_and!; try done. pose proof (dlist_nodup _ _ _ (iw_list _ _ _ Hwf o)) as Hnd. rewrite Hq in *.
  apply NoDup_cons in Hnd as [Hxl _]. apply (del_split x [] l); [set_solver|done].
Qed.


(** ** Receiving from a waiting sender *)

(** What a receive promises: the thread has the message of the sender [x],
    which runs again and is scheduled; no other thread has changed, and
    nothing outside [ipc_rest]. *)
Record received (s : kstate) (rq : queues) (q : wobj -> list Z) (thread x epptr : Z) (l : list Z) (e : endpoint) (ts td : tcb) (s' : kstate)
    (rq' : queues) (td' : tcb) : Prop := {
  rv_kinv : kinv s' rq' (updq q (WEP epptr) l);
  rv_scheduled : scheduled s' rq' x /\ forall p y, y ∈ rq p -> y ∈ rq' p;
  rv_receiver : core_at s' thread = Some (core td');
  rv_sender : core_at s' x = Some (core (running ts));
  rv_message : let tag := messageInfoFromWord (reg ts msgInfoRegister) in
    let cnt := delivered_words (buffer_of s false x) (buffer_of s true thread) (seL4_MessageInfo_get_length tag) in
    delivery s ts td td' (ksMem s') (buffer_of s false x) (buffer_of s true thread) cnt (blockingIPCBadge (tcbState ts)) (sent_info tag cnt);
  rv_others : forall y, y <> x -> y <> thread -> core_at s' y = core_at s y;
  rv_rest : ipc_rest epptr e l s s'
}.

(** The receiver may differ in its links, which it does not use. *)
Lemma delivery_links s ts td td1 td' mem' sb rb cnt badge info : ep_erase td1 = ep_erase td ->
  delivery s ts td1 td' mem' sb rb cnt badge info ->
  exists td2, delivery s ts td td2 mem' sb rb cnt badge info /\ core td2 = core td'.
Proof.
  intros He Hd. exists (set_tcbContext (fun _ => tcbContext td') td). pose proof (context_only _ _ (dl_frame _ _ _ _ _ _ _ _ _ _ Hd)) as Etd.
  assert (Ectx : tcbContext td1 = tcbContext td) by (change (tcbContext (ep_erase td1) = tcbContext (ep_erase td)); by rewrite He).
  split.
  - destruct Hd as [D1 D2 D3 D4 D5 D6 D7]. unfold reg in *. rewrite Ectx in D6. by split.
  - rewrite Etd. unfold core. change (ep_erase (set_tcbContext ?f ?t)) with (set_tcbContext f (ep_erase t)). by rewrite He.
Qed.

Lemma wp_take s rq q thread x epptr canGrant l e ts td s1 (c : K unit) (Q : unit -> kstate -> Prop) :
  kinv s rq q -> q (WEP epptr) = x :: l -> ksTCBs s !! x = Some ts -> blocked_on ts = Some (WEP epptr) -> x <> ksCurThread s ->
  ksTCBs s !! thread = Some td -> isRunnable_tcb td = true -> can_send s x thread canGrant ts ->
  ep_frame s s1 -> ep_left epptr e l s s1 -> ksTCBs s1 !! x = Some ts -> ipc_wf s1 (updq q (WEP epptr) l) [x] ->
  blockingIPCIsCall (tcbState ts) = false ->
  (forall s' rq' td', received s rq q thread x epptr l e ts td s' rq' td' -> Q tt s') ->
  wp (doIPCTransfer x epptr (blockingIPCBadge (tcbState ts)) canGrant thread ;;; let* st' := getTCB x in
      let do_call := blockingIPCIsCall (tcbState st') in
      if do_call then c else setThreadState x ThreadState_Running ;;; possibleSwitchTo x) Q s1.
Proof.
  intros Hinv Hq Hx Hb Hc Hth Hrun [[_ Hne] Hnf [Hs1 Hs2] Hw Hcaps Hap] Hf Hleft Hx1 Hwf1 Hcall HQ.
  destruct (blocked_off _ _ _ _ _ _ Hinv Hx Hb) as (_ & Hnq & Hna). destruct Hinv as [Hsi _].
  destruct (ep_frame_thread _ _ _ _ Hf Hth) as (td1 & Htd1 & Etd).
  assert (Ecte : ksCTEs s1 = ksCTEs s /\ ksMem s1 = ksMem s /\ ksSchedulerAction s1 = ksSchedulerAction s /\ ksCurThread s1 = ksCurThread s)
    by (destruct Hf as [_ ->]; by split_and!).
  destruct Ecte as (Ecte & Emem & Eact & Ecur).
  assert (Ebuf : forall b y, buffer_of s1 b y = buffer_of s b y).
  { intros b y. apply buffer_of_ext; [done|]. by apply (ep_frame_fmap tcbIPCBuffer). }
  wp_struct. apply (wp_doIPCTransfer s1 x thread epptr _ canGrant ts td1);
    rewrite ?Ecte, ?Ebuf; [done|done|done|done|done|done|done|done|exact Hap|].
  intros td' mem' Hd. wp_struct. eapply wp_getTCB; [unfold after_delivery; st_simpl; by rewrite lookup_insert_ne|].
  cbv zeta. rewrite Hcall. assert (Hrun1 : isRunnable_tcb td1 = true).
  { change (isRunnable_tcb (ep_erase td1) = true). by rewrite Etd. }
  destruct (after_delivery_kinv s1 rq (updq q (WEP epptr) l) [x] thread td1 td' mem') as [Hsi2 Hwf2];
    [by eapply ep_frame_sched|done|done|by right|apply Hd|].
  destruct (delivery_links _ _ td _ _ _ _ _ _ _ _ Etd Hd) as (td2 & Hd2 & Ecore).
  eapply (wp_set_running _ rq (updq q (WEP epptr) l) x ts); [exact Hsi2|exact Hwf2|unfold after_delivery; st_simpl; by rewrite lookup_insert_ne|done| | |].
  - change (ksSchedulerAction s1 <> x). congruence.
  - change (x <> ksCurThread s1). congruence.
  - intros s' rq' Hk Hsch Hm Hcx Hco Em Eh Eep Ecaps. apply (HQ s' rq' td2).
    split; [done|by split| |done| | |by eapply ipc_rest_through].
    + rewrite Hco by congruence. unfold after_delivery. st_simpl. rewrite lookup_insert_eq. by rewrite Ecore.
    + cbn zeta. rewrite Em. change (ksMem (after_delivery s1 thread td' mem')) with mem'. by eapply delivery_ext; [exact Emem| |exact Hd2].
    + intros y Hy Hy'. rewrite Hco by done. unfold after_delivery. st_simpl. rewrite lookup_insert_ne by done. by apply core_ep_frame.
Qed.


(** ** Example states *)

(** Thread B runs, with a message of two words; A waits in the endpoint, in
    either direction. *)
Definition two_words : gmap Z Z := <[msgInfoRegister := seL4_MessageInfo_new 7 0 0 2]> (<[2 := 11]> (<[3 := 12]> ∅)).
Definition talker : tcb := set_tcbContext (fun _ => two_words) (mk_thread ThreadState_Running 200).
Definition meet_tcbs (waiter : tcb) : gmap Z tcb :=
  <[tcb_A := waiter]> (<[tcb_B := talker]> (<[idle_ptr := mk_thread ThreadState_IdleThreadState 0]> ∅)).
Definition meet_ctes : gmap Z cte :=
  <[TCB_PTR_CTE_PTR tcb_A tcbBuffer := null_cte]> (<[TCB_PTR_CTE_PTR tcb_B tcbBuffer := null_cte]> vtable_slots).
Definition s_meet (waiter : tcb) (st : endpoint_state) : kstate :=
  state_with meet_ctes (meet_tcbs waiter) (<[ep_ptr := mk_endpoint tcb_A tcb_A st]> ∅) ∅ tcb_B SchedulerAction_ResumeCurrentThread.
Definition q_meet : wobj -> list Z := updq (fun _ => []) (WEP ep_ptr) [tcb_A].

Lemma s_meet_kinv waiter st : blocked_on waiter = Some (WEP ep_ptr) -> ep_kind st = Some (tsType_of waiter) ->
  tcbEPNext waiter = 0 -> tcbEPPrev waiter = 0 ->
  map_Forall thread_fresh (meet_tcbs waiter) -> kinv (s_meet waiter st) (fun _ => []) q_meet.
Proof.
  intros Hb Hk Hnx Hpv Hfresh. assert (Hq : forall o, q_meet o = if decide (o = WEP ep_ptr) then [tcb_A] else []).
  { intros o. unfold q_meet, updq. repeat case_decide; naive_solver. }
  split.
  - apply empty_sched_inv; [done|by apply (bool_decide_unpack _); vm_compute|by eexists|by eexists|by left].
  - split; try done.
    + intros o. rewrite Hq. case_decide as Ho; cbn.
      * subst o. cbn. rewrite lookup_insert_eq. cbn. unfold ep_waiting. cbn. split_and!; [done|by rewrite Hk|].
        intros x ->%list_elem_of_singleton. exists waiter. cbn. rewrite Hk. split_and!; [|done|done]. by unfold meet_tcbs; rewrite lookup_insert_eq.
      * destruct o as [a|a]; cbn; [|done]. rewrite lookup_insert_ne by congruence. done.
    + intros o. rewrite Hq. case_decide; [|apply dlist_nil]. apply dlist_singleton; [done|by unfold tlink; cbn; unfold meet_tcbs; rewrite lookup_insert_eq..].
    + intros x t o Hx Hbt. right. cbn in Hx. unfold meet_tcbs in Hx.
      apply lookup_insert_Some in Hx as [[<- <-]|[_ Hx]]; [rewrite Hb in Hbt; injection Hbt as <-; rewrite Hq; by left|].
      apply lookup_insert_Some in Hx as [[<- <-]|[_ Hx]]; [done|].
      apply lookup_insert_Some in Hx as [[<- <-]|[_ Hx]]; [done|]. by rewrite lookup_empty in Hx.
    + intros x o Hx. set_solver.
Qed.

Lemma no_buffer waiter st b x : x = tcb_A \/ x = tcb_B -> buffer_of (s_meet waiter st) b x = 0.
Proof. by intros [->| ->]. Qed.

Definition listener : tcb := as_receiver ep_ptr true (mk_thread ThreadState_Running 100).
Definition caller : tcb :=
  as_sender ep_ptr 5 false false false (set_tcbContext (fun _ => two_words) (mk_thread ThreadState_Running 100)).

Lemma two_words_info : messageInfoFromWord (seL4_MessageInfo_new 7 0 0 2) = seL4_MessageInfo_new 7 0 0 2.
Proof. reflexivity. Qed.

Lemma meet_can_send waiter st sender x canGrant ts :
  ksTCBs (s_meet waiter st) !! sender = Some ts -> sender <> x -> tcbFault ts = seL4_Fault_NullFault -> tcbContext ts = two_words ->
  sender = tcb_A \/ sender = tcb_B -> x = tcb_A \/ x = tcb_B -> can_send (s_meet waiter st) sender x canGrant ts.
Proof.
  intros Hs Hne Hf Hc Hsd Hx. assert (Er : reg ts msgInfoRegister = seL4_MessageInfo_new 7 0 0 2) by (unfold reg; by rewrite Hc).
  assert (El : seL4_MessageInfo_get_length (seL4_MessageInfo_new 7 0 0 2) = 2) by reflexivity.
  split; [by split|done| | | |]; rewrite ?Er, ?two_words_info.
  - by destruct Hsd as [->| ->], Hx as [->| ->]; split; eexists.
  - split; [by vm_compute|by vm_compute].
  - by right.
  - cbv zeta. rewrite El. unfold n_msgRegisters. intros i j Hi. lia.
Qed.


