(* ===== verification/VSpaceThm.v ===== *)
(** * Theorems on address spaces

    [hw_walk] is the translation the hardware makes of a user address
    (AArch64, 4 KiB granule, four levels).  The kernel's software walk agrees
    with it on well-formed tables; mapping and unmapping a frame change the
    translation of exactly the addresses of the frame; an identifier that is
    deleted names no address space. *)
From S2P Require Import Prelude Dll Structures CapOps CSpace VSpace Sched DomSched ReadyQueue Schedule SchedOps Mdb Messages Objects Delete Untyped UntypedOps CNodeInv MmuInv Concrete.
From stdpp Require Import base list gmap.
#[local] Open Scope Z_scope.

(** ** The hardware walk *)

(** The bits an entry [n] levels above the last table translates. *)
Definition level_bits (n : nat) : Z := seL4_PageBits + PT_INDEX_BITS * Z.of_nat n.

(** The entry of table [t] for address [v]. *)
Definition pt_slot (t v : Z) (n : nat) : Z := pte_offset t ((v / 2 ^ level_bits n) mod 2 ^ PT_INDEX_BITS).

Definition page_at (f : page_fields) (v : Z) (n : nat) : Z * page_fields :=
  (page_base_address f + v mod 2 ^ level_bits n, f).

(** A descriptor of hardware type 3 is a table above the last level and a page
    at the last; its access flag is clear when the software type is a table,
    so using it as a page faults.  Blocks exist at the two middle levels. *)
Fixpoint hw_walk (m : gmap Z pte) (v : Z) (n : nat) (t : Z) : option (Z * page_fields) :=
  match m !! pt_slot t v n with
  | Some (pte_table b) => match n with O => None | S n' => hw_walk m v n' (ptrFromPAddr b) end
  | Some (pte_4k_page f) =>
      match n with O => Some (page_at f v 0) | S n' => hw_walk m v n' (ptrFromPAddr (page_base_address f)) end
  | Some (pte_page f) => match n with S O | S (S O) => Some (page_at f v n) | _ => None end
  | _ => None
  end.

Definition top_level : nat := Z.to_nat (UPT_LEVELS - 1).

(** The physical address and the attributes of [v] in the space rooted at
    [root]. *)
Definition translate (s : kstate) (root v : Z) : option (Z * page_fields) :=
  hw_walk (ksPTEs s) v top_level root.

Definition user_addr (v : Z) : Prop := 0 <= v < 2 ^ level_bits (S top_level).

(** ** Well-formed tables *)
Definition entry_level_ok (e : pte) (n : nat) : Prop :=
  match e with
  | pte_invalid => True
  | pte_table _ => (0 < n)%nat
  | pte_page _ => n = 1%nat \/ n = 2%nat
  | pte_4k_page _ => n = O
  end.

(** The kernel's walk: level, address and value of the last entry read. *)
Fixpoint sw_walk (m : gmap Z pte) (v : Z) (n : nat) (t : Z) : option (nat * Z * pte) :=
  match m !! pt_slot t v n with
  | Some (pte_table b) =>
      match n with O => Some (n, pt_slot t v n, pte_table b) | S n' => sw_walk m v n' (ptrFromPAddr b) end
  | Some e => Some (n, pt_slot t v n, e)
  | None => None
  end.

(** The entries read for [v], with their levels. *)
Fixpoint path (m : gmap Z pte) (v : Z) (n : nat) (t : Z) : list (nat * Z) :=
  (n, pt_slot t v n) ::
  match n with
  | O => []
  | S n' => match m !! pt_slot t v n with Some (pte_table b) => path m v n' (ptrFromPAddr b) | _ => [] end
  end.

(** The walk ends at an existing entry of a type that its level allows. *)
Definition walk_ok (m : gmap Z pte) (v : Z) (n : nat) (t : Z) : Prop :=
  exists k slot e, sw_walk m v n t = Some (k, slot, e) /\ entry_level_ok e k.

(** The address spaces rooted in [R]: every walk ends well, and no entry is
    reached from two roots or for two addresses that differ above its level. *)
Record vspaces_ok (m : gmap Z pte) (R : Z -> Prop) : Prop := {
  vs_walk : forall r v, R r -> user_addr v -> walk_ok m v top_level r;
  vs_unshared : forall r r' v w k l slot, R r -> R r' -> user_addr v -> user_addr w ->
    (k, slot) ∈ path m v top_level r -> (l, slot) ∈ path m w top_level r' ->
    r = r' /\ k = l /\ v / 2 ^ level_bits k = w / 2 ^ level_bits k
}.

(** ** The walk of the kernel *)
Definition is_leaf (e : pte) : Prop := forall b, e <> pte_table b.

Definition leaf_value (e : pte) (w : Z) (k : nat) : option (Z * page_fields) :=
  match e with pte_page f | pte_4k_page f => Some (page_at f w k) | _ => None end.

Lemma sw_walk_spec m v n t k slot e :
  sw_walk m v n t = Some (k, slot, e) -> entry_level_ok e k ->
  m !! slot = Some e /\ is_leaf e /\ (k <= n)%nat /\ (k, slot) ∈ path m v n t.
Proof.
  revert t. induction n as [|n IH]; intros t Hw Hl; cbn [sw_walk path] in *;
    destruct (m !! pt_slot _ _ _) as [e0|] eqn:He; try done.
  - destruct e0; injection Hw as <- <- <-; cbn in Hl; try lia; split_and!; first [done | lia | by left].
  - destruct e0 as [|b|f|f]; try (injection Hw as <- <- <-; split_and!; first [done | lia | by left]).
    destruct (IH _ Hw Hl) as (? & ? & ? & ?). split_and!; [done|done|lia|by right].
Qed.

(** The software walk ends where the hardware's does. *)
Lemma hw_sw_walk m v n t k slot e :
  sw_walk m v n t = Some (k, slot, e) -> entry_level_ok e k -> (n <= top_level)%nat ->
  hw_walk m v n t = leaf_value e v k.
Proof.
  revert t. induction n as [|n IH]; intros t Hw Hl Hn; cbn [sw_walk hw_walk] in *;
    destruct (m !! pt_slot _ _ _) as [e0|]; try done.
  - destruct e0; injection Hw as <- <- <-; cbn in Hl; done || lia.
  - destruct e0 as [|b|f|f]; try (injection Hw as <- <- <-); cbn in Hl; try done.
    + apply IH; [done|done|lia].
    + destruct Hl as [Hl|Hl]; injection Hl as ->; done.
Qed.

Lemma level_bits_bound n : (n <= S top_level)%nat -> 12 <= level_bits n <= 48.
Proof. unfold level_bits. change seL4_PageBits with 12. change PT_INDEX_BITS with 9. change (S top_level) with 4%nat. lia. Qed.

Lemma land_pt_index v n :
  Z.land (Z.shiftr v (level_bits n)) (MASK PT_INDEX_BITS) = (v / 2 ^ level_bits n) mod 2 ^ PT_INDEX_BITS.
Proof.
  rewrite land_MASK by done. rewrite Z.shiftr_div_pow2; [done|].
  unfold level_bits. change seL4_PageBits with 12. change PT_INDEX_BITS with 9. lia.
Qed.

Lemma wp_lookupPTSlot_loop s v Q k slot e n : forall fuel t,
  (n < fuel)%nat -> (n <= top_level)%nat -> sw_walk (ksPTEs s) v n t = Some (k, slot, e) ->
  Q (mk_lookupPTSlot_ret slot (level_bits k)) s ->
  wp (lookupPTSlot_loop fuel (Z.of_nat n) v (pt_slot t v n) (level_bits n)) Q s.
Proof.
  induction n as [|n IH]; intros fuel t Hf Hn Hw HQ; (destruct fuel as [|fuel]; [lia|]);
    cbn [sw_walk] in Hw; destruct (ksPTEs s !! pt_slot _ _ _) as [e0|] eqn:He; try done;
    cbn [lookupPTSlot_loop]; wp_struct; (eapply wp_getPTE; [exact He|]).
  - destruct e0; injection Hw as <- <- <-; by apply wp_ret.
  - destruct e0 as [|b|f|f]; try (injection Hw as <- <- <-; by apply wp_ret).
    change (0 <? Z.of_nat (S n)) with true. cbv iota zeta.
    replace (Z.of_nat (S n) - 1) with (Z.of_nat n) by lia.
    pose proof (level_bits_bound n ltac:(lia)).
    assert (Hb : wsub (level_bits (S n)) PT_INDEX_BITS = level_bits n).
    { rewrite wsub_small; unfold level_bits in *; change PT_INDEX_BITS with 9 in *;
        [lia|unfold is_word, word_modulus; lia]. }
    rewrite Hb, land_pt_index. apply IH; [lia|lia|exact Hw|exact HQ].
Qed.

Lemma wp_lookupPTSlot s root v Q k slot e :
  sw_walk (ksPTEs s) v top_level root = Some (k, slot, e) ->
  Q (mk_lookupPTSlot_ret slot (level_bits k)) s ->
  wp (lookupPTSlot root v) Q s.
Proof.
  intros Hw HQ. unfold lookupPTSlot.
  change (PT_INDEX_BITS * (UPT_LEVELS - 1) + seL4_PageBits) with (level_bits top_level).
  change (MASK seL4_VSpaceIndexBits) with (MASK PT_INDEX_BITS). rewrite land_pt_index.
  change (UPT_LEVELS - 1) with (Z.of_nat top_level).
  eapply wp_lookupPTSlot_loop; [by vm_compute|lia|exact Hw|exact HQ].
Qed.

(** C23: Page-table lookup always ends within the four levels, at the entry
    where the hardware's translation of the address ends: the address is
    mapped exactly if the entry returned is a page, the physical address is the
    entry's base plus the low [ptBitsLeft] bits, and the attributes are the
    entry's. *)
Theorem lookupPTSlot_translate s root v :
  vspaces_ok (ksPTEs s) (eq root) -> user_addr v ->
  wp (lookupPTSlot root v) (fun r s' => s' = s /\ exists k e,
    (k <= top_level)%nat /\ ptBitsLeft r = level_bits k /\ ksPTEs s !! ptSlot r = Some e /\
    translate s root v = leaf_value e v k) s.
Proof.
  intros Hok Hv. destruct (vs_walk _ _ Hok root v eq_refl Hv) as (k & slot & e & Hw & Hl).
  destruct (sw_walk_spec _ _ _ _ _ _ _ Hw Hl) as (Hm & _ & Hk & _).
  eapply wp_lookupPTSlot; [exact Hw|]. split; [done|]. exists k, e. split_and!; [done..|].
  unfold translate. by eapply hw_sw_walk.
Qed.

(** ** Changing an entry *)

Lemma div_pow2_mono v w a b : 0 <= a <= b -> v / 2 ^ a = w / 2 ^ a -> v / 2 ^ b = w / 2 ^ b.
Proof.
  intros Hab H. replace b with (a + (b - a)) by lia. rewrite Z.pow_add_r by lia.
  assert (0 < 2 ^ a) by (apply Z.pow_pos_nonneg; lia).
  assert (0 < 2 ^ (b - a)) by (apply Z.pow_pos_nonneg; lia).
  rewrite <- (Z.div_div v), <- (Z.div_div w) by lia. by rewrite H.
Qed.

Lemma level_bits_mono k n : (k <= n)%nat -> 0 <= level_bits k <= level_bits n.
Proof. unfold level_bits. change seL4_PageBits with 12. change PT_INDEX_BITS with 9. lia. Qed.

Lemma pt_slot_prefix t v w k n :
  (k <= n)%nat -> v / 2 ^ level_bits k = w / 2 ^ level_bits k -> pt_slot t v n = pt_slot t w n.
Proof. intros Hk H. unfold pt_slot. by rewrite (div_pow2_mono v w _ _ (level_bits_mono k n Hk) H). Qed.

Lemma path_level m v n t k slot : (k, slot) ∈ path m v n t -> (k <= n)%nat.
Proof.
  revert t. induction n as [|n IH]; intros t; cbn [path]; rewrite elem_of_cons.
  - intros [H|H]; [injection H; lia|by apply elem_of_nil in H].
  - intros [H|H]; [injection H; lia|].
    destruct (m !! pt_slot _ _ _) as [[]|]; try (by apply elem_of_nil in H). apply IH in H. lia.
Qed.

(** The path only depends on the bits above its level. *)
Lemma path_prefix m v w n t k slot :
  v / 2 ^ level_bits k = w / 2 ^ level_bits k -> (k, slot) ∈ path m v n t -> (k, slot) ∈ path m w n t.
Proof.
  intros Hp. revert t. induction n as [|n IH]; intros t H; pose proof (path_level _ _ _ _ _ _ H) as Hk;
    cbn [path] in *; rewrite (pt_slot_prefix t v w k) in H by done; [done|].
  apply elem_of_cons in H as [H|H]; apply elem_of_cons; [by left|right].
  destruct (m !! pt_slot _ _ _) as [[]|]; try done. by apply IH.
Qed.

Lemma leaf_match {A} e (f : Z -> A) (g : pte -> A) : is_leaf e ->
  match e with pte_table b => f b | e' => g e' end = g e.
Proof. intros Hl. destruct e as [|b|f'|f']; try done. by destruct (Hl b). Qed.

Section Update.
Context (m : gmap Z pte) (slot : Z) (e0 e : pte).
Hypothesis Hm : m !! slot = Some e0.
Hypotheses (Hl0 : is_leaf e0) (Hl : is_leaf e).

Lemma path_update w n t : path (<[slot := e]> m) w n t = path m w n t.
Proof.
  revert t. induction n as [|n IH]; intros t; cbn [path]; f_equal.
  destruct (decide (pt_slot t w (S n) = slot)) as [->|Hne].
  - rewrite lookup_insert_eq, Hm. by rewrite !(leaf_match _ _ (fun _ => [])).
  - rewrite lookup_insert_ne by done. destruct (m !! pt_slot _ _ _) as [[]|]; done.
Qed.

Lemma sw_walk_update w n t k slot' e' :
  sw_walk m w n t = Some (k, slot', e') ->
  sw_walk (<[slot := e]> m) w n t =
    Some (if decide (slot' = slot) then (k, slot, e) else (k, slot', e')).
Proof.
  revert t. induction n as [|n IH]; intros t Hw; cbn [sw_walk] in *;
    match goal with |- context [pt_slot t w ?j] => destruct (decide (pt_slot t w j = slot)) as [Heq|Hne] end;
    first [rewrite Heq, Hm in Hw; rewrite Heq, lookup_insert_eq | rewrite lookup_insert_ne by done].
  - rewrite (leaf_match e0 _ (fun e1 => Some (O, slot, e1))) in Hw by done. injection Hw as <- <- <-.
    rewrite (leaf_match e _ (fun e1 => Some (O, slot, e1))) by done. by rewrite decide_True.
  - destruct (m !! pt_slot _ _ _) as [[]|]; try done; injection Hw as <- <- <-; by rewrite decide_False.
  - rewrite (leaf_match e0 _ (fun e1 => Some (S n, slot, e1))) in Hw by done. injection Hw as <- <- <-.
    rewrite (leaf_match e _ (fun e1 => Some (S n, slot, e1))) by done. by rewrite decide_True.
  - destruct (m !! pt_slot _ _ _) as [[]|]; try done; try (injection Hw as <- <- <-; by rewrite decide_False).
    by apply IH.
Qed.

Context (R : Z -> Prop) (root v : Z) (k : nat).
Hypothesis Hok : vspaces_ok m R.
Hypotheses (Hr : R root) (Hv : user_addr v).
Hypothesis Hw : sw_walk m v top_level root = Some (k, slot, e0).
Hypothesis Hk : entry_level_ok e k.

Lemma slot_path : (k, slot) ∈ path m v top_level root.
Proof.
  destruct (vs_walk _ _ Hok root v Hr Hv) as (k1 & s1 & e1 & Hw1 & Hlv). rewrite Hw in Hw1.
  injection Hw1 as <- <- <-. by destruct (sw_walk_spec _ _ _ _ _ _ _ Hw Hlv) as (_ & _ & _ & ?).
Qed.

(** The walks that end at the entry are those of its addresses. *)
Lemma slot_walk r w k' slot' e' :
  R r -> user_addr w -> sw_walk m w top_level r = Some (k', slot', e') -> entry_level_ok e' k' ->
  slot' = slot <-> r = root /\ w / 2 ^ level_bits k = v / 2 ^ level_bits k.
Proof.
  intros Hr' Hu Hww Hl'. pose proof slot_path as Hp.
  destruct (sw_walk_spec _ _ _ _ _ _ _ Hww Hl') as (Hm' & _ & _ & Hp'). split.
  - intros ->. by destruct (vs_unshared _ _ Hok r root w v k' k slot) as (-> & -> & ?).
  - intros [-> Hpre]. eapply path_prefix in Hp; [|symmetry; exact Hpre].
    revert Hww Hp. generalize root. generalize top_level. induction n as [|n IH]; intros t Hww Hp;
      cbn [sw_walk path] in *.
    + apply list_elem_of_singleton in Hp. injection Hp as _ Hs. rewrite <- Hs, Hm in Hww.
      rewrite (leaf_match e0 _ (fun e1 => Some (O, slot, e1))) in Hww by done. by injection Hww as <- <- <-.
    + apply elem_of_cons in Hp as [Hp|Hp].
      * injection Hp as _ Hs. rewrite <- Hs, Hm in Hww.
        rewrite (leaf_match e0 _ (fun e1 => Some (S n, slot, e1))) in Hww by done. by injection Hww as <- <- <-.
      * destruct (m !! pt_slot _ _ _) as [[]|]; try (by apply elem_of_nil in Hp). by apply (IH _ Hww).
Qed.

Lemma slot_level r w k' e' :
  R r -> user_addr w -> sw_walk m w top_level r = Some (k', slot, e') -> entry_level_ok e' k' -> k' = k.
Proof.
  intros Hr' Hu Hww Hl'. destruct (sw_walk_spec _ _ _ _ _ _ _ Hww Hl') as (_ & _ & _ & Hp').
  by destruct (vs_unshared _ _ Hok r root w v k' k slot Hr' Hr Hu Hv Hp' slot_path) as (_ & ? & _).
Qed.

(** The translation of exactly the addresses of the entry changes. *)
Lemma update_translate r w : R r -> user_addr w ->
  hw_walk (<[slot := e]> m) w top_level r =
    if decide (r = root /\ w / 2 ^ level_bits k = v / 2 ^ level_bits k) then leaf_value e w k
    else hw_walk m w top_level r.
Proof.
  intros Hr' Hu. destruct (vs_walk _ _ Hok r w Hr' Hu) as (k' & slot' & e' & Hw' & Hl').
  pose proof (slot_walk r w k' slot' e' Hr' Hu Hw' Hl') as Hiff.
  pose proof (sw_walk_update w _ _ _ _ _ Hw') as Hw2.
  rewrite (hw_sw_walk m w _ _ _ _ _ Hw' Hl') by done.
  destruct (decide (slot' = slot)) as [->|Hne].
  - rewrite decide_True by by apply Hiff. rewrite (slot_level r w k' e') in * by done.
    by eapply hw_sw_walk.
  - rewrite decide_False by (rewrite <- Hiff; done). by eapply hw_sw_walk.
Qed.

Lemma update_vspaces_ok : vspaces_ok (<[slot := e]> m) R.
Proof.
  split.
  - intros r w Hr' Hu. destruct (vs_walk _ _ Hok r w Hr' Hu) as (k' & slot' & e' & Hw' & Hl').
    pose proof (sw_walk_update w _ _ _ _ _ Hw') as Hw2. destruct (decide (slot' = slot)) as [->|Hne].
    + exists k', slot, e. split; [done|]. by rewrite (slot_level r w k' e').
    + by exists k', slot', e'.
  - intros r1 r2 w1 w2 k1 k2 slot' ????. rewrite !path_update. by apply (vs_unshared _ _ Hok).
Qed.
End Update.

(** ** Mapping and unmapping a frame *)

(** The attributes of a user mapping. *)
Definition user_page (paddr : Z) (r : vm_rights) (attributes : Z) : page_fields :=
  mk_page_fields (vm_attributes_get_armExecuteNever attributes) paddr 1 1 0 (APFromVMRights r)
    (if vm_attributes_get_armPageCacheable attributes then NORMAL else DEVICE_nGnRnE).

Definition frame_paddr (p : Z) : Prop := 0 <= p < 2 ^ 48 /\ p mod 2 ^ 12 = 0.

Lemma frame_paddr_mask p : frame_paddr p -> Z.land p PTE_ADDR_MASK = p.
Proof.
  intros [Hp Ha]. change PTE_ADDR_MASK with (Z.shiftl (Z.ones 36) 12).
  assert (Hq : p = Z.shiftl (p / 2 ^ 12) 12).
  { rewrite Z.shiftl_mul_pow2 by done. pose proof (Z.div_mod p (2 ^ 12)). lia. }
  rewrite Hq at 1. rewrite <- Z.shiftl_land, Z.land_ones by done.
  rewrite Z.mod_small; [done|]. split; [apply Z.div_pos; lia|].
  apply Z.div_lt_upper_bound; [done|]. lia.
Qed.

Lemma makeUserPagePTE_leaf p r a sz k :
  frame_paddr p -> level_bits k = pageBitsForSize sz ->
  let e := makeUserPagePTE p r a sz in
  is_leaf e /\ entry_level_ok e k /\ pte_is_page_type e = true /\
  (forall w, leaf_value e w k = Some (page_at (user_page p r a) w k)) /\
  pte_get_page_base_address e = ret p.
Proof.
  intros Hp Hb. unfold level_bits in Hb. change seL4_PageBits with 12 in Hb. change PT_INDEX_BITS with 9 in Hb.
  unfold makeUserPagePTE, pte_pte_4k_page_new, pte_pte_page_new, page_fields_new.
  rewrite (frame_paddr_mask p Hp).
  destruct sz; unfold pageBitsForSize, seL4_PageBits, seL4_LargePageBits, seL4_HugePageBits in Hb; (split; [intros b; discriminate|]); (split; [cbn; lia|]); done.
Qed.

(** The spaces that identifiers name. *)
Definition mapped_root (s : kstate) (root : Z) : Prop := exists asid, asid_lookup s asid = asid_map_vspace root.

(** [w] is in the page of [v] of size [bits] in the space rooted at [root]. *)
Definition in_page (root v bits r w : Z) : Prop := r = root /\ w / 2 ^ bits = v / 2 ^ bits.
#[export] Instance in_page_dec root v bits r w : Decision (in_page root v bits r w).
Proof. unfold in_page. apply _. Defined.

(** The page tables after storing [e] in [slot]: the spaces stay well formed
    and exactly the addresses of [slot] are translated by [e]. *)
Definition entry_post (s : kstate) (R : Z -> Prop) (root v : Z) (sz : vm_page_size)
    (value : Z -> option (Z * page_fields)) (s' : kstate) : Prop :=
  vspaces_ok (ksPTEs s') R /\
  forall r w, R r -> user_addr w ->
    translate s' r w =
      if decide (in_page root v (pageBitsForSize sz) r w) then value w else translate s r w.

Lemma entry_post_intro s s' R root v sz k slot e0 e value :
  vspaces_ok (ksPTEs s) R -> R root -> user_addr v ->
  sw_walk (ksPTEs s) v top_level root = Some (k, slot, e0) -> level_bits k = pageBitsForSize sz ->
  is_leaf e -> entry_level_ok e k -> (forall w, leaf_value e w k = value w) ->
  ksPTEs s' = <[slot := e]> (ksPTEs s) -> entry_post s R root v sz value s'.
Proof.
  intros Hok Hr Hv Hw Hb Hl Hk Hval Hs'.
  destruct (vs_walk _ _ Hok root v Hr Hv) as (k1 & s1 & e1 & Hw1 & Hlv). rewrite Hw in Hw1.
  injection Hw1 as <- <- <-. destruct (sw_walk_spec _ _ _ _ _ _ _ Hw Hlv) as (Hm & Hl0 & _).
  split; rewrite ?Hs'.
  - by eapply update_vspaces_ok.
  - intros r w Hr' Hu. unfold translate. rewrite Hs'.
    rewrite (update_translate (ksPTEs s) slot e0 e Hm Hl0 Hl R root v k) by done.
    unfold in_page. rewrite Hb, Hval. done.
Qed.

Section Map.
Context (s : kstate) (R : Z -> Prop) (root v : Z) (k : nat) (slot : Z) (e0 : pte) (ct : cte).
Context (asid ctSlot basePtr : Z) (sz : vm_page_size) (r r0 : vm_rights) (attr : Z) (dev : bool).
Notation paddr := (addrFromPPtr basePtr).
Notation c := (cap_frame_cap asid basePtr sz v r0 dev).
Hypothesis Hok : vspaces_ok (ksPTEs s) R.
Hypotheses (Hr : R root) (Hv : user_addr v) (Hp : frame_paddr paddr) (Hasid : 0 <= asid < 2 ^ 16).
Hypothesis Hw : sw_walk (ksPTEs s) v top_level root = Some (k, slot, e0).
Hypothesis Hbits : level_bits k = pageBitsForSize sz.
Hypothesis Hct : ksCTEs s !! ctSlot = Some ct.
Notation e := (makeUserPagePTE paddr r attr sz).

Lemma slot_entry : ksPTEs s !! slot = Some e0.
Proof.
  destruct (vs_walk _ _ Hok root v Hr Hv) as (k1 & s1 & e1 & Hw1 & Hlv). rewrite Hw in Hw1.
  injection Hw1 as <- <- <-. by destruct (sw_walk_spec _ _ _ _ _ _ _ Hw Hlv).
Qed.

Lemma wp_performPageInvocationMap Q :
  (forall ops, Q EXCEPTION_NONE
     (set_ksMachine (fun _ => ops) (set_ksPTEs (insert slot e)
       (set_ksCTEs (insert ctSlot (set_cte_cap (fun _ => c) ct)) s)))) ->
  wp (performPageInvocationMap asid c ctSlot e slot) Q s.
Proof.
  intros HQ. unfold performPageInvocationMap. wp_struct. eapply wp_getPTE; [apply slot_entry|].
  wp_struct. unfold setCap. eapply wp_modCTE; [exact Hct|].
  wp_struct. eapply wp_putPTE; [exact slot_entry|]. wp_struct. apply wp_modify.
  wp_struct. destruct (pte_ptr_get_valid e0).
  - wp_struct. apply wp_assert; [apply Z.ltb_lt; change (BIT 16) with (2 ^ 16); lia|].
    apply wp_modify. wp_struct. apply (HQ (_ :: _ :: _)).
  - wp_struct. wp_struct. apply (HQ (_ :: _)).
Qed.
End Map.

(** The capability's frame is what [v] is mapped to, with the right size. *)
Definition mapped_here (s : kstate) (root v : Z) (sz : vm_page_size) (paddr : Z) : bool :=
  match sw_walk (ksPTEs s) v top_level root with
  | Some (k, _, pte_page f) | Some (k, _, pte_4k_page f) =>
      (level_bits k =? pageBitsForSize sz) && (page_base_address f =? paddr)
  | _ => false
  end.

Lemma wp_unmapPage s R root v sz asid pptr Q :
  vm_ok s -> asid_lookup s asid = asid_map_vspace root -> vspaces_ok (ksPTEs s) R -> R root ->
  user_addr v -> 0 <= asid < 2 ^ 16 ->
  (mapped_here s root v sz (addrFromPPtr pptr) = false -> Q tt s) ->
  (forall k slot e0 ops, mapped_here s root v sz (addrFromPPtr pptr) = true ->
     sw_walk (ksPTEs s) v top_level root = Some (k, slot, e0) -> level_bits k = pageBitsForSize sz ->
     Q tt (set_ksMachine (fun _ => ops) (set_ksPTEs (insert slot pte_invalid) s))) ->
  wp (unmapPage sz asid v pptr) Q s.
Proof.
  intros Hvm Has Hok Hr Hv Hasid Hno Hyes.
  destruct (vs_walk _ _ Hok root v Hr Hv) as (k & slot & e0 & Hw & Hl).
  destruct (sw_walk_spec _ _ _ _ _ _ _ Hw Hl) as (Hm & Hl0 & _).
  unfold unmapPage. wp_struct. apply wp_findVSpaceForASID; [exact Hvm| |congruence].
  intros r Hr0. rewrite Has in Hr0. injection Hr0 as <-.
  change (negb (is_none EXCEPTION_NONE)) with false. cbv iota.
  wp_struct. eapply wp_lookupPTSlot; [exact Hw|]. cbn [ptSlot ptBitsLeft].
  unfold mapped_here in Hno, Hyes. rewrite Hw in Hno, Hyes.
  destruct (Z.eqb_spec (level_bits k) (pageBitsForSize sz)) as [Hb|Hb]; cbn [negb].
  2:{ wp_struct. apply Hno. by destruct e0. }
  wp_struct. eapply wp_getPTE; [exact Hm|].
  assert (Hgo : forall f, page_base_address f = addrFromPPtr pptr ->
    (page_base_address f =? addrFromPPtr pptr) = true) by (intros; by apply Z.eqb_eq).
  destruct e0 as [|b|f|f]; cbn [pte_is_page_type negb]; try (wp_struct; by apply Hno);
    wp_struct; cbn [pte_get_page_base_address]; wp_struct;
    (destruct (Z.eqb_spec (page_base_address f) (addrFromPPtr pptr)) as [He|He]; cbn [negb];
      [|wp_struct; apply Hno; try rewrite Hb; by rewrite ?Z.eqb_refl]);
    wp_struct; (eapply wp_putPTE; [exact Hm|]); wp_struct; apply wp_modify;
    wp_struct; (apply wp_assert; [apply Z.ltb_lt; change (BIT 16) with (2 ^ 16); lia|]);
    apply wp_modify; refine (Hyes k slot _ (_ :: _ :: _) _ eq_refl Hb); done.
Qed.

(** C24: Mapping a frame gives the addresses of the page, and nothing else in
    any address space, a translation: to the frame's memory, at the same
    offset, with the rights and attributes asked for. *)
Theorem performPageInvocationMap_translate s R root v k slot e0 ct asid ctSlot basePtr sz r r0 attr dev :
  vspaces_ok (ksPTEs s) R -> R root -> user_addr v -> frame_paddr (addrFromPPtr basePtr) ->
  0 <= asid < 2 ^ 16 -> sw_walk (ksPTEs s) v top_level root = Some (k, slot, e0) ->
  level_bits k = pageBitsForSize sz -> ksCTEs s !! ctSlot = Some ct ->
  let paddr := addrFromPPtr basePtr in
  let c := cap_frame_cap asid basePtr sz v r0 dev in
  wp (performPageInvocationMap asid c ctSlot (makeUserPagePTE paddr r attr sz) slot)
    (fun ex s' => ex = EXCEPTION_NONE /\ cte_cap <$> ksCTEs s' !! ctSlot = Some c /\
      entry_post s R root v sz
        (fun w => Some (paddr + w mod 2 ^ pageBitsForSize sz, user_page paddr r attr)) s') s.
Proof.
  intros Hok Hr Hv Hp Has Hw Hb Hct paddr c.
  destruct (makeUserPagePTE_leaf paddr r attr sz k Hp Hb) as (Hl & Hk & _ & Hval & _).
  apply (wp_performPageInvocationMap s R root v k slot e0 ct); try done. intros ops.
  split_and!; [done|st_simpl; by rewrite lookup_insert_eq|].
  eapply entry_post_intro; [exact Hok|done|done|exact Hw|done|exact Hl|exact Hk| |reflexivity].
  intros w. rewrite Hval. unfold page_at. by rewrite Hb.
Qed.

(** C26: Unmapping a frame removes the translation of exactly the page's
    addresses if the frame is what is mapped there, and otherwise leaves every
    page table as it is. *)
Theorem unmapPage_translate s R root v sz asid pptr :
  vm_ok s -> asid_lookup s asid = asid_map_vspace root -> vspaces_ok (ksPTEs s) R -> R root ->
  user_addr v -> 0 <= asid < 2 ^ 16 ->
  wp (unmapPage sz asid v pptr) (fun _ s' =>
    if mapped_here s root v sz (addrFromPPtr pptr) then entry_post s R root v sz (fun _ => None) s'
    else ksPTEs s' = ksPTEs s) s.
Proof.
  intros Hvm Has Hok Hr Hv Hasid. apply (wp_unmapPage s R root); try done.
  - by intros ->.
  - intros k slot e0 ops -> Hw Hb.
    eapply entry_post_intro with (e := pte_invalid); [exact Hok|done|done|exact Hw|done|intros b; discriminate|done|done|reflexivity].
Qed.

(** C27: Mapping a frame at an unmapped page and unmapping it again restores
    every page table. *)
Theorem map_unmap_roundtrip s R root v k slot ct asid ctSlot basePtr sz r r0 attr dev :
  vm_ok s -> asid_lookup s asid = asid_map_vspace root ->
  vspaces_ok (ksPTEs s) R -> R root -> user_addr v -> frame_paddr (addrFromPPtr basePtr) ->
  0 < asid < 2 ^ 16 -> sw_walk (ksPTEs s) v top_level root = Some (k, slot, pte_invalid) ->
  level_bits k = pageBitsForSize sz -> ksCTEs s !! ctSlot = Some ct ->
  let c := cap_frame_cap asid basePtr sz v r0 dev in
  wp (performPageInvocationMap asid c ctSlot (makeUserPagePTE (addrFromPPtr basePtr) r attr sz) slot ;;;
      performPageInvocationUnmap c ctSlot) (fun ex s' =>
    ex = EXCEPTION_NONE /\ ksPTEs s' = ksPTEs s /\
    cte_cap <$> ksCTEs s' !! ctSlot = Some (cap_frame_cap asidInvalid basePtr sz 0 r0 dev)) s.
Proof.
  intros Hvm Has Hok Hr Hv Hp Hasid Hw Hb Hct c.
  pose proof (slot_entry s R root v k slot _ Hok Hr Hv Hw) as Hm.
  destruct (makeUserPagePTE_leaf (addrFromPPtr basePtr) r attr sz k Hp Hb) as (Hl & Hk & Hpage & _ & Hbase).
  set (e := makeUserPagePTE _ _ _ _) in *.
  wp_struct. apply (wp_performPageInvocationMap s R root v k slot pte_invalid ct); try done; [lia|]. intros ops.
  set (s1 := set_ksMachine _ _).
  assert (Hvm1 : vm_ok s1).
  { destruct Hvm as [Hs Hpools Hd]. split; [|exact Hpools|exact Hd]. intros x Hx.
    destruct (Hs x Hx) as [d Hx']. unfold s1. st_simpl.
    destruct (decide (ctSlot = TCB_PTR_CTE_PTR x tcbVTable)) as [<-|]; simplify_map_eq; eauto. }
  assert (Hok1 : vspaces_ok (ksPTEs s1) R) by (by eapply update_vspaces_ok).
  assert (Hw1 : sw_walk (ksPTEs s1) v top_level root = Some (k, slot, e)).
  { change (ksPTEs s1) with (<[slot := e]> (ksPTEs s)). rewrite (sw_walk_update _ _ _ _ Hm ltac:(intros b; discriminate) Hl v _ _ _ _ _ Hw).
    by rewrite decide_True. }
  unfold performPageInvocationUnmap, c.
  assert (Hslot1 : ksCTEs s1 !! ctSlot = Some (set_cte_cap (fun _ => c) ct)).
  { unfold s1. st_simpl. by rewrite lookup_insert_eq. }
  rewrite (proj2 (Z.eqb_neq asid 0)) by lia. cbn [negb].
  assert (Hhere : mapped_here s1 root v sz (addrFromPPtr basePtr) = true).
  { unfold mapped_here. rewrite Hw1. rewrite Hb, Z.eqb_refl. unfold e, makeUserPagePTE in *.
    destruct sz; cbn; rewrite (frame_paddr_mask _ Hp); by rewrite Z.eqb_refl. }
  wp_struct. apply (wp_unmapPage s1 R root); try done; [lia|congruence|].
  intros k' slot' e' ops' _ Hw' _. rewrite Hw1 in Hw'. injection Hw' as <- <- <-.
  wp_struct. eapply wp_modCTE; [exact Hslot1|]. wp_struct.
  split; [done|]. split; [|st_simpl; by rewrite lookup_insert_eq].
  unfold s1. st_simpl. rewrite insert_insert_eq. by rewrite insert_id.
Qed.

(** ** Identifiers *)
Definition is_asid (a : Z) : Prop := 0 <= a < 2 ^ 16.

Lemma asid_split a : is_asid a -> a = ASID_HIGH a * 2 ^ 9 + ASID_LOW a /\ 0 <= ASID_LOW a < 2 ^ 9.
Proof.
  unfold is_asid, ASID_HIGH, ASID_LOW. change asidLowBits with 9. intros Ha.
  rewrite land_MASK, Z.shiftr_div_pow2 by done.
  pose proof (Z.div_mod a (2 ^ 9)). pose proof (Z.mod_pos_bound a (2 ^ 9)). lia.
Qed.

(** [s] with another entry for identifier [asid]. *)
Definition set_asid (asid : Z) (e : asid_map) (s : kstate) : kstate :=
  let p := asid_table s (ASID_HIGH asid) in
  set_ksASIDPools (insert p (<[ASID_LOW asid := e]> (default ∅ (ksASIDPools s !! p)))) s.

Lemma set_asid_lookup s asid e a :
  vm_ok s -> asid_table s (ASID_HIGH asid) <> 0 -> is_asid asid -> is_asid a ->
  asid_lookup (set_asid asid e s) a = if decide (a = asid) then e else asid_lookup s a.
Proof.
  intros Hok Hp Hasid Ha. unfold asid_lookup.
  change (asid_table (set_asid asid e s) (ASID_HIGH a)) with (asid_table s (ASID_HIGH a)).
  assert (Hps : ksASIDPools (set_asid asid e s) = <[asid_table s (ASID_HIGH asid) :=
    <[ASID_LOW asid := e]> (default ∅ (ksASIDPools s !! asid_table s (ASID_HIGH asid)))]> (ksASIDPools s)) by done.
  rewrite Hps.
  destruct (decide (a = asid)) as [->|Hne].
  - rewrite (proj2 (Z.eqb_neq _ _) Hp), lookup_insert_eq. cbn. unfold pool_entry. by rewrite lookup_insert_eq.
  - destruct (Z.eqb_spec (asid_table s (ASID_HIGH a)) 0) as [|Hpa]; [done|].
    destruct (decide (asid_table s (ASID_HIGH a) = asid_table s (ASID_HIGH asid))) as [Heq|Hneq].
    + apply (vm_distinct s Hok) in Heq as Hh; [|done]. rewrite Heq, lookup_insert_eq. cbn. unfold pool_entry.
      rewrite lookup_insert_ne; [done|]. intros Hl. apply Hne.
      destruct (asid_split a Ha), (asid_split asid Hasid). lia.
    + by rewrite lookup_insert_ne.
Qed.

Lemma set_asid_vm s asid e : vm_ok s -> asid_table s (ASID_HIGH asid) <> 0 -> vm_ok (set_asid asid e s).
Proof.
  intros [Hs Hpools Hd] Hp. split; [exact Hs| |exact Hd]. intros i Hi. unfold set_asid. st_simpl.
  change (asid_table (set_asid asid e s) i) with (asid_table s i) in *.
  destruct (decide (asid_table s (ASID_HIGH asid) = asid_table s i)) as [->|];
    [rewrite lookup_insert_eq; eauto|rewrite lookup_insert_ne by done; by apply Hpools].
Qed.

(** C28: Deleting an identifier removes exactly its own entry, and only if it
    names the given root; otherwise nothing changes.  The translations cached
    for it are then flushed under the low eight bits of the identifier, and
    after that the address space of the current thread is installed again, as [vmroot_op] reads it from the state
    after the deletion: the root its capability maps if its identifier still
    leads there, the empty root otherwise, so also when it is the deleted one.
    Neither the slots, the page tables, the threads nor the current thread
    change. *)
Theorem deleteASID_spec s asid vspace :
  vm_ok s -> is_asid asid -> is_Some (ksTCBs s !! ksCurThread s) ->
  let hit := bool_decide (asid_lookup s asid = asid_map_vspace vspace) in
  wp (deleteASID asid vspace) (fun _ s' =>
    vm_ok s' /\ ksPTEs s' = ksPTEs s /\ ksCTEs s' = ksCTEs s /\ ksTCBs s' = ksTCBs s /\
    ksCurThread s' = ksCurThread s /\
    (forall a, is_asid a ->
       asid_lookup s' a = if hit && bool_decide (a = asid) then asid_map_none else asid_lookup s a) /\
    (if hit then ksMachine s' =
       vmroot_op s' (ksCurThread s) :: op_invalidateTranslationASID (asid mod 2 ^ 8) :: ksMachine s
     else s' = s)) s.
Proof.
  intros Hok Ha Hcur hit. unfold deleteASID. do 2 wp_struct.
  assert (Hmiss : asid_lookup s asid <> asid_map_vspace vspace ->
    vm_ok s /\ ksPTEs s = ksPTEs s /\ ksCTEs s = ksCTEs s /\ ksTCBs s = ksTCBs s /\
    ksCurThread s = ksCurThread s /\
    (forall a, is_asid a -> asid_lookup s a =
       if hit && bool_decide (a = asid) then asid_map_none else asid_lookup s a) /\
    (if hit then ksMachine s =
       vmroot_op s (ksCurThread s) :: op_invalidateTranslationASID (asid mod 2 ^ 8) :: ksMachine s
     else s = s)).
  { intros Hn. unfold hit. by rewrite bool_decide_false. }
  unfold asid_lookup in Hmiss at 1. destruct (Z.eqb_spec (asid_table s (ASID_HIGH asid)) 0) as [H0|H0].
  { wp_struct. by apply Hmiss. }
  destruct (vm_pools s Hok _ H0) as [pool Hpool]. rewrite Hpool in Hmiss. cbn in Hmiss.
  wp_struct. eapply wp_getPool; [exact Hpool|].
  destruct (pool_entry pool (ASID_LOW asid)) as [|root] eqn:He; [wp_struct; by apply Hmiss|].
  destruct (Z.eqb_spec root vspace) as [->|Hne]; [|wp_struct; apply Hmiss; congruence]. clear Hmiss.
  assert (Hhit : hit = true).
  { apply bool_decide_eq_true. unfold asid_lookup. rewrite (proj2 (Z.eqb_neq _ _) H0), Hpool. exact He. }
  rewrite Hhit. wp_struct. apply wp_modify. do 2 wp_struct. do 2 wp_struct.
  set (s1 := set_ksASIDPools _ _).
  assert (Hs1 : s1 = set_asid asid asid_map_none
    (set_ksMachine (cons (op_invalidateTranslationASID (asid mod 2 ^ 8))) s)).
  { unfold s1, set_asid, asid_table. st_simpl. fold (asid_table s (ASID_HIGH asid)). by rewrite Hpool. }
  set (s0 := set_ksMachine _ s) in Hs1.
  assert (Hok0 : vm_ok s0) by (by eapply vm_ok_same; [..|exact Hok]).
  assert (Hok1 : vm_ok s1) by (rewrite Hs1; by apply set_asid_vm).
  assert (Hlook : forall a, is_asid a ->
    asid_lookup s1 a = if bool_decide (a = asid) then asid_map_none else asid_lookup s a).
  { intros a Ha'. rewrite Hs1, (set_asid_lookup s0) by done. case_decide; case_bool_decide; done. }
  apply (wp_setVMRoot_op s1 Hok1); [exact Hcur|].
  split_and!; [|done|done|done|done|exact Hlook|by f_equal; symmetry; apply vmroot_same].
  by eapply vm_ok_same; [..|exact Hok1].
Qed.

(** ** Mapping through the invocation *)

Lemma wp_restart_current s t Q :
  ksTCBs s !! ksCurThread s = Some t ->
  (forall a t', Q tt (set_ksSchedulerAction (fun _ => a) (set_ksTCBs (insert (ksCurThread s) t') s))) ->
  wp restart_current Q s.
Proof.
  intros Ht HQ. unfold restart_current, setThreadState. do 2 wp_struct. wp_struct.
  eapply wp_modTCB; [exact Ht|]. apply wp_scheduleTCB; [st_simpl; rewrite lookup_insert_eq; eauto|]. apply HQ.
Qed.

(** A page of user addresses. *)
Definition user_page_range (v : Z) (sz : vm_page_size) : Prop :=
  0 <= v /\ v + 2 ^ pageBitsForSize sz - 1 <= USER_TOP.

(** The least rights of a capability whose frame can be mapped with [f]. *)
Definition rights_cover (r0 : vm_rights) (f : page_fields) : Prop :=
  (pte_AP f = 0 \/ (pte_AP f = 1 /\ r0 = VMReadWrite) \/ (pte_AP f = 3 /\ r0 <> VMKernelOnly)).

Lemma maskVMRights_cover r0 mask p attr : rights_cover r0 (user_page p (maskVMRights r0 mask) attr).
Proof.
  unfold rights_cover, user_page, maskVMRights. cbn.
  destruct r0; cbn; repeat case_match; cbn; simplify_eq; try tauto; right; right; split; done.
Qed.

Lemma page_bits_bound sz : 12 <= pageBitsForSize sz <= 30.
Proof. by destruct sz. Qed.

(** The range check of the decoder is exact although it wraps. *)
Lemma range_check v sz :
  is_word v -> checkVPAlignment sz v = true ->
  (USER_TOP <? wsub (wadd v (BIT (pageBitsForSize sz))) 1) = false -> user_page_range v sz.
Proof.
  intros Hv Ha Hc. pose proof (page_bits_bound sz) as Hb. apply Z.ltb_ge in Hc.
  unfold checkVPAlignment in Ha. rewrite land_MASK in Ha by (unfold wordBits; lia). apply Z.eqb_eq in Ha.
  rewrite BIT_pow in Hc by (unfold wordBits; lia). unfold is_word, word_modulus in *.
  set (B := 2 ^ pageBitsForSize sz) in *.
  assert (HB : 0 < B <= 2 ^ 30).
  { split; [apply Z.pow_pos_nonneg; lia|]. apply Z.pow_le_mono_r; lia. }
  assert (Hle : v + B <= 2 ^ 64).
  { assert (Hd : 2 ^ 64 = 2 ^ (64 - pageBitsForSize sz) * B).
    { unfold B. rewrite <- Z.pow_add_r by lia. f_equal. lia. }
    assert (v / B < 2 ^ (64 - pageBitsForSize sz)) by (apply Z.div_lt_upper_bound; [lia|]; rewrite Z.mul_comm, <- Hd; lia).
    pose proof (Z.div_mod v B ltac:(lia)). nia. }
  assert (Hw : wsub (wadd v B) 1 = v + B - 1).
  { unfold wsub, wadd, wrap, word_modulus. rewrite Zminus_mod_idemp_l. apply Z.mod_small. lia. }
  rewrite Hw in Hc. unfold user_page_range. fold B. lia.
Qed.

Lemma range_user v sz : user_page_range v sz -> user_addr v.
Proof.
  unfold user_page_range, user_addr. change (level_bits (S top_level)) with 48.
  pose proof (page_bits_bound sz). change USER_TOP with (2 ^ 47 - 1). intros [??].
  assert (0 < 2 ^ pageBitsForSize sz) by (apply Z.pow_pos_nonneg; lia). lia.
Qed.

Lemma in_page_range v sz w :
  user_page_range v sz -> v mod 2 ^ pageBitsForSize sz = 0 ->
  w / 2 ^ pageBitsForSize sz = v / 2 ^ pageBitsForSize sz -> w <= USER_TOP.
Proof.
  intros [_ Hr] Ha He. pose proof (page_bits_bound sz). set (B := 2 ^ pageBitsForSize sz) in *.
  assert (0 < B) by (apply Z.pow_pos_nonneg; lia).
  pose proof (Z.div_mod w B ltac:(lia)). pose proof (Z.div_mod v B ltac:(lia)).
  pose proof (Z.mod_pos_bound w B ltac:(lia)). nia.
Qed.

Section FrameMap.
Context (s : kstate) (R : Z -> Prop) (t : tcb) (cte basePtr mapped frame_asid buffer : Z) (ctc : Structures.cte).
Context (sz : vm_page_size) (r0 : vm_rights) (dev : bool).
Notation c := (cap_frame_cap frame_asid basePtr sz mapped r0 dev).

(** The state a decoder starts from. *)
Record decode_ok : Prop := {
  do_vm : vm_ok s;
  do_spaces : vspaces_ok (ksPTEs s) R;
  do_roots : forall a root, asid_lookup s a = asid_map_vspace root -> R root;
  do_thread : ksTCBs s !! ksCurThread s = Some t;
  do_words : forall v, user_word s t v -> is_word v;
  do_buffer : buffer <> 0;
  do_slot : ksCTEs s !! cte = Some ctc;
  do_extra : forall p, p ∈ current_extra_caps s -> is_Some (ksCTEs s !! p);
  do_asids : forall p d a root, ksCTEs s !! p = Some d -> cte_cap d = cap_vspace_cap a root true -> is_asid a
}.

(** Every translation that [s'] adds is to the frame, at a user address, with
    rights the capability covers. *)
Definition adds_only_frame (s' : kstate) : Prop :=
  forall r w pa f, R r -> user_addr w -> translate s' r w = Some (pa, f) ->
  translate s r w = Some (pa, f) \/
  (addrFromPPtr basePtr <= pa < addrFromPPtr basePtr + 2 ^ pageBitsForSize sz /\
   w <= USER_TOP /\ rights_cover r0 f).

Definition frame_map_post (ex : exception_t) (s' : kstate) : Prop :=
  vspaces_ok (ksPTEs s') R /\ adds_only_frame s' /\ (ex <> EXCEPTION_NONE -> ksPTEs s' = ksPTEs s).

Hypothesis Hok : decode_ok.
Hypothesis Hp : frame_paddr (addrFromPPtr basePtr).
Hypothesis Hcap : frame_asid <> asidInvalid -> user_page_range mapped sz.

Lemma frame_map_same ex s' : ksPTEs s' = ksPTEs s -> frame_map_post ex s'.
Proof.
  intros H. split; [rewrite H; apply Hok|]. split; [|done].
  intros r w pa f _ _. unfold translate. rewrite H. by left.
Qed.

Lemma wp_sys_error_same f s1 : ksPTEs (f s1) = ksPTEs s -> wp (sys_error (modify f)) frame_map_post s1.
Proof. intros H. unfold sys_error. wp_struct. wp_struct. wp_struct. by apply frame_map_same. Qed.

Lemma wp_frame_map_perform root v k slot e0 asid w_rights attr :
  R root -> user_page_range v sz -> v mod 2 ^ pageBitsForSize sz = 0 -> is_asid asid ->
  sw_walk (ksPTEs s) v top_level root = Some (k, slot, e0) -> level_bits k = pageBitsForSize sz ->
  wp (restart_current ;;;
      performPageInvocationMap asid (cap_frame_cap_set_mapping asid v c) cte
        (makeUserPagePTE (addrFromPPtr basePtr) (maskVMRights r0 (rightsFromWord w_rights)) attr sz) slot)
    frame_map_post s.
Proof.
  intros Hr Hrange Hal Has Hw Hb. set (r := maskVMRights _ _).
  destruct (makeUserPagePTE_leaf (addrFromPPtr basePtr) r attr sz k Hp Hb) as (Hl & Hk & _ & Hval & _).
  pose proof (range_user _ _ Hrange) as Hu.
  wp_struct. eapply wp_restart_current; [apply Hok|]. intros a t'. set (s1 := set_ksSchedulerAction _ _).
  apply (wp_performPageInvocationMap s1 R root v k slot e0 ctc); try done; try apply Hok. intros ops.
  pose proof (entry_post_intro s (set_ksMachine (fun _ => ops) (set_ksPTEs (insert slot
      (makeUserPagePTE (addrFromPPtr basePtr) r attr sz)) (set_ksCTEs (insert cte
        (set_cte_cap (fun _ => cap_frame_cap asid basePtr sz v r0 dev) ctc)) s1)))
    R root v sz k slot e0 _ _ (do_spaces Hok) Hr Hu Hw Hb Hl Hk Hval eq_refl) as [Hsp Htr].
  split; [exact Hsp|]. split; [|done]. intros q w pa f Hq Huw H. rewrite Htr in H by done.
  case_decide as Hin; [|by left]. right. destruct Hin as [-> Hpre]. unfold page_at in H. rewrite Hb in H.
  injection H as <- <-. split_and!; [| |by eapply in_page_range|apply maskVMRights_cover];
    cbn; pose proof (mod_pow2_bound w (pageBitsForSize sz)); pose proof (page_bits_bound sz); lia.
Qed.

(** C25: Mapping a frame never gives access beyond the capability: whatever
    the user asks for, every translation an invocation adds, in any address
    space, is to the frame's own memory, at an address below the user limit,
    with at most the capability's rights; a refused invocation leaves all page
    tables unchanged. *)
Theorem decodeFrameMap_safe length :
  wp (decodeFrameMap length cte c buffer) frame_map_post s.
Proof.
  unfold decodeFrameMap, excaprefs. do 2 wp_struct.
  destruct (nth_error (current_extra_caps s) 0) as [rootSlot|] eqn:Hex; [|by apply wp_sys_error_same].
  destruct (length <? 3); [by apply wp_sys_error_same|].
  assert (Harg : forall i (Q : Z -> kstate -> Prop), 0 <= i -> (forall v, is_word v -> Q v s) ->
    wp (getSyscallArg i buffer) Q s).
  { intros i Q Hi HQ. eapply wp_getSyscallArg; [done|apply Hok|apply Hok|]. intros v Hv. by apply HQ, Hok. }
  wp_struct. apply Harg; [done|]. intros v Hv. wp_struct. apply Harg; [done|]. intros attr _.
  destruct (do_extra Hok rootSlot) as [d Hd]; [by eapply list_elem_of_In, nth_error_In|].
  wp_struct. unfold slot_cap. wp_struct. eapply wp_getCTE; [exact Hd|]. wp_struct.
  wp_struct. apply Harg; [done|]. intros w_rights _.
  destruct (cte_cap d) as [| | | | | | | | | | | | |asid root [|]| | |] eqn:Hc; try by apply wp_sys_error_same.
  pose proof (do_asids Hok _ _ _ _ Hd Hc) as Has.
  wp_struct. apply wp_findVSpaceForASID; [apply Hok| |]; intros r0'; [|by apply wp_sys_error_same].
  intros Hroot. change (negb (is_none EXCEPTION_NONE)) with false. cbv iota.
  destruct (Z.eqb_spec r0' root) as [->|]; cbn [negb]; [|by apply wp_sys_error_same].
  pose proof (do_roots Hok _ _ Hroot) as Hr.
  destruct (checkVPAlignment sz v) eqn:Hal; cbn [negb]; [|by apply wp_sys_error_same].
  assert (Hmod : v mod 2 ^ pageBitsForSize sz = 0).
  { unfold checkVPAlignment in Hal. pose proof (page_bits_bound sz).
    rewrite land_MASK in Hal by (unfold wordBits; lia). by apply Z.eqb_eq. }
  destruct (negb (frame_asid =? asidInvalid) && negb (frame_asid =? asid)); [by apply wp_sys_error_same|].
  destruct (negb (frame_asid =? asidInvalid) && negb (mapped =? v)) eqn:Hre; [by apply wp_sys_error_same|].
  destruct ((frame_asid =? asidInvalid) && _) eqn:Hfresh; [by apply wp_sys_error_same|].
  assert (Hrange : user_page_range v sz).
  { destruct (Z.eqb_spec frame_asid asidInvalid) as [|Hf]; cbn [negb andb] in *; [by apply range_check|].
    apply negb_false_iff, Z.eqb_eq in Hre as <-. by apply Hcap. }
  destruct (vs_walk _ _ (do_spaces Hok) root v Hr (range_user _ _ Hrange)) as (k & slot & e0 & Hw & Hl).
  wp_struct. eapply wp_lookupPTSlot; [exact Hw|]. cbn [ptBitsLeft ptSlot].
  destruct (Z.eqb_spec (level_bits k) (pageBitsForSize sz)) as [Hb|]; cbn [negb].
  - by eapply wp_frame_map_perform.
  - unfold set_lookup_fault. wp_struct. wp_struct. by apply wp_sys_error_same.
Qed.
End FrameMap.

(** ** Assigning identifiers *)
Lemma find_free_asid_spec n pool base i :
  let j := find_free_asid n pool base i in
  i <= j <= i + Z.of_nat n /\
  (j < i + Z.of_nat n -> wadd base j <> 0 /\ pool_entry pool j = asid_map_none) /\
  (forall x, i <= x < j -> wadd base x = 0 \/ pool_entry pool x <> asid_map_none).
Proof.
  revert i. induction n as [|n IH]; intros i; cbn [find_free_asid]; [split_and!; lia|].
  destruct (Z.eqb_spec (wadd base i) 0) as [H0|H0]; cbn [orb];
    [|destruct (pool_entry pool i) eqn:He].
  2:{ split_and!; [lia|lia|intros _; done|lia]. }
  all: destruct (IH (i + 1)) as (Hb & Hj & Hx); set (j := find_free_asid _ _ _ _) in *;
    (split_and!; [lia|lia|intros; apply Hj; lia|]); intros x Hxx;
    (destruct (decide (x = i)) as [->|]; [try (by left); right; congruence|apply Hx; lia]).
Qed.

Lemma asid_parts base i : is_asid base -> base mod 2 ^ 9 = 0 -> 0 <= i < 2 ^ 9 ->
  wadd base i = base + i /\ is_asid (base + i) /\ ASID_HIGH (base + i) = ASID_HIGH base /\ ASID_LOW (base + i) = i.
Proof.
  unfold is_asid. intros Hb Hm Hi. pose proof (Z.div_mod base (2 ^ 9) ltac:(lia)) as Hd.
  assert (Hq : base / 2 ^ 9 < 2 ^ 7) by (apply Z.div_lt_upper_bound; lia).
  split; [apply wadd_small; unfold is_word, word_modulus; lia|]. split; [lia|].
  unfold ASID_HIGH, ASID_LOW. change asidLowBits with 9. rewrite land_MASK, !Z.shiftr_div_pow2 by done.
  rewrite Hd, Hm, Z.add_0_r. replace (2 ^ 9 * (base / 2 ^ 9) + i) with (i + (base / 2 ^ 9) * 2 ^ 9) by lia.
  rewrite Z.div_add, Z.mod_add, Z.div_small, Z.mod_small by lia.
  replace (2 ^ 9 * (base / 2 ^ 9)) with ((base / 2 ^ 9) * 2 ^ 9) by lia. by rewrite Z.div_mul.
Qed.

(** Assigning a root table to an ASID pool takes an identifier of the pool
    that is free and not the invalid one, makes it name the table and no other
    identifier change, and records it in the capability; it is refused, with
    nothing changed, exactly when every usable identifier of the pool is taken. *)
Theorem decodeASIDPool_assigns L s t asid_base pool vslot d a0 root :
  vm_ok s -> ksTCBs s !! ksCurThread s = Some t ->
  nth_error (current_extra_caps s) 0 = Some vslot ->
  ksCTEs s !! vslot = Some d -> cte_cap d = cap_vspace_cap a0 root false ->
  is_asid asid_base -> asid_base mod 2 ^ 9 = 0 ->
  asid_table s (ASID_HIGH asid_base) = pool -> pool <> 0 ->
  wp (decodeASIDPool L (ARMASIDPoolAssign L) asid_base pool) (fun ex s' =>
    (ex = EXCEPTION_NONE /\ exists asid,
       is_asid asid /\ asid <> 0 /\ asid_lookup s asid = asid_map_none /\
       (forall a, is_asid a ->
          asid_lookup s' a = if decide (a = asid) then asid_map_vspace root else asid_lookup s a) /\
       cte_cap <$> ksCTEs s' !! vslot = Some (cap_vspace_cap asid root true)) \/
    (ex = EXCEPTION_SYSCALL_ERROR /\ se_type (current_syscall_error s') = seL4_DeleteFirst /\
       (forall a, is_asid a -> asid_lookup s' a = asid_lookup s a) /\
       forall i, 0 <= i < 2 ^ 9 -> asid_base + i <> 0 -> asid_lookup s (asid_base + i) <> asid_map_none)) s.
Proof.
  intros Hok Ht Hex Hd Hc Hb Hm Hpool Hp0.
  destruct (vm_pools s Hok (ASID_HIGH asid_base)) as [p Hp]; [by rewrite Hpool|]. rewrite Hpool in Hp.
  assert (Hlook : forall i, 0 <= i < 2 ^ 9 -> asid_lookup s (asid_base + i) = pool_entry p i).
  { intros i Hi. destruct (asid_parts asid_base i Hb Hm Hi) as (_ & _ & Hh & Hl).
    unfold asid_lookup. rewrite Hh, Hl, Hpool, Hp, (proj2 (Z.eqb_neq _ _) Hp0). done. }
  unfold decodeASIDPool. rewrite Z.eqb_refl. cbn [negb]. unfold excaprefs. do 2 wp_struct. rewrite Hex.
  wp_struct. unfold slot_cap. wp_struct. eapply wp_getCTE; [exact Hd|]. wp_struct. rewrite Hc.
  cbn [isVTableRoot isValidNativeRoot negb orb]. do 2 wp_struct. rewrite Hpool.
  rewrite (proj2 (Z.eqb_neq _ _) Hp0), Z.eqb_refl. cbn [negb].
  wp_struct. eapply wp_getPool; [exact Hp|].
  pose proof (find_free_asid_spec (Z.to_nat (BIT asidLowBits)) p asid_base 0) as Hfind. cbv zeta in Hfind.
  set (i := find_free_asid _ _ _ _) in *.
  replace (0 + Z.of_nat (Z.to_nat (BIT asidLowBits))) with (2 ^ 9) in Hfind by done.
  change (BIT asidLowBits) with (2 ^ 9).
  destruct Hfind as (Hi & Hfree & Htaken). destruct (Z.eqb_spec i (2 ^ 9)) as [Hfull|Hne].
  { unfold sys_error. wp_struct. apply wp_modify, wp_ret. right. split_and!; [done|done|done|].
    intros x Hx Hx0. rewrite Hlook by done. destruct (asid_parts asid_base x Hb Hm Hx) as (Hw & _).
    destruct (Htaken x ltac:(lia)); congruence. }
  destruct (Hfree ltac:(lia)) as [Hn0 Hnone].
  destruct (asid_parts asid_base i Hb Hm ltac:(lia)) as (Hw & Has & Hh & Hl). rewrite Hw in *.
  wp_struct. eapply wp_restart_current; [exact Ht|]. intros a t'. unfold performASIDPoolInvocation.
  wp_struct. unfold slot_cap. wp_struct. eapply wp_getCTE; [exact Hd|]. wp_struct. rewrite Hc.
  wp_struct. unfold setCap. eapply wp_modCTE; [exact Hd|].
  wp_struct. eapply wp_getPool; [exact Hp|]. wp_struct. apply wp_modify. wp_struct.
  left. split; [done|]. exists (asid_base + i).
  split_and!; [exact Has|exact Hn0|by rewrite Hlook by lia| |st_simpl; by rewrite lookup_insert_eq].
  intros a' Ha'. rewrite <- (set_asid_lookup s) by (try done; by rewrite Hh, Hpool).
  unfold asid_lookup, set_asid, asid_table. st_simpl. fold (asid_table s (ASID_HIGH (asid_base + i))).
  by rewrite Hh, Hpool, Hp.
Qed.

(** ** A concrete address space

    The root table's first entry points to a second table; nothing is mapped.
    The identifier 300 names the root. *)
Definition root_ptr : Z := 0xffffff8000100000.
Definition table_ptr : Z := 0xffffff8000101000.
Definition frame_ptr : Z := 0xffffff8040000000.
Definition pool_ptr : Z := 0xffffff8000200000.
Definition root_slot : Z := 65536.
Definition frame_slot : Z := 65568.
Definition new_slot : Z := 65600.
Definition vm_ptes : gmap Z pte :=
  <[root_ptr := pte_table (addrFromPPtr table_ptr)]> (null_ptes 512 root_ptr (null_ptes 512 table_ptr ∅)).
Definition vm_ctes : gmap Z cte :=
  <[root_slot := mk_cte (cap_vspace_cap 300 root_ptr true) nullMDBNode]>
    (<[frame_slot := mk_cte (cap_frame_cap asidInvalid frame_ptr ARMHugePage 0 VMReadOnly false) nullMDBNode]>
      (<[new_slot := mk_cte (cap_vspace_cap 0 table_ptr false) nullMDBNode]> vtable_slots)).
Definition s_vm : kstate :=
  set_current_extra_caps (fun _ => [root_slot]) (set_ksPTEs (fun _ => vm_ptes)
    (set_ksASIDPools (fun _ => <[pool_ptr := <[300 := asid_map_vspace root_ptr]> ∅]> ∅)
      (set_armKSASIDTable (fun _ => <[0 := pool_ptr]> ∅)
        (state_with vm_ctes boot_tcbs ∅ ∅ tcb_A SchedulerAction_ResumeCurrentThread)))).

Lemma root_offset i : 0 <= i < 512 -> pte_offset root_ptr i = root_ptr + 8 * i.
Proof. by apply pte_offset_val. Qed.
Lemma table_offset i : 0 <= i < 512 -> pte_offset table_ptr i = table_ptr + 8 * i.
Proof. by apply pte_offset_val. Qed.

Lemma vm_root_entry i : 0 <= i < 512 ->
  vm_ptes !! pte_offset root_ptr i = Some (if i =? 0 then pte_table (addrFromPPtr table_ptr) else pte_invalid).
Proof.
  intros Hi. unfold vm_ptes. destruct (Z.eqb_spec i 0) as [->|Hn].
  - rewrite root_offset by lia. apply lookup_insert_eq.
  - rewrite lookup_insert_ne by (rewrite root_offset by lia; unfold root_ptr; lia). by apply null_ptes_lookup.
Qed.

Lemma vm_table_entry i : 0 <= i < 512 -> vm_ptes !! pte_offset table_ptr i = Some pte_invalid.
Proof.
  intros Hi. unfold vm_ptes. rewrite lookup_insert_ne by (rewrite table_offset by lia; unfold root_ptr, table_ptr; lia).
  rewrite null_ptes_other; [by apply null_ptes_lookup|].
  intros j Hj. rewrite root_offset, table_offset by lia. unfold root_ptr, table_ptr. lia.
Qed.

Lemma vm_index v : user_addr v ->
  0 <= v / 2 ^ 39 < 512 /\ (v / 2 ^ 39) mod 2 ^ 9 = v / 2 ^ 39 /\
  (v / 2 ^ 39 = 0 -> (v / 2 ^ 30) mod 2 ^ 9 = v / 2 ^ 30 /\ 0 <= v / 2 ^ 30 < 512).
Proof.
  unfold user_addr. change (level_bits (S top_level)) with 48. intros Hv.
  assert (H3 : 0 <= v / 2 ^ 39 < 512) by (split; [apply Z.div_pos; lia|apply Z.div_lt_upper_bound; lia]).
  split; [done|]. split; [by apply Z.mod_small|]. intros H0.
  assert (Hs : v < 2 ^ 39) by (pose proof (Z.div_mod v (2 ^ 39)); pose proof (Z.mod_pos_bound v (2 ^ 39)); lia).
  assert (H2 : 0 <= v / 2 ^ 30 < 512) by (split; [apply Z.div_pos; lia|apply Z.div_lt_upper_bound; lia]).
  split; [by apply Z.mod_small|done].
Qed.

Lemma vm_walk v : user_addr v ->
  sw_walk vm_ptes v top_level root_ptr =
    Some (if v / 2 ^ 39 =? 0 then (2%nat, table_ptr + 8 * (v / 2 ^ 30), pte_invalid)
          else (3%nat, root_ptr + 8 * (v / 2 ^ 39), pte_invalid)) /\
  path vm_ptes v top_level root_ptr =
    (3%nat, root_ptr + 8 * (v / 2 ^ 39)) ::
      if v / 2 ^ 39 =? 0 then [(2%nat, table_ptr + 8 * (v / 2 ^ 30))] else [].
Proof.
  intros Hv. destruct (vm_index v Hv) as (H3 & Hm3 & H2). change top_level with 3%nat.
  cbn [sw_walk path]. unfold pt_slot.
  change (level_bits 3) with 39. change (level_bits 2) with 30. change PT_INDEX_BITS with 9.
  rewrite Hm3, vm_root_entry, root_offset by done.
  destruct (Z.eqb_spec (v / 2 ^ 39) 0) as [H0|Hn]; [|done]. destruct (H2 H0) as [Hm2 H2'].
  change (ptrFromPAddr (addrFromPPtr table_ptr)) with table_ptr.
  by rewrite Hm2, vm_table_entry, table_offset.
Qed.

Lemma s_vm_spaces : vspaces_ok (ksPTEs s_vm) (eq root_ptr).
Proof.
  change (ksPTEs s_vm) with vm_ptes. split.
  - intros r v <- Hv. unfold walk_ok. rewrite (proj1 (vm_walk v Hv)).
    destruct (_ =? _); by eexists _, _, _.
  - intros r r' v w k l slot <- <- Hv Hw. rewrite (proj2 (vm_walk v Hv)), (proj2 (vm_walk w Hw)).
    assert (Hin : forall x k y, (k, y) ∈ (3%nat, root_ptr + 8 * (x / 2 ^ 39)) ::
        (if x / 2 ^ 39 =? 0 then [(2%nat, table_ptr + 8 * (x / 2 ^ 30))] else []) ->
      (k = 3%nat /\ y = root_ptr + 8 * (x / 2 ^ 39)) \/
      (k = 2%nat /\ x / 2 ^ 39 = 0 /\ y = table_ptr + 8 * (x / 2 ^ 30))).
    { intros x k0 y Hin. apply elem_of_cons in Hin as [H|H]; [injection H; auto|].
      destruct (Z.eqb_spec (x / 2 ^ 39) 0); [|by apply elem_of_nil in H].
      apply list_elem_of_singleton in H. injection H; auto. }
    destruct (vm_index v Hv) as (Hv3 & _ & Hv2), (vm_index w Hw) as (Hw3 & _ & Hw2).
    intros [[-> ->]|(-> & Hv0 & ->)]%Hin [[-> He]|(-> & Hw0 & He)]%Hin; unfold root_ptr, table_ptr in He.
    + split_and!; [done|done|]. change (level_bits 3) with 39. lia.
    + destruct (Hw2 Hw0). lia.
    + destruct (Hv2 Hv0). lia.
    + split_and!; [done|done|]. change (level_bits 2) with 30. lia.
Qed.

Lemma s_vm_vm : vm_ok s_vm.
Proof.
  split.
  - intros x [t Hx]. destruct (boot_fresh x t Hx) as (_&_&_&_&_&_&_&[->|[->| ->]]); by eexists.
  - intros i Hi. unfold asid_table in *. destruct (decide (i = 0)) as [->|Hn]; [by eexists|].
    destruct Hi. cbn. rewrite lookup_insert_ne, lookup_empty by done; done.
  - intros i j Hi He. unfold asid_table in *. cbn in *.
    destruct (decide (i = 0)) as [->|Hn];
      [|rewrite lookup_insert_ne, lookup_empty in Hi by done; by destruct Hi].
    destruct (decide (j = 0)) as [->|Hn]; [done|].
    by rewrite lookup_insert_eq, lookup_insert_ne, lookup_empty in He.
Qed.

Lemma s_vm_lookup a root : asid_lookup s_vm a = asid_map_vspace root -> root_ptr = root.
Proof.
  unfold asid_lookup, asid_table. cbn. destruct (decide (ASID_HIGH a = 0)) as [->|Hn].
  - cbn. unfold pool_entry. destruct (decide (ASID_LOW a = 300)) as [->|Hl].
    + rewrite lookup_insert_eq. cbn. intros H. by injection H.
    + rewrite !lookup_insert_eq. cbn. rewrite ?lookup_insert_eq. cbn.
      rewrite lookup_insert_ne, lookup_empty by congruence; done.
  - rewrite lookup_insert_ne, lookup_empty by congruence; done.
Qed.

Lemma s_vm_asid : asid_lookup s_vm 300 = asid_map_vspace root_ptr.
Proof. reflexivity. Qed.

Lemma s_vm_invalid v : user_addr v -> v / 2 ^ 39 = 0 ->
  sw_walk (ksPTEs s_vm) v top_level root_ptr = Some (2%nat, table_ptr + 8 * (v / 2 ^ 30), pte_invalid).
Proof. intros Hv H0. change (ksPTEs s_vm) with vm_ptes. rewrite (proj1 (vm_walk v Hv)), H0. done. Qed.

Lemma user_addr_0 : user_addr 0.
Proof. by split. Qed.
Lemma frame_ptr_paddr : frame_paddr (addrFromPPtr frame_ptr).
Proof. by split. Qed.

(** The TLB is flushed for identifier 44 when identifier 300 is deleted. *)
Example deleteASID_flushes_other_asid :
  option_map (fun r => ksMachine r.2) (deleteASID 300 root_ptr s_vm)
  = Some [op_setCurrentUserVSpaceRoot_global; op_invalidateTranslationASID 44].
Proof. vm_compute. reflexivity. Qed.

Lemma lookupPTSlot_translate_witness :
  (vspaces_ok (ksPTEs s_vm) (eq root_ptr) /\ user_addr 0) /\
  wp (lookupPTSlot root_ptr 0) (fun r _ => exists k, ptBitsLeft r = level_bits k) s_vm.
Proof.
  split; [exact (conj s_vm_spaces user_addr_0)|]. eapply wp_mono.
  { apply (lookupPTSlot_translate s_vm root_ptr 0 s_vm_spaces user_addr_0). }
  intros r s' (_ & k & e & _ & H & _). exists k. exact H.
Defined.

Lemma performPageInvocationMap_translate_witness :
  wp (performPageInvocationMap 300 (cap_frame_cap 300 frame_ptr ARMHugePage 0 VMReadOnly false) frame_slot
        (makeUserPagePTE (addrFromPPtr frame_ptr) VMReadOnly 1 ARMHugePage) table_ptr)
    (fun ex s' => ex = EXCEPTION_NONE /\
       translate s' root_ptr 4096 = Some (0x40001000, user_page 0x40000000 VMReadOnly 1)) s_vm.
Proof.
  eapply wp_mono.
  { apply (performPageInvocationMap_translate s_vm (eq root_ptr) root_ptr 0 2 table_ptr pte_invalid
      (mk_cte (cap_frame_cap asidInvalid frame_ptr ARMHugePage 0 VMReadOnly false) nullMDBNode)
      300 frame_slot frame_ptr ARMHugePage VMReadOnly VMReadOnly 1 false s_vm_spaces eq_refl user_addr_0 frame_ptr_paddr);
      [lia|exact (s_vm_invalid 0 user_addr_0 eq_refl)|reflexivity|reflexivity]. }
  intros ex s' (H & _ & _ & Ht). split; [exact H|]. rewrite Ht by (reflexivity || by split). reflexivity.
Defined.

Lemma unmapPage_translate_witness :
  wp (unmapPage ARMHugePage 300 0 frame_ptr) (fun _ s' => ksPTEs s' = ksPTEs s_vm) s_vm.
Proof.
  eapply wp_mono.
  { apply (unmapPage_translate s_vm (eq root_ptr) root_ptr 0 ARMHugePage 300 frame_ptr s_vm_vm s_vm_asid
      s_vm_spaces eq_refl user_addr_0). lia. }
  intros [] s' H. unfold mapped_here in H. rewrite (s_vm_invalid 0 user_addr_0 eq_refl) in H. exact H.
Defined.

Lemma map_unmap_roundtrip_witness :
  wp (performPageInvocationMap 300 (cap_frame_cap 300 frame_ptr ARMHugePage 0 VMReadOnly false) frame_slot
        (makeUserPagePTE (addrFromPPtr frame_ptr) VMReadOnly 1 ARMHugePage) table_ptr ;;;
      performPageInvocationUnmap (cap_frame_cap 300 frame_ptr ARMHugePage 0 VMReadOnly false) frame_slot)
    (fun _ s' => ksPTEs s' = ksPTEs s_vm) s_vm.
Proof.
  eapply wp_mono.
  { apply (map_unmap_roundtrip s_vm (eq root_ptr) root_ptr 0 2 table_ptr
      (mk_cte (cap_frame_cap asidInvalid frame_ptr ARMHugePage 0 VMReadOnly false) nullMDBNode)
      300 frame_slot frame_ptr ARMHugePage VMReadOnly VMReadOnly 1 false s_vm_vm s_vm_asid
      s_vm_spaces eq_refl user_addr_0 frame_ptr_paddr);
      [lia|exact (s_vm_invalid 0 user_addr_0 eq_refl)|reflexivity|reflexivity]. }
  intros ex s' (_ & H & _). exact H.
Defined.

Lemma deleteASID_spec_witness :
  (vm_ok s_vm /\ is_asid 300) /\
  wp (deleteASID 300 root_ptr) (fun _ s' => asid_lookup s' 300 = asid_map_none /\
    ksMachine s' = vmroot_op s' (ksCurThread s_vm) :: op_invalidateTranslationASID 44 :: ksMachine s_vm) s_vm.
Proof.
  assert (Ha : is_asid 300) by (split; lia).
  split; [exact (conj s_vm_vm Ha)|]. eapply wp_mono.
  { apply (deleteASID_spec s_vm 300 root_ptr s_vm_vm Ha). by eexists. }
  intros [] s' (_ & _ & _ & _ & _ & H & Hm). split; [rewrite (H 300 Ha); reflexivity|exact Hm].
Defined.

Lemma s_vm_decode_ok :
  decode_ok s_vm (eq root_ptr) (mk_thread ThreadState_Running 100) frame_slot 65536
    (mk_cte (cap_frame_cap asidInvalid frame_ptr ARMHugePage 0 VMReadOnly false) nullMDBNode).
Proof.
  split; try done.
  - exact s_vm_vm.
  - exact s_vm_spaces.
  - exact s_vm_lookup.
  - by intros v [[r ->]|[a ->]].
  - intros p Hp. apply list_elem_of_singleton in Hp as ->. by eexists.
  - intros p d a root Hd Hc. change (vm_ctes !! p = Some d) in Hd.
    unfold vm_ctes, vtable_slots in Hd. rewrite !lookup_insert_Some, lookup_empty in Hd.
    repeat match type of Hd with _ \/ _ => destruct Hd as [[_ <-]|[_ Hd]] end; try done.
    cbn in Hc. by injection Hc as <- <-.
Qed.

Lemma decodeFrameMap_safe_witness :
  wp (decodeFrameMap 3 frame_slot (cap_frame_cap asidInvalid frame_ptr ARMHugePage 0 VMReadOnly false) 65536)
    (fun _ s' => adds_only_frame s_vm (eq root_ptr) frame_ptr ARMHugePage VMReadOnly s') s_vm.
Proof.
  eapply wp_mono.
  { apply (decodeFrameMap_safe s_vm (eq root_ptr) (mk_thread ThreadState_Running 100) frame_slot frame_ptr 0
      asidInvalid 65536 _ ARMHugePage VMReadOnly false s_vm_decode_ok frame_ptr_paddr). intros []; reflexivity. }
  intros ex s' (_ & H & _). exact H.
Defined.

Definition mmu_labels_0 : mmu_labels := mk_mmu_labels 1 2 3 4 5 6 7 8 9 10 11 12 13 14 15.
Definition s_vm_assign : kstate := set_current_extra_caps (fun _ => [new_slot]) s_vm.

Lemma decodeASIDPool_assigns_witness :
  wp (decodeASIDPool mmu_labels_0 15 0 pool_ptr) (fun ex s' => ex = EXCEPTION_NONE ->
    exists asid, asid <> 0 /\ asid_lookup s' asid = asid_map_vspace table_ptr) s_vm_assign.
Proof.
  eapply wp_mono.
  { apply (decodeASIDPool_assigns mmu_labels_0 s_vm_assign (mk_thread ThreadState_Running 100) 0 pool_ptr new_slot
      (mk_cte (cap_vspace_cap 0 table_ptr false) nullMDBNode) 0 table_ptr);
      [eapply vm_ok_same; [..|exact s_vm_vm]; done|reflexivity|reflexivity|reflexivity|reflexivity|by split
      |reflexivity|reflexivity|discriminate]. }
  intros ex s' [(_ & asid & Ha & Hn & _ & Hl & _)|(-> & _)] He; [|discriminate He].
  exists asid. split; [exact Hn|]. rewrite (Hl asid Ha). by rewrite decide_True.
Defined.
