(* ===== verification/Frames.v ===== *)
(** * Frames

    What an operation leaves alone, whatever it was called for: [respects R m]
    says that every run of [m] relates its start to its end by [R].  The rules
    follow the structure of the code, and [crunch] applies them; [quiet] is
    the relation of the operations that only touch threads, their queues and
    the hardware. *)
From stdpp Require Import base list gmap.
From S2P Require Import Prelude Dll Structures CapOps CSpace VSpace Sched Mdb Messages Objects.
#[local] Open Scope Z_scope.

Create HintDb crunch.

Definition respects {A} (R : kstate -> kstate -> Prop) (m : K A) : Prop :=
  forall s a s', m s = Some (a, s') -> R s s'.

(** A total operation with a frame. *)
Lemma wp_respects {A} R (m : K A) Q s :
  wp m Q s -> respects R m -> wp m (fun a s' => Q a s' /\ R s s') s.
Proof. unfold wp. intros HQ Hm. destruct (m s) as [[a s']|] eqn:E; [|done]. split; [done|by eapply Hm]. Qed.

Section Rules.
Context {R : kstate -> kstate -> Prop} `{HR : !PreOrder R}.

Lemma respects_ret {A} (a : A) : respects R (ret a).
Proof. intros s a' s' [= _ <-]. reflexivity. Qed.
Lemma respects_gets {A} (f : kstate -> A) : respects R (gets f).
Proof. intros s a s' [= _ <-]. reflexivity. Qed.
Lemma respects_fail {A} : respects R (fail : K A).
Proof. by intros s a s'. Qed.
Lemma respects_assert b : respects R (assert b).
Proof. destruct b; [apply respects_ret|apply respects_fail]. Qed.
Lemma respects_from_option {A} (o : option A) : respects R (from_option_M o).
Proof. destruct o; [apply respects_ret|apply respects_fail]. Qed.
Lemma respects_modify f : (forall s, R s (f s)) -> respects R (modify f).
Proof. intros H s a s' [= _ <-]. apply H. Qed.

Lemma respects_bind {A B} (m : K A) (k : A -> K B) :
  respects R m -> (forall a, respects R (k a)) -> respects R (bind m k).
Proof.
  intros Hm Hk s b s2 H. unfold bind in H. destruct (m s) as [[a s1]|] eqn:E; [|done].
  transitivity s1; [by eapply Hm|by eapply Hk].
Qed.

Lemma respects_getCTE p : respects R (getCTE p).
Proof. apply respects_bind; [apply respects_gets|intros; apply respects_from_option]. Qed.
Lemma respects_getTCB p : respects R (getTCB p).
Proof. apply respects_bind; [apply respects_gets|intros; apply respects_from_option]. Qed.
Lemma respects_getEP p : respects R (getEP p).
Proof. apply respects_bind; [apply respects_gets|intros; apply respects_from_option]. Qed.
Lemma respects_getNTFN p : respects R (getNTFN p).
Proof. apply respects_bind; [apply respects_gets|intros; apply respects_from_option]. Qed.

(** Updating an object that exists. *)
Lemma respects_modTCB p f :
  (forall s t, ksTCBs s !! p = Some t -> R s (set_ksTCBs (insert p (f t)) s)) -> respects R (modTCB p f).
Proof.
  intros H s a s'. unfold modTCB, getTCB, bind, gets. destruct (ksTCBs s !! p) eqn:E; [|done].
  intros [= _ <-]. by apply H.
Qed.
Lemma respects_modEP p f :
  (forall s e, ksEPs s !! p = Some e -> R s (set_ksEPs (insert p (f e)) s)) -> respects R (modEP p f).
Proof.
  intros H s a s'. unfold modEP, getEP, bind, gets. destruct (ksEPs s !! p) eqn:E; [|done].
  intros [= _ <-]. by apply H.
Qed.
Lemma respects_modNTFN p f :
  (forall s n, ksNTFNs s !! p = Some n -> R s (set_ksNTFNs (insert p (f n)) s)) -> respects R (modNTFN p f).
Proof.
  intros H s a s'. unfold modNTFN, getNTFN, bind, gets. destruct (ksNTFNs s !! p) eqn:E; [|done].
  intros [= _ <-]. by apply H.
Qed.
End Rules.

Ltac crunch_step :=
  lazymatch goal with
  | |- respects _ (bind _ _) => apply respects_bind; [|intros ?]
  | |- respects _ (ret _) => apply respects_ret
  | |- respects _ (gets _) => apply respects_gets
  | |- respects _ fail => apply respects_fail
  | |- respects _ (assert _) => apply respects_assert
  | |- respects _ (from_option_M _) => apply respects_from_option
  | |- respects _ (getCTE _) => apply respects_getCTE
  | |- respects _ (getTCB _) => apply respects_getTCB
  | |- respects _ (getEP _) => apply respects_getEP
  | |- respects _ (getNTFN _) => apply respects_getNTFN
  | |- respects _ (if ?b then _ else _) => destruct b
  | |- respects _ (match ?x with _ => _ end) => destruct x
  | |- respects _ (let _ := _ in _) => cbv zeta
  | |- respects _ _ => solve [auto with crunch]
  end.
Ltac crunch := repeat crunch_step.

(** ** Operations on threads and queues *)
Definition action_simple (s : kstate) : Prop :=
  ksSchedulerAction s = SchedulerAction_ResumeCurrentThread \/ ksSchedulerAction s = SchedulerAction_ChooseNewThread.

Record quiet (s s' : kstate) : Prop := {
  qt_ctes : ksCTEs s' = ksCTEs s;
  qt_tcbs : tcbBoundNotification <$> ksTCBs s' = tcbBoundNotification <$> ksTCBs s;
  qt_ntfns : ntfnBoundTCB <$> ksNTFNs s' = ntfnBoundTCB <$> ksNTFNs s;
  qt_eps : (fun _ => tt) <$> ksEPs s' = (fun _ => tt) <$> ksEPs s;
  qt_ptes : ksPTEs s' = ksPTEs s;
  qt_pools : ksASIDPools s' = ksASIDPools s;
  qt_table : armKSASIDTable s' = armKSASIDTable s;
  qt_irqs : intStateIRQNode s' = intStateIRQNode s;
  qt_action : action_simple s -> action_simple s'
}.

#[export] Instance quiet_preorder : PreOrder quiet.
Proof.
  split; [by intros s; split|]. intros s1 s2 s3 [] []. split; (congruence || auto).
Qed.

Lemma quiet_modTCB p f : (forall t, tcbBoundNotification (f t) = tcbBoundNotification t) -> respects quiet (modTCB p f).
Proof. intros H. apply respects_modTCB. intros s t Ht. split; try done. by eapply fmap_insert_same. Qed.
Lemma quiet_modEP p f : respects quiet (modEP p f).
Proof. apply respects_modEP. intros s t Ht. split; try done. by eapply fmap_insert_same. Qed.
Lemma quiet_modNTFN p f : (forall n, ntfnBoundTCB (f n) = ntfnBoundTCB n) -> respects quiet (modNTFN p f).
Proof. intros H. apply respects_modNTFN. intros s t Ht. split; try done. by eapply fmap_insert_same. Qed.

#[export] Hint Extern 1 (respects quiet (modTCB _ _)) => apply quiet_modTCB; intros []; reflexivity : crunch.
#[export] Hint Extern 1 (respects quiet (modNTFN _ _)) => apply quiet_modNTFN; intros []; reflexivity : crunch.
#[export] Hint Resolve quiet_modEP : crunch.
#[export] Hint Extern 2 (respects quiet (modify _)) =>
  apply respects_modify; intros ?; split; try reflexivity; intros H; exact H : crunch.

Lemma quiet_setSchedulerAction : respects quiet (setSchedulerAction SchedulerAction_ChooseNewThread).
Proof. apply respects_modify. intros s. split; try done. intros _. by right. Qed.
#[export] Hint Resolve quiet_setSchedulerAction : crunch.

(** Each function by the rules of its parts. *)
Lemma quiet_addToBitmap dom prio : respects quiet (addToBitmap dom prio).
Proof. unfold addToBitmap, invert_l1index, getL1, putL1, getL2, putL2. crunch. Qed.
Lemma quiet_removeFromBitmap dom prio : respects quiet (removeFromBitmap dom prio).
Proof. unfold removeFromBitmap, invert_l1index, getL1, putL1, getL2, putL2. crunch. Qed.
#[export] Hint Resolve quiet_addToBitmap quiet_removeFromBitmap : crunch.

Lemma quiet_tcbSchedEnqueue x : respects quiet (tcbSchedEnqueue x).
Proof. unfold tcbSchedEnqueue, ready_queues_index, getReadyQueue, putReadyQueue, tcb_queue_prepend. crunch. Qed.
Lemma quiet_tcbSchedDequeue x : respects quiet (tcbSchedDequeue x).
Proof. unfold tcbSchedDequeue, ready_queues_index, getReadyQueue, putReadyQueue, tcb_queue_remove. crunch. Qed.
#[export] Hint Resolve quiet_tcbSchedEnqueue quiet_tcbSchedDequeue : crunch.

Lemma quiet_rescheduleRequired : respects quiet rescheduleRequired.
Proof. unfold rescheduleRequired. crunch. Qed.
Lemma quiet_setThreadState x st : respects quiet (setThreadState x st).
Proof. unfold setThreadState, scheduleTCB, isSchedulable, isRunnable. crunch. Qed.
#[export] Hint Resolve quiet_rescheduleRequired quiet_setThreadState : crunch.

Lemma quiet_ep_loop body fuel : (forall x, respects quiet (body x)) -> forall x, respects quiet (ep_loop fuel x body).
Proof. intros Hb. induction fuel as [|fuel IH]; intros x; cbn [ep_loop]; crunch. Qed.

Lemma quiet_restart_loop fuel x : respects quiet (ep_loop fuel x restart_waiter).
Proof. apply quiet_ep_loop. intros y. unfold restart_waiter. crunch. Qed.
#[export] Hint Resolve quiet_restart_loop : crunch.

Lemma quiet_cancelAllIPC p : respects quiet (cancelAllIPC p).
Proof. unfold cancelAllIPC, endpoint_ptr_set_state. crunch. Qed.
Lemma quiet_cancelAllSignals p : respects quiet (cancelAllSignals p).
Proof. unfold cancelAllSignals, notification_ptr_set_state. crunch. Qed.

Lemma quiet_tcbEPDequeue x q : respects quiet (tcbEPDequeue x q).
Proof. unfold tcbEPDequeue. crunch. Qed.
#[export] Hint Resolve quiet_tcbEPDequeue : crunch.

Lemma quiet_cancelSignal x p : respects quiet (cancelSignal x p).
Proof. unfold cancelSignal, ntfn_ptr_get_queue, ntfn_ptr_set_queue, notification_ptr_set_state. crunch. Qed.
Lemma quiet_fpuRelease x : respects quiet (fpuRelease x).
Proof. unfold fpuRelease, nativeThreadUsingFPU, switchFpuOwner, switchLocalFpuOwner, doMachineOp. crunch. Qed.
Lemma quiet_updateRestartPC x : respects quiet (updateRestartPC x).
Proof. unfold updateRestartPC, getRegister, setRegister. crunch. Qed.
#[export] Hint Resolve quiet_cancelSignal quiet_fpuRelease quiet_updateRestartPC : crunch.

(** [cancelIPC] of a thread that waits on an object. *)
Lemma quiet_cancelIPC_blocked x s a s' t :
  cancelIPC x s = Some (a, s') -> ksTCBs s !! x = Some t -> tsType_of t <> ThreadState_BlockedOnReply -> quiet s s'.
Proof.
  intros H Ht Hb. unfold cancelIPC in H.
  assert (E : getTCB x s = Some (t, s)) by (unfold getTCB, bind, gets; by rewrite Ht).
  unfold bind at 1 in H. rewrite E in H.
  set (m := match tsType_of t with ThreadState_BlockedOnSend => _ | _ => _ end) in H.
  enough (Hm : respects quiet m) by (by eapply Hm). unfold m. clear m H E.
  destruct (tsType_of t); try done; unfold ep_ptr_get_queue, ep_ptr_set_queue, endpoint_ptr_set_state; crunch.
Qed.
