(* ===== verification/SlotInv.v ===== *)
(** * Invariants of the capability slots

    What deletion (src/object/cnode.c) relies on.  A capability to a CNode or
    a thread, and the zombie that replaces it while it is being deleted, is a
    container: it gives access to the slots of its object.  Containers do not
    overlap, a zombie is the only capability to its object, and the slots the
    kernel empties behind the user's back, the interrupt slots and the reply
    slots of threads, hold nothing that could need a deletion of its own. *)
From stdpp Require Import base list sets gmap.
From S2P Require Import Prelude Dll Structures CapOps CSpace VSpace Sched DomSched ReadyQueue Schedule Mdb MdbInv Messages Objects Delete Interrupt MdbThm CapThm.
#[local] Open Scope Z_scope.

Notation cap_at := slot_capability.

(** ** Containers *)
Definition zombie_slots (type : Z) : Z :=
  if type =? ZombieType_ZombieTCB then tcbArchCNodeEntries else 2 ^ type.

(** The first slot and the number of slots of the object. *)
Definition container (c : cap) : option (Z * Z) :=
  match c with
  | cap_cnode_cap radix _ _ ptr => Some (ptr, 2 ^ radix)
  | cap_thread_cap tcb => Some (TCB_PTR_CTE_PTR tcb tcbCTable, tcbArchCNodeEntries)
  | cap_zombie_cap id type => Some (cap_zombie_cap_get_capZombiePtr id type, zombie_slots type)
  | _ => None
  end.

Definition is_zombie (c : cap) : bool := match c with cap_zombie_cap _ _ => true | _ => false end.

(** Capabilities that [finaliseCap] can finalise when [exposed]. *)
Definition exposable (c : cap) : bool :=
  match c with cap_null_cap | cap_reply_cap _ _ _ | cap_notification_cap _ _ _ _ => true | _ => false end.

Definition is_reply (c : cap) : bool := match c with cap_reply_cap _ _ _ => true | _ => false end.

Lemma is_reply_exposable c : is_reply c = true -> exposable c = true.
Proof. by destruct c. Qed.

Lemma exposable_container c : exposable c = true -> container c = None.
Proof. by destruct c. Qed.

(** A zombie type, and the number of slots it can count. *)
Definition zombie_type_ok (type : Z) : Prop := type = ZombieType_ZombieTCB \/ 0 <= type < 59.

(** The capability fits the words it is stored in. *)
Definition cap_shape (c : cap) : Prop :=
  match c with
  | cap_cnode_cap radix _ _ ptr => radix < 59 /\ zombie_ok (2 ^ radix) radix ptr
  | cap_thread_cap tcb => zombie_ok tcbArchCNodeEntries ZombieType_ZombieTCB (TCB_PTR_CTE_PTR tcb tcbCTable)
  | cap_zombie_cap id type => zombie_type_ok type /\ exists n p,
      c = Zombie_new n type p /\ zombie_ok n type p /\ n <= zombie_slots type
  | _ => True
  end.

(** A well-formed zombie, by its type, count and first slot. *)
Definition zombie_is (c : cap) (type n p : Z) : Prop :=
  exists id, c = cap_zombie_cap id type /\ cap_zombie_cap_get_capZombieNumber id type = n /\
    cap_zombie_cap_get_capZombiePtr id type = p /\ zombie_type_ok type /\ zombie_ok n type p /\
    n <= zombie_slots type /\ c = Zombie_new n type p.

Lemma zombie_new_is n type p :
  zombie_type_ok type -> zombie_ok n type p -> n <= zombie_slots type -> zombie_is (Zombie_new n type p) type n p.
Proof.
  intros Ht Hz Hn. destruct (zombie_roundtrip n type p n Hz Hz) as (id & E & H1 & H2 & _).
  exists id. by split_and!.
Qed.

Lemma zombie_shape id type :
  cap_shape (cap_zombie_cap id type) -> exists n p, zombie_is (cap_zombie_cap id type) type n p.
Proof. intros (Ht & n & p & E & Hz & Hn). exists n, p. rewrite E. by apply zombie_new_is. Qed.

Lemma zombie_is_shape c type n p : zombie_is c type n p -> cap_shape c.
Proof. intros (id & E & _ & _ & Ht & Hz & Hn & E'). rewrite E. split; [done|]. exists n, p. by rewrite <- E, E'. Qed.

Lemma zombie_is_container c type n p : zombie_is c type n p -> container c = Some (p, zombie_slots type).
Proof. intros (id & -> & _ & <- & _). done. Qed.

Lemma zombie_is_zombie c type n p : zombie_is c type n p -> is_zombie c = true.
Proof. by intros (id & -> & _). Qed.

Lemma zombie_slots_bound type : zombie_type_ok type -> 1 <= zombie_slots type <= 2 ^ 58.
Proof.
  unfold zombie_slots. intros [->|Ht]; [done|]. destruct (Z.eqb_spec type ZombieType_ZombieTCB) as [->|_]; [done|].
  split; [|apply Z.pow_le_mono_r; lia]. assert (0 < 2 ^ type) by (apply Z.pow_pos_nonneg; lia). lia.
Qed.

(** Counting one slot less. *)
Lemma zombie_decrement id type n p :
  zombie_is (cap_zombie_cap id type) type n p -> 0 < n ->
  zombie_is (cap_zombie_cap_set_capZombieNumber id type (n - 1)) type (n - 1) p.
Proof.
  intros (id0 & [= <-] & Hn & Hp & Ht & Hz & Hle & E) H0.
  assert (Hz' : zombie_ok (n - 1) type p) by (destruct Hz as (? & ? & ? & ?); split_and!; (done || lia)).
  destruct (zombie_roundtrip n type p (n - 1) Hz Hz') as (id1 & E1 & _ & _ & id' & E' & Hn' & Hp').
  rewrite <- E in E1. injection E1 as <-. rewrite E'. exists id'. split_and!; try done; [lia|].
  rewrite <- E'. unfold cap_zombie_cap_set_capZombieNumber, Zombie_new. cbv zeta.
  fold (cap_zombie_cap_get_capZombiePtr id type). rewrite Hp.
  destruct (zombie_bits type) as [Hb ->]; [by destruct Hz|].
  do 2 f_equal. destruct Hz as (_ & Hw & Hm & _). rewrite land_wnot_MASK, Hm by done. lia.
Qed.

(** The slots of a container are distinct. *)
Lemma cte_offset_distinct p i j :
  0 <= i < 2 ^ 58 -> 0 <= j < 2 ^ 58 -> cte_offset p i = cte_offset p j -> i = j.
Proof.
  unfold cte_offset, wadd, wshl, wrap. change seL4_SlotBits with 5. rewrite !Z.shiftl_mul_pow2 by done.
  change (2 ^ 5) with 32. rewrite !Zplus_mod_idemp_r. intros Hi Hj H.
  assert (Hd : ((p + i * 32) - (p + j * 32)) mod word_modulus = 0)
    by (rewrite Zminus_mod, H, Z.sub_diag; done).
  apply Z.mod_divide in Hd as [k Hk]; [|done]. unfold word_modulus in Hk. lia.
Qed.

Lemma cte_offset_0 p : is_word p -> cte_offset p 0 = p.
Proof. intros Hp. unfold cte_offset. change (wshl 0 seL4_SlotBits) with 0. unfold wadd. rewrite Z.add_0_r. by apply wrap_small. Qed.

(** ** The invariant *)
Definition same_slots (m m' : gmap Z cte) : Prop := forall x, is_Some (m' !! x) <-> is_Some (m !! x).

(** The only capability to its container. *)
Definition sole (m : gmap Z cte) (x : Z) : Prop :=
  forall y, container (cap_at m y) = container (cap_at m x) -> y = x.

Definition apart (k1 k2 : Z * Z) : Prop :=
  forall i j, 0 <= i < k1.2 -> 0 <= j < k2.2 -> cte_offset k1.1 i <> cte_offset k2.1 j.

Section Invariant.
(** The slots of the interrupts and the reply slots of the threads. *)
Variables irqs replies : Z -> Prop.

Record containers_ok (m : gmap Z cte) : Prop := {
  co_shape : forall x, cap_shape (cap_at m x);
  co_slots : forall x p n i, container (cap_at m x) = Some (p, n) -> 0 <= i < n -> is_Some (m !! cte_offset p i);
  co_first : forall x p n, container (cap_at m x) = Some (p, n) -> ~ irqs p /\ ~ replies p;
  co_apart : forall x y k k', container (cap_at m x) = Some k -> container (cap_at m y) = Some k' -> k = k' \/ apart k k';
  co_zombie : forall x, is_zombie (cap_at m x) = true -> sole m x;
  co_thread : forall x y t t', cap_at m x = cap_thread_cap t -> cap_at m y = cap_thread_cap t' ->
    container (cap_thread_cap t) = container (cap_thread_cap t') -> t = t'
}.

Record slots_ok (m : gmap Z cte) (cs : list (list Z)) : Prop := {
  so_mdb : mdb_wf m cs;
  so_grouped : grouped m cs;
  so_containers : containers_ok m;
  so_present : forall x, irqs x \/ replies x -> is_Some (m !! x);
  so_irq : forall x, irqs x -> exposable (cap_at m x) = true;
  so_reply : forall l x y, l ∈ cs -> replies x -> x ∈ l -> y ∈ l -> is_reply (cap_at m y) = true
}.

Lemma cap_at_null m cs x : mdb_wf m cs -> x ∈ concat cs <-> cap_at m x <> cap_null_cap.
Proof.
  intros Hwf. split.
  - intros Hx. destruct (mw_cells _ _ Hwf x Hx) as (c & Hc & Hn). by rewrite (slot_capability_Some _ _ _ Hc).
  - unfold cap_at. intros Hn. destruct (m !! x) as [c|] eqn:Hc; [|done].
    by apply (mw_cell_nonnull _ _ Hwf x c).
Qed.

Lemma container_nonnull m x k : container (cap_at m x) = Some k -> cap_at m x <> cap_null_cap.
Proof. intros H E. by rewrite E in H. Qed.

Lemma cap_at_some m x : cap_at m x <> cap_null_cap -> exists c, m !! x = Some c /\ cte_cap c = cap_at m x.
Proof. unfold cap_at. intros H. destruct (m !! x) as [c|] eqn:E; [by exists c|done]. Qed.

(** Every container of [m'] is one of [m], at the slot [f] names; a zombie
    that is new took the place of a sole capability. *)
Lemma containers_ok_image m m' f :
  containers_ok m -> same_slots m m' ->
  (forall x y, f x = f y -> x = y) ->
  (forall x, cap_shape (cap_at m' x)) ->
  (forall x k, container (cap_at m' x) = Some k -> container (cap_at m (f x)) = Some k /\
     (is_zombie (cap_at m' x) = true -> sole m (f x)) /\
     (is_zombie (cap_at m' x) = false -> cap_at m' x = cap_at m (f x))) ->
  containers_ok m'.
Proof.
  intros [C1 C2 C3 C4 C5 C6] Hs Hinj Hshape Himg. split.
  - done.
  - intros x p n i Hc Hi. apply Hs. destruct (Himg x _ Hc) as [Hc' _]. by apply (C2 (f x) p n).
  - intros x p n Hc. destruct (Himg x _ Hc) as [Hc' _]. by apply (C3 (f x) p n).
  - intros x y k k' Hx Hy. destruct (Himg x _ Hx) as [Hx' _]. destruct (Himg y _ Hy) as [Hy' _]. by eapply C4.
  - intros x Hz y Hy. apply Hinj. destruct (container (cap_at m' x)) as [k|] eqn:Hx; [|by destruct (cap_at m' x)].
    destruct (Himg x _ Hx) as (Hx' & Hsole & _). apply Hsole; [done|]. rewrite Hx'. by apply (Himg y).
  - intros x y t t' Hx Hy E.
    destruct (Himg x (TCB_PTR_CTE_PTR t tcbCTable, tcbArchCNodeEntries)) as (_ & _ & H1); [by rewrite Hx|].
    destruct (Himg y (TCB_PTR_CTE_PTR t' tcbCTable, tcbArchCNodeEntries)) as (_ & _ & H2); [by rewrite Hy|].
    rewrite Hx in H1. rewrite Hy in H2. by apply (C6 (f x) (f y)); [symmetry; apply H1|symmetry; apply H2|].
Qed.

Lemma cnode_radix radix gb g ptr : cap_shape (cap_cnode_cap radix gb g ptr) -> 0 <= radix.
Proof. intros [H1 [[H2|H2] _]]; [subst radix; by vm_compute in H1|apply H2]. Qed.

(** A final capability to a CNode or a thread is the only one. *)
Lemma final_sole m cs x :
  slots_ok m cs -> container (cap_at m x) <> None -> is_zombie (cap_at m x) = false ->
  (forall y, y ∈ concat cs -> y <> x -> sameObjectAs (cap_at m x) (cap_at m y) = false) -> sole m x.
Proof.
  intros [Hwf _ [C1 C2 C3 C4 C5 C6] _ _ _] Hc Hz Hfin y Hy.
  destruct (decide (y = x)) as [|Hne]; [done|exfalso]. destruct (container (cap_at m x)) as [k|] eqn:Hx; [|done].
  specialize (Hfin y). rewrite (cap_at_null _ _ _ Hwf) in Hfin. specialize (Hfin (container_nonnull _ _ _ Hy) Hne).
  pose proof (C5 y) as Hzy. unfold sole in Hzy. pose proof (C1 y) as Hsy. pose proof (C1 x) as Hsx.
  specialize (C6 x y). rewrite <- Hx in Hy. clear C2 C3 C4.
  assert (H5 : forall r, 2 ^ r <> tcbArchCNodeEntries).
  { intros r E. destruct (Z.lt_ge_cases r 3) as [Hr|Hr].
    - assert (r < 0 \/ r = 0 \/ r = 1 \/ r = 2) as [H|[->|[->| ->]]] by lia; try done. by rewrite Z.pow_neg_r in E.
    - pose proof (Z.pow_le_mono_r 2 3 r ltac:(lia) Hr). change (2 ^ 3) with 8 in *. change tcbArchCNodeEntries with 5 in *. lia. }
  destruct (cap_at m x) eqn:Ex; try done; destruct (cap_at m y) eqn:Ey; try done;
    try (specialize (Hzy eq_refl x); rewrite Ex in Hzy; by rewrite Hzy in Hne by done); cbn in Hy.
  - injection Hy as -> E. apply Z.pow_inj_r in E; [|done|by eapply cnode_radix..]. subst.
    cbn in Hfin. by rewrite !Z.eqb_refl in Hfin.
  - injection Hy as _ E. by destruct (H5 capCNodeRadix).
  - injection Hy as _ E. by destruct (H5 capCNodeRadix).
  - rewrite (C6 _ _ eq_refl eq_refl) in Hfin by (by cbn; rewrite Hy). cbn in Hfin. by rewrite Z.eqb_refl in Hfin.
Qed.

(** ** Emptying a slot *)
Lemma filter_app_inv (P : Z -> Prop) `{Hdec : !forall x, Decision (P x)} (l l1 l2 : list Z) :
  filter P l = l1 ++ l2 -> exists k1 k2, l = k1 ++ k2 /\ filter P k1 = l1 /\ filter P k2 = l2.
Proof.
  revert l1. induction l as [|a l IH]; intros l1 H.
  - symmetry in H. apply app_nil in H as [-> ->]. by exists [], [].
  - rewrite filter_cons in H. destruct (decide (P a)) as [Ha|Ha].
    + destruct l1 as [|b l1]; cbn in H; [exists [], (a :: l)|].
      { split_and!; [done|done|]. by rewrite filter_cons_True. }
      injection H as -> H. destruct (IH _ H) as (k1 & k2 & -> & <- & <-). exists (b :: k1), k2.
      by rewrite filter_cons_True.
    + destruct (IH _ H) as (k1 & k2 & -> & <- & <-). exists (a :: k1), k2. by rewrite filter_cons_False.
Qed.

Lemma filter_cons_inv (P : Z -> Prop) `{Hdec : !forall x, Decision (P x)} (l l2 : list Z) a :
  filter P l = a :: l2 -> exists k1 k2, l = k1 ++ a :: k2 /\ filter P k2 = l2.
Proof.
  induction l as [|b l IH]; intros H; [done|]. rewrite filter_cons in H. destruct (decide (P b)) as [Hb|Hb].
  - injection H as -> <-. by exists [], l.
  - destruct (IH H) as (k1 & k2 & -> & <-). by exists (b :: k1), k2.
Qed.

Lemma del_decompose x (l l1 mid l2 : list Z) a b :
  del x l = l1 ++ a :: mid ++ b :: l2 ->
  exists l1' mid' l2', l = l1' ++ a :: mid' ++ b :: l2' /\ (forall z, z ∈ mid -> z ∈ mid').
Proof.
  intros H. unfold del in H. apply filter_app_inv in H as (k1 & k2 & -> & _ & H).
  apply filter_cons_inv in H as (k3 & k4 & -> & H).
  apply filter_app_inv in H as (k5 & k6 & -> & H5 & H).
  apply filter_cons_inv in H as (k7 & k8 & -> & _).
  exists (k1 ++ k3), (k5 ++ k7), k8. split; [by rewrite <- !app_assoc|].
  intros z Hz. rewrite <- H5 in Hz. apply list_elem_of_filter in Hz as [_ Hz]. set_solver.
Qed.

(** Slots that lost their capability leave the groups as they are. *)
Lemma grouped_del m m' cs x :
  grouped m cs -> (forall y, cap_at m' y = if decide (y = x) then cap_null_cap else cap_at m y) ->
  grouped m' (del x <$> cs).
Proof.
  intros [G1 G2] Hcap.
  assert (Hsame : forall a b, same_object m' a b = true -> a <> x /\ b <> x /\ same_object m a b = true).
  { intros a b. unfold same_object. rewrite !Hcap. do 2 case_decide; subst; try done.
    - by destruct (cap_at m a). }
  split.
  - intros l l' a b Hl Hl' Ha Hb Hs. apply list_elem_of_fmap in Hl as (k & -> & Hk).
    apply list_elem_of_fmap in Hl' as (k' & -> & Hk'). apply elem_of_del in Ha as [_ Ha]. apply elem_of_del in Hb as [_ Hb].
    destruct (Hsame _ _ Hs) as (_ & _ & Hs'). by rewrite (G1 k k' a b).
  - intros l1 a mid b l2 z Hl Hs Hz. apply list_elem_of_fmap in Hl as (k & Hk & Hin).
    assert (Hzx : z <> x).
    { assert (Hz' : z ∈ del x k) by (rewrite <- Hk; set_solver). by apply elem_of_del in Hz' as [? _]. }
    symmetry in Hk. apply del_decompose in Hk as (l1' & mid' & l2' & -> & Hmid).
    destruct (Hsame _ _ Hs) as (Hax & _ & Hs').
    unfold same_object. rewrite !Hcap, !decide_False by done. apply (G2 l1' a mid' b l2' z); [done|done|by apply Hmid].
Qed.

Lemma slots_ok_empty m m' cs x :
  slots_ok m cs -> mdb_wf m' (del x <$> cs) -> same_slots m m' ->
  (forall y, cap_at m' y = if decide (y = x) then cap_null_cap else cap_at m y) ->
  slots_ok m' (del x <$> cs).
Proof.
  intros [S1 S2 S3 S4 S5 S6] Hwf Hs Hcap. split.
  - done.
  - by eapply grouped_del.
  - apply (containers_ok_image m m' (fun y => y)); [done|done|done| |].
    + intros y. rewrite Hcap. case_decide; [done|apply S3].
    + intros y k. rewrite Hcap. case_decide; [done|]. intros Hk. split_and!; [done|by apply S3|done].
  - intros y Hy. by apply Hs, S4.
  - intros y Hy. rewrite Hcap. case_decide; [done|by apply S5].
  - intros l y z Hl Hr Hy Hz. apply list_elem_of_fmap in Hl as (k & -> & Hk).
    apply elem_of_del in Hy as [_ Hy]. apply elem_of_del in Hz as [Hzx Hz].
    rewrite Hcap, decide_False by done. by apply (S6 k y).
Qed.

(** A zombie belongs to no group. *)
Lemma same_object_zombie m x y : is_zombie (cap_at m x) = true -> same_object m x y = false.
Proof. unfold same_object. by destruct (cap_at m x). Qed.

Lemma grouped_zombie m m' cs x :
  mdb_wf m cs -> grouped m cs -> (forall y, y <> x -> cap_at m' y = cap_at m y) ->
  is_zombie (cap_at m' x) = true -> x ∈ concat cs ->
  (forall y, y ∈ concat cs -> y <> x -> same_object m x y = false) -> grouped m' cs.
Proof.
  intros Hwf [G1 G2] Hcap Hz Hx Hfin.
  assert (Hsame : forall a b, same_object m' a b = true -> a <> x /\ b <> x /\ same_object m a b = true).
  { intros a b Hs. assert (Hax : a <> x) by (intros ->; by rewrite same_object_zombie in Hs).
    assert (Hbx : b <> x) by (intros ->; rewrite same_object_comm in Hs; by rewrite same_object_zombie in Hs).
    split_and!; [done..|]. unfold same_object in *. by rewrite !Hcap in Hs. }
  split.
  - intros l l' a b Hl Hl' Ha Hb Hs. destruct (Hsame _ _ Hs) as (_ & _ & Hs'). by apply (G1 l l' a b).
  - intros l1 a mid b l2 z Hl Hs Hmid. destruct (Hsame _ _ Hs) as (Ha & Hb & Hs').
    pose proof (G2 l1 a mid b l2 z Hl Hs' Hmid) as Haz. assert (Hzx : z <> x).
    { intros ->. rewrite same_object_comm, Hfin in Haz; [done| |done]. apply elem_of_concat. eexists. split; [exact Hl|set_solver]. }
    unfold same_object in *. by rewrite !Hcap.
Qed.

(** ** Exchanging a zombie with the first slot of its object *)
Lemma cap_at_swp m m' a b :
  (forall y, cap_at m' y = cap_at m (transp a b y)) -> forall y, cap_at m' (transp a b y) = cap_at m y.
Proof. intros H y. by rewrite H, transp_inv. Qed.

Lemma transp_inj a b x y : transp a b x = transp a b y -> x = y.
Proof. intros H. by rewrite <- (transp_inv a b x), H, transp_inv. Qed.

Lemma elem_of_swp a b x l : x ∈ swp a b l <-> transp a b x ∈ l.
Proof.
  unfold swp. rewrite list_elem_of_fmap. split.
  - intros (y & -> & Hy). by rewrite transp_inv.
  - intros H. exists (transp a b x). by rewrite transp_inv.
Qed.

Lemma grouped_swp m m' cs a b :
  grouped m cs -> (forall y, cap_at m' y = cap_at m (transp a b y)) -> grouped m' (swp a b <$> cs).
Proof.
  intros [G1 G2] Hcap.
  assert (Hsame : forall x y, same_object m' x y = same_object m (transp a b x) (transp a b y)).
  { intros x y. unfold same_object. by rewrite !Hcap. }
  split.
  - intros l l' x y Hl Hl' Hx Hy. apply list_elem_of_fmap in Hl as (k & -> & Hk).
    apply list_elem_of_fmap in Hl' as (k' & -> & Hk'). apply elem_of_swp in Hx. apply elem_of_swp in Hy.
    rewrite Hsame. intros Hs. by rewrite (G1 k k' _ _ Hk Hk' Hx Hy Hs).
  - intros l1 x mid y l2 z Hl. rewrite !Hsame. intros Hs Hz. apply list_elem_of_fmap in Hl as (k & Hk & Hin).
    assert (E : k = swp a b l1 ++ transp a b x :: swp a b mid ++ transp a b y :: swp a b l2).
    { assert (E : swp a b (swp a b k) = k).
      { unfold swp. rewrite <- list_fmap_compose. rewrite <- (list_fmap_id k) at 2. apply list_fmap_ext.
        intros. apply transp_inv. }
      rewrite <- E, <- Hk. unfold swp. by rewrite !fmap_app, !fmap_cons, !fmap_app, !fmap_cons. }
    subst k. eapply G2; [exact Hin|exact Hs|]. by rewrite elem_of_swp, transp_inv.
Qed.

Lemma slots_ok_swap m m' cs a b k :
  slots_ok m cs -> mdb_wf m' (swp a b <$> cs) -> same_slots m m' ->
  (forall y, cap_at m' y = cap_at m (transp a b y)) ->
  is_zombie (cap_at m b) = true -> container (cap_at m b) = Some (a, k) ->
  slots_ok m' (swp a b <$> cs).
Proof.
  intros [S1 S2 S3 S4 S5 S6] Hwf Hs Hcap Hz Hb.
  destruct (co_first _ S3 b a k Hb) as [Ha1 Ha2].
  assert (Hexp : exposable (cap_at m b) = false) by (by destruct (cap_at m b)).
  assert (Hfix : forall x, irqs x \/ replies x /\ x ∈ concat cs -> transp a b x = x).
  { intros x Hx. apply transp_o.
    - intros ->. tauto.
    - intros ->. destruct Hx as [Hx|[Hx Hin]]; [by rewrite S5 in Hexp|].
      apply elem_of_concat in Hin as (l & Hl & Hx'). by rewrite (is_reply_exposable _ (S6 l b b Hl ltac:(done) ltac:(done) ltac:(done))) in Hexp. }
  split.
  - done.
  - by eapply grouped_swp.
  - apply (containers_ok_image m m' (transp a b)); [done|done|apply transp_inj| |].
    + intros y. rewrite Hcap. apply S3.
    + intros y c. rewrite Hcap. intros Hc. split_and!; [done|apply S3|done].
  - intros y Hy. by apply Hs, S4.
  - intros y Hy. rewrite Hcap, Hfix by (by left). by apply S5.
  - intros l x y Hl Hr Hx Hy. apply list_elem_of_fmap in Hl as (l0 & -> & Hl0).
    rewrite elem_of_swp in Hx. rewrite elem_of_swp in Hy. rewrite Hcap.
    assert (Hx0 : transp a b x ∈ concat cs) by (apply elem_of_concat; eauto).
    apply (S6 l0 x); [done|done| |done]. destruct (decide (x = a)) as [->|Hxa]; [tauto|].
    destruct (decide (x = b)) as [->|Hxb]; [|by rewrite transp_o in Hx].
    exfalso. assert (Hin : b ∈ concat cs) by (apply (cap_at_null _ _ _ S1); by eapply container_nonnull).
    apply elem_of_concat in Hin as (l & Hl & Hx'). by rewrite (is_reply_exposable _ (S6 l b b Hl ltac:(done) ltac:(done) ltac:(done))) in Hexp.
Qed.

(** ** Replacing a container's capability by a zombie *)
Lemma slots_ok_zombie m m' cs x type n p :
  slots_ok m cs -> mdb_wf m' cs -> same_slots m m' ->
  (forall y, y <> x -> cap_at m' y = cap_at m y) -> zombie_is (cap_at m' x) type n p ->
  container (cap_at m x) = Some (p, zombie_slots type) -> sole m x ->
  (forall y, y ∈ concat cs -> y <> x -> same_object m x y = false) ->
  slots_ok m' cs.
Proof.
  intros [S1 S2 S3 S4 S5 S6] Hwf Hs Hcap Hz Hc Hsole Hfin.
  assert (Hexp : exposable (cap_at m x) = false) by (destruct (exposable (cap_at m x)) eqn:E; [|done];
    by rewrite (exposable_container _ E) in Hc).
  assert (Hin : x ∈ concat cs) by (apply (cap_at_null _ _ _ S1); by eapply container_nonnull).
  split.
  - done.
  - by apply (grouped_zombie m m' cs x); [..|eapply zombie_is_zombie| |].
  - apply (containers_ok_image m m' (fun y => y)); [done|done|done| |].
    + intros y. destruct (decide (y = x)) as [->|Hy]; [by eapply zombie_is_shape|]. rewrite Hcap by done. apply S3.
    + intros y k. destruct (decide (y = x)) as [->|Hy].
      * rewrite (zombie_is_container _ _ _ _ Hz), (zombie_is_zombie _ _ _ _ Hz), Hc. done.
      * rewrite Hcap by done. intros Hk. split_and!; [done|by apply S3|done].
  - intros y Hy. by apply Hs, S4.
  - intros y Hy. rewrite Hcap; [by apply S5|]. intros ->. by rewrite S5 in Hexp.
  - intros l y z Hl Hr Hy Hz'. rewrite Hcap; [by apply (S6 l y)|]. intros ->.
    by rewrite (is_reply_exposable _ (S6 l y x Hl Hr Hy Hz')) in Hexp.
Qed.


End Invariant.

(** ** Progress

    Deletion ends because slots become empty, and because exchanging a zombie
    with the first slot of its object makes it cyclic for good: the loose
    containers are the others. *)
Definition loose_at (m : gmap Z cte) (x : Z) : bool :=
  match container (cap_at m x) with
  | Some _ => negb (capCyclicZombie (cap_at m x) x)
  | None => false
  end.
Definition loose (m : gmap Z cte) : gset Z := filter (fun x => loose_at m x = true) (dom m).
Definition full (m : gmap Z cte) : gset Z := filter (fun x => cap_is_null (cap_at m x) = false) (dom m).

Lemma cap_at_dom m x : cap_is_null (cap_at m x) = false -> x ∈ dom m.
Proof. unfold cap_at. intros H. apply elem_of_dom. destruct (m !! x); [eauto|done]. Qed.

Lemma elem_of_full m x : x ∈ full m <-> cap_at m x <> cap_null_cap.
Proof.
  unfold full. rewrite elem_of_filter. rewrite <- cap_is_null_spec, not_true_iff_false.
  split; [by intros [? _]|]. intros H. split; [done|by apply cap_at_dom].
Qed.

Lemma elem_of_loose m x : x ∈ loose m <-> loose_at m x = true.
Proof.
  unfold loose. rewrite elem_of_filter. split; [by intros [? _]|]. intros H. split; [done|].
  apply cap_at_dom. unfold loose_at in H. by destruct (cap_at m x).
Qed.

Lemma size_injective (A B : gset Z) (f : Z -> Z) :
  (forall x y, f x = f y -> x = y) -> (forall x, x ∈ A -> f x ∈ B) -> (size A <= size B)%nat.
Proof.
  intros Hinj Hf. unfold size, set_size. cbn. rewrite <- (length_fmap f).
  apply submseteq_length, NoDup_submseteq.
  - apply NoDup_fmap_2; [exact Hinj|apply NoDup_elements].
  - intros y Hy. apply list_elem_of_fmap in Hy as (x & -> & Hx). apply elem_of_elements in Hx.
    by apply elem_of_elements, Hf.
Qed.

Lemma size_smaller (A B : gset Z) (f : Z -> Z) b :
  (forall x y, f x = f y -> x = y) -> (forall x, x ∈ A -> f x ∈ B /\ f x <> b) -> b ∈ B -> (size A < size B)%nat.
Proof.
  intros Hinj Hf Hb. pose proof (size_injective A (B ∖ {[b]}) f Hinj ltac:(set_solver)).
  assert (size B <> 0%nat) by (rewrite size_non_empty_iff; set_solver).
  rewrite size_difference in H by set_solver. rewrite size_singleton in H. lia.
Qed.

(** [c'] is [c], or the zombie of its object. *)
Definition derives (c c' : cap) : Prop := c' = c \/ (is_zombie c' = true /\ container c' = container c).

Record evolves (m m' : gmap Z cte) : Prop := {
  ev_same : same_slots m m';
  ev_loose : (size (loose m') <= size (loose m))%nat;
  ev_full : (size (full m') <= size (full m))%nat;
  ev_origin : forall x, cap_at m' x <> cap_null_cap -> exists y, derives (cap_at m y) (cap_at m' x)
}.

#[export] Instance evolves_preorder : PreOrder evolves.
Proof.
  split.
  - intros m. split; [done|done|done|]. intros x Hx. exists x. by left.
  - intros m1 m2 m3 [A1 A2 A3 A4] [B1 B2 B3 B4]. split; [|lia|lia|].
    + intros x. etrans; [apply B1|apply A1].
    + intros x Hx. destruct (B4 x Hx) as (y & Hy).
      assert (Hn : cap_at m2 y <> cap_null_cap).
      { intros E. rewrite E in Hy. destruct Hy as [Hy|[Hz Hc]]; [done|]. by destruct (cap_at m3 x). }
      destruct (A4 y Hn) as (z & Hz). exists z.
      destruct Hy as [Hy|[Hy1 Hy2]], Hz as [Hz|[Hz1 Hz2]]; [left|right; split..]; congruence.
Qed.

(** Losing capabilities. *)
Lemma evolves_lost m m' :
  same_slots m m' -> (forall y, cap_at m' y = cap_at m y \/ cap_at m' y = cap_null_cap) -> evolves m m'.
Proof.
  intros Hs Hcap. split.
  - done.
  - apply subseteq_size. intros x. rewrite !elem_of_loose. unfold loose_at. by destruct (Hcap x) as [-> | ->].
  - apply subseteq_size. intros x. rewrite !elem_of_full. by destruct (Hcap x) as [-> | ->].
  - intros x Hx. exists x. left. by destruct (Hcap x).
Qed.

Lemma full_lost m m' x :
  (forall y, cap_at m' y = cap_at m y \/ cap_at m' y = cap_null_cap) ->
  cap_at m x <> cap_null_cap -> cap_at m' x = cap_null_cap -> (size (full m') < size (full m))%nat.
Proof.
  intros Hcap H1 H2. apply (size_smaller _ _ (fun y => y) x); [done| |by apply elem_of_full].
  intros y. rewrite !elem_of_full. destruct (Hcap y) as [E|E]; rewrite E; [|done]. intros Hy. split; [done|].
  intros ->. congruence.
Qed.

(** Exchanging. *)
Lemma evolves_swap m m' a b k :
  same_slots m m' -> (forall y, cap_at m' y = cap_at m (transp a b y)) -> a <> b ->
  is_zombie (cap_at m b) = true -> container (cap_at m b) = Some (a, k) ->
  capCyclicZombie (cap_at m a) a = false ->
  evolves m m' /\ (size (loose m') < size (loose m))%nat.
Proof.
  intros Hs Hcap Hab Hz Hb Ha.
  assert (Hcyc : forall x, capCyclicZombie (cap_at m b) x = (x =? a)).
  { intros x. destruct (cap_at m b); try done. injection Hb as <- _. cbn. apply Z.eqb_sym. }
  assert (Hl : (size (loose m') < size (loose m))%nat).
  { apply (size_smaller _ _ (transp a b) b); [apply transp_inj| |].
    - intros x. rewrite !elem_of_loose. unfold loose_at. rewrite Hcap. destruct (decide (x = a)) as [->|Hxa].
      + rewrite transp_l, Hb, Hcyc, Z.eqb_refl. done.
      + destruct (decide (x = b)) as [->|Hxb].
        * rewrite transp_r, Ha. destruct (container (cap_at m a)); [|done]. split; [done|congruence].
        * rewrite transp_o by done. done.
    - rewrite elem_of_loose. unfold loose_at. rewrite Hb, Hcyc. destruct (Z.eqb_spec b a); [congruence|done]. }
  split; [|done]. split; [done|lia| |].
  - apply (size_injective _ _ (transp a b)); [apply transp_inj|]. intros x. by rewrite !elem_of_full, Hcap.
  - intros x Hx. exists (transp a b x). left. apply Hcap.
Qed.

(** Replacing a container's capability by a zombie. *)
Lemma evolves_zombie m m' x :
  same_slots m m' -> (forall y, y <> x -> cap_at m' y = cap_at m y) -> is_zombie (cap_at m' x) = true ->
  container (cap_at m' x) = container (cap_at m x) -> evolves m m'.
Proof.
  intros Hs Hcap Hz Hc. assert (Hn : cap_at m x <> cap_null_cap) by (intros E; rewrite E in Hc; by destruct (cap_at m' x)).
  split.
  - done.
  - apply subseteq_size. intros y. rewrite !elem_of_loose. destruct (decide (y = x)) as [->|Hy].
    + unfold loose_at. rewrite Hc. destruct (container (cap_at m x)) as [k|] eqn:Hk; [|done].
      destruct (cap_at m' x); try done. destruct (cap_at m x); try done. cbn in *. by injection Hk as <-; injection Hc as -> _.
    + unfold loose_at. by rewrite Hcap.
  - apply subseteq_size. intros y. rewrite !elem_of_full. destruct (decide (y = x)) as [->|Hy]; [done|by rewrite Hcap].
  - intros y Hy. destruct (decide (y = x)) as [->|Hyx]; [exists x; by right|]. exists y. left. by apply Hcap.
Qed.

(** ** Rules of the slot operations *)
Section Rules.
Context (irqs replies : Z -> Prop) (s : kstate) (cs : list (list Z)).
Notation m := (ksCTEs s).
Notation ok := (slots_ok irqs replies).
Hypothesis Hok : ok m cs.

Lemma wp_slot_cap x Q : is_Some (m !! x) -> Q (cap_at m x) s -> wp (slot_cap x) Q s.
Proof.
  intros [c Hc] HQ. unfold slot_cap. wp_struct. eapply wp_getCTE; [exact Hc|]. wp_struct.
  by rewrite (slot_capability_Some _ _ _ Hc) in HQ.
Qed.

(** The data of slots, as capabilities. *)
Lemma cap_at_data (m1 m2 : gmap Z cte) x y :
  (fun d : cap * bool * bool => d.1.1) <$> (cte_data <$> m1 !! x) = (fun d => d.1.1) <$> (cte_data <$> m2 !! y) ->
  cap_at m1 x = cap_at m2 y /\ (is_Some (m1 !! x) <-> is_Some (m2 !! y)).
Proof.
  unfold cap_at. destruct (m1 !! x) as [c1|], (m2 !! y) as [c2|]; cbn; intros H; try done.
  injection H as H. split; [done|]. split; eauto.
Qed.

Lemma wp_emptied x info Q :
  is_Some (m !! x) ->
  (forall m' cs' s', ok m' cs' -> same_slots m m' ->
     (forall y, cap_at m' y = if decide (y = x) then cap_null_cap else cap_at m y) ->
     s' = set_ksCTEs (fun _ => m') s \/ s' = released info (set_ksCTEs (fun _ => m') s) -> Q tt s') ->
  wp (emptySlot x info) Q s.
Proof.
  intros [c Hc] HQ. destruct (cap_is_null (cte_cap c)) eqn:Hn.
  - unfold emptySlot. wp_struct. eapply wp_getCTE; [exact Hc|]. rewrite Hn. cbn [negb]. wp_struct.
    apply (HQ m cs); [exact Hok|done| |left; by destruct s].
    intros y. case_decide; [|done]. subst. apply cap_is_null_spec in Hn. by rewrite (slot_capability_Some _ _ _ Hc).
  - assert (Hnn : cte_cap c <> cap_null_cap) by (intros E; by rewrite E in Hn).
    eapply wp_emptySlot_wf; [apply Hok|exact Hc|exact Hnn|]. intros m' Hwf Hx Ho Hnext.
    assert (Hsame : forall y, cap_at m' y = (if decide (y = x) then cap_null_cap else cap_at m y) /\
      (is_Some (m' !! y) <-> is_Some (m !! y))).
    { intros y. case_decide as Hy; [subst; unfold cap_at; rewrite Hx, Hc; split; [done|split; eauto]|].
      apply cap_at_data. destruct (decide (y = mdbNext (cteMDBNode c))) as [->|Hyn]; [|by rewrite Ho].
      destruct (decide (mdbNext (cteMDBNode c) = 0)) as [->|Hn0];
        [by rewrite (mw_null _ _ Hwf), (mw_null _ _ (so_mdb _ _ _ _ Hok))|].
      destruct (Hnext Hn0) as (cn & Hcn & E). by rewrite E, Hcn. }
    apply wp_postCapDeletion. eapply (HQ m'); [| | |by right].
    + eapply slots_ok_empty; [exact Hok|exact Hwf|intros y; apply Hsame|intros y; apply Hsame].
    + intros y. apply Hsame.
    + intros y. apply Hsame.
Qed.

Lemma wp_final x Q :
  cap_at m x <> cap_null_cap ->
  (forall b, (b = true -> forall y, y ∈ concat cs -> y <> x -> same_object m x y = false) -> Q b s) ->
  wp (isFinalCapability x) Q s.
Proof.
  intros Hx HQ. destruct (cap_at_some _ _ Hx) as (c & Hc & E).
  eapply wp_mono; [apply wp_isFinalCapability with (cs := cs) (ca := c); [apply Hok|apply Hok|exact Hc|by rewrite E]|].
  intros b s' [-> Hb]. apply HQ. intros ->. unfold same_object. rewrite <- E. by apply Hb.
Qed.

(** A capability replaced by another one leaves the lists alone. *)
Lemma mdb_wf_cap (m0 : gmap Z cte) x c c' :
  mdb_wf m0 cs -> m0 !! x = Some c -> cteMDBNode c' = cteMDBNode c ->
  (cte_cap c' = cap_null_cap <-> cte_cap c = cap_null_cap) -> mdb_wf (<[x := c']> m0) cs.
Proof.
  intros [W1 W2 W3 W4 W5] Hc Hn Hnull.
  assert (Hlink : forall f y, clink f (<[x := c']> m0) y = clink f m0 y).
  { intros f y. unfold clink. destruct (decide (y = x)) as [->|Hy]; [by rewrite lookup_insert_eq, Hc, Hn|by rewrite lookup_insert_ne]. }
  split.
  - rewrite lookup_insert_ne; [done|]. intros ->. congruence.
  - done.
  - intros l Hl. eapply dlist_ext; [|by apply W3]. intros y _. by rewrite !Hlink.
  - intros y Hy. destruct (W4 y Hy) as (d & Hd & Hdn). destruct (decide (y = x)) as [->|Hyx].
    + exists c'. rewrite lookup_insert_eq. split; [done|]. rewrite Hnull. congruence.
    + exists d. by rewrite lookup_insert_ne.
  - intros y d. destruct (decide (y = x)) as [->|Hyx].
    + rewrite lookup_insert_eq. intros [= <-] Hout. rewrite Hnull, Hn. by apply W5 with x.
    + rewrite lookup_insert_ne by done. by apply W5.
Qed.

Lemma wp_set_zombie x z type n p Q :
  zombie_is z type n p -> container (cap_at m x) = Some (p, zombie_slots type) -> sole m x ->
  (forall y, y ∈ concat cs -> y <> x -> same_object m x y = false) ->
  (forall m', ok m' cs -> same_slots m m' -> cap_at m' x = z -> (forall y, y <> x -> cap_at m' y = cap_at m y) ->
     Q tt (set_ksCTEs (fun _ => m') s)) ->
  wp (setCap x z) Q s.
Proof.
  intros Hz Hk Hsole Hfin HQ. pose proof (container_nonnull _ _ _ Hk) as Hn.
  destruct (cap_at_some _ _ Hn) as (c & Hc & E).
  unfold setCap. eapply wp_modCTE; [exact Hc|]. set (c' := set_cte_cap _ c).
  assert (Hs : same_slots m (<[x := c']> m)).
  { intros y. destruct (decide (y = x)) as [->|Hy]; [rewrite lookup_insert_eq, Hc; split; eauto|by rewrite lookup_insert_ne]. }
  assert (Hx : cap_at (<[x := c']> m) x = z) by (unfold cap_at; by rewrite lookup_insert_eq).
  assert (Hy : forall y, y <> x -> cap_at (<[x := c']> m) y = cap_at m y)
    by (intros y Hy; unfold cap_at; by rewrite lookup_insert_ne).
  apply (HQ (<[x := c']> m)); try done.
  apply (slots_ok_zombie irqs replies m _ cs x type n p); try done; [|by rewrite Hx].
  eapply mdb_wf_cap; [apply Hok|exact Hc|done|]. cbn. rewrite E. destruct Hz as (id & -> & _). done.
Qed.

Lemma wp_capSwapForDelete a b k Q :
  is_zombie (cap_at m b) = true -> container (cap_at m b) = Some (a, k) -> a <> b -> is_Some (m !! a) ->
  (forall m', ok m' (swp a b <$> cs) -> same_slots m m' ->
     (forall y, cap_at m' y = cap_at m (transp a b y)) -> Q tt (set_ksCTEs (fun _ => m') s)) ->
  wp (capSwapForDelete a b) Q s.
Proof.
  intros Hz Hk Hab [ca Ha] HQ. destruct (cap_at_some _ _ (container_nonnull _ _ _ Hk)) as (cb & Hb & E).
  unfold capSwapForDelete. rewrite (proj2 (Z.eqb_neq a b)) by done.
  wp_struct. eapply wp_getCTE; [exact Ha|]. wp_struct. eapply wp_getCTE; [exact Hb|].
  eapply wp_cteSwap_wf; [apply Hok|exact Ha|exact Hb|done|done|done|]. intros m' Hwf Ho Da Db.
  assert (Hsame : forall y, cap_at m' y = cap_at m (transp a b y) /\ (is_Some (m' !! y) <-> is_Some (m !! transp a b y))).
  { intros y. apply cap_at_data. destruct (decide (y = a)) as [->|Hya]; [by rewrite transp_l, Da, Hb|].
    destruct (decide (y = b)) as [->|Hyb]; [by rewrite transp_r, Db, Ha|]. by rewrite transp_o, Ho. }
  assert (Hs : same_slots m m').
  { intros y. rewrite (proj2 (Hsame y)). unfold transp. repeat case_decide; subst; [..|done]; rewrite ?Ha, ?Hb; split; eauto. }
  apply HQ; [|exact Hs|apply Hsame]. eapply slots_ok_swap; [exact Hok|exact Hwf|exact Hs|apply Hsame|exact Hz|exact Hk].
Qed.
End Rules.

(** ** Slots of a kernel state *)
Definition irq_slots (s : kstate) (x : Z) : Prop :=
  exists irq, 0 <= irq <= maxIRQ /\ x = cte_offset (intStateIRQNode s) irq.
Definition reply_slots (s : kstate) (x : Z) : Prop :=
  exists t, is_Some (ksTCBs s !! t) /\ x = TCB_PTR_CTE_PTR t tcbReply.
Definition state_slots (s : kstate) : gmap Z cte -> list (list Z) -> Prop :=
  slots_ok (irq_slots s) (reply_slots s).

(** [s'] has the objects of [s] and no more address spaces. *)
Record later (s s' : kstate) : Prop := {
  la_tcbs : forall x, is_Some (ksTCBs s' !! x) <-> is_Some (ksTCBs s !! x);
  la_eps : forall x, is_Some (ksEPs s' !! x) <-> is_Some (ksEPs s !! x);
  la_ntfns : forall x, is_Some (ksNTFNs s' !! x) <-> is_Some (ksNTFNs s !! x);
  la_irqs : intStateIRQNode s' = intStateIRQNode s;
  la_asids : forall a root, asid_lookup s' a = asid_map_vspace root -> asid_lookup s a = asid_map_vspace root
}.

#[export] Instance later_preorder : PreOrder later.
Proof.
  split; [by intros s; split|]. intros s1 s2 s3 [A1 A2 A3 A4 A5] [B1 B2 B3 B4 B5].
  split; [intros x; by rewrite B1|intros x; by rewrite B2|intros x; by rewrite B3|congruence|auto].
Qed.

(** The object of a capability exists. *)
Definition cap_valid (s : kstate) (c : cap) : Prop :=
  match c with
  | cap_endpoint_cap _ _ _ _ _ ptr => is_Some (ksEPs s !! ptr)
  | cap_notification_cap _ _ _ ptr => is_Some (ksNTFNs s !! ptr)
  | cap_thread_cap tcb => is_Some (ksTCBs s !! tcb)
  | cap_irq_handler_cap irq => 0 <= irq <= maxIRQ
  | cap_frame_cap asid _ _ _ _ _ => 0 <= asid < 2 ^ 16
  | cap_page_table_cap _ base _ _ => forall a root, asid_lookup s a = asid_map_vspace root -> root <> base
  | cap_asid_pool_cap base pool => Z.land base (MASK asidLowBits) = 0 /\ pool <> 0
  | _ => True
  end.

Lemma cap_valid_later s s' c : later s s' -> cap_valid s c -> cap_valid s' c.
Proof.
  intros [L1 L2 L3 L4 L5]. destruct c; cbn; rewrite ?L1, ?L2, ?L3; try done.
  intros H a root Hr. by apply (H a), L5.
Qed.

Lemma slots_ok_iff irqs replies irqs' replies' m cs :
  (forall x, irqs' x <-> irqs x) -> (forall x, replies' x <-> replies x) ->
  slots_ok irqs replies m cs -> slots_ok irqs' replies' m cs.
Proof.
  intros Hi Hr [S1 S2 [C1 C2 C3 C4 C5 C6] S4 S5 S6]. split; try done.
  - split; try done. intros x p n Hc. rewrite Hi, Hr. by apply (C3 x p n).
  - intros x. rewrite Hi, Hr. apply S4.
  - intros x. rewrite Hi. apply S5.
  - intros l x y Hl. rewrite Hr. by apply S6.
Qed.

Lemma state_slots_later s s' m cs : later s s' -> state_slots s m cs -> state_slots s' m cs.
Proof.
  intros [L1 _ _ L4 _]. apply slots_ok_iff.
  - intros x. unfold irq_slots. by rewrite L4.
  - intros x. unfold reply_slots. split; intros (t & Ht & ->); exists t; split; try done; by apply L1.
Qed.

(** ** What deletion asks of [finaliseCap]

    The client of this interface is [cteDelete]; the implementation is the
    kernel's [finaliseCap] with the scheduler, the wait queues and the address
    spaces behind it. *)
Definition pruned (m m' : gmap Z cte) : Prop :=
  same_slots m m' /\
  forall y, cap_at m' y = cap_at m y \/ (exposable (cap_at m y) = true /\ cap_at m' y = cap_null_cap).

(** The remainder and the cleanup that finalising [c] returns. *)
Definition remains (c : cap) (final : bool) (r : cap * cap) : Prop :=
  match container c with
  | Some (p, n) =>
      if is_zombie c then r = (c, cap_null_cap)
      else if final then exists type, zombie_is r.1 type n p /\ zombie_slots type = n
      else r = (cap_null_cap, cap_null_cap)
  | None => r.1 = cap_null_cap
  end.

Class Finaliser (I : kstate -> Prop) : Prop := {
  fin_slots s m' : I s -> same_slots (ksCTEs s) m' -> I (set_ksCTEs (fun _ => m') s);
  fin_released s c : I s -> I (released c s);
  fin_preempt s n l : I s -> I (set_ksWorkUnitsCompleted (fun _ => n) (set_ksIRQPending (fun _ => l) s));
  fin_finalise s cs x final : I s -> state_slots s (ksCTEs s) cs -> (forall y, cap_valid s (cap_at (ksCTEs s) y)) ->
    let c := cap_at (ksCTEs s) x in
    wp (finaliseCap c final false) (fun r s' => I s' /\ later s s' /\ pruned (ksCTEs s) (ksCTEs s') /\
      remains c final r /\ exists cs', state_slots s' (ksCTEs s') cs') s
}.
