(* ===== verification/Finalise.v ===== *)
(** * Finalising capabilities

    [finaliseCap] of src/object/objecttype.c with what it calls: it implements
    the interface [Finaliser] of [SlotInv] for the kernel's invariant, so that
    the theorems on deletion hold of the kernel.  Deleting the last capability
    to an endpoint or a notification wakes its waiters, a thread is suspended,
    address spaces are taken out of the page tables. *)
From stdpp Require Import base list sets gmap.
From S2P Require Import Prelude Dll Structures CapOps CSpace VSpace Sched DomSched ReadyQueue Schedule SchedOps Mdb MdbInv Messages Objects Delete Interrupt EpQueue Ipc Concrete MdbThm CapThm IpcThm Frames SlotInv.
#[local] Open Scope Z_scope.

(** ** The kernel's invariant *)

(** Page tables are whole: the walk from a root finds every entry it reads. *)
Record tables_ok (s : kstate) : Prop := {
  to_root : forall asid root i, asid_lookup s asid = asid_map_vspace root -> 0 <= i < 2 ^ 9 ->
    is_Some (ksPTEs s !! pte_offset root i);
  to_table : forall a base i, ksPTEs s !! a = Some (pte_table base) -> 0 <= i < 2 ^ 9 ->
    is_Some (ksPTEs s !! pte_offset (ptrFromPAddr base) i);
  to_null : ksPTEs s !! 0 = None
}.

Record kernel_inv (s : kstate) : Prop := {
  ki_queues : exists rq q, kinv s rq q;
  ki_action : action_simple s;
  ki_bound_tcb : forall a n, ksNTFNs s !! a = Some n -> ntfnBoundTCB n <> 0 -> is_Some (ksTCBs s !! ntfnBoundTCB n);
  ki_bound_ntfn : forall x t, ksTCBs s !! x = Some t -> tcbBoundNotification t <> 0 ->
    is_Some (ksNTFNs s !! tcbBoundNotification t);
  ki_tables : tables_ok s
}.

(** The queues do not read the slots beyond their addresses, nor what the
    hardware and the interrupts are given. *)
Lemma sched_inv_fields s s' rq :
  ksTCBs s' = ksTCBs s -> ksReadyQueues s' = ksReadyQueues s -> ksReadyQueuesL1Bitmap s' = ksReadyQueuesL1Bitmap s ->
  ksReadyQueuesL2Bitmap s' = ksReadyQueuesL2Bitmap s -> ksCurThread s' = ksCurThread s ->
  ksIdleThread s' = ksIdleThread s -> ksSchedulerAction s' = ksSchedulerAction s -> ksCurDomain s' = ksCurDomain s ->
  domsched_inv s' -> vm_ok s' -> sched_inv s rq -> sched_inv s' rq.
Proof.
  intros E1 E4 E5 E6 E7 E8 E9 E10 Hdom Hvm [I1 I2 I3 I4 I5 I6 I7 I8]. unfold trun in *.
  split; rewrite ?E1, ?E7, ?E8, ?E9, ?E10; try done.
  - unfold ready_wf in *. by rewrite E1, E4, E5, E6.
  - intros p x Hp Hx. unfold trun. rewrite E1. by apply (I2 p x).
  - unfold trun. by rewrite E1.
Qed.

Lemma kinv_fields s s' rq q :
  ksTCBs s' = ksTCBs s -> ksEPs s' = ksEPs s -> ksNTFNs s' = ksNTFNs s ->
  ksReadyQueues s' = ksReadyQueues s -> ksReadyQueuesL1Bitmap s' = ksReadyQueuesL1Bitmap s ->
  ksReadyQueuesL2Bitmap s' = ksReadyQueuesL2Bitmap s -> ksCurThread s' = ksCurThread s ->
  ksIdleThread s' = ksIdleThread s -> ksSchedulerAction s' = ksSchedulerAction s -> ksCurDomain s' = ksCurDomain s ->
  domsched_inv s' -> vm_ok s' -> kinv s rq q -> kinv s' rq q.
Proof.
  intros E1 E2 E3 E4 E5 E6 E7 E8 E9 E10 Hdom Hvm [Hs Hw]. split.
  - by apply (sched_inv_fields s).
  - eapply ipc_wf_same; [exact Hw|done|done|]. intros x. by rewrite E1.
Qed.

Lemma vm_ok_slots s m' : vm_ok s -> same_slots (ksCTEs s) m' -> vm_ok (set_ksCTEs (fun _ => m') s).
Proof. intros [V1 V2 V3] Hs. split; [|done|done]. intros x Hx. st_simpl. apply Hs. by apply V1. Qed.

Lemma kernel_inv_slots s m' :
  kernel_inv s -> same_slots (ksCTEs s) m' -> kernel_inv (set_ksCTEs (fun _ => m') s).
Proof.
  intros [(rq & q & Hk) K2 K3 K4 [T1 T2 T3]] Hs. split; [|done|done|done|by split].
  exists rq, q. eapply kinv_fields; [..|exact Hk]; try done; [apply Hk|]. apply vm_ok_slots; [apply Hk|done].
Qed.

Lemma kernel_inv_released s c : kernel_inv s -> kernel_inv (released c s).
Proof.
  intros [(rq & q & Hk) K2 K3 K4 [T1 T2 T3]]. destruct c; try (by split; [by exists rq, q|..]).
  split; [|done|done|done|by split]. exists rq, q. eapply kinv_fields; [..|exact Hk]; try done; [apply Hk|].
  destruct (si_vm _ _ (proj1 Hk)) as [V1 V2 V3]. by split.
Qed.

Lemma kernel_inv_preempt s n l :
  kernel_inv s -> kernel_inv (set_ksWorkUnitsCompleted (fun _ => n) (set_ksIRQPending (fun _ => l) s)).
Proof.
  intros [(rq & q & Hk) K2 K3 K4 [T1 T2 T3]]. split; [|done|done|done|by split].
  exists rq, q. eapply kinv_fields; [..|exact Hk]; try done; [apply Hk|].
  destruct (si_vm _ _ (proj1 Hk)) as [V1 V2 V3]. by split.
Qed.

(** Quiet operations keep everything but the queues, which have their own rules. *)
Lemma fmap_some_iff {A B} (f : A -> B) (m m' : gmap Z A) x : f <$> m' = f <$> m -> is_Some (m' !! x) <-> is_Some (m !! x).
Proof.
  intros H. apply (f_equal (.!! x)) in H. rewrite !lookup_fmap in H.
  destruct (m' !! x), (m !! x); try done; split; eauto.
Qed.

Lemma fmap_lookup_same {A B} (f : A -> B) (m m' : gmap Z A) x a :
  f <$> m' = f <$> m -> m' !! x = Some a -> exists a0, m !! x = Some a0 /\ f a0 = f a.
Proof.
  intros H Hx. apply (f_equal (.!! x)) in H. rewrite !lookup_fmap, Hx in H.
  destruct (m !! x) as [a0|]; [|done]. exists a0. split; [done|]. cbn in H. congruence.
Qed.

Lemma kernel_inv_quiet s s' rq q : kernel_inv s -> quiet s s' -> kinv s' rq q -> kernel_inv s' /\ later s s'.
Proof.
  intros [_ K2 K3 K4 [T1 T2 T3]] [Q1 Q2 Q3 Q4 Q5 Q6 Q7 Q8 Q9] Hk.
  assert (Hasid : forall a, asid_lookup s' a = asid_lookup s a) by (intros a; unfold asid_lookup, asid_table; by rewrite Q6, Q7).
  split.
  - split; [by exists rq, q|by apply Q9| | |].
    + intros a n Hn Hb. destruct (fmap_lookup_same _ _ _ _ _ Q3 Hn) as (n0 & Hn0 & E). rewrite <- E in *.
      apply (fmap_some_iff _ _ _ _ Q2). by apply (K3 a).
    + intros x t Ht Hb. destruct (fmap_lookup_same _ _ _ _ _ Q2 Ht) as (t0 & Ht0 & E). rewrite <- E in *.
      apply (fmap_some_iff _ _ _ _ Q3). by apply (K4 x).
    + split; [intros a root i|intros a base i|]; rewrite ?Q5, ?Hasid; [apply T1|apply T2|done].
  - split; [intros x; by eapply fmap_some_iff..|done|]. intros a root. by rewrite Hasid.
Qed.

(** ** Threads and their objects *)

(** A thread field no queue reads. *)
Lemma sched_inv_other s rq x t t' :
  action_simple s -> sched_inv s rq -> ksTCBs s !! x = Some t -> queue_key t' = queue_key t ->
  isRunnable_tcb t' = isRunnable_tcb t -> sched_inv (set_ksTCBs (insert x t') s) rq.
Proof.
  intros Ha Hs Hx Hk Hr.
  assert (H : sched_inv (set_ksSchedulerAction (fun _ => ksSchedulerAction s) (set_ksTCBs (fun _ => <[x := t']> (ksTCBs s)) s)) rq).
  { apply sched_inv_key; [| |exact Ha|exact Hs]; intros y; destruct (decide (y = x)) as [->|Hy];
      rewrite ?lookup_insert_eq, ?lookup_insert_ne, ?Hx by done; try done; cbn; congruence. }
  exact H.
Qed.

Lemma waiting_ntfn s ntfnPtr n n' o :
  ksNTFNs s !! ntfnPtr = Some n -> ntfn_waiting n' = ntfn_waiting n ->
  waiting (set_ksNTFNs (insert ntfnPtr n') s) o = waiting s o.
Proof.
  intros Hn Hw. destruct o as [a|a]; [done|]. cbn. destruct (decide (a = ntfnPtr)) as [->|Ha].
  - rewrite lookup_insert_eq, Hn. cbn. by rewrite Hw.
  - by rewrite lookup_insert_ne.
Qed.

Lemma ipc_wf_ntfn s q X ntfnPtr n n' :
  ipc_wf s q X -> ksNTFNs s !! ntfnPtr = Some n -> ntfn_waiting n' = ntfn_waiting n ->
  ipc_wf (set_ksNTFNs (insert ntfnPtr n') s) q X.
Proof.
  intros [W1 W2 W3 W4 W5 W6] Hn Hw. split; try done. intros o. specialize (W1 o).
  by rewrite (waiting_ntfn _ _ _ _ _ Hn Hw).
Qed.

Lemma insert_some_iff {A} (m : gmap Z A) p a a' x : m !! p = Some a -> is_Some (<[p := a']> m !! x) <-> is_Some (m !! x).
Proof.
  intros Hp. destruct (decide (x = p)) as [->|Hx]; [rewrite lookup_insert_eq, Hp; split; eauto|by rewrite lookup_insert_ne].
Qed.

Lemma wp_unbind s rq q ntfnPtr tcbptr n t Q :
  kernel_inv s -> kinv s rq q -> ksNTFNs s !! ntfnPtr = Some n -> ksTCBs s !! tcbptr = Some t ->
  (forall s', kernel_inv s' -> later s s' -> ksCTEs s' = ksCTEs s ->
     ksTCBs s' = <[tcbptr := set_tcbBoundNotification (fun _ => 0) t]> (ksTCBs s) -> Q tt s') ->
  wp (doUnbindNotification ntfnPtr tcbptr) Q s.
Proof.
  intros [_ K2 K3 K4 [T1 T2 T3]] [Hs Hw] Hn Ht HQ. unfold doUnbindNotification.
  wp_struct. eapply wp_modNTFN; [exact Hn|]. eapply wp_modTCB; [exact Ht|].
  set (t' := set_tcbBoundNotification (fun _ => 0) t) in *. set (n' := set_ntfnBoundTCB (fun _ => 0) n) in *.
  set (s1 := set_ksNTFNs (insert ntfnPtr n') s). set (s' := set_ksTCBs (insert tcbptr t') s1).
  pose proof (fun x => insert_some_iff _ _ _ t' x Ht) as Htcb. pose proof (fun x => insert_some_iff _ _ _ n' x Hn) as Hntfn.
  apply HQ; [|by split|done|done]. split.
  - exists rq, q. split.
    + apply (sched_inv_other s1 rq tcbptr t); [done| |done|done|done].
      apply (sched_inv_fields s); try done; [apply Hs|]. by eapply vm_ok_same; [..|apply Hs].
    + apply (ipc_wf_same s1); [by eapply ipc_wf_ntfn|done|done|]. intros x. unfold s', s1. st_simpl.
      destruct (decide (x = tcbptr)) as [->|Hx]; [by rewrite lookup_insert_eq, Ht|by rewrite lookup_insert_ne].
  - exact K2.
  - intros a n0. unfold s', s1. st_simpl. rewrite Htcb. destruct (decide (a = ntfnPtr)) as [->|Ha].
    + rewrite lookup_insert_eq. intros [= <-]. done.
    + rewrite lookup_insert_ne by done. apply K3.
  - intros x t0. unfold s', s1. st_simpl. rewrite Hntfn. destruct (decide (x = tcbptr)) as [->|Hx].
    + rewrite lookup_insert_eq. intros [= <-]. done.
    + rewrite lookup_insert_ne by done. apply K4.
  - by split.
Qed.

Lemma wp_unbindNotification s x t Q :
  kernel_inv s -> ksTCBs s !! x = Some t ->
  (forall s', kernel_inv s' -> later s s' -> ksCTEs s' = ksCTEs s ->
     ksTCBs s' = <[x := set_tcbBoundNotification (fun _ => 0) t]> (ksTCBs s) -> Q tt s') ->
  wp (unbindNotification x) Q s.
Proof.
  intros HI Ht HQ. pose proof (ki_queues _ HI) as (rq & q & Hk). unfold unbindNotification.
  wp_struct. eapply wp_getTCB; [exact Ht|]. destruct (Z.eqb_spec (tcbBoundNotification t) 0) as [E|E]; cbn [negb].
  - wp_struct. apply HQ; [done|done|done|]. rewrite insert_id; [done|]. rewrite Ht. f_equal. destruct t. cbn in *. by subst.
  - destruct (ki_bound_ntfn _ HI x t Ht E) as [n Hn]. by eapply wp_unbind.
Qed.

Lemma wp_unbindMaybeNotification s p n Q :
  kernel_inv s -> ksNTFNs s !! p = Some n ->
  (forall s', kernel_inv s' -> later s s' -> ksCTEs s' = ksCTEs s -> Q tt s') ->
  wp (unbindMaybeNotification p) Q s.
Proof.
  intros HI Hn HQ. pose proof (ki_queues _ HI) as (rq & q & Hk). unfold unbindMaybeNotification.
  wp_struct. eapply wp_getNTFN; [exact Hn|]. destruct (Z.eqb_spec (ntfnBoundTCB n) 0) as [E|E]; cbn [negb].
  - wp_struct. by apply HQ.
  - destruct (ki_bound_tcb _ HI p n Hn E) as [t Ht]. eapply wp_unbind; [done..|]. intros; by apply HQ.
Qed.

(** ** Deleting an exposable capability behind the user's back *)
Lemma wp_deleteOne_reply s cs x Q :
  kernel_inv s -> state_slots s (ksCTEs s) cs -> is_reply (cap_at (ksCTEs s) x) = true ->
  (forall m' cs', let s' := set_ksCTEs (fun _ => m') s in kernel_inv s' -> later s s' ->
     pruned (ksCTEs s) m' -> state_slots s' m' cs' ->
     (forall y, cap_at m' y = if decide (y = x) then cap_null_cap else cap_at (ksCTEs s) y) -> Q tt s') ->
  wp (cteDeleteOne x) Q s.
Proof.
  intros HI Hs Hr HQ.
  assert (Hn : cap_at (ksCTEs s) x <> cap_null_cap) by (intros E; by rewrite E in Hr).
  destruct (cap_at_some _ _ Hn) as (c & Hc & E). unfold cteDeleteOne.
  wp_struct. eapply wp_getCTE; [exact Hc|]. rewrite E. destruct (cap_at (ksCTEs s) x) eqn:Ec; try done. cbn [cap_is_null negb].
  wp_struct. eapply wp_final; [exact Hs|by rewrite Ec|]. intros final _. cbn.
  wp_struct. wp_struct. wp_struct. eapply wp_from_option; [reflexivity|]. wp_struct. wp_struct.
  eapply wp_emptied; [exact Hs|by eexists|]. intros m' cs' s' Hok' Hs' Hcap Hor.
  assert (s' = set_ksCTEs (fun _ => m') s) as -> by (by destruct Hor).
  apply (HQ m' cs'); [by apply kernel_inv_slots|by split| |exact Hok'|exact Hcap].
  split; [done|]. intros y. rewrite Hcap. case_decide as Hy; [|by left]. subst. right. by rewrite Ec.
Qed.

(** ** Suspending a thread *)
Lemma wp_and {A} (m : K A) (P : A -> kstate -> Prop) Q s :
  wp m Q s -> (forall a s', m s = Some (a, s') -> P a s') -> wp m (fun a s' => Q a s' /\ P a s') s.
Proof. unfold wp. intros HQ HP. destruct (m s) as [[a s']|]; [|done]. split; [done|by apply HP]. Qed.

Lemma not_action s rq q x : kernel_inv s -> kinv s rq q -> is_Some (ksTCBs s !! x) -> ksSchedulerAction s <> x.
Proof.
  intros HI [_ Hw] [t Ht] E. pose proof (iw_null _ _ _ Hw) as H0. pose proof (iw_action _ _ _ Hw) as H1.
  destruct (ki_action _ HI) as [Ha|Ha]; rewrite Ha in E; subst x; [|by rewrite H1 in Ht].
  unfold SchedulerAction_ResumeCurrentThread in Ht. by rewrite H0 in Ht.
Qed.

Lemma ipc_wf_transit s q x t :
  ipc_wf s q [] -> ksTCBs s !! x = Some t -> blocked_on t = None -> ipc_wf s q [x].
Proof.
  intros Hw Ht Hb. pose proof Hw as [W1 W2 W3 W4 W5 W6]. split; try done.
  - intros y ty o Hy Hyb. destruct (W3 y ty o Hy Hyb) as [?|?]; [set_solver|by right].
  - intros y o Hy. apply list_elem_of_singleton in Hy as ->. by eapply unblocked_out.
Qed.

(** A thread that waits for nothing leaves the ready queue and is inactive. *)
Definition made_inactive (s : kstate) (x : Z) : Prop :=
  exists t, ksTCBs s !! x = Some t /\ tsType_of t = ThreadState_Inactive /\ tcbQueued (tcbState t) = false.

Lemma wp_deactivate s rq q x t :
  kernel_inv s -> kinv s rq q -> ksTCBs s !! x = Some t -> blocked_on t = None ->
  wp (tcbSchedDequeue x ;;; setThreadState x ThreadState_Inactive)
    (fun _ s' => kernel_inv s' /\ later s s' /\ ksCTEs s' = ksCTEs s /\ made_inactive s' x) s.
Proof.
  intros HI Hk Ht Hb. pose proof Hk as [Hs Hw].
  assert (Hq : respects quiet (tcbSchedDequeue x ;;; setThreadState x ThreadState_Inactive)) by crunch.
  eapply wp_mono.
  { apply wp_respects; [|exact Hq]. instantiate (1 := fun _ s' => (exists rq q, kinv s' rq q) /\ made_inactive s' x).
    wp_struct. eapply (wp_deq s rq); [apply Hs|by eexists|]. intros s1 He Hr1.
    assert (Hs1 : sched_inv s1 (deq rq (tprio s x) x)).
    { eapply sched_inv_sched_eq; [exact Hs|exact He|exact Hr1|]. apply qall_deq, Hs. }
    pose proof (ipc_wf_sched_eq _ _ _ _ He Hw) as Hw1.
    assert (Hsome : is_Some (ksTCBs s1 !! x)) by (apply (sched_eq_some s); eauto). destruct Hsome as [t1 Ht1].
    assert (Hb1 : blocked_on t1 = None).
    { pose proof (sched_eq_fmap blocked_on _ _ x ltac:(done) He) as E. rewrite Ht, Ht1 in E. cbn in E. congruence. }
    assert (Hp : tprio s x = tcbPriority t1).
    { rewrite <- (sched_eq_tprio s s1) by done. unfold tprio. by rewrite (tlink_Some _ _ _ _ Ht1). }
    assert (Hnq : tcbQueued (tcbState t1) = false).
    { rewrite (queued_member s1 _ x Hr1 t1 Ht1). rewrite bool_decide_false; [done|].
      rewrite <- Hp. unfold deq. case_bool_decide; [|done]. rewrite upd_eq, elem_of_del. tauto. }
    assert (Ha1 : ksSchedulerAction s1 <> x).
    { rewrite (sched_eq_field ksSchedulerAction s s1) by done. by eapply not_action. }
    eapply (wp_leave s1 _ q x t1); [exact Hs1|by eapply ipc_wf_transit|exact Ht1|exact Hnq|exact Ha1|done|].
    intros a s' Hk'. split; [by eexists _, _|]. exists (upd_state (set_tsType (fun _ => ThreadState_Inactive)) t1).
    unfold s'. st_simpl. rewrite lookup_insert_eq. split_and!; [done|done|exact Hnq]. }
  intros [] s' [((rq' & q' & Hk') & Hin) Hqt]. destruct (kernel_inv_quiet _ _ _ _ HI Hqt Hk') as [HI' Hl].
  split_and!; [done|done|apply Hqt|done].
Qed.

(** Nothing but the queues moved. *)
Lemma pruned_refl m : pruned m m.
Proof. split; [done|]. by intros y; left. Qed.

Lemma pruned_trans m1 m2 m3 : pruned m1 m2 -> pruned m2 m3 -> pruned m1 m3.
Proof.
  intros [A1 A2] [B1 B2]. split; [intros x; etrans; [apply B1|apply A1]|]. intros y.
  destruct (A2 y) as [E|[E N]], (B2 y) as [E'|[E' N']]; rewrite ?E in *; rewrite ?E'; auto.
Qed.

(** What the deletion of an object leaves of the slots. *)
Definition slots_kept (s s' : kstate) : Prop :=
  kernel_inv s' /\ later s s' /\ pruned (ksCTEs s) (ksCTEs s') /\ exists cs', state_slots s' (ksCTEs s') cs'.

Lemma slots_kept_same s s' cs :
  state_slots s (ksCTEs s) cs -> kernel_inv s' -> later s s' -> ksCTEs s' = ksCTEs s -> slots_kept s s'.
Proof.
  intros Hs HI Hl E. split_and!; [done|done|rewrite E; apply pruned_refl|]. exists cs. rewrite E.
  by eapply state_slots_later.
Qed.

Lemma slots_kept_trans s1 s2 s3 : slots_kept s1 s2 -> slots_kept s2 s3 -> slots_kept s1 s3.
Proof. intros (A1 & A2 & A3 & A4) (B1 & B2 & B3 & B4). split_and!; [done|by etrans|by eapply pruned_trans|done]. Qed.

(** A thread field that neither the queues nor the bindings read. *)
Lemma kernel_inv_thread s x t t' :
  kernel_inv s -> ksTCBs s !! x = Some t -> queue_key t' = queue_key t -> isRunnable_tcb t' = isRunnable_tcb t ->
  ipc_view t' = ipc_view t -> tcbBoundNotification t' = tcbBoundNotification t ->
  kernel_inv (set_ksTCBs (insert x t') s) /\ later s (set_ksTCBs (insert x t') s).
Proof.
  intros HI Ht H1 H2 H3 H4. pose proof (ki_queues _ HI) as (rq & q & Hs & Hw).
  eapply (kernel_inv_quiet s _ rq q HI).
  - split; try done. by eapply fmap_insert_same.
  - split; [by eapply sched_inv_other; [apply HI|..]|]. eapply ipc_wf_same; [exact Hw|done|done|]. intros y. st_simpl.
    destruct (decide (y = x)) as [->|Hy]; [by rewrite lookup_insert_eq, Ht; cbn; rewrite H3|by rewrite lookup_insert_ne].
Qed.

Lemma reply_slot_cell s cs x t :
  state_slots s (ksCTEs s) cs -> ksTCBs s !! x = Some t ->
  exists c, ksCTEs s !! TCB_PTR_CTE_PTR x tcbReply = Some c /\
    (mdbNext (cteMDBNode c) <> 0 -> is_reply (cap_at (ksCTEs s) (mdbNext (cteMDBNode c))) = true).
Proof.
  intros [S1 _ _ S4 _ S6] Ht. assert (Hr : reply_slots s (TCB_PTR_CTE_PTR x tcbReply)) by (exists x; eauto).
  destruct (S4 _ (or_intror Hr)) as [c Hc]. exists c. split; [done|]. intros Hn.
  destruct (decide (TCB_PTR_CTE_PTR x tcbReply ∈ concat cs)) as [Hin|Hout].
  - apply elem_of_concat in Hin as (l & Hl & Hx). apply (S6 l _ _ Hl Hr Hx).
    pose proof (dlist_links _ _ _ _ (mw_chain _ _ S1 l Hl) Hx) as (Hlk & _). rewrite (clink_Some _ _ _ _ Hc) in Hlk. by apply Hlk.
  - destruct (mw_out _ _ S1 _ _ Hc Hout) as (_ & E & _). done.
Qed.

(** The slot whose capability goes when [x], in the state of [t], stops
    waiting: the reply capability made for it, the child of its master reply
    capability, if it waits for a reply. *)
Definition reply_dropped (s : kstate) (x : Z) (t : tcb) (y : Z) : bool :=
  bool_decide (tsType_of t = ThreadState_BlockedOnReply) &&
  let callerCap := clink mdbNext (ksCTEs s) (TCB_PTR_CTE_PTR x tcbReply) in
  negb (callerCap =? 0) && (y =? callerCap).

Definition caps_but (s s' : kstate) (dropped : Z -> bool) : Prop :=
  forall y, cap_at (ksCTEs s') y = if dropped y then cap_null_cap else cap_at (ksCTEs s) y.

Lemma reply_dropped_not s x t y : tsType_of t <> ThreadState_BlockedOnReply -> reply_dropped s x t y = false.
Proof. intros H. unfold reply_dropped. by rewrite bool_decide_false. Qed.

Lemma caps_but_same s s' x t :
  tsType_of t <> ThreadState_BlockedOnReply -> ksCTEs s' = ksCTEs s -> caps_but s s' (reply_dropped s x t).
Proof. intros Ht E y. by rewrite reply_dropped_not, E. Qed.

Lemma wp_cancelIPC s cs x t :
  kernel_inv s -> state_slots s (ksCTEs s) cs -> ksTCBs s !! x = Some t ->
  wp (cancelIPC x) (fun _ s' => (slots_kept s s' /\ caps_but s s' (reply_dropped s x t)) /\
    exists t', ksTCBs s' !! x = Some t' /\ blocked_on t' = None) s.
Proof.
  intros HI Hs Ht. pose proof (ki_queues _ HI) as (rq & q & Hk).
  destruct (blocked_on t) as [o|] eqn:Hb.
  - eapply wp_mono; [apply wp_and; [by eapply wp_cancelIPC_blocked|]|].
    + intros a s' E. instantiate (1 := fun _ s' => quiet s s'). eapply quiet_cancelIPC_blocked; [exact E|exact Ht|].
      intros E'. unfold blocked_on in Hb. by rewrite E' in Hb.
    + intros a s' [(Hk' & Hx & _) Hq]. destruct (kernel_inv_quiet _ _ _ _ HI Hq Hk') as [HI' Hl].
      split.
      { split; [eapply slots_kept_same; [exact Hs|done|done|apply Hq]|]. apply caps_but_same; [|apply Hq].
        intros E'. unfold blocked_on in Hb. by rewrite E' in Hb. }
      apply (f_equal (fmap tsType_of)) in Hx. destruct (ksTCBs s' !! x) as [t'|] eqn:E; [|done].
      exists t'. split; [done|]. cbn in Hx. injection Hx as Hx. unfold blocked_on.
      unfold tsType_of in *. cbn in Hx. by rewrite Hx.
  - unfold cancelIPC. wp_struct. eapply wp_getTCB; [exact Ht|].
    assert (Hret : tsType_of t <> ThreadState_BlockedOnReply ->
      wp (ret tt) (fun _ s' => (slots_kept s s' /\ caps_but s s' (reply_dropped s x t)) /\
        exists t', ksTCBs s' !! x = Some t' /\ blocked_on t' = None) s).
    { intros Hn. wp_struct. split; [split; [by eapply slots_kept_same|by apply caps_but_same]|eauto]. }
    unfold blocked_on in Hb. destruct (tsType_of t) eqn:Ety; try done; try (by apply Hret); clear Hret.
    set (t1 := set_tcbFault (fun _ => seL4_Fault_NullFault) t). set (s1 := set_ksTCBs (insert x t1) s).
    assert (Hx1 : ksTCBs s1 !! x = Some t1) by (unfold s1; st_simpl; apply lookup_insert_eq).
    destruct (kernel_inv_thread s x t t1 HI Ht) as [HI1 Hl1]; [done..|].
    assert (Hs1 : state_slots s1 (ksCTEs s1) cs) by (by eapply state_slots_later).
    assert (Hkept : slots_kept s s1) by (by eapply slots_kept_same).
    assert (Hb1 : blocked_on t1 = None).
    { unfold blocked_on. change (tsType_of t1) with (tsType_of t). by rewrite Ety. }
    destruct (reply_slot_cell s1 cs x t1 Hs1 Hx1) as (c & Hc & Hnext).
    wp_struct. eapply wp_modTCB; [exact Ht|]. wp_struct. eapply wp_getCTE; [exact Hc|]. cbv zeta.
    assert (Hd : forall y, reply_dropped s x t y =
      negb (mdbNext (cteMDBNode c) =? 0) && (y =? mdbNext (cteMDBNode c))).
    { intros y. unfold reply_dropped. rewrite bool_decide_true by done. by rewrite (clink_Some _ _ _ c Hc). }
    destruct (Z.eqb_spec (mdbNext (cteMDBNode c)) 0) as [E|E]; cbn [negb].
    + wp_struct. split; [split; [done|]|eauto]. intros y. by rewrite Hd.
    + eapply wp_deleteOne_reply; [exact HI1|exact Hs1|by apply Hnext|]. intros m' cs' s' HI' Hl' Hp Hok Hcap.
      split; [|by exists t1]. split.
      2: { intros y. rewrite Hd. change (ksCTEs s') with m'. rewrite Hcap.
           case_decide as Hy; [by rewrite (proj2 (Z.eqb_eq _ _) Hy)|by rewrite (proj2 (Z.eqb_neq _ _) Hy)]. }
      eapply slots_kept_trans; [exact Hkept|]. split_and!; [done|done|done|by exists cs'].
Qed.

Lemma wp_suspend s cs x t :
  kernel_inv s -> state_slots s (ksCTEs s) cs -> ksTCBs s !! x = Some t ->
  wp (suspend x) (fun _ s' => slots_kept s s' /\ made_inactive s' x /\ caps_but s s' (reply_dropped s x t)) s.
Proof.
  intros HI Hs Ht. unfold suspend. wp_struct. eapply wp_mono; [by eapply wp_cancelIPC|].
  intros [] s1 ((Hkept & Hcaps) & t1 & Ht1 & Hb1). pose proof Hkept as (HI1 & _ & _ & cs1 & Hs1).
  wp_struct. eapply wp_getTCB; [exact Ht1|]. wp_struct.
  assert (Hgo : forall s2 t2, kernel_inv s2 -> later s1 s2 -> ksCTEs s2 = ksCTEs s1 -> ksTCBs s2 !! x = Some t2 -> blocked_on t2 = None ->
    wp (tcbSchedDequeue x ;;; setThreadState x ThreadState_Inactive) (fun _ s' => slots_kept s s' /\ made_inactive s' x /\ caps_but s s' (reply_dropped s x t)) s2).
  { intros s2 t2 HI2 Hl2 E2 Ht2 Hb2. pose proof (ki_queues _ HI2) as (rq & q & Hk).
    eapply wp_mono; [by eapply wp_deactivate|]. intros [] s3 (HI3 & Hl3 & E3 & Hin).
    split; [|split; [done|intros y; by rewrite E3, E2]]. eapply slots_kept_trans; [exact Hkept|]. eapply slots_kept_same; [exact Hs1|done|by etrans|by rewrite E3]. }
  case_bool_decide as Hrun; [|wp_struct; by apply (Hgo s1 t1)].
  unfold updateRestartPC, getRegister, setRegister. repeat first [eapply wp_getTCB; [exact Ht1|]|wp_struct].
  eapply wp_modTCB; [exact Ht1|]. destruct (kernel_inv_thread s1 x t1 (set_tcbContext (insert FaultIP (reg t1 NextIP)) t1) HI1 Ht1) as [HI2 Hl2]; [done..|].
  apply (Hgo _ (set_tcbContext (insert FaultIP (reg t1 NextIP)) t1)); [done|done|done|st_simpl; apply lookup_insert_eq|done].
Qed.

(** ** Address spaces

    Finalisation only takes mappings and identifiers away. *)
Record vm_change (s s' : kstate) : Prop := {
  vc_frame : exists tr, s' = with_trace tr (set_ksPTEs (fun _ => ksPTEs s')
    (set_ksASIDPools (fun _ => ksASIDPools s') (set_armKSASIDTable (fun _ => armKSASIDTable s') s)));
  vc_ptes : forall a, is_Some (ksPTEs s !! a) -> is_Some (ksPTEs s' !! a);
  vc_null : ksPTEs s !! 0 = None -> ksPTEs s' !! 0 = None;
  vc_tables : forall a base, ksPTEs s' !! a = Some (pte_table base) -> ksPTEs s !! a = Some (pte_table base);
  vc_pools : forall p, is_Some (ksASIDPools s !! p) -> is_Some (ksASIDPools s' !! p);
  vc_table : forall i, asid_table s' i <> 0 -> asid_table s' i = asid_table s i;
  vc_asids : forall a root, asid_lookup s' a = asid_map_vspace root -> asid_lookup s a = asid_map_vspace root
}.

Lemma vm_change_inv s s' : kernel_inv s -> vm_change s s' -> kernel_inv s' /\ later s s' /\ ksCTEs s' = ksCTEs s.
Proof.
  intros [(rq & q & Hk) K2 K3 K4 [T1 T2 T3]] [[tr E] C2 C3 C4 C5 C6 C7].
  assert (Hkeep : ksTCBs s' = ksTCBs s /\ ksEPs s' = ksEPs s /\ ksNTFNs s' = ksNTFNs s /\ ksCTEs s' = ksCTEs s /\
    intStateIRQNode s' = intStateIRQNode s) by (rewrite E; done).
  destruct Hkeep as (E1 & E2 & E3 & E4 & E5). split_and!; [|split; rewrite ?E1, ?E2, ?E3; done|done].
  split.
  - exists rq, q. apply (kinv_fields s); try done; try (by rewrite E).
    + rewrite E. exact (si_domsched _ _ (proj1 Hk)).
    + destruct (si_vm _ _ (proj1 Hk)) as [V1 V2 V3]. split.
      * rewrite E1, E4. exact V1.
      * intros i Hi. apply C5. pose proof (C6 i Hi) as Ei. rewrite Ei in Hi |- *. by apply V2.
      * intros i j Hi Hij. assert (Hj : asid_table s' j <> 0) by congruence.
        pose proof (C6 i Hi) as Ei. pose proof (C6 j Hj) as Ej. apply V3; congruence.
  - unfold action_simple in *. by rewrite E.
  - rewrite E1, E3. exact K3.
  - rewrite E1, E3. exact K4.
  - split; [|intros a base i Ha; apply C4 in Ha; intros; by apply C2, (T2 a)|by apply C3].
    intros a root i Ha Hi. by apply C2, (T1 a), Hi; apply C7.
Qed.

Lemma vm_change_trace s tr : vm_change s (with_trace tr s).
Proof. split; try done. exists tr. by destruct s. Qed.

Lemma vm_change_refl s : vm_change s s.
Proof. pose proof (vm_change_trace s (trace_of s)) as H. by rewrite with_trace_of in H. Qed.

Lemma vm_change_machine s op : vm_change s (set_ksMachine (cons op) s).
Proof. pose proof (vm_change_trace s (current_lookup_fault s, op :: ksMachine s)) as H. by destruct s. Qed.

Lemma vm_change_trans s1 s2 s3 : vm_change s1 s2 -> vm_change s2 s3 -> vm_change s1 s3.
Proof.
  intros [[tr1 A1] A2 A3 A4 A5 A6 A7] [[tr2 B1] B2 B3 B4 B5 B6 B7].
  split; [| | | | | |]; auto.
  - exists tr2. rewrite B1 at 1. rewrite A1. by destruct s1, tr1, tr2.
  - intros i Hi. pose proof (B6 i Hi) as Ei. rewrite Ei in Hi |- *. by apply A6.
Qed.

(** Removing the entry at a slot. *)
Lemma vm_change_pte s a e : ksPTEs s !! a = Some e -> vm_change s (set_ksPTEs (insert a pte_invalid) s).
Proof.
  intros He. split; try done.
  - exists (trace_of s). by destruct s.
  - intros x Hx. st_simpl. by rewrite (insert_some_iff _ _ _ _ _ He).
  - intros H0. st_simpl. rewrite lookup_insert_ne; [done|]. intros ->. congruence.
  - intros x base. st_simpl. destruct (decide (x = a)) as [->|Hx]; [by rewrite lookup_insert_eq|by rewrite lookup_insert_ne].
Qed.

Section Walk.
Context (s : kstate) (HT : tables_ok s).

Lemma index_range x : 0 <= Z.land x (MASK 9) < 2 ^ 9.
Proof. rewrite land_MASK by done. by apply mod_pow2_bound. Qed.

Lemma wp_lookupPTSlot_loop_some vptr fuel : forall level slot bits,
  0 <= level < Z.of_nat fuel -> is_Some (ksPTEs s !! slot) ->
  wp (lookupPTSlot_loop fuel level vptr slot bits) (fun r s' => s' = s /\ is_Some (ksPTEs s !! ptSlot r)) s.
Proof.
  induction fuel as [|fuel IH]; intros level slot bits Hf [e He]; cbn [lookupPTSlot_loop]; [lia|].
  wp_struct. eapply wp_getPTE; [exact He|].
  assert (Hret : wp (ret (mk_lookupPTSlot_ret slot bits)) (fun r s' => s' = s /\ is_Some (ksPTEs s !! ptSlot r)) s).
  { wp_struct. split; [done|by exists e]. }
  destruct e as [|base|f|f]; try exact Hret. destruct (Z.ltb_spec 0 level) as [Hl|Hl]; [|exact Hret].
  cbv zeta. apply IH; [lia|]. apply (to_table _ HT slot); [exact He|apply index_range].
Qed.

Lemma wp_lookupPTSlot_some asid root vptr :
  asid_lookup s asid = asid_map_vspace root ->
  wp (lookupPTSlot root vptr) (fun r s' => s' = s /\ is_Some (ksPTEs s !! ptSlot r)) s.
Proof.
  intros Ha. unfold lookupPTSlot. apply wp_lookupPTSlot_loop_some; [done|]. apply (to_root _ HT asid); [exact Ha|apply index_range].
Qed.

Lemma wp_unmapPageTable_loop vptr target n : forall i pt slot,
  (forall j, 0 <= j < 2 ^ 9 -> is_Some (ksPTEs s !! pte_offset pt j)) ->
  wp (unmapPageTable_loop n i vptr target pt slot) (fun r s' => s' = s /\
    match r with None => True | Some (pt', slot') => (pt' = pt /\ slot' = slot) \/ is_Some (ksPTEs s !! slot') end) s.
Proof.
  induction n as [|n IH]; intros i pt slot Hpt; cbn [unmapPageTable_loop].
  - wp_struct. split; [done|by left].
  - destruct (pt =? target); [wp_struct; split; [done|by left]|]. cbv zeta. unfold GET_UPT_INDEX.
    assert (Hr : UPT_INDEX_MASK i = 9) by (unfold UPT_INDEX_MASK; by destruct (i =? 0)). rewrite Hr.
    destruct (Hpt (Z.land (Z.shiftr vptr (UPT_LEVEL_SHIFT i)) (MASK 9)) (index_range _)) as [e He].
    wp_struct. eapply wp_getPTE; [exact He|]. destruct e as [|base|f|f]; try (by wp_struct).
    eapply wp_mono; [apply IH|].
    + intros j Hj. by apply (to_table _ HT _ base j He).
    + intros r s' [-> Hres]. split; [done|]. destruct r as [[pt' slot']|]; [|done]. right.
      destruct Hres as [[_ ->]|?]; [by exists (pte_table base)|done].
Qed.
End Walk.

Lemma wp_unmapPageTable s asid vptr target :
  kernel_inv s -> (forall a root, asid_lookup s a = asid_map_vspace root -> root <> target) ->
  wp (unmapPageTable asid vptr target) (fun _ s' => vm_change s s') s.
Proof.
  intros HI Hne. pose proof (ki_queues _ HI) as (rq & q & Hk). pose proof (ki_tables _ HI) as HT.
  unfold unmapPageTable. wp_struct. apply wp_findVSpaceForASID; [apply Hk| |].
  2: { intros _. cbn. apply (vm_change_trace s (lookup_fault_invalid_root, ksMachine s)). }
  intros root Ha. cbv beta iota. change (negb (is_none EXCEPTION_NONE)) with false. cbv iota. wp_struct. eapply wp_mono.
  { apply (wp_unmapPageTable_loop s HT); intros j Hj. by apply (to_root _ HT asid). }
  intros r s' [-> Hr]. pose proof (vm_change_refl s) as Hsame.
  destruct r as [[pt slot]|]; [|by wp_struct]. destruct (Z.eqb_spec pt target) as [->|]; cbn [negb]; [|by wp_struct].
  destruct Hr as [[E _]|[e He]]; [by destruct (Hne asid root)|].
  wp_struct. wp_struct; [|].
  { rewrite (proj2 (Z.eqb_neq slot 0)); [done|]. intros ->. by rewrite (to_null _ HT) in He. }
  wp_struct. eapply wp_putPTE; [exact He|]. unfold cleanByVA_PoU, invalidateTLBByASID, invalidateTranslationASID, doMachineOp.
  repeat wp_struct. do 2 (eapply vm_change_trans; [|apply vm_change_machine]). by eapply vm_change_pte.
Qed.

Lemma wp_unmapPage_vm s sz asid vptr pptr :
  kernel_inv s -> 0 <= asid < 2 ^ 16 -> wp (unmapPage sz asid vptr pptr) (fun _ s' => vm_change s s') s.
Proof.
  intros HI Hasid. pose proof (ki_queues _ HI) as (rq & q & Hk). pose proof (ki_tables _ HI) as HT.
  pose proof (vm_change_refl s) as Hsame.
  unfold unmapPage. wp_struct. apply wp_findVSpaceForASID; [apply Hk| |].
  2: { intros _. cbn. apply (vm_change_trace s (lookup_fault_invalid_root, ksMachine s)). }
  intros root Ha. cbv beta iota. change (negb (is_none EXCEPTION_NONE)) with false. cbv iota. wp_struct. eapply wp_mono; [by eapply wp_lookupPTSlot_some|].
  intros r s' [-> [e He]]. case_match; [by wp_struct|]. wp_struct. eapply wp_getPTE; [exact He|].
  destruct (pte_is_page_type e) eqn:Hp; cbn [negb]; [|by wp_struct]. wp_struct.
  assert (Hbase : exists base, wp (pte_get_page_base_address e) (fun b s' => b = base /\ s' = s) s) by (destruct e; try done; by eexists).
  destruct Hbase as [base Hbase]. eapply wp_mono; [exact Hbase|]. intros b s' [-> ->]. case_match; [by wp_struct|].
  wp_struct. eapply wp_putPTE; [exact He|]. unfold cleanByVA_PoU, invalidateTLBByASIDVA, invalidateTranslationSingle, doMachineOp.
  repeat wp_struct. { change (BIT 16) with (2 ^ 16). apply Z.ltb_lt. lia. }
  repeat wp_struct. do 2 (eapply vm_change_trans; [|apply vm_change_machine]). by eapply vm_change_pte.
Qed.

Lemma wp_setVMRoot_change s : kernel_inv s -> forall s1, vm_change s s1 -> 
  wp (let* cur := gets ksCurThread in setVMRoot cur) (fun _ s' => vm_change s s') s1.
Proof.
  intros HI s1 Hc. destruct (vm_change_inv _ _ HI Hc) as ([(rq & q & Hk) _ _ _ _] & _ & _).
  wp_struct. wp_struct. apply wp_setVMRoot; [apply Hk|apply Hk|]. intros tr.
  eapply vm_change_trans; [exact Hc|apply vm_change_trace].
Qed.

Lemma asid_lookup_table s asid root :
  asid_lookup s asid = asid_map_vspace root <->
  asid_table s (ASID_HIGH asid) <> 0 /\
  pool_entry (default ∅ (ksASIDPools s !! asid_table s (ASID_HIGH asid))) (ASID_LOW asid) = asid_map_vspace root.
Proof. unfold asid_lookup. destruct (Z.eqb_spec (asid_table s (ASID_HIGH asid)) 0); [|tauto]. split; [done|]. by intros [? _]. Qed.

Lemma vm_change_entry s p pool i :
  ksASIDPools s !! p = Some pool -> vm_change s (set_ksASIDPools (insert p (<[i := asid_map_none]> pool)) s).
Proof.
  intros Hp. split; try done.
  - exists (trace_of s). by destruct s.
  - intros x Hx. st_simpl. by rewrite (insert_some_iff _ _ _ _ _ Hp).
  - intros a root. rewrite !asid_lookup_table. intros [H0 H]. split; [exact H0|]. revert H.
    change (asid_table (set_ksASIDPools (insert p (<[i := asid_map_none]> pool)) s)) with (asid_table s). st_simpl.
    destruct (decide (asid_table s (ASID_HIGH a) = p)) as [->|Hne]; [|by rewrite lookup_insert_ne].
    rewrite lookup_insert_eq, Hp. cbn. unfold pool_entry. destruct (decide (ASID_LOW a = i)) as [->|?];
      [by rewrite lookup_insert_eq|by rewrite lookup_insert_ne].
Qed.

Lemma vm_change_unlink s i : vm_change s (set_armKSASIDTable (insert i 0) s).
Proof.
  assert (Ht : forall j, asid_table (set_armKSASIDTable (insert i 0) s) j <> 0 ->
    asid_table (set_armKSASIDTable (insert i 0) s) j = asid_table s j).
  { intros j. unfold asid_table. st_simpl. destruct (decide (j = i)) as [->|?]; [by rewrite lookup_insert_eq|by rewrite lookup_insert_ne]. }
  split; try done.
  - exists (trace_of s). by destruct s.
  - intros a root. rewrite !asid_lookup_table. intros [H0 H]. pose proof (Ht _ H0) as E. rewrite E in H, H0. done.
Qed.

Lemma wp_deleteASID_change s asid vspace : kernel_inv s -> wp (deleteASID asid vspace) (fun _ s' => vm_change s s') s.
Proof.
  intros HI. pose proof (ki_queues _ HI) as (rq & q & Hk). pose proof (vm_change_refl s) as Hsame.
  unfold deleteASID. wp_struct. wp_struct. destruct (Z.eqb_spec (asid_table s (ASID_HIGH asid)) 0) as [|H0]; [by wp_struct|].
  destruct (vm_pools _ (si_vm _ _ (proj1 Hk)) _ H0) as [pool Hp]. wp_struct. eapply wp_getPool; [exact Hp|].
  destruct (pool_entry pool (ASID_LOW asid)) as [|root]; [by wp_struct|]. destruct (root =? vspace); [|by wp_struct].
  unfold invalidateTLBByASID, invalidateTranslationASID, doMachineOp. do 4 wp_struct.
  apply (wp_setVMRoot_change s HI). eapply vm_change_trans; [apply vm_change_machine|].
  by apply vm_change_entry.
Qed.

Lemma wp_deleteASIDPool_change s base pool :
  kernel_inv s -> Z.land base (MASK asidLowBits) = 0 -> pool <> 0 ->
  wp (deleteASIDPool base pool) (fun _ s' => vm_change s s') s.
Proof.
  intros HI Hb Hpool. pose proof (ki_queues _ HI) as (rq & q & Hk). pose proof (vm_change_refl s) as Hsame.
  unfold deleteASIDPool. wp_struct. wp_struct; [by apply Z.eqb_eq|]. wp_struct. wp_struct.
  destruct (Z.eqb_spec (asid_table s (ASID_HIGH base)) pool) as [E|E]; [|by wp_struct].
  assert (Hsome : is_Some (ksASIDPools s !! pool)) by (rewrite <- E in *; by apply (vm_pools _ (si_vm _ _ (proj1 Hk)))).
  wp_struct. apply (wp_for _ _ _ (fun _ s' => vm_change s s')); [done|done| |].
  - intros i s1 _ Hc. destruct (vc_pools _ _ Hc _ Hsome) as [p Hp]. wp_struct. eapply wp_getPool; [exact Hp|].
    destruct (pool_entry p i); [by wp_struct|]. unfold invalidateTLBByASID, invalidateTranslationASID, doMachineOp.
    wp_struct. eapply vm_change_trans; [exact Hc|apply vm_change_machine].
  - intros s1 Hc. wp_struct. wp_struct. apply (wp_setVMRoot_change s HI). eapply vm_change_trans; [exact Hc|apply vm_change_unlink].
Qed.

(** ** [finaliseCap] *)
Lemma vm_change_kept s s' cs :
  kernel_inv s -> state_slots s (ksCTEs s) cs -> vm_change s s' -> slots_kept s s'.
Proof.
  intros HI Hs Hc. destruct (vm_change_inv _ _ HI Hc) as (HI' & Hl & E). by eapply slots_kept_same.
Qed.

Lemma quiet_kept s s' cs rq q :
  kernel_inv s -> state_slots s (ksCTEs s) cs -> quiet s s' -> kinv s' rq q -> slots_kept s s'.
Proof.
  intros HI Hs Hq Hk. destruct (kernel_inv_quiet _ _ _ _ HI Hq Hk) as [HI' Hl].
  eapply slots_kept_same; [exact Hs|done|done|apply Hq].
Qed.

Lemma wp_cancelAllIPC_kept s cs p :
  kernel_inv s -> state_slots s (ksCTEs s) cs -> is_Some (ksEPs s !! p) -> wp (cancelAllIPC p) (fun _ s' => slots_kept s s') s.
Proof.
  intros HI Hs [e He]. pose proof (ki_queues _ HI) as (rq & q & Hk).
  eapply wp_mono; [apply wp_respects; [by eapply wp_cancelAllIPC|apply quiet_cancelAllIPC]|].
  intros [] s' [(rq' & Hk' & _) Hq]. by eapply quiet_kept.
Qed.

Lemma wp_finalise_notification s cs p :
  kernel_inv s -> state_slots s (ksCTEs s) cs -> is_Some (ksNTFNs s !! p) ->
  wp (unbindMaybeNotification p ;;; cancelAllSignals p) (fun _ s' => slots_kept s s') s.
Proof.
  intros HI Hs [n Hn]. wp_struct. eapply wp_unbindMaybeNotification; [exact HI|exact Hn|].
  intros s1 HI1 Hl1 E1. pose proof (ki_queues _ HI1) as (rq & q & Hk).
  assert (Hs1 : state_slots s1 (ksCTEs s1) cs) by (rewrite E1; by eapply state_slots_later).
  assert (Hn1 : is_Some (ksNTFNs s1 !! p)) by (apply (la_ntfns _ _ Hl1); eauto). destruct Hn1 as [n1 Hn1].
  eapply wp_mono; [apply wp_respects; [by eapply wp_cancelAllSignals|apply quiet_cancelAllSignals]|].
  intros [] s' [(rq' & Hk' & _) Hq]. eapply slots_kept_trans; [by eapply slots_kept_same|by eapply quiet_kept].
Qed.

(** The slot of an interrupt is emptied with it. *)
Lemma wp_emptied_kept s cs x :
  kernel_inv s -> state_slots s (ksCTEs s) cs -> exposable (cap_at (ksCTEs s) x) = true -> is_Some (ksCTEs s !! x) ->
  wp (emptySlot x cap_null_cap) (fun _ s' => slots_kept s s') s.
Proof.
  intros HI Hs He Hx. eapply wp_emptied; [exact Hs|exact Hx|]. intros m' cs' s' Hok' Hs' Hcap Hor.
  assert (s' = set_ksCTEs (fun _ => m') s) as -> by (by destruct Hor).
  split_and!; [by apply kernel_inv_slots|by split| |by exists cs'].
  split; [done|]. intros y. st_simpl. rewrite Hcap. case_decide as Hy; [subst; by right|by left].
Qed.

Lemma wp_deleteOne s cs x :
  kernel_inv s -> state_slots s (ksCTEs s) cs -> is_Some (ksCTEs s !! x) -> exposable (cap_at (ksCTEs s) x) = true ->
  cap_valid s (cap_at (ksCTEs s) x) -> wp (cteDeleteOne x) (fun _ s' => slots_kept s s') s.
Proof.
  intros HI Hs [c Hc] He Hv. pose proof (slot_capability_Some _ _ _ Hc) as E.
  destruct (is_reply (cap_at (ksCTEs s) x)) eqn:Hr.
  { eapply wp_deleteOne_reply; [done..|]. intros m' cs' s' HI' Hl Hp Hok _. split_and!; [done|done|done|by exists cs']. }
  unfold cteDeleteOne. wp_struct. eapply wp_getCTE; [exact Hc|]. rewrite <- E.
  destruct (cap_at (ksCTEs s) x) as [| |badge b1 b2 ntfn| | | | | | | | | | | | | |] eqn:Ec; try done; cbn [cap_is_null negb].
  - wp_struct. by eapply slots_kept_same.
  - wp_struct. eapply wp_final; [exact Hs|by rewrite Ec|]. intros final _.
    wp_struct. unfold finaliseCap_with. cbn [isArchCap]. cbv zeta iota. wp_struct. eapply (wp_mono _ (fun _ s1 => slots_kept s s1)).
    { destruct final; [by eapply wp_finalise_notification|wp_struct; by eapply slots_kept_same]. }
    intros [] s1 Hk1. wp_struct. wp_struct. eapply wp_from_option; [reflexivity|]. wp_struct. wp_struct.
    pose proof Hk1 as (HI1 & _ & [Hsame Hp] & cs1 & Hs1). eapply wp_mono.
    { eapply wp_emptied_kept; [exact HI1|exact Hs1| |by apply Hsame; eexists].
      destruct (Hp x) as [->|[_ ->]]; [by rewrite Ec|done]. }
    intros [] s2 Hk2. by eapply slots_kept_trans.
Qed.

Lemma wp_deletingIRQHandler s cs irq :
  kernel_inv s -> state_slots s (ksCTEs s) cs -> (forall y, cap_valid s (cap_at (ksCTEs s) y)) -> 0 <= irq <= maxIRQ ->
  wp (deletingIRQHandler irq) (fun _ s' => slots_kept s s') s.
Proof.
  intros HI Hs Hv Hirq. assert (Hslot : irq_slots s (cte_offset (intStateIRQNode s) irq)) by (by exists irq).
  unfold deletingIRQHandler, irq_slot. wp_struct. wp_struct.
  eapply wp_deleteOne; [exact HI|exact Hs|apply (so_present _ _ _ _ Hs); by left|by apply (so_irq _ _ _ _ Hs)|apply Hv].
Qed.

Lemma wp_finalise_thread s cs x :
  kernel_inv s -> state_slots s (ksCTEs s) cs -> is_Some (ksTCBs s !! x) ->
  wp (finalise_thread x) (fun _ s' => slots_kept s s') s.
Proof.
  intros HI Hs [t Ht]. unfold finalise_thread. wp_struct. eapply wp_unbindNotification; [exact HI|exact Ht|].
  intros s1 HI1 Hl1 E1 Et. assert (Ht1 : ksTCBs s1 !! x = Some (set_tcbBoundNotification (fun _ => 0) t)) by (rewrite Et; apply lookup_insert_eq).
  assert (Hs1 : state_slots s1 (ksCTEs s1) cs) by (rewrite E1; by eapply state_slots_later).
  wp_struct. eapply wp_mono; [by eapply wp_suspend|]. intros [] s2 [Hk2 _].
  assert (Hk02 : slots_kept s s2) by (eapply slots_kept_trans; [by eapply slots_kept_same|exact Hk2]).
  pose proof Hk2 as (HI2 & _ & _ & cs2 & Hs2). pose proof (ki_queues _ HI2) as (rq & q & Hk).
  unfold Arch_prepareThreadDelete. eapply wp_mono; [apply wp_respects; [|apply quiet_fpuRelease]|].
  { instantiate (1 := fun _ s3 => kinv s3 rq q). unfold fpuRelease, nativeThreadUsingFPU, switchFpuOwner, switchLocalFpuOwner, doMachineOp.
    do 2 wp_struct. case_match; [|by wp_struct].
    assert (Hany : forall ow ops, kinv (set_ksCurFPUOwner (fun _ => ow) (set_ksMachine (fun _ => ops) s2)) rq q).
    { intros ow ops. eapply kinv_fields; [..|exact Hk]; try done; [apply Hk|].
      destruct (si_vm _ _ (proj1 Hk)) as [V1 V2 V3]. by split. }
    do 4 wp_struct. wp_struct. case_match; repeat wp_struct; apply Hany. }
  intros [] s3 [Hk3 Hq]. eapply slots_kept_trans; [exact Hk02|]. by eapply quiet_kept.
Qed.

Lemma wp_Arch_finaliseCap s cs c final :
  kernel_inv s -> state_slots s (ksCTEs s) cs -> cap_valid s c ->
  wp (Arch_finaliseCap c final) (fun r s' => slots_kept s s' /\ r = (cap_null_cap, cap_null_cap)) s.
Proof.
  intros HI Hs Hv. unfold Arch_finaliseCap. wp_struct. eapply (wp_mono _ (fun _ s' => vm_change s s')).
  - assert (Hret : wp (ret tt) (fun _ s' => vm_change s s') s) by (wp_struct; apply vm_change_refl).
    destruct c; try exact Hret; cbn in Hv.
    + case_match; [by apply wp_unmapPage_vm|exact Hret].
    + case_match; [by apply wp_unmapPageTable; [exact HI|exact Hv]|exact Hret].
    + case_match; [by apply wp_deleteASID_change|exact Hret].
    + case_match; [|exact Hret]. destruct Hv as [Hv1 Hv2]. by apply (wp_deleteASIDPool_change s _ _ HI).
  - intros [] s' Hc. wp_struct. split; [by eapply vm_change_kept|done].
Qed.

Lemma wp_finaliseCap s cs x final :
  kernel_inv s -> state_slots s (ksCTEs s) cs -> (forall y, cap_valid s (cap_at (ksCTEs s) y)) ->
  let c := cap_at (ksCTEs s) x in
  wp (finaliseCap c final false) (fun r s' => slots_kept s s' /\ remains c final r) s.
Proof.
  intros HI Hs Hv c. pose proof (Hv x) as Hvc. pose proof (co_shape _ _ _ (so_containers _ _ _ _ Hs) x) as Hshape.
  fold c in Hvc, Hshape. clearbody c.
  pose proof (slots_kept_same s s cs Hs HI ltac:(done) eq_refl) as Hself.
  assert (Hdone : forall r, remains c final r -> wp (ret r) (fun r s' => slots_kept s s' /\ remains c final r) s) by (intros; by wp_struct).
  unfold finaliseCap, finaliseCap_with. destruct (isArchCap c) eqn:Harch.
  { eapply wp_mono; [by eapply wp_Arch_finaliseCap|]. intros r s' [Hk ->]. split; [done|]. by destruct c. }
  destruct c; try done; cbv zeta; try (by apply Hdone).
  - wp_struct. eapply (wp_mono _ (fun _ s' => slots_kept s s')).
    { destruct final; [by eapply wp_cancelAllIPC_kept|by wp_struct]. }
    intros [] s' Hk. by wp_struct.
  - wp_struct. eapply (wp_mono _ (fun _ s' => slots_kept s s')).
    { destruct final; [by eapply wp_finalise_notification|by wp_struct]. }
    intros [] s' Hk. by wp_struct.
  - destruct final; apply Hdone; [|done]. cbn. exists capCNodeRadix. destruct Hshape as [Hr Hz].
    pose proof (cnode_radix _ 0 0 _ (conj Hr Hz)) as Hr0.
    assert (E : wshl 1 capCNodeRadix = 2 ^ capCNodeRadix) by (apply BIT_pow; unfold wordBits; lia).
    assert (Ez : zombie_slots capCNodeRadix = 2 ^ capCNodeRadix).
    { unfold zombie_slots. rewrite (proj2 (Z.eqb_neq capCNodeRadix ZombieType_ZombieTCB)); [done|].
      change ZombieType_ZombieTCB with 64. lia. }
    rewrite E. split; [|exact Ez]. apply zombie_new_is; [right; lia|exact Hz|lia].
  - destruct final; [|by apply Hdone]. wp_struct. eapply wp_mono; [by eapply wp_finalise_thread|].
    intros [] s' Hk. wp_struct. split; [done|]. cbn. exists ZombieType_ZombieTCB. split; [|done].
    apply zombie_new_is; [by left|exact Hshape|done].
  - destruct final; [|by apply Hdone]. wp_struct. eapply wp_mono; [by eapply wp_deletingIRQHandler|].
    intros [] s' Hk. by wp_struct.
Qed.

(** The kernel implements what deletion asks for. *)
#[export] Instance kernel_finaliser : Finaliser kernel_inv.
Proof.
  split.
  - apply kernel_inv_slots.
  - apply kernel_inv_released.
  - apply kernel_inv_preempt.
  - intros s cs x final HI Hs Hv c. eapply wp_mono; [by eapply wp_finaliseCap|].
    intros r s' [(H1 & H2 & H3 & H4) Hr]. by split_and!.
Qed.
