(* ===== verification/Deletion.v ===== *)
(** * Deletion and revocation: termination and invariants

    [cteDelete] and [cteRevoke] of src/object/cnode.c, against the interface
    [Finaliser]: from any state whose slots satisfy the invariant they end,
    within a fuel that only depends on the number of slots, and keep the
    invariant.  Deleting a CNode or a thread turns its capability into a
    zombie that counts its slots down; a slot that holds a container of its
    own is exchanged with that container's first slot. *)
From stdpp Require Import base list sets gmap.
From S2P Require Import Prelude Dll Structures CapOps CSpace VSpace Sched DomSched ReadyQueue Schedule Mdb MdbInv Messages Objects Delete Interrupt EpQueue MdbThm CapThm IpcThm SlotInv Finalise Concrete.
#[local] Open Scope Z_scope.

Section Deletion.
Context {I : kstate -> Prop} `{HF : !Finaliser I}.
Notation caps s := (cap_at (ksCTEs s)).

(** ** The invariant and its steps *)
Record dinv (s : kstate) (cs : list (list Z)) : Prop := {
  di_inv : I s;
  di_slots : state_slots s (ksCTEs s) cs;
  di_caps : forall x, cap_valid s (caps s x)
}.

Definition steps (s s' : kstate) : Prop := later s s' /\ evolves (ksCTEs s) (ksCTEs s').

#[local] Instance steps_preorder : PreOrder steps.
Proof.
  split; [by intros s; split|]. intros s1 s2 s3 [A1 A2] [B1 B2]. split; by etrans.
Qed.

Lemma caps_valid_evolve s s' :
  (forall x, cap_valid s (caps s x)) -> steps s s' -> forall x, cap_valid s' (caps s' x).
Proof.
  intros Hv [Hl He] x. destruct (decide (caps s' x = cap_null_cap)) as [->|Hn]; [done|].
  destruct (ev_origin _ _ He x Hn) as (y & [->|[Hz _]]); [by eapply cap_valid_later|].
  by destruct (caps s' x).
Qed.

(** A slot operation on the state. *)
Lemma dinv_slots s cs m' cs' :
  dinv s cs -> state_slots s m' cs' -> evolves (ksCTEs s) m' ->
  dinv (set_ksCTEs (fun _ => m') s) cs' /\ steps s (set_ksCTEs (fun _ => m') s).
Proof.
  intros [D1 D2 D3] Hs He. assert (Hst : steps s (set_ksCTEs (fun _ => m') s)) by (split; [by split|exact He]).
  split; [|exact Hst]. split; [apply fin_slots; [done|apply He]|exact Hs|by eapply caps_valid_evolve].
Qed.

Lemma released_later c s : later s (released c s).
Proof. by destruct c; split. Qed.
Lemma released_ctes c s : ksCTEs (released c s) = ksCTEs s.
Proof. by destruct c. Qed.

Lemma dinv_released s cs c : dinv s cs -> dinv (released c s) cs /\ steps s (released c s).
Proof.
  intros [D1 D2 D3]. pose proof (released_later c s) as Hl.
  assert (Hst : steps s (released c s)) by (split; [done|by rewrite released_ctes]).
  split; [|exact Hst]. split; [by apply fin_released| |by eapply caps_valid_evolve].
  rewrite released_ctes. by eapply state_slots_later.
Qed.

(** ** Preemption *)
Definition none_or_preempted (ex : exception_t) : Prop := ex = EXCEPTION_NONE \/ ex = EXCEPTION_PREEMPTED.

Lemma wp_preemptionPoint s cs Q :
  dinv s cs ->
  (forall ex s', none_or_preempted ex -> ksCTEs s' = ksCTEs s -> dinv s' cs -> steps s s' -> Q ex s') ->
  wp preemptionPoint Q s.
Proof.
  intros [D1 D2 D3] HQ.
  assert (HQ' : forall ex n l, none_or_preempted ex ->
    Q ex (set_ksWorkUnitsCompleted (fun _ => n) (set_ksIRQPending (fun _ => l) s))).
  { intros ex n l Hex. assert (Hl : later s (set_ksWorkUnitsCompleted (fun _ => n) (set_ksIRQPending (fun _ => l) s))) by (by split).
    apply HQ; [done|done| |by split]. split; [by apply fin_preempt|by eapply state_slots_later|].
    intros x. eapply cap_valid_later; [exact Hl|apply D3]. }
  unfold preemptionPoint. wp_struct. wp_struct. wp_struct. wp_struct. case_match.
  - wp_struct. wp_struct. unfold isIRQPending. repeat wp_struct. apply HQ'. unfold none_or_preempted. case_match; tauto.
  - wp_struct. specialize (HQ' EXCEPTION_NONE (wadd (ksWorkUnitsCompleted s) 1) (ksIRQPending s) (or_introl eq_refl)).
    by destruct s.
Qed.

(** ** The inner deletion: no slot of the zombie's own is deleted *)

(** What happens to slots other than [x]: a reply or interrupt slot may be
    emptied, and the first slot of a container may receive its zombie. *)
Definition settled (x : Z) (m m' : gmap Z cte) : Prop := forall y, y <> x ->
  cap_at m' y = cap_at m y \/
  (exposable (cap_at m y) = true /\ cap_at m' y = cap_null_cap) \/
  (capCyclicZombie (cap_at m' y) y = true /\ capCyclicZombie (cap_at m y) y = false /\
   (size (loose m') < size (loose m))%nat).

Lemma settled_trans x m1 m2 m3 :
  settled x m1 m2 -> settled x m2 m3 ->
  (size (loose m2) <= size (loose m1))%nat -> (size (loose m3) <= size (loose m2))%nat -> settled x m1 m3.
Proof.
  intros H1 H2 L1 L2 y Hy. destruct (H1 y Hy) as [E1|[[E1 N1]|(Z1 & E1 & S1)]].
  - destruct (H2 y Hy) as [E2|[[E2 N2]|(Z2 & E2 & S2)]]; rewrite ?E1 in *; [by left|by right; left|right; right].
    split_and!; [done|done|lia].
  - right. destruct (H2 y Hy) as [E2|[[E2 N2]|(Z2 & E2 & S2)]]; [left; split; [done|congruence]|by left|right].
    split_and!; [done|by destruct (cap_at m1 y)|lia].
  - right; right. destruct (H2 y Hy) as [E2|[[E2 N2]|(Z2 & E2 & S2)]].
    + rewrite E2. split_and!; [done|done|lia].
    + by destruct (cap_at m2 y).
    + congruence.
Qed.

Lemma settled_pruned x m m' : pruned m m' -> settled x m m'.
Proof. intros [_ H] y _. destruct (H y) as [?|?]; tauto. Qed.

Lemma settled_only x m m' : (forall y, y <> x -> cap_at m' y = cap_at m y) -> settled x m m'.
Proof. intros H y Hy. left. by apply H. Qed.

Lemma evolves_pruned m m' : pruned m m' -> evolves m m'.
Proof. intros [Hs H]. apply evolves_lost; [done|]. intros y. destruct (H y) as [?|[_ ?]]; tauto. Qed.

Lemma pruned_container m m' x : pruned m m' -> exposable (cap_at m x) = false -> cap_at m' x = cap_at m x.
Proof. intros [_ H] Hx. destruct (H x) as [?|[? _]]; congruence. Qed.

(** ** Finalising the capability of a slot *)

(** The slots that a capability still gives access to. *)
Definition slot_count (c : cap) : Z :=
  match c with
  | cap_zombie_cap id type => cap_zombie_cap_get_capZombieNumber id type
  | _ => match container c with Some (_, n) => n | None => 0 end
  end.

Lemma zombie_is_count c type n p : zombie_is c type n p -> slot_count c = n.
Proof. by intros (id & -> & <- & _). Qed.

(** A zombie that is left over, with slots to delete. *)
Record leftover (s : kstate) (x : Z) (s1 : kstate) (z : cap) (type n p : Z) : Prop := {
  lo_cap : caps s1 x = z;
  lo_zombie : zombie_is z type n p;
  lo_count : 0 < n;
  lo_last : ~ (n = 1 /\ x = p);
  lo_container : container z = container (caps s x);
  lo_same_count : n = slot_count (caps s x)
}.

Lemma remains_zombie c final r x :
  cap_shape c -> remains c final r -> r.1 <> cap_null_cap ->
  exists p n type k, container c = Some (p, n) /\ zombie_is r.1 type k p /\ zombie_slots type = n /\ k = slot_count c /\
    (is_zombie c = true \/ final = true) /\
    capRemovable r.1 x = Some ((k =? 0) || ((k =? 1) && (x =? p))).
Proof.
  unfold remains. intros Hs Hr Hn.
  assert (Hrem : forall z type k p, zombie_is z type k p -> capRemovable z x = Some ((k =? 0) || ((k =? 1) && (x =? p)))).
  { by intros z type k p (id & -> & <- & <- & _). }
  destruct (container c) as [[p n]|] eqn:Hc; [|done].
  destruct (is_zombie c) eqn:Hz.
  - subst r. cbn in *. destruct c; try done. destruct (zombie_shape _ _ Hs) as (k & p' & Hk).
    pose proof (zombie_is_container _ _ _ _ Hk) as E. rewrite Hc in E. injection E as -> ->.
    exists p', (zombie_slots capZombieType), capZombieType, k.
    split_and!; [done|done|done|by rewrite (zombie_is_count _ _ _ _ Hk)|by left|by apply Hrem with capZombieType].
  - destruct final; [|by subst r]. destruct Hr as (type & Hk & Ht). exists p, n, type, n.
    split_and!; [done|done|done| |by right|by apply Hrem with type].
    unfold slot_count. rewrite Hc. by destruct c.
Qed.

Lemma wp_finalise {A} x (stop : cap -> K A) (go : cap -> cap -> K A) Q s cs :
  dinv s cs -> caps s x <> cap_null_cap ->
  (forall s1 cs1 info, dinv s1 cs1 -> steps s s1 -> pruned (ksCTEs s) (ksCTEs s1) -> wp (stop info) Q s1) ->
  (forall s1 cs1 z type n p info, dinv s1 cs1 -> steps s s1 -> settled x (ksCTEs s) (ksCTEs s1) ->
     leftover s x s1 z type n p -> wp (go z info) Q s1) ->
  wp (let* final := isFinalCapability x in
      let* (remainder, cleanupInfo) := finaliseCap (caps s x) final false in
      let* removable := from_option_M (capRemovable remainder x) in
      if (removable : bool) then stop cleanupInfo
      else setCap x remainder ;;; go remainder cleanupInfo) Q s.
Proof.
  intros [D1 D2 D3] Hx Hstop Hgo. wp_struct. eapply wp_final; [exact D2|exact Hx|]. intros final Hfin.
  pose proof (co_shape _ _ _ (so_containers _ _ _ _ D2) x) as Hshape.
  wp_struct. eapply wp_mono; [exact (fin_finalise s cs x final D1 D2 D3)|].
  intros r s1 (H1 & Hl & Hp & Hr & cs1 & H2). destruct r as [rem info]. cbv iota. wp_struct.
  assert (Hst : steps s s1) by (split; [done|by apply evolves_pruned]).
  assert (Hd : dinv s1 cs1) by (split; [done|done|by eapply caps_valid_evolve]).
  destruct (cap_is_null rem) eqn:Hnull.
  - apply cap_is_null_spec in Hnull as ->. eapply wp_from_option; [reflexivity|]. by eapply Hstop.
  - assert (Hn : rem <> cap_null_cap) by (intros ->; done).
    destruct (remains_zombie _ _ _ x Hshape Hr Hn) as (p & n & type & k & Hc & Hz & Ht & Hk & Hor & Hrem).
    cbn [fst] in *. eapply wp_from_option; [exact Hrem|]. subst n.
    destruct ((k =? 0) || ((k =? 1) && (x =? p))) eqn:Hb; [by eapply Hstop|].
    apply orb_false_iff in Hb as [Hk0%Z.eqb_neq Hk1].
    assert (Hexp : exposable (caps s x) = false) by (destruct (exposable (caps s x)) eqn:E; [|done];
      by rewrite (exposable_container _ E) in Hc).
    pose proof (pruned_container _ _ _ Hp Hexp) as Hx1.
    assert (Hsole : sole (ksCTEs s) x /\ forall y, y ∈ concat cs -> y <> x -> same_object (ksCTEs s) x y = false).
    { destruct (is_zombie (caps s x)) eqn:E.
      - split; [by apply (so_containers _ _ _ _ D2)|]. intros y _ _. by apply same_object_zombie.
      - destruct Hor as [?|Hf]; [done|]. specialize (Hfin Hf). split; [|done].
        eapply final_sole; [exact D2|by rewrite Hc|exact E|exact Hfin]. }
    destruct Hsole as [Hsole Hother].
    assert (Hcap1 : forall y, caps s1 y <> cap_null_cap -> caps s1 y = caps s y) by (intros y Hy; destruct (proj2 Hp y) as [?|[_ ?]]; done).
    wp_struct. eapply wp_set_zombie; [exact H2|exact Hz|by rewrite Hx1| | |].
    + intros y. rewrite Hx1, Hc. intros Hy. apply Hsole. rewrite Hc, <- Hcap1; [done|by eapply container_nonnull].
    + intros y Hy Hne. apply (cap_at_null _ _ _ (so_mdb _ _ _ _ H2)) in Hy as Hyn. unfold same_object. rewrite Hx1, Hcap1 by done.
      apply Hother; [|done]. apply (cap_at_null _ _ _ (so_mdb _ _ _ _ D2)). by rewrite <- Hcap1.
    + intros m' Hok' Hs' Hx' Hy'. destruct (dinv_slots s1 cs1 m' cs1 Hd Hok') as [Hd' Hst'].
      { apply (evolves_zombie _ _ x); [done|done| |].
        - rewrite Hx'. by eapply zombie_is_zombie.
        - rewrite Hx', Hx1, Hc. by eapply zombie_is_container. }
      eapply (Hgo _ _ _ type k p); [exact Hd'|by etrans| |].
      * eapply settled_trans; [by apply settled_pruned|by apply settled_only|apply Hst|apply Hst'].
      * split; try done.
        -- destruct Hz as (id & _ & _ & _ & _ & (_ & _ & _ & ?) & _). lia.
        -- intros [-> <-]. by rewrite !Z.eqb_refl in Hk1.
        -- rewrite Hc. by eapply zombie_is_container.
Qed.


(** ** The inner loop *)
Definition weight (m : gmap Z cte) : nat := (size (full m) + size (loose m))%nat.

Lemma evolves_weight m m' : evolves m m' -> (weight m' <= weight m)%nat.
Proof. intros [_ ? ? _]. unfold weight. lia. Qed.

Lemma zombie_is_cyclic z type n p x : zombie_is z type n p -> capCyclicZombie z x = (p =? x).
Proof. by intros (id & -> & _ & <- & _). Qed.

(** The slots of a left-over zombie. *)
Lemma leftover_slots s s1 cs1 x z type n p :
  dinv s1 cs1 -> leftover s x s1 z type n p ->
  cte_offset p 0 = p /\ (forall i, 0 <= i < zombie_slots type -> is_Some (ksCTEs s1 !! cte_offset p i)) /\
  1 <= n <= zombie_slots type /\ zombie_slots type <= 2 ^ 58 /\ sole (ksCTEs s1) x /\ is_Some (ksCTEs s1 !! p).
Proof.
  intros [_ D2 _] [L1 L2 L3 L4 L5 L6]. pose proof L2 as (id & _ & _ & _ & Ht & (_ & Hw & _ & _) & Hle & _).
  pose proof (so_containers _ _ _ _ D2) as HC. pose proof (zombie_slots_bound _ Ht) as [? ?].
  pose proof (zombie_is_container _ _ _ _ L2) as Hc. rewrite <- L1 in Hc.
  assert (Hs : forall i, 0 <= i < zombie_slots type -> is_Some (ksCTEs s1 !! cte_offset p i)).
  { intros i Hi. by apply (co_slots _ _ _ HC x p (zombie_slots type)). }
  pose proof (cte_offset_0 p Hw) as Hp0. split_and!; try done; try lia.
  - apply (co_zombie _ _ _ HC). rewrite L1. by eapply zombie_is_zombie.
  - rewrite <- Hp0. apply Hs. lia.
Qed.

(** The zombie goes to the first slot of its object. *)
Lemma wp_exchange delete s s1 cs1 x z type n p Q :
  dinv s1 cs1 -> leftover s x s1 z type n p -> p <> x ->
  (forall s2 cs2, dinv s2 cs2 -> steps s1 s2 -> settled x (ksCTEs s1) (ksCTEs s2) ->
     (size (loose (ksCTEs s2)) < size (loose (ksCTEs s1)))%nat -> Q EXCEPTION_NONE s2) ->
  wp (reduceZombie_with delete x false) Q s1.
Proof.
  intros Hd Hl Hpx HQ. pose proof (leftover_slots _ _ _ _ _ _ _ _ Hd Hl) as (H0 & Hs & Hn & Hb & Hsole & Hp).
  destruct Hl as [L1 L2 L3 L4 L5 L6]. pose proof Hd as [D1 D2 D3]. pose proof (so_containers _ _ _ _ D2) as HC.
  pose proof (zombie_is_container _ _ _ _ L2) as Hc. rewrite <- L1 in Hc.
  assert (Hx : caps s1 x <> cap_null_cap) by (by eapply container_nonnull).
  assert (Hz : is_zombie (caps s1 x) = true) by (rewrite L1; by eapply zombie_is_zombie).
  assert (Hfirst : capCyclicZombie (caps s1 p) p = false).
  { destruct (capCyclicZombie (caps s1 p) p) eqn:E; [exfalso|done].
    destruct (caps s1 p) as [| | | | | | | | |id type'| | | | | | |] eqn:Ep; try done. cbn in E. apply Z.eqb_eq in E.
    pose proof (co_shape _ _ _ HC p) as Hsh. rewrite Ep in Hsh. destruct (zombie_shape _ _ Hsh) as (n' & p' & Hz').
    pose proof (zombie_is_container _ _ _ _ Hz') as Hc'. destruct Hz' as (id0 & [= <-] & _ & Hp' & Ht' & _).
    rewrite E in Hp'. subst p'. rewrite <- Ep in Hc'.
    destruct (co_apart _ _ _ HC x p _ _ Hc Hc') as [Heq|Hap].
    - apply Hpx. apply Hsole. by rewrite Hc', Hc, Heq.
    - pose proof (zombie_slots_bound _ Ht') as [? _]. apply (Hap 0 0); cbn; [lia|lia|done]. }
  destruct L2 as (id & Ez & Hnum & Hptr & Hrest).
  unfold reduceZombie_with. wp_struct. apply wp_slot_cap; [by destruct (cap_at_some _ _ Hx) as (c & Hcc & _); eauto|].
  rewrite L1, Ez. rewrite Hnum, Hptr. wp_struct. wp_struct; [by apply Z.ltb_lt|].
  wp_struct. wp_struct; [by apply negb_true_iff, Z.eqb_neq|].
  wp_struct. apply wp_slot_cap; [done|]. wp_struct.
  set (Q' := fun (_ : unit) s' => wp (capSwapForDelete p x ;;; ret EXCEPTION_NONE) Q s').
  enough (Hgo : Q' tt s1).
  { destruct (caps s1 p) as [| | | | | | | | |id' type'| | | | | | |]; try exact Hgo.
    wp_struct; [|exact Hgo]. cbn in Hfirst. rewrite Z.eqb_sym. by rewrite Hfirst. }
  unfold Q'. wp_struct. eapply wp_capSwapForDelete; [exact D2|exact Hz|exact Hc|done|done|].
  intros m' Hok' Hs' Hcap. wp_struct.
  destruct (evolves_swap _ _ p x _ Hs' Hcap Hpx Hz Hc Hfirst) as [He Hlt].
  destruct (dinv_slots s1 cs1 m' _ Hd Hok' He) as [Hd' Hst']. eapply HQ; [exact Hd'|exact Hst'| |exact Hlt].
  intros y Hy. st_simpl. rewrite Hcap. destruct (decide (y = p)) as [->|Hyp]; [|by left; rewrite transp_o].
  right; right. rewrite transp_l. split_and!; [|done|exact Hlt]. rewrite L1, Ez. cbn. rewrite Hptr. by apply Z.eqb_refl.
Qed.

(** The slot ends with a zombie that nothing but its own slot leads to. *)
Definition stuck (x : Z) (s s' : kstate) : Prop :=
  capCyclicZombie (caps s' x) x = true /\
  ((size (loose (ksCTEs s')) < size (loose (ksCTEs s)))%nat \/ container (caps s' x) = container (caps s x)).

Definition inner_post (x : Z) (s : kstate) (r : finaliseSlot_ret) (s' : kstate) : Prop :=
  (exists cs', dinv s' cs') /\ steps s s' /\ settled x (ksCTEs s) (ksCTEs s') /\ none_or_preempted (fs_status r) /\
  (fs_status r = EXCEPTION_NONE ->
     if fs_success r then caps s' x <> cap_null_cap \/ (weight (ksCTEs s') < weight (ksCTEs s))%nat \/ caps s x = cap_null_cap
     else stuck x s s').

Lemma wp_finaliseSlot_inner delete fuel : forall s cs x,
  dinv s cs -> is_Some (ksCTEs s !! x) -> (size (loose (ksCTEs s)) < fuel)%nat ->
  wp (finaliseSlot_with delete fuel x false) (inner_post x s) s.
Proof.
  induction fuel as [|fuel IH]; intros s cs x Hd Hx Hfuel; [lia|]. cbn [finaliseSlot_with].
  wp_struct. apply wp_slot_cap; [exact Hx|]. destruct (cap_is_null (caps s x)) eqn:Hnull.
  { apply cap_is_null_spec in Hnull. wp_struct. split_and!; [eauto|done|by intros y Hy; left|by left|]. intros _. by right; right. }
  assert (Hn : caps s x <> cap_null_cap) by (intros E; by rewrite E in Hnull).
  apply (wp_finalise x (fun info => ret (mk_finaliseSlot_ret EXCEPTION_NONE true info))
    (fun rem info => if negb false && capCyclicZombie rem x then _ else _) _ s cs Hd Hn).
  - intros s1 cs1 info Hd1 Hst Hp. wp_struct. split_and!; [eauto|done|by apply settled_pruned|by left|].
    intros _. cbn. destruct (decide (caps s1 x = cap_null_cap)) as [E|?]; [|by left]. right; left.
    unfold weight. assert (size (full (ksCTEs s1)) < size (full (ksCTEs s)))%nat.
    { apply (full_lost _ _ x); [|done|done]. intros y. destruct (proj2 Hp y) as [?|[_ ?]]; tauto. }
    pose proof (ev_loose _ _ (proj2 Hst)). lia.
  - intros s1 cs1 z type n p info Hd1 Hst Hset Hl. pose proof (lo_zombie _ _ _ _ _ _ _ Hl) as Hz.
    rewrite (zombie_is_cyclic _ _ _ _ x Hz). cbn [negb andb]. destruct (Z.eqb_spec p x) as [->|Hpx].
    + wp_struct. split_and!; [eauto|done|done|by left|]. intros _. cbn. unfold stuck.
      rewrite (lo_cap _ _ _ _ _ _ _ Hl), (zombie_is_cyclic _ _ _ _ x Hz), (lo_container _ _ _ _ _ _ _ Hl).
      split; [apply Z.eqb_refl|by right].
    + wp_struct. eapply wp_exchange; [exact Hd1|exact Hl|exact Hpx|]. intros s2 cs2 Hd2 Hst2 Hset2 Hlt.
      change (negb (is_none EXCEPTION_NONE)) with false. cbv iota. wp_struct.
      assert (Hst12 : steps s s2) by (by etrans).
      assert (Hset12 : settled x (ksCTEs s) (ksCTEs s2)) by (eapply settled_trans; [exact Hset|exact Hset2|apply Hst|apply Hst2]).
      eapply wp_preemptionPoint; [exact Hd2|]. intros ex s3 Hex Hctes Hd3 Hst3.
      pose proof (ev_loose _ _ (proj2 Hst)).
      destruct Hex as [-> | ->].
      * change (negb (is_none EXCEPTION_NONE)) with false. cbv iota. eapply wp_mono.
        { eapply IH; [exact Hd3| |rewrite Hctes; lia]. rewrite Hctes. by apply (ev_same _ _ (proj2 Hst12)). }
        intros r s4 (Hd4 & Hst4 & Hset4 & Hex4 & Hr4). rewrite Hctes in Hset4, Hr4.
        assert (Hst34 : steps s2 s4) by (by etrans).
        split_and!; [done|by etrans| |done|].
        -- eapply settled_trans; [exact Hset12|exact Hset4|apply Hst12|apply Hst34].
        -- intros E. specialize (Hr4 E). destruct (fs_success r).
           2: { destruct Hr4 as [? _]. split; [done|]. left. pose proof (ev_loose _ _ (proj2 Hst34)). lia. }
           pose proof (evolves_weight _ _ (proj2 Hst34)). pose proof (ev_full _ _ (proj2 Hst12)).
           destruct Hr4 as [?|[?|_]]; [by left|right; left|right; left]; unfold weight in *; lia.
      * change (negb (is_none EXCEPTION_PREEMPTED)) with true. cbv iota. wp_struct.
        split_and!; [eauto|by etrans|by rewrite Hctes|by right|done].
Qed.


(** ** Deleting the last slot of a zombie *)
Lemma wp_emptied_dinv s cs x info :
  dinv s cs -> is_Some (ksCTEs s !! x) ->
  wp (emptySlot x info) (fun _ s' => (exists cs', dinv s' cs') /\ steps s s' /\ caps s' x = cap_null_cap /\
    (forall y, y <> x -> caps s' y = caps s y) /\
    (caps s x <> cap_null_cap -> (weight (ksCTEs s') < weight (ksCTEs s))%nat)) s.
Proof.
  intros Hd Hx. eapply wp_emptied; [apply Hd|exact Hx|]. intros m' cs' s' Hok' Hs' Hcap Hs2.
  assert (He : evolves (ksCTEs s) m').
  { apply evolves_lost; [done|]. intros y. rewrite Hcap. case_decide; tauto. }
  destruct (dinv_slots s cs m' cs' Hd Hok' He) as [Hd' Hst'].
  assert (Hend : (exists cs', dinv s' cs') /\ steps s s' /\ ksCTEs s' = m').
  { destruct Hs2 as [-> | ->]; [split_and!; [by eauto|done|done]|].
    destruct (dinv_released _ _ info Hd') as [Hd2 Hst2]. split_and!; [by eauto|by etrans|by rewrite released_ctes]. }
  destruct Hend as (H1 & H2 & E). rewrite E. split_and!; [done|done|by rewrite Hcap, decide_True| |].
  - intros y Hy. by rewrite Hcap, decide_False.
  - intros Hn. unfold weight. pose proof (ev_loose _ _ He).
    assert (size (full m') < size (full (ksCTEs s)))%nat; [|lia].
    apply (full_lost _ _ x); [|done|by rewrite Hcap, decide_True]. intros y. rewrite Hcap. case_decide; tauto.
Qed.

Definition deleted_inner (x : Z) (s : kstate) (ex : exception_t) (s' : kstate) : Prop :=
  (exists cs', dinv s' cs') /\ steps s s' /\ settled x (ksCTEs s) (ksCTEs s') /\ none_or_preempted ex /\
  (ex = EXCEPTION_NONE ->
     (caps s' x = cap_null_cap /\ (caps s x = cap_null_cap \/ (weight (ksCTEs s') < weight (ksCTEs s))%nat)) \/ stuck x s s').

Lemma wp_cteDelete_inner fuel s cs x :
  dinv s cs -> is_Some (ksCTEs s !! x) -> (size (loose (ksCTEs s)) <= fuel)%nat ->
  wp (cteDelete (S fuel) x false) (deleted_inner x s) s.
Proof.
  intros Hd Hx Hf. cbn [cteDelete]. wp_struct.
  eapply wp_mono; [eapply wp_finaliseSlot_inner; [exact Hd|exact Hx|lia]|].
  intros r s1 ((cs1 & Hd1) & Hst & Hset & Hex & Hr). destruct Hex as [E|E]; rewrite E.
  - change (negb (is_none EXCEPTION_NONE)) with false. cbv iota. specialize (Hr E). cbn [orb]. wp_struct.
    destruct (fs_success r).
    + eapply wp_mono; [eapply wp_emptied_dinv; [exact Hd1|by apply (ev_same _ _ (proj2 Hst))]|].
      intros _ s2 (Hd2 & Hst2 & Hx2 & Hy2 & Hw). wp_struct. split_and!; [done|by etrans| |by left|].
      * eapply settled_trans; [exact Hset|by apply settled_only|apply Hst|apply Hst2].
      * intros _. left. split; [done|]. pose proof (evolves_weight _ _ (proj2 Hst)). pose proof (evolves_weight _ _ (proj2 Hst2)).
        destruct Hr as [Hn|[?|?]]; [specialize (Hw Hn); right; lia|right; lia|by left].
    + wp_struct. wp_struct. split_and!; [eauto|done|done|by left|]. intros _. by right.
  - change (negb (is_none EXCEPTION_PREEMPTED)) with true. cbv iota. wp_struct. split_and!; [eauto|done|done|by right|done].
Qed.

(** What a turn of the outer loop achieves. *)
Definition reduced (x : Z) (s1 s2 : kstate) (type n p : Z) : Prop :=
  zombie_is (caps s2 x) type (n - 1) p \/
  (caps s2 x = cap_null_cap /\ (weight (ksCTEs s2) < weight (ksCTEs s1))%nat) \/
  (is_zombie (caps s2 x) = true /\ (size (loose (ksCTEs s2)) < size (loose (ksCTEs s1)))%nat).

Lemma cyclic_zombie c x : capCyclicZombie c x = true ->
  exists id type, c = cap_zombie_cap id type /\ cap_zombie_cap_get_capZombiePtr id type = x.
Proof. destruct c; try done. cbn. intros H%Z.eqb_eq. eauto. Qed.

(** Two zombies whose first slots are in one container are one. *)
Lemma cyclic_in_container s cs x p k i y :
  dinv s cs -> container (caps s x) = Some (p, k) -> is_zombie (caps s x) = true -> 0 <= i < k -> y = cte_offset p i ->
  capCyclicZombie (caps s y) y = true -> y = x /\ p = y.
Proof.
  intros [_ D2 _] Hx Hz Hi -> Hc. pose proof (so_containers _ _ _ _ D2) as HC. set (y := cte_offset p i) in *.
  apply cyclic_zombie in Hc as (id & type & E & Hp). pose proof (co_shape _ _ _ HC y) as Hs. rewrite E in Hs.
  destruct (zombie_shape _ _ Hs) as (n' & p' & Hz'). pose proof (zombie_is_container _ _ _ _ Hz') as Hc'.
  destruct Hz' as (id0 & [= <-] & _ & Hp' & Ht' & (_ & Hw & _) & _). rewrite Hp in Hp'. subst p'. rewrite <- E in Hc'.
  pose proof (zombie_slots_bound _ Ht') as [? _].
  destruct (co_apart _ _ _ HC x y _ _ Hx Hc') as [Heq|Hap].
  - assert (Hpy : p = y) by congruence. split; [|exact Hpy]. apply (co_zombie _ _ _ HC x Hz).
    by rewrite Hc', Hx, Heq.
  - destruct (Hap i 0); cbn; [done|lia|]. fold y. symmetry. by apply cte_offset_0.
Qed.


(** Counting down: the zombie is still there and its last slot is empty. *)
Lemma wp_count_down s cs x id type n p Q :
  dinv s cs -> caps s x = cap_zombie_cap id type -> zombie_is (caps s x) type n p -> 0 < n ->
  (forall s2 cs2, dinv s2 cs2 -> steps s s2 -> zombie_is (caps s2 x) type (n - 1) p -> Q tt s2) ->
  wp (setCap x (cap_zombie_cap_set_capZombieNumber id type (n - 1))) Q s.
Proof.
  intros Hd E Hz Hn HQ. pose proof Hd as [D1 D2 D3].
  assert (Hzz : is_zombie (caps s x) = true) by (by rewrite E).
  assert (Hz' : zombie_is (cap_zombie_cap_set_capZombieNumber id type (n - 1)) type (n - 1) p).
  { apply zombie_decrement; [by rewrite <- E|done]. }
  pose proof (zombie_is_container _ _ _ _ Hz) as Hc. pose proof (zombie_is_container _ _ _ _ Hz') as Hc'.
  eapply wp_set_zombie; [exact D2|exact Hz'|exact Hc| | |].
  - by apply (co_zombie _ _ _ (so_containers _ _ _ _ D2)).
  - intros y _ _. by apply same_object_zombie.
  - intros m' Hok' Hs' Hx' Hy'. destruct (dinv_slots s cs m' cs Hd Hok') as [Hd' Hst'].
    { apply (evolves_zombie _ _ x); [done|done| |].
      - rewrite Hx'. by eapply zombie_is_zombie.
      - by rewrite Hx', Hc, Hc'. }
    eapply HQ; [exact Hd'|exact Hst'|]. st_simpl. by rewrite Hx'.
Qed.

Lemma wp_reduce_last fuel s s1 cs1 x z type n p :
  dinv s1 cs1 -> leftover s x s1 z type n p -> (size (loose (ksCTEs s1)) <= fuel)%nat ->
  wp (reduceZombie_with (cteDelete (S fuel)) x true) (fun ex s2 =>
    (exists cs2, dinv s2 cs2) /\ steps s1 s2 /\ none_or_preempted ex /\
    (ex = EXCEPTION_NONE -> reduced x s1 s2 type n p)) s1.
Proof.
  intros Hd Hl Hf. pose proof (leftover_slots _ _ _ _ _ _ _ _ Hd Hl) as (Hp0 & Hs & Hn & Hb & _ & _).
  destruct Hl as [L1 L2 L3 L4 _ _]. pose proof (zombie_is_container _ _ _ _ L2) as Hc.
  pose proof (zombie_is_zombie _ _ _ _ L2) as Hz. rewrite <- L1 in Hc, Hz, L2.
  destruct (L2) as (id & Ez & Hnum & Hptr & _).
  assert (Hxs : is_Some (ksCTEs s1 !! x)) by (destruct (cap_at_some _ _ (container_nonnull _ _ _ Hc)) as (c & ? & _); eauto).
  unfold reduceZombie_with. wp_struct. apply wp_slot_cap; [exact Hxs|]. rewrite Ez, Hnum, Hptr.
  wp_struct. wp_struct; [by apply Z.ltb_lt|]. set (last := cte_offset p (n - 1)).
  assert (Hlast : last = x -> p <> x).
  { intros E ->. apply L4. split; [|done]. enough (n - 1 = 0) by lia.
    apply (cte_offset_distinct x); [lia|lia|]. fold last. congruence. }
  wp_struct. eapply wp_mono; [eapply wp_cteDelete_inner; [exact Hd|apply Hs; lia|exact Hf]|].
  intros ex s2 ((cs2 & Hd2) & Hst & Hset & Hex & Hr). destruct Hex as [-> | ->].
  2: { change (negb (is_none EXCEPTION_PREEMPTED)) with true. cbv iota. wp_struct. split_and!; [eauto|done|by right|done]. }
  change (negb (is_none EXCEPTION_NONE)) with false. cbv iota. specialize (Hr eq_refl).
  wp_struct. apply wp_slot_cap; [by apply (ev_same _ _ (proj2 Hst))|].
  assert (Hkeep : forall y, is_Some (ksCTEs s1 !! y) -> is_Some (ksCTEs s2 !! y)) by (intros y; apply (ev_same _ _ (proj2 Hst))).
  assert (Hend : forall s3, (exists cs3, dinv s3 cs3) -> steps s1 s3 -> reduced x s1 s3 type n p ->
    wp (ret EXCEPTION_NONE) (fun ex s2 => (exists cs2, dinv s2 cs2) /\ steps s1 s2 /\ none_or_preempted ex /\
      (ex = EXCEPTION_NONE -> reduced x s1 s2 type n p)) s3).
  { intros s3 H1 H2 H3. wp_struct. split_and!; [done|done|by left|done]. }
  assert (Hcyc : p <> x -> capCyclicZombie (caps s2 x) x = true -> (size (loose (ksCTEs s2)) < size (loose (ksCTEs s1)))%nat ->
    exists id' type', caps s2 x = cap_zombie_cap id' type' /\ cap_zombie_cap_get_capZombiePtr id' type' = x /\
      reduced x s1 s2 type n p).
  { intros _ Hcy Hlt. destruct (cyclic_zombie _ _ Hcy) as (id' & type' & E & Hp'). exists id', type'.
    split_and!; [done|done|]. right; right. split; [by rewrite E|done]. }
  destruct (decide (x = last)) as [->|Hxl].
  - specialize (Hlast eq_refl). destruct Hr as [[Hnull Hw]|[Hcy Hor]].
    + rewrite Hnull. wp_struct. wp_struct. apply Hend; [eauto|done|]. right; left. split; [done|].
      destruct Hw as [Hw|?]; [|done]. by rewrite Ez in Hw.
    + destruct Hor as [Hlt|Hcc].
      * destruct (Hcyc Hlast Hcy Hlt) as (id' & type' & E & Hp' & Hred). rewrite E, Hp'.
        wp_struct. rewrite (proj2 (Z.eqb_neq p last)) by done. cbn [andb]. rewrite Z.eqb_refl. wp_struct.
        apply Hend; [eauto|done|exact Hred].
      * exfalso. apply Hlast. destruct (cyclic_zombie _ _ Hcy) as (id' & type' & E & Hp'). rewrite E, Ez in Hcc. cbn in Hcc.
        congruence.
  - destruct (Hset x Hxl) as [Hsame|[[He _]|(Hcy & Hnc & Hlt)]].
    + rewrite Hsame, Ez. rewrite Hptr, Hnum, !Z.eqb_refl. cbn [andb].
      assert (Hempty : caps s2 last = cap_null_cap).
      { destruct Hr as [[? _]|[Hcy _]]; [done|exfalso]. apply Hxl.
        symmetry. eapply (cyclic_in_container s2 cs2 x p _ (n - 1) last Hd2); [by rewrite Hsame|by rewrite Hsame|lia|done|done]. }
      wp_struct. wp_struct. apply wp_slot_cap; [apply Hkeep, Hs; lia|]. rewrite Hempty. wp_struct. wp_struct.
      eapply wp_count_down; [exact Hd2|by rewrite Hsame|by rewrite Hsame|exact L3|].
      intros s3 cs3 Hd3 Hst3 Hz3. apply Hend; [eauto|by etrans|by left].
    + rewrite Ez in He. done.
    + assert (Hpx : p <> x) by (rewrite (zombie_is_cyclic _ _ _ _ x L2) in Hnc; by apply Z.eqb_neq).
      destruct (Hcyc Hpx Hcy Hlt) as (id' & type' & E & Hp' & Hred). rewrite E, Hp'.
      wp_struct. rewrite (proj2 (Z.eqb_neq p x)) by done. cbn [andb]. rewrite Z.eqb_refl. wp_struct.
      apply Hend; [eauto|done|exact Hred].
Qed.


(** ** The outer loop *)
Lemma slots_counted (m : gmap Z cte) p n :
  0 <= n <= 2 ^ 58 -> (forall i, 0 <= i < n -> is_Some (m !! cte_offset p i)) -> n <= Z.of_nat (size (dom m)).
Proof.
  intros Hn Hs. unfold size, set_size. cbn.
  assert (Hl : (length (cte_offset p <$> seqZ 0 n) <= length (elements (dom m)))%nat).
  { apply submseteq_length, NoDup_submseteq.
    - apply NoDup_fmap_2_strong; [|apply NoDup_seqZ]. intros i j Hi Hj. apply elem_of_seqZ in Hi. apply elem_of_seqZ in Hj.
      apply cte_offset_distinct; lia.
    - intros y Hy. apply list_elem_of_fmap in Hy as (i & -> & Hi). apply elem_of_seqZ in Hi.
      apply elem_of_elements, elem_of_dom, Hs. lia. }
  rewrite length_fmap, length_seqZ in Hl. lia.
Qed.

Lemma slot_count_bound s cs x :
  dinv s cs -> 0 <= slot_count (caps s x) <= Z.of_nat (size (dom (ksCTEs s))).
Proof.
  intros [_ D2 _]. pose proof (so_containers _ _ _ _ D2) as HC. pose proof (co_shape _ _ _ HC x) as Hs.
  assert (Hc : match container (caps s x) with
    | Some (p, n) => 0 <= slot_count (caps s x) <= n /\ 0 <= n <= 2 ^ 58 | None => slot_count (caps s x) = 0 end).
  { unfold slot_count. destruct (caps s x) eqn:E; try done; cbn in *.
    - pose proof (cnode_radix _ 0 0 _ Hs). pose proof (proj1 Hs). assert (0 <= 2 ^ capCNodeRadix) by (apply Z.pow_nonneg; lia).
      assert (2 ^ capCNodeRadix <= 2 ^ 58) by (apply Z.pow_le_mono_r; lia). lia.
    - destruct (zombie_shape _ _ Hs) as (n & p & id & [= <-] & <- & _ & Ht & (_ & _ & _ & Hn) & Hle & _).
      pose proof (zombie_slots_bound _ Ht). lia. }
  destruct (container (caps s x)) as [[p n]|] eqn:E; [|lia]. destruct Hc as [Hc Hn].
  enough (n <= Z.of_nat (size (dom (ksCTEs s)))) by lia. eapply slots_counted; [exact Hn|].
  intros i Hi. by apply (co_slots _ _ _ HC x p n).
Qed.

Lemma same_slots_dom m m' : same_slots m m' -> size (dom m') = size (dom m).
Proof. intros H. f_equal. apply leibniz_equiv. intros x. rewrite !elem_of_dom. apply H. Qed.

(** Turns left: a turn empties a slot of the zombie or makes a container
    cyclic, after which the count starts again below the number of slots. *)
Definition turns (s : kstate) (x : Z) : nat :=
  (size (loose (ksCTEs s)) * S (size (dom (ksCTEs s))) + Z.to_nat (slot_count (caps s x)))%nat.

Lemma reduced_turns s1 cs1 s2 cs2 x type n p :
  dinv s1 cs1 -> dinv s2 cs2 -> steps s1 s2 -> 0 < n -> slot_count (caps s1 x) = n -> reduced x s1 s2 type n p ->
  (turns s2 x < turns s1 x)%nat.
Proof.
  intros Hd1 Hd2 [_ [Hs Hl _ _]] Hn Hc Hr. unfold turns. rewrite (same_slots_dom _ _ Hs), Hc.
  pose proof (slot_count_bound _ _ x Hd2) as Hb. rewrite (same_slots_dom _ _ Hs) in Hb.
  set (W := size (dom (ksCTEs s1))) in *. destruct Hr as [Hz|[[Hz _]|[_ Hlt]]].
  - rewrite (zombie_is_count _ _ _ _ Hz). nia.
  - rewrite Hz. cbn [slot_count container]. nia.
  - nia.
Qed.

Definition outer_post (x : Z) (s : kstate) (r : finaliseSlot_ret) (s' : kstate) : Prop :=
  (exists cs', dinv s' cs') /\ steps s s' /\ none_or_preempted (fs_status r) /\
  (fs_status r = EXCEPTION_NONE ->
     caps s' x <> cap_null_cap \/ (weight (ksCTEs s') < weight (ksCTEs s))%nat \/ caps s x = cap_null_cap).

Lemma wp_finaliseSlot_outer inner fuel : forall s cs x,
  dinv s cs -> is_Some (ksCTEs s !! x) -> (size (loose (ksCTEs s)) <= inner)%nat -> (turns s x < fuel)%nat ->
  wp (finaliseSlot_with (cteDelete (S inner)) fuel x true) (outer_post x s) s.
Proof.
  induction fuel as [|fuel IH]; intros s cs x Hd Hx Hin Hfuel; [lia|]. cbn [finaliseSlot_with].
  wp_struct. apply wp_slot_cap; [exact Hx|]. destruct (cap_is_null (caps s x)) eqn:Hnull.
  { apply cap_is_null_spec in Hnull. wp_struct. split_and!; [eauto|done|by left|]. intros _. by right; right. }
  assert (Hn : caps s x <> cap_null_cap) by (intros E; by rewrite E in Hnull).
  apply (wp_finalise x (fun info => ret (mk_finaliseSlot_ret EXCEPTION_NONE true info))
    (fun rem info => if negb true && capCyclicZombie rem x then _ else _) _ s cs Hd Hn).
  - intros s1 cs1 info Hd1 Hst Hp. wp_struct. split_and!; [eauto|done|by left|].
    intros _. cbn. destruct (decide (caps s1 x = cap_null_cap)) as [E|?]; [|by left]. right; left.
    unfold weight. assert (size (full (ksCTEs s1)) < size (full (ksCTEs s)))%nat.
    { apply (full_lost _ _ x); [|done|done]. intros y. destruct (proj2 Hp y) as [?|[_ ?]]; tauto. }
    pose proof (ev_loose _ _ (proj2 Hst)). lia.
  - intros s1 cs1 z type n p info Hd1 Hst Hset Hl. cbn [negb andb]. wp_struct.
    pose proof (ev_loose _ _ (proj2 Hst)) as Hloose.
    assert (Hc1 : slot_count (caps s1 x) = n).
    { rewrite (lo_cap _ _ _ _ _ _ _ Hl). eapply zombie_is_count, Hl. }
    eapply wp_mono; [eapply (wp_reduce_last inner); [exact Hd1|exact Hl|lia]|].
    intros ex s2 ((cs2 & Hd2) & Hst2 & Hex & Hr). destruct Hex as [-> | ->].
    2: { change (negb (is_none EXCEPTION_PREEMPTED)) with true. cbv iota. wp_struct. split_and!; [eauto|by etrans|by right|done]. }
    change (negb (is_none EXCEPTION_NONE)) with false. cbv iota. specialize (Hr eq_refl).
    pose proof (reduced_turns _ _ _ _ _ _ _ _ Hd1 Hd2 Hst2 (lo_count _ _ _ _ _ _ _ Hl) Hc1 Hr) as Hturns.
    assert (Ht1 : (turns s1 x <= turns s x)%nat).
    { unfold turns. rewrite (same_slots_dom _ _ (ev_same _ _ (proj2 Hst))), Hc1, (lo_same_count _ _ _ _ _ _ _ Hl). nia. }
    assert (Hst12 : steps s s2) by (by etrans).
    pose proof (ev_loose _ _ (proj2 Hst2)) as Hloose2.
    wp_struct. eapply wp_preemptionPoint; [exact Hd2|]. intros ex s3 Hex Hctes Hd3 Hst3.
    assert (Hst13 : steps s s3) by (by etrans).
    destruct Hex as [-> | ->].
    2: { change (negb (is_none EXCEPTION_PREEMPTED)) with true. cbv iota. wp_struct. split_and!; [eauto|done|by right|done]. }
    change (negb (is_none EXCEPTION_NONE)) with false. cbv iota. eapply wp_mono.
    { eapply IH; [exact Hd3|rewrite Hctes; by apply (ev_same _ _ (proj2 Hst12))|rewrite Hctes; lia|].
      unfold turns in *. rewrite Hctes. lia. }
    intros r s4 (Hd4 & Hst4 & Hex4 & Hr4). split_and!; [done|by etrans|done|]. intros E.
    pose proof (evolves_weight _ _ (proj2 Hst4)) as Hw4. rewrite Hctes in Hw4, Hr4.
    pose proof (evolves_weight _ _ (proj2 Hst12)) as Hw12. pose proof (evolves_weight _ _ (proj2 Hst)) as Hw1.
    destruct (Hr4 E) as [?|[?|Hx3]]; [by left|right; left; lia|right; left].
    destruct Hr as [Hz|[[_ Hw]|[Hz _]]]; [|lia|by rewrite Hx3 in Hz].
    apply zombie_is_zombie in Hz. by rewrite Hx3 in Hz.
Qed.

(** The fuel of a deletion: enough turns, whatever the slots hold. *)
Definition delete_fuel (s : kstate) : nat := (S (S (size (dom (ksCTEs s)))) * S (S (size (dom (ksCTEs s)))))%nat.

Lemma loose_bound m : (size (loose m) <= size (dom m))%nat.
Proof. apply subseteq_size. unfold loose. intros x. rewrite elem_of_filter. tauto. Qed.

Definition deleted (x : Z) (s : kstate) (ex : exception_t) (s' : kstate) : Prop :=
  (exists cs', dinv s' cs') /\ steps s s' /\ none_or_preempted ex /\
  (ex = EXCEPTION_NONE -> caps s' x = cap_null_cap /\
     (caps s x <> cap_null_cap -> (weight (ksCTEs s') < weight (ksCTEs s))%nat)).

Lemma wp_cteDelete fuel s cs x :
  dinv s cs -> is_Some (ksCTEs s !! x) -> (delete_fuel s <= fuel)%nat -> wp (cteDelete fuel x true) (deleted x s) s.
Proof.
  intros Hd Hx Hf. unfold delete_fuel in Hf. pose proof (loose_bound (ksCTEs s)) as Hl.
  pose proof (slot_count_bound _ _ x Hd) as Hc. set (W := size (dom (ksCTEs s))) in *.
  destruct fuel as [|[|fuel]]; [lia|lia|]. cbn [cteDelete]. wp_struct.
  eapply wp_mono.
  { apply (wp_finaliseSlot_outer fuel (S (S fuel)) s cs x Hd Hx); [nia|]. unfold turns. fold W. nia. }
  intros r s1 ((cs1 & Hd1) & Hst & Hex & Hr). destruct Hex as [E|E]; rewrite E.
  - change (negb (is_none EXCEPTION_NONE)) with false. cbv iota. specialize (Hr E). cbn [orb]. wp_struct.
    eapply wp_mono; [eapply wp_emptied_dinv; [exact Hd1|by apply (ev_same _ _ (proj2 Hst))]|].
    intros _ s2 (Hd2 & Hst2 & Hx2 & _ & Hw). wp_struct. split_and!; [done|by etrans|by left|].
    intros _. split; [done|]. intros Hn. pose proof (evolves_weight _ _ (proj2 Hst)). pose proof (evolves_weight _ _ (proj2 Hst2)).
    destruct Hr as [Hn1|[?|?]]; [specialize (Hw Hn1); lia|lia|done].
  - change (negb (is_none EXCEPTION_PREEMPTED)) with true. cbv iota. wp_struct. split_and!; [eauto|done|by right|done].
Qed.


(** ** Revocation *)

Lemma delete_fuel_steps s s' : steps s s' -> delete_fuel s' = delete_fuel s.
Proof. intros [_ He]. unfold delete_fuel. by rewrite (same_slots_dom _ _ (ev_same _ _ He)). Qed.

Definition revoked (x : Z) (s : kstate) (ex : exception_t) (s' : kstate) : Prop :=
  (exists cs', dinv s' cs') /\ steps s s' /\ none_or_preempted ex /\
  (ex = EXCEPTION_NONE -> childless (ksCTEs s') x).

Lemma wp_cteRevoke fuel : forall s cs x,
  dinv s cs -> is_Some (ksCTEs s !! x) -> (delete_fuel s + weight (ksCTEs s) < fuel)%nat ->
  wp (cteRevoke fuel x) (revoked x s) s.
Proof.
  induction fuel as [|fuel IH]; intros s cs x Hd [c Hc] Hf; [lia|]. cbn [cteRevoke].
  pose proof (so_mdb _ _ _ _ (di_slots _ _ Hd)) as Hwf.
  assert (Hend : childless (ksCTEs s) x -> wp (ret EXCEPTION_NONE) (revoked x s) s).
  { intros H. wp_struct. split_and!; [eauto|done|by left|done]. }
  wp_struct. eapply wp_getCTE; [exact Hc|]. cbv zeta. destruct (Z.eqb_spec (mdbNext (cteMDBNode c)) 0) as [E|E].
  { apply Hend. intros c' n Hc'. replace c' with c by congruence. rewrite E, (mw_null _ _ Hwf). done. }
  pose proof (mw_links _ _ Hwf x) as (Hnx & _). rewrite (clink_Some _ _ _ _ Hc) in Hnx. destruct (Hnx E) as [Hin _].
  destruct (mw_cells _ _ Hwf _ Hin) as (n & Hn & Hnn).
  wp_struct. eapply wp_getCTE; [exact Hn|]. destruct (isMDBParentOf c n) eqn:Hpar; cbn [negb].
  2: { apply Hend. intros c' n' Hc' Hn'. congruence. }
  wp_struct. eapply wp_mono; [eapply wp_cteDelete; [exact Hd|by eexists|lia]|].
  intros ex s1 ((cs1 & Hd1) & Hst & Hex & Hr). destruct Hex as [-> | ->].
  2: { change (negb (is_none EXCEPTION_PREEMPTED)) with true. cbv iota. wp_struct. split_and!; [eauto|done|by right|done]. }
  change (negb (is_none EXCEPTION_NONE)) with false. cbv iota. destruct (Hr eq_refl) as [_ Hw].
  assert (Hw1 : (weight (ksCTEs s1) < weight (ksCTEs s))%nat).
  { apply Hw. by rewrite (slot_capability_Some _ _ _ Hn). }
  wp_struct. eapply wp_preemptionPoint; [exact Hd1|]. intros ex s2 Hex Hctes Hd2 Hst2.
  assert (Hst12 : steps s s2) by (by etrans). destruct Hex as [-> | ->].
  2: { change (negb (is_none EXCEPTION_PREEMPTED)) with true. cbv iota. wp_struct. split_and!; [eauto|done|by right|done]. }
  change (negb (is_none EXCEPTION_NONE)) with false. cbv iota. eapply wp_mono.
  { eapply IH; [exact Hd2| |]. - apply (ev_same _ _ (proj2 Hst12)). by eexists.
    - rewrite (delete_fuel_steps _ _ Hst12), Hctes. lia. }
  intros ex s3 (Hd3 & Hst3 & Hex & Hch). split_and!; [done|by etrans|done|done].
Qed.
End Deletion.
