(* ===== verification/DeleteThm.v ===== *)
(** * Theorems on deletion and revocation

    The results of Deletion.v for the kernel's own [finaliseCap] and [suspend]
    (the instance of [Finaliser] in Finalise.v), stated without the interface,
    and a concrete state on which they are applied and the deletion computed. *)
From stdpp Require Import base list sets gmap.
From S2P Require Import Prelude Dll Structures CapOps CSpace VSpace Sched DomSched ReadyQueue Schedule Mdb MdbInv Messages Objects Delete Interrupt EpQueue MdbThm CapThm IpcThm SlotInv Finalise Deletion Concrete.
#[local] Open Scope Z_scope.

(** ** The kernel *)
Notation kernel_ok := (dinv (I := kernel_inv)).
Notation caps s := (cap_at (ksCTEs s)).



(** C10: Suspending a thread stops it whatever it was doing: running, ready,
    waiting on an endpoint or a notification, or waiting for a reply.  The
    thread ends inactive, out of the ready queues and in no wait queue, and the
    invariants hold.  If it waited for a reply, the reply capability made for
    it, the child of its master reply capability, is deleted, in whatever slot
    it is; the capability of every other slot is unchanged. *)
Theorem suspend_spec s cs thread t :
  kernel_ok s cs -> ksTCBs s !! thread = Some t ->
  wp (suspend thread) (fun _ s' =>
    (exists cs', kernel_ok s' cs') /\
    (exists t', ksTCBs s' !! thread = Some t' /\ tsType_of t' = ThreadState_Inactive /\ tcbQueued (tcbState t') = false /\
       forall o rq q, kinv s' rq q -> thread ∉ q o) /\
    (let callerCap := clink mdbNext (ksCTEs s) (TCB_PTR_CTE_PTR thread tcbReply) in
     if bool_decide (tsType_of t = ThreadState_BlockedOnReply) && negb (callerCap =? 0) then
       is_reply (caps s callerCap) = true /\
       forall x, caps s' x = if decide (x = callerCap) then cap_null_cap else caps s x
     else forall x, caps s' x = caps s x)) s.
Proof.
  intros [D1 D2 D3] Ht. eapply wp_mono; [by eapply wp_suspend|].
  intros [] s' [(HI & Hl & Hp & cs' & Hs') [(t' & Ht' & Hin & Hq) Hcaps]]. split_and!.
  - exists cs'. split; [done|done|]. eapply (caps_valid_evolve s s' D3). split; [done|by apply evolves_pruned].
  - exists t'. split_and!; [done|done|done|]. intros o rq q [_ Hw]. eapply unblocked_out; [exact Hw|exact Ht'|].
    unfold blocked_on. by rewrite Hin.
  - cbn zeta. destruct (reply_slot_cell s cs thread t D2 Ht) as (c & Hc & Hr).
    unfold caps_but, reply_dropped in Hcaps. rewrite (clink_Some _ _ _ c Hc) in *.
    destruct (bool_decide _); cbn [andb] in *; [|exact Hcaps].
    destruct (Z.eqb_spec (mdbNext (cteMDBNode c)) 0) as [|E]; cbn [negb andb] in *; [exact Hcaps|].
    split; [by apply Hr|]. intros x. rewrite Hcaps. by destruct (Z.eqb_spec x (mdbNext (cteMDBNode c))), (decide (x = mdbNext (cteMDBNode c))).
Qed.

(** ** A concrete deletion

    Slot [del_root] holds the only capability to a CNode of two slots, below
    an untyped block in [del_parent].  The CNode holds the only capabilities to
    an endpoint, on which thread A waits, and to thread B, which waits for a
    signal.  The interrupt slots and the slots of the threads are empty. *)
Definition del_parent : Z := 0x100000.
Definition del_root : Z := 0x100020.
Definition del_node : Z := 0x200000.
Definition del_null : gmap Z cte :=
  list_to_map ((fun x => (x, null_cte)) <$>
    (cte_offset 65536 <$> seqZ 0 (maxIRQ + 1)) ++
    ([idle_ptr; tcb_A; tcb_B] ≫= fun t => TCB_PTR_CTE_PTR t <$> seqZ 0 tcbCNodeEntries)).
Definition del_caps : list (Z * cap) :=
  [(del_parent, cap_untyped_cap 4 false 16 del_node); (del_root, cap_cnode_cap 1 0 0 del_node);
   (cte_offset del_node 0, cap_endpoint_cap 0 true true true true ep_ptr); (cte_offset del_node 1, cap_thread_cap tcb_B)].
Definition del_ctes : gmap Z cte :=
  <[del_parent := mk_cte (cap_untyped_cap 4 false 16 del_node) (mdb_node_new del_root true true 0)]>
    (<[del_root := mk_cte (cap_cnode_cap 1 0 0 del_node) (mdb_node_new 0 true true del_parent)]>
      (<[cte_offset del_node 0 := mk_cte (cap_endpoint_cap 0 true true true true ep_ptr) (mdb_node_new 0 true true 0)]>
        (<[cte_offset del_node 1 := mk_cte (cap_thread_cap tcb_B) (mdb_node_new 0 true true 0)]> del_null))).
Definition del_lists : list (list Z) := [[del_parent; del_root]; [cte_offset del_node 0]; [cte_offset del_node 1]].
Definition s_del : kstate := set_ksCTEs (fun _ => del_ctes) s_wait.

Ltac by_computation := apply (bool_decide_unpack _); vm_compute; exact I.

Lemma del_cap x : cap_at del_ctes x = cap_null_cap \/ (x, cap_at del_ctes x) ∈ del_caps.
Proof.
  assert (H : map_Forall (fun x c => cte_cap c = cap_null_cap \/ (x, cte_cap c) ∈ del_caps) del_ctes) by by_computation.
  unfold cap_at. destruct (del_ctes !! x) as [c|] eqn:Hx; [|by left]. exact (H x c Hx).
Qed.

#[local] Opaque del_ctes.

(** The capability of a slot, by cases. *)
Ltac del_cases x :=
  let H := fresh in destruct (del_cap x) as [H|H];
  [|unfold del_caps in H; rewrite !elem_of_cons, elem_of_nil in H;
    rewrite !pair_equal_spec in H; destruct H as [[-> H]|[[-> H]|[[-> H]|[[-> H]|[]]]]]]; rewrite H; clear H.

Lemma del_wf : mdb_wf del_ctes del_lists.
Proof.
  split.
  - reflexivity.
  - by_computation.
  - intros l Hl. unfold del_lists in Hl. rewrite !elem_of_cons, elem_of_nil in Hl.
    destruct Hl as [->|[->|[->|[]]]]; (split; [by_computation..|vm_compute; repeat split]).
  - assert (H : Forall (fun x => cap_at del_ctes x <> cap_null_cap) (concat del_lists)) by by_computation.
    intros x Hx. rewrite Forall_forall in H. destruct (cap_at_some _ _ (H x Hx)) as (c & Hc & E).
    exists c. split; [exact Hc|]. rewrite E. by apply H.
  - assert (H : map_Forall (fun x c => x ∈ concat del_lists \/ c = null_cte) del_ctes) by by_computation.
    intros x c Hx Hn. destruct (H x c Hx) as [Hin| ->]; [contradiction|].
    split_and!; reflexivity.
Qed.

Lemma del_grouped : grouped del_ctes del_lists.
Proof.
  split.
  - assert (H : Forall (fun l => Forall (fun l' => Forall (fun x => Forall (fun y =>
      same_object del_ctes x y = true -> l = l') l') l) del_lists) del_lists) by by_computation.
    rewrite Forall_forall in H. intros l l' x y Hl Hl' Hx Hy. specialize (H l Hl). rewrite Forall_forall in H.
    specialize (H l' Hl'). rewrite Forall_forall in H. specialize (H x Hx). rewrite Forall_forall in H. by apply H.
  - intros l1 x mid y l2 z Hl _ Hz. exfalso. destruct mid as [|w mid]; [set_solver|].
    unfold del_lists in Hl. rewrite !elem_of_cons, elem_of_nil in Hl.
    destruct Hl as [Hl|[Hl|[Hl|[]]]]; apply (f_equal length) in Hl; rewrite !length_app in Hl; cbn in Hl;
      rewrite ?length_app in Hl; cbn in Hl; lia.
Qed.

(** The addresses of the protected slots. *)
Lemma del_irq x : irq_slots s_del x -> x ∈ (cte_offset 65536 <$> seqZ 0 (maxIRQ + 1)).
Proof. intros (irq & Hi & ->). apply list_elem_of_fmap. exists irq. split; [done|]. apply elem_of_seqZ. lia. Qed.

Lemma del_reply x : reply_slots s_del x -> x ∈ ((fun t => TCB_PTR_CTE_PTR t tcbReply) <$> [idle_ptr; tcb_A; tcb_B]).
Proof.
  intros (t & [c Hc] & ->). assert (H : map_Forall (fun t _ => t ∈ [idle_ptr; tcb_A; tcb_B]) wait_tcbs) by by_computation.
  apply list_elem_of_fmap. exists t. split; [done|]. exact (H t c Hc).
Qed.

Lemma del_unprotected x :
  bool_decide (x ∉ (cte_offset 65536 <$> seqZ 0 (maxIRQ + 1)) /\
               x ∉ ((fun t => TCB_PTR_CTE_PTR t tcbReply) <$> [idle_ptr; tcb_A; tcb_B])) = true ->
  ~ irq_slots s_del x /\ ~ reply_slots s_del x.
Proof. intros [H1 H2]%bool_decide_eq_true. split; intros H; [by apply H1, del_irq|by apply H2, del_reply]. Qed.

Lemma del_apart (k1 k2 : Z * Z) :
  bool_decide (Forall (fun i => Forall (fun j => cte_offset k1.1 i <> cte_offset k2.1 j) (seqZ 0 k2.2)) (seqZ 0 k1.2)) = true ->
  apart k1 k2.
Proof.
  intros H%bool_decide_eq_true i j Hi Hj. rewrite Forall_forall in H.
  specialize (H i ltac:(apply elem_of_seqZ; lia)). rewrite Forall_forall in H. apply H, elem_of_seqZ. lia.
Qed.

(** The containers: the CNode and the slots of thread B. *)
Lemma del_container x k :
  container (cap_at del_ctes x) = Some k -> k = (del_node, 2) \/ k = (TCB_PTR_CTE_PTR tcb_B tcbCTable, tcbArchCNodeEntries).
Proof. del_cases x; intros [= <-]; [by left|by right]. Qed.

Lemma del_shapes : Forall (fun c => cap_shape c /\ is_zombie c = false) (cap_null_cap :: del_caps.*2).
Proof.
  assert (zombie_ok 2 1 del_node /\ zombie_ok tcbArchCNodeEntries ZombieType_ZombieTCB (TCB_PTR_CTE_PTR tcb_B tcbCTable))
    as [H1 H2] by (unfold zombie_ok, is_word; split; apply (bool_decide_unpack _); vm_compute; exact I).
  unfold del_caps. cbn [fmap list_fmap snd]. rewrite !Forall_cons, Forall_nil.
  split_and!; try reflexivity; try assumption; try exact I.
  split; [reflexivity|assumption].
Qed.

Lemma del_shape x : cap_shape (cap_at del_ctes x) /\ is_zombie (cap_at del_ctes x) = false.
Proof.
  pose proof del_shapes as H. rewrite Forall_forall in H. apply H. destruct (del_cap x) as [->|Hx]; [by left|].
  right. apply list_elem_of_fmap. exists (x, cap_at del_ctes x). split; [reflexivity|exact Hx].
Qed.

Lemma del_thread x t : cap_at del_ctes x = cap_thread_cap t -> t = tcb_B.
Proof. del_cases x; intros E; first [discriminate E|injection E as <-; reflexivity]. Qed.

Lemma del_containers : containers_ok (irq_slots s_del) (reply_slots s_del) del_ctes.
Proof.
  split.
  - intros x. apply del_shape.
  - assert (H : Forall (fun k => Forall (fun i => is_Some (del_ctes !! cte_offset k.1 i)) (seqZ 0 k.2))
      [(del_node, 2); (TCB_PTR_CTE_PTR tcb_B tcbCTable, tcbArchCNodeEntries)]) by by_computation.
    rewrite Forall_forall in H. intros x p n i Hc%del_container Hi. specialize (H (p, n)).
    rewrite Forall_forall in H. apply H; [|apply elem_of_seqZ; cbn; lia].
    rewrite !elem_of_cons. destruct Hc as [->| ->]; [by left|right; by left].
  - intros x p n [[= -> ->]|[= -> ->]]%del_container; apply del_unprotected; vm_compute; reflexivity.
  - intros x y k k' [-> | ->]%del_container [-> | ->]%del_container; [by left| | |by left]; right; apply del_apart; vm_compute; reflexivity.
  - intros x Hz. pose proof (proj2 (del_shape x)) as E. rewrite E in Hz. discriminate Hz.
  - intros x y t t'. intros ->%del_thread ->%del_thread _. reflexivity.
Qed.

Lemma del_slots : state_slots s_del (ksCTEs s_del) del_lists.
Proof.
  split.
  - exact del_wf.
  - exact del_grouped.
  - exact del_containers.
  - assert (H : Forall (fun x => is_Some (del_ctes !! x)) ((cte_offset 65536 <$> seqZ 0 (maxIRQ + 1)) ++
      ((fun t => TCB_PTR_CTE_PTR t tcbReply) <$> [idle_ptr; tcb_A; tcb_B]))) by by_computation.
    rewrite Forall_forall in H. intros x Hx. apply H, elem_of_app. destruct Hx; [left; by apply del_irq|right; by apply del_reply].
  - assert (H : Forall (fun x => exposable (cap_at del_ctes x) = true) (cte_offset 65536 <$> seqZ 0 (maxIRQ + 1))) by by_computation.
    rewrite Forall_forall in H. intros x Hx. by apply H, del_irq.
  - assert (H : Forall (fun x => x ∉ concat del_lists) ((fun t => TCB_PTR_CTE_PTR t tcbReply) <$> [idle_ptr; tcb_A; tcb_B])) by by_computation.
    rewrite Forall_forall in H. intros l x y Hl Hx Hxl _. destruct (H x (del_reply x Hx)). apply elem_of_concat. eauto.
Qed.

Lemma s_del_inv : kernel_inv s_del.
Proof.
  split.
  - exists (fun _ => []), q_wait. eapply kinv_fields; [..|exact s_wait_kinv]; try done; [apply s_wait_kinv|].
    split; [|done|done].
    assert (H : map_Forall (fun t _ => is_Some (del_ctes !! TCB_PTR_CTE_PTR t tcbVTable)) wait_tcbs) by by_computation.
    intros x [t Ht]. exact (H x t Ht).
  - by left.
  - assert (H : map_Forall (fun _ n => ntfnBoundTCB n = 0) (ksNTFNs s_wait)) by by_computation.
    intros a n Hn Hb. by destruct (Hb (H a n Hn)).
  - assert (H : map_Forall (fun _ t => tcbBoundNotification t = 0) wait_tcbs) by by_computation.
    intros x t Ht Hb. by destruct (Hb (H x t Ht)).
  - by split.
Qed.

Lemma s_del_ok : kernel_ok s_del del_lists.
Proof.
  split; [exact s_del_inv|exact del_slots|]. intros x. change (cap_valid s_del (cap_at del_ctes x)).
  del_cases x; cbn; first [exact I|by eexists].
Qed.

(** The deletion computes: the endpoint's waiter is woken, thread B is
    inactive, and the whole CNode is empty. *)
Definition observe (r : exception_t * kstate) :=
  (r.1, (fun x => cap_at (ksCTEs r.2) x) <$> del_lists ≫= id,
   tsType_of <$> ksTCBs r.2 !! tcb_A, tsType_of <$> ksTCBs r.2 !! tcb_B).

Example delete_cnode :
  observe <$> cteDelete 8 del_root true s_del =
  Some (EXCEPTION_NONE, [cap_untyped_cap 4 false 16 del_node; cap_null_cap; cap_null_cap; cap_null_cap],
    Some ThreadState_Restart, Some ThreadState_Inactive).
Proof. vm_compute. reflexivity. Qed.



Lemma suspend_spec_witness :
  kernel_ok s_del del_lists /\
  wp (suspend tcb_B) (fun _ s' =>
    exists t', ksTCBs s' !! tcb_B = Some t' /\ tsType_of t' = ThreadState_Inactive /\ tcbQueued (tcbState t') = false) s_del.
Proof.
  split; [exact s_del_ok|]. eapply wp_mono.
  - eapply (suspend_spec s_del del_lists tcb_B _ s_del_ok). vm_compute. reflexivity.
  - intros ex s' (_ & (t' & H1 & H2 & H3 & _) & _). by exists t'.
Defined.
