(* ===== verification/UntypedThm.v ===== *)
(** * Theorems on untyped memory

    Retyping carves new objects out of the free end of an untyped block:
    [createNewObjects] fills a clear window with zeroed objects and inserts
    their capabilities after the untyped, [resetUntypedCap] clears the block
    from the top down, in steps that can be preempted, and the decoder admits
    only windows that fit. *)
From S2P Require Import Prelude Dll Structures CapOps CSpace VSpace Sched DomSched ReadyQueue Schedule SchedOps Mdb MdbInv Messages Objects Delete Untyped UntypedOps CNodeInv MmuInv Concrete CSpaceThm MdbThm MsgThm VSpaceThm.
From stdpp Require Import base list sets gmap.
#[local] Open Scope Z_scope.

(** ** Lists of derived capabilities *)

(** [bs] inserted one after the other right after [a]. *)
Definition ins_many (a : Z) (bs l : list Z) : list Z :=
  l ≫= fun x => if decide (x = a) then a :: reverse bs else [x].

Lemma ins_app a b l1 l2 : ins a b (l1 ++ l2) = ins a b l1 ++ ins a b l2.
Proof. unfold ins. by rewrite bind_app. Qed.

Lemma ins_many_snoc a b bs l : a ∉ bs -> ins a b (ins_many a bs l) = ins_many a (bs ++ [b]) l.
Proof.
  intros Ha. unfold ins_many. induction l as [|x l IH]; [done|].
  rewrite !bind_cons, ins_app, IH. f_equal.
  case_decide as Hx; [|by apply ins_notin; set_solver].
  rewrite reverse_snoc. change (a :: reverse bs) with ([] ++ a :: reverse bs).
  rewrite ins_split; [done|set_solver|]. by rewrite elem_of_reverse.
Qed.

Lemma ins_many_nil a l : ins_many a [] l = l.
Proof.
  unfold ins_many. induction l as [|x l IH]; [done|].
  rewrite bind_cons, IH. by case_decide; subst.
Qed.

(** Replacing a capability by another one does not disturb the database. *)
Lemma mdb_wf_set_cap m cs p c v :
  mdb_wf m cs -> m !! p = Some c -> cte_cap c <> cap_null_cap -> v <> cap_null_cap ->
  mdb_wf (<[p := set_cte_cap (fun _ => v) c]> m) cs.
Proof.
  intros Hwf Hp Hc Hv. pose proof (mw_cell_nonnull _ _ Hwf _ _ Hp Hc) as Hin. destruct Hwf as [W1 W2 W3 W4 W5].
  assert (Hl : forall f x, clink f (<[p := set_cte_cap (fun _ => v) c]> m) x = clink f m x).
  { intros f x. unfold clink. destruct (decide (p = x)) as [<-|].
    - by rewrite lookup_insert_eq, Hp.
    - by rewrite lookup_insert_ne. }
  split; [|done| | |].
  - rewrite lookup_insert_ne; [done|]. intros ->. congruence.
  - intros l Hl'. eapply dlist_ext; [|by apply W3]. intros x _. by rewrite !Hl.
  - intros x Hx. destruct (decide (p = x)) as [<-|]; [rewrite lookup_insert_eq; by eexists|].
    rewrite lookup_insert_ne by done. by apply W4.
  - intros x d Hx Hn. rewrite lookup_insert_ne in Hx by congruence. by apply (W5 x d).
Qed.

Lemma seqZ_snoc i : 0 <= i -> seqZ 0 (i + 1) = seqZ 0 i ++ [i].
Proof. intros. rewrite seqZ_app by lia. f_equal. Qed.

(** ** What a new capability covers *)
Lemma new_cap_not_null t us dev addr : new_cap t us dev addr <> cap_null_cap.
Proof. unfold new_cap. by repeat case_match. Qed.

Lemma new_cap_region t us dev addr o :
  valid_object t us -> getObjectSize t us = Some o -> 0 < addr -> addr + 2 ^ o < word_modulus -> addr mod 2 ^ o = 0 ->
  cap_get_capIsPhysical (new_cap t us dev addr) = true /\
  Regions.base (new_cap t us dev addr) = addr /\ cap_get_capSizeBits (new_cap t us dev addr) = o.
Proof.
  intros Hv Ho H0 Hm Ha. pose proof (object_types _ _ Hv) as Ht.
  repeat destruct Ht as [Ht|Ht]; subst t; try (injection Ho as <-; done).
  - injection Ho as <-. change (2 ^ seL4_TCBBits) with 2048 in *. split_and!; [done| |done].
    change (Regions.base (new_cap 1 us dev addr)) with (TCB_PTR_CTE_PTR (addr + 1024) 0).
    unfold TCB_PTR_CTE_PTR. rewrite land_wnot_MASK by (done || unfold is_word; lia).
    change (2 ^ seL4_TCBBits) with 2048. rewrite <- Zplus_mod_idemp_l, Ha. change ((0 + 1024) mod 2048) with 1024.
    rewrite cte_offset_val by lia. lia.
  - split_and!; [done|done|]. injection Ho as <-. unfold cap_get_capSizeBits, new_cap. cbn -[wadd].
    unfold wadd. by rewrite Z.add_comm.
Qed.

(** ** Creating the objects *)
Lemma object_at_ext s s' t us o addr :
  valid_object t us -> getObjectSize t us = Some o -> 0 < addr -> addr + 2 ^ o < word_modulus ->
  (forall a, addr <= a < addr + 2 ^ o -> slot_data s' a = slot_data s a) ->
  (forall a, addr <= a < addr + 2 ^ o -> ksTCBs s' !! a = ksTCBs s !! a /\ ksEPs s' !! a = ksEPs s !! a /\
     ksNTFNs s' !! a = ksNTFNs s !! a /\ ksPTEs s' !! a = ksPTEs s !! a) ->
  ksCurDomain s' = ksCurDomain s ->
  object_at s t us addr -> object_at s' t us addr.
Proof.
  intros Hv Ho H0 Hm Hd Hh Hc [O1 O2 O3 O4 O5]. split.
  - intros i Hi. destruct (new_slot_val t us o addr Hv Ho H0 Hm i Hi) as [_ Hr].
    rewrite <- (O1 i Hi). by apply Hd.
  - intros ->. rewrite Hc. injection Ho as <-. destruct (Hh (addr + 2 ^ TCB_SIZE_BITS)) as (-> & _); [|by apply O2].
    change (2 ^ TCB_SIZE_BITS) with 1024. change (2 ^ seL4_TCBBits) with 2048. lia.
  - intros ->. injection Ho as <-. destruct (Hh addr) as (_ & -> & _); [change (2 ^ seL4_EndpointBits) with 16; lia|by apply O3].
  - intros ->. injection Ho as <-. destruct (Hh addr) as (_ & _ & -> & _); [change (2 ^ seL4_NotificationBits) with 32; lia|by apply O4].
  - intros Ht i Hi. rewrite <- (O5 Ht i Hi). apply Hh.
    assert (o = 12) as -> by (by destruct Ht as [-> | ->]; injection Ho as <-).
    rewrite pte_offset_val by (unfold is_word; lia). lia.
Qed.

Section Create.
Context (z : bool) (s : kstate) (cs : list (list Z)) (parent : Z) (pc : cte) (t us o base n : Z) (dev : bool) (dest : Z -> Z).
Notation obj j := (base + j * 2 ^ o).
Notation dests i := (dest <$> seqZ 0 i).

Hypothesis Hv : valid_object t us.
Hypothesis Ho : getObjectSize t us = Some o.
Hypothesis Ho0 : 0 <= o.
Hypothesis Hbase : 0 < base.
Hypothesis Htop : obj n < word_modulus.
Hypothesis Hclear : clear z s base (obj n).
Hypothesis Hwf : mdb_wf (ksCTEs s) cs.
Hypothesis Hparent : ksCTEs s !! parent = Some pc.
Hypothesis Hpc : cte_cap pc <> cap_null_cap.
Hypothesis Hdest : forall j, 0 <= j < n -> exists c, ksCTEs s !! dest j = Some c /\ cte_cap c = cap_null_cap.
Hypothesis Hinj : forall i j, 0 <= i < n -> 0 <= j < n -> dest i = dest j -> i = j.

(** The first [i] objects and capabilities are in place. *)
Record created_upto (i : Z) (s' : kstate) : Prop := {
  cu_mdb : mdb_wf (ksCTEs s') (ins_many parent (dests i) <$> cs);
  cu_grown : grown s s' base (obj i);
  cu_data : forall x, ~ (base <= x < obj i) -> (forall j, 0 <= j < i -> x <> dest j) -> slot_data s' x = slot_data s x;
  cu_caps : forall j, 0 <= j < i -> slot_data s' (dest j) = Some (new_cap t us dev (obj j), true, true);
  cu_objs : forall j, 0 <= j < i -> object_at s' t us (obj j)
}.

Lemma obj_mono i j : i <= j -> obj i <= obj j.
Proof. pose proof (pow2_pos o Ho0). nia. Qed.
Lemma obj_succ i : obj (i + 1) = obj i + 2 ^ o.
Proof. lia. Qed.

(** A slot that exists is outside the window. *)
Lemma slot_outside x : is_Some (ksCTEs s !! x) -> ~ (base <= x < obj n).
Proof. intros [c Hc] Hx. by rewrite (cl_ctes _ _ _ _ Hclear) in Hc. Qed.

Lemma dest_outside j : 0 <= j < n -> ~ (base <= dest j < obj n).
Proof. intros Hj. apply slot_outside. destruct (Hdest j Hj) as (c & -> & _). eauto. Qed.

Lemma parent_not_dest j : 0 <= j < n -> parent <> dest j.
Proof. intros Hj He. destruct (Hdest j Hj) as (c & Hc & ?). congruence. Qed.

Lemma created_start : created_upto 0 s.
Proof.
  split; try (intros; lia); [|apply grown_refl|done].
  change (dests 0) with (@nil Z). replace (ins_many parent [] <$> cs) with cs; [done|].
  rewrite <- (list_fmap_id cs) at 1. apply list_fmap_ext. intros. by rewrite ins_many_nil.
Qed.

Lemma created_clear i s' : 0 <= i < n -> created_upto i s' -> clear z s' (obj i) (obj n).
Proof.
  intros Hi [_ G D _ _]. pose proof (obj_mono 0 i). pose proof (obj_mono i n).
  split; [intros a Ha..|intros Hz a Ha].
  - assert (Hd : slot_data s' a = slot_data s a).
    { apply D; [lia|]. intros j Hj ->. apply (dest_outside j); lia. }
    unfold slot_data in Hd. rewrite (cl_ctes _ _ _ _ Hclear a) in Hd by lia. by destruct (ksCTEs s' !! a).
  - rewrite (gr_tcbs _ _ _ _ G) by lia. apply Hclear. lia.
  - rewrite (gr_eps _ _ _ _ G) by lia. apply Hclear. lia.
  - rewrite (gr_ntfns _ _ _ _ G) by lia. apply Hclear. lia.
  - rewrite (gr_ptes _ _ _ _ G) by lia. apply Hclear. lia.
  - rewrite (grown_field ksASIDPools _ _ _ _ ltac:(done) G). apply Hclear. lia.
  - rewrite (grown_field ksMem _ _ _ _ ltac:(done) G). apply Hclear; [done|lia].
Qed.

(** One object: what it is given and what it leaves. *)
Lemma created_next i s1 s2 m :
  0 <= i < n -> created_upto i s1 -> created s1 t us o (obj i) s2 ->
  mdb_wf m (ins parent (dest i) <$> (ins_many parent (dests i) <$> cs)) ->
  (forall x, x <> dest i -> cte_data <$> m !! x = cte_data <$> ksCTEs s2 !! x) ->
  cte_data <$> m !! dest i = Some (new_cap t us dev (obj i), true, true) ->
  created_upto (i + 1) (set_ksCTEs (fun _ => m) s2).
Proof.
  intros Hi Hu (Hc & Hg & Hobj) Hwf' Hm Hmd. pose proof (obj_mono 0 i ltac:(lia)).
  pose proof (obj_mono (i + 1) n ltac:(lia)). pose proof (pow2_pos o Ho0).
  assert (Hdat : forall x, x <> dest i -> ~ (obj i <= x < obj i + 2 ^ o) -> cte_data <$> m !! x = slot_data s1 x).
  { intros x Hx Hr. rewrite Hm, Hc, new_slots_outside with (o := o) by (done || lia). done. }
  assert (Hd : forall j, 0 <= j < n -> ~ (base <= dest j < obj n)) by apply dest_outside.
  split; unfold slot_data; st_simpl.
  - rewrite seqZ_snoc, fmap_app by lia. cbn [fmap list_fmap].
    replace (ins_many parent (dests i ++ [dest i]) <$> cs) with (ins parent (dest i) <$> (ins_many parent (dests i) <$> cs)); [done|].
    rewrite <- list_fmap_compose. apply list_fmap_ext. intros k l _. apply ins_many_snoc.
    intros (j & Hj & ?%elem_of_seqZ)%list_elem_of_fmap. apply (parent_not_dest j); [lia|done].
  - apply grown_ctes. rewrite obj_succ. eapply grown_trans; [|apply Hu|exact Hg]. lia.
  - intros x Hx Hn. rewrite obj_succ in Hx. rewrite Hdat by (lia || apply Hn; lia).
    apply (cu_data _ _ Hu); [lia|]. intros j Hj. apply Hn. lia.
  - intros j Hj. destruct (decide (j = i)) as [->|]; [done|].
    pose proof (Hd j ltac:(lia)). rewrite Hdat; [apply (cu_caps _ _ Hu); lia| |lia].
    intros He. apply Hinj in He; lia.
  - intros j Hj. pose proof (Hd i Hi) as Hdi. destruct (decide (j = i)) as [->|].
    + apply (object_at_ext s2 _ _ _ o); try done; try lia. intros a Ha. unfold slot_data. st_simpl. apply Hm. lia.
    + pose proof (obj_mono 0 j ltac:(lia)). pose proof (obj_mono (j + 1) i ltac:(lia)).
      apply (object_at_ext s1 _ _ _ o); try done; try lia; [..|apply (cu_objs _ _ Hu); lia].
      * intros a Ha. unfold slot_data. st_simpl. apply Hdat; lia.
      * intros a Ha. st_simpl. rewrite (gr_tcbs _ _ _ _ Hg), (gr_eps _ _ _ _ Hg), (gr_ntfns _ _ _ _ Hg), (gr_ptes _ _ _ _ Hg) by lia. done.
      * st_simpl. by apply (grown_field ksCurDomain _ _ _ _ ltac:(done) Hg).
Qed.

Lemma created_step i s1 : 0 <= i < n -> created_upto i s1 ->
  wp (modify (untype_region (obj i) o) ;;;
      let* c := createObject t (obj i) us dev in insertNewCap parent (dest i) c)
    (fun _ => created_upto (i + 1)) s1.
Proof.
  intros Hi Hu. pose proof (obj_mono 0 i ltac:(lia)). pose proof (obj_mono (i + 1) n ltac:(lia)).
  pose proof (created_clear i s1 Hi Hu) as Hcl. pose proof (dest_outside i Hi) as Hdi.
  assert (Hpo : ~ (base <= parent < obj n)) by (apply slot_outside; eauto).
  do 2 wp_struct. rewrite (untype_region_clear z) by (eapply clear_sub; [exact Hcl|lia..]).
  wp_struct. apply (wp_createObject s1 t us o); [done|done|lia|lia|]. intros s2 Hc2.
  pose proof Hc2 as (Hc & _ & _).
  assert (Hdat : forall x, ~ (base <= x < obj n) -> (forall j, 0 <= j < i -> x <> dest j) ->
    slot_data s2 x = slot_data s x).
  { intros x Hx Hn. unfold slot_data at 1. rewrite Hc, new_slots_outside with (o := o) by (done || lia).
    apply (cu_data _ _ Hu); [lia|done]. }
  assert (Hwf2 : mdb_wf (ksCTEs s2) (ins_many parent (dests i) <$> cs)).
  { rewrite Hc. apply new_slots_wf with (o := o); try done; try lia; [apply Hu|].
    intros a Ha. apply (cl_ctes _ _ _ _ Hcl). lia. }
  pose proof (Hdat parent Hpo ltac:(intros; apply parent_not_dest; lia)) as Hp2.
  destruct (Hdest i Hi) as (cd & Hcd & Hnull).
  pose proof (Hdat (dest i) Hdi ltac:(intros j Hj He; apply Hinj in He; lia)) as Hd2.
  unfold slot_data in Hp2, Hd2. rewrite Hparent in Hp2. rewrite Hcd in Hd2.
  destruct (ksCTEs s2 !! parent) as [p2|] eqn:Ep; [|done]. destruct (ksCTEs s2 !! dest i) as [d2|] eqn:Ed; [|done].
  injection Hp2 as Hp2 _ _. injection Hd2 as Hd2 _ _.
  eapply wp_insertNewCap_wf; [exact Hwf2|exact Ep|exact Ed|congruence|congruence|apply new_cap_not_null|].
  intros m Hm1 Hm2 Hm3. by eapply created_next.
Qed.

Lemma wp_createNewObjects destCNode off :
  1 <= n -> (forall j, 0 <= j < n -> dest j = cte_offset destCNode (wadd off j)) ->
  wp (createNewObjects t parent destCNode off n base us dev) (fun _ => created_upto n) s.
Proof.
  intros Hn Hde. unfold createNewObjects. wp_struct. eapply wp_from_option; [exact Ho|].
  apply wp_for with (I := created_upto); [lia|apply created_start| |done].
  intros i s1 Hi Hu. rewrite <- Hde by done.
  assert (Hobj : wadd base (wshl i o) = obj i).
  { pose proof (obj_mono i n ltac:(lia)). pose proof (pow2_pos o Ho0).
    unfold wshl. rewrite Z.shiftl_mul_pow2 by done. rewrite (wrap_small (i * 2 ^ o)) by (unfold is_word; nia).
    apply wadd_small. unfold is_word. nia. }
  rewrite Hobj. by apply created_step.
Qed.
End Create.

(** ** Resetting the block *)
Section Reset.
Context (s0 : kstate) (slot : Z) (c0 : cte) (dev : bool) (bits ptr : Z).

(** States of the reset: [s0] with another free index, user memory, work
    counter and hardware. *)
Definition reset_state (fi : Z) (mem : gmap Z Z) (tr : list machine_op) (work : Z) (pending : list bool) : kstate :=
  set_ksCTEs (fun _ => <[slot := set_cte_cap (fun _ => cap_untyped_cap fi dev bits ptr) c0]> (ksCTEs s0))
    (set_ksMem (fun _ => mem) (set_ksMachine (fun _ => tr)
      (set_ksWorkUnitsCompleted (fun _ => work) (set_ksIRQPending (fun _ => pending) s0)))).

Lemma wp_reset_setCap fi fi' mem tr w p Q :
  Q tt (reset_state fi' mem tr w p) ->
  wp (setCap slot (cap_untyped_cap fi' dev bits ptr)) Q (reset_state fi mem tr w p).
Proof.
  intros HQ. unfold setCap. eapply wp_modCTE; [apply lookup_insert_eq|]. eapply eq_ind; [exact HQ|].
  unfold reset_state. destruct s0. unfold set_ksCTEs. cbn. by rewrite insert_insert_eq.
Qed.

Lemma wp_reset_clearMemory fi mem tr w p a b Q :
  Q tt (reset_state fi (outside a b mem) (op_clearMemory a b :: tr) w p) ->
  wp (clearMemory a b) Q (reset_state fi mem tr w p).
Proof. intros HQ. exact HQ. Qed.

Lemma wp_reset_preemptionPoint fi mem tr w p Q :
  (forall w' p', Q EXCEPTION_NONE (reset_state fi mem tr w' p')) ->
  (forall w' p', Q EXCEPTION_PREEMPTED (reset_state fi mem tr w' p')) ->
  wp preemptionPoint Q (reset_state fi mem tr w p).
Proof.
  intros H1 H2. unfold preemptionPoint, isIRQPending. do 4 wp_struct.
  case_match; repeat wp_struct; [|apply (H1 _ p)]. case_match; [apply (H2 _ _)|apply (H1 _ _)].
Qed.

(** Memory cleared from [lo] to the top of the block, and kept outside it. *)
Definition mem_zero (mem : gmap Z Z) (lo : Z) : Prop :=
  (forall a, lo <= a < ptr + 2 ^ bits -> mem !! a = None) /\
  (forall a, ~ (ptr <= a < ptr + 2 ^ bits) -> mem !! a = ksMem s0 !! a).

(** Either done, with a free index of zero, or preempted, at an index below
    the [chunks] cleared so far. *)
Definition reset_post (limit : Z) (ex : exception_t) (s' : kstate) : Prop :=
  exists fi mem tr w p, s' = reset_state fi mem tr w p /\ mem_zero mem (free_ref fi ptr) /\
    (ex = EXCEPTION_NONE /\ fi = 0 \/ ex = EXCEPTION_PREEMPTED /\ 0 <= fi < limit).

Hypothesis Hptr : 0 < ptr.
Hypothesis Htop : ptr + 2 ^ bits < word_modulus.

Lemma mem_zero_clear mem a b : ptr <= a -> a + 2 ^ b <= ptr + 2 ^ bits ->
  mem_zero mem (a + 2 ^ b) -> mem_zero (outside a b mem) a.
Proof.
  intros Ha Hb [Hm Ho]. split; intros x Hx; unfold outside.
  - apply map_lookup_filter_None. destruct (in_region a b x) eqn:Hr.
    + right. intros v _. cbn. by rewrite Hr.
    + left. apply Hm. unfold in_region in Hr. lia.
  - rewrite <- Ho by done. destruct (mem !! x) as [v|] eqn:Hv.
    + apply map_lookup_filter_Some. split; [done|]. cbn. unfold in_region. lia.
    + apply map_lookup_filter_None. by left.
Qed.

(** One turn of the loop, at offset [off]. *)
Lemma wp_reset_turn fuel fi0 off fi mem tr w p :
  0 <= off -> off mod 16 = 0 -> off + 256 <= 2 ^ bits -> mem_zero mem (ptr + off + 256) ->
  (forall mem tr w p, mem_zero mem (ptr + off) ->
    wp (resetUntypedCap_loop fuel (wsub off (BIT 8)) slot (cap_untyped_cap fi0 dev bits ptr) ptr 8)
      (reset_post (off / 16 + 1)) (reset_state (off / 16) mem tr w p)) ->
  wp (resetUntypedCap_loop (S fuel) off slot (cap_untyped_cap fi0 dev bits ptr) ptr 8)
    (reset_post (off / 16 + 1)) (reset_state fi mem tr w p).
Proof.
  intros H0 H16 Hb Hm Hnext. cbn [resetUntypedCap_loop].
  change (wrap (- BIT 8)) with (2 ^ 64 - 256). unfold word_modulus in Htop.
  destruct (Z.eqb_spec off (2 ^ 64 - 256)); [lia|].
  unfold GET_OFFSET_FREE_PTR. rewrite wadd_small by (unfold is_word, word_modulus; lia).
  wp_struct. apply wp_reset_clearMemory. wp_struct. cbn [cap_untyped_cap_set_capFreeIndex].
  unfold OFFSET_TO_FREE_INDEX. rewrite Z.shiftr_div_pow2 by done. change (2 ^ seL4_MinUntypedBits) with 16.
  apply wp_reset_setCap. wp_struct.
  assert (Hm' : mem_zero (outside (ptr + off) 8 mem) (ptr + off)).
  { apply mem_zero_clear; [lia|change (2 ^ 8) with 256; lia|done]. }
  apply wp_reset_preemptionPoint; intros w' p'; [by apply Hnext|].
  apply wp_ret. exists (off / 16). do 4 eexists. split; [reflexivity|]. split.
  - unfold free_ref. change (2 ^ seL4_MinUntypedBits) with 16.
    replace (off / 16 * 16) with off; [done|]. pose proof (Z.div_mod off 16). lia.
  - right. split; [done|]. pose proof (Z.div_pos off 16). lia.
Qed.

Lemma reset_post_mono l l' ex s' : l <= l' -> reset_post l ex s' -> reset_post l' ex s'.
Proof.
  intros Hl (fi & mem & tr & w & p & ? & ? & H). exists fi, mem, tr, w, p. split_and!; [done|done|].
  destruct H as [?|[? ?]]; [by left|right; split; [done|lia]].
Qed.

Lemma wp_resetUntypedCap_loop fi0 k : forall fuel fi mem tr w p,
  (k + 2 <= fuel)%nat -> Z.of_nat (S k) * 256 <= 2 ^ bits -> mem_zero mem (ptr + Z.of_nat (S k) * 256) ->
  wp (resetUntypedCap_loop fuel (Z.of_nat k * 256) slot (cap_untyped_cap fi0 dev bits ptr) ptr 8)
    (reset_post (Z.of_nat k * 16 + 1)) (reset_state fi mem tr w p).
Proof.
  assert (Hdiv : forall k, Z.of_nat k * 256 / 16 = Z.of_nat k * 16).
  { intros j. replace (Z.of_nat j * 256) with (Z.of_nat j * 16 * 16) by lia. by rewrite Z.div_mul. }
  assert (Hmod : forall k, (Z.of_nat k * 256) mod 16 = 0).
  { intros j. replace (Z.of_nat j * 256) with (Z.of_nat j * 16 * 16) by lia. apply Z_mod_mult. }
  induction k as [|k IH]; intros fuel fi mem tr w p Hf Hk Hm; (destruct fuel as [|fuel]; [lia|]).
  - apply (wp_reset_turn fuel fi0 0); [done|done|lia|by replace (ptr + 0 + 256) with (ptr + Z.of_nat 1 * 256) by lia|].
    clear mem tr w p Hm. intros mem tr w p Hm. destruct fuel as [|fuel]; [lia|]. cbn [resetUntypedCap_loop].
    change (wsub 0 (BIT 8) =? wrap (- BIT 8)) with true. cbv iota. wp_struct.
    exists 0. do 4 eexists. split; [reflexivity|]. split; [|by left].
    unfold free_ref. by rewrite Z.mul_0_l.
  - rewrite <- (Hdiv (S k)). apply wp_reset_turn; [lia|apply Hmod|lia|by replace (_ + 256) with (ptr + Z.of_nat (S (S k)) * 256) by lia|].
    clear mem tr w p Hm. intros mem tr w p Hm. rewrite Hdiv.
    replace (wsub _ _) with (Z.of_nat k * 256).
    + eapply wp_mono; [apply IH; [lia|lia|done]|]. intros ex s'. apply reset_post_mono. lia.
    + change (BIT 8) with 256. rewrite wsub_small; [lia|]. unfold is_word, word_modulus in *. lia.
Qed.
End Reset.

(** An untyped block whose free part is clear. *)
Record untyped_ok (s : kstate) (slot fi : Z) (dev : bool) (bits ptr : Z) : Prop := {
  uo_slot : exists c, ksCTEs s !! slot = Some c /\ cte_cap c = cap_untyped_cap fi dev bits ptr /\
    mdbRevocable (cteMDBNode c) = true;
  uo_wf : untyped_wf fi bits ptr;
  uo_clear : clear (negb dev) s (free_ref fi ptr) (ptr + 2 ^ bits)
}.

(** No capability is stored in the block. *)
Definition block_unused (s : kstate) (bits ptr : Z) : Prop :=
  forall a c, ptr <= a < ptr + 2 ^ bits -> ksCTEs s !! a = Some c -> cte_cap c = cap_null_cap.

Definition reset_hide (s : kstate) : kstate :=
  retype_hide (set_ksASIDPools (fun _ => ∅) (set_ksMem (fun _ => ∅)
    (set_ksWorkUnitsCompleted (fun _ => 0) (set_ksIRQPending (fun _ => []) s)))).

(** [s'] differs from [s] in the memory and the objects of [lo, hi), in the
    slots [P], the work counter and the hardware only. *)
Record only_in (s s' : kstate) (P : Z -> Prop) (lo hi : Z) : Prop := {
  oi_slots : forall a, ~ (lo <= a < hi) -> ~ P a -> slot_data s' a = slot_data s a;
  oi_tcbs : forall a, ~ (lo <= a < hi) -> ksTCBs s' !! a = ksTCBs s !! a;
  oi_eps : forall a, ~ (lo <= a < hi) -> ksEPs s' !! a = ksEPs s !! a;
  oi_ntfns : forall a, ~ (lo <= a < hi) -> ksNTFNs s' !! a = ksNTFNs s !! a;
  oi_ptes : forall a, ~ (lo <= a < hi) -> ksPTEs s' !! a = ksPTEs s !! a;
  oi_pools : forall a, ~ (lo <= a < hi) -> ksASIDPools s' !! a = ksASIDPools s !! a;
  oi_mem : forall a, ~ (lo <= a < hi) -> ksMem s' !! a = ksMem s !! a;
  oi_rest : reset_hide s' = reset_hide s
}.

Lemma only_in_refl s P lo hi : only_in s s P lo hi.
Proof. by split. Qed.

Lemma only_in_trans s s1 s2 (P P1 P2 : Z -> Prop) lo hi lo' hi' :
  (forall a, P1 a -> P a) -> (forall a, P2 a -> P a) -> lo <= lo' -> hi' <= hi ->
  only_in s s1 P1 lo hi -> only_in s1 s2 P2 lo' hi' -> only_in s s2 P lo hi.
Proof.
  intros H1 H2 Hlo Hhi [A1 A2 A3 A4 A5 A6 A7 A8] [B1 B2 B3 B4 B5 B6 B7 B8].
  split; [intros a Ha HP; rewrite B1, A1 by (naive_solver lia); done|..|congruence];
    intros a Ha; rewrite ?B2, ?B3, ?B4, ?B5, ?B6, ?B7 by lia; auto.
Qed.

Lemma outside_out {A} base bits (m : gmap Z A) a : ~ (base <= a < base + 2 ^ bits) -> outside base bits m !! a = m !! a.
Proof.
  intros Ha. unfold outside. destruct (m !! a) as [v|] eqn:Hv.
  - apply map_lookup_filter_Some. split; [done|]. cbn. unfold in_region. lia.
  - apply map_lookup_filter_None. by left.
Qed.

Lemma outside_in {A} base bits (m : gmap Z A) a : base <= a < base + 2 ^ bits -> outside base bits m !! a = None.
Proof. intros Ha. apply map_lookup_filter_None. right. intros v _. cbn. unfold in_region. lia. Qed.

Lemma mdb_wf_outside m cs base bits :
  mdb_wf m cs -> (forall a c, base <= a < base + 2 ^ bits -> m !! a = Some c -> cte_cap c = cap_null_cap) ->
  mdb_wf (outside base bits m) cs.
Proof.
  intros Hwf Hd. pose proof Hwf as [W1 W2 W3 W4 W5].
  assert (Hin : forall x, x ∈ concat cs -> ~ (base <= x < base + 2 ^ bits)).
  { intros x Hx Hr. destruct (W4 x Hx) as (c & Hc & Hn). by apply Hn, (Hd x). }
  split; [|done| | |].
  - apply map_lookup_filter_None. by left.
  - intros l Hl. eapply dlist_ext; [|by apply W3]. intros x Hx. unfold clink.
    rewrite outside_out; [done|]. apply Hin, elem_of_concat. eauto.
  - intros x Hx. rewrite outside_out by auto. by apply W4.
  - intros x c Hx. apply map_lookup_filter_Some in Hx as [Hx _]. by apply W5.
Qed.

Section ResetCap.
Context (s : kstate) (cs : list (list Z)) (slot fi : Z) (dev : bool) (bits ptr : Z).
Hypothesis Hwf : mdb_wf (ksCTEs s) cs.
Hypothesis Hok : untyped_ok s slot fi dev bits ptr.
Hypothesis Hdead : block_unused s bits ptr.
Notation s0 := (untype_region ptr bits s).

Lemma slot_out c : ksCTEs s !! slot = Some c -> cte_cap c = cap_untyped_cap fi dev bits ptr ->
  ~ (ptr <= slot < ptr + 2 ^ bits).
Proof. intros Hc Hcap Hr. by rewrite (Hdead slot c Hr Hc) in Hcap. Qed.

Definition reset_result (fi' : Z) (s' : kstate) : Prop :=
  only_in s s' (eq slot) ptr (ptr + 2 ^ bits) /\ mdb_wf (ksCTEs s') cs /\ untyped_ok s' slot fi' dev bits ptr.

Lemma reset_state_result c fi' mem tr w p :
  ksCTEs s !! slot = Some c -> cte_cap c = cap_untyped_cap fi dev bits ptr -> mdbRevocable (cteMDBNode c) = true ->
  0 <= fi' <= fi -> (dev = false -> forall a, free_ref fi' ptr <= a < ptr + 2 ^ bits -> mem !! a = None) ->
  (forall a, ~ (ptr <= a < ptr + 2 ^ bits) -> mem !! a = ksMem s !! a) ->
  reset_result fi' (reset_state s0 slot c dev bits ptr fi' mem tr w p).
Proof.
  intros Hc Hcap Hrev Hfi Hz Ho. pose proof (slot_out c Hc Hcap) as Hsl.
  assert (Hw : untyped_wf fi' bits ptr).
  { destruct (uo_wf _ _ _ _ _ _ Hok) as [? ? ? [? ?]]. split; [done..|]. unfold seL4_MinUntypedBits in *. lia. }
  assert (Hf : ptr <= free_ref fi' ptr) by (unfold free_ref, seL4_MinUntypedBits; lia).
  split; [|split].
  - split.
    + intros a Ha Hn. change (cte_data <$> <[slot := set_cte_cap (fun _ => cap_untyped_cap fi' dev bits ptr) c]>
        (outside ptr bits (ksCTEs s)) !! a = slot_data s a).
      rewrite lookup_insert_ne, outside_out by done. done.
    + exact (outside_out ptr bits (ksTCBs s)).
    + exact (outside_out ptr bits (ksEPs s)).
    + exact (outside_out ptr bits (ksNTFNs s)).
    + exact (outside_out ptr bits (ksPTEs s)).
    + exact (outside_out ptr bits (ksASIDPools s)).
    + exact Ho.
    + reflexivity.
  - change (ksCTEs (reset_state s0 slot c dev bits ptr fi' mem tr w p)) with
      (<[slot := set_cte_cap (fun _ => cap_untyped_cap fi' dev bits ptr) c]> (outside ptr bits (ksCTEs s))).
    apply mdb_wf_set_cap; [by apply mdb_wf_outside|by rewrite outside_out|by rewrite Hcap|done].
  - split; [|done|].
    + eexists. split; [apply lookup_insert_eq|]. by destruct c.
    + assert (Hin : forall a, free_ref fi' ptr <= a < ptr + 2 ^ bits -> ptr <= a < ptr + 2 ^ bits) by lia.
      split; [intros a Ha%Hin..|].
      * transitivity (outside ptr bits (ksCTEs s) !! a); [apply lookup_insert_ne; congruence|by apply outside_in].
      * exact (outside_in ptr bits (ksTCBs s) a Ha).
      * exact (outside_in ptr bits (ksEPs s) a Ha).
      * exact (outside_in ptr bits (ksNTFNs s) a Ha).
      * exact (outside_in ptr bits (ksPTEs s) a Ha).
      * exact (outside_in ptr bits (ksASIDPools s) a Ha).
      * intros Hd. by apply Hz, negb_true_iff.
Qed.

Definition reset_outcome (ex : exception_t) (s' : kstate) : Prop :=
  ex = EXCEPTION_NONE /\ reset_result 0 s' \/
  ex = EXCEPTION_PREEMPTED /\ exists fi', 0 <= fi' < fi /\ reset_result fi' s'.

Lemma reset_outcome_post c limit ex s' :
  ksCTEs s !! slot = Some c -> cte_cap c = cap_untyped_cap fi dev bits ptr -> mdbRevocable (cteMDBNode c) = true ->
  limit <= fi -> reset_post s0 slot c dev bits ptr limit ex s' -> reset_outcome ex s'.
Proof.
  intros Hc Hcap Hrev Hl (fi' & mem & tr & w & p & -> & [Hz Ho] & H).
  pose proof (uw_free _ _ _ (uo_wf _ _ _ _ _ _ Hok)).
  assert (Hr : 0 <= fi' <= fi) by (destruct H as [[_ ->]|[_ ?]]; lia).
  assert (Hres : reset_result fi' (reset_state s0 slot c dev bits ptr fi' mem tr w p)) by (by apply reset_state_result).
  destruct H as [[-> ->]|[-> ?]]; [by left|right; split; [done|]]. exists fi'. split; [lia|done].
Qed.

Lemma wp_resetUntypedCap : wp (resetUntypedCap slot) reset_outcome s.
Proof.
  destruct (uo_slot _ _ _ _ _ _ Hok) as (c & Hc & Hcap & Hrev). pose proof (uo_wf _ _ _ _ _ _ Hok) as Huw.
  pose proof Huw as [Hb [Hp Ht] _ [Hf0 Hf]]. unfold seL4_MinUntypedBits, seL4_MaxUntypedBits in Hb.
  unfold resetUntypedCap, slot_cap. wp_struct. wp_struct. eapply wp_getCTE; [exact Hc|]. wp_struct. rewrite Hcap.
  rewrite (FREE_INDEX_TO_OFFSET_val _ _ _ Huw). change (2 ^ seL4_MinUntypedBits) with 16 in *.
  destruct (Z.eqb_spec (fi * 16) 0) as [Hz|Hz]; [wp_struct; left; split; [done|]|].
  { assert (fi = 0) as Hfi by lia. rewrite <- Hfi. by split; [split|split]. }
  do 2 wp_struct.
  assert (Hs0 : s0 = reset_state s0 slot c dev bits ptr fi (ksMem s) (ksMachine s) (ksWorkUnitsCompleted s) (ksIRQPending s)).
  { unfold reset_state. change (ksCTEs s0) with (outside ptr bits (ksCTEs s)).
    rewrite insert_id; [by destruct s|]. rewrite outside_out by (by eapply slot_out).
    rewrite Hc. destruct c. cbn in *. by rewrite Hcap. }
  rewrite Hs0.
  destruct (dev || (bits <? CONFIG_RESET_CHUNK_BITS)) eqn:Hsmall.
  - assert (Hend : forall mem tr, (dev = false -> forall a, free_ref 0 ptr <= a < ptr + 2 ^ bits -> mem !! a = None) ->
      (forall a, ~ (ptr <= a < ptr + 2 ^ bits) -> mem !! a = ksMem s !! a) ->
      wp (setCap slot (cap_untyped_cap 0 dev bits ptr) ;;; ret EXCEPTION_NONE) reset_outcome
        (reset_state s0 slot c dev bits ptr fi mem tr (ksWorkUnitsCompleted s) (ksIRQPending s))).
    { intros mem tr Hm Ho. wp_struct. apply wp_reset_setCap. wp_struct. left. split; [done|].
      by apply reset_state_result; [..|lia| |]. }
    wp_struct. destruct dev; cbn [negb cap_untyped_cap_set_capFreeIndex]; [by wp_struct; apply Hend|].
    apply wp_reset_clearMemory, Hend; [|by intros a Ha; apply outside_out].
    intros _ a Ha. apply outside_in. unfold free_ref in Ha. lia.
  - apply orb_false_iff in Hsmall as [Hdev Hbig%Z.ltb_ge]. unfold CONFIG_RESET_CHUNK_BITS in *.
    destruct (uw_pow _ _ _ Huw) as [_ Hpow].
    set (k := Z.to_nat ((fi * 16 - 1) / 256)).
    assert (Hk : Z.of_nat k = (fi * 16 - 1) / 256) by (apply Z2Nat.id, Z.div_pos; lia).
    assert (Hoff : ROUND_DOWN (wsub (fi * 16) 1) 8 = Z.of_nat k * 256).
    { unfold ROUND_DOWN, wshl. rewrite wsub_small by (unfold is_word; lia).
      rewrite Z.shiftr_div_pow2, Z.shiftl_mul_pow2 by done. change (2 ^ 8) with 256. rewrite <- Hk.
      apply wrap_small. unfold is_word. pose proof (Z.div_mod (fi * 16 - 1) 256). pose proof (Z.mod_pos_bound (fi * 16 - 1) 256). lia. }
    pose proof (Z.div_mod (fi * 16 - 1) 256 ltac:(lia)). pose proof (Z.mod_pos_bound (fi * 16 - 1) 256 ltac:(lia)).
    rewrite Hoff, Z.shiftr_div_pow2 by done. change (2 ^ 8) with 256. rewrite Z.div_mul, Nat2Z.id by done.
    eapply wp_mono; [|intros ex s'; apply (reset_outcome_post c (Z.of_nat k * 16 + 1)); [done..|lia]].
    apply wp_resetUntypedCap_loop; [done|lia|lia| |].
    + pose proof (pow2_split 8 bits ltac:(lia)) as Hsp. change (2 ^ 8) with 256 in Hsp. nia.
    + split; [|done]. intros a Ha. apply (cl_mem _ _ _ _ (uo_clear _ _ _ _ _ _ Hok)); [by rewrite Hdev|].
      unfold free_ref. change (2 ^ seL4_MinUntypedBits) with 16. lia.
Qed.
End ResetCap.

(** ** Retyping *)
Lemma cte_offset_inj d off i j :
  0 <= off -> 0 <= i < 256 -> 0 <= j < 256 -> off + 256 <= word_modulus ->
  cte_offset d (wadd off i) = cte_offset d (wadd off j) -> i = j.
Proof.
  intros H0 Hi Hj Hm. rewrite !wadd_small by (unfold is_word; lia).
  unfold cte_offset, wadd, wshl, wrap. change seL4_SlotBits with 5. rewrite !Z.shiftl_mul_pow2 by done.
  change (2 ^ 5) with 32. rewrite !Zplus_mod_idemp_r. intros H.
  assert (Hd : ((d + (off + i) * 32) - (d + (off + j) * 32)) mod word_modulus = 0)
    by (rewrite Zminus_mod, H, Z.sub_diag; done).
  apply Z.mod_divide in Hd as [k Hk]; [|done]. unfold word_modulus in Hk. lia.
Qed.

Lemma grown_only s s' P lo hi :
  grown s s' lo hi -> (forall a, ~ (lo <= a < hi) -> ~ P a -> slot_data s' a = slot_data s a) -> only_in s s' P lo hi.
Proof.
  intros G Hd. split; [done|apply G..| | |].
  - intros a _. by rewrite (grown_field ksASIDPools _ _ _ _ ltac:(done) G).
  - intros a _. by rewrite (grown_field ksMem _ _ _ _ ltac:(done) G).
  - exact (f_equal (fun x => set_ksASIDPools (fun _ => ∅) (set_ksMem (fun _ => ∅)
      (set_ksWorkUnitsCompleted (fun _ => 0) (set_ksIRQPending (fun _ => []) x)))) (gr_rest _ _ _ _ G)).
Qed.

Lemma slot_data_None s a : slot_data s a = None <-> ksCTEs s !! a = None.
Proof. unfold slot_data. by destruct (ksCTEs s !! a). Qed.

Lemma only_in_clear z s s' P lo hi lo' hi' :
  clear z s lo hi -> only_in s s' P lo' hi' -> (forall a, lo <= a < hi -> ~ (lo' <= a < hi') /\ ~ P a) ->
  clear z s' lo hi.
Proof.
  intros [C T E N Pt A M] [B1 B2 B3 B4 B5 B6 B7 _] Hd.
  split; [intros a Ha..|intros Hz a Ha]; destruct (Hd a Ha) as [H1 H2].
  - apply slot_data_None. rewrite B1 by done. by apply slot_data_None, C.
  - rewrite B2 by done. by apply T.
  - rewrite B3 by done. by apply E.
  - rewrite B4 by done. by apply N.
  - rewrite B5 by done. by apply Pt.
  - rewrite B6 by done. by apply A.
  - rewrite B7 by done. by apply M.
Qed.

Lemma clear_set_cte z s lo hi p c : clear z s lo hi -> ~ (lo <= p < hi) -> clear z (set_ksCTEs (insert p c) s) lo hi.
Proof.
  intros [C T E N Pt A M] Hp. split; try done. intros a Ha. st_simpl. rewrite lookup_insert_ne by (intros ->; lia). by apply C.
Qed.

Section Retype.
Context (s : kstate) (cs : list (list Z)) (slot fi : Z) (dev : bool) (bits ptr t us o base n destCNode off : Z).
Notation obj j := (base + j * 2 ^ o).
Notation dest j := (cte_offset destCNode (wadd off j)).
Notation dests i := ((fun j => dest j) <$> seqZ 0 i).

(** [s'] is [s] with [n] new objects of type [t] carved from the block: each
    is in its initial state and has a capability with all rights right after
    the untyped in the derivation list; the memory above them stays free. *)
Record retyped (lo hi : Z) (s' : kstate) : Prop := {
  rt_untyped : untyped_ok s' slot (GET_FREE_INDEX ptr (obj n)) dev bits ptr;
  rt_free : free_ref (GET_FREE_INDEX ptr (obj n)) ptr = obj n;
  rt_mdb : mdb_wf (ksCTEs s') (ins_many slot (dests n) <$> cs);
  rt_caps : forall j, 0 <= j < n -> slot_data s' (dest j) = Some (new_cap t us dev (obj j), true, true);
  rt_objs : forall j, 0 <= j < n -> object_at s' t us (obj j);
  rt_zero : dev = false -> forall a, base <= a < obj n -> ksMem s' !! a = None;
  rt_only : only_in s s' (fun a => a = slot \/ exists j, 0 <= j < n /\ a = dest j) lo hi
}.

Hypothesis Hv : valid_object t us.
Hypothesis Ho : getObjectSize t us = Some o.
Hypothesis Ho4 : seL4_MinUntypedBits <= o.
Hypothesis Hn : 1 <= n.
Hypothesis Hal : base mod 2 ^ o = 0.
Hypothesis Htop : obj n <= ptr + 2 ^ bits.
Hypothesis Hwf : mdb_wf (ksCTEs s) cs.
Hypothesis Hok : untyped_ok s slot fi dev bits ptr.
Hypothesis Hbase : free_ref fi ptr <= base.
Hypothesis Hdest : forall j, 0 <= j < n -> exists c, ksCTEs s !! dest j = Some c /\ cte_cap c = cap_null_cap.
Hypothesis Hinj : forall i j, 0 <= i < n -> 0 <= j < n -> dest i = dest j -> i = j.

Lemma retype_range : 0 < base /\ base <= obj n /\ obj n < word_modulus /\ free_ref fi ptr <= base /\ 0 <= o.
Proof.
  destruct (uo_wf _ _ _ _ _ _ Hok) as [_ [Hp0 Hp] _ [Hf0 _]].
  assert (Ho0 : 0 <= o) by (unfold seL4_MinUntypedBits in *; lia). pose proof (pow2_pos o Ho0).
  pose proof Hbase as Hb. unfold free_ref, seL4_MinUntypedBits in Hb. split_and!; [nia|nia|lia|exact Hbase|done].
Qed.

(** Slots that exist are not in the free part. *)
Lemma slot_not_free a : is_Some (ksCTEs s !! a) -> ~ (base <= a < ptr + 2 ^ bits).
Proof.
  intros [d Hd] Ha. pose proof retype_range.
  rewrite (cl_ctes _ _ _ _ (uo_clear _ _ _ _ _ _ Hok)) in Hd; [done|lia].
Qed.

Lemma retyped_intro c s' :
  ksCTEs s !! slot = Some c -> cte_cap c = cap_untyped_cap fi dev bits ptr -> mdbRevocable (cteMDBNode c) = true ->
  created_upto (set_ksCTEs (insert slot (set_cte_cap (fun _ =>
      cap_untyped_cap (GET_FREE_INDEX ptr (obj n)) dev bits ptr) c)) s) cs slot t us o base dev (fun j => dest j) n s' ->
  retyped base (obj n) s'.
Proof.
  intros Hc Hcap Hrev Hcr. set (c2 := set_cte_cap _ c) in *. set (s2 := set_ksCTEs _ s) in *.
  destruct retype_range as (Hb0 & Hbn & Hm & Hfb & Ho0).
  destruct (GET_FREE_INDEX_val _ _ _ (uo_wf _ _ _ _ _ _ Hok) (obj n)) as [Hfree Huw'].
  { apply (aligned_smaller _ _ o); [done|]. by rewrite Z_mod_plus_full. }
  { pose proof (uo_wf _ _ _ _ _ _ Hok) as [_ _ _ [? _]]. unfold free_ref, seL4_MinUntypedBits in *. lia. }
  pose proof (slot_not_free slot ltac:(eauto)) as Hsl.
  assert (Hslot : slot_data s' slot = slot_data s2 slot).
  { apply (cu_data _ _ _ _ _ _ _ _ _ _ _ Hcr); [lia|]. intros j Hj He. destruct (Hdest j Hj) as (d & Hd & Hdn). congruence. }
  assert (Honly : only_in s s' (fun a => a = slot \/ exists j, 0 <= j < n /\ a = dest j) base (obj n)).
  { eapply (only_in_trans _ s2 _ _ (eq slot) (fun a => exists j, 0 <= j < n /\ a = dest j) _ _ base (obj n));
      [by intros ? <-; left|by intros; right|done|done| |].
    - split; try done. intros a _ Ha. unfold slot_data, s2. st_simpl. by rewrite lookup_insert_ne.
    - eapply grown_only; [apply Hcr|]. intros a Ha Hn'. apply (cu_data _ _ _ _ _ _ _ _ _ _ _ Hcr); [done|].
      intros j Hj ->. apply Hn'. eauto. }
  split; [|done|apply Hcr|apply Hcr|apply Hcr| |done].
  - split; [|done|].
    + unfold slot_data in Hslot at 1. unfold slot_data, s2 in Hslot. st_simpl_in Hslot. rewrite lookup_insert_eq in Hslot.
      destruct (ksCTEs s' !! slot) as [c'|]; [|done]. exists c'. cbn in Hslot. injection Hslot as E1 E2 _.
      split_and!; [done|done|congruence].
    + rewrite Hfree. eapply only_in_clear; [|exact Honly|].
      * eapply clear_sub; [apply Hok|lia|done].
      * intros a Ha. split; [lia|]. intros [->|(j & Hj & ->)]; [lia|].
        destruct (Hdest j Hj) as (d & Hd & _). apply (slot_not_free (dest j)); [eauto|lia].
  - intros Hd a Ha. rewrite (grown_field ksMem _ _ _ _ ltac:(done) (cu_grown _ _ _ _ _ _ _ _ _ _ _ Hcr)).
    apply (cl_mem _ _ _ _ (uo_clear _ _ _ _ _ _ Hok)); [by rewrite Hd|lia].
Qed.

Lemma wp_retype_objects :
  wp (let* c' := slot_cap slot in
      setCap slot (cap_untyped_cap_set_capFreeIndex c' (GET_FREE_INDEX ptr (wadd base (wshl n o)))) ;;;
      createNewObjects t slot destCNode off n base us dev ;;;
      ret EXCEPTION_NONE)
    (fun ex s' => ex = EXCEPTION_NONE /\ retyped base (obj n) s') s.
Proof.
  destruct (uo_slot _ _ _ _ _ _ Hok) as (c & Hc & Hcap & Hrev). pose proof (uo_wf _ _ _ _ _ _ Hok) as Huw.
  destruct retype_range as (Hb0 & Hbn & Hm & Hfb & Ho0). pose proof (pow2_pos o Ho0).
  assert (Hobj : wadd base (wshl n o) = obj n).
  { unfold wshl. rewrite Z.shiftl_mul_pow2, (wrap_small (n * 2 ^ o)) by (done || unfold is_word; nia).
    apply wadd_small. unfold is_word. lia. }
  rewrite Hobj. wp_struct. unfold slot_cap. wp_struct. eapply wp_getCTE; [exact Hc|]. wp_struct. rewrite Hcap.
  cbn [cap_untyped_cap_set_capFreeIndex]. wp_struct. unfold setCap. eapply wp_modCTE; [exact Hc|].
  pose proof (slot_not_free slot ltac:(eauto)) as Hsl.
  wp_struct. eapply wp_mono; [eapply (wp_createNewObjects (negb dev) _ cs slot _ t us o base n dev (fun j => dest j)); try done; try lia|].
  - apply clear_set_cte; [eapply clear_sub; [apply Hok|lia..]|lia].
  - by apply (mdb_wf_set_cap _ _ _ c); [..|by rewrite Hcap|].
  - apply lookup_insert_eq.
  - by destruct c.
  - intros j Hj. destruct (Hdest j Hj) as (d & Hd & Hdn). exists d. split; [|done].
    st_simpl. rewrite lookup_insert_ne; [done|]. intros He. congruence.
  - intros [] s' Hcr. wp_struct. split; [done|by eapply retyped_intro].
Qed.
End Retype.

Lemma untyped_region_wf fi dev bits ptr : untyped_wf fi bits ptr -> Regions.region_wf (cap_untyped_cap fi dev bits ptr).
Proof.
  intros [Hb [Hp Ht] _ _]. unfold seL4_MinUntypedBits, seL4_MaxUntypedBits in Hb. unfold Regions.region_wf, Regions.size, Regions.base. cbn.
  unfold wordBits. lia.
Qed.

(** The new capabilities are descendants of the untyped: revoking it finds
    them. *)
Lemma retyped_children s cs slot dev bits ptr t us o base n destCNode off lo hi s' j p d :
  valid_object t us -> getObjectSize t us = Some o -> 0 <= o < wordBits -> base mod 2 ^ o = 0 -> ptr <= base ->
  base + n * 2 ^ o <= ptr + 2 ^ bits ->
  retyped s cs slot dev bits ptr t us o base n destCNode off lo hi s' -> 0 <= j < n ->
  ksCTEs s' !! slot = Some p -> ksCTEs s' !! cte_offset destCNode (wadd off j) = Some d -> isMDBParentOf p d = true.
Proof.
  intros Hv Ho Hob Hal Hlo Hhi Hr Hj Hp Hd. pose proof (pow2_pos o ltac:(lia)).
  destruct (uo_slot _ _ _ _ _ _ (rt_untyped _ _ _ _ _ _ _ _ _ _ _ _ _ _ _ _ Hr)) as (p' & Hp' & Hcap & Hrev).
  assert (p' = p) as -> by congruence. pose proof (rt_caps _ _ _ _ _ _ _ _ _ _ _ _ _ _ _ _ Hr j Hj) as Hdc.
  unfold slot_data in Hdc. rewrite Hd in Hdc. cbn in Hdc. injection Hdc as Hdc _ _.
  pose proof (uo_wf _ _ _ _ _ _ (rt_untyped _ _ _ _ _ _ _ _ _ _ _ _ _ _ _ _ Hr)) as Huw.
  pose proof Huw as [_ [Hp0 Ht] _ _].
  destruct (new_cap_region t us dev (base + j * 2 ^ o) o) as (Hph & Hba & Hsz); try done; try nia.
  { by rewrite Z_mod_plus_full. }
  assert (Hrw : Regions.region_wf (new_cap t us dev (base + j * 2 ^ o))).
  { unfold Regions.region_wf, Regions.size. rewrite Hba, Hsz. unfold word_modulus in *. nia. }
  unfold isMDBParentOf. rewrite Hrev, Hcap, Hdc. cbn [negb].
  rewrite (proj2 (Regions.untyped_iff _ dev bits ptr _ (untyped_region_wf _ dev _ _ Huw) Hrw)); [done|].
  unfold Regions.size. rewrite Hba, Hsz. split_and!; [done|nia|nia].
Qed.

(** ** The invocation *)
Section Invoke.
Context (s : kstate) (cs : list (list Z)) (slot fi : Z) (dev : bool) (bits ptr t us o base n destCNode off : Z) (reset : bool).
Notation obj j := (base + j * 2 ^ o).
Notation dest j := (cte_offset destCNode (wadd off j)).

(** The arguments of a retype that fit the block. *)
Record retype_args : Prop := {
  ra_type : valid_object t us;
  ra_size : getObjectSize t us = Some o;
  ra_count : 1 <= n <= 256;
  ra_align : base mod 2 ^ o = 0;
  ra_low : free_ref (if reset then 0 else fi) ptr <= base;
  ra_high : obj n <= ptr + 2 ^ bits;
  ra_offset : 0 <= off /\ off + 256 <= word_modulus;
  ra_dests : forall j, 0 <= j < n -> exists c, ksCTEs s !! dest j = Some c /\ cte_cap c = cap_null_cap;
  ra_unused : reset = true -> block_unused s bits ptr /\ forall j, 0 <= j < n -> ~ (ptr <= dest j < ptr + 2 ^ bits)
}.

Hypothesis Hwf : mdb_wf (ksCTEs s) cs.
Hypothesis Hok : untyped_ok s slot fi dev bits ptr.
Hypothesis Hargs : retype_args.

Definition retype_outcome (ex : exception_t) (s' : kstate) : Prop :=
  ex = EXCEPTION_NONE /\
    retyped s cs slot dev bits ptr t us o base n destCNode off
      (if reset then ptr else base) (if reset then ptr + 2 ^ bits else obj n) s' \/
  reset = true /\ ex = EXCEPTION_PREEMPTED /\ exists fi', 0 <= fi' < fi /\ reset_result s cs slot dev bits ptr fi' s'.

Lemma wp_invokeUntyped_Retype :
  wp (invokeUntyped_Retype slot reset base t us destCNode off n dev) retype_outcome s.
Proof.
  destruct (uo_slot _ _ _ _ _ _ Hok) as (c & Hc & Hcap & Hrev).
  destruct Hargs as [Hv Ho [Hn1 Hn] Hal Hlow Hhigh [Hoff0 Hoff] Hdest Hun].
  destruct (object_size _ _ Hv) as (o' & Ho' & Ho4 & _). assert (o' = o) as -> by congruence.
  assert (Hinj : forall i j, 0 <= i < n -> 0 <= j < n -> dest i = dest j -> i = j).
  { intros i j Hi Hj. apply cte_offset_inj; lia. }
  unfold invokeUntyped_Retype. wp_struct. unfold slot_cap at 1. wp_struct. eapply wp_getCTE; [exact Hc|]. wp_struct.
  rewrite Hcap. wp_struct. unfold retype_outcome. destruct reset.
  - destruct (Hun eq_refl) as [Hdead Hdo].
    eapply wp_mono; [eapply wp_resetUntypedCap; done|]. intros ex s1 [[-> (Honly & Hwf1 & Hok1)]|[-> (fi' & Hfi & Hr)]].
    2: { cbn. right. split_and!; [done|done|eauto]. }
    change (negb (is_none EXCEPTION_NONE)) with false. cbv iota. wp_struct. eapply wp_from_option; [exact Ho|].
    eapply wp_mono; [eapply (wp_retype_objects s1 cs slot 0); try done|].
    + intros j Hj. destruct (Hdest j Hj) as (d & Hd & Hdn).
      assert (Hne : slot <> dest j) by congruence.
      pose proof (oi_slots _ _ _ _ _ Honly (dest j) (Hdo j Hj) Hne) as Hs. unfold slot_data in Hs. rewrite Hd in Hs.
      destruct (ksCTEs s1 !! dest j) as [d1|]; [|done]. exists d1. injection Hs as Hs _ _. split; [done|congruence].
    + intros ex s' [-> Hr]. left. split; [done|]. destruct Hr as [R1 R2 R3 R4 R5 R6 R7]. split; try done.
      pose proof (uo_wf _ _ _ _ _ _ Hok) as [_ _ _ [? _]].
      eapply only_in_trans; [| | | |exact Honly|exact R7]; cbv beta; [by intros ? <-; left|auto|unfold free_ref in Hlow; lia|exact Hhigh].
  - wp_struct. change (negb (is_none EXCEPTION_NONE)) with false. cbv iota. wp_struct. eapply wp_from_option; [exact Ho|].
    eapply wp_mono; [by eapply (wp_retype_objects s cs slot fi)|]. intros ex s' [-> Hr]. by left.
Qed.
End Invoke.

(** ** The decoder *)

(** Only the registers that report errors differ. *)
Definition errors_only (s s' : kstate) : Prop :=
  exists e f, s' = set_current_syscall_error (fun _ => e) (set_current_lookup_fault (fun _ => f) s).

Lemma errors_only_refl s : errors_only s s.
Proof. exists (current_syscall_error s), (current_lookup_fault s). by destruct s. Qed.

Lemma errors_only_error s g : errors_only s (set_current_syscall_error g s).
Proof. exists (g (current_syscall_error s)), (current_lookup_fault s). by destruct s. Qed.

Lemma errors_only_trans s1 s2 s3 : errors_only s1 s2 -> errors_only s2 s3 -> errors_only s1 s3.
Proof. intros (e & f & ->) (e' & f' & ->). by exists e', f'. Qed.

Lemma resolves_some h c a n slot rem :
  cspace_wf h -> cnode_cap_ok h c -> resolves h c a n slot rem -> is_Some (h !! slot).
Proof.
  intros Hwf Hok H. induction H as [? ? ? ? ? ?|? ? ? ? ? ? ? ? ? ? ? Hc ?|? ? ? ? ? ? ? ? ? ? ? ? ? Hc ? ? IH].
  - destruct Hok as (_ & _ & _ & _ & Hs). by apply Hs.
  - eauto.
  - apply IH. by eapply Hwf.
Qed.

(** The CNode the objects go to. *)
Lemma wp_retype_node s rootCap nodeIndex nodeDepth :
  is_word nodeIndex -> cspace_wf (ksCTEs s) -> (exists p c, ksCTEs s !! p = Some c /\ rootCap = cte_cap c) ->
  wp (if nodeDepth =? 0 then ret (EXCEPTION_NONE, rootCap)
      else let* (st, sl) := lookupTargetSlot rootCap nodeIndex nodeDepth in
           if negb (is_none st) then ret (st, cap_null_cap)
           else let* nc := slot_cap sl in ret (EXCEPTION_NONE, nc))
    (fun r s' => r.1 = EXCEPTION_NONE /\ s' = s /\ (exists p c, ksCTEs s !! p = Some c /\ r.2 = cte_cap c) \/
                 r.1 = EXCEPTION_SYSCALL_ERROR /\ errors_only s s') s.
Proof.
  intros Hw Hwf (p & c & Hp & ->). assert (Hok : cnode_cap_ok (ksCTEs s) (cte_cap c)) by (by eapply Hwf).
  destruct (nodeDepth =? 0); [wp_struct; left; split_and!; [done|done|by exists p, c]|].
  wp_struct. eapply wp_mono; [by apply wp_lookupSlotForCNodeOp|]. intros [st sl] s' [(Hst & -> & Hc & _ & Hr)|(Heq & Hs & _)].
  - cbn in Hst. subst st. change (negb (is_none EXCEPTION_NONE)) with false. cbv iota.
    destruct (resolves_some _ _ _ _ _ _ Hwf Hok Hr) as [d Hd]. cbn in Hd. unfold slot_cap. wp_struct. wp_struct.
    eapply wp_getCTE; [exact Hd|]. wp_struct. wp_struct. left. split_and!; [done|done|by exists sl, d].
  - injection Heq as -> ->. cbn. right. split; [done|].
    exists (current_syscall_error s'), (current_lookup_fault s'). rewrite <- Hs. by destruct s'.
Qed.

Lemma wp_ensureEmptySlots s d n i :
  0 <= i -> i + Z.of_nat n < word_modulus ->
  (forall j, 0 <= j < Z.of_nat n -> is_Some (ksCTEs s !! cte_offset d (wadd i j))) ->
  wp (ensureEmptySlots n d i) (fun ex s' =>
    ex = EXCEPTION_NONE /\ s' = s /\
      (forall j, 0 <= j < Z.of_nat n -> exists c, ksCTEs s !! cte_offset d (wadd i j) = Some c /\ cte_cap c = cap_null_cap) \/
    ex = EXCEPTION_SYSCALL_ERROR /\ errors_only s s') s.
Proof.
  revert i. induction n as [|n IH]; intros i Hi Hm Hs; cbn [ensureEmptySlots].
  { wp_struct. left. split_and!; [done|done|lia]. }
  assert (Hi0 : wadd i 0 = i) by (rewrite wadd_small by (unfold is_word; lia); lia).
  assert (Hi1 : forall j, 0 <= j < Z.of_nat n -> wadd (wadd i 1) j = wadd i (j + 1)).
  { intros j Hj. rewrite !wadd_small; unfold is_word; rewrite ?wadd_small by (unfold is_word; lia); lia. }
  destruct (Hs 0 ltac:(lia)) as [c Hc]. rewrite Hi0 in Hc.
  unfold ensureEmptySlot, syscall_error_type, set_syscall_error. do 2 wp_struct. eapply wp_getCTE; [exact Hc|].
  destruct (cap_is_null (cte_cap c)) eqn:Hn; cbn [negb]; repeat wp_struct.
  2: { cbn [is_none negb]. right. split; [done|apply errors_only_error]. }
  change (negb (is_none EXCEPTION_NONE)) with false. cbv iota.
  eapply wp_mono; [apply IH; [rewrite wadd_small by (unfold is_word; lia); lia..|]|].
  - intros j Hj. rewrite Hi1 by done. apply Hs. lia.
  - intros ex s' [(-> & -> & H)|H]; [left|by right]. split_and!; [done|done|]. intros j Hj.
    destruct (decide (j = 0)) as [->|Hj0].
    + rewrite Hi0. exists c. split; [done|by apply cap_is_null_spec].
    + destruct (H (j - 1)) as (e & He & ?); [lia|]. rewrite Hi1 in He by lia.
      replace (j - 1 + 1) with j in He by lia. eauto.
Qed.

(** [ensureNoChildren] as the decoder uses it: it looks at the next slot. *)
Lemma wp_ensureNoChildren_childless s cs slot c Q :
  mdb_wf (ksCTEs s) cs -> ksCTEs s !! slot = Some c ->
  (childless (ksCTEs s) slot -> Q EXCEPTION_NONE s) ->
  (forall s', errors_only s s' -> Q EXCEPTION_SYSCALL_ERROR s') ->
  wp (ensureNoChildren slot) Q s.
Proof.
  intros Hwf Hc H1 H2. unfold ensureNoChildren, syscall_error_type, set_syscall_error. wp_struct.
  eapply wp_getCTE; [exact Hc|]. destruct (Z.eqb_spec (mdbNext (cteMDBNode c)) 0) as [Hz|Hz]; cbn [negb].
  - wp_struct. apply H1. intros c' d Hc' Hd. assert (c' = c) as -> by congruence.
    rewrite Hz, (mw_null _ _ Hwf) in Hd. done.
  - destruct (mw_next_some _ _ Hwf slot) as [d Hd]; [by rewrite (clink_Some _ _ _ _ Hc)|].
    rewrite (clink_Some _ _ _ _ Hc) in Hd. wp_struct. eapply wp_getCTE; [exact Hd|].
    destruct (isMDBParentOf c d) eqn:Hp; repeat wp_struct.
    + apply H2, errors_only_error.
    + apply H1. intros c' d' Hc' Hd'. congruence.
Qed.

Section Decode.
Context (s : kstate) (cs : list (list Z)) (slot fi : Z) (dev : bool) (bits ptr : Z) (tc : tcb) (buffer : Z).

(** The state a retype is decoded in.  An untyped without children has no
    capability in its block and none to a CNode there. *)
Record retype_ready : Prop := {
  re_mdb : mdb_wf (ksCTEs s) cs;
  re_untyped : untyped_ok s slot fi dev bits ptr;
  re_cspace : cspace_wf (ksCTEs s);
  re_thread : ksTCBs s !! ksCurThread s = Some tc;
  re_words : forall v, user_word s tc v -> is_word v;
  re_buffer : buffer <> 0;
  re_extra : forall p, p ∈ current_extra_caps s -> is_Some (ksCTEs s !! p);
  re_dead : childless (ksCTEs s) slot -> block_unused s bits ptr /\
    forall p c radix gb g node i, ksCTEs s !! p = Some c -> cte_cap c = cap_cnode_cap radix gb g node ->
      0 <= i < 2 ^ radix -> ~ (ptr <= cte_offset node i < ptr + 2 ^ bits)
}.

(** The caller has been made restartable. *)
Definition restarted (s1 : kstate) : Prop := exists a t e f,
  s1 = set_ksSchedulerAction (fun _ => a) (set_ksTCBs (insert (ksCurThread s) t)
    (set_current_syscall_error (fun _ => e) (set_current_lookup_fault (fun _ => f) s))).

Definition decode_post (ex : exception_t) (s' : kstate) : Prop :=
  ex = EXCEPTION_SYSCALL_ERROR /\ errors_only s s' \/
  exists s1 t us o base n node off reset, restarted s1 /\
    retype_args s1 fi bits ptr t us o base n node off reset /\
    retype_outcome s1 cs slot fi dev bits ptr t us o base n node off reset ex s'.

Hypothesis Hre : retype_ready.

Lemma decode_error s1 f : errors_only s s1 -> wp (sys_error (set_syscall_error f)) decode_post s1.
Proof.
  intros He. unfold sys_error, set_syscall_error. repeat wp_struct. left. split; [done|].
  eapply errors_only_trans; [exact He|apply errors_only_error].
Qed.

Lemma restarted_untyped s1 : restarted s1 -> untyped_ok s1 slot fi dev bits ptr.
Proof.
  intros (a & t & e & f & ->). destruct (re_untyped Hre) as [U1 U2 [C T E N P A M]]. split; [done|done|].
  split; try done. intros x Hx. st_simpl. rewrite lookup_insert_ne; [by apply T|]. intros <-.
  pose proof (T _ Hx) as Hn. by rewrite (re_thread Hre) in Hn.
Qed.

Lemma untyped_wf_fresh : untyped_wf 0 bits ptr.
Proof. destruct (uo_wf _ _ _ _ _ _ (re_untyped Hre)) as [? ? ? ?]. split; [done..|]. split; [lia|]. rewrite Z.mul_0_l. apply Z.pow_nonneg. lia. Qed.

Lemma getObjectSize_total t us : 0 <= t < seL4_ObjectTypeCount -> exists o, getObjectSize t us = Some o.
Proof.
  unfold seL4_ObjectTypeCount. intros Ht.
  assert (t = 0 \/ t = 1 \/ t = 2 \/ t = 3 \/ t = 4 \/ t = 5 \/ t = 6 \/ t = 7 \/ t = 8 \/ t = 9) as Hc by lia.
  repeat destruct Hc as [->|Hc]; try (subst t); eexists; reflexivity.
Qed.

Lemma wp_decode_retype s0 t us o node radix off n (reset : bool) :
  errors_only s s0 -> valid_object t us -> getObjectSize t us = Some o -> o < wordBits ->
  0 <= radix < wordBits -> 0 <= off -> 1 <= n <= 256 -> off + n <= 2 ^ radix ->
  (exists p c gb g, ksCTEs s !! p = Some c /\ cte_cap c = cap_cnode_cap radix gb g node) ->
  (forall j, 0 <= j < n -> exists c, ksCTEs s !! cte_offset node (wadd off j) = Some c /\ cte_cap c = cap_null_cap) ->
  (reset = true -> childless (ksCTEs s) slot) ->
  n <= Z.shiftr (wsub (BIT bits) (FREE_INDEX_TO_OFFSET (if reset then 0 else fi))) o ->
  wp (let* cur := gets ksCurThread in
      setThreadState cur ThreadState_Restart ;;;
      invokeUntyped_Retype slot reset (alignUp (GET_FREE_REF ptr (if reset then 0 else fi)) o) t us node off n dev)
    decode_post s0.
Proof.
  intros He Hv Ho Ho64 Hrad Hoff Hn Hwin (p & c & gb & g & Hp & Hcap) Hdest Hres Hfit.
  destruct (object_size _ _ Hv) as (o' & Ho' & Ho4 & _). assert (o' = o) as -> by congruence.
  unfold seL4_MinUntypedBits in Ho4.
  assert (Huw : untyped_wf (if reset then 0 else fi) bits ptr).
  { destruct reset; [apply untyped_wf_fresh|apply (re_untyped Hre)]. }
  destruct (retype_fits _ _ _ o n Huw ltac:(lia) ltac:(lia) Hfit) as (Hal & Hlow & Hhigh).
  set (base := alignUp _ o) in *.
  assert (Hthread : ksTCBs s0 !! ksCurThread s0 = Some tc) by (destruct He as (e & f & ->); apply (re_thread Hre)).
  wp_struct. wp_struct. unfold setThreadState. wp_struct. wp_struct. eapply wp_modTCB; [exact Hthread|].
  apply wp_scheduleTCB; [st_simpl; rewrite lookup_insert_eq; eauto|].
  set (s1 := set_ksSchedulerAction _ _).
  assert (Hr1 : restarted s1).
  { destruct He as (e & f & ->). by do 4 eexists. }
  assert (Hctes : ksCTEs s1 = ksCTEs s) by (destruct He as (e & f & ->); done).
  assert (Hargs : retype_args s1 fi bits ptr t us o base n node off reset).
  { split; try done.
    - split; [done|]. assert (2 ^ radix <= 2 ^ 63) by (apply Z.pow_le_mono_r; unfold wordBits in *; lia).
      unfold word_modulus. lia.
    - by rewrite Hctes.
    - intros ->. destruct (re_dead Hre (Hres eq_refl)) as [Hd1 Hd2]. split.
      + intros a d. rewrite Hctes. apply Hd1.
      + intros j Hj. rewrite wadd_small by (unfold is_word; pose proof (pow2_is_word radix Hrad) as [_ ?]; lia).
        eapply Hd2; [exact Hp|exact Hcap|lia]. }
  eapply wp_mono; [eapply (wp_invokeUntyped_Retype s1 cs slot fi dev)|].
  - rewrite Hctes. apply (re_mdb Hre).
  - by apply restarted_untyped.
  - exact Hargs.
  - intros ex s' Hout. right. by exists s1, t, us, o, base, n, node, off, reset.
Qed.

Lemma wp_decode_allocate t us o node radix off n :
  valid_object t us -> getObjectSize t us = Some o -> o < wordBits ->
  0 <= radix < wordBits -> 0 <= off -> 1 <= n <= 256 -> off + n <= 2 ^ radix ->
  (exists p c gb g, ksCTEs s !! p = Some c /\ cte_cap c = cap_cnode_cap radix gb g node) ->
  (forall j, 0 <= j < n -> exists c, ksCTEs s !! cte_offset node (wadd off j) = Some c /\ cte_cap c = cap_null_cap) ->
  wp (decode_allocate slot (cap_untyped_cap fi dev bits ptr) t us o node off n) decode_post s.
Proof.
  intros Hv Ho Ho64 Hrad Hoff Hn Hwin Hnode Hdest. unfold decode_allocate, syscall_invalidArgument.
  destruct (uo_slot _ _ _ _ _ _ (re_untyped Hre)) as (cu & Hcu & _).
  assert (Htail : forall reset s1, errors_only s s1 -> (reset = true -> childless (ksCTEs s) slot) ->
    n <= Z.shiftr (wsub (BIT bits) (FREE_INDEX_TO_OFFSET (if reset then 0 else fi))) o -> wp (
      let* cur := gets ksCurThread in
      setThreadState cur ThreadState_Restart ;;;
      invokeUntyped_Retype slot reset (alignUp (GET_FREE_REF ptr (if reset then 0 else fi)) o) t us node off n dev)
    decode_post s1) by (intros; by eapply wp_decode_retype).
  wp_struct. eapply wp_ensureNoChildren_childless; [apply Hre|exact Hcu| |]; cbv zeta.
  - intros Hch. change (is_none EXCEPTION_NONE) with true. cbv iota.
    destruct (Z.ltb_spec (Z.shiftr (wsub (BIT bits) (FREE_INDEX_TO_OFFSET 0)) o) n); [apply decode_error, errors_only_refl|].
    destruct (dev && _ && _); [apply decode_error, errors_only_refl|]. by apply (Htail true); [apply errors_only_refl|..].
  - intros s1 He. change (is_none EXCEPTION_SYSCALL_ERROR) with false. cbv iota.
    destruct (Z.ltb_spec (Z.shiftr (wsub (BIT bits) (FREE_INDEX_TO_OFFSET fi)) o) n); [by apply decode_error|].
    destruct (dev && _ && _); [by apply decode_error|]. by apply (Htail false).
Qed.

(** The checks of the type and the size make the object valid. *)
Lemma checked_object t us o :
  0 <= t -> is_word us -> (seL4_ObjectTypeCount <=? t) = false -> (wordBits <=? us) || (seL4_MaxUntypedBits <? o) = false ->
  (t =? seL4_CapTableObject) && (us =? 0) = false -> (t =? seL4_UntypedObject) && (us <? seL4_MinUntypedBits) = false ->
  valid_object t us /\ o < wordBits.
Proof.
  intros H0 [Hus _] H1%Z.leb_gt [H2%Z.leb_gt H2'%Z.ltb_ge]%orb_false_iff H3 H4.
  unfold valid_object, seL4_MaxUntypedBits, wordBits in *. split; [split_and!|lia]; lia.
Qed.

(** The destination window lies in the CNode. *)
Lemma window_fits radix off n :
  0 <= radix < wordBits -> is_word off -> is_word n -> (wsub (wshl 1 radix) 1 <? off) = false ->
  (wsub (wshl 1 radix) off <? n) = false -> off + n <= 2 ^ radix.
Proof.
  intros Hr [Ho0 Ho] [Hn0 Hn] H1%Z.ltb_ge H2%Z.ltb_ge. change (wshl 1 radix) with (BIT radix) in *. rewrite BIT_pow in * by done.
  pose proof (pow2_is_word radix Hr) as [_ Hw]. pose proof (pow2_pos radix ltac:(lia)).
  rewrite wsub_small in H1 by (unfold is_word; lia). rewrite wsub_small in H2 by (unfold is_word; lia). lia.
Qed.

Lemma wp_decodeUntypedInvocation label length call :
  wp (decodeUntypedInvocation label length slot (cap_untyped_cap fi dev bits ptr) call buffer) decode_post s.
Proof.
  unfold decodeUntypedInvocation, excaprefs, syscall_error_type, syscall_rangeError, syscall_invalidArgument.
  pose proof (errors_only_refl s) as Hrefl. do 2 wp_struct.
  destruct (negb (label =? UntypedRetype)); [by apply decode_error|].
  destruct (nth_error (current_extra_caps s) 0) as [rootSlot|] eqn:Hex; [|by apply decode_error].
  destruct (length <? 6); [by apply decode_error|].
  assert (Harg : forall i (Q : Z -> kstate -> Prop), 0 <= i -> (forall v, is_word v -> Q v s) ->
    wp (getSyscallArg i buffer) Q s).
  { intros i Q Hi HQ. eapply wp_getSyscallArg; [done|apply Hre|apply Hre|]. intros v Hv. by apply HQ, Hre. }
  wp_struct. apply Harg; [done|]. intros t Ht. wp_struct. apply Harg; [done|]. intros us Hus.
  wp_struct. apply Harg; [done|]. intros nodeIndex Hni. wp_struct. apply Harg; [done|]. intros nodeDepth _.
  wp_struct. apply Harg; [done|]. intros off Hoff. wp_struct. apply Harg; [done|]. intros n Hnw.
  destruct (seL4_ObjectTypeCount <=? t) eqn:H1; [by apply decode_error|].
  destruct (getObjectSize_total t us) as [o Ho]; [by apply Z.leb_gt in H1; destruct Ht|].
  wp_struct. eapply wp_from_option; [exact Ho|].
  destruct ((wordBits <=? us) || (seL4_MaxUntypedBits <? o)) eqn:H2; [by apply decode_error|].
  destruct ((t =? seL4_CapTableObject) && (us =? 0)) eqn:H3; [by apply decode_error|].
  destruct ((t =? seL4_UntypedObject) && (us <? seL4_MinUntypedBits)) eqn:H4; [by apply decode_error|].
  destruct (checked_object t us o) as [Hv Ho64]; [by destruct Ht|done..|].
  destruct (re_extra Hre rootSlot) as [d Hd]; [by eapply list_elem_of_In, nth_error_In|].
  wp_struct. unfold slot_cap at 1. wp_struct. eapply wp_getCTE; [exact Hd|]. wp_struct. wp_struct.
  eapply wp_mono; [apply wp_retype_node; [done|apply Hre|eauto]|].
  intros [st nodeCap] s1 [(Hst & -> & p & c & Hp & Hcap)|(Hst & He)]; cbn in Hst; subst st.
  2: { cbn. by left. }
  change (negb (is_none EXCEPTION_NONE)) with false. cbv iota. cbn in Hcap.
  destruct nodeCap as [| | | | |radix gb g node| | | | | | | | | | | ];
    try (by unfold syscall_failedLookup, set_syscall_error, set_lookup_fault; repeat wp_struct; left; split;
      [done|eexists _, _]).
  pose proof (re_cspace Hre p c Hp) as Hcn. rewrite <- Hcap in Hcn. destruct Hcn as (Hrad & _ & _ & _ & Hslots).
  destruct (wsub (wshl 1 radix) 1 <? off) eqn:H5; [by apply decode_error|].
  destruct ((n <? 1) || (CONFIG_RETYPE_FAN_OUT_LIMIT <? n)) eqn:H6; [by apply decode_error|].
  destruct (wsub (wshl 1 radix) off <? n) eqn:H7; [by apply decode_error|].
  pose proof (window_fits radix off n Hrad Hoff Hnw H5 H7) as Hwin.
  apply orb_false_iff in H6 as [Hn1%Z.ltb_ge Hn2%Z.ltb_ge]. unfold CONFIG_RETYPE_FAN_OUT_LIMIT in Hn2.
  pose proof (pow2_is_word radix Hrad) as [_ Hw]. destruct Hoff as [Ho0 Ho1].
  assert (Hnn : Z.of_nat (Z.to_nat n) = n) by (apply Z2Nat.id; lia).
  wp_struct. eapply wp_mono; [apply wp_ensureEmptySlots; rewrite ?Hnn; [lia|lia|]|].
  { intros j Hj. rewrite wadd_small by (unfold is_word; lia). apply Hslots. lia. }
  rewrite Hnn. intros st s1 [(-> & -> & Hdest)|(-> & He)]; [|cbn; by left].
  change (negb (is_none EXCEPTION_NONE)) with false. cbv iota.
  eapply (wp_decode_allocate t us o node radix); try done; try lia. by exists p, c, gb, g.
Qed.
End Decode.

(** ** The properties *)

(** C13: Clearing an untyped block ends, in steps that can be preempted.  When
    it completes the free index is zero and the whole block is clear; when it
    is preempted the free index has fallen and the block is clear from it up,
    so the invariant holds at every stop.  Nothing outside the block changes
    but the free index, the work counter and the hardware, and the derivation
    lists are kept. *)
Theorem resetUntypedCap_spec s cs slot fi dev bits ptr :
  mdb_wf (ksCTEs s) cs -> untyped_ok s slot fi dev bits ptr -> block_unused s bits ptr ->
  wp (resetUntypedCap slot) (fun ex s' => exists fi',
    only_in s s' (eq slot) ptr (ptr + 2 ^ bits) /\ mdb_wf (ksCTEs s') cs /\ untyped_ok s' slot fi' dev bits ptr /\
    (ex = EXCEPTION_NONE /\ fi' = 0 \/ ex = EXCEPTION_PREEMPTED /\ 0 <= fi' < fi)) s.
Proof.
  intros Hwf Hok Hdead. eapply wp_mono; [by apply (wp_resetUntypedCap s cs)|].
  intros ex s' [[-> (? & ? & ?)]|[-> (fi' & Hfi & ? & ? & ?)]]; [exists 0|exists fi']; split_and!; auto.
Qed.

(** C12: Retyping carves [n] objects out of the block: each is in its initial
    state and zeroed, has a capability with all rights to exactly its memory
    in the slot asked for, placed after the untyped in the derivation list,
    and is a descendant of the untyped, so revocation finds it; the free index
    moves past the objects and what is above stays clear; no other object,
    slot or memory changes, except that a reset clears the block.  A preempted
    reset leaves the invariant with a smaller free index. *)
Theorem invokeUntyped_Retype_spec s cs slot fi dev bits ptr t us o base n node off reset :
  mdb_wf (ksCTEs s) cs -> untyped_ok s slot fi dev bits ptr ->
  retype_args s fi bits ptr t us o base n node off reset ->
  wp (invokeUntyped_Retype slot reset base t us node off n dev) (fun ex s' =>
    retype_outcome s cs slot fi dev bits ptr t us o base n node off reset ex s' /\
    (ex = EXCEPTION_NONE -> forall j p d, 0 <= j < n -> ksCTEs s' !! slot = Some p ->
       ksCTEs s' !! cte_offset node (wadd off j) = Some d -> isMDBParentOf p d = true)) s.
Proof.
  intros Hwf Hok Hargs. eapply wp_mono; [by apply wp_invokeUntyped_Retype|]. intros ex s' Hout. split; [done|].
  intros -> j p d Hj Hp Hd. destruct Hout as [[_ Hr]|(_ & [=] & _)]. destruct Hargs as [Hv Ho _ Hal Hlow Hhigh _ _ _].
  pose proof (uo_wf _ _ _ _ _ _ Hok) as Huw. pose proof Huw as [Hb [? ?] _ [? _]].
  destruct (object_size _ _ Hv) as (o' & Ho' & Ho4 & _). assert (o' = o) as -> by congruence.
  assert (Hptr : ptr <= base) by (unfold free_ref, seL4_MinUntypedBits in Hlow; destruct reset; lia).
  assert (Hob : 0 <= o < wordBits).
  { unfold seL4_MinUntypedBits in Ho4. split; [lia|]. destruct (Z.lt_ge_cases o wordBits) as [|Hge]; [done|].
    pose proof (Z.pow_le_mono_r 2 64 o ltac:(lia) ltac:(unfold wordBits in *; lia)). unfold word_modulus in *. nia. }
  by eapply (retyped_children s cs slot dev bits ptr t us o base n node off).
Qed.

(** C11: Whatever a user asks of an untyped capability, the kernel either
    refuses, changing only the registers that report errors, or retypes with
    arguments that fit: a known type, a size that does not overflow, a window
    of at most 256 empty slots inside the CNode, and objects that are aligned
    and, even after aligning up, lie in the free part of the block. *)
Theorem decodeUntypedInvocation_safe s cs slot fi dev bits ptr tc buffer label length call :
  retype_ready s cs slot fi dev bits ptr tc buffer ->
  wp (decodeUntypedInvocation label length slot (cap_untyped_cap fi dev bits ptr) call buffer) (fun ex s' =>
    ex = EXCEPTION_SYSCALL_ERROR /\ errors_only s s' \/
    exists s1 t us o base n node off reset, restarted s s1 /\
      retype_args s1 fi bits ptr t us o base n node off reset /\
      retype_outcome s1 cs slot fi dev bits ptr t us o base n node off reset ex s') s.
Proof. intros Hre. by apply wp_decodeUntypedInvocation with (tc := tc). Qed.

(** ** A concrete block

    Slot 0 of a four-slot CNode at 65536 holds an untyped capability to the
    64 KiB at [ut_block] whose first 512 bytes have been used, slot 1 a
    capability to the CNode; slots 2 and 3 are empty.  Thread A asks for two
    endpoints in slots 2 and 3. *)
Definition ut_block : Z := 0x200000.
Definition ut_cap : cap := cap_untyped_cap 32 false 16 ut_block.
Definition ut_ctes : gmap Z cte :=
  <[slot_at 0 := mk_cte ut_cap (mdb_node_new 0 true true 0)]>
    (<[slot_at 1 := mk_cte (cap_cnode_cap 2 62 0 65536) (mdb_node_new 0 true true 0)]>
      (<[slot_at 2 := null_cte]> (<[slot_at 3 := null_cte]> vtable_slots))).
Definition ut_lists : list (list Z) := [[slot_at 0]; [slot_at 1]].
Definition ut_buffer : Z := 0x8000.
Definition ut_thread : tcb := set_tcbContext (fun _ => <[2 := seL4_EndpointObject]> ∅) (mk_thread ThreadState_Running 100).
Definition s_ut : kstate :=
  set_current_extra_caps (fun _ => [slot_at 1])
    (set_ksMem (fun _ => <[ut_block + 8 := 77]> (<[ut_buffer + 40 := 2]> (<[ut_buffer + 48 := 2]> ∅)))
      (state_with ut_ctes (<[tcb_A := ut_thread]> boot_tcbs) ∅ ∅ tcb_A SchedulerAction_ResumeCurrentThread)).

Lemma ut_wf : mdb_wf (ksCTEs s_ut) ut_lists.
Proof.
  split.
  - reflexivity.
  - apply (bool_decide_unpack _). vm_compute. exact I.
  - intros l Hl. unfold ut_lists in Hl. rewrite !elem_of_cons, elem_of_nil in Hl. destruct Hl as [->|[->|[]]];
      (split; [apply (bool_decide_unpack _); vm_compute; exact I..|vm_compute; repeat split]).
  - intros x Hx. cbn in Hx. rewrite !elem_of_cons, elem_of_nil in Hx.
    destruct Hx as [->|[->|[]]]; (eexists; split; [reflexivity|discriminate]).
  - assert (H : map_Forall (fun x c => x ∈ concat ut_lists \/ c = null_cte) ut_ctes).
    { apply (bool_decide_unpack _). vm_compute. exact I. }
    intros x c Hx Hn. destruct (H x c Hx) as [?| ->]; done.
Qed.

(** Keys outside the block, by computation. *)
Lemma keys_outside {A} (m : gmap Z A) lo hi :
  bool_decide (map_Forall (fun x _ => ~ (lo <= x < hi)) m) = true -> forall a, lo <= a < hi -> m !! a = None.
Proof.
  intros H%bool_decide_eq_true a Ha. destruct (m !! a) as [c|] eqn:Hc; [|done]. by destruct (H a c Hc).
Qed.

Lemma ut_ok : untyped_ok s_ut (slot_at 0) 32 false 16 ut_block.
Proof.
  split.
  - eexists. split; [reflexivity|done].
  - by split.
  - split; [..|intros _]; apply keys_outside; vm_compute; reflexivity.
Qed.

Lemma ut_unused : block_unused s_ut 16 ut_block.
Proof.
  intros a c Ha Hc. change (ut_ctes !! a = Some c) in Hc.
  rewrite (keys_outside ut_ctes ut_block (ut_block + 2 ^ 16) ltac:(vm_compute; reflexivity) a Ha) in Hc. done.
Qed.

Lemma resetUntypedCap_spec_witness :
  untyped_ok s_ut (slot_at 0) 32 false 16 ut_block /\
  wp (resetUntypedCap (slot_at 0)) (fun ex s' => exists fi',
    untyped_ok s' (slot_at 0) fi' false 16 ut_block /\ fi' < 32) s_ut.
Proof.
  split; [exact ut_ok|]. eapply wp_mono.
  { apply (resetUntypedCap_spec s_ut ut_lists (slot_at 0) 32 false 16 ut_block ut_wf ut_ok ut_unused). }
  intros ex s' (fi' & _ & _ & H & Hf). exists fi'. split; [exact H|].
  destruct Hf as [[_ ->]|[_ [_ Hf]]]; [reflexivity|exact Hf].
Defined.

Lemma ut_args : retype_args s_ut 32 16 ut_block seL4_EndpointObject 0 4 ut_block 2 65536 2 true.
Proof.
  split.
  - split_and!; vm_compute; try discriminate; reflexivity.
  - reflexivity.
  - vm_compute. split; discriminate.
  - reflexivity.
  - vm_compute. discriminate.
  - vm_compute. discriminate.
  - vm_compute. split; discriminate.
  - intros j Hj. assert (j = 0 \/ j = 1) as [-> | ->] by lia; (eexists; split; reflexivity).
  - intros _. split; [exact ut_unused|]. intros j Hj. assert (j = 0 \/ j = 1) as [-> | ->] by lia;
      (intros [H _]; by vm_compute in H).
Qed.

Lemma invokeUntyped_Retype_spec_witness :
  untyped_ok s_ut (slot_at 0) 32 false 16 ut_block /\
  wp (invokeUntyped_Retype (slot_at 0) true ut_block seL4_EndpointObject 0 65536 2 2 false) (fun ex s' =>
    ex = EXCEPTION_NONE -> ksEPs s' !! (ut_block + 16) = Some zero_endpoint) s_ut.
Proof.
  split; [exact ut_ok|]. eapply wp_mono.
  { apply (invokeUntyped_Retype_spec s_ut ut_lists (slot_at 0) 32 false 16 ut_block _ _ _ _ _ _ _ _ ut_wf ut_ok ut_args). }
  intros ex s' [[[_ H]|(_ & -> & _)] _] He; [|discriminate He].
  apply (oa_ep _ _ _ _ (rt_objs _ _ _ _ _ _ _ _ _ _ _ _ _ _ _ _ H 1 ltac:(lia))). reflexivity.
Defined.

Lemma ut_ready : retype_ready s_ut ut_lists (slot_at 0) 32 false 16 ut_block ut_thread ut_buffer.
Proof.
  split; try done.
  - exact ut_wf.
  - exact ut_ok.
  - assert (H : map_Forall (fun x c => c = null_cte \/ cte_cap c = ut_cap \/ cte_cap c = cap_cnode_cap 2 62 0 65536) ut_ctes).
    { apply (bool_decide_unpack _). vm_compute. exact I. }
    intros p c Hc. destruct (H p c Hc) as [->|[->| ->]]; try done. split_and!; try done.
    intros i Hi. assert (i = 0 \/ i = 1 \/ i = 2 \/ i = 3) as Hi' by (change (2 ^ 2) with 4 in Hi; lia).
    destruct Hi' as [->|[->|[->| ->]]]; by eexists.
  - assert (Hctx : map_Forall (fun _ v => is_word v) (tcbContext ut_thread)).
    { apply (bool_decide_unpack _). vm_compute. exact I. }
    assert (Hmem : map_Forall (fun _ v => is_word v) (ksMem s_ut)).
    { apply (bool_decide_unpack _). vm_compute. exact I. }
    intros v [[r ->]|[a ->]].
    + unfold reg. destruct (tcbContext ut_thread !! r) as [w|] eqn:Hw; [by apply (Hctx r)|done].
    + unfold mem_word. destruct (ksMem s_ut !! a) as [w|] eqn:Hw; [by apply (Hmem a)|done].
  - intros p Hp. apply list_elem_of_singleton in Hp as ->. by eexists.
  - intros _. split; [exact ut_unused|]. intros p c radix gb g node i Hc Hcap Hi.
    assert (H : map_Forall (fun x c => c = null_cte \/ cte_cap c = ut_cap \/ cte_cap c = cap_cnode_cap 2 62 0 65536) ut_ctes).
    { apply (bool_decide_unpack _). vm_compute. exact I. }
    destruct (H p c Hc) as [->|[Hu|Hu]]; try (rewrite ?Hu in Hcap; done).
    rewrite Hu in Hcap. injection Hcap as <- <- <- <-.
    assert (i = 0 \/ i = 1 \/ i = 2 \/ i = 3) as Hi' by (change (2 ^ 2) with 4 in Hi; lia).
    destruct Hi' as [->|[->|[->| ->]]]; (intros [Hl _]; by vm_compute in Hl).
Qed.

(** The request is granted: the decoder resets the block and creates the two
    endpoints at its start. *)
Example ut_request_granted :
  (fun r => (r.1, (fun c => cte_cap c) <$> ksCTEs r.2 !! slot_at 3, ksMem r.2 !! (ut_block + 8)))
    <$> decodeUntypedInvocation UntypedRetype 6 (slot_at 0) ut_cap false ut_buffer s_ut =
  Some (EXCEPTION_NONE, Some (cap_endpoint_cap 0 true true true true (ut_block + 16)), None).
Proof. vm_compute. reflexivity. Qed.

Lemma decodeUntypedInvocation_safe_witness :
  wp (decodeUntypedInvocation UntypedRetype 6 (slot_at 0) ut_cap false ut_buffer) (fun ex s' =>
    ex = EXCEPTION_SYSCALL_ERROR -> ksCTEs s' = ksCTEs s_ut) s_ut.
Proof.
  eapply wp_mono.
  { apply (decodeUntypedInvocation_safe s_ut ut_lists (slot_at 0) 32 false 16 ut_block ut_thread ut_buffer
      UntypedRetype 6 false ut_ready). }
  intros ex s' [(_ & e & f & ->)|(s1 & t & us & o & base & n & node & off & reset & _ & _ & H)] He; [reflexivity|].
  destruct H as [[-> _]|(_ & -> & _)]; discriminate He.
Defined.
