(* ===== verification/FastpathOps.v ===== *)
(** * Rules for the fastpath proofs

    [lookup_fp] against the specification of capability lookup, states that
    differ from a given one where an IPC writes ([ipc_state]), maps that differ
    at two keys ([two_view]), and the transfer and the switch at the end of a
    kernel entry on such states. *)
From S2P Require Import Prelude Dll Structures CapOps CSpace VSpace Sched DomSched ReadyQueue Schedule SchedOps Mdb MdbInv Messages Objects EpQueue Ipc Delete Untyped CNodeInv MmuInv TcbInv Interrupt Domain Syscall Fastpath Concrete CSpaceThm MsgThm IpcThm.
From stdpp Require Import base list sets gmap.
#[local] Open Scope Z_scope.

Ltac wps := repeat wp_struct.

(** ** Capability lookup *)

(** CNodes have at least two slots. *)
Definition radix_pos (c : cap) : Prop :=
  match c with cap_cnode_cap radix _ _ _ => 0 < radix | _ => True end.

Lemma wshl_wshl x a b : 0 <= a -> 0 <= b -> wshl (wshl x a) b = wshl x (a + b).
Proof.
  intros Ha Hb. unfold wshl, wrap. rewrite !Z.shiftl_mul_pow2 by lia.
  rewrite Z.mul_mod_idemp_l by done. by rewrite Z.pow_add_r, Z.mul_assoc by lia.
Qed.

Lemma wshl_word x n : 0 <= n <= wordBits -> wshl x (wordBits - n) = (x mod 2 ^ n) * 2 ^ (wordBits - n).
Proof.
  unfold wordBits, wshl, wrap, word_modulus. intros Hn. rewrite Z.shiftl_mul_pow2 by lia.
  replace 64 with (n + (64 - n)) at 2 by lia. rewrite Z.pow_add_r by lia.
  rewrite Z.mul_mod_distr_r; [done|apply Z.pow_nonzero; lia..].
Qed.

(** The bits the fastpath extracts: [k] bits below the top [wordBits - n]. *)
Lemma fp_bits x n k : 0 <= k <= n -> n <= wordBits ->
  Z.shiftr (wshl x (wordBits - n)) (wordBits - k) = (x / 2 ^ (n - k)) mod 2 ^ k.
Proof.
  intros Hk Hn. rewrite (wshl_word x n) by lia. unfold wordBits in *.
  rewrite Z.shiftr_div_pow2 by lia. replace (64 - k) with ((n - k) + (64 - n)) by lia. rewrite Z.pow_add_r by lia.
  rewrite Z.div_mul_cancel_r by (apply Z.pow_nonzero; lia).
  replace n with ((n - k) + k) at 1 by lia. rewrite Z.pow_add_r by lia.
  rewrite Z.rem_mul_r by (apply Z.pow_nonzero || apply Z.pow_pos_nonneg; lia).
  assert (Hp : 0 < 2 ^ (n - k)) by (apply Z.pow_pos_nonneg; lia).
  rewrite Z.mul_comm, Z.div_add by lia. rewrite (Z.div_small (_ mod _)); [done|].
  by apply Z.mod_pos_bound.
Qed.

Lemma shiftr_top_range x k : is_word x -> 0 <= k <= wordBits -> 0 <= Z.shiftr x (wordBits - k) < 2 ^ k.
Proof.
  unfold wordBits, is_word, word_modulus. intros Hx Hk. rewrite Z.shiftr_div_pow2 by lia. split.
  - apply Z.div_pos; [lia|]. apply Z.pow_pos_nonneg; lia.
  - apply Z.div_lt_upper_bound; [apply Z.pow_pos_nonneg; lia|].
    rewrite <- Z.pow_add_r by lia. replace (64 - k + k) with 64 by lia. apply Hx.
Qed.

Section LookupFp.
Context (s : kstate) (cptr : Z).
Hypothesis Hwf : cspace_wf (ksCTEs s).
Hypothesis Hradix : forall p c, ksCTEs s !! p = Some c -> radix_pos (cte_cap c).

(** What a lookup should answer: the capability in the slot the address
    resolves to, or none. *)
Definition lookup_result (c : cap) (n : Z) (r : cap) : Prop :=
  (exists slot rem ct, resolves (ksCTEs s) c (cptr mod 2 ^ n) n slot rem /\
     ksCTEs s !! slot = Some ct /\ r = cte_cap ct) \/
  (r = cap_null_cap /\ forall slot rem, ~ resolves (ksCTEs s) c (cptr mod 2 ^ n) n slot rem).

Lemma wp_c_shl x n Q : n < wordBits -> Q (wshl x n) s -> wp (c_shl x n) Q s.
Proof. intros Hn HQ. unfold c_shl. wp_struct. apply wp_assert; [by apply Z.ltb_lt|]. by wp_struct. Qed.
Lemma wp_c_shr x n Q : n < wordBits -> Q (Z.shiftr x n) s -> wp (c_shr x n) Q s.
Proof. intros Hn HQ. unfold c_shr. wp_struct. apply wp_assert; [by apply Z.ltb_lt|]. by wp_struct. Qed.

Lemma lookup_fp_loop_spec fuel c n :
  cnode_cap_ok (ksCTEs s) c -> radix_pos c -> cap_is_cnode c = true ->
  0 < n <= wordBits -> n < Z.of_nat fuel ->
  wp (lookup_fp_loop fuel c cptr (wordBits - n)) (fun r s' => s' = s /\ lookup_result c n r) s.
Proof.
  revert c n. induction fuel as [|fuel IH]; intros c n Hok Hrp Hc Hn Hfuel; [lia|].
  destruct c as [| | | | |radix gb guard ptr| | | | | | | | | | | ]; try done. cbn [lookup_fp_loop].
  destruct Hok as (Hr & Hg & Hl & Hguard & Hslots). cbn in Hrp. unfold wordBits in *.
  assert (Hno : (gb + radix <= n -> guard <> (cptr / 2 ^ (n - gb)) mod 2 ^ gb) ->
    lookup_result (cap_cnode_cap radix gb guard ptr) n cap_null_cap).
  { intros Hne. right. split; [done|]. intros slot rem Hres.
    apply resolves_inv in Hres as (Hle & He & _); [|lia|lia|done]. by destruct (Hne Hle). }
  wp_struct. apply wp_c_shl; [unfold wordBits; lia|]. wp_struct.
  rewrite (wsub_small 64 gb) by (unfold is_word, word_modulus; lia).
  set (mm := negb (gb =? 0) && negb (Z.shiftr (wshl cptr (64 - n)) (64 - gb) =? guard)).
  eapply (wp_mono _ (fun b s' => b = mm /\ s' = s)).
  { unfold mm. destruct (Z.eqb_spec gb 0) as [->|Hgb]; [by apply wp_ret|]. cbn [negb andb].
    wp_struct. apply wp_c_shr; [unfold wordBits; lia|]. by apply wp_ret. }
  intros b s' [-> ->]. destruct mm eqn:Hmm.
  { apply wp_ret. split; [done|]. apply Hno. intros Hle.
    unfold mm in Hmm. apply andb_true_iff in Hmm as [_ Hm]. apply negb_true_iff, Z.eqb_neq in Hm.
    pose proof (fp_bits cptr n gb) as Hfp. unfold wordBits in Hfp. rewrite Hfp in Hm by lia. congruence. }
  wp_struct. apply wp_c_shl; [unfold wordBits; lia|]. wp_struct.
  rewrite wshl_wshl, (wsub_small 64 radix) by (unfold is_word, word_modulus; lia).
  apply wp_c_shr; [unfold wordBits; lia|].
  set (off := Z.shiftr _ _).
  assert (Hoff : 0 <= off < 2 ^ radix).
  { apply (shiftr_top_range _ radix); [apply wrap_is_word|unfold wordBits; lia]. }
  destruct (Hslots off Hoff) as [sl Hsl]. wp_struct. eapply wp_getCTE; [exact Hsl|].
  rewrite (wadd_small gb radix) by (unfold is_word, word_modulus; lia).
  rewrite wadd_small by (unfold is_word, word_modulus; lia).
  destruct (Z.ltb_spec 64 (64 - n + (gb + radix))) as [Hover|Hfit].
  { rewrite (proj2 (Z.ltb_ge _ 64)) by lia. cbn [andb]. apply wp_ret. split; [done|]. apply Hno. lia. }
  set (rest := n - gb - radix).
  assert (Hgd : (cptr / 2 ^ (n - gb)) mod 2 ^ gb = guard).
  { unfold mm in Hmm. destruct (Z.eqb_spec gb 0) as [->|Hgb].
    - change (2 ^ 0) with 1 in Hguard |- *. rewrite Z.mod_1_r. lia.
    - cbn [negb andb] in Hmm. apply negb_false_iff, Z.eqb_eq in Hmm.
      pose proof (fp_bits cptr n gb) as Hfp. unfold wordBits in Hfp. by rewrite Hfp in Hmm by lia. }
  assert (Hofe : off = (cptr / 2 ^ rest) mod 2 ^ radix).
  { unfold off. pose proof (fp_bits cptr (n - gb) radix) as Hfp. unfold wordBits in Hfp.
    replace (64 - n + gb) with (64 - (n - gb)) by lia. rewrite Hfp by lia. done. }
  pose proof (Addr.split cptr n gb radix) as Hsp. rewrite Hgd in Hsp. fold rest in Hsp.
  rewrite <- Hofe in Hsp. specialize (Hsp ltac:(lia) ltac:(lia) ltac:(lia)).
  pose proof (Z.mod_pos_bound cptr (2 ^ rest) (Addr.pow_pos rest ltac:(lia))) as Htail.
  destruct (Z.ltb_spec (64 - n + (gb + radix)) 64) as [Hmore|Hend].
  2: { cbn [andb]. apply wp_ret. split; [done|]. left. exists (cte_offset ptr off), 0, sl.
       split_and!; [|done..]. assert (Hz : rest = 0) by lia. rewrite Hz, Z.mod_1_r in Hsp.
       rewrite Hsp. replace n with (gb + radix) by lia. rewrite Z.mul_1_r, Z.add_0_r. by constructor. }
  assert (Hn' : n = gb + radix + rest) by lia. assert (Hrest : 0 < rest) by lia. cbn [andb].
  destruct (cap_is_cnode (cte_cap sl)) eqn:Hcn.
  - replace (64 - n + (gb + radix)) with (64 - rest) by lia.
    eapply wp_mono; [apply (IH (cte_cap sl) rest); [by eapply Hwf|by eapply Hradix|done|lia|lia]|].
    intros r s' [-> [(slot & rem & ct & Hres & Hct & ->)|[-> Hn0]]]; (split; [done|]).
    + left. exists slot, rem, ct. split_and!; [|done..]. rewrite Hsp. rewrite Hn' at 1.
      by eapply resolves_down.
    + right. split; [done|]. intros slot rem Hres.
      apply resolves_inv in Hres as (_ & _ & Hcase); [|lia|lia|done].
      cbn zeta in Hcase. fold rest in Hcase. rewrite <- Hofe in Hcase.
      destruct Hcase as [(? & _)|(_ & c' & Hc' & Hres)]; [lia|].
      assert (c' = sl) as -> by congruence. rewrite Hcn in Hres. by eapply Hn0.
  - apply wp_ret. split; [done|]. left. exists (cte_offset ptr off), rest, sl. split_and!; [|done..].
    rewrite Hsp. rewrite Hn' at 1. eapply resolves_stop; [done|lia|done..].
Qed.

Lemma wp_lookup_fp c :
  cnode_cap_ok (ksCTEs s) c -> radix_pos c ->
  wp (lookup_fp c cptr) (fun r s' => s' = s /\ lookup_result c wordBits r) s.
Proof.
  intros Hok Hr. unfold lookup_fp. destruct (cap_is_cnode c) eqn:Hc; cbn [negb].
  - apply (lookup_fp_loop_spec _ c wordBits); [done..|unfold wordBits; lia|unfold wordBits; lia].
  - apply wp_ret. split; [done|]. right. split; [done|]. intros slot rem H. by inversion H; subst.
Qed.
End LookupFp.

(** The ordinary lookup of an address that resolves. *)
Lemma wp_lookupSlot_resolved s thread c ct capptr slot rem Q :
  is_word capptr -> cspace_wf (ksCTEs s) ->
  ksCTEs s !! TCB_PTR_CTE_PTR thread tcbCTable = Some c ->
  resolves (ksCTEs s) (cte_cap c) (capptr mod 2 ^ wordBits) wordBits slot rem ->
  ksCTEs s !! slot = Some ct ->
  Q (EXCEPTION_NONE, slot) s -> wp (lookupSlot thread capptr) Q s.
Proof.
  intros Hw Hwf Hc Hres Hct HQ. unfold lookupSlot. wp_struct. eapply wp_getCTE; [exact Hc|].
  assert (Hn : 0 <= wordBits <= wordBits) by (unfold wordBits; lia).
  wp_struct. eapply wp_mono; [apply wp_resolveAddressBits; [done..|by eapply Hwf|done]|].
  intros r s' [(He & -> & Hr)|(_&_&_&_&Hno)]; [|by destruct (Hno slot rem)]. apply wp_ret.
  destruct (resolves_functional s (cte_cap c) capptr wordBits slot rem (ra_slot r) (ra_bitsRemaining r)
    Hw Hwf (Hwf _ _ Hc) Hn Hres Hr) as [-> _]. by rewrite He.
Qed.

(** The current thread's capability register names [c]. *)
Definition invoked (s : kstate) (tc : tcb) (c : cap) : Prop := exists c0 slot rem ct,
  ksCTEs s !! TCB_PTR_CTE_PTR (ksCurThread s) tcbCTable = Some c0 /\
  resolves (ksCTEs s) (cte_cap c0) (reg tc capRegister mod 2 ^ wordBits) wordBits slot rem /\
  ksCTEs s !! slot = Some ct /\ cte_cap ct = c.

(** ** Maps that differ at two keys *)
Section TwoView.
Context {A : Type} (a b : Z).
Hypothesis Hab : a <> b.

(** [m] is [m0] but for the values at [a] and [b]. *)
Definition two_view (m0 m : gmap Z A) (va vb : A) : Prop :=
  m !! a = Some va /\ m !! b = Some vb /\ forall y, y <> a -> y <> b -> m !! y = m0 !! y.

Lemma two_view_fst m0 m va vb va' : two_view m0 m va vb -> two_view m0 (<[a := va']> m) va' vb.
Proof.
  intros (Ha & Hb & Ho). split_and!; [apply lookup_insert_eq|by rewrite lookup_insert_ne|].
  intros y Hy1 Hy2. rewrite lookup_insert_ne by done. by apply Ho.
Qed.
Lemma two_view_snd m0 m va vb vb' : two_view m0 m va vb -> two_view m0 (<[b := vb']> m) va vb'.
Proof.
  intros (Ha & Hb & Ho). split_and!; [by rewrite lookup_insert_ne|apply lookup_insert_eq|].
  intros y Hy1 Hy2. rewrite lookup_insert_ne by done. by apply Ho.
Qed.
Lemma two_view_other m0 m va vb y v :
  y <> a -> y <> b -> two_view m0 m va vb -> two_view (<[y := v]> m0) (<[y := v]> m) va vb.
Proof.
  intros Hya Hyb (Ha & Hb & Ho). split_and!; [by rewrite lookup_insert_ne..|].
  intros z Hz1 Hz2. destruct (decide (z = y)) as [->|Hn]; [by rewrite !lookup_insert_eq|].
  rewrite !lookup_insert_ne by done. by apply Ho.
Qed.
Lemma two_view_refl m va vb : m !! a = Some va -> m !! b = Some vb -> two_view m m va vb.
Proof. by repeat split. Qed.

(** The values at the two keys decide the map. *)
Lemma two_view_fmap {B} (f : A -> B) m0 m m' va vb va' vb' :
  two_view m0 m va vb -> two_view m0 m' va' vb' -> f va = f va' -> f vb = f vb' -> f <$> m = f <$> m'.
Proof.
  intros (Ha & Hb & Ho) (Ha' & Hb' & Ho') Hfa Hfb. apply map_eq. intros y. rewrite !lookup_fmap.
  destruct (decide (y = a)) as [->|Hya]; [rewrite Ha, Ha'; cbn; by rewrite Hfa|].
  destruct (decide (y = b)) as [->|Hyb]; [rewrite Hb, Hb'; cbn; by rewrite Hfb|].
  by rewrite Ho, Ho'.
Qed.
Lemma two_view_eq m0 m m' va vb : two_view m0 m va vb -> two_view m0 m' va vb -> m = m'.
Proof.
  intros H H'. rewrite <- (map_fmap_id m), <- (map_fmap_id m'). by eapply two_view_fmap.
Qed.
End TwoView.

(** ** States that differ from [s] where an IPC writes *)
Section States.
Context (s : kstate).

(** Slots, threads, endpoints, current thread, FPU owner, hardware trace,
    scheduler action and extra capabilities. *)
Definition ipc_state (C : gmap Z cte) (T : gmap Z tcb) (E : gmap Z endpoint) (x o : Z)
    (tr : list machine_op) (act : Z) (xc : list Z) : kstate :=
  mk_kstate C T E (ksNTFNs s) (ksPTEs s) (ksASIDPools s) (armKSASIDTable s) (ksMem s)
    (ksReadyQueues s) (ksReadyQueuesL1Bitmap s) (ksReadyQueuesL2Bitmap s) x (ksIdleThread s) act
    (ksCurDomain s) (ksDomainTime s) (ksDomScheduleIdx s) (ksDomScheduleStart s) (ksDomSchedule s)
    (ksWorkUnitsCompleted s) o (intStateIRQNode s) (intStateIRQTable s) (current_lookup_fault s)
    (current_fault s) (current_syscall_error s) xc (ksIRQPending s) tr.

Lemma ipc_state_id :
  s = ipc_state (ksCTEs s) (ksTCBs s) (ksEPs s) (ksCurThread s) (ksCurFPUOwner s) (ksMachine s)
        (ksSchedulerAction s) (current_extra_caps s).
Proof. unfold ipc_state. destruct s. reflexivity. Qed.

Lemma ipc_enter {A} (m : K A) Q :
  wp m Q (ipc_state (ksCTEs s) (ksTCBs s) (ksEPs s) (ksCurThread s) (ksCurFPUOwner s) (ksMachine s)
    (ksSchedulerAction s) (current_extra_caps s)) -> wp m Q s.
Proof. by rewrite <- ipc_state_id. Qed.

Context (C : gmap Z cte) (T : gmap Z tcb) (E : gmap Z endpoint) (x o : Z)
  (tr : list machine_op) (act : Z) (xc : list Z).
Notation st := (ipc_state C T E x o tr act xc).

Lemma ipc_getTCB p t Q : T !! p = Some t -> Q t st -> wp (getTCB p) Q st.
Proof. intros H HQ. by eapply wp_getTCB. Qed.
Lemma ipc_modTCB p f t Q :
  T !! p = Some t -> Q tt (ipc_state C (<[p := f t]> T) E x o tr act xc) -> wp (modTCB p f) Q st.
Proof. intros H HQ. by eapply wp_modTCB. Qed.
Lemma ipc_getCTE p t Q : C !! p = Some t -> Q t st -> wp (getCTE p) Q st.
Proof. intros H HQ. by eapply wp_getCTE. Qed.
Lemma ipc_modCTE p f t Q :
  C !! p = Some t -> Q tt (ipc_state (<[p := f t]> C) T E x o tr act xc) -> wp (modCTE p f) Q st.
Proof. intros H HQ. by eapply wp_modCTE. Qed.
Lemma ipc_getEP p t Q : E !! p = Some t -> Q t st -> wp (getEP p) Q st.
Proof. intros H HQ. by eapply wp_getEP. Qed.
Lemma ipc_modEP p f t Q :
  E !! p = Some t -> Q tt (ipc_state C T (<[p := f t]> E) x o tr act xc) -> wp (modEP p f) Q st.
Proof. intros H HQ. by eapply wp_modEP. Qed.
Lemma ipc_doMachineOp op Q :
  Q tt (ipc_state C T E x o (op :: tr) act xc) -> wp (doMachineOp op) Q st.
Proof. done. Qed.
Lemma ipc_setSchedulerAction a Q :
  Q tt (ipc_state C T E x o tr a xc) -> wp (setSchedulerAction a) Q st.
Proof. done. Qed.
Lemma ipc_set_extra_caps l Q :
  Q tt (ipc_state C T E x o tr act l) -> wp (set_extra_caps l) Q st.
Proof. done. Qed.
Lemma ipc_switch y Q :
  Q tt (ipc_state C T E y o tr act xc) -> wp (modify (set_ksCurThread (fun _ => y))) Q st.
Proof. done. Qed.
End States.

(** [m] only reads, and reads the same in [s] and [s']. *)
Definition same_read {A} (m : K A) (s s' : kstate) : Prop :=
  match m s with Some (a, t) => t = s /\ m s' = Some (a, s') | None => m s' = None end.

Section SameRead.
Context (s s' : kstate).

Lemma same_read_bind {A B} (m : K A) (k : A -> K B) :
  same_read m s s' -> (forall a, same_read (k a) s s') -> same_read (bind m k) s s'.
Proof.
  unfold same_read, bind. destruct (m s) as [[a t]|]; [intros [-> ->] Hk; apply Hk|by intros ->].
Qed.
Lemma same_read_ret {A} (a : A) : same_read (ret a) s s'.
Proof. done. Qed.
Lemma same_read_gets {A} (f : kstate -> A) : f s' = f s -> same_read (gets f) s s'.
Proof. intros H. unfold same_read, gets. by rewrite H. Qed.
Lemma same_read_assert b : same_read (assert b) s s'.
Proof. by destruct b. Qed.
Lemma same_read_option {A} (o : option A) : same_read (from_option_M o) s s'.
Proof. by destruct o. Qed.

(** The test of the priority reads the ready-queue bitmap only. *)
Lemma same_read_isHighestPrio d p :
  ksReadyQueuesL1Bitmap s' = ksReadyQueuesL1Bitmap s -> ksReadyQueuesL2Bitmap s' = ksReadyQueuesL2Bitmap s ->
  same_read (isHighestPrio d p) s s'.
Proof.
  intros H1 H2. unfold isHighestPrio, getHighestPrio, invert_l1index, getL1, getL2.
  repeat first [apply same_read_bind; [|intros ?] | apply same_read_ret | apply same_read_assert
    | apply same_read_option | apply same_read_gets; by rewrite ?H1, ?H2 | case_match].
Qed.
End SameRead.

Lemma ipc_isHighestPrio s C T E x o tr act xc d p b Q :
  isHighestPrio d p s = Some (b, s) ->
  Q b (ipc_state s C T E x o tr act xc) ->
  wp (isHighestPrio d p) Q (ipc_state s C T E x o tr act xc).
Proof.
  intros Hs HQ. pose proof (same_read_isHighestPrio s (ipc_state s C T E x o tr act xc) d p
    eq_refl eq_refl) as H. unfold same_read in H. rewrite Hs in H. destruct H as [_ H].
  unfold wp. by rewrite H.
Qed.

(** The FPU is restored as [fpu_restore] says. *)
Lemma ipc_lazyFPURestore s C T E x o tr act xc thread t Q :
  T !! thread = Some t ->
  (let r := fpu_restore (tcbFlags t) thread o tr in Q tt (ipc_state s C T E x r.1 r.2 act xc)) ->
  wp (lazyFPURestore thread) Q (ipc_state s C T E x o tr act xc).
Proof.
  intros Ht. unfold lazyFPURestore, fpu_restore, fpu_switch. intros HQ. wp_struct. eapply ipc_getTCB; [exact Ht|].
  destruct (negb _); [by apply ipc_doMachineOp|].
  unfold nativeThreadUsingFPU. do 2 wp_struct. cbn [ksCurFPUOwner ipc_state] in *.
  destruct (thread =? o); [by apply ipc_doMachineOp|]. unfold switchLocalFpuOwner.
  wp_struct. apply ipc_doMachineOp. do 2 wp_struct. cbn [ksCurFPUOwner ipc_state]. wp_struct.
  destruct (negb (o =? 0)); [apply ipc_doMachineOp|wp_struct]; wp_struct;
    destruct (negb (thread =? 0)); apply ipc_doMachineOp; exact HQ.
Qed.

(** A lookup of a thread's buffer only reads. *)
Lemma wp_lookupIPCBuffer_any s b thread Q :
  is_Some (ksTCBs s !! thread) -> is_Some (ksCTEs s !! TCB_PTR_CTE_PTR thread tcbBuffer) ->
  (forall v, Q v s) -> wp (lookupIPCBuffer b thread) Q s.
Proof.
  intros [t Ht] [c Hc] HQ. unfold lookupIPCBuffer. wp_struct. eapply wp_getTCB; [exact Ht|].
  wp_struct. eapply wp_getCTE; [exact Hc|].
  repeat case_match; apply wp_ret, HQ.
Qed.

(** Without extra capabilities the lookup of them clears the array. *)
Lemma wp_lookupExtraCaps_none s thread buffer info Q :
  seL4_MessageInfo_get_extraCaps info = 0 ->
  Q EXCEPTION_NONE (set_current_extra_caps (fun _ => []) s) -> wp (lookupExtraCaps thread buffer info) Q s.
Proof.
  intros H0 HQ. unfold lookupExtraCaps. destruct (buffer =? 0).
  - unfold set_extra_caps. by repeat wp_struct.
  - rewrite H0. cbn [lookupExtraCaps_loop Z.to_nat]. change (0 <? seL4_MsgMaxExtraCaps) with true. cbv iota.
    by repeat wp_struct.
Qed.

(** The message registers of [src] that a transfer of [n] words copies. *)
Fixpoint copied (n : nat) (src dst : gmap Z Z) : gmap Z Z :=
  match n with
  | O => dst
  | S n' => <[2 + Z.of_nat n' := default 0 (src !! (2 + Z.of_nat n'))]> (copied n' src dst)
  end.

Section Pair.
Context (s : kstate) (cur dest : Z) (Hne : cur <> dest) (T0 : gmap Z tcb).
Context (C : gmap Z cte) (E : gmap Z endpoint) (x o : Z) (tr : list machine_op) (act : Z) (xc : list Z).
Notation tv := (two_view cur dest T0).
Notation st T := (ipc_state s C T E x o tr act xc).

Lemma pair_modCur T tc td f Q :
  tv T tc td -> (forall T', tv T' (f tc) td -> Q tt (st T')) -> wp (modTCB cur f) Q (st T).
Proof. intros H HQ. eapply ipc_modTCB; [apply H|]. apply HQ. by eapply two_view_fst. Qed.
Lemma pair_modDest T tc td f Q :
  tv T tc td -> (forall T', tv T' tc (f td) -> Q tt (st T')) -> wp (modTCB dest f) Q (st T).
Proof. intros H HQ. eapply ipc_modTCB; [apply H|]. apply HQ. by eapply two_view_snd. Qed.
Lemma pair_getCur T tc td Q : tv T tc td -> Q tc (st T) -> wp (getTCB cur) Q (st T).
Proof. intros H. eapply ipc_getTCB, H. Qed.
Lemma pair_getDest T tc td Q : tv T tc td -> Q td (st T) -> wp (getTCB dest) Q (st T).
Proof. intros H. eapply ipc_getTCB, H. Qed.

Lemma pair_copy_loop T tc td k (body : Z -> K unit) Q :
  tv T tc td -> 0 <= k <= n_msgRegisters ->
  (forall i, 0 <= i < n_msgRegisters ->
     body i = (let* v := getRegister cur (2 + i) in setRegister dest (2 + i) v)) ->
  (forall T', tv T' tc (set_tcbContext (copied (Z.to_nat k) (tcbContext tc)) td) -> Q tt (st T')) ->
  wp (for_ 0 k body) Q (st T).
Proof.
  intros HT Hk Hbody HQ. unfold n_msgRegisters in *.
  apply (wp_for 0 k body (fun i s' => exists T', s' = st T' /\
    tv T' tc (set_tcbContext (copied (Z.to_nat i) (tcbContext tc)) td))); [lia| | |].
  - exists T. split; [done|]. by destruct td.
  - intros i s' Hi (T' & -> & HT'). rewrite Hbody by lia. unfold getRegister, setRegister.
    do 2 wp_struct. eapply pair_getCur; [exact HT'|]. wp_struct. eapply pair_modDest; [exact HT'|].
    intros T'' HT''. exists T''. split; [done|].
    replace (Z.to_nat (i + 1)) with (S (Z.to_nat i)) by lia. cbn [copied].
    by rewrite Z2Nat.id by lia.
  - intros s' (T' & -> & HT'). by apply HQ.
Qed.
End Pair.

(** ** Switching to the partner *)
Lemma same_read_findMapForASID s s' asid :
  ksASIDPools s' = ksASIDPools s -> armKSASIDTable s' = armKSASIDTable s ->
  same_read (findMapForASID asid) s s'.
Proof.
  intros H1 H2. unfold findMapForASID, getPool, asid_table.
  repeat first [apply same_read_bind; [|intros ?] | apply same_read_ret
    | apply same_read_option | apply same_read_gets; by rewrite ?H1, ?H2 | case_match].
Qed.

(** [dest] has a valid address space: [root] under the identifier [asid]. *)
Record valid_vspace (s : kstate) (dest asid root : Z) : Prop := {
  vv_slot : exists cv, ksCTEs s !! TCB_PTR_CTE_PTR dest tcbVTable = Some cv /\
    cte_cap cv = cap_vspace_cap asid root true;
  vv_asid : 0 <= asid < 2 ^ 16;
  vv_map : findMapForASID asid s = Some (asid_map_vspace root, s)
}.

(** The owner of the FPU and the hardware operations after the switch. *)
Definition switch_effect (td : tcb) (dest asid root o : Z) (tr : list machine_op) : Z * list machine_op :=
  fpu_restore (tcbFlags td) dest o (op_setCurrentUserVSpaceRoot asid (addrFromPPtr root) :: tr).

Section Switch.
Context (s : kstate) (cur dest asid root : Z) (tc td : tcb).
Context (C : gmap Z cte) (T : gmap Z tcb) (E : gmap Z endpoint) (o : Z) (tr : list machine_op) (xc : list Z).
Hypothesis Hcur : T !! cur = Some tc.
Hypothesis Hdest : T !! dest = Some td.
Hypothesis Hv : valid_vspace s dest asid root.
Notation r := (switch_effect td dest asid root o tr).

(** The slot of the root table is still there. *)
Definition vslot_kept : Prop :=
  cte_cap <$> C !! TCB_PTR_CTE_PTR dest tcbVTable = cte_cap <$> ksCTEs s !! TCB_PTR_CTE_PTR dest tcbVTable.
Hypothesis Hvs : vslot_kept.

Lemma ipc_setVMRoot act Q :
  Q tt (ipc_state s C T E cur o (op_setCurrentUserVSpaceRoot asid (addrFromPPtr root) :: tr) act xc) ->
  wp (setVMRoot dest) Q (ipc_state s C T E cur o tr act xc).
Proof.
  intros HQ. destruct (vv_slot _ _ _ _ Hv) as (cv & Hcv & Hcap). unfold vslot_kept in Hvs.
  rewrite Hcv in Hvs. destruct (C !! _) as [cv'|] eqn:Hc; [|done]. apply (inj Some) in Hvs.
  unfold setVMRoot, findVSpaceForASID. wp_struct. eapply ipc_getCTE; [exact Hc|]. rewrite Hvs, Hcap.
  pose proof (same_read_findMapForASID s (ipc_state s C T E cur o tr act xc) asid eq_refl eq_refl) as Hm.
  unfold same_read in Hm. rewrite (vv_map _ _ _ _ Hv) in Hm. destruct Hm as [_ Hm].
  do 2 wp_struct. unfold wp at 1. rewrite Hm. wp_struct. rewrite Z.eqb_refl.
  unfold armv_contextSwitch. by apply ipc_doMachineOp.
Qed.

Lemma ipc_switchToThread_fp act Q :
  Q tt (ipc_state s C T E dest r.1 r.2 act xc) ->
  wp (switchToThread_fp dest root asid) Q (ipc_state s C T E cur o tr act xc).
Proof.
  intros HQ. unfold switchToThread_fp, armv_contextSwitch_HWASID. wp_struct. apply ipc_doMachineOp.
  change 0xffff with (Z.ones 16). rewrite Z.land_ones by done.
  rewrite Z.mod_small by apply (vv_asid _ _ _ _ Hv).
  wp_struct. eapply ipc_lazyFPURestore; [exact Hdest|]. by apply ipc_switch.
Qed.

Hypothesis Hne : cur <> dest.
Hypothesis Hact : dest <> SchedulerAction_ResumeCurrentThread /\ dest <> SchedulerAction_ChooseNewThread.
Hypothesis Hstop : isRunnable_tcb tc = false.
Hypothesis Hrun : tsType_of td = ThreadState_Running.
Hypothesis Hnq : tcbQueued (tcbState td) = false.
Hypothesis Hidle : cur <> ksIdleThread s.
Hypothesis Hdom : ksCurDomain s = 0.
Hypothesis Hprio : tcbPriority td < tcbPriority tc -> isHighestPrio 0 (tcbPriority td) s = Some (true, s).

(** The ordinary exit from the kernel switches to the thread chosen. *)
Lemma ipc_kernel_exit Q :
  Q EXCEPTION_NONE (ipc_state s C T E dest r.1 r.2 SchedulerAction_ResumeCurrentThread xc) ->
  wp kernel_exit Q (ipc_state s C T E cur o tr dest xc).
Proof.
  intros HQ. destruct Hact as [Ha0 Ha1].
  unfold kernel_exit, schedule. do 4 wp_struct. cbn [ksSchedulerAction ipc_state].
  rewrite (proj2 (Z.eqb_neq _ _) Ha0). cbn [negb].
  do 2 wp_struct. cbn [ksCurThread ipc_state]. unfold isSchedulable, isRunnable.
  do 2 wp_struct. eapply ipc_getTCB; [exact Hcur|]. wp_struct. rewrite Hstop. do 2 wp_struct.
  rewrite (proj2 (Z.eqb_neq _ _) Ha1). do 2 wp_struct. eapply ipc_getTCB; [exact Hdest|].
  wp_struct. unfold isRunnable_tcb at 1. rewrite Hrun. do 4 wp_struct. cbn [ksIdleThread ipc_state].
  wp_struct. eapply ipc_getTCB; [exact Hdest|]. wp_struct. eapply ipc_getTCB; [exact Hcur|].
  rewrite (proj2 (Z.eqb_neq _ _) Hidle). cbn [orb]. do 2 wp_struct. cbn [ksCurDomain ipc_state].
  rewrite Hdom. wp_struct.
  apply (wp_mono _ (fun b s' => b = true /\ s' = ipc_state s C T E cur o tr dest xc)).
  { destruct (Z.ltb_spec (tcbPriority td) (tcbPriority tc)); [|by wp_struct].
    by apply (ipc_isHighestPrio _ _ _ _ _ _ _ _ _ _ _ true); [apply Hprio|]. }
  intros b s' [-> ->]. rewrite andb_false_r. cbn [andb]. wp_struct.
  apply wp_assert; [apply negb_true_iff, Z.eqb_neq; congruence|].
  unfold switchToThread, Arch_switchToThread. wp_struct. apply ipc_setVMRoot.
  wp_struct. eapply ipc_lazyFPURestore; [exact Hdest|]. cbv zeta.
  unfold tcbSchedDequeue. do 2 wp_struct. eapply ipc_getTCB; [exact Hdest|]. rewrite Hnq. wp_struct. apply ipc_switch.
  apply ipc_setSchedulerAction. unfold activateThread. do 3 wp_struct. cbn [ksCurThread ipc_state].
  wp_struct. eapply ipc_getTCB; [exact Hdest|]. rewrite Hrun. do 2 wp_struct. exact HQ.
Qed.
End Switch.

(** ** Short messages *)
Lemma bf_set_same w sh bits :
  0 <= sh -> 0 < bits -> sh + bits <= 64 -> is_word w -> bf_set w sh bits (bf_get w sh bits) = w.
Proof.
  intros Hs Hb Hf Hw. apply Z.bits_inj'. intros i Hi. destruct (Z.ltb_spec i 64) as [Hi64|Hi64].
  - rewrite bf_set_bits by lia. destruct (Z.leb_spec sh i), (Z.ltb_spec i (sh + bits)); cbn; try done.
    rewrite bf_get_bits, (proj2 (Z.ltb_lt _ _)) by (done || lia). cbn. f_equal. lia.
  - assert (Hhigh : forall v, is_word v -> Z.testbit v i = false).
    { intros v Hv. destruct (decide (v = 0)) as [->|]; [apply Z.bits_0|]. unfold is_word, word_modulus in Hv.
      apply Z.bits_above_log2; [lia|]. apply Z.log2_lt_pow2; [lia|].
      eapply Z.lt_le_trans; [apply Hv|]. apply Z.pow_le_mono_r; lia. }
    rewrite !Hhigh; [done|done|by apply bf_set_word].
Qed.

(** What the fastpath's check of the message word means. *)
Record short_message (w : Z) : Prop := {
  sm_length : 0 <= seL4_MessageInfo_get_length w <= n_msgRegisters;
  sm_extra : seL4_MessageInfo_get_extraCaps w = 0;
  sm_raw : messageInfoFromWord w = w;
  sm_sent : seL4_MessageInfo_set_length
      (seL4_MessageInfo_set_capsUnwrapped (seL4_MessageInfo_set_extraCaps w 0) 0)
      (seL4_MessageInfo_get_length w) = seL4_MessageInfo_set_capsUnwrapped w 0
}.

Lemma fastpath_mi_check_short w : is_word w -> fastpath_mi_check w = false -> short_message w.
Proof.
  intros Hw Hc. unfold fastpath_mi_check in Hc. apply Z.ltb_ge in Hc.
  rewrite land_MASK in Hc by (unfold wordBits; lia). change (2 ^ (7 + 2)) with 512 in Hc.
  assert (Hl : seL4_MessageInfo_get_length w = w mod 128).
  { unfold seL4_MessageInfo_get_length, bf_get. rewrite Z.shiftr_0_r.
    by rewrite land_MASK by (unfold wordBits; lia). }
  assert (He : seL4_MessageInfo_get_extraCaps w = (w / 128) mod 4).
  { unfold seL4_MessageInfo_get_extraCaps, bf_get. rewrite Z.shiftr_div_pow2 by lia.
    by rewrite land_MASK by (unfold wordBits; lia). }
  pose proof (Z.rem_mul_r w 128 4 ltac:(lia) ltac:(lia)) as Hsplit. change (128 * 4) with 512 in Hsplit.
  pose proof (Z.mod_pos_bound w 128 ltac:(lia)). pose proof (Z.mod_pos_bound (w / 128) 4 ltac:(lia)).
  assert (Hlen : 0 <= seL4_MessageInfo_get_length w <= 4) by (rewrite Hl; lia).
  assert (Hext : seL4_MessageInfo_get_extraCaps w = 0) by (rewrite He; lia).
  split; [done|done|..].
  - unfold messageInfoFromWord, seL4_MsgMaxLength. by rewrite (proj2 (Z.ltb_ge _ _)) by lia.
  - assert (Hx : seL4_MessageInfo_set_extraCaps w 0 = w).
    { rewrite <- Hext. by apply bf_set_same. }
    rewrite Hx. set (w' := seL4_MessageInfo_set_capsUnwrapped w 0).
    assert (Hw' : is_word w') by (by apply bf_set_word).
    assert (seL4_MessageInfo_get_length w = seL4_MessageInfo_get_length w') as ->.
    { symmetry. unfold seL4_MessageInfo_get_length, w', seL4_MessageInfo_set_capsUnwrapped.
      by apply bf_get_set_other; [lia..|done|right; lia]. }
    by apply bf_set_same.
Qed.

(** The partner after the delivery of a message: its registers. *)
Definition delivered (badge w : Z) (tc td : tcb) : tcb :=
  set_tcbContext (fun R => <[badgeRegister := badge]>
    (<[msgInfoRegister := wordFromMessageInfo (seL4_MessageInfo_set_capsUnwrapped w 0)]>
      (copied (Z.to_nat (seL4_MessageInfo_get_length w)) (tcbContext tc) R))) td.

Section Transfer.
Context (s : kstate) (cur dest : Z) (Hne : cur <> dest) (T0 T : gmap Z tcb) (tc td : tcb).
Context (C : gmap Z cte) (E : gmap Z endpoint) (x o : Z) (tr : list machine_op) (act : Z) (xc : list Z).
Hypothesis HT : two_view cur dest T0 T tc td.
Notation w := (reg tc msgInfoRegister).
Hypothesis Hw : short_message w.

(** The ordinary transfer of a short message without capabilities. *)
Lemma ipc_doIPCTransfer ep badge grant Q :
  is_Some (C !! TCB_PTR_CTE_PTR cur tcbBuffer) -> is_Some (C !! TCB_PTR_CTE_PTR dest tcbBuffer) ->
  is_NullFault (tcbFault tc) = true ->
  (forall T', two_view cur dest T0 T' tc (delivered badge w tc td) ->
     Q tt (ipc_state s C T' E x o tr act [])) ->
  wp (doIPCTransfer cur ep badge grant dest) Q (ipc_state s C T E x o tr act xc).
Proof.
  intros Hb1 Hb2 Hnf HQ. destruct Hw as [Hlen Hext Hraw Hsent].
  unfold doIPCTransfer. wp_struct. apply wp_lookupIPCBuffer_any; [by eexists; apply HT|done|]. intros rbuf.
  wp_struct. eapply ipc_getTCB; [apply HT|]. rewrite Hnf.
  wp_struct. apply wp_lookupIPCBuffer_any; [by eexists; apply HT|done|]. intros sbuf.
  unfold doNormalTransfer, getRegister. do 2 wp_struct. eapply ipc_getTCB; [apply HT|]. do 2 wp_struct.
  rewrite Hraw.
  apply (wp_mono _ (fun _ s' => s' = ipc_state s C T E x o tr act [])).
  { destruct grant; [|by apply ipc_set_extra_caps].
    wp_struct. apply wp_lookupExtraCaps_none; [done|]. by change (negb (is_none EXCEPTION_NONE)) with false. }
  intros [] s' ->. wp_struct. unfold copyMRs. rewrite Z.min_l by apply Hlen. wp_struct.
  eapply pair_copy_loop; [done|exact HT|exact Hlen| |].
  { intros i Hi. unfold n_msgRegisters in Hi.
    assert (i = 0 \/ i = 1 \/ i = 2 \/ i = 3) as Hc by lia. by destruct Hc as [->|[->|[->| ->]]]. }
  intros T1 HT1.
  apply (wp_mono _ (fun n s' => n = seL4_MessageInfo_get_length w /\ s' = ipc_state s C T1 E x o tr act [])).
  { destruct (_ || _); [by wp_struct|]. wp_struct. unfold for_. rewrite Z.sub_diag. cbn [for_loop Z.to_nat].
    repeat wp_struct. by rewrite Z.max_id. }
  intros n s' [-> ->]. unfold transferCaps, excaprefs. do 3 wp_struct.
  cbn [current_extra_caps ipc_state nth_error Z.to_nat orb]. wp_struct. rewrite Hsent.
  unfold setRegister. wp_struct. eapply pair_modDest; [done|exact HT1|]. intros T2 HT2.
  eapply pair_modDest; [done|exact HT2|]. intros T3 HT3. by apply HQ.
Qed.

(** The fast transfer. *)
Lemma ipc_fastpath_copy_mrs Q :
  (forall T', two_view cur dest T0 T' tc
     (set_tcbContext (copied (Z.to_nat (seL4_MessageInfo_get_length w)) (tcbContext tc)) td) ->
     Q tt (ipc_state s C T' E x o tr act xc)) ->
  wp (fastpath_copy_mrs (seL4_MessageInfo_get_length w) cur dest) Q (ipc_state s C T E x o tr act xc).
Proof.
  intros HQ. unfold fastpath_copy_mrs. wp_struct. eapply wp_from_option; [reflexivity|].
  eapply pair_copy_loop; [done|exact HT|apply Hw| |exact HQ].
  intros i Hi. unfold n_msgRegisters in Hi. by rewrite wadd_small by (unfold is_word, word_modulus; lia).
Qed.
End Transfer.

(** A state after the switch to [x]: the threads [a] and [b] are as given, the
    slots satisfy [P], the rest is fixed. *)
Definition ipc_done (s : kstate) (a b : Z) (T0 : gmap Z tcb) (P : gmap Z cte -> Prop) (E : gmap Z endpoint)
    (x : Z) (r : Z * list machine_op) (ta tb : tcb) (xc : list Z) (s' : kstate) : Prop :=
  exists T C, two_view a b T0 T ta tb /\ P C /\
    s' = ipc_state s C T E x r.1 r.2 SchedulerAction_ResumeCurrentThread xc.

(** Writing one of two slots. *)
Section SlotPair.
Context (s : kstate) (a b : Z) (Hab : a <> b) (C0 C : gmap Z cte) (ca cb : cte).
Context (T : gmap Z tcb) (E : gmap Z endpoint) (x o : Z) (tr : list machine_op) (act : Z) (xc : list Z).
Hypothesis HC : two_view a b C0 C ca cb.
Notation st C := (ipc_state s C T E x o tr act xc).

Lemma pair_modSlotA f Q :
  (forall C', two_view a b C0 C' (f ca) cb -> Q tt (st C')) -> wp (modCTE a f) Q (st C).
Proof. intros HQ. eapply ipc_modCTE; [apply HC|]. apply HQ. by eapply two_view_fst. Qed.
Lemma pair_modSlotB f Q :
  (forall C', two_view a b C0 C' ca (f cb) -> Q tt (st C')) -> wp (modCTE b f) Q (st C).
Proof. intros HQ. eapply ipc_modCTE; [apply HC|]. apply HQ. by eapply two_view_snd. Qed.
End SlotPair.

Lemma two_view_link a b p f m0 m va vb :
  p <> a -> p <> b -> two_view a b m0 m va vb -> two_view a b (link_at p f m0) (link_at p f m) va vb.
Proof.
  intros Ha Hb H. unfold link_at. case_decide; [done|].
  assert (m !! p = m0 !! p) as -> by (by apply H). destruct (m0 !! p); [by apply two_view_other|done].
Qed.
