(* ===== verification/FastpathThm.v ===== *)
(** * The fastpath against the ordinary handlers

    A call or a reply that takes the fastpath leaves the state that
    [handleSyscall] leaves, up to fields that nothing reads. *)
From S2P Require Import Prelude Dll Structures CapOps CSpace VSpace Sched DomSched ReadyQueue Schedule SchedOps Mdb MdbInv Messages Objects EpQueue Ipc Delete Untyped CNodeInv MmuInv TcbInv Interrupt Domain Syscall Fastpath Concrete CSpaceThm MsgThm IpcThm VSpaceThm FastpathOps.
From stdpp Require Import base list sets gmap.
#[local] Open Scope Z_scope.

(** ** The handshake of a call *)
Section Call.
Context (s : kstate) (dest ep asid root : Z) (tc td : tcb) (e : endpoint) (rp : Z).
Notation cur := (ksCurThread s).
Notation replySlot := (TCB_PTR_CTE_PTR cur tcbReply).
Notation callerSlot := (TCB_PTR_CTE_PTR dest tcbCaller).
Notation next := (tcbEPNext td).

(** The situation in which a call can be delivered at once: [dest] is the
    first thread waiting on [ep], the caller's reply capability is unused and
    the partner has no caller. *)
Record call_ready : Prop := {
  cr_cur : ksTCBs s !! cur = Some tc;
  cr_dest : ksTCBs s !! dest = Some td;
  cr_ne : cur <> dest;
  cr_notaction : dest <> SchedulerAction_ResumeCurrentThread /\ dest <> SchedulerAction_ChooseNewThread;
  cr_run : tsType_of tc = ThreadState_Running;
  cr_fault : tcbFault tc = seL4_Fault_NullFault;
  cr_queued : tcbQueued (tcbState td) = false;
  cr_ep : ksEPs s !! ep = Some e;
  cr_recv : ep_state e = EPState_Recv;
  cr_head : epQueue_head e = dest;
  cr_prev : tcbEPPrev td = 0;
  cr_next : next <> 0 -> is_Some (ksTCBs s !! next) /\ next <> cur /\ next <> dest;
  cr_reply : ksCTEs s !! replySlot =
    Some (mk_cte (cap_reply_cap true true cur) (mdb_node_new 0 true true rp));
  cr_caller : ksCTEs s !! callerSlot = Some null_cte;
  cr_buffers : is_Some (ksCTEs s !! TCB_PTR_CTE_PTR cur tcbBuffer) /\
    is_Some (ksCTEs s !! TCB_PTR_CTE_PTR dest tcbBuffer);
  cr_vspace : valid_vspace s dest asid root;
  cr_idle : cur <> ksIdleThread s;
  cr_dom : ksCurDomain s = 0 /\ tcbDomain td = 0;
  cr_action : ksSchedulerAction s = SchedulerAction_ResumeCurrentThread;
  cr_message : is_word (reg tc msgInfoRegister) /\ short_message (reg tc msgInfoRegister);
  cr_prio : tcbPriority td < tcbPriority tc -> isHighestPrio 0 (tcbPriority td) s = Some (true, s)
}.
Hypothesis Hr : call_ready.

(** The endpoint after the partner has left it. *)
Definition ep_after : endpoint :=
  if next =? 0 then mk_endpoint 0 0 EPState_Idle else mk_endpoint next (epQueue_tail e) EPState_Recv.

(** The two slots after the reply capability has been handed over. *)
Definition slots_after (C : gmap Z cte) : Prop :=
  two_view replySlot callerSlot (ksCTEs s) C
    (mk_cte (cap_reply_cap true true cur) (mdb_node_new callerSlot true true rp))
    (mk_cte (cap_reply_cap (blockingIPCCanGrant (tcbState td)) false cur)
       (mdb_node_new 0 false false replySlot)).

Lemma slots_ne : replySlot <> callerSlot.
Proof.
  intros H. pose proof (cr_reply Hr) as Hp. rewrite H, (cr_caller Hr) in Hp. discriminate Hp.
Qed.

(** The threads but for the caller and the partner. *)
Notation T0 := (link_at next (set_tcbEPPrev (fun _ => 0)) (ksTCBs s)).
Notation tv := (two_view cur dest T0).
Notation E1 := (<[ep := ep_after]> (ksEPs s)).

(** The reply capability is handed over. *)
Lemma ipc_setupCallerCap o tr xc T tc1 td1 Q :
  tv T tc1 td1 ->
  (forall T' C', tv T' (upd_state (set_tsType (fun _ => ThreadState_BlockedOnReply)) tc1) td1 -> slots_after C' ->
     Q tt (ipc_state s C' T' E1 cur o tr dest xc)) ->
  wp (setupCallerCap cur dest (blockingIPCCanGrant (tcbState td)))
    Q (ipc_state s (ksCTEs s) T E1 cur o tr dest xc).
Proof.
  intros HT HQ. pose proof slots_ne as Hsn. destruct (cr_notaction Hr) as [Ha _].
  unfold setupCallerCap, setThreadState. wp_struct. wp_struct.
  eapply pair_modCur; [apply (cr_ne Hr)|exact HT|]. intros T' HT'.
  unfold scheduleTCB. do 4 wp_struct. cbn [ksCurThread ksSchedulerAction ipc_state].
  rewrite Z.eqb_refl, (proj2 (Z.eqb_neq _ _) Ha). cbn [andb]. do 2 wp_struct.
  eapply ipc_getCTE; [exact (cr_reply Hr)|]. cbn [cte_cap]. wp_struct.
  do 2 wp_struct. wp_struct. wp_struct. apply wp_assert; [apply Z.eqb_refl|].
  wp_struct. eapply ipc_getCTE; [exact (cr_caller Hr)|]. do 2 wp_struct.
  unfold cteInsert. wp_struct. eapply ipc_getCTE; [exact (cr_reply Hr)|]. cbn [cte_cap cteMDBNode mdbNext].
  wp_struct. eapply wp_from_option; [reflexivity|]. wp_struct. eapply ipc_getCTE; [exact (cr_caller Hr)|].
  do 4 wp_struct. cbn [setUntypedCapAsFull]. do 2 wp_struct.
  assert (Hv : two_view replySlot callerSlot (ksCTEs s) (ksCTEs s)
    (mk_cte (cap_reply_cap true true cur) (mdb_node_new 0 true true rp)) null_cte).
  { apply two_view_refl; [apply (cr_reply Hr)|apply (cr_caller Hr)]. }
  unfold setCap, setMDB, setNext.
  wp_struct. eapply pair_modSlotB; [exact Hsn|exact Hv|]. clear Hv. intros C1 Hv.
  wp_struct. eapply pair_modSlotB; [exact Hsn|exact Hv|]. clear Hv. intros C2 Hv.
  wp_struct. eapply pair_modSlotA; [exact Hsn|exact Hv|]. clear Hv. intros C3 Hv.
  cbn [mdbNext]. rewrite Z.eqb_refl. cbn [negb]. apply wp_ret, HQ; [exact HT'|exact Hv].
Qed.

(** The partner leaves the endpoint. *)
Lemma ipc_tcbEPDequeue o tr xc T tc1 E act (Q : tcb_queue -> kstate -> Prop) :
  two_view cur dest (ksTCBs s) T tc1 td ->
  (forall T', tv T' tc1 td -> Q (mk_queue next (if next =? 0 then 0 else epQueue_tail e))
     (ipc_state s (ksCTEs s) T' E cur o tr act xc)) ->
  wp (tcbEPDequeue dest (mk_queue dest (epQueue_tail e))) Q (ipc_state s (ksCTEs s) T E cur o tr act xc).
Proof.
  intros HT HQ. unfold tcbEPDequeue. wp_struct. eapply pair_getDest; [exact HT|].
  rewrite (cr_prev Hr). cbn [Z.eqb negb]. do 2 wp_struct. wp_struct. eapply pair_getDest; [exact HT|].
  rewrite (cr_prev Hr). cbn [q_head q_end].
  apply wp_link_at.
  { intros Hn. cbn [ksTCBs ipc_state]. destruct (cr_next Hr Hn) as (Hs & H1 & H2).
    destruct HT as (_ & _ & HT). by rewrite HT. }
  assert (HT1 : tv (link_at next (set_tcbEPPrev (fun _ => 0)) T) tc1 td).
  { destruct (decide (next = 0)) as [->|Hn]; [exact HT|].
    destruct (cr_next Hr Hn) as (Hs & H1 & H2). by apply two_view_link. }
  specialize (HQ _ HT1). by destruct (next =? 0).
Qed.

Lemma ipc_sendIPC badge canGrant canGrantReply o tr xc T tc1 (Q : unit -> kstate -> Prop) :
  two_view cur dest (ksTCBs s) T tc1 td ->
  canGrant || canGrantReply = true -> tcbContext tc1 = tcbContext tc -> tcbFault tc1 = seL4_Fault_NullFault ->
  (forall T' C', tv T' (upd_state (set_tsType (fun _ => ThreadState_BlockedOnReply)) tc1)
       (upd_state (set_tsType (fun _ => ThreadState_Running)) (delivered badge (reg tc msgInfoRegister) tc td)) ->
     slots_after C' -> Q tt (ipc_state s C' T' E1 cur o tr dest [])) ->
  wp (sendIPC true true badge canGrant canGrantReply cur ep)
    Q (ipc_state s (ksCTEs s) T (ksEPs s) cur o tr SchedulerAction_ResumeCurrentThread xc).
Proof.
  intros HT Hg Hctx Hf HQ. pose proof (cr_ne Hr) as Hne. destruct (cr_notaction Hr) as [Ha0 Ha1].
  assert (Hreg : reg tc1 msgInfoRegister = reg tc msgInfoRegister) by (unfold reg; by rewrite Hctx).
  assert (Hdel : delivered badge (reg tc1 msgInfoRegister) tc1 td = delivered badge (reg tc msgInfoRegister) tc td)
    by (unfold delivered; by rewrite Hctx, Hreg).
  unfold sendIPC. wp_struct. eapply ipc_getEP; [exact (cr_ep Hr)|]. rewrite (cr_recv Hr).
  unfold ep_ptr_get_queue. do 2 wp_struct. eapply ipc_getEP; [exact (cr_ep Hr)|]. wp_struct.
  cbn [q_head]. rewrite (cr_head Hr). wp_struct.
  apply wp_assert; [by apply negb_true_iff, Z.eqb_neq|]. wp_struct.
  apply (ipc_tcbEPDequeue o tr xc T tc1); [exact HT|]. clear HT. clear T. intros T HT.
  unfold ep_ptr_set_queue, endpoint_ptr_set_state. do 2 wp_struct.
  eapply ipc_modEP; [exact (cr_ep Hr)|]. eapply ipc_modEP; [apply lookup_insert_eq|].
  rewrite insert_insert_eq. wp_struct. cbn [q_head q_end].
  apply (wp_mono _ (fun _ s' => s' = ipc_state s (ksCTEs s) T E1 cur o tr SchedulerAction_ResumeCurrentThread xc)).
  { unfold ep_after. destruct (next =? 0) eqn:Hn.
    - apply Z.eqb_eq in Hn. rewrite Hn. eapply ipc_modEP; [apply lookup_insert_eq|].
      by rewrite insert_insert_eq.
    - wp_struct. unfold set_epQueue_tail, set_epQueue_head. cbn. by rewrite (cr_recv Hr). }
  intros [] s' ->. wp_struct.
  apply (ipc_doIPCTransfer s cur dest Hne T0 T tc1 td); [exact HT|rewrite Hreg; apply (cr_message Hr)|
    apply (cr_buffers Hr)|apply (cr_buffers Hr)|by rewrite Hf|].
  rewrite Hdel. clear HT. clear T. intros T HT. wp_struct. eapply pair_getDest; [exact HT|].
  unfold setThreadState at 1. do 2 wp_struct. eapply pair_modDest; [exact Hne|exact HT|].
  clear HT. clear T. intros T HT. unfold scheduleTCB. do 4 wp_struct. cbn [ksCurThread ksSchedulerAction ipc_state].
  rewrite (proj2 (Z.eqb_neq dest cur)) by congruence. cbn [andb]. wp_struct.
  unfold possibleSwitchTo. do 2 wp_struct. eapply pair_getDest; [exact HT|]. do 4 wp_struct.
  cbn [ksCurDomain ksSchedulerAction ipc_state]. destruct (cr_dom Hr) as [-> Hd].
  change (tcbDomain _) with (tcbDomain td). rewrite Hd. cbn [Z.eqb negb].
  apply ipc_setSchedulerAction. rewrite Hg.
  change (blockingIPCCanGrant _) with (blockingIPCCanGrant (tcbState td)).
  eapply ipc_setupCallerCap; [exact HT|exact HQ].
Qed.

(** The address space of the partner stays where it is. *)
Lemma slots_after_vslot C : slots_after C -> vslot_kept s dest C.
Proof.
  intros (_ & _ & Ho). destruct (vv_slot _ _ _ _ (cr_vspace Hr)) as (cv & Hcv & Hcap).
  unfold vslot_kept. rewrite Ho; [done|intros He..]; rewrite He in Hcv.
  - rewrite (cr_reply Hr) in Hcv. apply (inj Some) in Hcv. by subst cv.
  - rewrite (cr_caller Hr) in Hcv. apply (inj Some) in Hcv. by subst cv.
Qed.

(** The two threads after an ordinary call. *)
Definition slow_caller : tcb :=
  upd_state (set_tsType (fun _ => ThreadState_BlockedOnReply))
    (upd_state (set_tsType (fun _ => ThreadState_Restart)) tc).
Definition slow_partner (badge : Z) : tcb :=
  upd_state (set_tsType (fun _ => ThreadState_Running)) (delivered badge (reg tc msgInfoRegister) tc td).

Notation call_done := (ipc_done s cur dest T0 slots_after E1 dest
  (switch_effect td dest asid root (ksCurFPUOwner s) (ksMachine s))).

(** The capability the caller invokes. *)
Record invokes_endpoint (badge : Z) (canGrant canGrantReply canRecv : bool) : Prop := {
  ie_words : is_word (reg tc capRegister);
  ie_cspace : cspace_wf (ksCTEs s);
  ie_slot : invoked s tc (cap_endpoint_cap badge canGrantReply canGrant true canRecv ep);
  ie_grant : canGrant || canGrantReply = true
}.

Section SlowCall.
Context (fuel : nat) (irq1 irq2 : Z) (L : mmu_labels) (getActiveIRQ : K Z) (irqInvalid : Z).

Lemma slow_call badge canGrant canGrantReply canRecv :
  invokes_endpoint badge canGrant canGrantReply canRecv ->
  wp (handleSyscall fuel irq1 irq2 L getActiveIRQ irqInvalid SysCall)
    (fun _ => call_done slow_caller (slow_partner badge) []) s.
Proof.
  intros [Hcw Hwf (c0 & slot & rem & ct & Hc0 & Hres & Hct & Hcap) Hg].
  pose proof (cr_cur Hr) as Hc. destruct (sm_length _ (proj2 (cr_message Hr))) as [_ Hlen].
  unfold handleSyscall, invocation_event, handleInvocation, getRegister. wps.
  eapply wp_getTCB; [exact Hc|]. wps. eapply wp_getTCB; [exact Hc|]. wps. unfold lookupCapAndSlot. wps.
  eapply wp_lookupSlot_resolved; [exact Hcw|exact Hwf|exact Hc0|exact Hres|exact Hct|].
  cbv beta iota. change (negb (is_none EXCEPTION_NONE)) with false. cbv iota. wps.
  eapply wp_getCTE; [exact Hct|]. rewrite Hcap. wps.
  change (negb (is_none EXCEPTION_NONE)) with false. cbv iota. wps.
  apply wp_lookupIPCBuffer_any; [by eexists|apply (cr_buffers Hr)|]. intros buffer. wps.
  rewrite (sm_raw _ (proj2 (cr_message Hr))).
  apply wp_lookupExtraCaps_none; [apply (cr_message Hr)|].
  change (negb (is_none EXCEPTION_NONE)) with false. cbv iota zeta. wps.
  unfold decodeInvocation. cbn [isArchCap negb].
  match goal with |- wp _ _ ?x =>
    change x with (ipc_state s (ksCTEs s) (ksTCBs s) (ksEPs s) cur
      (ksCurFPUOwner s) (ksMachine s) (ksSchedulerAction s) []) end.
  assert (HT : two_view cur dest (ksTCBs s) (ksTCBs s) tc td) by (apply two_view_refl; apply Hr).
  unfold restart_current, setThreadState. wps. cbn [ksCurThread ipc_state].
  eapply pair_modCur; [apply (cr_ne Hr)|exact HT|]. clear HT. intros T HT.
  unfold scheduleTCB. wps. cbn [ksCurThread ksSchedulerAction ipc_state].
  rewrite (cr_action Hr), !Z.eqb_refl. cbn [andb]. unfold isSchedulable, isRunnable.
  wps. eapply pair_getCur; [exact HT|]. wps. match goal with |- context [isRunnable_tcb ?x] => change (isRunnable_tcb x) with true end. cbn [negb]. wps.
  unfold performInvocation_Endpoint. wps. cbn [ksCurThread ipc_state]. wps.
  apply (ipc_sendIPC badge canGrant canGrantReply _ _ [] T _ _ HT Hg eq_refl (cr_fault Hr)).
  clear HT. clear T. intros T C HT HC. wps. eapply pair_getCur; [exact HT|].
  wps. match goal with |- context [bool_decide ?P] => change (bool_decide P) with false end.
  wps. change (negb (is_none EXCEPTION_NONE)) with false. cbv iota. wps.
  eapply (ipc_kernel_exit s cur dest asid root slow_caller (slow_partner badge));
    [apply HT|apply HT|apply (cr_vspace Hr)|by apply slots_after_vslot|apply (cr_ne Hr)
    |apply (cr_notaction Hr)|done|done|exact (cr_queued Hr)|apply (cr_idle Hr)|apply (cr_dom Hr)
    |exact (cr_prio Hr)|].
  exists T, C. split_and!; [exact HT|exact HC|done].
Qed.
End SlowCall.

(** The two threads after a fast call. *)
Definition fast_caller : tcb :=
  upd_state (thread_state_ptr_set_tsType_np ThreadState_BlockedOnReply) tc.
Definition fast_partner (badge : Z) : tcb :=
  set_tcbContext (insert msgInfoRegister
      (wordFromMessageInfo (seL4_MessageInfo_set_capsUnwrapped (reg tc msgInfoRegister) 0)))
    (set_tcbContext (insert badgeRegister badge)
      (upd_state (thread_state_ptr_set_tsType_np ThreadState_Running)
        (set_tcbContext (copied (Z.to_nat (seL4_MessageInfo_get_length (reg tc msgInfoRegister))) (tcbContext tc)) td))).

Lemma fast_call badge :
  wp (fastpath_call_commit cur dest ep badge root asid (reg tc msgInfoRegister))
    (fun _ => call_done fast_caller (fast_partner badge) (current_extra_caps s)) s.
Proof.
  pose proof (cr_ne Hr) as Hne. unfold fastpath_call_commit. apply ipc_enter.
  assert (HT : two_view cur dest (ksTCBs s) (ksTCBs s) tc td) by (apply two_view_refl; apply Hr).
  wps. eapply pair_getDest; [exact HT|]. wps. eapply ipc_modEP; [exact (cr_ep Hr)|].
  wps.
  apply (wp_mono _ (fun _ s' => exists T, tv T tc td /\ s' = ipc_state s (ksCTEs s) T E1 cur
      (ksCurFPUOwner s) (ksMachine s) (ksSchedulerAction s) (current_extra_caps s))).
  { unfold ep_after. destruct (Z.eqb_spec next 0) as [Hn|Hn]; cbn [negb].
    - eapply ipc_modEP; [apply lookup_insert_eq|]. exists (ksTCBs s). rewrite Hn, insert_insert_eq.
      by split.
    - destruct (cr_next Hr Hn) as ([tn Htn] & H1 & H2). eapply ipc_modTCB; [exact Htn|].
      exists (link_at next (set_tcbEPPrev (fun _ => 0)) (ksTCBs s)). split.
      + by apply two_view_link.
      + unfold link_at. rewrite decide_False, Htn by done. unfold endpoint_ptr_set_epQueue_head_np, set_epQueue_head.
        by rewrite (cr_recv Hr). }
  intros [] s' (T & HT1 & ->). clear HT. wps. eapply pair_modCur; [exact Hne|exact HT1|]. clear HT1. clear T.
  intros T HT. wps. eapply pair_getDest; [exact HT|]. wps.
  assert (Hv : two_view replySlot callerSlot (ksCTEs s) (ksCTEs s)
    (mk_cte (cap_reply_cap true true cur) (mdb_node_new 0 true true rp)) null_cte).
  { apply two_view_refl; [apply (cr_reply Hr)|apply (cr_caller Hr)]. }
  eapply pair_modSlotB; [exact slots_ne|exact Hv|]. clear Hv. intros C1 Hv.
  wps. eapply pair_modSlotB; [exact slots_ne|exact Hv|]. clear Hv. intros C2 Hv.
  wps. eapply pair_modSlotA; [exact slots_ne|exact Hv|]. clear Hv. intros C3 Hv. wps.
  apply (ipc_fastpath_copy_mrs s cur dest Hne T0 T fast_caller td); [exact HT|apply (cr_message Hr)|].
  clear HT. clear T. intros T HT. wps. eapply pair_modDest; [exact Hne|exact HT|]. clear HT. clear T.
  intros T HT. wps. eapply (ipc_switchToThread_fp s cur dest asid root); [apply HT|apply (cr_vspace Hr)|].
  wps. cbn [ksCurThread ipc_state]. unfold fastpath_restore, setRegister. wps.
  eapply pair_modDest; [exact Hne|exact HT|]. clear HT. clear T. intros T HT.
  eapply pair_modDest; [exact Hne|exact HT|]. clear HT. clear T. intros T HT.
  exists T, C3. rewrite (cr_action Hr). split_and!; [exact HT|exact Hv|done].
Qed.
End Call.

(** ** What a user can see *)

(** The kernel reads the object a thread blocks on only while it is blocked on
    one, and the array of extra capabilities only after it has filled it. *)
Definition forget_tcb (t : tcb) : tcb :=
  match blocked_on t with
  | Some _ => t
  | None => upd_state (set_blockingObject (fun _ => 0)) t
  end.
Definition forget (s : kstate) : kstate :=
  set_current_extra_caps (fun _ => []) (set_ksTCBs (fmap forget_tcb) s).

Lemma ipc_state_forget s C T T' E x o tr act xc xc' :
  forget_tcb <$> T = forget_tcb <$> T' ->
  forget (ipc_state s C T E x o tr act xc) = forget (ipc_state s C T' E x o tr act xc').
Proof. intros H. unfold forget, set_current_extra_caps, set_ksTCBs. cbn. by rewrite H. Qed.

Lemma forget_partner tc td badge : forget_tcb (fast_partner tc td badge) = forget_tcb (slow_partner tc td badge).
Proof.
  unfold fast_partner, slow_partner, delivered, forget_tcb, blocked_on, tsType_of, upd_state.
  unfold set_tcbContext, set_tcbState, set_tsType, set_blockingObject. cbn.
  by rewrite insert_insert_ne.
Qed.

(** [m] is the ordinary handler [slow], or leaves the state it leaves. *)
Section Agree.
Context (s : kstate) (slow : syscall_t -> K exception_t) (call : syscall_t).

Definition agree (m : K unit) : Prop :=
  m s = slowpath slow call s \/
  exists e s1 s2, m s = Some (tt, s1) /\ slow call s = Some (e, s2) /\ forget s1 = forget s2.

Lemma agree_slow : agree (slowpath slow call).
Proof. by left. Qed.

Lemma agree_bind {A} (rd : K A) (k : A -> K unit) P :
  wp rd (fun a s' => s' = s /\ P a) s -> (forall a, P a -> agree (k a)) -> agree (bind rd k).
Proof.
  intros Hrd Hk. apply wp_run in Hrd as (a & s' & Hrun & -> & HP).
  unfold agree, bind. rewrite Hrun. by apply Hk.
Qed.
End Agree.

(** Two runs that end the same way but for what nothing reads. *)
Lemma agree_done s slow call m a b T0 P E x r ta tb ta' tb' xc xc' :
  (forall C C', P C -> P C' -> C = C') -> forget_tcb ta = forget_tcb ta' -> forget_tcb tb = forget_tcb tb' ->
  wp m (fun _ => ipc_done s a b T0 P E x r ta tb xc) s ->
  wp (slow call) (fun _ => ipc_done s a b T0 P E x r ta' tb' xc') s -> agree s slow call m.
Proof.
  intros HP Ha Hb H1 H2. apply wp_run in H1 as ([] & s1 & Hr1 & T1 & C1 & HT1 & HC1 & ->).
  apply wp_run in H2 as (ex & s2 & Hr2 & T2 & C2 & HT2 & HC2 & ->).
  right. exists ex. do 2 eexists. split_and!; [exact Hr1|exact Hr2|].
  rewrite (HP C2 C1 HC2 HC1). apply ipc_state_forget. by eapply two_view_fmap.
Qed.

(** Invariants of the slots of threads that the fastpath relies on. *)
Record tcb_slots_ok (s : kstate) : Prop := {
  ts_present : forall x t i, ksTCBs s !! x = Some t -> 0 <= i < tcbCNodeEntries ->
    is_Some (ksCTEs s !! TCB_PTR_CTE_PTR x i);
  ts_reply : forall x t, ksTCBs s !! x = Some t -> tsType_of t = ThreadState_Running ->
    exists rp, ksCTEs s !! TCB_PTR_CTE_PTR x tcbReply =
      Some (mk_cte (cap_reply_cap true true x) (mdb_node_new 0 true true rp));
  ts_caller : forall x t, ksTCBs s !! x = Some t -> tsType_of t = ThreadState_BlockedOnReceive ->
    ksCTEs s !! TCB_PTR_CTE_PTR x tcbCaller = Some null_cte;
  ts_vspace : forall x t c asid root, ksTCBs s !! x = Some t ->
    ksCTEs s !! TCB_PTR_CTE_PTR x tcbVTable = Some c ->
    cte_cap c = cap_vspace_cap asid root true -> 0 <= asid < 2 ^ 16
}.

Record cspace_inv (s : kstate) : Prop := {
  ci_wf : cspace_wf (ksCTEs s);
  ci_radix : forall p c, ksCTEs s !! p = Some c -> radix_pos (cte_cap c);
  ci_eps : forall p c b gr g sd rv ep, ksCTEs s !! p = Some c ->
    cte_cap c = cap_endpoint_cap b gr g sd rv ep -> is_Some (ksEPs s !! ep)
}.

(** A user thread makes a system call. *)
Record user_entry (s : kstate) (tc : tcb) : Prop := {
  ue_cur : ksTCBs s !! ksCurThread s = Some tc;
  ue_run : tsType_of tc = ThreadState_Running;
  ue_idle : ksCurThread s <> ksIdleThread s;
  ue_action : ksSchedulerAction s = SchedulerAction_ResumeCurrentThread;
  ue_words : is_word (reg tc capRegister) /\ is_word (reg tc msgInfoRegister)
}.

Lemma NullFault_type f : seL4_Fault_get_seL4_FaultType f = 0 -> f = seL4_Fault_NullFault.
Proof. by destruct f. Qed.

(** The check of the partner's address space. *)
Lemma wp_vspace_check_fp s dest cv :
  vm_ok s -> ksCTEs s !! TCB_PTR_CTE_PTR dest tcbVTable = Some cv ->
  (forall asid root, cte_cap cv = cap_vspace_cap asid root true -> 0 <= asid < 2 ^ 16) ->
  wp (vspace_check_fp (cte_cap cv)) (fun r s' => s' = s /\
    match r with Some (root, asid) => valid_vspace s dest asid root | None => True end) s.
Proof.
  intros Hvm Hcv Hasid. unfold vspace_check_fp.
  destruct (cte_cap cv) as [| | | | | | | | | | | | |asid root [|]| | |] eqn:Hcap;
    try (cbn [isValidVTableRoot_fp negb]; by apply wp_ret).
  cbn [isValidVTableRoot_fp negb].
  assert (Hm : wp (findMapForASID asid) (fun m s' => m = asid_lookup s asid /\ s' = s) s)
    by (by apply wp_findMapForASID).
  apply wp_run in Hm as (m & s' & Hrun & -> & ->). wp_struct. unfold wp at 1. rewrite Hrun.
  destruct (asid_lookup s asid) as [|vroot]; [by apply wp_ret|]. apply wp_ret. split; [done|].
  destruct (Z.eqb_spec vroot root) as [->|]; [|done]. split; [by exists cv|by eapply Hasid|done].
Qed.

(** The answer of the priority test. *)
Lemma wp_isHighestPrio_answer s rq p :
  ready_wf s rq ->
  wp (isHighestPrio 0 p) (fun b s' => s' = s /\ (b = true -> isHighestPrio 0 p s = Some (true, s))) s.
Proof.
  intros Hwf. pose proof (wp_isHighestPrio s rq p (fun b s' => b = highest rq p /\ s' = s)
    Hwf (conj eq_refl eq_refl)) as H.
  apply wp_run in H as (b & s' & Hr & -> & ->). unfold wp. rewrite Hr. split; [done|]. by intros ->.
Qed.

(** The checks both fastpaths start with: the message is short, no fault is
    pending, and the capability is the one the ordinary lookup finds. *)
Lemma agree_entry s slow call tc k :
  user_entry s tc -> tcb_slots_ok s -> cspace_inv s ->
  (short_message (reg tc msgInfoRegister) -> tcbFault tc = seL4_Fault_NullFault ->
   forall c, c = cap_null_cap \/ invoked s tc c -> agree s slow call (k (ksCurThread s) tc c)) ->
  agree s slow call (
    let* cur := gets ksCurThread in
    let* curt := getTCB cur in
    let fault_type := seL4_Fault_get_seL4_FaultType (tcbFault curt) in
    if fastpath_mi_check (reg tc msgInfoRegister) || negb (fault_type =? 0) then slowpath slow call
    else
    let* ct := getCTE (TCB_PTR_CTE_PTR cur tcbCTable) in
    let* ep_cap := lookup_fp (cte_cap ct) (reg tc capRegister) in
    k cur curt ep_cap).
Proof.
  intros [Hc Hrun Hidle Hact [Hcw Hmw]] Hts Hci Hk.
  apply (agree_bind _ _ _ _ _ (fun a => a = ksCurThread s)); [by apply wp_gets|]. intros ? ->.
  apply (agree_bind _ _ _ _ _ (fun a => a = tc)); [by eapply wp_getTCB|]. intros ? ->. cbv zeta.
  destruct (fastpath_mi_check _) eqn:Hmi; [apply agree_slow|]. cbn [orb].
  destruct (Z.eqb_spec (seL4_Fault_get_seL4_FaultType (tcbFault tc)) 0) as [Hnf|]; [|apply agree_slow].
  cbn [negb]. destruct (ts_present _ Hts (ksCurThread s) tc tcbCTable Hc) as [c0 Hc0]; [done|].
  apply (agree_bind _ _ _ _ _ (fun a => a = c0)); [by eapply wp_getCTE|]. intros ? ->.
  apply (agree_bind _ _ _ _ _ (lookup_result s (reg tc capRegister) (cte_cap c0) wordBits)).
  { apply wp_lookup_fp; [apply Hci|apply Hci|by eapply (ci_wf _ Hci)|by eapply (ci_radix _ Hci)]. }
  intros c Hlook. apply Hk; [by apply fastpath_mi_check_short|by apply NullFault_type|].
  destruct Hlook as [(slot & rem & ct & Hres & Hct & ->)|[-> _]]; [right|by left].
  by exists c0, slot, rem, ct.
Qed.

(** A check that does not hold. *)
Lemma agree_guard s slow call (b : bool) m :
  (b = false -> agree s slow call m) -> agree s slow call (if b then slowpath slow call else m).
Proof. destruct b; [intros _; apply agree_slow|auto]. Qed.

(** The partner's address space is checked. *)
Lemma agree_vspace s slow call dest t k :
  vm_ok s -> tcb_slots_ok s -> ksTCBs s !! dest = Some t ->
  (forall root asid, valid_vspace s dest asid root -> agree s slow call (k root asid)) ->
  agree s slow call (
    let* newVTable := getCTE (TCB_PTR_CTE_PTR dest tcbVTable) in
    let* vspace := vspace_check_fp (cte_cap newVTable) in
    match vspace with
    | None => slowpath slow call
    | Some (cap_pd, stored_hw_asid) => k cap_pd stored_hw_asid
    end).
Proof.
  intros Hvm Hts Ht Hk. destruct (ts_present _ Hts dest t tcbVTable Ht) as [cv Hcv]; [done|].
  apply (agree_bind _ _ _ _ _ (fun a => a = cv)); [by eapply wp_getCTE|]. intros ? ->.
  eapply agree_bind.
  { apply (wp_vspace_check_fp s dest cv Hvm Hcv). intros a r. apply (ts_vspace _ Hts dest t cv a r Ht Hcv). }
  intros [[root asid]|] Hv; [by apply Hk|apply agree_slow].
Qed.

(** The first thread that waits on an endpoint. *)
Record first_waiter (s : kstate) (ep : Z) (e : endpoint) (x : Z) (t : tcb) : Prop := {
  fw_tcb : ksTCBs s !! x = Some t;
  fw_state : tsType_of t = ThreadState_BlockedOnReceive;
  fw_queued : tcbQueued (tcbState t) = false;
  fw_dom : tcbDomain t = 0;
  fw_action : x <> SchedulerAction_ResumeCurrentThread /\ x <> SchedulerAction_ChooseNewThread;
  fw_prev : tcbEPPrev t = 0;
  fw_next : tcbEPNext t <> 0 -> is_Some (ksTCBs s !! tcbEPNext t) /\
    (forall y ty, ksTCBs s !! y = Some ty -> blocked_on ty = None -> tcbEPNext t <> y) /\ tcbEPNext t <> x
}.

Lemma not_runnable_not_queued s rq x t :
  sched_inv s rq -> ksTCBs s !! x = Some t -> isRunnable_tcb t = false -> tcbQueued (tcbState t) = false.
Proof.
  intros Hinv Hx Hrun. destruct (tcbQueued (tcbState t)) eqn:Hq; [|done]. exfalso.
  pose proof (proj1 (si_ready _ _ Hinv)) as Hwf. destruct (qwf_prio _ _ _ Hwf x t Hx) as (Hp & _).
  pose proof (si_queued _ _ Hinv _ _ Hp (qwf_queued _ _ _ Hwf x t Hx Hq)) as Hr.
  unfold trun in Hr. rewrite Hx in Hr. congruence.
Qed.

Lemma first_receiver s rq q ep e :
  kinv s rq q -> ksEPs s !! ep = Some e -> ep_state e = EPState_Recv ->
  exists t, first_waiter s ep e (epQueue_head e) t.
Proof.
  intros [Hs Hi] He Hst. pose proof (iw_waiting _ _ _ Hi (WEP ep)) as Hw. cbn [waiting] in Hw.
  rewrite He in Hw. cbn in Hw. rewrite Hst in Hw. destruct Hw as (Hqu & Hn & Hmem).
  destruct (q (WEP ep)) as [|x l] eqn:Hq; [by destruct Hn as [_ Hn]; specialize (Hn eq_refl)|].
  injection Hqu as Hhd _. cbn in Hhd. rewrite Hhd.
  destruct (Hmem x) as (t & Ht & Hty & Hb); [by left|]. injection Hty as Hty. exists t.
  pose proof (iw_list _ _ _ Hi (WEP ep)) as Hd. rewrite Hq in Hd.
  destruct (dlist_mid _ _ [] x l Hd) as [Hpv Hnx]. cbn [last_or] in Hpv.
  rewrite (tlink_Some _ _ _ _ Ht) in Hpv. rewrite (tlink_Some _ _ _ _ Ht) in Hnx.
  split; [done|done|..].
  - eapply not_runnable_not_queued; [exact Hs|exact Ht|]. unfold isRunnable_tcb. by rewrite Hty.
  - by apply (qwf_prio _ _ _ (proj1 (si_ready _ _ Hs)) x t Ht).
  - pose proof (iw_null _ _ _ Hi). pose proof (iw_action _ _ _ Hi).
    unfold SchedulerAction_ResumeCurrentThread. split; congruence.
  - done.
  - rewrite Hnx. destruct l as [|y l]; [done|]. intros _. cbn [hd_or].
    assert (Hy : y ∈ q (WEP ep)) by (rewrite Hq; right; left). split_and!.
    + by eapply iw_cells.
    + intros z tz Hz Hbz ->. by eapply (unblocked_out s q [] z tz (WEP ep)).
    + intros ->. destruct Hd as [Hnd _ _]. apply NoDup_cons in Hnd as [Hnd _]. apply Hnd. left.
Qed.

Section CallTheorem.
Context (fuel : nat) (irq1 irq2 : Z) (L : mmu_labels) (getActiveIRQ : K Z) (irqInvalid : Z).
Notation slow := (handleSyscall fuel irq1 irq2 L getActiveIRQ irqInvalid).
Context (s : kstate) (rq : queues) (q : wobj -> list Z) (tc : tcb).
Notation cur := (ksCurThread s).

Lemma call_ready_intro ep e td asid root b gr g rv :
  kinv s rq q -> user_entry s tc -> tcb_slots_ok s -> cspace_inv s ->
  short_message (reg tc msgInfoRegister) -> tcbFault tc = seL4_Fault_NullFault ->
  ksEPs s !! ep = Some e -> ep_state e = EPState_Recv -> first_waiter s ep e (epQueue_head e) td ->
  valid_vspace s (epQueue_head e) asid root ->
  (tcbPriority td < tcbPriority tc -> isHighestPrio 0 (tcbPriority td) s = Some (true, s)) ->
  g || gr = true -> invoked s tc (cap_endpoint_cap b gr g true rv ep) ->
  (exists rp, call_ready s (epQueue_head e) ep asid root tc td e rp) /\ invokes_endpoint s ep tc b g gr rv.
Proof.
  intros Hk [Hc Hrun Hidle Hact [Hcw Hmw]] Hts Hci Hsm Hnf He Hrecv [Ht Hty Hqu Hd Ha Hpv Hnx] Hv Hp Hg Hinv.
  assert (Hb : blocked_on tc = None) by (unfold blocked_on; by rewrite Hrun).
  split; [|by split; [|apply Hci| |]]. destruct (ts_reply _ Hts cur tc Hc Hrun) as [rp Hrp]. exists rp.
  split; try done.
  - intros He2. rewrite He2 in Hc. congruence.
  - intros Hn. destruct (Hnx Hn) as (H1 & H2 & H3). split_and!; [done|by eapply H2|done].
  - by eapply ts_caller.
  - by split; eapply ts_present.
  - by split; [apply (si_dom _ _ (proj1 Hk))|].
Qed.

(** C4: A call that takes the fastpath leaves exactly the state the ordinary
    handler leaves: the same messages, thread states, reply capability, queues,
    current thread, address space and hardware operations; only fields that
    nothing reads may differ.  If a check fails the ordinary handler runs. *)
Theorem fastpath_call_correct :
  kinv s rq q -> user_entry s tc -> tcb_slots_ok s -> cspace_inv s ->
  agree s slow SysCall (fastpath_call slow (reg tc capRegister) (reg tc msgInfoRegister)).
Proof.
  intros Hk Hu Hts Hci. pose proof (proj1 Hk) as Hs. apply agree_entry; [done..|]. intros Hsm Hnf c Hlook.
  destruct c as [| |badge gr g sd rv ep| | | | | | | | | | | | | | ]; try apply agree_slow.
  destruct sd; [|apply agree_slow]. destruct Hlook as [Hbad|Hinv]; [discriminate Hbad|].
  destruct Hinv as (c0 & slot & rem & ct & Hc0 & Hres & Hct & Hcap).
  destruct (ci_eps _ Hci _ _ _ _ _ _ _ _ Hct Hcap) as [e He].
  apply (agree_bind _ _ _ _ _ (fun a => a = e)); [by eapply wp_getEP|]. intros ? ->.
  apply agree_guard. intros Hrecv. apply negb_false_iff, bool_decide_eq_true in Hrecv.
  destruct (first_receiver s rq q ep e Hk He Hrecv) as [td Hw]. set (dest := epQueue_head e) in *.
  apply (agree_vspace s slow SysCall dest td); [apply (si_vm _ _ Hs)|done|exact (fw_tcb _ _ _ _ _ Hw)|].
  intros root asid Hv. change (negb (maxDom =? 0)) with false. cbv iota.
  apply (agree_bind _ _ _ _ _ (fun a => a = 0)); [by apply wp_ret|]. intros ? ->.
  apply (agree_bind _ _ _ _ _ (fun a => a = td)); [by eapply wp_getTCB; [exact (fw_tcb _ _ _ _ _ Hw)|]|]. intros ? ->.
  apply (agree_bind _ _ _ _ _ (fun b => b = true -> tcbPriority td < tcbPriority tc ->
    isHighestPrio 0 (tcbPriority td) s = Some (true, s))).
  { destruct (Z.ltb_spec (tcbPriority td) (tcbPriority tc)); [|apply wp_ret; split; [done|lia]].
    eapply wp_mono; [apply (wp_isHighestPrio_answer s rq _ (si_ready _ _ Hs))|]. intros b s' [-> Hb]. by split; [|auto]. }
  intros hp Hhp. apply (agree_bind _ _ _ _ _ (fun _ => True)); [by apply wp_gets|]. intros a _.
  apply agree_guard. intros ->%negb_false_iff. apply agree_guard. intros Hg.
  change (0 <? maxDom) with false. rewrite andb_false_r.
  destruct (call_ready_intro ep e td asid root badge gr g rv) as ([rp Hr] & Hi); try done.
  { by apply Hhp. } { by destruct g, gr. } { by exists c0, slot, rem, ct. }
  eapply agree_done; cycle 3; [exact (fast_call _ _ _ _ _ _ _ _ _ Hr badge)
    |exact (slow_call _ _ _ _ _ _ _ _ _ Hr fuel irq1 irq2 L getActiveIRQ irqInvalid badge g gr rv Hi)
    |intros C C'; apply two_view_eq|done|apply forget_partner].
Qed.
End CallTheorem.

(** ** The handshake of a reply *)

(** A change of slots that keeps every CNode capability keeps resolution. *)
Definition cnodes_kept (h h' : gmap Z cte) : Prop :=
  forall p c, h !! p = Some c -> exists c', h' !! p = Some c' /\
    if cap_is_cnode (cte_cap c) then cte_cap c' = cte_cap c else cap_is_cnode (cte_cap c') = false.

Lemma resolves_kept h h' c a n slot rem :
  cnodes_kept h h' -> resolves h c a n slot rem -> resolves h' c a n slot rem.
Proof.
  intros Hk. induction 1 as [|? ? ? ? off rest a c ? ? ? Hc Hcn|? ? ? ? off rest a c slot rem ? ? ? Hc Hcn _ IH].
  - by constructor.
  - destruct (Hk _ _ Hc) as (c' & Hc' & Hk'). rewrite Hcn in Hk'. by eapply resolves_stop.
  - destruct (Hk _ _ Hc) as (c' & Hc' & Hk'). rewrite Hcn in Hk'. eapply resolves_down; [done..| |]; by rewrite Hk'.
Qed.

Lemma resolves_cnode h c a n slot rem : resolves h c a n slot rem -> cap_is_cnode c = true.
Proof. by destruct 1. Qed.

Section SlotPairKept.
Context (a b : Z) (C0 C : gmap Z cte) (ca0 cb0 ca cb : cte).
Hypothesis HC : two_view a b C0 C ca cb.
Hypothesis Ha : C0 !! a = Some ca0.
Hypothesis Hb : C0 !! b = Some cb0.
Hypothesis Hcn : cap_is_cnode (cte_cap ca0) = false /\ cap_is_cnode (cte_cap cb0) = false /\
  cap_is_cnode (cte_cap ca) = false /\ cap_is_cnode (cte_cap cb) = false.

Lemma two_view_cnodes : cnodes_kept C0 C.
Proof.
  destruct HC as (Hca & Hcb & Ho), Hcn as (N1 & N2 & N3 & N4). intros p c Hp.
  destruct (decide (p = a)) as [->|Hpa].
  { assert (c = ca0) as -> by congruence. exists ca. by rewrite N1. }
  destruct (decide (p = b)) as [->|Hpb].
  { assert (c = cb0) as -> by congruence. exists cb. by rewrite N2. }
  exists c. rewrite Ho by done. split; [done|]. by destruct (cap_is_cnode (cte_cap c)).
Qed.

Lemma two_view_cspace_wf : cspace_wf C0 -> cspace_wf C.
Proof.
  intros Hwf p c Hp. destruct HC as (Hca & Hcb & Ho), Hcn as (N1 & N2 & N3 & N4).
  destruct (decide (p = a)) as [->|Hpa].
  { assert (c = ca) as -> by congruence. by destruct (cte_cap ca). }
  destruct (decide (p = b)) as [->|Hpb].
  { assert (c = cb) as -> by congruence. by destruct (cte_cap cb). }
  rewrite Ho in Hp by done. specialize (Hwf p c Hp).
  destruct (cte_cap c) as [| | | | |radix gb guard ptr| | | | | | | | | | | ]; try done.
  destruct Hwf as (?&?&?&?&Hs). do 4 (split; [done|]). intros i Hi.
  destruct (Hs i Hi) as [ci Hci]. destruct (two_view_cnodes _ _ Hci) as (c' & Hc' & _). eauto.
Qed.
End SlotPairKept.

Section Reply.
Context (s : kstate) (dest ep asid root : Z) (tc td : tcb) (e : endpoint) (rp : Z) (grant canGrant : bool).
Notation cur := (ksCurThread s).
Notation replySlot := (TCB_PTR_CTE_PTR dest tcbReply).
Notation callerSlot := (TCB_PTR_CTE_PTR cur tcbCaller).
Notation tail := (epQueue_tail e).

(** The situation in which a reply can be delivered at once: [dest] waits for
    the reply of the current thread, which nothing keeps from waiting on [ep]. *)
Record reply_ready : Prop := {
  rr_cur : ksTCBs s !! cur = Some tc;
  rr_dest : ksTCBs s !! dest = Some td;
  rr_ne : cur <> dest;
  rr_notaction : dest <> SchedulerAction_ResumeCurrentThread /\ dest <> SchedulerAction_ChooseNewThread;
  rr_run : tsType_of tc = ThreadState_Running;
  rr_fault : tcbFault tc = seL4_Fault_NullFault;
  rr_blocked : tsType_of td = ThreadState_BlockedOnReply;
  rr_dfault : tcbFault td = seL4_Fault_NullFault;
  rr_queued : tcbQueued (tcbState td) = false;
  rr_ep : ksEPs s !! ep = Some e;
  rr_state : ep_state e <> EPState_Send;
  rr_queue : epQueue_head e = 0 /\ tail = 0 \/ epQueue_head e <> 0 /\ tail <> 0 /\
    is_Some (ksTCBs s !! tail) /\ tail <> cur /\ tail <> dest;
  rr_signal : tcbBoundNotification tc <> 0 -> exists n, ksNTFNs s !! tcbBoundNotification tc = Some n /\
    ntfn_state n <> NtfnState_Active;
  rr_reply : ksCTEs s !! replySlot =
    Some (mk_cte (cap_reply_cap true true dest) (mdb_node_new callerSlot true true rp));
  rr_caller : ksCTEs s !! callerSlot =
    Some (mk_cte (cap_reply_cap grant false dest) (mdb_node_new 0 false false replySlot));
  rr_slot0 : replySlot <> 0;
  rr_buffers : is_Some (ksCTEs s !! TCB_PTR_CTE_PTR cur tcbBuffer) /\
    is_Some (ksCTEs s !! TCB_PTR_CTE_PTR dest tcbBuffer);
  rr_vspace : valid_vspace s dest asid root;
  rr_idle : cur <> ksIdleThread s;
  rr_dom : ksCurDomain s = 0 /\ tcbDomain td = 0;
  rr_action : ksSchedulerAction s = SchedulerAction_ResumeCurrentThread;
  rr_message : is_word (reg tc msgInfoRegister) /\ short_message (reg tc msgInfoRegister);
  rr_prio : isHighestPrio 0 (tcbPriority td) s = Some (true, s)
}.
Hypothesis Hr : reply_ready.

(** The endpoint once the current thread waits on it. *)
Definition ep_joined : endpoint :=
  mk_endpoint (if epQueue_head e =? 0 then cur else epQueue_head e) cur EPState_Recv.

(** The two slots once the reply capability is gone. *)
Definition slots_cleared (C : gmap Z cte) : Prop :=
  two_view replySlot callerSlot (ksCTEs s) C
    (mk_cte (cap_reply_cap true true dest) (mdb_node_new 0 true true rp)) null_cte.

Lemma reply_slots_ne : replySlot <> callerSlot.
Proof.
  intros H. pose proof (rr_reply Hr) as Hp. rewrite H, (rr_caller Hr) in Hp. discriminate Hp.
Qed.

Notation T0 := (link_at tail (set_tcbEPNext (fun _ => cur)) (ksTCBs s)).
Notation tv := (two_view cur dest T0).
Notation E1 := (<[ep := ep_joined]> (ksEPs s)).

(** The reply capability is deleted. *)
Lemma ipc_delete_reply T E o tr act xc Q :
  (forall C, slots_cleared C -> Q tt (ipc_state s C T E cur o tr act xc)) ->
  wp (cteDeleteOne callerSlot) Q (ipc_state s (ksCTEs s) T E cur o tr act xc).
Proof.
  intros HQ. pose proof reply_slots_ne as Hsn. pose proof (rr_slot0 Hr) as H0.
  assert (Hv : two_view replySlot callerSlot (ksCTEs s) (ksCTEs s)
    (mk_cte (cap_reply_cap true true dest) (mdb_node_new callerSlot true true rp))
    (mk_cte (cap_reply_cap grant false dest) (mdb_node_new 0 false false replySlot))).
  { apply two_view_refl; [apply (rr_reply Hr)|apply (rr_caller Hr)]. }
  unfold cteDeleteOne, isFinalCapability. wps. eapply ipc_getCTE; [exact (rr_caller Hr)|].
  cbn [cte_cap cap_is_null negb]. wps. eapply ipc_getCTE; [exact (rr_caller Hr)|].
  cbn [cte_cap cteMDBNode mdbPrev mdbNext]. rewrite (proj2 (Z.eqb_neq _ _) H0). wps.
  eapply ipc_getCTE; [exact (rr_reply Hr)|]. wps.
  apply (wp_mono _ (fun _ s' => s' = ipc_state s (ksCTEs s) T E cur o tr act xc)).
  { destruct (sameObjectAs _ _); [by wps|]. cbn [Z.eqb]. by wps. }
  intros final s' ->. cbn [finaliseCap_with isArchCap]. wps. eapply wp_from_option; [reflexivity|]. wps.
  unfold emptySlot. wps. eapply ipc_getCTE; [exact (rr_caller Hr)|]. cbn [cte_cap cap_is_null negb cteMDBNode mdbPrev mdbNext].
  rewrite (proj2 (Z.eqb_neq _ _) H0). cbn [negb Z.eqb]. unfold setNext, setCap, setMDB. wps.
  eapply pair_modSlotA; [exact Hsn|exact Hv|]. clear Hv. intros C1 Hv. wps.
  eapply pair_modSlotB; [exact Hsn|exact Hv|]. clear Hv. intros C2 Hv. wps.
  eapply pair_modSlotB; [exact Hsn|exact Hv|]. clear Hv. intros C3 Hv. cbn [postCapDeletion isArchCap]. wps.
  apply HQ. exact Hv.
Qed.

(** The current thread joins the endpoint's queue. *)
Definition joined_thread : tcb :=
  set_tcbEPNext (fun _ => 0) (set_tcbEPPrev (fun _ => tail)
    (upd_state (set_blockingIPCCanGrant (fun _ => canGrant)) (upd_state (set_blockingObject (fun _ => ep))
      (upd_state (set_tsType (fun _ => ThreadState_BlockedOnReceive)) tc)))).

Notation reply_done := (ipc_done s cur dest T0 slots_cleared E1 dest
  (switch_effect td dest asid root (ksCurFPUOwner s) (ksMachine s))).

Lemma slots_cleared_vslot C : slots_cleared C -> vslot_kept s dest C.
Proof.
  intros (_ & _ & Ho). destruct (vv_slot _ _ _ _ (rr_vspace Hr)) as (cv & Hcv & Hcap).
  unfold vslot_kept. rewrite Ho; [done|intros He..]; rewrite He in Hcv.
  - rewrite (rr_reply Hr) in Hcv. apply (inj Some) in Hcv. by subst cv.
  - rewrite (rr_caller Hr) in Hcv. apply (inj Some) in Hcv. by subst cv.
Qed.

(** The tail's link is the only change outside the two threads. *)
Lemma join_view T tc' td' :
  two_view cur dest (ksTCBs s) T tc' td' ->
  tv (link_at tail (set_tcbEPNext (fun _ => cur)) T) tc' td'.
Proof.
  intros HT. destruct (rr_queue Hr) as [[_ ->]|(_ & _ & _ & H1 & H2)]; [exact HT|by apply two_view_link].
Qed.

Lemma ipc_tcbEPAppend C T E x o tr act xc tc' td' Q :
  two_view cur dest (ksTCBs s) T tc' td' ->
  (forall T', tv T' (set_tcbEPNext (fun _ => 0) (set_tcbEPPrev (fun _ => tail) tc')) td' ->
     Q (mk_queue (epQueue_head ep_joined) cur) (ipc_state s C T' E x o tr act xc)) ->
  wp (tcbEPAppend cur (mk_queue (epQueue_head e) tail)) Q (ipc_state s C T E x o tr act xc).
Proof.
  intros HT HQ. pose proof (rr_ne Hr) as Hne. pose proof (join_view T tc' td' HT) as HT1.
  unfold tcbEPAppend. cbn [q_head q_end]. unfold ep_joined in HQ. cbn [epQueue_head] in HQ. wps.
  destruct (rr_queue Hr) as [[Hh Ht]|(Hh & Ht & [tt Htt] & H1 & H2)].
  - rewrite Hh, Ht in HQ |- *. cbn [Z.eqb] in HQ |- *. wps. eapply pair_modCur; [exact Hne|exact HT|].
    clear HT HT1. clear T. intros T HT. wps. eapply pair_modCur; [exact Hne|exact HT|].
    clear HT. clear T. intros T HT. wps. apply HQ. exact HT.
  - rewrite (proj2 (Z.eqb_neq _ _) Hh) in HQ |- *. wps. eapply ipc_modTCB.
    { destruct HT as (_ & _ & Ho). rewrite Ho by done. exact Htt. }
    assert (Hl : link_at tail (set_tcbEPNext (fun _ => cur)) T = <[tail := set_tcbEPNext (fun _ => cur) tt]> T).
    { unfold link_at. rewrite decide_False by done. destruct HT as (_ & _ & Ho). by rewrite Ho, Htt by done. }
    rewrite Hl in HT1. wps. eapply pair_modCur; [exact Hne|exact HT1|].
    clear HT HT1 Hl. clear T. intros T HT. wps. eapply pair_modCur; [exact Hne|exact HT|].
    clear HT. clear T. intros T HT. wps. apply HQ. exact HT.
Qed.

(** Waiting on the endpoint, from a state with an action pending. *)
Lemma ipc_receiveIPC b gr g sd C T o tr xc tc1 td1 Q :
  two_view cur dest (ksTCBs s) T tc1 td1 ->
  tcbBoundNotification tc1 = tcbBoundNotification tc ->
  (forall T', tv T' (set_tcbEPNext (fun _ => 0) (set_tcbEPPrev (fun _ => tail)
       (upd_state (set_blockingIPCCanGrant (fun _ => g)) (upd_state (set_blockingObject (fun _ => ep))
         (upd_state (set_tsType (fun _ => ThreadState_BlockedOnReceive)) tc1))))) td1 ->
     Q tt (ipc_state s C T' E1 cur o tr dest xc)) ->
  wp (receiveIPC cur (cap_endpoint_cap b gr g sd true ep) true)
    Q (ipc_state s C T (ksEPs s) cur o tr dest xc).
Proof.
  intros HT Hbn HQ. pose proof (rr_ne Hr) as Hne. destruct (rr_notaction Hr) as [Ha0 _].
  unfold receiveIPC. wps. eapply pair_getCur; [exact HT|]. wps. rewrite Hbn.
  apply (wp_mono _ (fun b s' => b = false /\ s' = ipc_state s C T (ksEPs s) cur o tr dest xc)).
  { destruct (Z.eqb_spec (tcbBoundNotification tc) 0) as [|Hb]; cbn [negb]; [by wps|].
    destruct (rr_signal Hr Hb) as (n & Hn & Hst). wps. eapply wp_getNTFN; [exact Hn|]. wps.
    by rewrite bool_decide_false. }
  intros ? s' [-> ->]. wps. eapply ipc_getEP; [exact (rr_ep Hr)|].
  set (blocked := modTCB cur (upd_state (set_tsType _)) ;;; _).
  assert (Hsel : forall rest, match ep_state e with EPState_Idle | EPState_Recv => blocked | EPState_Send => rest end = blocked).
  { intros rest. pose proof (rr_state Hr). by destruct (ep_state e). }
  rewrite Hsel. unfold blocked. clear Hsel blocked. wps.
  eapply pair_modCur; [exact Hne|exact HT|]. clear HT. clear T. intros T HT. wps.
  eapply pair_modCur; [exact Hne|exact HT|]. clear HT. clear T. intros T HT. wps.
  eapply pair_modCur; [exact Hne|exact HT|]. clear HT. clear T. intros T HT. wps.
  unfold scheduleTCB. wps. cbn [ksCurThread ksSchedulerAction ipc_state].
  rewrite Z.eqb_refl, (proj2 (Z.eqb_neq _ _) Ha0). cbn [andb]. wps.
  unfold ep_ptr_get_queue. wps. eapply ipc_getEP; [exact (rr_ep Hr)|]. wps.
  eapply ipc_tcbEPAppend; [exact HT|]. clear HT. clear T. intros T HT. wps.
  unfold endpoint_ptr_set_state, ep_ptr_set_queue. eapply ipc_modEP; [exact (rr_ep Hr)|]. wps.
  eapply ipc_modEP; [apply lookup_insert_eq|]. wps. eapply ipc_modEP; [apply lookup_insert_eq|].
  rewrite !insert_insert_eq. apply HQ. exact HT.
Qed.

(** The endpoint capability the current thread receives on. *)
Definition receives_on (b : Z) (gr sd : bool) : Prop :=
  is_word (reg tc capRegister) /\ cspace_wf (ksCTEs s) /\
  invoked s tc (cap_endpoint_cap b gr canGrant sd true ep).

(** The reply leaves the lookup of that capability as it was. *)
Lemma reply_lookup C T E x o tr act xc b gr sd Q :
  receives_on b gr sd -> slots_cleared C ->
  Q (EXCEPTION_NONE, cap_endpoint_cap b gr canGrant sd true ep) (ipc_state s C T E x o tr act xc) ->
  wp (lookupCap cur (reg tc capRegister)) Q (ipc_state s C T E x o tr act xc).
Proof.
  intros (Hcw & Hwf & c0 & slot & rem & ct & Hc0 & Hres & Hct & Hcap) HC HQ.
  assert (Hcn : cap_is_cnode (cap_reply_cap true true dest) = false /\
    cap_is_cnode (cap_reply_cap grant false dest) = false /\
    cap_is_cnode (cap_reply_cap true true dest) = false /\ cap_is_cnode cap_null_cap = false) by done.
  pose proof (two_view_cnodes _ _ _ _ _ _ _ _ HC (rr_reply Hr) (rr_caller Hr) Hcn) as Hk.
  pose proof (two_view_cspace_wf _ _ _ _ _ _ _ _ HC (rr_reply Hr) (rr_caller Hr) Hcn Hwf) as Hwf'.
  destruct (Hk _ _ Hc0) as (c0' & Hc0' & Hsame0).
  assert (Hcn0 : cap_is_cnode (cte_cap c0) = true) by (by eapply resolves_cnode).
  rewrite Hcn0 in Hsame0.
  assert (Hct' : C !! slot = Some ct).
  { destruct HC as (_ & _ & Ho). rewrite Ho; [done|intros ->..].
    - rewrite (rr_reply Hr) in Hct. apply (inj Some) in Hct. by subst ct.
    - rewrite (rr_caller Hr) in Hct. apply (inj Some) in Hct. by subst ct. }
  unfold lookupCap. wps. eapply wp_lookupSlot_resolved; [exact Hcw|exact Hwf'|exact Hc0'| |exact Hct'|].
  { rewrite Hsame0. eapply resolves_kept; [exact Hk|exact Hres]. }
  cbv beta iota. change (negb (is_none EXCEPTION_NONE)) with false. cbv iota. wps.
  eapply ipc_getCTE; [exact Hct'|]. rewrite Hcap. by wps.
Qed.

Section SlowReply.
Context (fuel : nat) (irq1 irq2 : Z) (L : mmu_labels) (getActiveIRQ : K Z) (irqInvalid : Z).

Lemma slow_reply b gr sd :
  receives_on b gr sd ->
  wp (handleSyscall fuel irq1 irq2 L getActiveIRQ irqInvalid SysReplyRecv)
    (fun _ => reply_done joined_thread (slow_partner tc td 0) []) s.
Proof.
  intros Hrec. pose proof (rr_ne Hr) as Hne. destruct (rr_notaction Hr) as [Ha0 Ha1].
  assert (HT : two_view cur dest (ksTCBs s) (ksTCBs s) tc td) by (apply two_view_refl; apply Hr).
  apply ipc_enter. unfold handleSyscall, handleReply, slot_cap. wps. cbn [ksCurThread ipc_state].
  eapply ipc_getCTE; [exact (rr_caller Hr)|]. wps. cbn [cte_cap]. wps.
  { apply negb_true_iff, Z.eqb_neq. congruence. }
  unfold doReplyTransfer. wps. eapply pair_getDest; [exact HT|]. wps.
  { apply bool_decide_true, (rr_blocked Hr). }
  rewrite (rr_dfault Hr). cbn [is_NullFault]. wps.
  apply (ipc_doIPCTransfer s cur dest Hne (ksTCBs s) (ksTCBs s) tc td);
    [exact HT|apply (rr_message Hr)|apply (rr_buffers Hr)|apply (rr_buffers Hr)|by rewrite (rr_fault Hr)|].
  clear HT. intros T HT. wps. apply ipc_delete_reply. intros C HC. wps.
  unfold setThreadState. wps. eapply pair_modDest; [exact Hne|exact HT|]. clear HT. clear T. intros T HT.
  unfold scheduleTCB. wps. cbn [ksCurThread ksSchedulerAction ipc_state].
  rewrite (proj2 (Z.eqb_neq dest cur)) by congruence. cbn [andb]. wps.
  unfold possibleSwitchTo. wps. eapply pair_getDest; [exact HT|]. wps.
  cbn [ksCurDomain ksSchedulerAction ipc_state]. destruct (rr_dom Hr) as [-> Hd].
  match goal with |- context [tcbDomain ?x] => change (tcbDomain x) with (tcbDomain td) end.
  rewrite Hd, (rr_action Hr), !Z.eqb_refl. cbn [negb]. apply ipc_setSchedulerAction.
  unfold handleRecv, getRegister. wps. cbn [ksCurThread ipc_state]. wps.
  eapply pair_getCur; [exact HT|]. wps. apply (reply_lookup _ _ _ _ _ _ _ _ b gr sd _ Hrec HC).
  cbv beta iota. change (negb (is_none EXCEPTION_NONE)) with false. cbn [negb]. wps.
  unfold deleteCallerCap, cteDeleteOne. wps. eapply ipc_getCTE; [apply HC|]. cbn [null_cte cte_cap cap_is_null negb]. wps.
  eapply ipc_receiveIPC; [exact HT|done|]. clear HT. clear T. intros T HT.
  eapply (ipc_kernel_exit s cur dest asid root joined_thread (slow_partner tc td 0));
    [apply HT|apply HT|apply (rr_vspace Hr)|by apply slots_cleared_vslot|exact Hne
    |done|done|done|exact (rr_queued Hr)|apply (rr_idle Hr)|apply (rr_dom Hr)
    |intros _; exact (rr_prio Hr)|].
  exists T, C. split_and!; [exact HT|exact HC|done].
Qed.
End SlowReply.

(** The fast version of joining the queue. *)
Lemma ipc_fastpath_ep_append C T x o tr act xc tc' td' Q :
  two_view cur dest (ksTCBs s) T tc' td' ->
  (forall T', tv T' (set_tcbEPNext (fun _ => 0) (set_tcbEPPrev (fun _ => tail) tc')) td' ->
     Q tt (ipc_state s C T' E1 x o tr act xc)) ->
  wp (fastpath_ep_append cur ep) Q (ipc_state s C T (ksEPs s) x o tr act xc).
Proof.
  intros HT HQ. pose proof (rr_ne Hr) as Hne. pose proof (join_view T tc' td' HT) as HT1.
  unfold fastpath_ep_append. wps. eapply ipc_getEP; [exact (rr_ep Hr)|]. unfold ep_joined in HQ.
  destruct (rr_queue Hr) as [[Hh Ht]|(Hh & Ht & [tt Htt] & H1 & H2)].
  - rewrite Hh in HQ. rewrite Ht in HQ |- *. cbn [Z.eqb] in HQ |- *. wps. eapply pair_modCur; [exact Hne|exact HT|].
    clear HT HT1. clear T. intros T HT. wps. eapply pair_modCur; [exact Hne|exact HT|].
    clear HT. clear T. intros T HT. wps. eapply ipc_modEP; [exact (rr_ep Hr)|].
    eapply ipc_modEP; [apply lookup_insert_eq|]. rewrite insert_insert_eq. apply HQ. exact HT.
  - rewrite (proj2 (Z.eqb_neq _ _) Hh) in HQ. rewrite (proj2 (Z.eqb_neq _ _) Ht). wps. eapply ipc_modTCB.
    { destruct HT as (_ & _ & Ho). rewrite Ho by done. exact Htt. }
    assert (Hl : link_at tail (set_tcbEPNext (fun _ => cur)) T = <[tail := set_tcbEPNext (fun _ => cur) tt]> T).
    { unfold link_at. rewrite decide_False by done. destruct HT as (_ & _ & Ho). by rewrite Ho, Htt by done. }
    rewrite Hl in HT1. wps. eapply pair_modCur; [exact Hne|exact HT1|].
    clear HT HT1 Hl. clear T. intros T HT. wps. eapply pair_modCur; [exact Hne|exact HT|].
    clear HT. clear T. intros T HT. eapply ipc_modEP; [exact (rr_ep Hr)|]. apply HQ. exact HT.
Qed.

Lemma fast_reply :
  wp (fastpath_reply_recv_commit cur dest ep canGrant root asid (reg tc msgInfoRegister))
    (fun _ => reply_done joined_thread (fast_partner tc td 0) (current_extra_caps s)) s.
Proof.
  pose proof (rr_ne Hr) as Hne. pose proof reply_slots_ne as Hsn.
  unfold fastpath_reply_recv_commit. apply ipc_enter.
  assert (HT : two_view cur dest (ksTCBs s) (ksTCBs s) tc td) by (apply two_view_refl; apply Hr).
  assert (Hv : two_view replySlot callerSlot (ksCTEs s) (ksCTEs s)
    (mk_cte (cap_reply_cap true true dest) (mdb_node_new callerSlot true true rp))
    (mk_cte (cap_reply_cap grant false dest) (mdb_node_new 0 false false replySlot))).
  { apply two_view_refl; [apply (rr_reply Hr)|apply (rr_caller Hr)]. }
  wps. eapply pair_modCur; [exact Hne|exact HT|]. clear HT. intros T HT. wps.
  eapply pair_modCur; [exact Hne|exact HT|]. clear HT. clear T. intros T HT. wps.
  eapply ipc_fastpath_ep_append; [exact HT|]. clear HT. clear T. intros T HT. wps.
  eapply ipc_getCTE; [exact (rr_caller Hr)|]. cbn [cteMDBNode mdbPrev]. wps.
  eapply pair_modSlotA; [exact Hsn|exact Hv|]. clear Hv. intros C1 Hv. wps.
  eapply pair_modSlotB; [exact Hsn|exact Hv|]. clear Hv. intros C2 Hv. wps.
  eapply pair_modSlotB; [exact Hsn|exact Hv|]. clear Hv. intros C3 Hv. wps.
  apply (ipc_fastpath_copy_mrs s cur dest Hne T0 T joined_thread td); [exact HT|apply (rr_message Hr)|].
  clear HT. clear T. intros T HT. wps. eapply pair_modDest; [exact Hne|exact HT|]. clear HT. clear T.
  intros T HT. wps. eapply (ipc_switchToThread_fp s cur dest asid root); [apply HT|apply (rr_vspace Hr)|].
  wps. cbn [ksCurThread ipc_state]. unfold fastpath_restore, setRegister. wps.
  eapply pair_modDest; [exact Hne|exact HT|]. clear HT. clear T. intros T HT.
  eapply pair_modDest; [exact Hne|exact HT|]. clear HT. clear T. intros T HT.
  exists T, C3. rewrite (rr_action Hr). split_and!; [exact HT|exact Hv|done].
Qed.
End Reply.

(** Invariants of the reply capabilities that threads hold. *)
Record caller_slots_ok (s : kstate) : Prop := {
  cs_reply : forall x t c g m y, ksTCBs s !! x = Some t ->
    ksCTEs s !! TCB_PTR_CTE_PTR x tcbCaller = Some c -> cte_cap c = cap_reply_cap g m y ->
    m = false /\ TCB_PTR_CTE_PTR y tcbReply <> 0 /\
    cteMDBNode c = mdb_node_new 0 false false (TCB_PTR_CTE_PTR y tcbReply) /\
    (exists ty, ksTCBs s !! y = Some ty /\ tsType_of ty = ThreadState_BlockedOnReply) /\
    exists rp, ksCTEs s !! TCB_PTR_CTE_PTR y tcbReply =
      Some (mk_cte (cap_reply_cap true true y) (mdb_node_new (TCB_PTR_CTE_PTR x tcbCaller) true true rp));
  cs_bound : forall x t, ksTCBs s !! x = Some t -> tcbBoundNotification t <> 0 ->
    is_Some (ksNTFNs s !! tcbBoundNotification t)
}.

(** The queue of an endpoint that nobody sends to. *)
Lemma receivers_queue s q ep e x t y ty :
  ipc_wf s q [] -> ksEPs s !! ep = Some e ->
  ksTCBs s !! x = Some t -> blocked_on t = None -> ksTCBs s !! y = Some ty -> blocked_on ty = None ->
  epQueue_head e = 0 /\ epQueue_tail e = 0 \/ epQueue_head e <> 0 /\ epQueue_tail e <> 0 /\
    is_Some (ksTCBs s !! epQueue_tail e) /\ epQueue_tail e <> x /\ epQueue_tail e <> y.
Proof.
  intros Hi He Hx Hbx Hy Hby. pose proof (iw_waiting _ _ _ Hi (WEP ep)) as Hw. cbn [waiting] in Hw.
  rewrite He in Hw. cbn in Hw. destruct Hw as (Hqu & _ & _). injection Hqu as Hh Ht.
  destruct (decide (q (WEP ep) = [])) as [Hn|Hn]; [rewrite Hn in Hh, Ht; left; done|right].
  assert (Hin : forall v, v ∈ q (WEP ep) -> v <> 0 /\ is_Some (ksTCBs s !! v) /\ v <> x /\ v <> y).
  { intros v Hv. assert (is_Some (ksTCBs s !! v)) as Hs by (by eapply iw_cells). split_and!.
    - by eapply iw_nonnull.
    - done.
    - intros ->. by eapply (unblocked_out s q [] x t (WEP ep)).
    - intros ->. by eapply (unblocked_out s q [] y ty (WEP ep)). }
  assert (H1 : epQueue_head e ∈ q (WEP ep)) by (rewrite Hh; by apply hd_or_in).
  assert (H2 : epQueue_tail e ∈ q (WEP ep)) by (rewrite Ht; by apply last_or_in).
  split; [apply (Hin _ H1)|apply (Hin _ H2)].
Qed.

Section ReplyTheorem.
Context (fuel : nat) (irq1 irq2 : Z) (L : mmu_labels) (getActiveIRQ : K Z) (irqInvalid : Z).
Notation slow := (handleSyscall fuel irq1 irq2 L getActiveIRQ irqInvalid).
Context (s : kstate) (rq : queues) (q : wobj -> list Z) (tc : tcb).
Notation cur := (ksCurThread s).

Lemma reply_ready_intro ep e dest td asid root gg cc :
  kinv s rq q -> user_entry s tc -> tcb_slots_ok s -> caller_slots_ok s ->
  short_message (reg tc msgInfoRegister) -> tcbFault tc = seL4_Fault_NullFault ->
  (tcbBoundNotification tc <> 0 -> exists n, ksNTFNs s !! tcbBoundNotification tc = Some n /\
    ntfn_state n <> NtfnState_Active) ->
  ksEPs s !! ep = Some e -> ep_state e <> EPState_Send ->
  ksCTEs s !! TCB_PTR_CTE_PTR cur tcbCaller = Some cc -> cte_cap cc = cap_reply_cap gg false dest ->
  ksTCBs s !! dest = Some td -> tcbFault td = seL4_Fault_NullFault -> valid_vspace s dest asid root ->
  isHighestPrio 0 (tcbPriority td) s = Some (true, s) ->
  exists rp, reply_ready s dest ep asid root tc td e rp gg.
Proof.
  intros Hk [Hc Hrun Hidle Hact [Hcw Hmw]] Hts Hcs Hsm Hnf Hsig He Hst Hcc Hccap Ht Hdf Hv Hp.
  destruct (cs_reply _ Hcs cur tc cc gg false dest Hc Hcc Hccap) as (_ & Hr0 & Hmdb & (td' & Ht' & Hty) & rp & Hrp).
  assert (td' = td) as -> by congruence.
  assert (Hb : blocked_on tc = None) by (unfold blocked_on; by rewrite Hrun).
  assert (Hbd : blocked_on td = None) by (unfold blocked_on; by rewrite Hty).
  pose proof (iw_null _ _ _ (proj2 Hk)). pose proof (iw_action _ _ _ (proj2 Hk)).
  exists rp. split; try done.
  - intros He2. rewrite He2 in Hc. congruence.
  - unfold SchedulerAction_ResumeCurrentThread. split; congruence.
  - eapply not_runnable_not_queued; [apply Hk|exact Ht|]. unfold isRunnable_tcb. by rewrite Hty.
  - by eapply (receivers_queue s q ep e cur tc dest td (proj2 Hk)).
  - rewrite Hcc. f_equal. destruct cc. cbn in *. congruence.
  - by split; eapply ts_present.
  - split; [apply (si_dom _ _ (proj1 Hk))|].
    by apply (qwf_prio _ _ _ (proj1 (si_ready _ _ (proj1 Hk))) dest td Ht).
Qed.

(** C5: A reply that takes the fastpath and then waits for the next call
    leaves exactly the state the ordinary handler leaves, up to fields that
    nothing reads; if a check fails the ordinary handler runs. *)
Theorem fastpath_reply_recv_correct :
  kinv s rq q -> user_entry s tc -> tcb_slots_ok s -> caller_slots_ok s -> cspace_inv s ->
  agree s slow SysReplyRecv (fastpath_reply_recv slow (reg tc capRegister) (reg tc msgInfoRegister)).
Proof.
  intros Hk Hu Hts Hcs Hci. pose proof (proj1 Hk) as Hs. pose proof (ue_cur _ _ Hu) as Hc.
  apply agree_entry; [done..|]. intros Hsm Hnf c Hlook.
  destruct c as [| |badge gr g sd rv ep| | | | | | | | | | | | | | ]; try apply agree_slow.
  destruct rv; [|apply agree_slow]. destruct Hlook as [Hbad|Hinv]; [discriminate Hbad|].
  apply (agree_bind _ _ _ _ _ (fun b => b = false -> tcbBoundNotification tc <> 0 ->
    exists n, ksNTFNs s !! tcbBoundNotification tc = Some n /\ ntfn_state n <> NtfnState_Active)).
  { destruct (Z.eqb_spec (tcbBoundNotification tc) 0) as [H0|H0]; cbn [negb]; [by apply wp_ret|].
    destruct (cs_bound _ Hcs cur tc Hc H0) as [n Hn]. wps. eapply wp_getNTFN; [exact Hn|]. wps. split; [done|].
    intros Hbd _. exists n. split; [done|]. by apply bool_decide_eq_false in Hbd. }
  intros active Hsig. apply agree_guard. intros ->.
  assert (is_Some (ksEPs s !! ep)) as [e He].
  { destruct Hinv as (c0 & slot & rem & ct & _ & _ & Hct & Hcap). by eapply (ci_eps _ Hci). }
  apply (agree_bind _ _ _ _ _ (fun a => a = e)); [by eapply wp_getEP|]. intros ? ->.
  apply agree_guard. intros Hst%bool_decide_eq_false.
  destruct (ts_present _ Hts cur tc tcbCaller Hc) as [cc Hcc]; [done|].
  apply (agree_bind _ _ _ _ _ (fun a => a = cc)); [by eapply wp_getCTE|]. intros ? ->.
  destruct (cte_cap cc) as [| | | |gg m dest| | | | | | | | | | | | ] eqn:Hccap; try apply agree_slow.
  cbn [fastpath_reply_cap_check negb].
  destruct (cs_reply _ Hcs cur tc cc gg m dest Hc Hcc Hccap) as (-> & _ & _ & (td & Ht & _) & _).
  apply (agree_bind _ _ _ _ _ (fun a => a = td)); [by eapply wp_getTCB|]. intros ? ->.
  apply agree_guard. intros Hdf%negb_false_iff%Z.eqb_eq%NullFault_type.
  apply (agree_vspace s slow SysReplyRecv dest td); [apply (si_vm _ _ Hs)|done|done|].
  intros root asid Hv. change (negb (maxDom =? 0)) with false. cbv iota.
  apply (agree_bind _ _ _ _ _ (fun a => a = 0)); [by apply wp_ret|]. intros ? ->.
  eapply agree_bind; [apply (wp_isHighestPrio_answer s rq _ (si_ready _ _ Hs))|]. intros hp Hhp.
  apply (agree_bind _ _ _ _ _ (fun _ => True)); [by apply wp_gets|]. intros a _.
  apply agree_guard. intros ->%negb_false_iff. change (0 <? maxDom) with false. rewrite andb_false_r.
  destruct (reply_ready_intro ep e dest td asid root gg cc) as [rp Hr]; try done; [by apply Hsig|by apply Hhp|].
  assert (Hi : receives_on s ep tc g badge gr sd) by (split_and!; [apply Hu|apply Hci|done]).
  eapply agree_done; cycle 3; [exact (fast_reply _ _ _ _ _ _ _ _ _ _ g Hr)
    |exact (slow_reply _ _ _ _ _ _ _ _ _ _ g Hr fuel irq1 irq2 L getActiveIRQ irqInvalid badge gr sd Hi)
    |intros C C'; apply two_view_eq|done|apply forget_partner].
Qed.
End ReplyTheorem.

(** ** Concrete states

    Client A and server B share a CNode of four slots, whose slot 1 names an
    endpoint, and an address space with the identifier 300. *)
Definition fp_node : Z := 65536.
Definition fp_root : Z := 131072.
Definition fp_pool : Z := 135168.
Definition fp_cspace : cap := cap_cnode_cap 2 62 0 fp_node.
Definition fp_vspace : cap := cap_vspace_cap 300 fp_root true.
Definition bare (c : cap) : cte := mk_cte c nullMDBNode.
Definition reply_master (x next : Z) : cte := mk_cte (cap_reply_cap true true x) (mdb_node_new next true true 0).
Definition thread_slots (x : Z) (l : list cte) : list (Z * cte) :=
  imap (fun i c => (TCB_PTR_CTE_PTR x (Z.of_nat i), c)) l.
Definition fp_ctes (next : Z) (caller : cte) : gmap Z cte := list_to_map (
  thread_slots idle_ptr [null_cte; null_cte; null_cte; null_cte; null_cte] ++
  thread_slots tcb_A [bare fp_cspace; bare fp_vspace; reply_master tcb_A next; null_cte; null_cte] ++
  thread_slots tcb_B [bare fp_cspace; bare fp_vspace; reply_master tcb_B 0; caller; null_cte] ++
  [(cte_offset fp_node 0, null_cte); (cte_offset fp_node 1, bare (cap_endpoint_cap 5 true true true true ep_ptr));
   (cte_offset fp_node 2, null_cte); (cte_offset fp_node 3, null_cte)]).
Definition fp_pools : gmap Z asid_pool := <[fp_pool := <[300 := asid_map_vspace fp_root]> ∅]> ∅.
Definition fp_tcbs (a b : tcb) : gmap Z tcb :=
  <[tcb_A := a]> (<[tcb_B := b]> (<[idle_ptr := mk_thread ThreadState_IdleThreadState 0]> ∅)).
Definition fp_state (next : Z) (caller : cte) (a b : tcb) (e : endpoint) (cur : Z) : kstate :=
  state_vm ∅ fp_pools (<[0 := fp_pool]> ∅) (fp_ctes next caller) (fp_tcbs a b) (<[ep_ptr := e]> ∅) ∅
    cur SchedulerAction_ResumeCurrentThread.

(** A user thread with a capability register and a message of two words. *)
Definition user_thread (prio x y : Z) : tcb :=
  set_tcbContext (fun _ => <[capRegister := 1]> (<[msgInfoRegister := 2]> (<[2 := x]> (<[3 := y]> ∅))))
    (mk_thread ThreadState_Running prio).
Definition replyB_caller : cte :=
  mk_cte (cap_reply_cap true false tcb_A) (mdb_node_new 0 false false (TCB_PTR_CTE_PTR tcb_A tcbReply)).

(** A calls while B waits; B replies while A waits for the reply. *)
Definition s_call : kstate :=
  fp_state 0 null_cte (user_thread 100 7 9) (as_receiver ep_ptr true (mk_thread ThreadState_Running 200))
    (mk_endpoint tcb_B tcb_B EPState_Recv) tcb_A.
Definition s_reply : kstate :=
  fp_state (TCB_PTR_CTE_PTR tcb_B tcbCaller) replyB_caller
    (upd_state (set_tsType (fun _ => ThreadState_BlockedOnReply)) (user_thread 100 7 9)) (user_thread 200 11 13)
    zero_endpoint tcb_B.

Section Concrete.
Context (next : Z) (caller : cte) (a b : tcb) (e : endpoint) (cur : Z).
Notation s := (fp_state next caller a b e cur).
Hypothesis Hcaller : caller = null_cte \/ caller = replyB_caller.

(** The CNode and endpoint capabilities of the state. *)
Definition fp_cap_ok (c : cte) : bool :=
  match cte_cap c with
  | cap_cnode_cap radix gb guard ptr => bool_decide (cte_cap c = fp_cspace)
  | cap_endpoint_cap _ _ _ _ _ ep => ep =? ep_ptr
  | _ => true
  end.

Lemma fp_caps p c : fp_ctes next caller !! p = Some c -> fp_cap_ok c = true.
Proof.
  intros Hp. apply elem_of_list_to_map_2 in Hp. revert p c Hp.
  match goal with |- forall p c, (p, c) ∈ ?l -> _ =>
    enough (HF : Forall (fun pc => fp_cap_ok pc.2 = true) l) end.
  - intros p c Hp. rewrite Forall_forall in HF. apply (HF (p, c) Hp).
  - by destruct Hcaller as [->| ->]; repeat constructor.
Qed.

Lemma fp_cspace_inv : cspace_inv s.
Proof.
  assert (Hnode : forall c, fp_cap_ok c = true -> cap_is_cnode (cte_cap c) = true -> cte_cap c = fp_cspace).
  { intros c Hok Hcn. unfold fp_cap_ok in Hok. destruct (cte_cap c); try done. by apply bool_decide_eq_true in Hok. }
  split.
  - intros p c Hc. pose proof (fp_caps p c Hc) as Hok.
    destruct (cap_is_cnode (cte_cap c)) eqn:Hcn; [|by destruct (cte_cap c)].
    rewrite (Hnode c Hok Hcn). cbn. unfold wordBits. do 4 (split; [lia|]). intros i Hi. cbn in Hi.
    assert (i = 0 \/ i = 1 \/ i = 2 \/ i = 3) as Hcase by lia.
    destruct Hcase as [->|[->|[->| ->]]]; by eexists.
  - intros p c Hc. pose proof (fp_caps p c Hc) as Hok.
    destruct (cap_is_cnode (cte_cap c)) eqn:Hcn; [|by destruct (cte_cap c)].
    rewrite (Hnode c Hok Hcn). done.
  - intros p c bd gr g sd rv ep Hc Hcap. pose proof (fp_caps p c Hc) as Hok. unfold fp_cap_ok in Hok.
    rewrite Hcap in Hok. apply Z.eqb_eq in Hok as ->. by eexists.
Qed.

Lemma fp_threads x t : fp_tcbs a b !! x = Some t ->
  x = tcb_A /\ t = a \/ x = tcb_B /\ t = b \/ x = idle_ptr /\ t = mk_thread ThreadState_IdleThreadState 0.
Proof.
  unfold fp_tcbs. rewrite !lookup_insert_Some, lookup_empty. clear. naive_solver.
Qed.

Lemma fp_vm : vm_ok s.
Proof.
  assert (Ht : forall i, asid_table s i = if decide (i = 0) then fp_pool else 0).
  { intros i. unfold asid_table. cbn. destruct (decide (i = 0)) as [->|Hn]; [done|].
    by rewrite lookup_insert_ne, lookup_empty by congruence. }
  split.
  - intros x [t Hx]. destruct Hcaller as [->| ->];
      destruct (fp_threads x t Hx) as [[-> _]|[[-> _]|[-> _]]]; by eexists.
  - intros i. rewrite Ht. case_decide; [by eexists|done].
  - intros i j. rewrite !Ht. repeat case_decide; congruence.
Qed.

Hypothesis Hfresh : map_Forall thread_fresh (fp_tcbs a b).
Hypothesis Hcur : cur = tcb_A \/ cur = tcb_B.

Lemma fp_sched : sched_inv s (fun _ => []).
Proof.
  apply empty_sched_inv_vm; [done|exact fp_vm|by destruct Hcur as [->| ->]; eexists|by eexists|by left].
Qed.

Hypothesis Ha : tsType_of a <> ThreadState_BlockedOnReceive /\ (tsType_of a = ThreadState_Running -> next = 0).
Hypothesis Hb : tsType_of b = ThreadState_BlockedOnReceive -> caller = null_cte.

Lemma fp_slots : tcb_slots_ok s.
Proof.
  split.
  - intros x t i Hx Hi. unfold tcbCNodeEntries in Hi.
    assert (i = 0 \/ i = 1 \/ i = 2 \/ i = 3 \/ i = 4) as Hc by lia.
    destruct Hcaller as [->| ->]; destruct (fp_threads x t Hx) as [[-> _]|[[-> _]|[-> _]]];
      destruct Hc as [->|[->|[->|[->| ->]]]]; by eexists.
  - intros x t Hx Hty. destruct (fp_threads x t Hx) as [[-> ->]|[[-> ->]|[-> ->]]]; [| |done].
    + exists 0. by rewrite (proj2 Ha Hty).
    + by exists 0.
  - intros x t Hx Hty. destruct (fp_threads x t Hx) as [[-> ->]|[[-> ->]|[-> ->]]]; [by destruct Ha| |done].
    by rewrite (Hb Hty).
  - intros x t c asid root Hx Hc Hcap. assert (Hasid : c = bare fp_vspace \/ c = null_cte).
    { destruct (fp_threads x t Hx) as [[-> _]|[[-> _]|[-> _]]]; cbn in Hc; apply (inj Some) in Hc; auto. }
    destruct Hasid as [->| ->]; [|done]. cbn in Hcap. injection Hcap as <- <-. lia.
Qed.
End Concrete.

Definition q_call : wobj -> list Z := updq (fun _ => []) (WEP ep_ptr) [tcb_B].

Lemma fp_fresh_call : map_Forall thread_fresh (ksTCBs s_call).
Proof. apply (bool_decide_unpack _). vm_compute. exact I. Qed.
Lemma fp_fresh_reply : map_Forall thread_fresh (ksTCBs s_reply).
Proof. apply (bool_decide_unpack _). vm_compute. exact I. Qed.

Lemma s_call_kinv : kinv s_call (fun _ => []) q_call.
Proof.
  split; [apply fp_sched; [by left|exact fp_fresh_call|by left]|].
  assert (Hq : forall o, q_call o = if decide (o = WEP ep_ptr) then [tcb_B] else []) by done.
  split; try done.
  - intros o. rewrite Hq. case_decide as Ho; [subst o|].
    + cbn. rewrite lookup_insert_eq. split_and!; [done|done|]. intros x ->%list_elem_of_singleton. by eexists.
    + destruct o as [ep|nt]; cbn; [|done].
      by rewrite lookup_insert_ne, lookup_empty by congruence.
  - intros o. rewrite Hq. case_decide; [by apply dlist_singleton|apply dlist_nil].
  - intros x t o Hx Hbl. right. rewrite Hq.
    destruct (fp_threads _ _ _ _ Hx) as [[-> ->]|[[-> ->]|[-> ->]]]; try discriminate Hbl.
    injection Hbl as <-. rewrite decide_True by done. by left.
  - intros x o Hx. set_solver.
Qed.

Lemma s_reply_kinv : kinv s_reply (fun _ => []) (fun _ => []).
Proof.
  split; [apply fp_sched; [by right|exact fp_fresh_reply|by right]|].
  split; try done.
  - intros [ep|nt]; cbn; [|done].
    destruct (decide (ep = ep_ptr)) as [->|]; [rewrite lookup_insert_eq|by rewrite lookup_insert_ne, lookup_empty by congruence].
    split_and!; [done|done|]. intros x Hx. by apply elem_of_nil in Hx.
  - intros o. apply dlist_nil.
  - intros x t o Hx Hbl.
    destruct (fp_threads _ _ _ _ Hx) as [[-> ->]|[[-> ->]|[-> ->]]]; discriminate Hbl.
  - intros x o Hx. set_solver.
Qed.

Lemma s_reply_callers : caller_slots_ok s_reply.
Proof.
  split.
  - intros x t c g m y Hx Hc Hcap.
    destruct (fp_threads _ _ _ _ Hx) as [[-> _]|[[-> _]|[-> _]]]; cbn in Hc; apply (inj Some) in Hc; subst c;
      try discriminate Hcap.
    cbn in Hcap. injection Hcap as <- <- <-.
    split_and!; [done|done|done|by eexists|by exists 0].
  - intros x t Hx Hn. destruct (fp_threads _ _ _ _ Hx) as [[_ ->]|[[_ ->]|[_ ->]]]; by destruct Hn.
Qed.

(** With an ordinary handler that always fails, the call still succeeds: it
    takes the fastpath, and B runs with the badge and the message. *)
Example fastpath_call_taken :
  (fun r => (ksCurThread r.2, (fun t => map (reg t) [0; 1; 2; 3]) <$> ksTCBs r.2 !! tcb_B))
    <$> fastpath_call (fun _ => fail) 1 2 s_call = Some (tcb_B, Some [5; 2; 7; 9]).
Proof. vm_compute. reflexivity. Qed.

(** And B's reply switches to A, at a lower priority, with the answer. *)
Example fastpath_reply_recv_taken :
  (fun r => (ksCurThread r.2, (fun t => map (reg t) [0; 1; 2; 3]) <$> ksTCBs r.2 !! tcb_A,
             epQueue_head <$> ksEPs r.2 !! ep_ptr))
    <$> fastpath_reply_recv (fun _ => fail) 1 2 s_reply = Some (tcb_A, Some [0; 2; 11; 13], Some tcb_B).
Proof. vm_compute. reflexivity. Qed.

Lemma user_entry_A : user_entry s_call (user_thread 100 7 9).
Proof. by split. Qed.
Lemma user_entry_B : user_entry s_reply (user_thread 200 11 13).
Proof. by split. Qed.

Lemma fastpath_call_correct_witness :
  kinv s_call (fun _ => []) q_call /\
  agree s_call (handleSyscall 1 0 0 mmu_labels_0 (ret 0) 0) SysCall
    (fastpath_call (handleSyscall 1 0 0 mmu_labels_0 (ret 0) 0) 1 2).
Proof.
  split; [exact s_call_kinv|].
  apply (fastpath_call_correct 1 0 0 mmu_labels_0 (ret 0) 0 s_call (fun _ => []) q_call (user_thread 100 7 9)
    s_call_kinv user_entry_A).
  - apply fp_slots; [by left|by split|done].
  - apply fp_cspace_inv. by left.
Defined.

Lemma fastpath_reply_recv_correct_witness :
  kinv s_reply (fun _ => []) (fun _ => []) /\
  agree s_reply (handleSyscall 1 0 0 mmu_labels_0 (ret 0) 0) SysReplyRecv
    (fastpath_reply_recv (handleSyscall 1 0 0 mmu_labels_0 (ret 0) 0) 1 2).
Proof.
  split; [exact s_reply_kinv|].
  apply (fastpath_reply_recv_correct 1 0 0 mmu_labels_0 (ret 0) 0 s_reply (fun _ => []) (fun _ => [])
    (user_thread 200 11 13) s_reply_kinv user_entry_B).
  - apply fp_slots; [by right|by split|done].
  - exact s_reply_callers.
  - apply fp_cspace_inv. by right.
Defined.
