(* ===== verification/Bytes.v ===== *)
(** * Byte buffers of the user-level servers

    Buffers are lists of bytes; an access outside a buffer is an error, not a
    default value.  Words are stored in little-endian order.  C strings are
    lists of non-zero bytes; [cstr] reads one from a buffer.  The last section
    is a loop with early exit whose bound is a binary number, for [while]
    loops whose only bound is the number of 28-bit words. *)
From Stdlib Require Import ZArith Lia.
From stdpp Require Import base list option.
From S2P Require Import Prelude.
#[local] Open Scope Z_scope.

(** ** Fixed-width words *)
Definition u8 (x : Z) : Z := x mod 2 ^ 8.
Definition u16 (x : Z) : Z := x mod 2 ^ 16.
Definition u32 (x : Z) : Z := x mod 2 ^ 32.

Definition is_byte (b : Z) : Prop := 0 <= b < 256.

(** [n] bytes of [buf] from [off]. *)
Definition slice (buf : list Z) (off n : Z) : option (list Z) :=
  if (0 <=? off) && (0 <=? n) && (off + n <=? Z.of_nat (length buf))
  then Some (take (Z.to_nat n) (drop (Z.to_nat off) buf)) else None.

(** [buf] with the bytes [bs] stored at [off]. *)
Definition put_bytes (buf : list Z) (off : Z) (bs : list Z) : option (list Z) :=
  if (0 <=? off) && (off + Z.of_nat (length bs) <=? Z.of_nat (length buf))
  then Some (take (Z.to_nat off) buf ++ bs ++ drop (Z.to_nat off + length bs) buf) else None.

Definition le16 (x : Z) : list Z := [u8 x; u8 (x / 2 ^ 8)].
Definition le32 (x : Z) : list Z := [u8 x; u8 (x / 2 ^ 8); u8 (x / 2 ^ 16); u8 (x / 2 ^ 24)].

Fixpoint le_val (bs : list Z) : Z :=
  match bs with [] => 0 | b :: bs' => b + 2 ^ 8 * le_val bs' end.

Definition load8 (buf : list Z) (off : Z) : option Z := le_val <$> slice buf off 1.
Definition load16 (buf : list Z) (off : Z) : option Z := le_val <$> slice buf off 2.
Definition load32 (buf : list Z) (off : Z) : option Z := le_val <$> slice buf off 4.

(** ** C strings *)
Fixpoint cstr (buf : list Z) : list Z :=
  match buf with [] => [] | b :: buf' => if b =? 0 then [] else b :: cstr buf' end.

Definition upper (c : Z) : Z := if (97 <=? c) && (c <=? 122) then c - 32 else c.

Lemma le_val_le32 x : 0 <= x < 2 ^ 32 -> le_val (le32 x) = x.
Proof. intros H. unfold le32, u8. cbn [le_val]. Z.div_mod_to_equations. lia. Qed.

Lemma le_val_le16 x : 0 <= x < 2 ^ 16 -> le_val (le16 x) = x.
Proof. intros H. unfold le16, u8. cbn [le_val]. Z.div_mod_to_equations. lia. Qed.

Lemma le_val_bound bs : Forall is_byte bs -> 0 <= le_val bs < 2 ^ (8 * Z.of_nat (length bs)).
Proof.
  induction 1 as [|b bs Hb _ IH]; [done|]. cbn [le_val length]. unfold is_byte in Hb.
  rewrite Nat2Z.inj_succ, Z.mul_succ_r, Z.pow_add_r by lia. change (2 ^ 8) with 256 in *. nia.
Qed.

Lemma le32_bytes x : Forall is_byte (le32 x).
Proof. unfold le32. repeat constructor; apply (Z.mod_pos_bound _ 256); lia. Qed.

Lemma le16_bytes x : Forall is_byte (le16 x).
Proof. unfold le16. repeat constructor; apply (Z.mod_pos_bound _ 256); lia. Qed.

Lemma slice_Some buf off n :
  0 <= off -> 0 <= n -> off + n <= Z.of_nat (length buf) ->
  slice buf off n = Some (take (Z.to_nat n) (drop (Z.to_nat off) buf)).
Proof. intros. unfold slice. by rewrite !(proj2 (Z.leb_le _ _)) by lia. Qed.

Lemma slice_inv buf off n bs :
  slice buf off n = Some bs ->
  0 <= off /\ 0 <= n /\ off + n <= Z.of_nat (length buf) /\ bs = take (Z.to_nat n) (drop (Z.to_nat off) buf).
Proof.
  unfold slice. destruct (_ && _) eqn:E; [|done]. intros H. injection H as <-. bool_hyps. done.
Qed.

Lemma put_bytes_Some buf off bs :
  0 <= off -> off + Z.of_nat (length bs) <= Z.of_nat (length buf) ->
  put_bytes buf off bs = Some (take (Z.to_nat off) buf ++ bs ++ drop (Z.to_nat off + length bs) buf).
Proof. intros. unfold put_bytes. by rewrite !(proj2 (Z.leb_le _ _)) by lia. Qed.

Lemma put_bytes_length buf off bs buf' : put_bytes buf off bs = Some buf' -> length buf' = length buf.
Proof.
  unfold put_bytes. destruct (_ && _) eqn:E; [|done]. intros H. injection H as <-. bool_hyps.
  rewrite !length_app, length_take, length_drop. lia.
Qed.

Lemma slice_put_same buf off bs buf' :
  put_bytes buf off bs = Some buf' -> slice buf' off (Z.of_nat (length bs)) = Some bs.
Proof.
  intros H. pose proof (put_bytes_length _ _ _ _ H) as Hl. unfold put_bytes in H.
  destruct (_ && _) eqn:E in H; [|done]. injection H as <-. bool_hyps.
  rewrite slice_Some by lia. f_equal. rewrite drop_app_length' by (rewrite length_take; lia).
  rewrite Nat2Z.id. by apply take_app_length.
Qed.

Lemma slice_put_other buf off bs buf' off' n :
  put_bytes buf off bs = Some buf' -> off' + n <= off \/ off + Z.of_nat (length bs) <= off' ->
  slice buf' off' n = slice buf off' n.
Proof.
  intros H Hd. pose proof (put_bytes_length _ _ _ _ H) as Hl. unfold slice. rewrite Hl.
  destruct (_ && _) eqn:E; [|done]. f_equal. unfold put_bytes in H.
  destruct (_ && _) eqn:E' in H; [|done]. injection H as <-. bool_hyps.
  apply list_eq. intros i. rewrite !lookup_take. case_decide as Hi; [|done].
  rewrite !lookup_drop. set (k := (Z.to_nat off' + i)%nat).
  destruct (decide (k < Z.to_nat off)%nat).
  - rewrite lookup_app_l by (rewrite length_take; lia). apply lookup_take_lt. lia.
  - rewrite lookup_app_r by (rewrite length_take; lia). rewrite length_take, Nat.min_l by lia.
    rewrite lookup_app_r by lia. rewrite lookup_drop. f_equal. lia.
Qed.

(** ** Loops that stop by themselves

    [loop_pos p step x] runs [step] from [x] until it answers [inr], at most
    [p] times. *)
Fixpoint loop_pos {St X A} (p : positive) (step : X -> M St (X + A)) (x : X) : M St (X + A) :=
  match p with
  | xH => step x
  | xO q =>
      let* r := loop_pos q step x in
      (match r with inl y => loop_pos q step y | inr a => ret (inr a) end)
  | xI q =>
      let* r := step x in
      (match r with
       | inr a => ret (inr a)
       | inl y =>
           let* r' := loop_pos q step y in
           (match r' with inl z => loop_pos q step z | inr a => ret (inr a) end)
       end)
  end.

Definition loop_until {St X A} (p : positive) (step : X -> M St (X + A)) (x : X) : M St A :=
  let* r := loop_pos p step x in
  match r with inl _ => fail | inr a => ret a end.

Section LoopRule.
Context {St X A : Type} (step : X -> M St (X + A)) (I : nat -> X -> St -> Prop) (Q : A -> St -> Prop).

(** [I n x s]: at most [n] more steps are needed from [x]. *)
Hypothesis Hstep : forall n x s, I n x s ->
  wp (step x) (fun r s' => match r with
    | inl y => exists n', (n' < n)%nat /\ I n' y s'
    | inr a => Q a s'
    end) s.

(** After [p] steps either the loop has stopped or the count is down by [p]. *)
Lemma wp_loop_pos p : forall n x s, I n x s ->
  wp (loop_pos p step x) (fun r s' => match r with
    | inl y => exists n', (n' + Pos.to_nat p <= n)%nat /\ I n' y s'
    | inr a => Q a s'
    end) s.
Proof.
  induction p as [q IH|q IH|]; intros n x s HI; cbn [loop_pos].
  - wp_struct. eapply wp_mono; [by apply Hstep|]. intros [y|a] s1; [|done]. intros (n1 & Hn1 & Hy).
    wp_struct. eapply wp_mono; [by apply IH|]. intros [z|a] s2; [|done]. intros (n2 & Hn2 & Hz).
    eapply wp_mono; [by apply IH|]. intros [w|a] s3; [|done]. intros (n3 & Hn3 & Hw). exists n3. split; [lia|done].
  - wp_struct. eapply wp_mono; [by apply IH|]. intros [y|a] s1; [|done]. intros (n1 & Hn1 & Hy).
    eapply wp_mono; [by apply IH|]. intros [z|a] s2; [|done]. intros (n2 & Hn2 & Hz). exists n2. split; [lia|done].
  - eapply wp_mono; [by apply Hstep|]. intros [y|a] s1; [|done]. intros (n1 & Hn1 & Hy). exists n1. split; [lia|done].
Qed.

(** The rule of the loop: a count below the bound proves that it stops. *)
Lemma wp_loop_until p n x s : I n x s -> (n < Pos.to_nat p)%nat -> wp (loop_until p step x) Q s.
Proof.
  intros HI Hp. unfold loop_until. wp_struct. eapply wp_mono; [by eapply wp_loop_pos|].
  intros [y|a] s'; [|done]. intros (n' & Hn' & _). lia.
Qed.
End LoopRule.
