(* ===== verification/Fat32.v ===== *)
(** * The FAT32 file system of the block server

    The functions of fat32.cpp, one definition each, over the state of the
    mounted file system: the parameters read at mount time and the block
    device behind [read_blocks] and [write_blocks], the two functions that the
    block driver installs.  They are methods of the interface [BlockDevice];
    every call of the file system asks for one sector.  Results that the code
    stores through pointers are returned.  [None] is an access outside a
    buffer. *)
From Stdlib Require Import ZArith Lia.
From stdpp Require Import base list option.
From S2P Require Import Prelude Bytes.
#[local] Open Scope Z_scope.

(** ** State *)
Record FAT32_Instance := mk_fat32 {
  bytes_per_sector : Z;
  sectors_per_cluster : Z;
  reserved_sectors : Z;
  fat_count : Z;
  sectors_per_fat : Z;
  root_cluster : Z;
  current_dir_cluster : Z;
  data_start_sector : Z
}.

(** The driver's functions: the sector read ([None] when the call answers
    false) or the answer of the write, and the device afterwards. *)
Class BlockDevice (D : Type) := {
  block_read : Z -> D -> option (list Z) * D;
  block_write : Z -> list Z -> D -> bool * D
}.

Record fstate (D : Type) := mk_fstate { fs : FAT32_Instance; dev : D }.
#[global] Arguments mk_fstate {D} _ _.
#[global] Arguments fs {D} _.
#[global] Arguments dev {D} _.

(** ** Strings *)
Fixpoint my_strcasecmp (s1 s2 : list Z) : Z :=
  match s1, s2 with
  | c1 :: r1, c2 :: r2 => if upper c1 =? upper c2 then my_strcasecmp r1 r2 else upper c1 - upper c2
  | _, _ => default 0 (head s1) - default 0 (head s2)
  end.

Fixpoint my_strcmp (s1 s2 : list Z) : Z :=
  match s1, s2 with
  | c1 :: r1, c2 :: r2 => if c1 =? c2 then my_strcmp r1 r2 else c1 - c2
  | _, _ => default 0 (head s1) - default 0 (head s2)
  end.

(** ["."] and [".."], ["/"]; blanks. *)
Definition str_dot : list Z := [46].
Definition str_dotdot : list Z := [46; 46].
Definition str_slash : list Z := [47].
Definition str_eq (s1 s2 : list Z) : bool := my_strcmp s1 s2 =? 0.

(** Copies characters in upper case to [out] from index [j] to [hi], up to the
    end of the input or, when [stop] is set, a dot; answers the output and the
    input left. *)
Fixpoint fmt_copy (stop : bool) (input : list Z) (j : nat) (hi : nat) (out : list Z) : list Z * list Z :=
  match input with
  | [] => (out, [])
  | c :: input' =>
      if (stop && (c =? 46)) || negb (j <? hi)%nat then (out, input)
      else fmt_copy stop input' (S j) hi (<[j := upper c]> out)
  end.

Fixpoint skip_to_dot (input : list Z) : list Z :=
  match input with [] => [] | c :: input' => if c =? 46 then input else skip_to_dot input' end.

Definition format_fat32_name (input : list Z) : list Z :=
  let output := replicate 11 32 in
  if str_eq input str_dot then <[0%nat := 46]> output
  else if str_eq input str_dotdot then <[1%nat := 46]> (<[0%nat := 46]> output)
  else
    let '(output, rest) := fmt_copy true input 0 8 output in
    match skip_to_dot rest with
    | [] => output
    | _ :: rest' => fst (fmt_copy false rest' 8 11 output)
    end.

(** ** Directory entries *)
Definition byte (e : list Z) (k : nat) : Z := default 0 (e !! k).
Definition entry_clus (e : list Z) : Z :=
  Z.lor (Z.shiftl (byte e 20 + 256 * byte e 21) 16) (byte e 26 + 256 * byte e 27).
Definition entry_size (e : list Z) : Z := le_val (take 4 (drop 28 e)).

Record DirSlot := mk_slot {
  ds_found : bool; ds_sector : Z; ds_offset : Z; ds_clus : Z; ds_size : Z;
  ds_has_free : bool; ds_free_sector : Z; ds_free_offset : Z;
  ds_last_clus : Z
}.
Definition no_slot : DirSlot := mk_slot false 0 0 0 0 false 0 0 0.
Definition slot_free (sector i : Z) (o : DirSlot) : DirSlot :=
  if ds_has_free o then o else
  mk_slot (ds_found o) (ds_sector o) (ds_offset o) (ds_clus o) (ds_size o) true sector i (ds_last_clus o).
Definition slot_found (sector i : Z) (e : list Z) (o : DirSlot) : DirSlot :=
  mk_slot true sector i (entry_clus e) (entry_size e)
    (ds_has_free o) (ds_free_sector o) (ds_free_offset o) (ds_last_clus o).
Definition slot_last (clus : Z) (o : DirSlot) : DirSlot :=
  mk_slot (ds_found o) (ds_sector o) (ds_offset o) (ds_clus o) (ds_size o)
    (ds_has_free o) (ds_free_sector o) (ds_free_offset o) clus.

(** The buffer for long names, and the fragment one entry adds to it. *)
Definition lfn_clear : list Z := replicate 261 0.
Definition lfn_positions : list nat := [1; 3; 5; 7; 9; 14; 16; 18; 20; 22; 24; 28; 30]%nat.
Definition lfn_chars (e : list Z) : list Z :=
  filter (fun b => b <> 255 /\ b <> 0) (byte e <$> lfn_positions).
Definition lfn_collect (lfn e : list Z) : list Z :=
  let seq := Z.land (byte e 0) 0x1F - 1 in
  if (0 <=? seq) && (seq <? 20) then default lfn (put_bytes lfn (seq * 13) (lfn_chars e)) else lfn.
Definition lfn_present (lfn : list Z) : bool := negb (byte lfn 0 =? 0).

(** Does the entry carry the name [target], directly or by the long name read
    just before it? *)
Definition entry_matches (target formatted lfn e : list Z) : bool :=
  if lfn_present lfn then my_strcasecmp (cstr lfn) target =? 0
  else my_strcmp (cstr (take 11 e)) formatted =? 0.

Record scan_state := mk_scan { sc_lfn : list Z; sc_out : DirSlot; sc_done : bool }.

Definition scan_entry (target formatted : list Z) (sector i : Z) (e : list Z) (st : scan_state) : scan_state :=
  if (byte e 0 =? 0) || (byte e 0 =? 0xE5) then
    let out := slot_free sector i (sc_out st) in
    if byte e 0 =? 0 then mk_scan (sc_lfn st) out true else mk_scan lfn_clear out false
  else if byte e 11 =? 0x0F then mk_scan (lfn_collect (sc_lfn st) e) (sc_out st) false
  else if negb (Z.land (byte e 11) 0x08 =? 0) then mk_scan lfn_clear (sc_out st) false
  else
    let lfn' := if lfn_present (sc_lfn st) then lfn_clear else sc_lfn st in
    if entry_matches target formatted (sc_lfn st) e
    then mk_scan lfn' (slot_found sector i e (sc_out st)) true
    else mk_scan lfn' (sc_out st) false.

(** The entries of a sector from offset [i] on. *)
Fixpoint scan_entries (target formatted : list Z) (n : nat) (sector i : Z) (buf : list Z) (st : scan_state)
    : option scan_state :=
  match n with
  | O => Some st
  | S n' =>
      match slice buf i 32 with
      | None => None
      | Some e =>
          let st' := scan_entry target formatted sector i e st in
          if sc_done st' then Some st' else scan_entries target formatted n' sector (i + 32) buf st'
      end
  end.

(** The number of entries of a sector, and the bounds of the loops over
    chains. *)
Definition entries_in_sector : nat := 16.
Definition DIR_GUARD : nat := Z.to_nat 4096.
Definition FREE_GUARD : nat := Z.to_nat 65536.
Definition FAT32_EOC : Z := 0x0FFFFFF8.
Definition FAT32_MAX_IO_CHUNK : Z := 4096.

Definition cluster_has_next (fat_value : Z) : bool := (2 <=? fat_value) && (fat_value <? FAT32_EOC).

(** One more than the number of clusters: enough for the loop of
    [fat_chain_has_cycle], as [fat_chain_has_cycle_spec] proves. *)
Definition cycle_bound : positive := 268435457.

(** The sector of a cluster. *)
Definition cluster_to_sector (f : FAT32_Instance) (clus : Z) : Z :=
  let clus := if (clus =? 0) || (clus =? 1) then root_cluster f else clus in
  let clus := if clus <? 2 then 2 else clus in
  u32 (data_start_sector f + u32 (u32 (clus - 2) * sectors_per_cluster f)).

(** A little-endian field of an entry. *)
Definition put_clus (e : list Z) (clus : Z) : option (list Z) :=
  e' ← put_bytes e 20 (le16 (u16 (clus / 2 ^ 16))); put_bytes e' 26 (le16 (Z.land clus 0xFFFF)).

Section Fat32.
Context {D : Type} `{BD : BlockDevice D}.

Definition F (A : Type) : Type := M (fstate D) A.

Definition read_blocks (sector : Z) : F (option (list Z)) := fun s =>
  let '(r, d) := block_read sector (dev s) in Some (r, mk_fstate (fs s) d).
Definition write_blocks (sector : Z) (buffer : list Z) : F bool := fun s =>
  let '(r, d) := block_write sector buffer (dev s) in Some (r, mk_fstate (fs s) d).
Definition set_current_dir (clus : Z) : F unit := modify (fun s =>
  let f := fs s in
  mk_fstate (mk_fat32 (bytes_per_sector f) (sectors_per_cluster f) (reserved_sectors f) (fat_count f)
    (sectors_per_fat f) (root_cluster f) clus (data_start_sector f)) (dev s)).

(** ** Mounting *)
Definition fat32_init : F bool :=
  let* r := read_blocks 0 in
  match r with
  | None => ret false
  | Some b =>
      let* bps := from_option_M (load16 b 11) in
      let* spc := from_option_M (load8 b 13) in
      let* res := from_option_M (load16 b 14) in
      let* cnt := from_option_M (load8 b 16) in
      let* spf := from_option_M (load32 b 36) in
      let* root := from_option_M (load32 b 44) in
      let bps := if bps =? 0 then 512 else bps in
      let spc := if spc =? 0 then 8 else spc in
      let res := if res =? 0 then 32 else res in
      let cnt := if cnt =? 0 then 2 else cnt in
      let spf := if spf =? 0 then 1 else spf in
      let root := if root <? 2 then 2 else root in
      let fat_size := u32 (cnt * spf) in
      modify (fun s => mk_fstate (mk_fat32 bps spc res cnt spf root root (u32 (res + fat_size))) (dev s)) ;;;
      ret true
  end.

(** ** The file allocation table *)
Definition fat_get_entry (cluster : Z) : F Z :=
  let* f := gets fs in
  let fat_offset := u32 (cluster * 4) in
  let fat_sector := u32 (reserved_sectors f + fat_offset / bytes_per_sector f) in
  let sector_offset := fat_offset mod bytes_per_sector f in
  let* r := read_blocks fat_sector in
  match r with
  | None => ret FAT32_EOC
  | Some buf =>
      let* e := from_option_M (load32 buf (sector_offset / 4 * 4)) in
      ret (Z.land e 0x0FFFFFFF)
  end.

(** One copy of the table after the other, from [copy]. *)
Fixpoint fat_set_copies (n : nat) (copy cluster value : Z) : F bool :=
  match n with
  | O => ret true
  | S n' =>
      let* f := gets fs in
      let fat_offset := u32 (cluster * 4) in
      let sector_offset := fat_offset mod bytes_per_sector f in
      let fat_sector := u32 (reserved_sectors f + u32 (copy * sectors_per_fat f) + fat_offset / bytes_per_sector f) in
      let* r := read_blocks fat_sector in
      match r with
      | None => ret false
      | Some buf =>
          let at_ := sector_offset / 4 * 4 in
          let* e := from_option_M (load32 buf at_) in
          let* buf' := from_option_M (put_bytes buf at_
            (le32 (Z.lor (Z.land e 0xF0000000) (Z.land value 0x0FFFFFFF)))) in
          let* ok := write_blocks fat_sector buf' in
          if ok then fat_set_copies n' (copy + 1) cluster value else ret false
      end
  end.

Definition fat_set_entry (cluster value : Z) : F bool :=
  let* f := gets fs in fat_set_copies (Z.to_nat (fat_count f)) 0 cluster value.

(** Floyd's tortoise and hare. *)
Definition cycle_step (p : Z * Z) : F (Z * Z + bool) :=
  let '(slow, fast) := p in
  let* f1 := fat_get_entry fast in
  if negb (cluster_has_next f1) then ret (inr false)
  else
    let* f2 := fat_get_entry f1 in
    if negb (cluster_has_next f2) then ret (inr false)
    else
      let* slow' := fat_get_entry slow in
      if slow' =? f2 then ret (inr true) else ret (inl (slow', f2)).

Definition fat_chain_has_cycle (start_cluster : Z) : F bool :=
  if start_cluster <? 2 then ret false
  else loop_until cycle_bound cycle_step (start_cluster, start_cluster).

(** The first free entry of one sector of the table, from index [e]. *)
Fixpoint free_in_sector (n : nat) (e base : Z) (buf : list Z) : option (option Z) :=
  match n with
  | O => Some None
  | S n' =>
      let cluster := u32 (base + e) in
      if cluster <? 2 then free_in_sector n' (e + 1) base buf
      else
        match load32 buf (4 * e) with
        | None => None
        | Some v => if Z.land v 0x0FFFFFFF =? 0 then Some (Some cluster) else free_in_sector n' (e + 1) base buf
        end
  end.

Fixpoint find_free_sectors (n : nat) (sec : Z) : F Z :=
  match n with
  | O => ret 0
  | S n' =>
      let* f := gets fs in
      let entries_per_sector := bytes_per_sector f / 4 in
      let* r := read_blocks (u32 (reserved_sectors f + sec)) in
      match r with
      | None => ret 0
      | Some buf =>
          let* c := from_option_M (free_in_sector (Z.to_nat entries_per_sector) 0 (u32 (sec * entries_per_sector)) buf) in
          match c with Some cluster => ret cluster | None => find_free_sectors n' (sec + 1) end
      end
  end.

Definition fat_find_free_cluster : F Z :=
  let* f := gets fs in find_free_sectors (Z.to_nat (sectors_per_fat f)) 0.

Fixpoint free_loop (guard : nat) (cluster : Z) : F unit :=
  match guard with
  | O => ret tt
  | S guard' =>
      if cluster <? 2 then ret tt
      else
        let* next := fat_get_entry cluster in
        let* _ := fat_set_entry cluster 0 in
        if negb (cluster_has_next next) then ret tt else free_loop guard' next
  end.

Definition fat_free_chain (start_cluster : Z) : F bool :=
  let* cyclic := fat_chain_has_cycle start_cluster in
  if (cyclic : bool) then ret false else free_loop FREE_GUARD start_cluster ;;; ret true.

Definition zero_buf : list Z := replicate 512 0.

(** Zeroes [n] sectors of a cluster; the answers of the device are ignored. *)
Fixpoint zero_sectors (n : nat) (sec : Z) : F unit :=
  match n with
  | O => ret tt
  | S n' => let* _ := write_blocks (u32 sec) zero_buf in zero_sectors n' (sec + 1)
  end.

Definition free_if (first : Z) : F unit :=
  if first =? 0 then ret tt else let* _ := fat_free_chain first in ret tt.

Fixpoint alloc_loop (n : nat) (first prev : Z) : F Z :=
  match n with
  | O => ret first
  | S n' =>
      let* c := fat_find_free_cluster in
      let* ok := (if c =? 0 then ret false else fat_set_entry c FAT32_EOC) in
      if negb ok then free_if first ;;; ret 0
      else
        let* ok' := (if prev =? 0 then ret true else fat_set_entry prev c) in
        if negb ok' then
          let* _ := fat_set_entry c 0 in
          free_if first ;;; ret 0
        else
          let first' := if first =? 0 then c else first in
          let* f := gets fs in
          zero_sectors (Z.to_nat (sectors_per_cluster f)) (cluster_to_sector f c) ;;;
          alloc_loop n' first' c
  end.

Definition fat_alloc_chain (num_clusters : Z) : F Z := alloc_loop (Z.to_nat num_clusters) 0 0.

(** ** The data of a chain *)
Fixpoint skip_clusters (n : nat) (cluster : Z) : F (option Z) :=
  match n with
  | O => ret (Some cluster)
  | S n' =>
      if cluster <? 2 then ret None
      else
        let* next := fat_get_entry cluster in
        if negb (cluster_has_next next) then ret None else skip_clusters n' next
  end.

(** [staging] is what has been copied so far. *)
Fixpoint read_loop (n : nat) (max_len cluster offset_in_cluster : Z) (staging : list Z) : F (list Z) :=
  match n with
  | O => fail
  | S n' =>
      let copied := Z.of_nat (length staging) in
      if (copied <? max_len) && (2 <=? cluster) then
        let* f := gets fs in
        let bytes_per_cluster := bytes_per_sector f * sectors_per_cluster f in
        let sector_in_cluster := offset_in_cluster / bytes_per_sector f in
        let byte_in_sector := offset_in_cluster mod bytes_per_sector f in
        let* r := read_blocks (u32 (cluster_to_sector f cluster + sector_in_cluster)) in
        match r with
        | None => ret staging
        | Some sbuf =>
            let avail_in_sector := bytes_per_sector f - byte_in_sector in
            let need := max_len - copied in
            let take := if need <? avail_in_sector then need else avail_in_sector in
            let* bs := from_option_M (slice sbuf byte_in_sector take) in
            let offset_in_cluster := offset_in_cluster + take in
            if bytes_per_cluster <=? offset_in_cluster then
              let* next := fat_get_entry cluster in
              read_loop n' max_len (if cluster_has_next next then next else 0) 0 (staging ++ bs)
            else read_loop n' max_len cluster offset_in_cluster (staging ++ bs)
        end
      else ret staging
  end.

Definition read_chain_data (start_cluster offset max_len : Z) : F (list Z) :=
  let* f := gets fs in
  let bytes_per_cluster := bytes_per_sector f * sectors_per_cluster f in
  if (bytes_per_cluster =? 0) || (start_cluster <? 2) then ret []
  else
    let* cyclic := fat_chain_has_cycle start_cluster in
    if (cyclic : bool) then ret []
    else
      let max_len := if FAT32_MAX_IO_CHUNK <? max_len then FAT32_MAX_IO_CHUNK else max_len in
      let* c := skip_clusters (Z.to_nat (offset / bytes_per_cluster)) start_cluster in
      match c with
      | None => ret []
      | Some cluster => read_loop (S (Z.to_nat max_len)) max_len cluster (offset mod bytes_per_cluster) []
      end.

(** [p] is the rest of the caller's buffer; a full sector is written from it
    directly, the last one from a buffer of 512 bytes. *)
Fixpoint write_loop (n : nat) (cluster sector_in_cluster : Z) (p : list Z) (remaining : Z) : F bool :=
  match n with
  | O => fail
  | S n' =>
      if remaining =? 0 then ret true
      else if cluster <? 2 then ret false
      else
        let* f := gets fs in
        let chunk := if bytes_per_sector f <? remaining then bytes_per_sector f else remaining in
        let* src := (if chunk <? bytes_per_sector f then
            assert (bytes_per_sector f <=? 512) ;;;
            let* bs := from_option_M (slice p 0 chunk) in
            ret (bs ++ replicate (Z.to_nat (512 - chunk)) 0)
          else from_option_M (slice p 0 512)) in
        let* ok := write_blocks (u32 (cluster_to_sector f cluster + sector_in_cluster)) src in
        if negb ok then ret false
        else
          let p := drop (Z.to_nat chunk) p in
          let remaining := remaining - chunk in
          let sector_in_cluster := sector_in_cluster + 1 in
          if sectors_per_cluster f <=? sector_in_cluster then
            if 0 <? remaining then
              let* next := fat_get_entry cluster in
              if negb (cluster_has_next next) then ret false else write_loop n' next 0 p remaining
            else write_loop n' cluster 0 p remaining
          else write_loop n' cluster sector_in_cluster p remaining
  end.

Definition write_chain_data (first_cluster : Z) (data : list Z) (len : Z) : F bool :=
  write_loop (S (Z.to_nat len)) first_cluster 0 data len.

(** ** Searching a directory *)

(** The sectors of one cluster, [None] when one cannot be read. *)
Fixpoint scan_cluster (target formatted : list Z) (n : nat) (s clus : Z) (st : scan_state) : F (option scan_state) :=
  match n with
  | O => ret (Some st)
  | S n' =>
      if sc_done st then ret (Some st)
      else
        let* f := gets fs in
        let sector := u32 (cluster_to_sector f clus + s) in
        let* r := read_blocks sector in
        match r with
        | None => ret None
        | Some buf =>
            let* st' := from_option_M (scan_entries target formatted entries_in_sector sector 0 buf st) in
            scan_cluster target formatted n' (s + 1) clus st'
        end
  end.

Fixpoint scan_chain (guard : nat) (target formatted : list Z) (clus : Z) (st : scan_state) : F (option scan_state) :=
  match guard with
  | O => ret (Some st)
  | S guard' =>
      if clus <? 2 then ret (Some st)
      else
        let* f := gets fs in
        let st := mk_scan (sc_lfn st) (slot_last clus (sc_out st)) (sc_done st) in
        let* r := scan_cluster target formatted (Z.to_nat (sectors_per_cluster f)) 0 clus st in
        match r with
        | None => ret None
        | Some st' =>
            if sc_done st' then ret (Some st')
            else
              let* next := fat_get_entry clus in
              if negb (cluster_has_next next) then ret (Some st') else scan_chain guard' target formatted next st'
        end
  end.

(** [None] when the search failed ([dir_scan] answers false). *)
Definition dir_scan (dir_cluster : Z) (target_name : list Z) : F (option DirSlot) :=
  let* f := gets fs in
  let clus := if dir_cluster <? 2 then root_cluster f else dir_cluster in
  if clus <? 2 then ret None
  else
    let* cyclic := fat_chain_has_cycle clus in
    if (cyclic : bool) then ret None
    else
      let* r := scan_chain DIR_GUARD target_name (format_fat32_name target_name) clus
                  (mk_scan lfn_clear no_slot false) in
      ret (sc_out <$> r).

(** Adds a cluster to a directory; answers its first sector and itself. *)
Definition dir_grow (last_clus : Z) : F (option (Z * Z)) :=
  let* new_clus := fat_alloc_chain 1 in
  if new_clus =? 0 then ret None
  else
    let* ok := fat_set_entry last_clus new_clus in
    if negb ok then let* _ := fat_free_chain new_clus in ret None
    else let* f := gets fs in ret (Some (cluster_to_sector f new_clus, new_clus)).

Definition NOT_FOUND : Z := 0xFFFFFFFF.

Definition fat32_find_in_dir (dir_cluster : Z) (target_name : list Z) : F Z :=
  let* f := gets fs in
  if str_eq target_name str_dotdot && ((dir_cluster =? root_cluster f) || (dir_cluster =? 0))
  then ret (root_cluster f)
  else
    let* r := dir_scan dir_cluster target_name in
    match r with
    | Some slot => if ds_found slot then ret (ds_clus slot) else ret NOT_FOUND
    | None => ret NOT_FOUND
    end.

(** ** Paths *)
Fixpoint skip_slashes (p : list Z) : list Z :=
  match p with c :: p' => if c =? 47 then skip_slashes p' else p | [] => [] end.

(** At most [n] characters up to a slash. *)
Fixpoint token_of (n : nat) (p : list Z) : list Z * list Z :=
  match n, p with
  | S n', c :: p' =>
      if c =? 47 then ([], p) else let '(t, r) := token_of n' p' in (c :: t, r)
  | _, _ => ([], p)
  end.

(** The cluster of the parent directory and the last name of the path. *)
Fixpoint resolve_tokens (n : nat) (current_clus : Z) (p : list Z) : F (Z * list Z) :=
  match n with
  | O => fail
  | S n' =>
      match p with
      | [] => ret (current_clus, [])
      | _ =>
          let '(token, rest) := token_of 63 p in
          match skip_slashes rest with
          | [] => ret (current_clus, token)
          | p' =>
              let* next_clus := fat32_find_in_dir current_clus token in
              if next_clus =? NOT_FOUND then ret (NOT_FOUND, [])
              else
                let* f := gets fs in
                resolve_tokens n' (if next_clus =? 0 then root_cluster f else next_clus) p'
          end
      end
  end.

Definition fat32_resolve_parent (full_path : list Z) : F (Z * list Z) :=
  let* f := gets fs in
  let current_clus := if current_dir_cluster f =? 0 then root_cluster f else current_dir_cluster f in
  match full_path with
  | c :: _ =>
      if c =? 47 then resolve_tokens (S (length full_path)) (root_cluster f) (skip_slashes full_path)
      else resolve_tokens (S (length full_path)) current_clus full_path
  | [] => ret (current_clus, [])
  end.

(** The parent and the name of a path that names something. *)
Definition resolve_name (path : list Z) : F (option (Z * list Z)) :=
  let* (parent_clus, basename) := fat32_resolve_parent path in
  if (parent_clus =? NOT_FOUND) || (match basename with [] => true | _ => false end) then ret None
  else ret (Some (parent_clus, basename)).

Definition or_root (f : FAT32_Instance) (clus : Z) : Z := if clus =? 0 then root_cluster f else clus.

(** ** Reading files *)
Definition fat32_read_file (filename : list Z) (offset : Z) : F (bool * list Z) :=
  let* p := resolve_name filename in
  match p with
  | None => ret (false, [])
  | Some (parent_clus, basename) =>
      let* f := gets fs in
      let* r := dir_scan (or_root f parent_clus) basename in
      match r with
      | None => ret (false, [])
      | Some slot =>
          if negb (ds_found slot) then ret (false, [])
          else if ds_size slot <=? offset then ret (true, [])
          else
            let remaining := ds_size slot - offset in
            let chunk_size := if 4096 <? remaining then 4096 else remaining in
            let* bs := read_chain_data (ds_clus slot) offset chunk_size in
            if Z.of_nat (length bs) =? 0 then ret (false, []) else ret (true, bs)
      end
  end.

(** The text placed in the caller's buffer, without its terminator. *)
Definition fat32_read_text_file (path : list Z) : F (option (list Z)) :=
  let* p := resolve_name path in
  match p with
  | None => ret None
  | Some (parent_clus, basename) =>
      let* f := gets fs in
      let* r := dir_scan (or_root f parent_clus) basename in
      match r with
      | None => ret None
      | Some slot =>
          if negb (ds_found slot) then ret None
          else if (ds_size slot =? 0) || (ds_clus slot <? 2) then ret (Some [])
          else
            let size := if 4000 <? ds_size slot then 4000 else ds_size slot in
            let* bs := read_chain_data (ds_clus slot) 0 size in
            ret (Some bs)
      end
  end.

(** ** Creating and writing files *)
Definition ATTR_ARCHIVE : Z := 0x20.
Definition ATTR_DIRECTORY : Z := 0x10.

(** A directory entry of 32 bytes with a short name and an attribute. *)
Definition new_entry (name : list Z) (attr : Z) : option (list Z) :=
  e ← put_bytes (replicate 32 0) 0 (format_fat32_name name); put_bytes e 11 [attr].

(** Where a new entry goes: the free slot that the search met, or a new
    cluster of the directory. *)
Definition entry_place (slot : DirSlot) : F (option (Z * Z)) :=
  if ds_has_free slot then ret (Some (ds_free_sector slot, ds_free_offset slot))
  else
    let* g := dir_grow (ds_last_clus slot) in
    ret ((fun p => (fst p, 0)) <$> g).

Definition fat32_create_file (path : list Z) : F bool :=
  let* p := resolve_name path in
  match p with
  | None => ret false
  | Some (parent_clus, basename) =>
      let* f := gets fs in
      let* r := dir_scan (or_root f parent_clus) basename in
      match r with
      | None => ret false
      | Some slot =>
          if ds_found slot then ret true
          else
            let* place := entry_place slot in
            match place with
            | None => ret false
            | Some (free_sector, free_offset) =>
                let* b := read_blocks free_sector in
                match b with
                | None => ret false
                | Some buf =>
                    let* e := from_option_M (new_entry basename ATTR_ARCHIVE) in
                    let* buf' := from_option_M (put_bytes buf free_offset e) in
                    write_blocks free_sector buf'
                end
            end
      end
  end.

Definition fat32_write_file (path text : list Z) (len : Z) : F bool :=
  let* p := resolve_name path in
  match p with
  | None => ret false
  | Some (parent_clus, basename) =>
      let* f := gets fs in
      let* r := dir_scan (or_root f parent_clus) basename in
      match r with
      | None => ret false
      | Some slot =>
          let* place := (if ds_found slot then ret (Some (ds_sector slot, ds_offset slot)) else entry_place slot) in
          match place with
          | None => ret false
          | Some (entry_sector, entry_offset) =>
              let* b := read_blocks entry_sector in
              match b with
              | None => ret false
              | Some buf =>
                  let* entry := from_option_M (if ds_found slot then slice buf entry_offset 32
                                               else new_entry basename ATTR_ARCHIVE) in
                  (if ds_found slot && (2 <=? ds_clus slot)
                   then let* _ := fat_free_chain (ds_clus slot) in ret tt else ret tt) ;;;
                  let bytes_per_cluster := bytes_per_sector f * sectors_per_cluster f in
                  let* new_clus := (if 0 <? len
                    then fat_alloc_chain (u32 (len + bytes_per_cluster - 1) / bytes_per_cluster)
                    else ret 0) in
                  if (0 <? len) && (new_clus =? 0) then ret false
                  else
                    let* entry := from_option_M (put_clus entry new_clus) in
                    let* entry := from_option_M (put_bytes entry 28 (le32 len)) in
                    let* buf' := from_option_M (put_bytes buf entry_offset entry) in
                    let* ok := write_blocks entry_sector buf' in
                    if negb ok then ret false
                    else if 0 <? len then write_chain_data new_clus text len
                    else ret true
              end
          end
      end
  end.

(** ** Directories *)
Definition fat32_mkdir (path : list Z) : F bool :=
  let* p := resolve_name path in
  match p with
  | None => ret false
  | Some (original_parent_clus, basename) =>
      let* f := gets fs in
      let* r := dir_scan (or_root f original_parent_clus) basename in
      match r with
      | None => ret false
      | Some slot =>
          if ds_found slot then ret false
          else
            let* place := entry_place slot in
            match place with
            | None => ret false
            | Some (free_sector, free_offset) =>
                let* new_clus := fat_alloc_chain 1 in
                if new_clus =? 0 then ret false
                else
                  let* b := read_blocks free_sector in
                  match b with
                  | None => let* _ := fat_free_chain new_clus in ret false
                  | Some buf =>
                      let* e := from_option_M (new_entry basename ATTR_DIRECTORY) in
                      let* e := from_option_M (put_clus e new_clus) in
                      let* buf' := from_option_M (put_bytes buf free_offset e) in
                      let* ok := write_blocks free_sector buf' in
                      if negb ok then let* _ := fat_free_chain new_clus in ret false
                      else
                        let* dot := from_option_M (e ← new_entry str_dot ATTR_DIRECTORY; put_clus e new_clus) in
                        let* dotdot := from_option_M
                          (e ← new_entry str_dotdot ATTR_DIRECTORY; put_clus e original_parent_clus) in
                        write_blocks (cluster_to_sector f new_clus)
                          (dot ++ dotdot ++ replicate 448 0)
                  end
            end
      end
  end.

Definition fat32_cd (path : list Z) : F bool :=
  let* f := gets fs in
  if str_eq path str_slash then set_current_dir (root_cluster f) ;;; ret true
  else
    let* (parent_clus, basename) := fat32_resolve_parent path in
    if parent_clus =? NOT_FOUND then ret false
    else
      let* target_clus := fat32_find_in_dir parent_clus basename in
      if target_clus =? NOT_FOUND then ret false
      else set_current_dir (or_root f target_clus) ;;; ret true.

(** ** Deleting files *)
Inductive del_result :=
  | del_absent                                  (** the end of the directory *)
  | del_here (i lfn_start : Z)                  (** the entry, and where its long name starts *)
  | del_more (lfn : list Z).                    (** not in this sector *)

Fixpoint del_entries (target formatted : list Z) (n : nat) (i : Z) (buf lfn : list Z) (lfn_start : Z) : option del_result :=
  match n with
  | O => Some (del_more lfn)
  | S n' =>
      match slice buf i 32 with
      | None => None
      | Some e =>
          let next := del_entries target formatted n' (i + 32) buf in
          if byte e 0 =? 0 then Some del_absent
          else if byte e 0 =? 0xE5 then next lfn_clear (-1)
          else if byte e 11 =? 0x0F then next (lfn_collect lfn e) (if lfn_start =? -1 then i else lfn_start)
          else if negb (Z.land (byte e 11) 0x08 =? 0) then next lfn_clear (-1)
          else if entry_matches target formatted lfn e then Some (del_here i lfn_start)
          else next lfn_clear (-1)
      end
  end.

(** Marks the entries from [j] up to [i] deleted. *)
Fixpoint mark_deleted (n : nat) (j i : Z) (buf : list Z) : option (list Z) :=
  match n with
  | O => Some buf
  | S n' => if j <? i then buf' ← put_bytes buf j [0xE5]; mark_deleted n' (j + 32) i buf' else Some buf
  end.

Fixpoint del_cluster (target formatted : list Z) (n : nat) (s clus : Z) (lfn : list Z) : F (bool + list Z) :=
  match n with
  | O => ret (inr lfn)
  | S n' =>
      let* f := gets fs in
      let sector := u32 (cluster_to_sector f clus + s) in
      let* r := read_blocks sector in
      match r with
      | None => ret (inl false)
      | Some buf =>
          let* d := from_option_M (del_entries target formatted entries_in_sector 0 buf lfn (-1)) in
          match d with
          | del_absent => ret (inl false)
          | del_more lfn' => del_cluster target formatted n' (s + 1) clus lfn'
          | del_here i lfn_start =>
              let* e := from_option_M (slice buf i 32) in
              let* buf' := from_option_M (put_bytes buf i [0xE5]) in
              let* buf' := from_option_M
                (if lfn_start =? -1 then Some buf' else mark_deleted entries_in_sector lfn_start i buf') in
              let* ok := write_blocks sector buf' in
              if negb ok then ret (inl false)
              else
                (if 2 <=? entry_clus e then let* _ := fat_free_chain (entry_clus e) in ret tt else ret tt) ;;;
                ret (inl true)
          end
      end
  end.

Fixpoint del_chain (guard : nat) (target formatted : list Z) (clus : Z) (lfn : list Z) : F bool :=
  match guard with
  | O => ret false
  | S guard' =>
      if clus <? 2 then ret false
      else
        let* f := gets fs in
        let* r := del_cluster target formatted (Z.to_nat (sectors_per_cluster f)) 0 clus lfn in
        match r with
        | inl b => ret b
        | inr lfn' =>
            let* next := fat_get_entry clus in
            if negb (cluster_has_next next) then ret false else del_chain guard' target formatted next lfn'
        end
  end.

Definition fat32_delete_file (path : list Z) : F bool :=
  let* p := resolve_name path in
  match p with
  | None => ret false
  | Some (parent_clus, basename) =>
      let* f := gets fs in
      let parent_clus := or_root f parent_clus in
      let clus := if parent_clus <? 2 then root_cluster f else parent_clus in
      if clus <? 2 then ret false
      else
        let* cyclic := fat_chain_has_cycle clus in
        if (cyclic : bool) then ret false
        else del_chain DIR_GUARD basename (format_fat32_name basename) clus lfn_clear
  end.
End Fat32.
