(* ===== verification/Fat32Names.v ===== *)
(** * Long names, renaming and listings of the FAT32 file system

    The second half of fat32.cpp: the search for consecutive free entries, the
    short alias of a long name, the entries that hold a long name,
    [fat32_rename_file], and the text of a directory listing. *)
From Stdlib Require Import ZArith Lia.
From stdpp Require Import base list option.
From S2P Require Import Prelude Bytes Fat32.
#[local] Open Scope Z_scope.

Record DirCursor := mk_cursor { cur_cluster : Z; cur_sector : Z; cur_offset : Z }.

(** The search for a run of free entries: its length, its start, and whether
    the end marker has been met; [inr] is the run found. *)
Record run_state := mk_run { run_len : Z; run_start : DirCursor; past_end : bool }.

Definition run_entry (slots_needed clus s i : Z) (e : list Z) (st : run_state) : run_state + DirCursor :=
  let past := past_end st || (byte e 0 =? 0) in
  if past || (byte e 0 =? 0xE5) then
    let start := if run_len st =? 0 then mk_cursor clus s i else run_start st in
    let len := run_len st + 1 in
    if slots_needed <=? len then inr start else inl (mk_run len start past)
  else inl (mk_run 0 (run_start st) past).

Fixpoint run_entries (slots_needed : Z) (n : nat) (clus s i : Z) (buf : list Z) (st : run_state)
    : option (run_state + DirCursor) :=
  match n with
  | O => Some (inl st)
  | S n' =>
      match slice buf i 32 with
      | None => None
      | Some e =>
          match run_entry slots_needed clus s i e st with
          | inr c => Some (inr c)
          | inl st' => run_entries slots_needed n' clus s (i + 32) buf st'
          end
      end
  end.

(** The checksum that ties long-name entries to their short name. *)
Definition lfn_checksum (short_name : list Z) : Z :=
  foldl (fun sum c => u8 ((if Z.land sum 1 =? 0 then 0 else 0x80) + sum / 2 + c)) 0 short_name.

Fixpoint until_blank (l : list Z) : list Z :=
  match l with c :: l' => if c =? 32 then [] else c :: until_blank l' | [] => [] end.

(** A short name as it is shown: the base, and a dot and the extension unless
    the extension starts with a blank. *)
Definition short_display (name11 : list Z) : list Z :=
  until_blank (take 8 name11) ++
  (if byte name11 8 =? 32 then [] else 46 :: until_blank (take 3 (drop 8 name11))).

Definition name_needs_lfn (name : list Z) : bool :=
  if (12 <? Z.of_nat (length name)) then true
  else if 1 <? Z.of_nat (length (filter (fun c => c = 46) name)) then true
  else negb (str_eq (short_display (format_fat32_name name)) name).

(** The characters of the alias, and the [n]-th alias. *)
Definition alias_char (c : Z) : bool := ((65 <=? c) && (c <=? 90)) || ((48 <=? c) && (c <=? 57)).

Fixpoint alias_parts (name : list Z) (in_ext : bool) (primary ext : list Z) : list Z * list Z :=
  match name with
  | [] => (primary, ext)
  | c :: name' =>
      if c =? 46 then alias_parts name' true primary []
      else if negb (alias_char (upper c)) then alias_parts name' in_ext primary ext
      else if in_ext then alias_parts name' in_ext primary (if (length ext <? 3)%nat then ext ++ [upper c] else ext)
      else alias_parts name' in_ext (if (length primary <? 8)%nat then primary ++ [upper c] else primary) ext
  end.

(** The decimal digits of a number, last digit first; [n] bounds their number. *)
Fixpoint digits_rev (n : nat) (x : Z) : list Z :=
  match n with
  | O => []
  | S n' => (48 + x mod 10) :: (if x / 10 =? 0 then [] else digits_rev n' (x / 10))
  end.

Definition alias_candidate (primary ext : list Z) (suffix : Z) : option (list Z) :=
  let num := digits_rev 8 suffix in
  let tail_len := 1 + Z.of_nat (length num) in
  let base_len := Z.of_nat (length primary) in
  let base_len := if 8 <? base_len + tail_len then 8 - tail_len else base_len in
  if base_len <? 1 then None
  else
    let base := take (Z.to_nat base_len) primary ++ [126] ++ rev num in
    Some (base ++ replicate (8 - length base) 32 ++ ext ++ replicate (3 - length ext) 32).

Definition MAX_SUFFIX : positive := 1000000.

(** Character [k] of a long name as its entries store it: a terminator follows
    the name and 0xFFFF fills the rest. *)
Definition lfn_char (name : list Z) (k : nat) : Z :=
  if (k <? length name)%nat then byte name k else if (k =? length name)%nat then 0 else 0xFFFF.

(** Entry [seq] of the [count] entries of a long name, counted from 1. *)
Definition lfn_entry (name : list Z) (checksum : Z) (count seq : nat) : list Z :=
  let e := <[0%nat := Z.lor (Z.of_nat seq) (if (seq =? count)%nat then 0x40 else 0)]> (replicate 32 0) in
  let e := <[13%nat := checksum]> (<[11%nat := 0x0F]> e) in
  foldl (fun e '(k, pos) =>
    let ch := lfn_char name ((seq - 1) * 13 + k) in
    <[S pos := Z.shiftr ch 8]> (<[pos := Z.land ch 0xFF]> e)) e (imap pair lfn_positions).

Section Names.
Context {D : Type} `{BD : BlockDevice D}.

Definition dir_cursor_sector (f : FAT32_Instance) (c : DirCursor) : Z :=
  u32 (cluster_to_sector f (cur_cluster c) + cur_sector c).

(** [None] at the end of the chain. *)
Definition dir_cursor_advance (c : DirCursor) : F (option DirCursor) :=
  let* f := gets fs in
  if cur_offset c + 32 <? 512 then ret (Some (mk_cursor (cur_cluster c) (cur_sector c) (cur_offset c + 32)))
  else if cur_sector c + 1 <? sectors_per_cluster f then ret (Some (mk_cursor (cur_cluster c) (cur_sector c + 1) 0))
  else
    let* next := fat_get_entry (cur_cluster c) in
    ret (if cluster_has_next next then Some (mk_cursor next 0 0) else None).

Definition dir_write_entry_at (c : DirCursor) (entry : list Z) : F bool :=
  let* f := gets fs in
  let sector := dir_cursor_sector f c in
  let* r := read_blocks sector in
  match r with
  | None => ret false
  | Some buf =>
      let* buf' := from_option_M (put_bytes buf (cur_offset c) entry) in
      write_blocks sector buf'
  end.

(** The sectors of one cluster: [None] when one cannot be read. *)
Fixpoint run_cluster (slots_needed : Z) (n : nat) (clus s : Z) (st : run_state) : F (option (run_state + DirCursor)) :=
  match n with
  | O => ret (Some (inl st))
  | S n' =>
      let* f := gets fs in
      let* r := read_blocks (u32 (cluster_to_sector f clus + s)) in
      match r with
      | None => ret None
      | Some buf =>
          let* x := from_option_M (run_entries slots_needed entries_in_sector clus s 0 buf st) in
          match x with
          | inr c => ret (Some (inr c))
          | inl st' => run_cluster slots_needed n' clus (s + 1) st'
          end
      end
  end.

(** The last cluster searched, and the outcome. *)
Fixpoint run_chain (guard : nat) (slots_needed last_clus clus : Z) (st : run_state)
    : F (option (Z * (run_state + DirCursor))) :=
  match guard with
  | O => ret (Some (last_clus, inl st))
  | S guard' =>
      if clus <? 2 then ret (Some (last_clus, inl st))
      else
        let* f := gets fs in
        let* r := run_cluster slots_needed (Z.to_nat (sectors_per_cluster f)) clus 0 st in
        match r with
        | None => ret None
        | Some (inr c) => ret (Some (clus, inr c))
        | Some (inl st') =>
            let* next := fat_get_entry clus in
            if negb (cluster_has_next next) then ret (Some (clus, inl st'))
            else run_chain guard' slots_needed clus next st'
        end
  end.

Definition dir_find_or_grow_run (dir_cluster slots_needed : Z) : F (option DirCursor) :=
  let* f := gets fs in
  let clus := if dir_cluster <? 2 then root_cluster f else dir_cluster in
  if clus <? 2 then ret None
  else
    let* cyclic := fat_chain_has_cycle clus in
    if (cyclic : bool) then ret None
    else
      let* r := run_chain DIR_GUARD slots_needed clus clus (mk_run 0 (mk_cursor 0 0 0) false) in
      match r with
      | None => ret None
      | Some (_, inr c) => ret (Some c)
      | Some (last_clus, inl st) =>
          let* g := dir_grow last_clus in
          match g with
          | None => ret None
          | Some (_, new_clus) =>
              ret (Some (if run_len st =? 0 then mk_cursor new_clus 0 0 else run_start st))
          end
      end.

(** Is there an entry with these eleven bytes?  [inl st]: not yet; [inr]: the
    answer. *)
Fixpoint raw_entries (raw11 : list Z) (n : nat) (i : Z) (buf : list Z) : option (option bool) :=
  match n with
  | O => Some None
  | S n' =>
      match slice buf i 32 with
      | None => None
      | Some e =>
          if byte e 0 =? 0 then Some (Some false)
          else if negb ((byte e 0 =? 0xE5) || (byte e 11 =? 0x0F)) && bool_decide (take 11 e = raw11)
          then Some (Some true)
          else raw_entries raw11 n' (i + 32) buf
      end
  end.

Fixpoint raw_cluster (raw11 : list Z) (n : nat) (s clus : Z) : F (option bool) :=
  match n with
  | O => ret None
  | S n' =>
      let* f := gets fs in
      let* r := read_blocks (u32 (cluster_to_sector f clus + s)) in
      match r with
      | None => ret (Some false)
      | Some buf =>
          let* x := from_option_M (raw_entries raw11 entries_in_sector 0 buf) in
          match x with Some b => ret (Some b) | None => raw_cluster raw11 n' (s + 1) clus end
      end
  end.

Fixpoint raw_chain (guard : nat) (raw11 : list Z) (clus : Z) : F bool :=
  match guard with
  | O => ret false
  | S guard' =>
      if clus <? 2 then ret false
      else
        let* f := gets fs in
        let* r := raw_cluster raw11 (Z.to_nat (sectors_per_cluster f)) 0 clus in
        match r with
        | Some b => ret b
        | None =>
            let* next := fat_get_entry clus in
            if negb (cluster_has_next next) then ret false else raw_chain guard' raw11 next
        end
  end.

Definition dir_has_raw_83 (dir_cluster : Z) (raw11 : list Z) : F bool :=
  let* f := gets fs in
  let clus := if dir_cluster <? 2 then root_cluster f else dir_cluster in
  if clus <? 2 then ret true
  else
    let* cyclic := fat_chain_has_cycle clus in
    if (cyclic : bool) then ret true else raw_chain DIR_GUARD raw11 clus.

Definition alias_step (dir_cluster : Z) (primary ext : list Z) (suffix : Z) : F (Z + option (list Z)) :=
  if 999999 <? suffix then ret (inr None)
  else
    match alias_candidate primary ext suffix with
    | None => ret (inr None)
    | Some candidate =>
        let* taken := dir_has_raw_83 dir_cluster candidate in
        ret (if (taken : bool) then inl (suffix + 1) else inr (Some candidate))
    end.

Definition generate_short_alias (dir_cluster : Z) (name : list Z) : F (option (list Z)) :=
  let '(primary, ext) := alias_parts name false [] [] in
  let primary := match primary with [] => [95] | _ => primary end in
  loop_until MAX_SUFFIX (alias_step dir_cluster primary ext) 1.

(** The long-name entries [seq], ..., 1 from the cursor on. *)
Fixpoint write_lfn_entries (name : list Z) (checksum : Z) (count seq : nat) (cur : DirCursor) : F (option DirCursor) :=
  match seq with
  | O => ret (Some cur)
  | S seq' =>
      let* ok := dir_write_entry_at cur (lfn_entry name checksum count seq) in
      if negb ok then ret None
      else
        let* c := dir_cursor_advance cur in
        match c with None => ret None | Some cur' => write_lfn_entries name checksum count seq' cur' end
  end.

Definition dir_write_named_entry (dir_cluster : Z) (basename : list Z) (file_clus file_size attr : Z) : F bool :=
  let need_lfn := name_needs_lfn basename in
  let* short := (if need_lfn then generate_short_alias dir_cluster basename
                 else ret (Some (format_fat32_name basename))) in
  match short with
  | None => ret false
  | Some short_name =>
      let name_len := length basename in
      let lfn_count := if need_lfn then ((name_len + 12) / 13)%nat else 0%nat in
      let slots_needed := Z.of_nat lfn_count + 1 in
      if 21 <? slots_needed then ret false
      else
        let* c := dir_find_or_grow_run dir_cluster slots_needed in
        match c with
        | None => ret false
        | Some cur =>
            let* c := write_lfn_entries basename (lfn_checksum short_name) lfn_count lfn_count cur in
            match c with
            | None => ret false
            | Some cur =>
                let* e := from_option_M (e ← put_bytes (replicate 32 0) 0 short_name;
                  e ← put_bytes e 11 [attr]; e ← put_clus e file_clus; put_bytes e 28 (le32 file_size)) in
                dir_write_entry_at cur e
            end
        end
  end.

(** ** Renaming *)

(** Marks the long-name entries just before offset [j + 32] deleted. *)
Fixpoint mark_lfn_before (n : nat) (j : Z) (buf : list Z) : option (list Z) :=
  match n with
  | O => Some buf
  | S n' =>
      if j <? 0 then Some buf
      else
        match slice buf j 32 with
        | None => None
        | Some prev =>
            if (byte prev 11 =? 0x0F) && negb (byte prev 0 =? 0xE5)
            then buf' ← put_bytes buf j [0xE5]; mark_lfn_before n' (j - 32) buf'
            else Some buf
        end
  end.

Definition fat32_rename_file (old_path new_path : list Z) : F bool :=
  let* p := resolve_name old_path in
  match p with
  | None => ret false
  | Some (old_parent_clus, old_basename) =>
      let* p := resolve_name new_path in
      match p with
      | None => ret false
      | Some (new_parent_clus, new_basename) =>
          if negb (old_parent_clus =? new_parent_clus) then ret false
          else
            let* f := gets fs in
            let dir := or_root f old_parent_clus in
            let* r := dir_scan dir old_basename in
            match r with
            | None => ret false
            | Some slot =>
                if negb (ds_found slot) then ret false
                else
                  let* b := read_blocks (ds_sector slot) in
                  match b with
                  | None => ret false
                  | Some buf =>
                      let* entry := from_option_M (slice buf (ds_offset slot) 32) in
                      if negb (name_needs_lfn new_basename) then
                        let* buf' := from_option_M (put_bytes buf (ds_offset slot) (format_fat32_name new_basename)) in
                        write_blocks (ds_sector slot) buf'
                      else
                        let* buf' := from_option_M (put_bytes buf (ds_offset slot) [0xE5]) in
                        let* buf' := from_option_M (mark_lfn_before entries_in_sector (ds_offset slot - 32) buf') in
                        let* ok := write_blocks (ds_sector slot) buf' in
                        if negb ok then ret false
                        else dir_write_named_entry dir new_basename (ds_clus slot) (ds_size slot) (byte entry 11)
                  end
            end
      end
  end.

(** ** Listings *)

(** [my_strcpy(staging + offset, str)]: the text so far with [str] added; the
    terminator must fit as well. *)
Definition staging_puts (staging str : list Z) : option (list Z) :=
  if Z.of_nat (length staging + length str) + 1 <=? FAT32_MAX_IO_CHUNK then Some (staging ++ str) else None.

Definition str_dir_tag : list Z := [32; 91; 68; 73; 82; 93; 32].          (* " [DIR] " *)
Definition str_fat_tag : list Z := [32; 91; 70; 65; 84; 93; 32].          (* " [FAT] " *)
Definition str_open_size : list Z := [32; 9; 40].                         (* " \t(" *)
Definition str_bytes : list Z := [32; 98; 121; 116; 101; 115; 41].        (* " bytes)" *)
Definition str_newline : list Z := [10].
Definition str_more : list Z := [46; 46; 46; 10].                         (* "...\n" *)

Record list_state := mk_list { li_lfn : list Z; li_text : list Z; li_done : bool; li_truncated : bool }.

Definition list_line (is_dir : bool) (name : list Z) (size : Z) (text : list Z) : option (list Z) :=
  text ← staging_puts text (if is_dir then str_dir_tag else str_fat_tag);
  text ← staging_puts text name;
  text ← (if is_dir then Some text else
    text ← staging_puts text str_open_size;
    text ← staging_puts text (rev (digits_rev 10 size));
    staging_puts text str_bytes);
  staging_puts text str_newline.

Definition list_entry (max_len : Z) (e : list Z) (st : list_state) : option list_state :=
  if byte e 0 =? 0 then Some (mk_list (li_lfn st) (li_text st) true (li_truncated st))
  else if byte e 0 =? 0xE5 then Some (mk_list lfn_clear (li_text st) false (li_truncated st))
  else if byte e 11 =? 0x0F then Some (mk_list (lfn_collect (li_lfn st) e) (li_text st) false (li_truncated st))
  else if negb (Z.land (byte e 11) 0x08 =? 0) then Some (mk_list lfn_clear (li_text st) false (li_truncated st))
  else
    let is_dir := negb (Z.land (byte e 11) 0x10 =? 0) in
    let name := if lfn_present (li_lfn st) then cstr (li_lfn st) else cstr (short_display (take 11 e)) in
    let lfn' := if lfn_present (li_lfn st) then lfn_clear else li_lfn st in
    match name with
    | [] => Some (mk_list lfn' (li_text st) false (li_truncated st))
    | _ =>
        if max_len - 300 <? Z.of_nat (length (li_text st)) then Some (mk_list lfn' (li_text st) true true)
        else
          text ← list_line is_dir name (entry_size e) (li_text st);
          Some (mk_list lfn' text false (li_truncated st))
    end.

Fixpoint list_entries (max_len : Z) (n : nat) (i : Z) (buf : list Z) (st : list_state) : option list_state :=
  match n with
  | O => Some st
  | S n' =>
      match slice buf i 32 with
      | None => None
      | Some e =>
          st' ← list_entry max_len e st;
          if li_done st' then Some st' else list_entries max_len n' (i + 32) buf st'
      end
  end.

Fixpoint list_cluster (max_len : Z) (n : nat) (s clus : Z) (st : list_state) : F list_state :=
  match n with
  | O => ret st
  | S n' =>
      if li_done st then ret st
      else
        let* f := gets fs in
        let* r := read_blocks (u32 (cluster_to_sector f clus + s)) in
        match r with
        | None => ret (mk_list (li_lfn st) (li_text st) true (li_truncated st))
        | Some buf =>
            let* st' := from_option_M (list_entries max_len entries_in_sector 0 buf st) in
            list_cluster max_len n' (s + 1) clus st'
        end
  end.

Fixpoint list_chain (guard : nat) (max_len clus : Z) (st : list_state) : F list_state :=
  match guard with
  | O => ret st
  | S guard' =>
      if clus <? 2 then ret st
      else
        let* f := gets fs in
        let* st' := list_cluster max_len (Z.to_nat (sectors_per_cluster f)) 0 clus st in
        if li_done st' then ret st'
        else
          let* next := fat_get_entry clus in
          if negb (cluster_has_next next) then ret st' else list_chain guard' max_len next st'
  end.

(** The text copied to the caller's buffer with its terminator; [None] when
    the function answers false. *)
Definition fat32_format_dir_listing (dir_cluster max_len : Z) : F (option (list Z)) :=
  let* f := gets fs in
  let clus := if dir_cluster <? 2 then root_cluster f else dir_cluster in
  if (clus <? 2) || (max_len <? 300) then ret None
  else
    let* cyclic := fat_chain_has_cycle clus in
    if (cyclic : bool) then ret None
    else
      let max_len := if FAT32_MAX_IO_CHUNK <? max_len then FAT32_MAX_IO_CHUNK else max_len in
      let* st := list_chain DIR_GUARD max_len clus (mk_list lfn_clear [] false false) in
      let* text := from_option_M
        (if li_truncated st then staging_puts (li_text st) str_more else Some (li_text st)) in
      ret (Some text).

(** "Directory listing:\n" and the listing of the current directory. *)
Definition str_listing : list Z :=
  [68; 105; 114; 101; 99; 116; 111; 114; 121; 32; 108; 105; 115; 116; 105; 110; 103; 58; 10].

Definition fat32_list_directory : F (bool * list Z) :=
  let* f := gets fs in
  let* r := fat32_format_dir_listing (current_dir_cluster f) (4096 - Z.of_nat (length str_listing)) in
  ret (match r with Some text => (true, str_listing ++ text) | None => (false, str_listing) end).
End Names.
