(* ===== verification/FatTable.v ===== *)
(** * The file allocation table

    The device as the file system relies on it ([ReliableDevice]), the view of
    the table as a function from clusters to entries, the effect of the two
    functions that read and write entries, and the cycle check. *)
From Stdlib Require Import ZArith Lia.
From stdpp Require Import base list option gmap.
From S2P Require Import Prelude Bytes Fat32.
#[local] Open Scope Z_scope.

(** ** A device that works

    Sectors hold 512 bytes; a read answers the content of the sector, a write
    replaces it; both fail, without effect, outside the device. *)
Class ReliableDevice (D : Type) `{BD : BlockDevice D} := {
  content : D -> gmap Z (list Z);
  content_length d x b : content d !! x = Some b -> length b = 512%nat;
  read_content d x : exists d', block_read x d = (content d !! x, d') /\ content d' = content d;
  write_content d x old b : content d !! x = Some old -> length b = 512%nat ->
    exists d', block_write x b d = (true, d') /\ content d' = <[x := b]> (content d);
  write_outside d x b : content d !! x = None ->
    exists d', block_write x b d = (false, d') /\ content d' = content d
}.

(** ** The table as a function *)
Definition mask28 : Z := 0x0FFFFFFF.

(** The entry of a cluster in a copy of the table. *)
Definition copy_entry (f : FAT32_Instance) (m : gmap Z (list Z)) (copy c : Z) : Z :=
  match m !! (u32 (reserved_sectors f + u32 (copy * sectors_per_fat f) + u32 (c * 4) / 512)) with
  | Some b => match load32 b (u32 (c * 4) mod 512 / 4 * 4) with Some v => Z.land v mask28 | None => FAT32_EOC end
  | None => FAT32_EOC
  end.
Definition fat_entry (f : FAT32_Instance) (m : gmap Z (list Z)) (c : Z) : Z :=
  match m !! (u32 (reserved_sectors f + u32 (c * 4) / 512)) with
  | Some b => match load32 b (u32 (c * 4) mod 512 / 4 * 4) with Some v => Z.land v mask28 | None => FAT32_EOC end
  | None => FAT32_EOC
  end.

(** A chain that never ends. *)
Definition endless (T : Z -> Z) (c : Z) : Prop := forall n, cluster_has_next (T (Nat.iter n T c)) = true.

Section Device.
Context {D : Type} `{RD : ReliableDevice D}.
Implicit Types (s : fstate D) (Q : bool -> fstate D -> Prop).

Definition disk s : gmap Z (list Z) := content (dev s).

(** Nothing the file system can see has changed. *)
Definition same s s' : Prop := fs s' = fs s /\ disk s' = disk s.

#[global] Instance same_preorder : PreOrder same.
Proof. split; [by intros s|]. intros s1 s2 s3 [? ?] [? ?]. split; congruence. Qed.

Lemma wp_read_blocks s x (Q : option (list Z) -> fstate D -> Prop) :
  (forall s', same s s' -> Q (disk s !! x) s') -> wp (read_blocks x) Q s.
Proof.
  intros HQ. unfold read_blocks, wp. destruct (read_content (dev s) x) as (d' & -> & Hd). by apply HQ.
Qed.

Lemma wp_write_blocks s x old b Q :
  disk s !! x = Some old -> length b = 512%nat ->
  (forall s', fs s' = fs s -> disk s' = <[x := b]> (disk s) -> Q true s') -> wp (write_blocks x b) Q s.
Proof.
  intros Hx Hb HQ. unfold write_blocks, wp. destruct (write_content (dev s) x old b Hx Hb) as (d' & -> & Hd).
  by apply HQ.
Qed.

Lemma wp_fat_get_entry s c (Q : Z -> fstate D -> Prop) :
  bytes_per_sector (fs s) = 512 ->
  (forall s', same s s' -> Q (fat_entry (fs s) (disk s) c) s') -> wp (fat_get_entry c) Q s.
Proof.
  intros Hb HQ. unfold fat_get_entry. wp_struct. wp_struct. wp_struct. apply wp_read_blocks. intros s1 H1.
  rewrite Hb. unfold fat_entry in HQ.
  destruct (disk s !! _) as [b|] eqn:Hs; [|wp_struct; by apply HQ].
  pose proof (content_length _ _ _ Hs) as Hl.
  destruct (load32 b _) as [v|] eqn:Hv.
  - wp_struct. eapply wp_from_option; [reflexivity|]. wp_struct. by apply HQ.
  - exfalso. unfold load32 in Hv. rewrite slice_Some in Hv; [done|..]; Z.div_mod_to_equations; lia.
Qed.
End Device.

(** ** Floyd's cycle check *)
Lemma copy_entry_bound f m k c : 0 <= copy_entry f m k c < 2 ^ 28.
Proof.
  assert (0 <= FAT32_EOC < 2 ^ 28) by done. unfold copy_entry. case_match; [|done]. case_match; [|done].
  unfold mask28. change 0x0FFFFFFF with (Z.ones 28). rewrite Z.land_ones by lia. by apply Z.mod_pos_bound.
Qed.

Lemma fat_entry_copy f m c : fat_entry f m c = copy_entry f m 0 c.
Proof. unfold fat_entry, copy_entry. rewrite Z.mul_0_l. change (u32 0) with 0. by rewrite Z.add_0_r. Qed.

Lemma fat_entry_bound f m c : 0 <= fat_entry f m c < 2 ^ 28.
Proof. rewrite fat_entry_copy. apply copy_entry_bound. Qed.

Lemma not_NoDup_lookup (l : list Z) : ~ NoDup l -> exists i j x, (i < j)%nat /\ l !! i = Some x /\ l !! j = Some x.
Proof.
  induction l as [|y l IH]; intros Hn; [destruct Hn; constructor|].
  destruct (decide (y ∈ l)) as [[j Hj]%list_elem_of_lookup|Hy].
  - exists 0%nat, (S j), y. split_and!; [lia|done|done].
  - destruct IH as (i & j & x & Hij & Hi & Hj); [intros Hl; apply Hn; by constructor|].
    exists (S i), (S j), x. split_and!; [lia|done|done].
Qed.

Lemma pigeonhole (g : nat -> Z) (N : nat) :
  (forall i, (i <= N)%nat -> 0 <= g i < Z.of_nat N) -> exists i j, (i < j <= N)%nat /\ g i = g j.
Proof.
  intros Hg. destruct (decide (NoDup (g <$> seq 0 (S N)))) as [Hnd|Hnd].
  - exfalso. assert (Hsub : (g <$> seq 0 (S N)) ⊆+ seqZ 0 (Z.of_nat N)).
    { apply NoDup_submseteq; [done|]. intros x (i & -> & Hi%elem_of_seq)%list_elem_of_fmap.
      apply elem_of_seqZ. pose proof (Hg i ltac:(lia)). lia. }
    apply submseteq_length in Hsub. rewrite length_fmap, length_seq, length_seqZ in Hsub. lia.
  - destruct (not_NoDup_lookup _ Hnd) as (i & j & x & Hij & Hi & Hj).
    apply list_lookup_fmap_Some in Hi as (i' & Ei & Hi%lookup_seq), Hj as (j' & Ej & Hj%lookup_seq).
    exists i, j. split; [lia|]. destruct Hi as [-> _], Hj as [-> _]. cbn in Ei, Ej. congruence.
Qed.

Section Floyd.
Variable T : Z -> Z.
Hypothesis Tbound : forall c, 0 <= T c < 2 ^ 28.
Notation it n c := (Nat.iter n T c).

Lemma iter_add n m c : it (n + m) c = it n (it m c).
Proof. induction n as [|n IH]; [done|]. change (T (it (n + m) c) = T (it n (it m c))). by rewrite IH. Qed.

(** A repeated cluster makes the chain periodic. *)
Lemma iter_period i p c k : it (i + p) c = it i c -> it (i + k * p) c = it i c.
Proof.
  intros H. induction k as [|k IH]; [by rewrite Nat.add_0_r|].
  replace (i + S k * p)%nat with (k * p + (i + p))%nat by lia. rewrite iter_add, H, <- iter_add.
  by rewrite Nat.add_comm.
Qed.

Lemma iter_period_from i p c j k : it (i + p) c = it i c -> (i <= j)%nat -> it (j + k * p) c = it j c.
Proof.
  intros H Hj. apply iter_period. replace (j + p)%nat with ((j - i) + (i + p))%nat by lia.
  rewrite iter_add, H, <- iter_add. f_equal. lia.
Qed.

(** Where the hare meets the tortoise. *)
Lemma meeting c : exists k, (1 <= k)%nat /\ Z.of_nat k <= 2 ^ 28 /\ it k c = it (2 * k) c.
Proof.
  set (N := Z.to_nat (2 ^ 28)). assert (HN : Z.of_nat N = 2 ^ 28) by (unfold N; lia). clearbody N.
  destruct (pigeonhole (fun i => it (S i) c) N) as (i & j & Hij & E).
  { intros i _. rewrite HN. apply Tbound. }
  set (p := (j - i)%nat). assert (Hp : it (S i + p) c = it (S i) c) by (rewrite E; f_equal; lia).
  set (q := ((i + p) / p)%nat). pose proof (Nat.div_mod_eq (i + p) p) as Hq.
  pose proof (Nat.mod_upper_bound (i + p) p ltac:(lia)) as Hr. fold q in Hq.
  exists (p * q)%nat. split_and!; [nia|nia|].
  replace (2 * (p * q))%nat with (p * q + q * p)%nat by lia. symmetry. apply (iter_period_from (S i)); [done|nia].
Qed.

(** No meeting happens on a chain that ends, and a chain that does not end
    stays among clusters. *)
Lemma meet_endless c k :
  (1 <= k)%nat -> it k c = it (2 * k) c -> (forall i, (1 <= i <= 2 * k)%nat -> cluster_has_next (it i c) = true) ->
  endless T c.
Proof.
  intros Hk E Hn n. change (T (it n c)) with (it (S n) c).
  destruct (decide (S n <= k)%nat); [apply Hn; lia|].
  set (r := ((S n - k) mod k)%nat). pose proof (Nat.div_mod_eq (S n - k) k) as Hd.
  pose proof (Nat.mod_upper_bound (S n - k) k ltac:(lia)) as Hr. fold r in Hd, Hr.
  replace (S n) with (k + r + ((S n - k) / k) * k)%nat by lia.
  rewrite (iter_period_from k); [apply Hn; lia| |lia]. rewrite E. f_equal. lia.
Qed.

End Floyd.

Section Cycle.
Context {D : Type} `{RD : ReliableDevice D}.
Implicit Types s : fstate D.

(** The loop has done [k] rounds without a meeting, on clusters only. *)
Definition racing (T : Z -> Z) (c : Z) (s0 : fstate D) (n : nat) (p : Z * Z) s : Prop :=
  same s0 s /\ exists k, p = (Nat.iter k T c, Nat.iter (2 * k) T c) /\ (n + k <= Z.to_nat (2 ^ 28))%nat /\
    (exists K, (K <= n + k)%nat /\ (k < K)%nat /\ Nat.iter K T c = Nat.iter (2 * K) T c) /\
    (forall i, (1 <= i <= 2 * k)%nat -> cluster_has_next (Nat.iter i T c) = true).

Lemma wp_cycle_step s0 c n p s :
  bytes_per_sector (fs s0) = 512 ->
  racing (fat_entry (fs s0) (disk s0)) c s0 n p s ->
  wp (cycle_step p) (fun r s' => match r with
    | inl y => exists n', (n' < n)%nat /\ racing (fat_entry (fs s0) (disk s0)) c s0 n' y s'
    | inr b => same s0 s' /\ (b = true <-> endless (fat_entry (fs s0) (disk s0)) c)
    end) s.
Proof.
  set (T := fat_entry (fs s0) (disk s0)). intros Hb ([Hf Hd] & k & -> & Hn & (K & HK & Hk & Em) & Hc).
  set (it i := Nat.iter i T c). assert (HT : forall i, T (it i) = it (S i)) by done.
  assert (Hrd : forall s x (Q : Z -> fstate D -> Prop), same s0 s ->
    (forall s', same s0 s' -> Q (T x) s') -> wp (fat_get_entry x) Q s).
  { intros s1 x Q [H1 H2] HQ. apply wp_fat_get_entry; [congruence|]. intros s' Hs'. rewrite H1, H2.
    apply HQ. apply (transitivity (y := s1)); [split; done|done]. }
  unfold cycle_step. cbv beta iota. wp_struct. apply Hrd; [done|]. intros s1 Hs1.
  change (T (Nat.iter (2 * k) T c)) with (it (S (2 * k))).
  destruct (cluster_has_next (it (S (2 * k)))) eqn:H1; cbn [negb]; cycle 1.
  { wp_struct. split; [done|]. split; [done|]. intros He. by rewrite <- (He (2 * k)%nat). }
  wp_struct. apply Hrd; [done|]. intros s2 Hs2. rewrite HT.
  destruct (cluster_has_next (it (S (S (2 * k))))) eqn:H2; cbn [negb]; cycle 1.
  { wp_struct. split; [done|]. split; [done|]. intros He. by rewrite <- (He (S (2 * k))). }
  wp_struct. apply Hrd; [done|]. intros s3 Hs3. change (T (Nat.iter k T c)) with (it (S k)).
  assert (Hc' : forall i, (1 <= i <= 2 * S k)%nat -> cluster_has_next (it i) = true).
  { intros i Hi. destruct (decide (i <= 2 * k)%nat); [apply Hc; lia|].
    destruct (decide (i = S (2 * k))) as [->|]; [done|]. by replace i with (S (S (2 * k))) by lia. }
  replace (S (S (2 * k))) with (2 * S k)%nat by lia.
  destruct (Z.eqb_spec (it (S k)) (it (2 * S k)%nat)) as [E|E]; wp_struct.
  - split; [done|]. split; [|done]. intros _. apply (meet_endless T) with (k := S k); [lia|done|exact Hc'].
  - exists (n - 1)%nat. assert (S k <> K) by (intros <-; by apply E).
    split; [lia|]. split; [done|]. exists (S k). split; [done|]. split; [lia|]. split; [|exact Hc'].
    exists K. split_and!; [lia|lia|done].
Qed.

(** The check always ends, changes nothing, and answers whether the chain is
    endless. *)
Lemma wp_fat_chain_has_cycle s c (Q : bool -> fstate D -> Prop) :
  bytes_per_sector (fs s) = 512 ->
  (forall b s', same s s' -> (b = true <-> 2 <= c /\ endless (fat_entry (fs s) (disk s)) c) -> Q b s') ->
  wp (fat_chain_has_cycle c) Q s.
Proof.
  intros Hb HQ. unfold fat_chain_has_cycle. destruct (Z.ltb_spec c 2).
  { wp_struct. apply HQ; [done|]. split; [done|lia]. }
  set (T := fat_entry (fs s) (disk s)) in *.
  destruct (meeting T (fat_entry_bound _ _) c)
    as (K & H1 & HK & Em).
  eapply wp_mono; [eapply (wp_loop_until _ (racing T c s)
    (fun b s' => same s s' /\ (b = true <-> endless T c)) (fun n x s' => wp_cycle_step s c n x s' Hb) _ K)|].
  - split; [done|]. exists 0%nat. split_and!; [done|lia| |intros; lia]. exists K. split_and!; [lia|lia|done].
  - unfold cycle_bound. lia.
  - intros b s' [Hs Hbool]. apply HQ; [done|]. rewrite Hbool. split; [by split|by intros [_ ?]].
Qed.
End Cycle.
