(* ===== verification/FatChain.v ===== *)
(** * Chains of clusters

    Writing the table, and the functions that free and allocate chains, on
    lists of clusters.  [fat_geometry] is what a sane boot sector gives: 512
    bytes per sector and a table and data area that 32-bit sector numbers
    can address. *)
From Stdlib Require Import ZArith Lia.
From stdpp Require Import base list option gmap.
From S2P Require Import Prelude Bytes Fat32 FatTable.
#[local] Open Scope Z_scope.

(** The number of entries of the table. *)
Definition clusters (f : FAT32_Instance) : Z := 128 * sectors_per_fat f.

Record fat_geometry (f : FAT32_Instance) : Prop := {
  fg_bps : bytes_per_sector f = 512;
  fg_spc : 0 < sectors_per_cluster f < 256;
  fg_cnt : 0 < fat_count f < 256;
  fg_res : 0 < reserved_sectors f;
  fg_spf : 0 < sectors_per_fat f < 2 ^ 21;
  fg_root : 2 <= root_cluster f < clusters f;
  fg_data : data_start_sector f = reserved_sectors f + fat_count f * sectors_per_fat f;
  fg_end : data_start_sector f + clusters f * sectors_per_cluster f < 2 ^ 32
}.

Definition in_fat (f : FAT32_Instance) (x : Z) : Prop := reserved_sectors f <= x < data_start_sector f.
Definition fat_present (f : FAT32_Instance) (m : gmap Z (list Z)) : Prop :=
  (forall x, in_fat f x -> is_Some (m !! x)) /\ (forall x b, m !! x = Some b -> length b = 512%nat).

(** Where the entry of [c] is in copy [k]. *)
Definition entry_sector (f : FAT32_Instance) (k c : Z) : Z :=
  reserved_sectors f + k * sectors_per_fat f + c / 128.

Section Geometry.
Context (f : FAT32_Instance) (Hg : fat_geometry f).

Lemma entry_sector_in k c : 0 <= k < fat_count f -> 0 <= c < clusters f -> in_fat f (entry_sector f k c).
Proof.
  unfold in_fat, entry_sector, clusters. rewrite (fg_data f Hg). intros Hk Hc.
  pose proof (fg_res f Hg). pose proof (fg_spf f Hg). Z.div_mod_to_equations. nia.
Qed.

Lemma entry_sector_inj k c k' c' :
  0 <= k -> 0 <= c < clusters f -> 0 <= k' -> 0 <= c' < clusters f ->
  entry_sector f k c = entry_sector f k' c' -> k = k' /\ c / 128 = c' / 128.
Proof.
  unfold entry_sector, clusters. intros Hk Hc Hk' Hc' E.
  assert (0 <= c / 128 < sectors_per_fat f) by (Z.div_mod_to_equations; lia).
  assert (0 <= c' / 128 < sectors_per_fat f) by (Z.div_mod_to_equations; lia).
  assert (k = k') as -> by nia. lia.
Qed.

Lemma clusters_bound : clusters f < FAT32_EOC.
Proof. unfold clusters, FAT32_EOC. pose proof (fg_spf f Hg). lia. Qed.

Lemma u32_entry_sector k c : 0 <= k < fat_count f -> 0 <= c < clusters f ->
  u32 (reserved_sectors f + u32 (k * sectors_per_fat f) + u32 (c * 4) / 512) = entry_sector f k c /\
  u32 (c * 4) mod 512 / 4 * 4 = c mod 128 * 4.
Proof.
  intros Hk Hc. pose proof (entry_sector_in k c Hk Hc) as [H1 H2]. pose proof clusters_bound as Hcb; unfold FAT32_EOC in Hcb.
  pose proof (fg_end f Hg). pose proof (fg_spc f Hg). pose proof (fg_res f Hg). pose proof (fg_spf f Hg).
  assert (clusters f * sectors_per_cluster f >= 0) by (unfold clusters in *; nia).
  unfold u32. rewrite (Z.mod_small (c * 4)) by lia. unfold entry_sector in *.
  rewrite (Z.mod_small (k * _)) by (Z.div_mod_to_equations; nia).
  replace (c * 4 / 512) with (c / 128) by (Z.div_mod_to_equations; lia).
  split; [apply Z.mod_small; lia|Z.div_mod_to_equations; lia].
Qed.

Lemma copy_entry_at m k c : 0 <= k < fat_count f -> 0 <= c < clusters f ->
  copy_entry f m k c = match m !! entry_sector f k c with
  | Some b => match load32 b (c mod 128 * 4) with Some v => Z.land v mask28 | None => FAT32_EOC end
  | None => FAT32_EOC end.
Proof. intros Hk Hc. unfold copy_entry. by destruct (u32_entry_sector k c Hk Hc) as [-> ->]. Qed.

(** Storing a word in one copy. *)
Lemma copy_entry_store m k c b w b' k' c' :
  0 <= k < fat_count f -> 0 <= c < clusters f -> 0 <= k' < fat_count f -> 0 <= c' < clusters f ->
  m !! entry_sector f k c = Some b -> length b = 512%nat -> 0 <= w < 2 ^ 32 ->
  put_bytes b (c mod 128 * 4) (le32 w) = Some b' ->
  copy_entry f (<[entry_sector f k c := b']> m) k' c' =
    if bool_decide (k' = k /\ c' = c) then Z.land w mask28 else copy_entry f m k' c'.
Proof.
  intros Hk Hc Hk' Hc' Hb Hl Hw Hp. rewrite !copy_entry_at by done.
  destruct (decide (entry_sector f k' c' = entry_sector f k c)) as [E|E]; cycle 1.
  { rewrite lookup_insert_ne by done. by rewrite bool_decide_false by (intros [-> ->]; by apply E). }
  apply entry_sector_inj in E as [-> Ec]; [|lia..].
  assert (Es : entry_sector f k c' = entry_sector f k c) by (unfold entry_sector; by rewrite Ec).
  rewrite Es, lookup_insert_eq, Hb. unfold load32.
  destruct (decide (c' = c)) as [->|Hne].
  - rewrite bool_decide_true by done. change 4 with (Z.of_nat (length (le32 w))) at 2.
    rewrite (slice_put_same _ _ _ _ Hp). cbn [fmap option_fmap option_map]. by rewrite le_val_le32.
  - rewrite bool_decide_false by (by intros [_ ?]). rewrite (slice_put_other _ _ _ _ (c' mod 128 * 4) 4 Hp); [done|].
    change (Z.of_nat (length (le32 w))) with 4. Z.div_mod_to_equations. lia.
Qed.
End Geometry.

(** [m'] is [m] with entry [c] set to [v] in the copies from [lo] on. *)
Definition table_set (f : FAT32_Instance) (lo c v : Z) (m m' : gmap Z (list Z)) : Prop :=
  (forall k c', 0 <= k < fat_count f -> 0 <= c' < clusters f ->
     copy_entry f m' k c' = if bool_decide (lo <= k /\ c' = c) then v else copy_entry f m k c') /\
  (forall x, ~ in_fat f x -> m' !! x = m !! x) /\
  fat_present f m'.

(** ** The word stored in an entry *)
Lemma bits_below x n : 0 <= x -> 0 <= n -> (forall b, n <= b -> Z.testbit x b = false) -> x < 2 ^ n.
Proof.
  intros Hx Hn Hb. destruct (decide (x = 0)) as [->|Hne]; [by apply Z.pow_pos_nonneg|].
  destruct (Z.lt_ge_cases x (2 ^ n)) as [|Hge]; [done|]. exfalso.
  assert (n <= Z.log2 x) by (apply Z.log2_le_pow2; lia).
  pose proof (Z.bit_log2 x ltac:(lia)) as E. by rewrite Hb in E.
Qed.

Lemma bits_high x n b : 0 <= x < 2 ^ n -> 0 <= n <= b -> Z.testbit x b = false.
Proof.
  intros Hx Hn. destruct (decide (x = 0)) as [->|]; [apply Z.bits_0|].
  apply Z.bits_above_log2; [lia|]. assert (Z.log2 x < n) by (apply Z.log2_lt_pow2; lia). lia.
Qed.

Lemma new_word e v : 0 <= v < 2 ^ 28 ->
  0 <= Z.lor (Z.land e 0xF0000000) (Z.land v 0x0FFFFFFF) < 2 ^ 32 /\
  Z.land (Z.lor (Z.land e 0xF0000000) (Z.land v 0x0FFFFFFF)) mask28 = v.
Proof.
  intros Hv. assert (Ev : Z.land v 0x0FFFFFFF = v).
  { change 0x0FFFFFFF with (Z.ones 28). rewrite Z.land_ones by lia. by apply Z.mod_small. }
  rewrite Ev. assert (Hl : 0 <= Z.lor (Z.land e 0xF0000000) v) by (apply Z.lor_nonneg; split; [apply Z.land_nonneg; lia|lia]).
  split; [split; [done|]|].
  - apply bits_below; [done|done|]. intros b Hb. rewrite Z.lor_spec, Z.land_spec.
    rewrite (bits_high v 28), (bits_high 0xF0000000 32) by lia. by rewrite andb_false_r.
  - change mask28 with (Z.ones 28). change 0xF0000000 with (Z.shiftl 15 28). apply Z.bits_inj'. intros b Hb.
    rewrite Z.land_spec, Z.lor_spec, Z.land_spec. destruct (Z.lt_ge_cases b 28).
    + rewrite Z.shiftl_spec_low, Z.ones_spec_low by lia. by rewrite andb_false_r, andb_true_r.
    + rewrite Z.ones_spec_high by lia. by rewrite andb_false_r, (bits_high v 28) by lia.
Qed.

(** ** Writing an entry *)
Lemma fat_present_insert f m x b :
  fat_present f m -> is_Some (m !! x) -> length b = 512%nat -> fat_present f (<[x := b]> m).
Proof.
  intros [H1 H2] Hx Hb. split.
  - intros y Hy. destruct (decide (y = x)) as [->|]; [rewrite lookup_insert_eq; by eexists|].
    rewrite lookup_insert_ne by done. by apply H1.
  - intros y b' Hy. destruct (decide (y = x)) as [->|]; [rewrite lookup_insert_eq in Hy; congruence|].
    rewrite lookup_insert_ne in Hy by done. by eapply H2.
Qed.

Section Table.
Context {D : Type} `{RD : ReliableDevice D}.
Implicit Types s : fstate D.

Lemma wp_fat_set_copies f c v (Hg : fat_geometry f) : 0 <= c < clusters f -> 0 <= v < 2 ^ 28 ->
  forall n copy s (Q : bool -> fstate D -> Prop),
  fs s = f -> fat_present f (disk s) -> 0 <= copy -> copy + Z.of_nat n = fat_count f ->
  (forall s', fs s' = f -> table_set f copy c v (disk s) (disk s') -> Q true s') ->
  wp (fat_set_copies n copy c v) Q s.
Proof.
  intros Hc Hv n. induction n as [|n IH]; intros copy s Q Hf Hp Hk Hn HQ; cbn [fat_set_copies].
  { wp_struct. apply HQ; [done|]. split_and!; [|done|done]. intros k c' ? ?.
    rewrite bool_decide_false by lia. done. }
  assert (Hk' : 0 <= copy < fat_count f) by lia.
  destruct (u32_entry_sector f Hg copy c Hk' Hc) as [Es Eo].
  destruct (proj1 Hp _ (entry_sector_in f Hg copy c Hk' Hc)) as [b Hb]. pose proof (proj2 Hp _ _ Hb) as Hl.
  destruct (new_word (default 0 (load32 b (c mod 128 * 4))) v Hv) as [Hw1 Hw2].
  wp_struct. wp_struct. rewrite Hf, (fg_bps f Hg), Eo, Es. wp_struct. apply wp_read_blocks. intros s1 [Hf1 Hd1].
  rewrite Hb. assert (Hoff : 0 <= c mod 128 * 4 <= 508) by (Z.div_mod_to_equations; lia).
  destruct (load32 b (c mod 128 * 4)) as [e|] eqn:He; cycle 1.
  { unfold load32 in He. rewrite slice_Some in He by lia. done. }
  wp_struct. eapply wp_from_option; [reflexivity|]. cbn [default from_option id] in Hw1, Hw2.
  wp_struct. eapply wp_from_option; [apply put_bytes_Some; [lia|cbn; lia]|].
  set (b' := _ ++ _ ++ _).
  assert (Hb' : put_bytes b (c mod 128 * 4) (le32 (Z.lor (Z.land e 4026531840) (Z.land v 268435455))) = Some b')
    by (apply put_bytes_Some; [lia|cbn; lia]).
  assert (Hl' : length b' = 512%nat) by (rewrite (put_bytes_length _ _ _ _ Hb'); done).
  wp_struct. eapply wp_write_blocks; [rewrite Hd1; exact Hb|done|]. intros s2 Hf2 Hd2.
  rewrite Hd1 in Hd2. apply IH; [congruence|rewrite Hd2; apply fat_present_insert; [done|by eexists|done]|lia|lia|].
  intros s3 Hf3 (T1 & T2 & T3). apply HQ; [done|]. rewrite Hd2 in T1, T2. split_and!; [| |done].
  - intros k c' Hkk Hcc. rewrite T1 by done.
    rewrite (copy_entry_store f Hg _ copy c b _ b') by done. rewrite Hw2.
    repeat case_bool_decide; try done; lia.
  - intros x Hx. rewrite T2 by done. apply lookup_insert_ne. intros <-. by apply Hx, entry_sector_in.
Qed.

(** Every copy of the table holds the new entry, and nothing else changes. *)
Lemma wp_fat_set_entry s c v (Q : bool -> fstate D -> Prop) :
  fat_geometry (fs s) -> fat_present (fs s) (disk s) -> 0 <= c < clusters (fs s) -> 0 <= v < 2 ^ 28 ->
  (forall s', fs s' = fs s -> table_set (fs s) 0 c v (disk s) (disk s') -> Q true s') ->
  wp (fat_set_entry c v) Q s.
Proof.
  intros Hg Hp Hc Hv HQ. unfold fat_set_entry. wp_struct. wp_struct.
  apply (wp_fat_set_copies (fs s)); try done. pose proof (fg_cnt _ Hg). lia.
Qed.
End Table.

(** ** Chains *)
Fixpoint chain (f : FAT32_Instance) (T : Z -> Z) (l : list Z) : Prop :=
  match l with
  | [] => False
  | c :: l' => 2 <= c < clusters f /\
      match l' with [] => cluster_has_next (T c) = false | c' :: _ => T c = c' /\ chain f T l' end
  end.

Lemma chain_in f T l c : chain f T l -> c ∈ l -> 2 <= c < clusters f.
Proof.
  revert c. induction l as [|x l IH]; [done|]. intros c [Hx Hl] [->|Hc]%elem_of_cons; [done|].
  destruct l as [|y l]; [set_solver|]. by apply IH; [apply Hl|].
Qed.

Lemma chain_has_next f T c c' l : fat_geometry f -> chain f T (c :: c' :: l) -> cluster_has_next (T c) = true.
Proof.
  intros Hg (_ & -> & Hl). pose proof (clusters_bound f Hg). pose proof (chain_in f T _ c' Hl ltac:(left)).
  unfold cluster_has_next. apply andb_true_iff. rewrite Z.leb_le, Z.ltb_lt. lia.
Qed.

(** The head determines the chain. *)
Lemma chain_unique f T l1 : fat_geometry f -> forall l2, chain f T l1 -> chain f T l2 -> head l1 = head l2 -> l1 = l2.
Proof.
  intros Hg. induction l1 as [|c l1 IH]; intros [|c2 l2] H1 H2 E; try done. injection E as <-.
  f_equal. destruct l1 as [|x l1], l2 as [|y l2]; [done| | |].
  - pose proof (chain_has_next f T c y l2 Hg H2) as E. destruct H1 as [_ H1]. congruence.
  - pose proof (chain_has_next f T c x l1 Hg H1) as E. destruct H2 as [_ H2]. congruence.
  - destruct H1 as (_ & E1 & H1), H2 as (_ & E2 & H2). apply IH; [done|done|]. cbn. congruence.
Qed.

Lemma chain_suffix f T l1 l2 : chain f T (l1 ++ l2) -> l2 <> [] -> chain f T l2.
Proof.
  induction l1 as [|c l1 IH]; [done|]. intros [_ H] Hn. apply IH; [|done].
  destruct (l1 ++ l2) as [|x l] eqn:E; [|by destruct H as [_ ?]]. apply app_nil in E. by destruct E.
Qed.

Lemma chain_NoDup f T l : fat_geometry f -> chain f T l -> NoDup l.
Proof.
  intros Hg. induction l as [|c l IH]; [done|]. intros H. constructor.
  - intros Hc. apply list_elem_of_split in Hc as (l1 & l2 & E). pose proof H as Hs.
    rewrite E in Hs. change (c :: l1 ++ c :: l2) with ((c :: l1) ++ c :: l2) in Hs.
    apply chain_suffix in Hs; [|done]. pose proof (chain_unique f T _ Hg _ Hs H eq_refl) as Eq.
    injection Eq as Eq. apply (f_equal length) in Eq. rewrite E, length_app in Eq. cbn in Eq. lia.
  - destruct l as [|x l]; [constructor|]. destruct H as (_ & _ & H). by apply IH.
Qed.

Lemma chain_ends f T c l : chain f T (c :: l) -> ~ endless T c.
Proof.
  revert c. induction l as [|x l IH]; intros c [_ H] He.
  - specialize (He 0%nat). cbn in He. congruence.
  - destruct H as [E H]. apply (IH x H). intros n. specialize (He (S n)).
    rewrite Nat.iter_succ_r, E in He. exact He.
Qed.

(** Chains only depend on the entries of their clusters. *)
Lemma chain_ext f T T' l : (forall c, c ∈ l -> T' c = T c) -> chain f T l -> chain f T' l.
Proof.
  induction l as [|c l IH]; [done|]. intros HT [Hc H]. split; [done|].
  rewrite HT by left. destruct l as [|x l]; [done|]. destruct H as [E H]. split; [done|].
  apply IH; [|done]. intros y Hy. apply HT. by right.
Qed.

(** The links that make a list of clusters a chain. *)
Fixpoint link_of (l : list Z) (c : Z) : option Z :=
  match l with [] => None | x :: l' => if x =? c then Some (default FAT32_EOC (head l')) else link_of l' c end.

Lemma link_of_notin l c : c ∉ l -> link_of l c = None.
Proof.
  induction l as [|x l IH]; [done|]. intros [Hx Hl]%not_elem_of_cons. cbn [link_of].
  rewrite (proj2 (Z.eqb_neq x c)) by done. by apply IH.
Qed.

Lemma link_of_app l1 l2 c : c ∉ l1 -> link_of (l1 ++ l2) c = link_of l2 c.
Proof.
  induction l1 as [|x l IH]; [done|]. intros [Hx Hl]%not_elem_of_cons. cbn [link_of app].
  rewrite (proj2 (Z.eqb_neq x c)) by done. by apply IH.
Qed.

Lemma chain_link f T T' l :
  NoDup l -> l <> [] -> (forall c, c ∈ l -> 2 <= c < clusters f) ->
  (forall c, 0 <= c < clusters f -> T' c = default (T c) (link_of l c)) -> chain f T' l.
Proof.
  intros Hnd Hne Hr HT. assert (Hs : forall l2 l1, l = l1 ++ l2 -> l2 <> [] -> chain f T' l2); [|by apply (Hs l [])].
  induction l2 as [|c l2 IH]; [done|]. intros l1 E _.
  assert (Hc : c ∈ l) by (rewrite E; set_solver). specialize (Hr c Hc).
  assert (Ec : T' c = default FAT32_EOC (head l2)).
  { rewrite HT by lia. rewrite E, link_of_app; [cbn [link_of]; by rewrite Z.eqb_refl|].
    rewrite E in Hnd. apply NoDup_app in Hnd as (_ & Hd & _). intros Hin. apply (Hd c Hin). by left. }
  split; [done|]. destruct l2 as [|x l2]; [by rewrite Ec|]. split; [by rewrite Ec|].
  apply (IH (l1 ++ [c])); [|done]. by rewrite <- app_assoc.
Qed.

(** Appending a cluster links the last one to it. *)
Lemma link_of_snoc l c x : NoDup (l ++ [c]) ->
  link_of (l ++ [c]) x =
    if x =? c then Some FAT32_EOC else if bool_decide (last l = Some x) then Some c else link_of l x.
Proof.
  induction l as [|y l IH]; intros Hnd.
  - cbn. rewrite (Z.eqb_sym x c). by destruct (c =? x).
  - cbn [app] in *. apply NoDup_cons in Hnd as [Hy Hnd]. cbn [link_of].
    destruct (Z.eqb_spec y x) as [->|Hne].
    + rewrite (proj2 (Z.eqb_neq x c)) by (intros ->; apply Hy; set_solver).
      destruct l as [|z l]; [by rewrite bool_decide_true|]. cbn [app head default].
      rewrite bool_decide_false; [done|]. rewrite last_cons_cons. intros Hl%last_Some_elem_of.
      apply Hy. set_solver.
    + rewrite IH by done. destruct (x =? c); [done|]. destruct l as [|z l]; [|by rewrite last_cons_cons].
      rewrite (bool_decide_false (last [y] = Some x)); [done|]. cbn. congruence.
Qed.

(** ** Updates of the table *)
Definition table_upd (f : FAT32_Instance) (g : Z -> option Z) (m m' : gmap Z (list Z)) : Prop :=
  forall k c, 0 <= k < fat_count f -> 0 <= c < clusters f -> copy_entry f m' k c = default (copy_entry f m k c) (g c).

Lemma table_upd_entry f g m m' c :
  fat_geometry f -> table_upd f g m m' -> 0 <= c < clusters f -> fat_entry f m' c = default (fat_entry f m c) (g c).
Proof. intros Hg H Hc. rewrite !fat_entry_copy. apply H; [|done]. pose proof (fg_cnt f Hg). lia. Qed.

Lemma table_upd_trans f g1 g2 g3 m1 m2 m3 :
  table_upd f g1 m1 m2 -> table_upd f g2 m2 m3 ->
  (forall c, 0 <= c < clusters f -> g3 c = match g2 c with Some v => Some v | None => g1 c end) ->
  table_upd f g3 m1 m3.
Proof.
  intros H1 H2 H3 k c Hk Hc. rewrite H2, H1, H3 by done. by destruct (g2 c).
Qed.

Lemma table_upd_ext f g m m' m1 m1' :
  table_upd f g m m' -> (forall x, in_fat f x -> m1 !! x = m !! x) -> (forall x, in_fat f x -> m1' !! x = m' !! x) ->
  fat_geometry f -> table_upd f g m1 m1'.
Proof.
  intros H E E' Hg k c Hk Hc. specialize (H k c Hk Hc).
  rewrite !copy_entry_at in * by done. rewrite E, E' by (by apply entry_sector_in). exact H.
Qed.

(** ** Freeing and allocating chains *)

(** The sectors of a cluster. *)
Definition cluster_sectors (f : FAT32_Instance) (c : Z) : list Z :=
  (fun i => data_start_sector f + (c - 2) * sectors_per_cluster f + i) <$> seqZ 0 (sectors_per_cluster f).

(** Everything outside the table that the clusters of [l] do not cover is as
    before, and their sectors are zero. *)
Definition zeroed (f : FAT32_Instance) (l : list Z) (m m' : gmap Z (list Z)) : Prop :=
  forall x, ~ in_fat f x ->
    m' !! x = if bool_decide (x ∈ (l ≫= cluster_sectors f)) then (fun _ => zero_buf) <$> (m !! x) else m !! x.

Lemma in_cluster_sectors f c x : fat_geometry f -> 
  x ∈ cluster_sectors f c <-> exists i, 0 <= i < sectors_per_cluster f /\ x = data_start_sector f + (c - 2) * sectors_per_cluster f + i.
Proof.
  intros Hg. unfold cluster_sectors. rewrite list_elem_of_fmap. setoid_rewrite elem_of_seqZ.
  split; intros (i & H1 & H2); exists i; split; try done; lia.
Qed.

Lemma cluster_sector_out f c x : fat_geometry f -> 2 <= c -> x ∈ cluster_sectors f c -> ~ in_fat f x.
Proof.
  intros Hg Hc (i & Hi & ->)%in_cluster_sectors; [|done]. pose proof (fg_spc f Hg). unfold in_fat. nia.
Qed.

Lemma cluster_to_sector_at f c : fat_geometry f -> 2 <= c < clusters f ->
  cluster_to_sector f c = data_start_sector f + (c - 2) * sectors_per_cluster f.
Proof.
  intros Hg Hc. unfold cluster_to_sector.
  rewrite (proj2 (Z.eqb_neq c 0)), (proj2 (Z.eqb_neq c 1)) by lia. cbn [orb].
  rewrite (proj2 (Z.ltb_ge c 2)) by lia. pose proof (clusters_bound f Hg). unfold FAT32_EOC in *.
  pose proof (fg_spc f Hg). pose proof (fg_end f Hg). pose proof (fg_data f Hg). pose proof (fg_res f Hg).
  pose proof (fg_cnt f Hg). pose proof (fg_spf f Hg). assert (0 <= data_start_sector f) by nia.
  unfold u32. rewrite (Z.mod_small (c - 2)) by lia.
  assert (0 <= (c - 2) * sectors_per_cluster f < clusters f * sectors_per_cluster f) by nia.
  rewrite (Z.mod_small ((c - 2) * _)) by lia. apply Z.mod_small. lia.
Qed.

(** The last sector of the device that the file system can name. *)
Lemma cluster_sector_bound f c x : fat_geometry f -> 2 <= c < clusters f -> x ∈ cluster_sectors f c -> 0 <= x < 2 ^ 32.
Proof.
  intros Hg Hc (i & Hi & ->)%in_cluster_sectors; [|done]. pose proof (fg_spc f Hg). pose proof (fg_end f Hg).
  pose proof (fg_data f Hg). pose proof (fg_res f Hg). pose proof (fg_cnt f Hg). pose proof (fg_spf f Hg).
  assert (0 <= data_start_sector f) by nia. nia.
Qed.

Section Alloc.
Context {D : Type} `{RD : ReliableDevice D}.
Implicit Types s : fstate D.

(** What every function below keeps, and how the state evolved. *)
Record ready (f : FAT32_Instance) s : Prop := {
  rd_fs : fs s = f;
  rd_geometry : fat_geometry f;
  rd_present : fat_present f (disk s)
}.
Notation T s := (fat_entry (fs s) (disk s)).

Lemma ready_same f s s' : ready f s -> same s s' -> ready f s'.
Proof. intros [H1 H2 H3] [E1 E2]. split; [congruence|done|by rewrite E2]. Qed.

(** Writing one entry. *)
Lemma wp_set_entry f s c v (Q : bool -> fstate D -> Prop) :
  ready f s -> 0 <= c < clusters f -> 0 <= v < 2 ^ 28 ->
  (forall s', ready f s' -> table_upd f (fun x => if x =? c then Some v else None) (disk s) (disk s') ->
     (forall x, ~ in_fat f x -> disk s' !! x = disk s !! x) -> Q true s') ->
  wp (fat_set_entry c v) Q s.
Proof.
  intros [<- Hg Hp] Hc Hv HQ. apply wp_fat_set_entry; [done..|]. intros s' Hf (H1 & H2 & H3). apply HQ.
  - split; [done|done|done].
  - intros k x Hk Hx. rewrite H1 by done. destruct (Z.eqb_spec x c) as [->|]; [rewrite bool_decide_true; [done|lia]|].
    rewrite bool_decide_false; [done|]. lia.
  - done.
Qed.

Lemma wp_get_entry f s c (Q : Z -> fstate D -> Prop) :
  ready f s -> (forall s', ready f s' -> same s s' -> Q (T s c) s') -> wp (fat_get_entry c) Q s.
Proof.
  intros Hr HQ. apply wp_fat_get_entry; [destruct Hr as [-> Hg _]; apply Hg|].
  intros s' Hs. apply HQ; [by eapply ready_same|done].
Qed.

Definition freed (l : list Z) (x : Z) : option Z := if bool_decide (x ∈ l) then Some 0 else None.

Lemma wp_free_loop f l : forall guard s (Q : unit -> fstate D -> Prop),
  ready f s -> chain f (T s) l -> (length l <= guard)%nat ->
  (forall s', ready f s' -> table_upd f (freed l) (disk s) (disk s') ->
     (forall x, ~ in_fat f x -> disk s' !! x = disk s !! x) -> Q tt s') ->
  wp (free_loop guard (default 0 (head l))) Q s.
Proof.
  induction l as [|c l IH]; intros guard s Q Hr Hch Hlen HQ; [done|].
  destruct guard as [|guard]; [cbn in Hlen; lia|]. cbn [head default from_option id free_loop].
  pose proof (rd_geometry f s Hr) as Hg. pose proof (rd_fs f s Hr) as Hf.
  pose proof (chain_in _ _ _ c Hch ltac:(left)) as Hc.
  pose proof (chain_NoDup _ _ _ Hg Hch) as Hnd. apply NoDup_cons in Hnd as [Hcl Hnd].
  rewrite (proj2 (Z.ltb_ge c 2)) by lia.
  wp_struct. eapply wp_get_entry; [exact Hr|]. intros s1 Hr1 [Hf1 Hd1].
  wp_struct. eapply wp_set_entry; [exact Hr1|lia|done|]. intros s2 Hr2 Hu Ho. rewrite Hd1 in Hu, Ho.
  destruct l as [|x l].
  - destruct Hch as [_ ->]. cbn [negb]. wp_struct. apply HQ; [done| |exact Ho].
    intros k y Hk Hy. rewrite Hu by done. unfold freed. destruct (Z.eqb_spec y c) as [->|].
    + by rewrite bool_decide_true by left.
    + by rewrite bool_decide_false by set_solver.
  - pose proof (chain_has_next _ _ _ _ _ Hg Hch) as ->. cbn [negb]. destruct Hch as (_ & -> & Hch).
    apply (IH guard s2); [done| |cbn in *; lia|].
    + rewrite (rd_fs _ _ Hr2). eapply chain_ext; [|rewrite Hf in Hch; exact Hch]. intros y Hy.
      pose proof (chain_in _ _ _ y Hch Hy). rewrite Hf in *.
      rewrite (table_upd_entry _ _ _ _ y Hg Hu) by lia. rewrite (proj2 (Z.eqb_neq y c)); [done|].
      intros ->. by apply Hcl.
    + intros s3 Hr3 Hu3 Ho3. apply HQ; [done| |].
      * eapply table_upd_trans; [exact Hu|exact Hu3|]. intros y Hy. unfold freed.
        destruct (decide (y ∈ x :: l)) as [Hin|Hin].
        { rewrite !bool_decide_true; [done|exact Hin|by right]. }
        rewrite (bool_decide_false (y ∈ x :: l)) by done. destruct (Z.eqb_spec y c) as [->|].
        { by rewrite bool_decide_true by left. }
        rewrite bool_decide_false; [done|]. rewrite elem_of_cons. tauto.
      * intros y Hy. by rewrite Ho3, Ho.
Qed.

(** A chain that ends is freed as a whole. *)
Lemma wp_free_chain f s l (Q : bool -> fstate D -> Prop) :
  ready f s -> chain f (T s) l -> (length l <= FREE_GUARD)%nat ->
  (forall s', ready f s' -> table_upd f (freed l) (disk s) (disk s') ->
     (forall x, ~ in_fat f x -> disk s' !! x = disk s !! x) -> Q true s') ->
  wp (fat_free_chain (default 0 (head l))) Q s.
Proof.
  intros Hr Hch Hlen HQ. unfold fat_free_chain. wp_struct.
  apply wp_fat_chain_has_cycle; [destruct Hr as [-> Hg _]; apply Hg|]. intros b s1 Hs1 Hb.
  destruct b.
  { exfalso. destruct l as [|c l]; [done|]. by apply (chain_ends f (T s) c l), Hb. }
  destruct Hs1 as [Hf1 Hd1]. wp_struct. apply (wp_free_loop f l); [by eapply ready_same|by rewrite Hf1, Hd1|done|].
  intros s2 Hr2 Hu Ho. rewrite Hd1 in Hu, Ho. wp_struct. by apply HQ.
Qed.

(** *** The search for a free cluster *)
Definition word_of (b : list Z) (i : Z) : Z := Z.land (default 0 (load32 b (4 * i))) mask28.

Lemma free_in_sector_spec b base : length b = 512%nat -> 0 <= base -> base + 128 < 2 ^ 32 ->
  forall n e, 0 <= e -> e + Z.of_nat n = 128 -> exists r, free_in_sector n e base b = Some r /\
    match r with
    | Some c => exists i, e <= i < 128 /\ c = base + i /\ 2 <= c /\ word_of b i = 0 /\
        forall j, e <= j < i -> 2 <= base + j -> word_of b j <> 0
    | None => forall j, e <= j < 128 -> 2 <= base + j -> word_of b j <> 0
    end.
Proof.
  intros Hl Hb Hb2 n. induction n as [|n IH]; intros e He Hn; cbn [free_in_sector].
  { exists None. split; [done|]. intros; lia. }
  unfold u32. rewrite Z.mod_small by lia.
  assert (Hnext : forall j, e <= j -> j = e \/ e + 1 <= j) by lia.
  destruct (IH (e + 1) ltac:(lia) ltac:(lia)) as (r & Er & Hr).
  destruct (Z.ltb_spec (base + e) 2).
  { exists r. split; [done|]. destruct r as [c|].
    - destruct Hr as (i & ? & ? & ? & ? & Hj). exists i. split_and!; [lia..|done|]. intros j ? ?.
      destruct (Hnext j) as [->|]; [lia|lia|]. apply Hj; lia.
    - intros j ? ?. destruct (Hnext j) as [->|]; [lia|lia|]. apply Hr; lia. }
  unfold load32. rewrite slice_Some by lia. cbn [fmap option_fmap option_map].
  set (w := le_val _). assert (Hw : word_of b e = Z.land w mask28).
  { unfold word_of, load32. by rewrite slice_Some by lia. }
  destruct (Z.eqb_spec (Z.land w 0x0FFFFFFF) 0) as [E|E].
  - exists (Some (base + e)). split; [done|]. exists e. split_and!; [lia..|by rewrite Hw|]. intros; lia.
  - exists r. split; [done|]. assert (He' : word_of b e <> 0) by (by rewrite Hw). destruct r as [c|].
    + destruct Hr as (i & ? & ? & ? & ? & Hj). exists i. split_and!; [lia..|done|]. intros j ? ?.
      destruct (Hnext j) as [->|]; [lia|done|]. apply Hj; lia.
    + intros j ? ?. destruct (Hnext j) as [->|]; [lia|done|]. apply Hr; lia.
Qed.

Lemma entry_word f m sec j b : fat_geometry f -> 0 <= sec < sectors_per_fat f -> 0 <= j < 128 ->
  m !! (reserved_sectors f + sec) = Some b -> length b = 512%nat -> fat_entry f m (sec * 128 + j) = word_of b j.
Proof.
  intros Hg Hs Hj Hb Hl. pose proof (fg_cnt f Hg). rewrite fat_entry_copy, copy_entry_at by (done || unfold clusters; lia).
  replace (entry_sector f 0 (sec * 128 + j)) with (reserved_sectors f + sec)
    by (unfold entry_sector; Z.div_mod_to_equations; lia).
  replace ((sec * 128 + j) mod 128 * 4) with (4 * j) by (Z.div_mod_to_equations; lia).
  rewrite Hb. unfold word_of, load32. by rewrite slice_Some by lia.
Qed.

(** The least free cluster, or 0 when every cluster is in use. *)
Definition least_free (f : FAT32_Instance) (T : Z -> Z) (r : Z) : Prop :=
  (r = 0 /\ forall c, 2 <= c < clusters f -> T c <> 0) \/
  (2 <= r < clusters f /\ T r = 0 /\ forall c, 2 <= c < r -> T c <> 0).

Lemma wp_find_free_sectors f n : forall sec s (Q : Z -> fstate D -> Prop),
  ready f s -> 0 <= sec -> sec + Z.of_nat n = sectors_per_fat f ->
  (forall c, 2 <= c < sec * 128 -> T s c <> 0) ->
  (forall r s', ready f s' -> same s s' -> least_free f (T s) r -> Q r s') ->
  wp (find_free_sectors n sec) Q s.
Proof.
  induction n as [|n IH]; intros sec s Q Hr Hs Hn Hbefore HQ; cbn [find_free_sectors].
  { wp_struct. apply HQ; [done|done|]. left. split; [done|]. intros c Hc. apply Hbefore. unfold clusters in Hc. lia. }
  pose proof (rd_geometry f s Hr) as Hg. pose proof (fg_spf f Hg). pose proof (fg_res f Hg).
  pose proof (fg_cnt f Hg). pose proof (fg_data f Hg). pose proof (fg_end f Hg).
  assert (Hin : in_fat f (reserved_sectors f + sec)) by (unfold in_fat; nia).
  assert (0 <= clusters f * sectors_per_cluster f) by (pose proof (fg_spc f Hg); unfold clusters; nia).
  wp_struct. wp_struct. rewrite (rd_fs f s Hr), (fg_bps f Hg). change (512 / 4) with 128.
  wp_struct. apply wp_read_blocks. intros s1 Hs1.
  unfold u32 at 1. rewrite Z.mod_small by (unfold in_fat in Hin; lia).
  destruct (proj1 (rd_present f s Hr) _ Hin) as [b Hb]. rewrite Hb.
  pose proof (proj2 (rd_present f s Hr) _ _ Hb) as Hl.
  unfold u32. rewrite Z.mod_small by lia.
  destruct (free_in_sector_spec b (sec * 128) Hl ltac:(lia) ltac:(lia) 128 0 ltac:(lia) ltac:(lia)) as (r & Er & Hspec).
  wp_struct. eapply wp_from_option; [exact Er|].
  assert (HT : forall j, 0 <= j < 128 -> T s (sec * 128 + j) = word_of b j).
  { intros j Hj. rewrite (rd_fs f s Hr). eapply entry_word; [done|lia|done|exact Hb|done]. }
  assert (Hall : forall i, 0 <= i <= 128 -> (forall j, 0 <= j < i -> 2 <= sec * 128 + j -> word_of b j <> 0) ->
    forall c, 2 <= c < sec * 128 + i -> T s c <> 0).
  { intros i Hi Hj c Hc. destruct (Z.lt_ge_cases c (sec * 128)); [apply Hbefore; lia|].
    replace c with (sec * 128 + (c - sec * 128)) by lia. rewrite HT by lia. apply Hj; lia. }
  destruct r as [c|].
  - destruct Hspec as (i & Hi & -> & Hc & Hw & Hj). wp_struct.
    apply HQ; [by eapply ready_same|done|]. right. unfold clusters. split_and!; [lia|lia|by rewrite HT|].
    apply Hall; [lia|exact Hj].
  - pose proof (ready_same f s s1 Hr Hs1) as Hr1. destruct Hs1 as [Hf1 Hd1].
    apply IH; [done|lia|lia| |].
    + rewrite Hf1, Hd1. replace ((sec + 1) * 128) with (sec * 128 + 128) by lia. apply Hall; [lia|exact Hspec].
    + rewrite Hf1, Hd1. intros r s2 Hr2 [? ?] Hlf. apply HQ; [done|split; congruence|done].
Qed.

Lemma wp_find_free f s (Q : Z -> fstate D -> Prop) :
  ready f s -> (forall r s', ready f s' -> same s s' -> least_free f (T s) r -> Q r s') ->
  wp fat_find_free_cluster Q s.
Proof.
  intros Hr HQ. unfold fat_find_free_cluster. wp_struct. wp_struct. rewrite (rd_fs f s Hr).
  pose proof (fg_spf f (rd_geometry f s Hr)). apply (wp_find_free_sectors f); [done|lia|lia|intros; lia|done].
Qed.

(** *** Zeroing a cluster *)
Lemma wp_zero_sectors n : forall sec s (Q : unit -> fstate D -> Prop),
  0 <= sec -> sec + Z.of_nat n <= 2 ^ 32 ->
  (forall s', fs s' = fs s ->
     (forall x, disk s' !! x = if bool_decide (sec <= x < sec + Z.of_nat n) then (fun _ => zero_buf) <$> (disk s !! x)
                               else disk s !! x) -> Q tt s') ->
  wp (zero_sectors n sec) Q s.
Proof.
  induction n as [|n IH]; intros sec s Q Hs Hn HQ; cbn [zero_sectors].
  { wp_struct. apply HQ; [done|]. intros x. by rewrite bool_decide_false by lia. }
  unfold u32. rewrite Z.mod_small by lia. wp_struct.
  assert (Hw : exists r s1, write_blocks sec zero_buf s = Some (r, s1) /\ fs s1 = fs s /\
    forall x, disk s1 !! x = if bool_decide (x = sec) then (fun _ => zero_buf) <$> (disk s !! x) else disk s !! x).
  { unfold write_blocks. destruct (disk s !! sec) as [b|] eqn:Hb.
    - destruct (write_content (dev s) sec b zero_buf Hb eq_refl) as (d' & -> & Hd). eexists _, _. split_and!; [done|done|].
      intros x. unfold disk in *. cbn [dev]. rewrite Hd. case_bool_decide as E; [subst x; rewrite lookup_insert_eq; by rewrite Hb|].
      by rewrite lookup_insert_ne.
    - destruct (write_outside (dev s) sec zero_buf Hb) as (d' & -> & Hd). eexists _, _. split_and!; [done|done|].
      intros x. unfold disk in *. cbn [dev]. rewrite Hd. case_bool_decide as E; [|done]. subst x. by rewrite Hb. }
  destruct Hw as (r & s1 & Ew & Hf1 & Hd1). unfold wp at 1. rewrite Ew.
  apply IH; [lia|lia|]. intros s2 Hf2 Hd2. apply HQ; [congruence|]. intros x. rewrite Hd2, Hd1.
  repeat case_bool_decide; first [lia|done].
Qed.
(** *** Allocation *)

(** [l] has been allocated since [s0]: linked in order, zeroed, and free
    before. *)
Record allocated (f : FAT32_Instance) (l : list Z) (s0 s : fstate D) : Prop := {
  al_ready : ready f s;
  al_table : table_upd f (link_of l) (disk s0) (disk s);
  al_data : zeroed f l (disk s0) (disk s);
  al_nodup : NoDup l;
  al_free : forall c, c ∈ l -> 2 <= c < clusters f /\ T s0 c = 0
}.

Lemma link_of_nonzero f l c : (forall x, x ∈ l -> 2 <= x < clusters f) -> c ∈ l -> exists v, link_of l c = Some v /\ v <> 0.
Proof.
  induction l as [|x l IH]; [by intros _ ?%elem_of_nil|]. intros Hr Hc. cbn [link_of].
  destruct (Z.eqb_spec x c) as [->|Hne].
  - eexists. split; [done|]. destruct l as [|y l]; [done|]. cbn. pose proof (Hr y ltac:(right; left)). lia.
  - apply IH; [intros y Hy; apply Hr; by right|]. apply elem_of_cons in Hc as [->|]; done.
Qed.

Lemma allocated_entry f l s0 s c :
  ready f s0 -> allocated f l s0 s -> 0 <= c < clusters f -> T s c = default (T s0 c) (link_of l c).
Proof.
  intros [<- Hg _] [[Hf _ _] Ht _ _ _] Hc. rewrite Hf. by apply table_upd_entry.
Qed.

Lemma allocated_chain f l s0 s : ready f s0 -> allocated f l s0 s -> l <> [] -> chain f (T s) l.
Proof.
  intros Hr0 Ha Hne. apply (chain_link f (T s0)); [apply Ha|done|intros c Hc; by apply (al_free _ _ _ _ Ha)|].
  intros c Hc. by eapply allocated_entry.
Qed.

(** A cluster that is free now was free, and is not in the list. *)
Lemma allocated_fresh f l s0 s c :
  ready f s0 -> allocated f l s0 s -> 2 <= c < clusters f -> T s c = 0 -> c ∉ l /\ T s0 c = 0.
Proof.
  intros Hr0 Ha Hc Hz. rewrite (allocated_entry f l s0 s) in Hz by (done || lia).
  destruct (decide (c ∈ l)) as [Hin|Hin].
  - destruct (link_of_nonzero f l c) as (v & E & Hv); [intros; by apply (al_free _ _ _ _ Ha)|done|].
    rewrite E in Hz. done.
  - by rewrite link_of_notin in Hz.
Qed.

Lemma zeroed_nil f m : zeroed f [] m m.
Proof. intros x _. by rewrite bool_decide_false by (cbn; set_solver). Qed.

Lemma zeroed_snoc f l c m m1 m2 :
  zeroed f l m m1 ->
  (forall x, ~ in_fat f x -> m2 !! x = if bool_decide (x ∈ cluster_sectors f c) then (fun _ => zero_buf) <$> (m1 !! x) else m1 !! x) ->
  zeroed f (l ++ [c]) m m2.
Proof.
  intros H1 H2 x Hx. rewrite H2, H1 by done.
  assert (E : x ∈ (l ++ [c]) ≫= cluster_sectors f <-> x ∈ l ≫= cluster_sectors f \/ x ∈ cluster_sectors f c).
  { rewrite bind_app. cbn [mbind list_bind]. rewrite app_nil_r. apply elem_of_app. }
  destruct (decide (x ∈ cluster_sectors f c)) as [H3|H3], (decide (x ∈ l ≫= cluster_sectors f)) as [H4|H4];
    rewrite ?(bool_decide_true _ H3), ?(bool_decide_false _ H3), ?(bool_decide_true _ H4), ?(bool_decide_false _ H4);
    [rewrite bool_decide_true by tauto..|rewrite bool_decide_false by tauto; done]; try done.
  by destruct (m !! x).
Qed.

(** Giving up returns every cluster to the table. *)
Lemma wp_free_if f l s0 s (Q : unit -> fstate D -> Prop) :
  ready f s0 -> allocated f l s0 s -> (length l <= FREE_GUARD)%nat ->
  (forall s', ready f s' -> table_upd f (freed l) (disk s0) (disk s') -> zeroed f l (disk s0) (disk s') -> Q tt s') ->
  wp (free_if (default 0 (head l))) Q s.
Proof.
  intros Hr0 Ha Hlen HQ. unfold free_if. destruct l as [|c l].
  { cbn [head default Z.eqb]. wp_struct. apply HQ; [apply Ha| |apply Ha]. intros k x Hk Hx. by rewrite (al_table _ _ _ _ Ha). }
  pose proof (al_free _ _ _ _ Ha c ltac:(left)) as [Hc _]. cbn [head default from_option id].
  rewrite (proj2 (Z.eqb_neq c 0)) by lia. wp_struct.
  apply (wp_free_chain f s (c :: l)); [apply Ha|by eapply allocated_chain|done|]. intros s' Hr' Hu Ho.
  wp_struct. apply HQ; [done| |].
  - eapply table_upd_trans; [apply Ha|exact Hu|]. intros x Hx. unfold freed. case_bool_decide; [done|].
    by rewrite link_of_notin.
  - intros x Hx. rewrite Ho by done. by apply (al_data _ _ _ _ Ha).
Qed.

(** One more cluster. *)
Lemma allocated_snoc f l c s0 s s' :
  ready f s0 -> allocated f l s0 s -> 2 <= c < clusters f -> T s c = 0 ->
  ready f s' ->
  table_upd f (fun x => if x =? c then Some FAT32_EOC else if bool_decide (last l = Some x) then Some c else None) (disk s) (disk s') ->
  (forall x, ~ in_fat f x -> disk s' !! x =
     if bool_decide (x ∈ cluster_sectors f c) then (fun _ => zero_buf) <$> (disk s !! x) else disk s !! x) ->
  allocated f (l ++ [c]) s0 s'.
Proof.
  intros Hr0 Ha Hc Hz Hr' Hu Hd. destruct (allocated_fresh f l s0 s c Hr0 Ha Hc Hz) as [Hcl Hz0].
  assert (Hnd : NoDup (l ++ [c])).
  { apply NoDup_app. split_and!; [apply Ha|intros x Hx; set_solver|apply NoDup_singleton]. }
  split; [done| | |done|].
  - eapply table_upd_trans; [apply Ha|exact Hu|]. intros x Hx. cbv beta. rewrite link_of_snoc by done.
    destruct (x =? c); [done|]. by case_bool_decide.
  - eapply zeroed_snoc; [apply Ha|exact Hd].
  - intros x [Hx|Hx]%elem_of_app; [by apply (al_free _ _ _ _ Ha)|]. apply list_elem_of_singleton in Hx as ->. done.
Qed.

Lemma wp_zero_cluster f s c (Q : unit -> fstate D -> Prop) :
  ready f s -> 2 <= c < clusters f ->
  (forall s', ready f s' ->
     (forall x, disk s' !! x = if bool_decide (x ∈ cluster_sectors f c) then (fun _ => zero_buf) <$> (disk s !! x)
                               else disk s !! x) -> Q tt s') ->
  wp (zero_sectors (Z.to_nat (sectors_per_cluster f)) (cluster_to_sector f c)) Q s.
Proof.
  intros Hr Hc HQ. pose proof (rd_geometry f s Hr) as Hg. pose proof (fg_spc f Hg).
  rewrite (cluster_to_sector_at f c) by done. set (first := data_start_sector f + (c - 2) * sectors_per_cluster f).
  assert (Hx : forall x, first <= x < first + sectors_per_cluster f <-> x ∈ cluster_sectors f c).
  { intros x. rewrite in_cluster_sectors by done. split.
    - intros. exists (x - first). unfold first in *. lia.
    - intros (i & Hi & ->). unfold first. lia. }
  pose proof (fun x Hin => cluster_sector_bound f c x Hg Hc (proj1 (Hx x) Hin)) as Hb.
  apply wp_zero_sectors.
  - apply (Hb first). lia.
  - pose proof (Hb (first + (sectors_per_cluster f - 1)) ltac:(lia)). lia.
  - intros s' Hf Hd. rewrite Z2Nat.id in Hd by lia.
    assert (Hd' : forall x, disk s' !! x = if bool_decide (x ∈ cluster_sectors f c) then (fun _ => zero_buf) <$> (disk s !! x) else disk s !! x).
    { intros x. rewrite Hd. by rewrite (bool_decide_ext _ _ (Hx x)). }
    apply HQ; [|exact Hd']. split; [by rewrite Hf, (rd_fs f s Hr)|done|]. split.
    + intros x Hin. rewrite Hd', bool_decide_false; [by apply (rd_present f s Hr)|].
      intros Hm. by apply cluster_sector_out in Hm; [|done|lia].
    + intros x b. rewrite Hd'. case_bool_decide; [|by apply (rd_present f s Hr)].
      destruct (disk s !! x); [|done]. by intros [= <-].
Qed.

(** Linking one more cluster behind [l] and zeroing it: neither of the error
    paths [A] and [B] is taken. *)
Lemma wp_extend {R} f l c s0 s (A B k : F R) (Q : R -> fstate D -> Prop) :
  ready f s0 -> allocated f l s0 s -> 2 <= c < clusters f -> T s c = 0 ->
  (forall s', allocated f (l ++ [c]) s0 s' -> wp k Q s') ->
  wp (let* ok := fat_set_entry c FAT32_EOC in
      if negb ok then A
      else
        let* ok' := (if default 0 (last l) =? 0 then ret true else fat_set_entry (default 0 (last l)) c) in
        if negb ok' then B
        else let* g := gets fs in zero_sectors (Z.to_nat (sectors_per_cluster g)) (cluster_to_sector g c) ;;; k) Q s.
Proof.
  intros Hr0 Ha Hc Hz HQ. pose proof (rd_geometry f s0 Hr0) as Hg. pose proof (clusters_bound f Hg) as Hcb.
  unfold FAT32_EOC in Hcb. destruct (allocated_fresh f l s0 s c Hr0 Ha Hc Hz) as [Hcl _].
  wp_struct. eapply wp_set_entry; [apply Ha|lia|done|]. intros s1 Hr1 Hu1 Ho1. cbn [negb].
  set (g x := if x =? c then Some FAT32_EOC else if bool_decide (last l = Some x) then Some c else None).
  assert (Hzero : forall s2, ready f s2 -> table_upd f g (disk s) (disk s2) ->
    (forall x, ~ in_fat f x -> disk s2 !! x = disk s !! x) ->
    wp (let* g := gets fs in zero_sectors (Z.to_nat (sectors_per_cluster g)) (cluster_to_sector g c) ;;; k) Q s2).
  { intros s2 Hr2 Hu2 Ho2. wp_struct. wp_struct. rewrite (rd_fs f s2 Hr2). wp_struct.
    apply wp_zero_cluster; [done..|]. intros s3 Hr3 Hd3. apply HQ. eapply (allocated_snoc f l c s0 s); try done.
    - eapply table_upd_ext; [exact Hu2|done| |done]. intros x Hin.
      rewrite Hd3, bool_decide_false; [done|]. intros Hm. by apply cluster_sector_out in Hm; [|done|lia].
    - intros x Hx. by rewrite Hd3, Ho2. }
  destruct (last l) as [p|] eqn:Hl; cbn [default from_option id].
  - assert (Hp : p ∈ l) by (by apply last_Some_elem_of). destruct (al_free _ _ _ _ Ha p Hp) as [Hpr _].
    rewrite (proj2 (Z.eqb_neq p 0)) by lia. wp_struct. eapply wp_set_entry; [exact Hr1|lia|lia|].
    intros s2 Hr2 Hu2 Ho2. cbn [negb]. apply Hzero; [done| |intros x Hx; by rewrite Ho2, Ho1].
    eapply table_upd_trans; [exact Hu1|exact Hu2|]. intros x Hx. unfold g.
    destruct (Z.eqb_spec x p) as [->|Hne].
    + rewrite (proj2 (Z.eqb_neq p c)) by (intros ->; done). by rewrite bool_decide_true.
    + rewrite (bool_decide_false (Some p = Some x)) by congruence. by destruct (x =? c).
  - rewrite Z.eqb_refl. wp_struct. wp_struct. cbn [negb]. apply Hzero; [done| |done]. exact Hu1.
Qed.

(** No list of distinct free clusters is as long as [n]. *)
Definition fewer_free (f : FAT32_Instance) (T : Z -> Z) (n : nat) : Prop :=
  forall l, NoDup l -> (forall c, c ∈ l -> 2 <= c < clusters f /\ T c = 0) -> (length l < n)%nat.

Lemma wp_alloc_loop f s0 n : forall l s (Q : Z -> fstate D -> Prop),
  ready f s0 -> allocated f l s0 s -> (length l + n <= FREE_GUARD)%nat ->
  (forall l' s', allocated f l' s0 s' -> length l' = (length l + n)%nat -> Q (default 0 (head l')) s') ->
  (forall l' s', ready f s' -> table_upd f (freed l') (disk s0) (disk s') -> zeroed f l' (disk s0) (disk s') ->
     (forall c, c ∈ l' -> 2 <= c < clusters f /\ T s0 c = 0) -> fewer_free f (T s0) (length l + n) -> Q 0 s') ->
  wp (alloc_loop n (default 0 (head l)) (default 0 (last l))) Q s.
Proof.
  induction n as [|n IH]; intros l s Q Hr0 Ha Hlen Hok Hfull; cbn [alloc_loop].
  { wp_struct. apply Hok; [done|]. lia. }
  wp_struct. eapply wp_find_free; [apply Ha|]. intros c s1 Hr1 [Hf1 Hd1] Hlf.
  assert (Ha1 : allocated f l s0 s1) by (destruct Ha; split; rewrite ?Hd1; done).
  destruct Hlf as [[-> Hnone]|(Hc & Hz & _)].
  - rewrite Z.eqb_refl. wp_struct. wp_struct. cbn [negb]. wp_struct. apply (wp_free_if f l s0 s1); [done|exact Ha1|lia|].
    intros s2 Hr2 Hu Hzd. wp_struct. eapply Hfull; [done|exact Hu|exact Hzd|apply Ha|].
    intros l' Hnd Hfree. assert (Hsub : l' ⊆+ l).
    { apply NoDup_submseteq; [done|]. intros c Hc. destruct (Hfree c Hc) as [Hcr Hcz].
      destruct (decide (c ∈ l)) as [|Hin]; [done|]. destruct (Hnone c Hcr).
      rewrite (allocated_entry f l s0 s c) by (done || lia). by rewrite link_of_notin. }
    apply submseteq_length in Hsub. lia.
  - rewrite (proj2 (Z.eqb_neq c 0)) by lia.
    apply (wp_extend f l c s0 s1); [done|done|done|by rewrite Hf1, Hd1|]. intros s2 Ha2.
    assert (Eh : (if default 0 (head l) =? 0 then c else default 0 (head l)) = default 0 (head (l ++ [c]))).
    { destruct l as [|x l]; [done|]. pose proof (al_free _ _ _ _ Ha x ltac:(left)) as [Hx _]. cbn.
      by rewrite (proj2 (Z.eqb_neq x 0)) by lia. }
    rewrite Eh. replace c with (default 0 (last (l ++ [c]))) at 2 by (by rewrite last_snoc).
    apply IH; [done|done|rewrite length_app; cbn; lia| |].
    + intros l' s' Ha' Hl'. apply Hok; [done|]. rewrite length_app in Hl'. cbn in Hl'. lia.
    + intros l' s' Hr' Hu' Hz' Hfr Hfew. eapply Hfull; [done|done|done|done|].
      rewrite length_app in Hfew. cbn [length] in Hfew. by rewrite <- Nat.add_assoc in Hfew.
Qed.

(** The outcome of an allocation: a chain of free clusters, linked in order and
    zeroed, or, when too few are free, an unchanged table. *)
Lemma wp_alloc_chain f s n (Q : Z -> fstate D -> Prop) :
  ready f s -> 0 < n <= 65536 ->
  (forall l s', allocated f l s s' -> Z.of_nat (length l) = n -> Q (default 0 (head l)) s') ->
  (forall l s', ready f s' -> table_upd f (freed l) (disk s) (disk s') -> zeroed f l (disk s) (disk s') ->
     (forall c, c ∈ l -> 2 <= c < clusters f /\ T s c = 0) -> fewer_free f (T s) (Z.to_nat n) -> Q 0 s') ->
  wp (fat_alloc_chain n) Q s.
Proof.
  intros Hr Hn Hok Hfull. unfold fat_alloc_chain. apply (wp_alloc_loop f s (Z.to_nat n) [] s Q).
  - done.
  - split; [done|by intros k x _ _|apply zeroed_nil|constructor|by intros c ?%elem_of_nil].
  - cbn [length]. unfold FREE_GUARD. lia.
  - intros l' s' Ha Hl. apply Hok; [done|]. rewrite Hl. cbn [length]. lia.
  - exact Hfull.
Qed.
End Alloc.
