(* ===== verification/FatData.v ===== *)
(** * The data of a chain

    The bytes of a list of sectors, what [write_chain_data] stores and what
    [read_chain_data] answers: a chain of clusters behaves as one sequence of
    bytes. *)
From Stdlib Require Import ZArith Lia.
From stdpp Require Import base list option gmap.
From S2P Require Import Prelude Bytes Fat32 FatTable FatChain.
#[local] Open Scope Z_scope.

Definition chain_sectors (f : FAT32_Instance) (l : list Z) : list Z := l ≫= cluster_sectors f.
Definition bytes_of (m : gmap Z (list Z)) (xs : list Z) : list Z := xs ≫= fun x => default [] (m !! x).
Definition chain_bytes (f : FAT32_Instance) (m : gmap Z (list Z)) (l : list Z) : list Z := bytes_of m (chain_sectors f l).

(** Every sector of the list is on the device. *)
Definition backed (m : gmap Z (list Z)) (xs : list Z) : Prop :=
  forall x, x ∈ xs -> exists b, m !! x = Some b /\ length b = 512%nat.

Definition pad (bs : list Z) : list Z := bs ++ replicate (512 - length bs) 0.

(** The sectors [xs] filled with [data], the last one padded with zeroes. *)
Fixpoint fill (xs data : list Z) (m : gmap Z (list Z)) : gmap Z (list Z) :=
  match xs with
  | [] => m
  | x :: xs' => match data with [] => m | _ => fill xs' (drop 512 data) (<[x := pad (take 512 data)]> m) end
  end.

Lemma fill_nil xs m : fill xs [] m = m.
Proof. by destruct xs. Qed.

Lemma fill_notin xs data m x : x ∉ xs -> fill xs data m !! x = m !! x.
Proof.
  revert data m. induction xs as [|y xs IH]; [done|]. intros data m [Hy Hxs]%not_elem_of_cons. cbn [fill].
  destruct data; [done|]. rewrite IH by done. by apply lookup_insert_ne.
Qed.

Lemma pad_length bs : (length bs <= 512)%nat -> length (pad bs) = 512%nat.
Proof. intros H. unfold pad. rewrite length_app, length_replicate. lia. Qed.

Lemma fill_512 xs data m : (forall x b, m !! x = Some b -> length b = 512%nat) ->
  forall x b, fill xs data m !! x = Some b -> length b = 512%nat.
Proof.
  revert data m. induction xs as [|y xs IH]; [done|]. intros data m Hm. cbn [fill].
  destruct data as [|d data]; [done|]. generalize (d :: data). intros dd. apply IH. intros x b.
  destruct (decide (x = y)) as [->|]; [rewrite lookup_insert_eq|by rewrite lookup_insert_ne; [apply Hm|]].
  intros [= <-]. apply pad_length. rewrite length_take. lia.
Qed.

Lemma fill_some xs data m x : is_Some (m !! x) -> is_Some (fill xs data m !! x).
Proof.
  revert data m. induction xs as [|y xs IH]; [done|]. intros data m Hm. cbn [fill].
  destruct data; [done|]. apply IH. destruct (decide (x = y)) as [->|]; [rewrite lookup_insert_eq; by eexists|].
  by rewrite lookup_insert_ne.
Qed.

Lemma bytes_of_ext m m' xs : (forall x, x ∈ xs -> m' !! x = m !! x) -> bytes_of m' xs = bytes_of m xs.
Proof.
  induction xs as [|x xs IH]; [done|]. intros H. unfold bytes_of in *. cbn [mbind list_bind].
  rewrite (H x) by left. f_equal. apply IH. intros y Hy. apply H. by right.
Qed.

(** What was filled in is what the sectors hold. *)
Lemma bytes_of_fill xs : forall data m, NoDup xs -> (length data <= 512 * length xs)%nat ->
  take (length data) (bytes_of (fill xs data m) xs) = data.
Proof.
  induction xs as [|x xs IH]; intros data m Hnd Hl.
  { destruct data; [done|cbn in Hl; lia]. }
  apply NoDup_cons in Hnd as [Hx Hnd]. destruct data as [|d data]; [done|].
  assert (Hdd : fill (x :: xs) (d :: data) m = fill xs (drop 512 (d :: data)) (<[x := pad (take 512 (d :: data))]> m)) by done.
  revert Hl Hdd. generalize (d :: data). intros dd Hl Hdd.
  rewrite Hdd. unfold bytes_of. cbn [mbind list_bind]. rewrite fill_notin, lookup_insert_eq by done.
  cbn [default from_option id]. change (xs ≫= _) with (bytes_of (fill xs (drop 512 dd) (<[x := pad (take 512 dd)]> m)) xs).
  assert (Hp : length (pad (take 512 dd)) = 512%nat) by (apply pad_length; rewrite length_take; lia).
  destruct (decide (length dd <= 512)%nat) as [Hs|Hs].
  - rewrite take_app_le by lia. unfold pad. rewrite (firstn_all2 (n := 512) dd) by lia.
    rewrite take_app_le by lia. by apply firstn_all2.
  - replace (length dd) with (512 + length (drop 512 dd))%nat by (rewrite length_drop; lia).
    rewrite take_app_ge by lia. rewrite Hp, Nat.add_sub_swap, Nat.sub_diag, Nat.add_0_l by lia.
    rewrite IH; [|done|rewrite length_drop; cbn [length] in *; lia].
    unfold pad. rewrite length_take, Nat.min_l by lia. cbn [Nat.sub replicate]. rewrite app_nil_r. apply take_drop.
Qed.

Lemma bytes_of_length m xs : backed m xs -> length (bytes_of m xs) = (512 * length xs)%nat.
Proof.
  induction xs as [|x xs IH]; [done|]. intros H. unfold bytes_of in *. cbn [mbind list_bind length].
  destruct (H x ltac:(left)) as (b & -> & Hb). rewrite length_app, IH; [cbn; lia|]. intros y Hy. apply H. by right.
Qed.

Lemma backed_drop m xs i : backed m xs -> backed m (drop i xs).
Proof. intros H x Hx. apply H. rewrite <- (take_drop i xs). apply elem_of_app. by right. Qed.

Lemma bytes_of_drop m xs i : backed m xs -> bytes_of m (drop i xs) = drop (512 * i) (bytes_of m xs).
Proof.
  revert xs. induction i as [|i IH]; intros xs H; [by rewrite Nat.mul_0_r|]. destruct xs as [|x xs]; [by rewrite drop_nil|].
  cbn [drop]. rewrite IH by (intros y Hy; apply H; by right). unfold bytes_of at 2. cbn [mbind list_bind].
  destruct (H x ltac:(left)) as (b & -> & Hb). cbn [default from_option id].
  rewrite drop_app_ge by lia. f_equal. lia.
Qed.

(** ** The sectors of a cluster, by index *)
Lemma cluster_sectors_length f c : fat_geometry f -> Z.of_nat (length (cluster_sectors f c)) = sectors_per_cluster f.
Proof. intros Hg. pose proof (fg_spc f Hg). unfold cluster_sectors. rewrite length_fmap, length_seqZ. lia. Qed.

Lemma cluster_sectors_drop f c (i : nat) : fat_geometry f -> 2 <= c < clusters f -> Z.of_nat i < sectors_per_cluster f ->
  drop i (cluster_sectors f c) = u32 (cluster_to_sector f c + Z.of_nat i) :: drop (S i) (cluster_sectors f c).
Proof.
  intros Hg Hc Hi. assert (E : cluster_sectors f c !! i = Some (data_start_sector f + (c - 2) * sectors_per_cluster f + Z.of_nat i)).
  { unfold cluster_sectors. rewrite list_lookup_fmap, lookup_seqZ_lt by lia. done. }
  rewrite (drop_S _ _ _ E). f_equal. rewrite cluster_to_sector_at by done. symmetry. apply Z.mod_small.
  eapply cluster_sector_bound; [done|exact Hc|]. by apply list_elem_of_lookup_2 in E.
Qed.

Lemma chain_sectors_cons f c l : chain_sectors f (c :: l) = cluster_sectors f c ++ chain_sectors f l.
Proof. done. Qed.

Lemma chain_sectors_out f T l x : fat_geometry f -> chain f T l -> x ∈ chain_sectors f l -> ~ in_fat f x.
Proof.
  intros Hg Hch (c & Hx & Hc)%list_elem_of_bind. pose proof (chain_in f T l c Hch Hc). apply (cluster_sector_out f c); [done|lia|done].
Qed.

Lemma cluster_sectors_disjoint f c c' x : fat_geometry f -> x ∈ cluster_sectors f c -> x ∈ cluster_sectors f c' -> c = c'.
Proof.
  intros Hg (i & Hi & ->)%in_cluster_sectors (j & Hj & E)%in_cluster_sectors; [|done..]. nia.
Qed.

Lemma chain_sectors_NoDup f l : fat_geometry f -> NoDup l -> NoDup (chain_sectors f l).
Proof.
  intros Hg. induction 1 as [|c l Hc Hl IH]; [constructor|]. rewrite chain_sectors_cons. apply NoDup_app. split_and!; [| |done].
  - unfold cluster_sectors. apply NoDup_fmap_2; [|apply NoDup_seqZ]. intros i j E. lia.
  - intros x Hx (c' & Hx' & Hc')%list_elem_of_bind. by rewrite (cluster_sectors_disjoint f c c' x Hg Hx Hx') in Hc.
Qed.

Lemma chain_sectors_length f l : fat_geometry f ->
  length (chain_sectors f l) = (Z.to_nat (sectors_per_cluster f) * length l)%nat.
Proof.
  intros Hg. induction l as [|x l IH]; [cbn; lia|]. rewrite chain_sectors_cons, length_app, IH.
  pose proof (cluster_sectors_length f x Hg). cbn [length]. lia.
Qed.

Lemma chain_sectors_drop f k l : fat_geometry f ->
  drop (Z.to_nat (sectors_per_cluster f) * k) (chain_sectors f l) = chain_sectors f (drop k l).
Proof.
  intros Hg. revert l. induction k as [|k IH]; intros [|x l]; rewrite ?Nat.mul_0_r; try done; [apply drop_nil|].
  rewrite chain_sectors_cons, drop_app_ge; pose proof (cluster_sectors_length f x Hg); [|lia].
  cbn [drop]. rewrite <- IH. f_equal. lia.
Qed.

Section Data.
Context {D : Type} `{RD : ReliableDevice D}.
Implicit Types s : fstate D.
Notation T s := (fat_entry (fs s) (disk s)).

(** The sectors left from sector [i] of the first cluster on. *)
Definition rest (f : FAT32_Instance) (c : Z) (l : list Z) (i : nat) : list Z :=
  drop i (cluster_sectors f c) ++ chain_sectors f l.

Lemma rest_cons f c l i : fat_geometry f -> 2 <= c < clusters f -> Z.of_nat i < sectors_per_cluster f ->
  rest f c l i = u32 (cluster_to_sector f c + Z.of_nat i) :: rest f c l (S i).
Proof. intros. unfold rest. by rewrite cluster_sectors_drop. Qed.

Lemma rest_end f c l i : fat_geometry f -> Z.of_nat i = sectors_per_cluster f -> rest f c l i = chain_sectors f l.
Proof.
  intros Hg Hi. unfold rest. rewrite drop_ge; [done|]. pose proof (cluster_sectors_length f c Hg). lia.
Qed.

Lemma rest_0 f c l : rest f c l 0 = chain_sectors f (c :: l).
Proof. done. Qed.

(** What is left to read after the rest of sector [b], or within it. *)
Lemma read_past (b ys : list Z) (n r : Z) : length b = 512%nat -> 0 <= r < 512 -> 512 - r <= n ->
  take (Z.to_nat n) (drop (Z.to_nat r) (b ++ ys)) =
  take (Z.to_nat (512 - r)) (drop (Z.to_nat r) b) ++ take (Z.to_nat (n - (512 - r))) ys.
Proof.
  intros Hb Hr Hn. rewrite drop_app_le by lia. rewrite take_app_ge by (rewrite length_drop; lia).
  rewrite (firstn_all2 (n := Z.to_nat (512 - r))) by (rewrite length_drop; lia).
  do 2 f_equal. rewrite length_drop. lia.
Qed.

Lemma read_within (b ys : list Z) (n r : Z) : length b = 512%nat -> 0 <= r < 512 -> n <= 512 - r ->
  take (Z.to_nat n) (drop (Z.to_nat r) (b ++ ys)) = take (Z.to_nat n) (drop (Z.to_nat r) b).
Proof. intros Hb Hr Hn. rewrite drop_app_le by lia. apply take_app_le. rewrite length_drop. lia. Qed.

Lemma bytes_of_cons m x b xs : m !! x = Some b -> bytes_of m (x :: xs) = b ++ bytes_of m xs.
Proof. intros H. unfold bytes_of. cbn [mbind list_bind]. by rewrite H. Qed.

Lemma read_loop_end n max off (staging : list Z) s (Q : list Z -> fstate D -> Prop) :
  Q staging s -> wp (read_loop (S n) max 0 off staging) Q s.
Proof. intros HQ. cbn [read_loop]. rewrite andb_false_r. by wp_struct. Qed.

Lemma wp_read_loop f n : forall s max c l (i : nat) (r : Z) staging (Q : list Z -> fstate D -> Prop),
  ready f s -> chain f (T s) (c :: l) -> Z.of_nat i < sectors_per_cluster f -> 0 <= r < 512 ->
  backed (disk s) (rest f c l i) -> Z.of_nat (length staging) <= max < Z.of_nat n + Z.of_nat (length staging) ->
  (forall s', ready f s' -> same s s' ->
     Q (staging ++ take (Z.to_nat (max - Z.of_nat (length staging))) (drop (Z.to_nat r) (bytes_of (disk s) (rest f c l i)))) s') ->
  wp (read_loop n max c (512 * Z.of_nat i + r) staging) Q s.
Proof.
  induction n as [|n IH]; intros s max c l i r staging Q Hr Hch Hi Hr0 Hb Hn HQ; [lia|]. cbn [read_loop].
  pose proof (rd_geometry f s Hr) as Hg. pose proof (chain_in f _ _ c Hch ltac:(left)) as Hc.
  rewrite (proj2 (Z.leb_le 2 c)) by lia. rewrite andb_true_r.
  destruct (Z.ltb_spec (Z.of_nat (length staging)) max) as [Hlt|Hge]; cycle 1.
  { wp_struct. replace (max - Z.of_nat (length staging)) with 0 in HQ by lia. rewrite take_0, app_nil_r in HQ. by apply HQ. }
  wp_struct. wp_struct. rewrite (rd_fs f s Hr), (fg_bps f Hg).
  replace ((512 * Z.of_nat i + r) / 512) with (Z.of_nat i) by (Z.div_mod_to_equations; lia).
  replace ((512 * Z.of_nat i + r) mod 512) with r by (Z.div_mod_to_equations; lia).
  pose proof (rest_cons f c l i Hg Hc Hi) as Ex. set (x := u32 _) in *.
  destruct (Hb x) as (b & Hx & Hl); [rewrite Ex; by left|].
  assert (Hb' : backed (disk s) (rest f c l (S i))) by (intros y Hy; apply Hb; rewrite Ex; by right).
  rewrite Ex, (bytes_of_cons _ _ _ _ Hx) in HQ. set (ys := bytes_of (disk s) (rest f c l (S i))) in *.
  wp_struct. apply wp_read_blocks. intros s1 Hs1. rewrite Hx.
  set (need := max - Z.of_nat (length staging)) in *. set (t := if need <? 512 - r then need else 512 - r).
  assert (Ht : 0 < t <= 512 - r /\ t <= need) by (unfold t; destruct (Z.ltb_spec need (512 - r)); lia).
  wp_struct. eapply wp_from_option; [apply slice_Some; lia|]. set (bs := take _ _).
  assert (Hlen : Z.of_nat (length (staging ++ bs)) = Z.of_nat (length staging) + t)
    by (unfold bs; rewrite length_app, length_take, length_drop; lia).
  pose proof (ready_same f s s1 Hr Hs1) as Hr1. pose proof Hs1 as [Hf1 Hd1].
  assert (Hsame : forall s2 s3, same s1 s2 -> same s2 s3 -> same s s3) by (intros s2 s3 [? ?] [? ?]; split; congruence).
  rewrite (rd_fs f s Hr) in *.
  destruct (decide (t = 512 - r)) as [Et|Et]; cycle 1.
  { (* within the sector: done after it *)
    assert (Et' : t = need) by (unfold t in *; destruct (Z.ltb_spec need (512 - r)); lia).
    rewrite (proj2 (Z.leb_gt (512 * sectors_per_cluster f) _)) by lia.
    replace (512 * Z.of_nat i + r + t) with (512 * Z.of_nat i + (r + t)) by lia.
    apply (IH s1 max c l i (r + t) (staging ++ bs)); try done; [by rewrite Hf1, Hd1|lia|by rewrite Hd1|lia|].
    intros s3 Hr3 Hs3. rewrite Hlen. replace (max - (Z.of_nat (length staging) + t)) with 0 by lia.
    rewrite take_0, app_nil_r. rewrite read_within in HQ by (done || lia). unfold bs. rewrite Et'.
    apply HQ; [done|by eapply Hsame; [reflexivity|]]. }
  rewrite read_past, <- Et, app_assoc in HQ by (done || lia). fold bs in HQ.
  assert (Eneed : need - t = max - Z.of_nat (length (staging ++ bs))) by lia. rewrite Eneed in HQ.
  destruct (Z.leb_spec (512 * sectors_per_cluster f) (512 * Z.of_nat i + r + t)) as [Hend|Hmid]; cycle 1.
  { (* the next sector of the cluster *)
    replace (512 * Z.of_nat i + r + t) with (512 * Z.of_nat (S i) + 0) by lia.
    apply (IH s1 max c l (S i) 0 (staging ++ bs)); try done; [by rewrite Hf1, Hd1|lia|by rewrite Hd1|lia|].
    intros s3 Hr3 Hs3. rewrite Hd1, drop_0. apply HQ; [done|by eapply Hsame; [reflexivity|]]. }
  (* the next cluster *)
  assert (Ei : Z.of_nat (S i) = sectors_per_cluster f) by lia. unfold ys in HQ. rewrite (rest_end f c l (S i) Hg Ei) in *.
  wp_struct. eapply wp_get_entry; [exact Hr1|]. intros s2 Hr2 Hs2. rewrite Hf1, Hd1.
  destruct l as [|c' l].
  - destruct Hch as [_ ->]. destruct n as [|n]; [lia|]. apply read_loop_end.
    cbn in HQ. rewrite take_nil, app_nil_r in HQ. apply HQ; [done|by eapply Hsame; [reflexivity|]].
  - rewrite (chain_has_next f _ c c' l Hg Hch). destruct Hch as (_ & -> & Hch). pose proof Hs2 as [Hf2 Hd2].
    pose proof (fg_spc f Hg). replace 0 with (512 * Z.of_nat 0 + 0) by lia.
    apply (IH s2 max c' l 0%nat 0 (staging ++ bs)); try done;
      [by rewrite Hf2, Hd2, Hf1, Hd1|lia|by rewrite Hd2, Hd1, rest_0|lia|].
    intros s3 Hr3 Hs3. rewrite Hd2, Hd1, rest_0, drop_0. apply HQ; [done|by eapply Hsame].
Qed.

Lemma wp_skip_clusters f k : forall s c l (Q : option Z -> fstate D -> Prop),
  ready f s -> chain f (T s) (c :: l) ->
  (forall s', ready f s' -> same s s' -> Q (head (drop k (c :: l))) s') -> wp (skip_clusters k c) Q s.
Proof.
  induction k as [|k IH]; intros s c l Q Hr Hch HQ; cbn [skip_clusters].
  { wp_struct. by apply HQ. }
  pose proof (rd_geometry f s Hr) as Hg. pose proof (chain_in f _ _ c Hch ltac:(left)).
  rewrite (proj2 (Z.ltb_ge c 2)) by lia. wp_struct. eapply wp_get_entry; [exact Hr|]. intros s1 Hr1 Hs1.
  rewrite (rd_fs f s Hr) in *. destruct l as [|c' l].
  - destruct Hch as [_ ->]. cbn [negb]. wp_struct. specialize (HQ s1 Hr1 Hs1). cbn [drop] in HQ. by rewrite drop_nil in HQ.
  - rewrite (chain_has_next f _ c c' l Hg Hch). cbn [negb]. destruct Hch as (_ & -> & Hch).
    pose proof Hs1 as [Hf1 Hd1]. apply (IH s1 c' l); [done|by rewrite Hf1, Hd1, (rd_fs f s Hr)|].
    intros s2 Hr2 [Hf2 Hd2]. apply HQ; [done|]. split; congruence.
Qed.

(** Reading from a chain is reading from the sequence of its bytes. *)
Lemma wp_read_chain_data f s l offset max (Q : list Z -> fstate D -> Prop) :
  ready f s -> chain f (T s) l -> backed (disk s) (chain_sectors f l) -> 0 <= offset -> 0 <= max ->
  (forall s', ready f s' -> same s s' ->
     Q (take (Z.to_nat (Z.min max FAT32_MAX_IO_CHUNK)) (drop (Z.to_nat offset) (chain_bytes f (disk s) l))) s') ->
  wp (read_chain_data (default 0 (head l)) offset max) Q s.
Proof.
  intros Hr Hch Hb Ho Hm HQ. destruct l as [|c l]; [done|]. cbn [head default from_option id].
  pose proof (rd_geometry f s Hr) as Hg. pose proof (fg_spc f Hg). pose proof (rd_fs f s Hr) as Hf.
  pose proof (chain_in f _ _ c Hch ltac:(left)) as Hc. unfold read_chain_data.
  wp_struct. wp_struct. rewrite Hf, (fg_bps f Hg). set (bpc := 512 * sectors_per_cluster f) in *.
  rewrite (proj2 (Z.eqb_neq bpc 0)), (proj2 (Z.ltb_ge c 2)) by lia. cbn [orb].
  wp_struct. apply wp_fat_chain_has_cycle; [by rewrite Hf, (fg_bps f Hg)|]. intros b s1 Hs1 Hcyc.
  destruct b; [exfalso; eapply (chain_ends f); [exact Hch|by apply Hcyc]|].
  pose proof (ready_same f s s1 Hr Hs1) as Hr1. pose proof Hs1 as [Hf1 Hd1].
  set (mx := if FAT32_MAX_IO_CHUNK <? max then FAT32_MAX_IO_CHUNK else max).
  assert (Hmx : mx = Z.min max FAT32_MAX_IO_CHUNK) by (unfold mx; destruct (Z.ltb_spec FAT32_MAX_IO_CHUNK max); lia).
  rewrite <- Hmx in HQ. assert (Hmx0 : 0 <= mx) by (unfold FAT32_MAX_IO_CHUNK in *; lia). clearbody mx.
  set (k := Z.to_nat (offset / bpc)). set (off := offset mod bpc).
  assert (Hoff : offset = bpc * Z.of_nat k + off /\ 0 <= off < bpc).
  { unfold k, off. rewrite Z2Nat.id by (apply Z.div_pos; lia). split; [apply Z.div_mod; lia|apply Z.mod_pos_bound; lia]. }
  clearbody k off. destruct Hoff as [-> Hoff].
  wp_struct. apply (wp_skip_clusters f k s1 c l); [done|by rewrite Hf1, Hd1|]. intros s2 Hr2 [Hf2 Hd2].
  assert (Hs2 : same s s2) by (split; congruence).
  destruct (drop k (c :: l)) as [|c' l'] eqn:Ek; cbn [head].
  - wp_struct. rewrite drop_ge, take_nil in HQ; [by apply HQ|]. unfold chain_bytes. rewrite bytes_of_length by done.
    rewrite chain_sectors_length by done. apply (f_equal length) in Ek. rewrite length_drop in Ek. cbn [length] in *. nia.
  - assert (Hch' : chain f (T s) (c' :: l')).
    { rewrite <- Ek. eapply (chain_suffix f _ (take k (c :: l))); [by rewrite take_drop|by rewrite Ek]. }
    set (i := Z.to_nat (off / 512)). assert (Hi : off = 512 * Z.of_nat i + off mod 512).
    { unfold i. rewrite Z2Nat.id by (apply Z.div_pos; lia). apply Z.div_mod. lia. }
    pose proof (Z.mod_pos_bound off 512 ltac:(lia)) as Hr0. rewrite Hi.
    assert (Erest : rest f c' l' i = drop (Z.to_nat (sectors_per_cluster f) * k + i) (chain_sectors f (c :: l))).
    { rewrite <- drop_drop, chain_sectors_drop, Ek, chain_sectors_cons by done. symmetry. apply drop_app_le.
      pose proof (cluster_sectors_length f c' Hg). lia. }
    assert (Hbk : backed (disk s) (rest f c' l' i)) by (rewrite Erest; by apply backed_drop).
    apply (wp_read_loop f _ s2 mx c' l' i); [done|by rewrite Hf2, Hf1, Hd2, Hd1|lia|lia|by rewrite Hd2, Hd1|cbn [length]; lia|].
    intros s3 Hr3 [Hf3 Hd3]. cbn [length app]. rewrite Z.sub_0_r, Hd2, Hd1, Erest, bytes_of_drop by done.
    rewrite drop_drop. specialize (HQ s3 Hr3 ltac:(split; congruence)). unfold chain_bytes in HQ.
    replace (512 * (Z.to_nat (sectors_per_cluster f) * k + i) + Z.to_nat (off mod 512))%nat with (Z.to_nat (bpc * Z.of_nat k + off)); [exact HQ|].
    unfold bpc. lia.
Qed.

(** *** Writing *)
Lemma ready_write f s s' x b :
  ready f s -> ~ in_fat f x -> is_Some (disk s !! x) -> length b = 512%nat ->
  fs s' = fs s -> disk s' = <[x := b]> (disk s) -> ready f s'.
Proof.
  intros [H1 H2 H3] Hx Hs Hb Hf Hd. split; [congruence|done|]. rewrite Hd. by apply fat_present_insert.
Qed.

Lemma fat_entry_write f m x b c : fat_geometry f -> ~ in_fat f x -> 0 <= c < clusters f ->
  fat_entry f (<[x := b]> m) c = fat_entry f m c.
Proof.
  intros Hg Hx Hc. pose proof (fg_cnt f Hg). rewrite !fat_entry_copy, !copy_entry_at by (done || lia).
  rewrite lookup_insert_ne; [done|]. intros ->. apply Hx, entry_sector_in; (done || lia).
Qed.

Lemma chain_write f m x b l : fat_geometry f -> ~ in_fat f x ->
  chain f (fat_entry f m) l -> chain f (fat_entry f (<[x := b]> m)) l.
Proof.
  intros Hg Hx Hch. eapply chain_ext; [|exact Hch]. intros c Hc. apply fat_entry_write; [done|done|].
  pose proof (chain_in f _ l c Hch Hc). lia.
Qed.

Lemma write_loop_end n c i p s (Q : bool -> fstate D -> Prop) : Q true s -> wp (write_loop (S n) c i p 0) Q s.
Proof. intros HQ. cbn [write_loop]. rewrite Z.eqb_refl. by wp_struct. Qed.

(** The sector that is written: the next 512 bytes, padded. *)
Lemma wp_sector_source (p : list Z) (rem : Z) s (Q : list Z -> fstate D -> Prop) :
  0 < rem <= Z.of_nat (length p) -> Q (pad (take 512 (take (Z.to_nat rem) p))) s ->
  wp (if (if 512 <? rem then 512 else rem) <? 512 then
        assert (512 <=? 512) ;;;
        let* bs := from_option_M (slice p 0 (if 512 <? rem then 512 else rem)) in
        ret (bs ++ replicate (Z.to_nat (512 - (if 512 <? rem then 512 else rem))) 0)
      else from_option_M (slice p 0 512)) Q s.
Proof.
  intros Hr HQ. unfold pad in HQ. rewrite length_take, length_take in HQ.
  destruct (Z.ltb_spec 512 rem) as [H|H].
  - rewrite (proj2 (Z.ltb_ge 512 512)) by lia. eapply wp_from_option; [apply slice_Some; lia|].
    rewrite take_take, !Nat.min_l in HQ by lia. cbn [replicate Nat.sub] in HQ. rewrite app_nil_r in HQ. exact HQ.
  - rewrite (firstn_all2 (n := 512)) in HQ by (rewrite length_take; lia). rewrite Nat.min_r in HQ by lia.
    rewrite Nat.min_l in HQ by lia. destruct (Z.ltb_spec rem 512).
    + wp_struct. wp_struct. wp_struct. eapply wp_from_option; [apply slice_Some; lia|]. wp_struct.
      replace (Z.to_nat (512 - rem)) with (512 - Z.to_nat rem)%nat by lia. exact HQ.
    + assert (rem = 512) as -> by lia. eapply wp_from_option; [apply slice_Some; lia|].
      cbn [Z.to_nat] in HQ. rewrite Nat.sub_diag in HQ. cbn [replicate] in HQ. rewrite app_nil_r in HQ. exact HQ.
Qed.

Lemma rest_out f t c l i x : fat_geometry f -> chain f t (c :: l) -> x ∈ rest f c l i -> ~ in_fat f x.
Proof.
  intros Hg Hch [Hin|Hin]%elem_of_app.
  - pose proof (chain_in f t _ c Hch ltac:(left)). apply (cluster_sector_out f c); [done|lia|].
    rewrite <- (take_drop i). apply elem_of_app. by right.
  - destruct l as [|c' l]; [set_solver|].
    apply (chain_sectors_out f t (c' :: l)); [done|exact (proj2 (proj2 Hch))|exact Hin].
Qed.

(** One round of the loop is one step of [fill]. *)
Lemma fill_step x xs (p : list Z) (rem chunk : Z) m :
  0 < rem <= Z.of_nat (length p) -> (chunk = 512 /\ 512 < rem) \/ (chunk = rem /\ rem <= 512) ->
  fill (x :: xs) (take (Z.to_nat rem) p) m =
  fill xs (take (Z.to_nat (rem - chunk)) (drop (Z.to_nat chunk) p)) (<[x := pad (take 512 (take (Z.to_nat rem) p))]> m).
Proof.
  intros Hr Hc. assert (E : take (Z.to_nat (rem - chunk)) (drop (Z.to_nat chunk) p) = drop 512 (take (Z.to_nat rem) p)).
  { rewrite skipn_firstn_comm. destruct Hc as [[-> H]|[-> H]].
    - f_equal. lia.
    - rewrite Z.sub_diag. by replace (Z.to_nat rem - 512)%nat with 0%nat by lia. }
  rewrite E. destruct (take (Z.to_nat rem) p) eqn:Hd; [|done].
  apply (f_equal length) in Hd. rewrite length_take in Hd. cbn in Hd. lia.
Qed.

Lemma backed_insert m xs x b : backed m xs -> length b = 512%nat -> backed (<[x := b]> m) xs.
Proof.
  intros H Hb y Hy. destruct (decide (y = x)) as [->|]; [rewrite lookup_insert_eq; by eexists|].
  rewrite lookup_insert_ne by done. by apply H.
Qed.

Lemma wp_write_loop f n : forall s c l (i : nat) p rem (Q : bool -> fstate D -> Prop),
  ready f s -> chain f (T s) (c :: l) -> Z.of_nat i < sectors_per_cluster f -> backed (disk s) (rest f c l i) ->
  0 <= rem <= Z.of_nat (length p) -> rem < Z.of_nat n -> rem <= 512 * Z.of_nat (length (rest f c l i)) ->
  (forall s', ready f s' -> disk s' = fill (rest f c l i) (take (Z.to_nat rem) p) (disk s) -> Q true s') ->
  wp (write_loop n c (Z.of_nat i) p rem) Q s.
Proof.
  induction n as [|n IH]; intros s c l i p rem Q Hr Hch Hi Hb Hrem Hn Hcap HQ; [lia|].
  pose proof (rd_geometry f s Hr) as Hg. pose proof (chain_in f _ _ c Hch ltac:(left)) as Hc. rewrite (rd_fs f s Hr) in Hch.
  destruct (decide (rem = 0)) as [->|Hne].
  { apply write_loop_end, HQ; [done|]. by rewrite take_0, fill_nil. }
  cbn [write_loop]. rewrite (proj2 (Z.eqb_neq rem 0)), (proj2 (Z.ltb_ge c 2)) by lia.
  wp_struct. wp_struct. rewrite (rd_fs f s Hr), (fg_bps f Hg).
  pose proof (rest_cons f c l i Hg Hc Hi) as Ex. rewrite Ex in Hb, Hcap, HQ. set (x := u32 _) in *.
  destruct (Hb x ltac:(left)) as (b & Hx & _).
  assert (Hxout : ~ in_fat f x) by (eapply (rest_out f _ c l i); [done|exact Hch|rewrite Ex; left]).
  set (chunk := if 512 <? rem then 512 else rem). set (dat := take (Z.to_nat rem) p) in *.
  assert (Hchunk : 0 < chunk <= 512 /\ chunk <= rem /\ (chunk = 512 \/ chunk = rem))
    by (unfold chunk; destruct (Z.ltb_spec 512 rem); lia).
  wp_struct. apply wp_sector_source; [lia|]. fold dat.
  assert (Hpad : length (pad (take 512 dat)) = 512%nat) by (apply pad_length; rewrite length_take; lia).
  wp_struct. eapply wp_write_blocks; [exact Hx|exact Hpad|]. intros s1 Hf1 Hd1. cbn [negb].
  assert (Hr1 : ready f s1) by (eapply ready_write; [exact Hr|exact Hxout|by eexists|exact Hpad|done|done]).
  assert (Hfill : fill (x :: rest f c l (S i)) dat (disk s) =
    fill (rest f c l (S i)) (take (Z.to_nat (rem - chunk)) (drop (Z.to_nat chunk) p)) (disk s1))
    by (rewrite Hd1; apply fill_step; [lia|unfold chunk; destruct (Z.ltb_spec 512 rem); lia]).
  rewrite Hfill in HQ. set (p' := drop (Z.to_nat chunk) p) in *.
  assert (Hp' : Z.of_nat (length p') = Z.of_nat (length p) - chunk) by (unfold p'; rewrite length_drop; lia).
  assert (Hch1 : forall ls, chain f (fat_entry f (disk s)) ls -> chain f (T s1) ls).
  { intros ls Hls. rewrite (rd_fs f s1 Hr1), Hd1. by apply chain_write. }
  assert (Hb1 : backed (disk s1) (rest f c l (S i))) by (rewrite Hd1; apply backed_insert; [intros y Hy; apply Hb; by right|done]).
  cbn [length] in Hcap.
  destruct (Z.leb_spec (sectors_per_cluster f) (Z.of_nat i + 1)) as [Hend|Hmid]; cycle 1.
  { replace (Z.of_nat i + 1) with (Z.of_nat (S i)) by lia.
    apply (IH s1 c l (S i)); [done|by apply Hch1|lia|done|lia|lia|lia|exact HQ]. }
  rewrite (rest_end f c l (S i) Hg) in * by lia. destruct (Z.ltb_spec 0 (rem - chunk)) as [Hmore|Hdone]; cycle 1.
  { replace (rem - chunk) with 0 in * by lia. destruct n as [|n]; [lia|]. apply write_loop_end, HQ; [done|].
    by rewrite take_0, fill_nil. }
  destruct l as [|c' l]; [cbn in Hcap; lia|].
  wp_struct. eapply wp_get_entry; [exact Hr1|]. intros s2 Hr2 [Hf2 Hd2].
  pose proof (Hch1 _ Hch) as Hch2. rewrite (rd_fs f s1 Hr1) in *.
  rewrite (chain_has_next f _ c c' l Hg Hch2). cbn [negb]. destruct Hch2 as (_ & -> & Hch2).
  pose proof (fg_spc f Hg). apply (IH s2 c' l 0%nat); [done|by rewrite Hf2, Hd2, ?(rd_fs f s1 Hr1)|lia|by rewrite Hd2, rest_0|lia|lia|rewrite rest_0; lia|].
  intros s3 Hr3 Hd3. apply HQ; [done|]. by rewrite Hd3, Hd2, rest_0.
Qed.

(** Writing to a chain that is large enough fills its sectors in order. *)
Lemma wp_write_chain_data f s l data len (Q : bool -> fstate D -> Prop) :
  ready f s -> chain f (T s) l -> backed (disk s) (chain_sectors f l) ->
  0 <= len <= Z.of_nat (length data) -> len <= 512 * Z.of_nat (length (chain_sectors f l)) ->
  (forall s', ready f s' -> disk s' = fill (chain_sectors f l) (take (Z.to_nat len) data) (disk s) -> Q true s') ->
  wp (write_chain_data (default 0 (head l)) data len) Q s.
Proof.
  intros Hr Hch Hb Hlen Hcap HQ. destruct l as [|c l]; [done|]. unfold write_chain_data.
  pose proof (fg_spc f (rd_geometry f s Hr)).
  apply (wp_write_loop f _ s c l 0%nat); try done; [lia|lia].
Qed.
End Data.
