(* ===== verification/FatDir.v ===== *)
(** * Searching directories

    [dir_scan] as a function of the bytes of the directory, and how its answer
    changes when one entry does: the entry found keeps its place, and a name
    written into the free slot that the search met is found there. *)
From Stdlib Require Import ZArith Lia.
From stdpp Require Import base list option gmap.
From S2P Require Import Prelude Bytes Fat32 FatTable FatChain FatData.
#[local] Open Scope Z_scope.

(** ** The search as a function *)
Section Scan.
Variables (target formatted : list Z).

(** The entries of a sector, with their offsets. *)
Definition entry_of (b : list Z) (k : nat) : list Z := take 32 (drop (32 * k) b).

Fixpoint scan_from (n k : nat) (x : Z) (b : list Z) (st : scan_state) : scan_state :=
  match n with
  | O => st
  | S n' =>
      let st' := scan_entry target formatted x (32 * Z.of_nat k) (entry_of b k) st in
      if sc_done st' then st' else scan_from n' (S k) x b st'
  end.

Fixpoint scan_sectors (m : gmap Z (list Z)) (xs : list Z) (st : scan_state) : scan_state :=
  match xs with
  | [] => st
  | x :: xs' => if sc_done st then st else scan_sectors m xs' (scan_from 16 0 x (default [] (m !! x)) st)
  end.

Fixpoint scan_clusters (f : FAT32_Instance) (m : gmap Z (list Z)) (l : list Z) (st : scan_state) : scan_state :=
  match l with
  | [] => st
  | c :: l' =>
      let st := scan_sectors m (cluster_sectors f c) (mk_scan (sc_lfn st) (slot_last c (sc_out st)) (sc_done st)) in
      if sc_done st then st else scan_clusters f m l' st
  end.

Lemma scan_entries_from n : forall k x b st, length b = 512%nat -> (k + n = 16)%nat ->
  scan_entries target formatted n x (32 * Z.of_nat k) b st = Some (scan_from n k x b st).
Proof.
  induction n as [|n IH]; intros k x b st Hb Hk; [done|]. cbn [scan_entries scan_from].
  rewrite slice_Some by lia. replace (Z.to_nat (32 * Z.of_nat k)) with (32 * k)%nat by lia.
  change (take (Z.to_nat 32) (drop (32 * k) b)) with (entry_of b k).
  destruct (sc_done _); [done|]. replace (32 * Z.of_nat k + 32) with (32 * Z.of_nat (S k)) by lia. apply IH; [done|lia].
Qed.
End Scan.

Section Search.
Context {D : Type} `{RD : ReliableDevice D}.
Implicit Types s : fstate D.
Notation T s := (fat_entry (fs s) (disk s)).

Lemma wp_scan_cluster f tg fm c n : forall (i : nat) s st (Q : option scan_state -> fstate D -> Prop),
  ready f s -> 2 <= c < clusters f -> Z.of_nat i + Z.of_nat n = sectors_per_cluster f ->
  backed (disk s) (drop i (cluster_sectors f c)) ->
  (forall s', ready f s' -> same s s' ->
     Q (Some (scan_sectors tg fm (disk s) (drop i (cluster_sectors f c)) st)) s') ->
  wp (scan_cluster tg fm n (Z.of_nat i) c st) Q s.
Proof.
  induction n as [|n IH]; intros i s st Q Hr Hc Hi Hb HQ; cbn [scan_cluster]; pose proof (rd_geometry f s Hr) as Hg.
  { wp_struct. rewrite drop_ge in HQ by (pose proof (cluster_sectors_length f c Hg); lia). by apply HQ. }
  pose proof (cluster_sectors_drop f c i Hg Hc ltac:(lia)) as Ex. rewrite Ex in Hb, HQ. set (x := u32 _) in *.
  cbn [scan_sectors] in HQ. destruct (sc_done st) eqn:Hd; [wp_struct; by apply HQ|].
  wp_struct. wp_struct. rewrite (rd_fs f s Hr). fold x. wp_struct. apply wp_read_blocks. intros s1 Hs1.
  destruct (Hb x ltac:(left)) as (b & Hx & Hl). rewrite Hx in *. cbn [default from_option id] in HQ.
  wp_struct. eapply wp_from_option; [apply (scan_entries_from tg fm 16 0 x b st Hl eq_refl)|].
  replace (Z.of_nat i + 1) with (Z.of_nat (S i)) by lia. pose proof Hs1 as [Hf1 Hd1].
  apply IH; [by eapply ready_same|done|lia| |].
  - rewrite Hd1. intros y Hy. apply Hb. by right.
  - intros s2 Hr2 [Hf2 Hd2]. rewrite Hd1. apply HQ; [done|]. split; congruence.
Qed.

Lemma wp_scan_chain f tg fm guard : forall c l s st (Q : option scan_state -> fstate D -> Prop),
  ready f s -> chain f (T s) (c :: l) -> (length (c :: l) <= guard)%nat -> backed (disk s) (chain_sectors f (c :: l)) ->
  (forall s', ready f s' -> same s s' -> Q (Some (scan_clusters tg fm f (disk s) (c :: l) st)) s') ->
  wp (scan_chain guard tg fm c st) Q s.
Proof.
  induction guard as [|guard IH]; intros c l s st Q Hr Hch Hgd Hb HQ; [cbn in Hgd; lia|]. cbn [scan_chain].
  pose proof (rd_geometry f s Hr) as Hg. pose proof (fg_spc f Hg). pose proof (chain_in f _ _ c Hch ltac:(left)) as Hc.
  rewrite (proj2 (Z.ltb_ge c 2)) by lia. wp_struct. wp_struct. rewrite (rd_fs f s Hr) in *. wp_struct.
  rewrite chain_sectors_cons in Hb.
  apply (wp_scan_cluster f tg fm c _ 0%nat s); [done|done|lia|intros x Hx; apply Hb, elem_of_app; by left|].
  rewrite drop_0. intros s1 Hr1 [Hf1 Hd1]. cbn [scan_clusters] in HQ. set (st1 := scan_sectors _ _ _ _ _) in *.
  destruct (sc_done st1) eqn:Hdn; [wp_struct; apply HQ; [done|]; split; [by rewrite Hf1, (rd_fs f s Hr)|done]|].
  wp_struct. eapply wp_get_entry; [exact Hr1|]. intros s2 Hr2 [Hf2 Hd2].
  assert (Hs2 : same s s2) by (split; congruence). rewrite Hf1, Hd1, (rd_fs f s Hr). destruct l as [|c' l].
  - destruct Hch as [_ ->]. cbn [negb]. wp_struct. by apply HQ.
  - rewrite (chain_has_next f _ c c' l Hg Hch). cbn [negb]. destruct Hch as (_ & -> & Hch).
    apply (IH c' l); [done|by rewrite Hf2, Hd2, Hf1, Hd1, (rd_fs f s Hr)|cbn in *; lia|rewrite Hd2, Hd1; intros x Hx; apply Hb, elem_of_app; by right|].
    intros s3 Hr3 Hs3. rewrite Hd2, Hd1. apply HQ; [done|]. by transitivity s2.
Qed.

(** A directory: its clusters form a chain, are in use and on the device. *)
Record directory (f : FAT32_Instance) s (l : list Z) : Prop := {
  dr_chain : chain f (T s) l;
  dr_short : (length l <= 4096)%nat;
  dr_used : forall c, c ∈ l -> T s c <> 0;
  dr_backed : backed (disk s) (chain_sectors f l)
}.

Definition search (f : FAT32_Instance) (m : gmap Z (list Z)) (l : list Z) (name : list Z) : scan_state :=
  scan_clusters name (format_fat32_name name) f m l (mk_scan lfn_clear no_slot false).

(** [dir_scan] answers the search of the directory's bytes and changes nothing. *)
Lemma wp_dir_scan f s l name (Q : option DirSlot -> fstate D -> Prop) :
  ready f s -> directory f s l ->
  (forall s', ready f s' -> same s s' -> Q (Some (sc_out (search f (disk s) l name))) s') ->
  wp (dir_scan (default 0 (head l)) name) Q s.
Proof.
  intros Hr [Hch Hlen _ Hb] HQ. destruct l as [|c l]; [done|]. cbn [head default from_option id].
  pose proof (rd_geometry f s Hr) as Hg. pose proof (chain_in f _ _ c Hch ltac:(left)) as Hc. unfold dir_scan.
  wp_struct. wp_struct. rewrite (proj2 (Z.ltb_ge c 2)) by lia. cbv zeta. rewrite (proj2 (Z.ltb_ge c 2)) by lia.
  wp_struct. apply wp_fat_chain_has_cycle; [by rewrite (rd_fs f s Hr), (fg_bps f Hg)|]. intros b s1 Hs1 Hcyc.
  destruct b; [exfalso; eapply (chain_ends f); [exact Hch|by apply Hcyc]|]. pose proof Hs1 as [Hf1 Hd1].
  wp_struct. apply (wp_scan_chain f name _ DIR_GUARD c l s1); [by eapply ready_same|by rewrite Hf1, Hd1| |by rewrite Hd1|].
  - unfold DIR_GUARD. lia.
  - intros s2 Hr2 [Hf2 Hd2]. wp_struct. cbn [fmap option_fmap option_map]. rewrite Hd1. apply HQ; [done|]. split; congruence.
Qed.
End Search.

(** ** Changing one entry *)
Section Change.
Variables (tg fm : list Z) (x : Z) (k : nat) (e e' : list Z).

(** A sector before and after the change. *)
Record changed (b b' : list Z) : Prop := {
  ch_old : entry_of b k = e;
  ch_new : entry_of b' k = e';
  ch_rest : forall j, j <> k -> entry_of b' j = entry_of b j
}.

(** Sector [x] has changed in the directory, the other sectors have not. *)
Definition changed_in (m m' : gmap Z (list Z)) (xs : list Z) : Prop :=
  forall y, y ∈ xs -> if decide (y = x) then changed (default [] (m !! y)) (default [] (m' !! y)) else m' !! y = m !! y.

Definition here (o : DirSlot) : Prop := ds_sector o = x /\ ds_offset o = 32 * Z.of_nat k.

(** *** The entry keeps its name *)
Hypothesis Hhead : take 12 e' = take 12 e.
Hypothesis Hshort : byte e 11 <> 0x0F.

(** The two searches agree, unless both end at the changed entry. *)
Definition alike (r r' : scan_state) : Prop :=
  (r' = r /\ ~ (ds_found (sc_out r) = true /\ here (sc_out r))) \/
  (exists lf o, r = mk_scan lf (slot_found x (32 * Z.of_nat k) e o) true /\
                r' = mk_scan lf (slot_found x (32 * Z.of_nat k) e' o) true).

Lemma byte_take (l l' : list Z) (n i : nat) : take n l = take n l' -> (i < n)%nat -> byte l i = byte l' i.
Proof.
  intros H Hi. unfold byte. rewrite <- (lookup_take_lt l n i Hi), <- (lookup_take_lt l' n i Hi). by rewrite H.
Qed.

Lemma scan_entry_alike st : ~ (ds_found (sc_out st) = true /\ here (sc_out st)) ->
  alike (scan_entry tg fm x (32 * Z.of_nat k) e st) (scan_entry tg fm x (32 * Z.of_nat k) e' st).
Proof.
  intros Hst. unfold scan_entry, entry_matches.
  rewrite (byte_take e' e 12 0 Hhead), (byte_take e' e 12 11 Hhead) by lia.
  assert (E : take 11 e' = take 11 e).
  { apply (f_equal (take 11)) in Hhead. by rewrite !take_take in Hhead. }
  rewrite E. destruct (_ || _).
  { left. split; [by destruct (byte e 0 =? 0)|]. intros [H1 H2]. apply Hst. unfold slot_free in *.
    destruct (byte e 0 =? 0); cbn in H1, H2; destruct (ds_has_free (sc_out st)); done. }
  rewrite (proj2 (Z.eqb_neq (byte e 11) 15)) by done. destruct (negb _); [by left|].
  destruct (if lfn_present (sc_lfn st) then _ else _); [|by left]. right. by eexists _, _.
Qed.

(** An entry elsewhere is not this one. *)
Lemma scan_entry_elsewhere y j e0 st :
  y <> x \/ j <> k -> ~ (ds_found (sc_out st) = true /\ here (sc_out st)) ->
  ~ (ds_found (sc_out (scan_entry tg fm y (32 * Z.of_nat j) e0 st)) = true /\
     here (sc_out (scan_entry tg fm y (32 * Z.of_nat j) e0 st))).
Proof.
  intros Hne Hst. unfold scan_entry, slot_free. repeat case_match; cbn; try exact Hst;
    intros [_ [Hs Ho]]; cbn in Hs, Ho; (destruct Hne; [done|lia]).
Qed.

Lemma scan_from_alike n : forall j b b' st, changed b b' -> ~ (ds_found (sc_out st) = true /\ here (sc_out st)) ->
  alike (scan_from tg fm n j x b st) (scan_from tg fm n j x b' st).
Proof.
  induction n as [|n IH]; intros j b b' st Hc Hst; cbn [scan_from]; [by left|].
  destruct (decide (j = k)) as [->|Hj].
  - rewrite (ch_old _ _ Hc), (ch_new _ _ Hc).
    destruct (scan_entry_alike st Hst) as [[-> H]|(lf & o & -> & ->)]; [|right; by eexists _, _].
    destruct (sc_done _); [by left|]. by apply IH.
  - rewrite (ch_rest _ _ Hc j Hj). pose proof (scan_entry_elsewhere x j (entry_of b j) st (or_intror Hj) Hst) as H.
    destruct (sc_done _); [by left|]. by apply IH.
Qed.

Lemma scan_from_elsewhere n y : y <> x -> forall j b st, ~ (ds_found (sc_out st) = true /\ here (sc_out st)) ->
  ~ (ds_found (sc_out (scan_from tg fm n j y b st)) = true /\ here (sc_out (scan_from tg fm n j y b st))).
Proof.
  intros Hy. induction n as [|n IH]; intros j b st Hst; cbn [scan_from]; [done|].
  pose proof (scan_entry_elsewhere y j (entry_of b j) st (or_introl Hy) Hst).
  destruct (sc_done _); [done|]. by apply IH.
Qed.

Lemma scan_sectors_alike m m' xs : forall st, changed_in m m' xs -> ~ (ds_found (sc_out st) = true /\ here (sc_out st)) ->
  alike (scan_sectors tg fm m xs st) (scan_sectors tg fm m' xs st).
Proof.
  induction xs as [|y xs IH]; intros st Hc Hst; cbn [scan_sectors]; [by left|]. destruct (sc_done st); [by left|].
  assert (Hxs : changed_in m m' xs) by (intros z Hz; apply Hc; by right).
  specialize (Hc y ltac:(left)). destruct (decide (y = x)) as [->|Hy].
  - destruct (scan_from_alike 16 0 _ _ st Hc Hst) as [[-> H]|(lf & o & -> & ->)]; [by apply IH|].
    right. exists lf, o. by destruct xs.
  - rewrite Hc. apply IH; [done|]. by apply scan_from_elsewhere.
Qed.

Lemma scan_clusters_alike f m m' l : forall st, changed_in m m' (chain_sectors f l) -> ~ (ds_found (sc_out st) = true /\ here (sc_out st)) ->
  alike (scan_clusters tg fm f m l st) (scan_clusters tg fm f m' l st).
Proof.
  induction l as [|c l IH]; intros st Hc Hst; cbn [scan_clusters]; [by left|].
  rewrite chain_sectors_cons in Hc.
  assert (Hc1 : changed_in m m' (cluster_sectors f c)) by (intros y Hy; apply Hc, elem_of_app; by left).
  assert (Hc2 : changed_in m m' (chain_sectors f l)) by (intros y Hy; apply Hc, elem_of_app; by right).
  destruct (scan_sectors_alike m m' _ (mk_scan (sc_lfn st) (slot_last c (sc_out st)) (sc_done st)) Hc1 Hst)
    as [[-> H]|(lf & o & -> & ->)]; [|right; by eexists _, _].
  set (st1 := scan_sectors _ _ _ _ _) in *. destruct (sc_done st1); [by left|]. by apply IH.
Qed.
End Change.

(** The entry found keeps its place when its cluster and size change. *)
Lemma search_found f m m' l name x k e e' :
  take 12 e' = take 12 e -> byte e 11 <> 0x0F -> changed_in x k e e' m m' (chain_sectors f l) ->
  ds_found (sc_out (search f m l name)) = true -> here x k (sc_out (search f m l name)) ->
  let o := sc_out (search f m' l name) in
  ds_found o = true /\ here x k o /\ ds_clus o = entry_clus e' /\ ds_size o = entry_size e'.
Proof.
  intros Hh Hs Hc Hf Hx. unfold search in *.
  assert (Hst : ~ (ds_found (sc_out (mk_scan lfn_clear no_slot false)) = true /\ here x k (sc_out (mk_scan lfn_clear no_slot false))))
    by (by intros [? _]).
  destruct (scan_clusters_alike name (format_fat32_name name) x k e e' Hh Hs f m m' l _ Hc Hst)
    as [[-> H]|(lf & o & E & ->)]; [by destruct H|done].
Qed.

(** ** Names *)

(** A name as a path component: not empty, no terminator, no slash, and not the
    mark of a deleted entry in front. *)
Definition plain_name (name : list Z) : Prop :=
  name <> [] /\ (length name <= 63)%nat /\ Forall (fun c => 0 < c < 256 /\ c <> 47) name /\ head name <> Some 0xE5.

Lemma my_strcmp_refl l : my_strcmp l l = 0.
Proof. induction l as [|c l IH]; [done|]. cbn [my_strcmp]. by rewrite Z.eqb_refl. Qed.

Lemma cstr_nonzero l : Forall (fun c => c <> 0) l -> cstr l = l.
Proof. induction 1 as [|c l Hc _ IH]; [done|]. cbn [cstr]. by rewrite (proj2 (Z.eqb_neq c 0)), IH. Qed.

Lemma upper_nonzero c : 0 < c -> upper c <> 0.
Proof. unfold upper. destruct (_ && _) eqn:E; [bool_hyps|]; lia. Qed.

Lemma fmt_copy_ok stop input : forall j hi out,
  Forall (fun c => 0 < c < 256 /\ c <> 47) input -> Forall (fun c => c <> 0) out ->
  Forall (fun c => c <> 0) (fst (fmt_copy stop input j hi out)) /\
  length (fst (fmt_copy stop input j hi out)) = length out /\
  Forall (fun c => 0 < c < 256 /\ c <> 47) (snd (fmt_copy stop input j hi out)).
Proof.
  induction input as [|c input IH]; intros j hi out Hi Ho; cbn [fmt_copy]; [done|].
  destruct (_ || _); [done|]. apply Forall_cons in Hi as [Hc Hi].
  destruct (IH (S j) hi (<[j := upper c]> out) Hi) as (H1 & H2 & H3); [|by rewrite length_insert in H2].
  apply Forall_insert; [done|]. apply upper_nonzero. lia.
Qed.

Lemma skip_to_dot_ok (P : Z -> Prop) input : Forall P input -> Forall P (skip_to_dot input).
Proof. induction 1 as [|c input Hc Hi IH]; [done|]. cbn [skip_to_dot]. destruct (c =? 46); [by constructor|done]. Qed.

Lemma format_ok name : Forall (fun c => 0 < c < 256 /\ c <> 47) name ->
  Forall (fun c => c <> 0) (format_fat32_name name) /\ length (format_fat32_name name) = 11%nat.
Proof.
  intros Hn. assert (Hb : Forall (fun c => c <> 0) (replicate 11 32)) by (by apply Forall_replicate).
  unfold format_fat32_name. destruct (str_eq name str_dot); [split; [by apply Forall_insert|done]|].
  destruct (str_eq name str_dotdot); [split; [by repeat apply Forall_insert|done]|].
  pose proof (fmt_copy_ok true name 0 8 (replicate 11 32) Hn Hb) as (H1 & H2 & H3).
  destruct (fmt_copy true name 0 8 (replicate 11 32)) as [out rest]. cbn [fst snd] in *.
  apply (skip_to_dot_ok _) in H3. destruct (skip_to_dot rest) as [|c rest']; [done|].
  apply Forall_cons in H3 as [_ H3]. destruct (fmt_copy_ok false rest' 8 11 out H3 H1) as (H4 & H5 & _). split; [done|by rewrite H5, H2].
Qed.

(** The first byte of a short name is never the mark of a deleted entry. *)
Lemma fmt_copy_later stop input : forall j hi out, (0 < j)%nat -> fst (fmt_copy stop input j hi out) !! 0%nat = out !! 0%nat.
Proof.
  induction input as [|c input IH]; intros j hi out Hj; cbn [fmt_copy]; [done|].
  destruct (_ || _); [done|]. rewrite IH by lia. by rewrite list_lookup_insert_ne by lia.
Qed.

Lemma format_first name : plain_name name -> byte (format_fat32_name name) 0 <> 0xE5.
Proof.
  intros (Hne & _ & Hn & He). unfold format_fat32_name.
  destruct (str_eq name str_dot); [done|]. destruct (str_eq name str_dotdot); [done|].
  assert (H0 : byte (fst (fmt_copy true name 0 8 (replicate 11 32))) 0 <> 0xE5).
  { destruct name as [|c name]; [done|]. cbn [fmt_copy]. destruct (c =? 46); [done|]. cbn [andb orb negb Nat.ltb Nat.leb].
    unfold byte. rewrite fmt_copy_later by lia. cbn. apply Forall_cons in Hn as [Hc _]. unfold upper.
    destruct (_ && _) eqn:E; [bool_hyps; lia|]. intros ->. by apply He. }
  destruct (fmt_copy true name 0 8 (replicate 11 32)) as [out rest]. cbn [fst] in H0.
  destruct (skip_to_dot rest) as [|c rest']; [done|]. unfold byte in *. by rewrite fmt_copy_later by lia.
Qed.

(** ** A new entry in the free slot *)
Section Fresh.
Variables (tg fm : list Z) (x : Z) (k : nat) (e e' : list Z).

(** [e'] is an entry with the short name [fm]; long names are not in play. *)
Record fresh : Prop := {
  fr_name : take 11 e' = fm;
  fr_fm : Forall (fun c => c <> 0) fm;
  fr_first : byte e' 0 <> 0 /\ byte e' 0 <> 0xE5;
  fr_attr : byte e' 11 <> 0x0F /\ Z.land (byte e' 11) 0x08 = 0
}.
Hypothesis Hfresh : fresh.

Definition no_long (m : gmap Z (list Z)) (xs : list Z) : Prop :=
  forall y j, y ∈ xs -> (j < 16)%nat -> byte (entry_of (default [] (m !! y)) j) 11 <> 0x0F.

(** Until the free slot is met the searches agree; from then on the second one
    has found the new entry. *)
Definition filled (r r' : scan_state) : Prop :=
  if ds_has_free (sc_out r) then
    ds_free_sector (sc_out r) = x /\ ds_free_offset (sc_out r) = 32 * Z.of_nat k ->
    exists lf o, r' = mk_scan lf (slot_found x (32 * Z.of_nat k) e' o) true
  else r' = r /\ sc_lfn r = lfn_clear.

Definition searching (st : scan_state) : Prop := ds_has_free (sc_out st) = false /\ sc_lfn st = lfn_clear.

Lemma scan_entry_fresh st : searching st ->
  scan_entry tg fm x (32 * Z.of_nat k) e' st = mk_scan (sc_lfn st) (slot_found x (32 * Z.of_nat k) e' (sc_out st)) true.
Proof.
  intros [_ Hl]. destruct Hfresh as [Hn Hf [H0 H5] [Ha Hv]]. unfold scan_entry, entry_matches.
  rewrite (proj2 (Z.eqb_neq _ _) H0), (proj2 (Z.eqb_neq _ _) H5), (proj2 (Z.eqb_neq _ _) Ha), Hv, Hl. cbn [orb negb Z.eqb].
  change (lfn_present lfn_clear) with false. cbv iota. rewrite Hn, cstr_nonzero, my_strcmp_refl by done. done.
Qed.

(** What one entry does to a search without a free slot. *)
Lemma scan_entry_searching y j e0 st : byte e0 11 <> 0x0F -> searching st ->
  let r := scan_entry tg fm y j e0 st in
  if ds_has_free (sc_out r) then ds_free_sector (sc_out r) = y /\ ds_free_offset (sc_out r) = j /\ ds_found (sc_out r) = ds_found (sc_out st)
  else sc_lfn r = lfn_clear.
Proof.
  intros Hl [Hf Hlf]. unfold scan_entry, slot_free. rewrite Hf, Hlf.
  destruct (_ || _); [by destruct (byte e0 0 =? 0)|]. rewrite (proj2 (Z.eqb_neq _ _) Hl).
  destruct (negb _); cbn [sc_out]; [by rewrite Hf|]. change (lfn_present lfn_clear) with false.
  destruct (entry_matches _ _ _ _); cbn; by rewrite Hf.
Qed.

(** Once a free slot is known it stays. *)
Lemma scan_entry_keeps y j e0 st : ds_has_free (sc_out st) = true ->
  let o := sc_out (scan_entry tg fm y j e0 st) in
  ds_has_free o = true /\ ds_free_sector o = ds_free_sector (sc_out st) /\ ds_free_offset o = ds_free_offset (sc_out st).
Proof. intros H. unfold scan_entry, slot_free. rewrite H. repeat case_match; cbn; by rewrite H. Qed.

Definition keeps (st r : scan_state) : Prop :=
  ds_has_free (sc_out st) = true -> ds_has_free (sc_out r) = true /\
  ds_free_sector (sc_out r) = ds_free_sector (sc_out st) /\ ds_free_offset (sc_out r) = ds_free_offset (sc_out st).

Lemma scan_from_keeps n : forall j y b st, keeps st (scan_from tg fm n j y b st).
Proof.
  induction n as [|n IH]; intros j y b st H; cbn [scan_from]; [done|].
  destruct (scan_entry_keeps y (32 * Z.of_nat j) (entry_of b j) st H) as (H1 & H2 & H3).
  set (st1 := scan_entry _ _ _ _ _ _) in *. destruct (sc_done st1); [done|].
  destruct (IH (S j) y b st1 H1) as (-> & -> & ->). done.
Qed.

Lemma scan_sectors_keeps m xs : forall st, keeps st (scan_sectors tg fm m xs st).
Proof.
  induction xs as [|y xs IH]; intros st H; cbn [scan_sectors]; [done|]. destruct (sc_done st); [done|].
  destruct (scan_from_keeps 16 0 y (default [] (m !! y)) st H) as (H1 & H2 & H3).
  destruct (IH _ H1) as (-> & -> & ->). done.
Qed.

Lemma scan_clusters_keeps f m l : forall st, keeps st (scan_clusters tg fm f m l st).
Proof.
  induction l as [|c l IH]; intros st H; cbn [scan_clusters]; [done|].
  destruct (scan_sectors_keeps m (cluster_sectors f c) (mk_scan (sc_lfn st) (slot_last c (sc_out st)) (sc_done st)) H) as (H1 & H2 & H3).
  set (st1 := scan_sectors _ _ _ _ _) in *. destruct (sc_done st1); [done|]. destruct (IH st1 H1) as (-> & -> & ->). done.
Qed.

(** A search that goes on keeps the relation. *)
Lemma filled_then r1 r1' (K K' : scan_state -> scan_state) :
  filled r1 r1' -> (forall st, keeps st (K st)) -> (forall st, sc_done st = true -> K' st = st) ->
  (searching r1 -> filled (K r1) (K' r1)) -> filled (K r1) (K' r1').
Proof.
  intros H1 Hk Hd Hs. unfold filled in H1. destruct (ds_has_free (sc_out r1)) eqn:Hf.
  - destruct (Hk r1 Hf) as (E1 & E2 & E3). unfold filled. rewrite E1, E2, E3. intros Hl.
    destruct (H1 Hl) as (lf & o & ->). exists lf, o. by apply Hd.
  - destruct H1 as [-> Hl]. by apply Hs.
Qed.

Hypothesis Hfree : byte e 0 = 0 \/ byte e 0 = 0xE5.

Lemma scan_entry_filled y j e0 st : byte e0 11 <> 0x0F -> searching st -> y <> x \/ j <> k ->
  filled (scan_entry tg fm y (32 * Z.of_nat j) e0 st) (scan_entry tg fm y (32 * Z.of_nat j) e0 st).
Proof.
  intros Hl Hs Hne. pose proof (scan_entry_searching y (32 * Z.of_nat j) e0 st Hl Hs) as H. cbv zeta in H. unfold filled.
  destruct (ds_has_free _); [|done]. destruct H as (-> & -> & _). intros [H1 H2]. destruct Hne; [done|lia].
Qed.

Lemma scan_new_filled st : searching st ->
  filled (scan_entry tg fm x (32 * Z.of_nat k) e st) (scan_entry tg fm x (32 * Z.of_nat k) e' st).
Proof.
  intros Hs. rewrite scan_entry_fresh by done. destruct Hs as [Hf Hl]. unfold filled.
  set (r := scan_entry _ _ _ _ _ _). destruct (ds_has_free (sc_out r)) eqn:E; [intros _; by eexists _, _|]. exfalso. unfold r, scan_entry, slot_free in E. rewrite Hf in E.
  destruct Hfree as [-> | ->] in E; done.
Qed.

Lemma scan_from_filled n : forall j b b' st, changed k e e' b b' -> (j + n <= 16)%nat ->
  (forall i, (i < 16)%nat -> byte (entry_of b i) 11 <> 0x0F) -> searching st ->
  filled (scan_from tg fm n j x b st) (scan_from tg fm n j x b' st).
Proof.
  induction n as [|n IH]; intros j b b' st Hc Hj Hl Hs; cbn [scan_from].
  { unfold filled. by destruct Hs as [-> Hs]. }
  set (K b st1 := if sc_done st1 then st1 else scan_from tg fm n (S j) x b st1).
  change (filled (K b (scan_entry tg fm x (32 * Z.of_nat j) (entry_of b j) st)) (K b' (scan_entry tg fm x (32 * Z.of_nat j) (entry_of b' j) st))).
  apply filled_then.
  - destruct (decide (j = k)) as [->|Hjk].
    + rewrite (ch_old _ _ _ _ _ Hc), (ch_new _ _ _ _ _ Hc). by apply scan_new_filled.
    + rewrite (ch_rest _ _ _ _ _ Hc j Hjk). apply scan_entry_filled; [apply Hl; lia|done|by right].
  - intros st1 H. unfold K. destruct (sc_done st1); [done|]. by apply scan_from_keeps.
  - intros st1 H. unfold K. by rewrite H.
  - intros Hs1. unfold K. destruct (sc_done _); [unfold filled; by destruct Hs1 as [-> Hs1]|]. apply IH; [done|lia|done|done].
Qed.

Lemma scan_from_filled_elsewhere n y b : y <> x -> forall j st, (j + n <= 16)%nat ->
  (forall i, (i < 16)%nat -> byte (entry_of b i) 11 <> 0x0F) -> searching st ->
  filled (scan_from tg fm n j y b st) (scan_from tg fm n j y b st).
Proof.
  intros Hy. induction n as [|n IH]; intros j st Hj Hl Hs; cbn [scan_from].
  { unfold filled. by destruct Hs as [-> Hs]. }
  set (K st1 := if sc_done st1 then st1 else scan_from tg fm n (S j) y b st1).
  change (filled (K (scan_entry tg fm y (32 * Z.of_nat j) (entry_of b j) st)) (K (scan_entry tg fm y (32 * Z.of_nat j) (entry_of b j) st))).
  apply filled_then.
  - apply scan_entry_filled; [apply Hl; lia|done|by left].
  - intros st1 H. unfold K. destruct (sc_done st1); [done|]. by apply scan_from_keeps.
  - intros st1 H. unfold K. by rewrite H.
  - intros Hs1. unfold K. destruct (sc_done _); [unfold filled; by destruct Hs1 as [-> Hs1]|]. apply IH; [lia|done|done].
Qed.

Lemma scan_sectors_filled m m' xs : forall st, changed_in x k e e' m m' xs -> no_long m xs -> searching st ->
  filled (scan_sectors tg fm m xs st) (scan_sectors tg fm m' xs st).
Proof.
  induction xs as [|y xs IH]; intros st Hc Hl Hs; cbn [scan_sectors]; [unfold filled; by destruct Hs as [-> Hs]|].
  destruct (sc_done st); [unfold filled; by destruct Hs as [-> Hs]|].
  apply (filled_then _ _ (scan_sectors tg fm m xs) (scan_sectors tg fm m' xs)).
  - specialize (Hc y ltac:(left)). pose proof (fun j => Hl y j ltac:(left)) as Hly. destruct (decide (y = x)) as [->|Hy].
    + by apply scan_from_filled.
    + rewrite Hc. by apply scan_from_filled_elsewhere.
  - intros st1. apply scan_sectors_keeps.
  - intros st1 H. destruct xs; cbn [scan_sectors]; [done|by rewrite H].
  - intros Hs1. apply IH; [intros z Hz; apply Hc; by right|intros z j Hz; apply Hl; by right|done].
Qed.

Lemma scan_clusters_filled f m m' l : forall st, changed_in x k e e' m m' (chain_sectors f l) -> no_long m (chain_sectors f l) ->
  searching st -> filled (scan_clusters tg fm f m l st) (scan_clusters tg fm f m' l st).
Proof.
  induction l as [|c l IH]; intros st Hc Hl Hs; cbn [scan_clusters]; [unfold filled; by destruct Hs as [-> Hs]|].
  rewrite chain_sectors_cons in Hc, Hl. set (st0 := mk_scan _ _ _).
  set (K m st1 := if sc_done st1 then st1 else scan_clusters tg fm f m l st1).
  change (filled (K m (scan_sectors tg fm m (cluster_sectors f c) st0)) (K m' (scan_sectors tg fm m' (cluster_sectors f c) st0))).
  apply filled_then.
  - apply scan_sectors_filled; [intros y Hy; apply Hc, elem_of_app; by left|intros y j Hy; apply Hl, elem_of_app; by left|exact Hs].
  - intros st1 H. unfold K. destruct (sc_done st1); [done|]. by apply scan_clusters_keeps.
  - intros st1 H. unfold K. by rewrite H.
  - intros Hs1. unfold K. set (st1 := scan_sectors _ _ _ _ _) in *.
    destruct (sc_done st1); [unfold filled; by destruct Hs1 as [-> Hs1]|].
    apply IH; [intros y Hy; apply Hc, elem_of_app; by right|intros y j Hy; apply Hl, elem_of_app; by right|done].
Qed.
End Fresh.

(** A name written into the free slot that its search met is found there. *)
Lemma search_fresh f m m' l name x k e e' :
  fresh (format_fat32_name name) e' -> byte e 0 = 0 \/ byte e 0 = 0xE5 ->
  changed_in x k e e' m m' (chain_sectors f l) -> no_long m (chain_sectors f l) ->
  ds_has_free (sc_out (search f m l name)) = true ->
  ds_free_sector (sc_out (search f m l name)) = x -> ds_free_offset (sc_out (search f m l name)) = 32 * Z.of_nat k ->
  let o := sc_out (search f m' l name) in
  ds_found o = true /\ here x k o /\ ds_clus o = entry_clus e' /\ ds_size o = entry_size e'.
Proof.
  intros Hf He Hc Hl H1 H2 H3. unfold search in *.
  pose proof (scan_clusters_filled name _ x k e e' Hf He f m m' l (mk_scan lfn_clear no_slot false) Hc Hl (conj eq_refl eq_refl)) as H.
  unfold filled in H. rewrite H1 in H. destruct (H (conj H2 H3)) as (lf & o & ->). done.
Qed.

(** ** Where the slots of a search are *)
Section Places.
Variables (tg fm : list Z) (f : FAT32_Instance) (m : gmap Z (list Z)).

Definition entry_at (x : Z) (k : nat) : list Z := entry_of (default [] (m !! x)) k.

Definition placed (xs : list Z) (o : DirSlot) : Prop :=
  (ds_found o = true -> exists x k, x ∈ xs /\ (k < 16)%nat /\ here x k o /\ byte (entry_at x k) 11 <> 0x0F /\
     ds_clus o = entry_clus (entry_at x k)) /\
  (ds_has_free o = true -> exists x k, x ∈ xs /\ (k < 16)%nat /\ ds_free_sector o = x /\ ds_free_offset o = 32 * Z.of_nat k /\
     (byte (entry_at x k) 0 = 0 \/ byte (entry_at x k) 0 = 0xE5)).

Lemma scan_entry_placed xs y j st : y ∈ xs -> (j < 16)%nat -> placed xs (sc_out st) ->
  placed xs (sc_out (scan_entry tg fm y (32 * Z.of_nat j) (entry_at y j) st)).
Proof.
  intros Hy Hj H. pose proof H as [H1 H2]. unfold scan_entry. destruct (_ || _) eqn:E0.
  - assert (placed xs (slot_free y (32 * Z.of_nat j) (sc_out st))); [|by destruct (byte _ 0 =? 0)].
    unfold slot_free. destruct (ds_has_free (sc_out st)); [done|]. split; [exact H1|]. intros _. exists y, j.
    split_and!; [done..|]. apply orb_true_iff in E0 as [E|E]; apply Z.eqb_eq in E; [by left|by right].
  - destruct (Z.eqb_spec (byte (entry_at y j) 11) 0x0F); [done|]. destruct (negb _); [done|].
    destruct (entry_matches _ _ _ _); [|done]. split; [|exact H2]. intros _. by exists y, j.
Qed.

Lemma scan_from_placed xs n y : y ∈ xs -> forall j st, (j + n <= 16)%nat -> placed xs (sc_out st) ->
  placed xs (sc_out (scan_from tg fm n j y (default [] (m !! y)) st)).
Proof.
  intros Hy. induction n as [|n IH]; intros j st Hj H; cbn [scan_from]; [done|].
  pose proof (scan_entry_placed xs y j st Hy ltac:(lia) H) as H'. unfold entry_at in H'.
  set (st1 := scan_entry _ _ _ _ _ _) in *. destruct (sc_done st1); [done|]. apply IH; [lia|done].
Qed.

Lemma scan_sectors_placed ys xs : forall st, (forall y, y ∈ xs -> y ∈ ys) -> placed ys (sc_out st) ->
  placed ys (sc_out (scan_sectors tg fm m xs st)).
Proof.
  induction xs as [|y xs IH]; intros st Hs H; cbn [scan_sectors]; [done|]. destruct (sc_done st); [done|].
  apply IH; [intros z Hz; apply Hs; by right|]. apply scan_from_placed; [apply Hs; by left|lia|done].
Qed.

Lemma scan_clusters_placed ys l : forall st, (forall y, y ∈ chain_sectors f l -> y ∈ ys) -> placed ys (sc_out st) ->
  placed ys (sc_out (scan_clusters tg fm f m l st)).
Proof.
  induction l as [|c l IH]; intros st Hs H; cbn [scan_clusters]; [done|]. rewrite chain_sectors_cons in Hs.
  assert (H' : placed ys (sc_out (scan_sectors tg fm m (cluster_sectors f c) (mk_scan (sc_lfn st) (slot_last c (sc_out st)) (sc_done st)))))
    by (apply scan_sectors_placed; [intros y Hy; apply Hs, elem_of_app; by left|exact H]).
  set (st1 := scan_sectors _ _ _ _ _) in *. destruct (sc_done st1); [done|].
  apply IH; [intros y Hy; apply Hs, elem_of_app; by right|done].
Qed.
End Places.

Lemma search_placed f m l name : placed m (chain_sectors f l) (sc_out (search f m l name)).
Proof. apply scan_clusters_placed; [done|]. by split. Qed.

(** ** Storing an entry *)
Lemma entry_of_length b k : length b = 512%nat -> (k < 16)%nat -> length (entry_of b k) = 32%nat.
Proof. intros Hb Hk. unfold entry_of. rewrite length_take, length_drop. lia. Qed.

Lemma entry_of_slice b k : length b = 512%nat -> (k < 16)%nat -> slice b (32 * Z.of_nat k) 32 = Some (entry_of b k).
Proof. intros Hb Hk. rewrite slice_Some by lia. unfold entry_of. by replace (Z.to_nat (32 * Z.of_nat k)) with (32 * k)%nat by lia. Qed.

Lemma store_entry b k e' : length b = 512%nat -> (k < 16)%nat -> length e' = 32%nat ->
  exists b', put_bytes b (32 * Z.of_nat k) e' = Some b' /\ length b' = 512%nat /\ changed k (entry_of b k) e' b b'.
Proof.
  intros Hb Hk He. destruct (put_bytes b (32 * Z.of_nat k) e') as [b'|] eqn:E; [|by rewrite put_bytes_Some in E by lia].
  exists b'. assert (Hb' : length b' = 512%nat) by (rewrite (put_bytes_length _ _ _ _ E); done). split_and!; [done..|]. split.
  - done.
  - pose proof (slice_put_same _ _ _ _ E) as H. rewrite He in H. change (Z.of_nat 32) with 32 in H.
    rewrite entry_of_slice in H by done. by injection H.
  - intros j Hj. destruct (decide (j < 16)%nat).
    + pose proof (slice_put_other _ _ _ _ (32 * Z.of_nat j) 32 E ltac:(lia)) as H.
      rewrite !entry_of_slice in H by done. by injection H.
    + unfold entry_of. rewrite !drop_ge by lia. done.
Qed.

Lemma changed_in_insert m x k e e' b b' xs : m !! x = Some b -> changed k e e' b b' -> changed_in x k e e' m (<[x := b']> m) xs.
Proof.
  intros Hb Hc y _. destruct (decide (y = x)) as [->|Hy]; [by rewrite lookup_insert_eq, Hb|]. by apply lookup_insert_ne.
Qed.

(** ** The fields of an entry *)
Lemma lor_shiftl_add a b n : 0 <= n -> 0 <= b < 2 ^ n -> Z.lor (Z.shiftl a n) b = a * 2 ^ n + b.
Proof.
  intros Hn Hb. assert (E : Z.land (Z.shiftl a n) b = 0).
  { apply Z.bits_inj'. intros i Hi. rewrite Z.land_spec, Z.bits_0. destruct (Z.lt_ge_cases i n).
    - by rewrite Z.shiftl_spec_low.
    - by rewrite (bits_high b n), andb_false_r by lia. }
  rewrite <- Z.lxor_lor, <- Z.add_nocarry_lxor, Z.shiftl_mul_pow2 by done. done.
Qed.

Lemma clus_bytes c : 0 <= c < 2 ^ 28 ->
  let lo := Z.land c 0xFFFF in let hi := u16 (c / 2 ^ 16) in
  Z.lor (Z.shiftl (u8 hi + 256 * u8 (hi / 2 ^ 8)) 16) (u8 lo + 256 * u8 (lo / 2 ^ 8)) = c.
Proof.
  intros Hc. change 0xFFFF with (Z.ones 16). rewrite Z.land_ones by lia. cbv zeta. unfold u16, u8.
  change (2 ^ 8) with 256. change (2 ^ 16) with 65536. rewrite lor_shiftl_add; Z.div_mod_to_equations; lia.
Qed.

(** An entry with a cluster and a size: the fields read back, the first twelve
    bytes are kept. *)
Lemma put_fields e c len : length e = 32%nat -> 0 <= c < 2 ^ 28 -> 0 <= len < 2 ^ 32 ->
  exists e1 e2, put_clus e c = Some e1 /\ put_bytes e1 28 (le32 len) = Some e2 /\
    length e2 = 32%nat /\ take 12 e2 = take 12 e /\ entry_clus e2 = c /\ entry_size e2 = len.
Proof.
  intros He Hc Hlen. do 32 (destruct e as [|? e]; [cbn in He; lia|]). destruct e; [|cbn in He; lia].
  eexists _, _. split; [reflexivity|]. split; [reflexivity|]. split; [reflexivity|]. split; [reflexivity|]. split.
  - exact (clus_bytes c Hc).
  - exact (le_val_le32 len Hlen).
Qed.

(** A new entry has the short name of the file and nothing else set. *)
Lemma new_entry_ok name attr : plain_name name ->
  exists e, new_entry name attr = Some e /\ length e = 32%nat /\ take 11 e = format_fat32_name name /\ byte e 11 = attr.
Proof.
  intros (_ & _ & Hn & _). destruct (format_ok name Hn) as [_ Hl]. unfold new_entry. revert Hl.
  generalize (format_fat32_name name). intros fm Hl. do 11 (destruct fm as [|? fm]; [cbn in Hl; lia|]). destruct fm; [|cbn in Hl; lia].
  eexists. split; [reflexivity|]. split_and!; reflexivity.
Qed.
