(* ===== verification/FatFile.v ===== *)
(** * Writing and reading whole files

    What [fat32_write_file] and [fat32_read_file] do to a file of the current
    directory, from the parts: the search of the directory ([FatDir]), the
    chains ([FatChain]) and their data ([FatData]).  [touched] says which
    clusters and sectors an operation leaves alone, so that the steps of the
    write compose. *)
From Stdlib Require Import ZArith Lia.
From stdpp Require Import base list option gmap.
From S2P Require Import Prelude Bytes Fat32 FatTable FatChain FatData FatDir.
#[local] Open Scope Z_scope.

(** ** What an operation leaves alone

    Only clusters in [W] change their entries; only sectors of those clusters
    and the sectors [xs] change their content. *)
Record touched (f : FAT32_Instance) (W : Z -> Prop) (xs : list Z) (m m' : gmap Z (list Z)) : Prop := {
  tc_table : forall c, 0 <= c < clusters f -> ~ W c -> fat_entry f m' c = fat_entry f m c;
  tc_data : forall x, ~ in_fat f x -> x ∉ xs ->
    (forall c, 2 <= c < clusters f -> W c -> x ∉ cluster_sectors f c) -> m' !! x = m !! x;
  tc_some : forall x, ~ in_fat f x -> is_Some (m !! x) -> is_Some (m' !! x)
}.

Section Touched.
Context (f : FAT32_Instance) (Hg : fat_geometry f) (W : Z -> Prop).

Lemma touched_trans xs m1 m2 m3 : touched f W xs m1 m2 -> touched f W xs m2 m3 -> touched f W xs m1 m3.
Proof.
  intros [T1 D1 S1] [T2 D2 S2]. split; intros; [by rewrite T2, T1 by done|by rewrite D2, D1 by done|by apply S2, S1].
Qed.

Lemma touched_more xs ys m m' : (forall x, x ∈ xs -> x ∈ ys) -> touched f W xs m m' -> touched f W ys m m'.
Proof. intros Hs [T1 D1 S1]. split; [done| |done]. intros x Hx Hy Hc. apply D1; [done| |done]. intros H. by apply Hy, Hs. Qed.

Lemma touched_freed l m m' : (forall c, c ∈ l -> W c) -> table_upd f (freed l) m m' ->
  (forall x, ~ in_fat f x -> m' !! x = m !! x) -> touched f W [] m m'.
Proof.
  intros Hl Hu Ho. split; [|intros; by apply Ho|intros x Hx; by rewrite Ho]. intros c Hc Hw. rewrite (table_upd_entry f _ m m' c Hg Hu Hc).
  unfold freed. by rewrite bool_decide_false by (intros H; by apply Hw, Hl).
Qed.

Lemma touched_zeroed g l m m' : (forall c, c ∈ l -> 2 <= c < clusters f /\ W c) -> (forall c, c ∉ l -> g c = None) ->
  table_upd f g m m' -> zeroed f l m m' -> touched f W [] m m'.
Proof.
  intros Hl Hn Hu Hz. split.
  - intros c Hc Hw. rewrite (table_upd_entry f _ m m' c Hg Hu Hc), Hn; [done|]. intros H. by apply Hw, Hl.
  - intros x Hx _ Hc. rewrite Hz by done. rewrite bool_decide_false; [done|].
    intros (c & Hin & H)%list_elem_of_bind. destruct (Hl c H) as [Hr Hw]. by apply (Hc c).
  - intros x Hx Hs. rewrite Hz by done. case_bool_decide; [by apply fmap_is_Some|done].
Qed.

Lemma touched_write x b m : ~ in_fat f x -> touched f W [x] m (<[x := b]> m).
Proof.
  intros Hx. split; [intros c Hc _; by apply fat_entry_write|intros y _ Hy _; apply lookup_insert_ne; set_solver|].
  intros y _ Hs. destruct (decide (y = x)) as [->|]; [rewrite lookup_insert_eq; by eexists|by rewrite lookup_insert_ne].
Qed.

Lemma fill_table l data m c : (forall y, y ∈ l -> 2 <= y < clusters f) -> 0 <= c < clusters f ->
  fat_entry f (fill (chain_sectors f l) data m) c = fat_entry f m c.
Proof.
  intros Hl Hc. pose proof (fg_cnt f Hg). rewrite !fat_entry_copy, !copy_entry_at by (done || lia).
  rewrite fill_notin; [done|]. intros (y & Hin & Hy)%list_elem_of_bind. pose proof (Hl y Hy).
  eapply (cluster_sector_out f y); [done|lia|exact Hin|]. apply entry_sector_in; [done|lia|lia].
Qed.

Lemma touched_fill l data m : (forall c, c ∈ l -> 2 <= c < clusters f /\ W c) ->
  touched f W [] m (fill (chain_sectors f l) data m).
Proof.
  intros Hl. split; [intros c Hc _; apply fill_table; [intros y Hy; by apply Hl|done]| |intros x _; apply fill_some]. intros x _ _ Hc.
  apply fill_notin. intros (y & Hin & Hy)%list_elem_of_bind. by apply (Hc y (proj1 (Hl y Hy)) (proj2 (Hl y Hy))).
Qed.

(** The sectors of clusters outside [W]. *)
Lemma touched_sectors xs l m m' x : touched f W xs m m' -> (forall c, c ∈ l -> 2 <= c < clusters f /\ ~ W c) ->
  x ∈ chain_sectors f l -> x ∉ xs -> m' !! x = m !! x.
Proof.
  intros Ht Hl (c & Hin & Hc)%list_elem_of_bind Hx. destruct (Hl c Hc) as [Hr Hw]. apply (tc_data _ _ _ _ _ Ht); [|done|].
  - apply (cluster_sector_out f c); [done|lia|done].
  - intros c' _ Hw' Hin'. by rewrite (cluster_sectors_disjoint f c c' x Hg Hin Hin') in Hw.
Qed.

(** A chain outside [W] keeps its links and its bytes. *)
Lemma touched_chain xs l m m' : touched f W xs m m' -> (forall c, c ∈ l -> ~ W c) -> chain f (fat_entry f m) l ->
  chain f (fat_entry f m') l.
Proof.
  intros Ht Hl Hch. eapply chain_ext; [|exact Hch]. intros c Hc. pose proof (chain_in f _ l c Hch Hc).
  apply (tc_table _ _ _ _ _ Ht); [lia|by apply Hl].
Qed.

Lemma touched_bytes xs l m m' : touched f W xs m m' -> (forall c, c ∈ l -> 2 <= c < clusters f /\ ~ W c) ->
  (forall x, x ∈ xs -> x ∉ chain_sectors f l) -> chain_bytes f m' l = chain_bytes f m l.
Proof.
  intros Ht Hl Hxs. apply bytes_of_ext. intros x Hx. eapply touched_sectors; [exact Ht|exact Hl|exact Hx|].
  intros H. by apply (Hxs x).
Qed.
End Touched.

(** ** Plain names as paths *)
Lemma token_of_plain n name : Forall (fun c => 0 < c < 256 /\ c <> 47) name -> (length name <= n)%nat ->
  token_of n name = (name, []).
Proof.
  intros Hn. revert n. induction Hn as [|c name [_ Hc] _ IH]; intros n Hl; [by destruct n|].
  destruct n as [|n]; [cbn in Hl; lia|]. cbn [token_of]. rewrite (proj2 (Z.eqb_neq c 47)), IH by (done || cbn in Hl; lia). done.
Qed.

(** The cluster of the current directory. *)
Definition cwd (f : FAT32_Instance) : Z := if current_dir_cluster f =? 0 then root_cluster f else current_dir_cluster f.

Section File.
Context {D : Type} `{RD : ReliableDevice D}.
Implicit Types s : fstate D.
Notation T s := (fat_entry (fs s) (disk s)).

Lemma wp_resolve_plain s name (Q : option (Z * list Z) -> fstate D -> Prop) :
  plain_name name -> 2 <= cwd (fs s) < clusters (fs s) -> clusters (fs s) < FAT32_EOC ->
  Q (Some (cwd (fs s), name)) s -> wp (resolve_name name) Q s.
Proof.
  intros (Hne & Hl & Hn & _) Hc Hcl HQ. unfold resolve_name, fat32_resolve_parent. wp_struct. wp_struct. wp_struct.
  fold (cwd (fs s)). destruct name as [|c name]; [done|].
  pose proof (token_of_plain 63 (c :: name) Hn Hl) as Ht. apply Forall_cons in Hn as [[_ Hc47] _].
  rewrite (proj2 (Z.eqb_neq c 47)) by done. cbn [resolve_tokens]. rewrite Ht. cbn [skip_slashes].
  wp_struct. unfold FAT32_EOC, NOT_FOUND in *. rewrite (proj2 (Z.eqb_neq _ _)) by lia. cbn [orb]. wp_struct. exact HQ.
Qed.

(** ** The file system around the current directory

    The current directory is a directory with the clusters [dl], and every
    free cluster of the table is on the device. *)
Record file_system (f : FAT32_Instance) s (dl : list Z) : Prop := {
  fsy_ready : ready f s;
  fsy_dir : directory f s dl;
  fsy_cwd : head dl = Some (cwd f);
  fsy_free : forall c, 2 <= c < clusters f -> T s c = 0 -> backed (disk s) (cluster_sectors f c)
}.

(** The clusters [old] that a file found (or not found) in slot [o] occupies. *)
Definition occupies (f : FAT32_Instance) s (dl : list Z) (o : DirSlot) (old : list Z) : Prop :=
  (old = [] /\ (ds_found o = false \/ ds_clus o < 2)) \/
  (ds_found o = true /\ head old = Some (ds_clus o) /\ chain f (T s) old /\ (length old <= FREE_GUARD)%nat /\
   backed (disk s) (chain_sectors f old) /\ forall c, c ∈ old -> c ∉ dl).

(** Clusters that a rewrite may use: the free ones and those it gives back. *)
Definition available s (old : list Z) (c : Z) : Prop := T s c = 0 \/ c ∈ old.

Lemma occupies_out f s dl o old c : file_system f s dl -> occupies f s dl o old -> c ∈ dl -> ~ available s old c.
Proof.
  intros Hf Ho Hc [Hz|Hin]; [by apply (dr_used _ _ _ (fsy_dir _ _ _ Hf) c)|].
  destruct Ho as [[-> _]|(_ & _ & _ & _ & _ & Hd)]; [by apply elem_of_nil in Hin|by apply (Hd c)].
Qed.

Lemma occupies_range f s dl o old c : occupies f s dl o old -> c ∈ old -> 2 <= c < clusters f.
Proof.
  intros [[-> _]|(_ & _ & Hch & _)] Hc; [by apply elem_of_nil in Hc|]. by eapply chain_in.
Qed.

Lemma available_backed f s dl o old c : file_system f s dl -> occupies f s dl o old -> 2 <= c < clusters f ->
  available s old c -> backed (disk s) (cluster_sectors f c).
Proof.
  intros Hf Ho Hc [Hz|Hin]; [by apply (fsy_free _ _ _ Hf)|].
  destruct Ho as [[-> _]|(_ & _ & _ & _ & Hb & _)]; [by apply elem_of_nil in Hin|].
  intros x Hx. apply Hb, list_elem_of_bind. by exists c.
Qed.

Lemma touched_backed f s' W ys xs m : ready f s' -> touched f W ys m (disk s') -> (forall x, x ∈ xs -> ~ in_fat f x) ->
  backed m xs -> backed (disk s') xs.
Proof.
  intros Hr Ht Hx Hb x Hin. destruct (Hb x Hin) as (b & E & _).
  destruct (tc_some _ _ _ _ _ Ht x (Hx x Hin) ltac:(by eexists)) as [b' E']. exists b'. split; [done|].
  by eapply (proj2 (rd_present f s' Hr)).
Qed.

(** The file system survives an operation that touches available clusters and
    sectors of the directory only. *)
Lemma file_system_touched f s s' dl o old ys : file_system f s dl -> occupies f s dl o old -> ready f s' ->
  touched f (available s old) ys (disk s) (disk s') -> file_system f s' dl.
Proof.
  intros Hf Ho Hr Ht. pose proof (rd_geometry f s' Hr) as Hg. pose proof (rd_fs f s (fsy_ready f s dl Hf)) as E.
  pose proof (rd_fs f s' Hr) as E'. pose proof Hf as [_ [Hch Hl Hu Hb] Hh Hfr]. rewrite E in Hch, Hu, Hfr.
  assert (Hout : forall c, c ∈ dl -> ~ available s old c) by (intros c; by eapply occupies_out).
  split; [done| |done|]; rewrite ?E'.
  - split; rewrite ?E'; [by eapply touched_chain|done| |].
    + intros c Hc. rewrite (tc_table _ _ _ _ _ Ht); [by apply Hu|pose proof (chain_in f _ _ c Hch Hc); lia|by apply Hout].
    + eapply touched_backed; [done|exact Ht| |done]. intros x Hx. by eapply chain_sectors_out.
  - intros c Hc Hz. eapply touched_backed; [done|exact Ht|intros x Hx; apply (cluster_sector_out f c); [done|lia|done]|].
    apply (available_backed f s dl o old); [done..|]. destruct (decide (T s c = 0 \/ c ∈ old)) as [|Hn]; [done|].
    left. rewrite E, <- Hz. symmetry. apply (tc_table _ _ _ _ _ Ht); [lia|done].
Qed.

Lemma file_system_same f s s' dl : file_system f s dl -> same s s' -> file_system f s' dl.
Proof.
  intros [Hr [Hch Hl Hu Hb] Hh Hfr] Hs. pose proof Hs as [E1 E2].
  split; [by eapply ready_same|split|done|]; rewrite ?E1, ?E2; done.
Qed.

Lemma wp_lookup f s dl name (Q : option (Z * list Z) -> fstate D -> Prop) :
  file_system f s dl -> plain_name name -> Q (Some (cwd f, name)) s -> wp (resolve_name name) Q s.
Proof.
  intros [Hr Hd Hh _] Hn HQ. pose proof (rd_fs f s Hr) as E. pose proof (rd_geometry f s Hr) as Hg.
  apply wp_resolve_plain; rewrite ?E; [done| |by apply clusters_bound|done].
  destruct dl as [|c dl]; [done|]. injection Hh as <-. eapply (chain_in f _ (c :: dl)); [apply Hd|left].
Qed.

(** The search of the current directory, whatever the caller does with it. *)
Lemma wp_dir_scan_cwd f s dl name (Q : option DirSlot -> fstate D -> Prop) :
  file_system f s dl ->
  (forall s', ready f s' -> same s s' -> Q (Some (sc_out (search f (disk s) dl name))) s') ->
  wp (dir_scan (or_root f (cwd f)) name) Q s.
Proof.
  intros [Hr Hd Hh _] HQ. assert (E : or_root f (cwd f) = default 0 (head dl)).
  { rewrite Hh. unfold or_root. cbn. assert (2 <= cwd f); [|by rewrite (proj2 (Z.eqb_neq _ _)) by lia].
    destruct dl as [|c dl]; [done|]. injection Hh as <-. pose proof (chain_in f _ (c :: dl) c (dr_chain _ _ _ Hd) ltac:(left)). lia. }
  rewrite E. by apply (wp_dir_scan f s dl).
Qed.

(** Reading a file that the search finds: its bytes from the offset on, up to
    its size and a page at a time. *)
Lemma wp_read_file f s dl name l offset (Q : bool * list Z -> fstate D -> Prop) :
  let o := sc_out (search f (disk s) dl name) in
  file_system f s dl -> plain_name name -> ds_found o = true ->
  chain f (T s) l -> backed (disk s) (chain_sectors f l) -> head l = Some (ds_clus o) ->
  0 <= offset < ds_size o -> ds_size o <= Z.of_nat (length (chain_bytes f (disk s) l)) ->
  (forall s', ready f s' -> same s s' ->
     Q (true, take (Z.to_nat (Z.min 4096 (ds_size o - offset))) (drop (Z.to_nat offset) (chain_bytes f (disk s) l))) s') ->
  wp (fat32_read_file name offset) Q s.
Proof.
  cbv zeta. set (o := sc_out _). intros Hf Hn Hfound Hch Hb Hh Ho Hlen HQ. pose proof (rd_fs f s (fsy_ready f s dl Hf)) as E.
  unfold fat32_read_file. wp_struct. apply (wp_lookup f s dl); [done|done|]. wp_struct. wp_struct. rewrite E. wp_struct.
  apply (wp_dir_scan_cwd f s dl); [done|]. intros s1 Hr1 Hs1. fold o. pose proof Hs1 as [Hf1 Hd1].
  rewrite Hfound, (proj2 (Z.leb_gt (ds_size o) offset)) by lia. cbn [negb].
  set (mx := if 4096 <? ds_size o - offset then 4096 else ds_size o - offset).
  assert (Emx : mx = Z.min 4096 (ds_size o - offset)) by (unfold mx; destruct (Z.ltb_spec 4096 (ds_size o - offset)); lia).
  rewrite <- Emx in HQ. clearbody mx. wp_struct. replace (ds_clus o) with (default 0 (head l)) by (by rewrite Hh).
  apply (wp_read_chain_data f s1 l); [done|by rewrite Hf1, Hd1|by rewrite Hd1|lia|lia|]. intros s2 Hr2 Hs2.
  unfold FAT32_MAX_IO_CHUNK. rewrite Z.min_l, Hd1 by lia.
  rewrite (proj2 (Z.eqb_neq (Z.of_nat (length _)) 0)) by (rewrite length_take, length_drop; lia).
  wp_struct. apply HQ; [done|]. by transitivity s1.
Qed.

(** ** The steps of a write *)
Lemma wp_free_old f s dl o old (Q : unit -> fstate D -> Prop) :
  ready f s -> occupies f s dl o old ->
  (forall s', ready f s' -> table_upd f (freed old) (disk s) (disk s') ->
     (forall x, ~ in_fat f x -> disk s' !! x = disk s !! x) -> Q tt s') ->
  wp (if ds_found o && (2 <=? ds_clus o) then let* _ := fat_free_chain (ds_clus o) in ret tt else ret tt) Q s.
Proof.
  intros Hr Ho HQ. destruct Ho as [[-> Hz]|(Hfound & Hh & Hch & Hl & _)].
  - assert (E : ds_found o && (2 <=? ds_clus o) = false).
    { destruct Hz as [->|Hz]; [done|]. rewrite (proj2 (Z.leb_gt 2 _)) by lia. apply andb_false_r. }
    rewrite E. wp_struct. apply HQ; [done| |done]. by intros k c _ _.
  - assert (H2 : 2 <= ds_clus o).
    { destruct old as [|c old]; [done|]. injection Hh as <-. apply (chain_in f _ _ c Hch). left. }
    rewrite Hfound, (proj2 (Z.leb_le 2 _) H2). cbn [andb]. wp_struct.
    replace (ds_clus o) with (default 0 (head old)) by (by rewrite Hh).
    apply (wp_free_chain f s old); [done..|]. intros s' Hr' Hu Hs. wp_struct. by apply HQ.
Qed.

(** After the old chain is freed, the free clusters are the available ones. *)
Lemma freed_free f s s' old c : ready f s -> ready f s' -> table_upd f (freed old) (disk s) (disk s') ->
  0 <= c < clusters f -> T s' c = 0 <-> available s old c.
Proof.
  intros Hr Hr' Hu Hc. rewrite (rd_fs f s' Hr'), (table_upd_entry f _ _ _ c (rd_geometry f s Hr) Hu Hc).
  unfold freed, available. rewrite (rd_fs f s Hr). case_bool_decide; cbn; tauto.
Qed.

(** The number of clusters for [len] bytes. *)
Definition clusters_for (f : FAT32_Instance) (len : Z) : Z := (len + 512 * sectors_per_cluster f - 1) / (512 * sectors_per_cluster f).

Lemma clusters_for_bound f len : fat_geometry f -> 0 < len <= 2 ^ 25 ->
  0 < clusters_for f len <= 65536 /\ len <= 512 * sectors_per_cluster f * clusters_for f len /\
  u32 (len + 512 * sectors_per_cluster f - 1) = len + 512 * sectors_per_cluster f - 1.
Proof.
  intros Hg Hl. pose proof (fg_spc f Hg) as Hs. unfold clusters_for, u32. set (b := 512 * sectors_per_cluster f) in *.
  assert (Hb : 512 <= b < 131072) by (unfold b; lia). clearbody b.
  pose proof (Z.div_mod (len + b - 1) b ltac:(lia)) as Hd. pose proof (Z.mod_pos_bound (len + b - 1) b ltac:(lia)).
  set (q := (len + b - 1) / b) in *. split; [|split; [lia|apply (Z.mod_small (len + b - 1)); lia]]. clearbody q. nia.
Qed.

(** [l] is a chain of available clusters, allocated for the file. *)
Record replaced (f : FAT32_Instance) s0 (old l : list Z) s : Prop := {
  rp_ready : ready f s;
  rp_chain : chain f (T s) l;
  rp_new : forall c, c ∈ l -> 2 <= c < clusters f /\ available s0 old c;
  rp_touched : touched f (available s0 old) [] (disk s0) (disk s)
}.

(** No list of distinct available clusters is long enough. *)
Definition too_few (f : FAT32_Instance) s old n : Prop :=
  forall l, NoDup l -> (forall c, c ∈ l -> 2 <= c < clusters f /\ available s old c) -> Z.of_nat (length l) < n.

Lemma wp_replace f s s1 dl o old len (Q : Z -> fstate D -> Prop) :
  ready f s -> occupies f s dl o old -> ready f s1 -> table_upd f (freed old) (disk s) (disk s1) ->
  (forall x, ~ in_fat f x -> disk s1 !! x = disk s !! x) -> 0 < len <= 2 ^ 25 ->
  (forall l s', replaced f s old l s' -> Z.of_nat (length l) = clusters_for f len -> Q (default 0 (head l)) s') ->
  (forall s', ready f s' -> touched f (available s old) [] (disk s) (disk s') -> too_few f s old (clusters_for f len) -> Q 0 s') ->
  wp (if 0 <? len then fat_alloc_chain (u32 (len + 512 * sectors_per_cluster f - 1) / (512 * sectors_per_cluster f)) else ret 0) Q s1.
Proof.
  intros Hr Ho Hr1 Hu Hx Hl Hok Hfull. pose proof (rd_geometry f s Hr) as Hg.
  destruct (clusters_for_bound f len Hg Hl) as (Hn & _ & ->). rewrite (proj2 (Z.ltb_lt 0 len)) by lia. fold (clusters_for f len).
  assert (Ht : touched f (available s old) [] (disk s) (disk s1)) by (apply (touched_freed f Hg _ old); [by right|done|done]).
  assert (Hfree : forall c, 2 <= c < clusters f -> T s1 c = 0 <-> available s old c) by (intros c Hc; apply (freed_free f); [done..|lia]).
  apply (wp_alloc_chain f s1); [done|done| |].
  - intros l s2 Ha Hll. assert (Hnew : forall c, c ∈ l -> 2 <= c < clusters f /\ available s old c).
    { intros c Hc. destruct (al_free _ _ _ _ Ha c Hc) as [Hr2 Hz]. split; [done|]. by apply Hfree. }
    apply Hok; [|done]. split; [apply Ha|eapply allocated_chain; [exact Hr1|done|]; intros ->; cbn in Hll; lia|done|].
    eapply touched_trans; [exact Ht|]. apply (touched_zeroed f Hg _ (link_of l) l); [done|apply link_of_notin|apply Ha..].
  - intros l s2 Hr2 Hu2 Hz2 Hf2 Hfew. apply Hfull; [done| |].
    + eapply touched_trans; [exact Ht|]. apply (touched_zeroed f Hg _ (freed l) l); [|intros c Hc; unfold freed; by rewrite bool_decide_false|done|done].
      intros c Hc. destruct (Hf2 c Hc). split; [done|]. by apply Hfree.
    + intros l' Hnd Hl'. specialize (Hfew l' Hnd). enough (length l' < Z.to_nat (clusters_for f len))%nat by lia.
      apply Hfew. intros c Hc. destruct (Hl' c Hc). split; [done|]. by apply Hfree.
Qed.

(** ** The entry of the file *)

(** Where the entry goes, what is there, and that the search finds it once it
    has been stored with its first twelve bytes kept. *)
Record slot_ok (f : FAT32_Instance) s dl name (o : DirSlot) (x : Z) (k : nat) (b e : list Z) : Prop := {
  so_in : x ∈ chain_sectors f dl;
  so_index : (k < 16)%nat;
  so_sector : disk s !! x = Some b;
  so_length : length b = 512%nat;
  so_entry : (if ds_found o then slice b (32 * Z.of_nat k) 32 else new_entry name ATTR_ARCHIVE) = Some e;
  so_size : length e = 32%nat;
  so_search : forall m' e', take 12 e' = take 12 e ->
    changed_in x k (entry_of b k) e' (disk s) m' (chain_sectors f dl) ->
    let o' := sc_out (search f m' dl name) in
    ds_found o' = true /\ ds_clus o' = entry_clus e' /\ ds_size o' = entry_size e'
}.

Lemma byte_12 e e' i : take 12 e' = take 12 e -> (i < 12)%nat -> byte e' i = byte e i.
Proof. intros H Hi. by eapply byte_take. Qed.

Lemma new_entry_fresh name e e' : plain_name name -> take 11 e = format_fat32_name name -> byte e 11 = ATTR_ARCHIVE ->
  take 12 e' = take 12 e -> fresh (format_fat32_name name) e'.
Proof.
  intros Hn Hf Ha H. destruct (format_ok name (proj1 (proj2 (proj2 Hn)))) as [Hnz Hl].
  assert (E : take 11 e' = format_fat32_name name).
  { rewrite <- Hf. apply (f_equal (take 11)) in H. by rewrite !take_take in H. }
  assert (E0 : byte e' 0 = byte (format_fat32_name name) 0).
  { rewrite <- E. unfold byte. by rewrite lookup_take_lt by lia. }
  pose proof (format_first name Hn). split; [done|done| |split; by rewrite (byte_12 e e' 11 H), Ha by lia].
  rewrite E0. split; [|done]. unfold byte. destruct (format_fat32_name name) as [|c fm]; [done|].
  by apply Forall_cons in Hnz as [? _].
Qed.

Lemma slot_at f s dl name (o := sc_out (search f (disk s) dl name)) :
  file_system f s dl -> plain_name name ->
  ds_found o = true \/ ds_has_free o = true /\ no_long (disk s) (chain_sectors f dl) ->
  exists x k b e, slot_ok f s dl name o x k b e /\
    (if ds_found o then (ds_sector o, ds_offset o) else (ds_free_sector o, ds_free_offset o)) = (x, 32 * Z.of_nat k).
Proof.
  intros Hf Hn Ho. pose proof (search_placed f (disk s) dl name) as [P1 P2]. fold o in P1, P2.
  pose proof (dr_backed _ _ _ (fsy_dir f s dl Hf)) as Hb. destruct (ds_found o) eqn:Hfound.
  - destruct (P1 eq_refl) as (x & k & Hx & Hk & [E1 E2] & Ha & _). destruct (Hb x Hx) as (b & Eb & Hl).
    unfold entry_at in Ha. rewrite Eb in Ha. exists x, k, b, (entry_of b k). split; [|by rewrite E1, E2].
    split; [done..|rewrite Hfound; by apply entry_of_slice|by apply entry_of_length|]. intros m' e' Ht Hc. cbv zeta.
    destruct (search_found f (disk s) m' dl name x k (entry_of b k) e' Ht Ha Hc Hfound (conj E1 E2)) as (H1 & _ & H2 & H3). done.
  - destruct Ho as [|[Hfree Hnl]]; [done|]. destruct (P2 Hfree) as (x & k & Hx & Hk & E1 & E2 & Ha).
    destruct (Hb x Hx) as (b & Eb & Hl). unfold entry_at in Ha. rewrite Eb in Ha.
    destruct (new_entry_ok name ATTR_ARCHIVE Hn) as (e & Ee & El & En & Eat).
    exists x, k, b, e. split; [|by rewrite E1, E2]. split; [done..|by rewrite Hfound|done|]. intros m' e' Ht Hc. cbv zeta.
    pose proof (new_entry_fresh name e e' Hn En Eat Ht) as Hfr.
    destruct (search_fresh f (disk s) m' dl name x k (entry_of b k) e' Hfr Ha Hc Hnl Hfree E1 E2) as (H1 & _ & H2 & H3). done.
Qed.

(** ** Writing a file *)
Record written (f : FAT32_Instance) s dl name text len old l s' : Prop := {
  wt_system : file_system f s' dl;
  wt_touched : exists x, x ∈ chain_sectors f dl /\ touched f (available s old) [x] (disk s) (disk s');
  wt_new : forall c, c ∈ l -> 2 <= c < clusters f /\ available s old c;
  wt_chain : chain f (T s') l;
  wt_backed : backed (disk s') (chain_sectors f l);
  wt_found : ds_found (sc_out (search f (disk s') dl name)) = true;
  wt_clus : head l = Some (ds_clus (sc_out (search f (disk s') dl name)));
  wt_size : ds_size (sc_out (search f (disk s') dl name)) = len;
  wt_bytes : take (Z.to_nat len) (chain_bytes f (disk s') l) = take (Z.to_nat len) text
}.

Lemma changed_in_ext x k e e' m1 m2 m2' xs : changed_in x k e e' m1 m2 xs -> (forall y, y ∈ xs -> m2' !! y = m2 !! y) ->
  changed_in x k e e' m1 m2' xs.
Proof. intros H E y Hy. specialize (H y Hy). by rewrite (E y Hy). Qed.

(** The file is in place once its entry and its data are stored. *)
Lemma written_ok f s s2 s4 dl name old l text len x k b e e' b' (o := sc_out (search f (disk s) dl name)) :
  file_system f s dl -> occupies f s dl o old -> slot_ok f s dl name o x k b e -> replaced f s old l s2 ->
  take 12 e' = take 12 e -> head l = Some (entry_clus e') -> entry_size e' = len ->
  changed k (entry_of b k) e' b b' -> ready f s4 ->
  disk s4 = fill (chain_sectors f l) (take (Z.to_nat len) text) (<[x := b']> (disk s2)) ->
  0 < len <= Z.of_nat (length text) -> len <= 512 * Z.of_nat (length (chain_sectors f l)) ->
  written f s dl name text len old l s4.
Proof.
  intros Hf Ho Hso Hrp Ht Hh Hsz Hch Hr4 Hd4 Hlen Hcap. pose proof (rd_geometry f s4 Hr4) as Hg.
  pose proof (rd_fs f s (fsy_ready f s dl Hf)) as E. pose proof (rd_fs f s4 Hr4) as E4.
  assert (Hdl : forall c, c ∈ dl -> 2 <= c < clusters f /\ ~ available s old c).
  { intros c Hc. split; [eapply chain_in; [apply (fsy_dir f s dl Hf)|done]|by eapply occupies_out]. }
  pose proof (dr_chain _ _ _ (fsy_dir f s dl Hf)) as Hdch.
  assert (Hxout : ~ in_fat f x) by (eapply chain_sectors_out; [done|exact Hdch|apply Hso]).
  assert (T3 : touched f (available s old) [] (<[x := b']> (disk s2)) (disk s4)) by (rewrite Hd4; apply touched_fill; [done|apply Hrp]).
  assert (T4 : touched f (available s old) [x] (disk s) (disk s4)).
  { eapply touched_trans; [eapply touched_more; [|apply Hrp]; by intros y ?%elem_of_nil|].
    eapply touched_trans; [by apply touched_write|]. eapply touched_more; [|exact T3]. by intros y ?%elem_of_nil. }
  assert (Hin : forall y, y ∈ chain_sectors f dl -> disk s2 !! y = disk s !! y).
  { intros y Hy. eapply (touched_sectors f Hg _ [] dl); [apply Hrp|done|done|apply not_elem_of_nil]. }
  assert (Hchg : changed_in x k (entry_of b k) e' (disk s) (disk s4) (chain_sectors f dl)).
  { apply (changed_in_ext _ _ _ _ _ (<[x := b']> (disk s))).
    - by apply (changed_in_insert _ _ _ _ _ b b'); [apply Hso|].
    - intros y Hy. rewrite (touched_sectors f Hg _ [] dl _ _ y T3 Hdl Hy (not_elem_of_nil y)).
      destruct (decide (y = x)) as [->|]; [by rewrite !lookup_insert_eq|by rewrite !lookup_insert_ne, Hin]. }
  pose proof (so_search _ _ _ _ _ _ _ _ _ Hso (disk s4) e' Ht Hchg) as (H1 & H2 & H3).
  pose proof (rp_new _ _ _ _ _ Hrp) as Hnew. pose proof (rp_chain _ _ _ _ _ Hrp) as Hrch. rewrite (rd_fs f s2 (rp_ready _ _ _ _ _ Hrp)) in Hrch.
  split; [by eapply file_system_touched|exists x; split; [apply Hso|done]|done| | |done|by rewrite H2|by rewrite H3|].
  - rewrite E4. eapply chain_ext; [|exact Hrch]. intros c Hc. destruct (Hnew c Hc) as [Hcr _].
    rewrite Hd4, fill_table by (done || lia || (intros y Hy; by apply Hnew)). apply fat_entry_write; [done|done|lia].
  - eapply touched_backed; [done|exact T4|intros y Hy; by eapply chain_sectors_out|].
    intros y (c & Hy & Hc)%list_elem_of_bind. destruct (Hnew c Hc). by apply (available_backed f s dl o old c).
  - unfold chain_bytes. rewrite Hd4.
    pose proof (bytes_of_fill (chain_sectors f l) (take (Z.to_nat len) text) (<[x := b']> (disk s2))
      (chain_sectors_NoDup f l Hg (chain_NoDup f _ l Hg Hrch)) ltac:(rewrite length_take; lia)) as Eb.
    rewrite length_take, Nat.min_l in Eb by lia. exact Eb.
Qed.

Lemma wp_place s (o : DirSlot) p (Q : option (Z * Z) -> fstate D -> Prop) :
  ds_found o = true \/ ds_has_free o = true ->
  (if ds_found o then (ds_sector o, ds_offset o) else (ds_free_sector o, ds_free_offset o)) = p -> Q (Some p) s ->
  wp (if ds_found o then ret (Some (ds_sector o, ds_offset o)) else entry_place o) Q s.
Proof.
  intros Ho <- HQ. unfold entry_place. destruct (ds_found o); [by wp_struct|]. destruct Ho as [Ho|Ho]; [done|]. rewrite Ho. by wp_struct.
Qed.

(** Storing the entry and the data of a file whose chain has been allocated. *)
Lemma wp_store_file f s s4 dl name text len old l x k b e (o := sc_out (search f (disk s) dl name)) (Q : bool -> fstate D -> Prop) :
  file_system f s dl -> occupies f s dl o old -> slot_ok f s dl name o x k b e -> replaced f s old l s4 ->
  Z.of_nat (length l) = clusters_for f len -> 0 < len <= 2 ^ 25 -> len <= Z.of_nat (length text) ->
  (forall s', written f s dl name text len old l s' -> Q true s') ->
  wp (let new_clus := default 0 (head l) in
      if (0 <? len) && (new_clus =? 0) then ret false
      else
        let* entry := from_option_M (put_clus e new_clus) in
        let* entry := from_option_M (put_bytes entry 28 (le32 len)) in
        let* buf' := from_option_M (put_bytes b (32 * Z.of_nat k) entry) in
        let* ok := write_blocks x buf' in
        if negb ok then ret false
        else if 0 <? len then write_chain_data new_clus text len
        else ret true) Q s4.
Proof.
  intros Hf Ho Hso Hrp Hll Hl Hlt HQ. cbv zeta. pose proof (fsy_ready f s dl Hf) as Hr. pose proof (rd_geometry f s Hr) as Hg.
  pose proof (clusters_for_bound f len Hg Hl) as (Hn1 & Hn2 & _).
  set (c0 := default 0 (head l)). pose proof (rp_chain _ _ _ _ _ Hrp) as Hrch.
  assert (Hh : head l = Some c0) by (by destruct l). assert (Hc0 : c0 ∈ l) by (destruct l; [done|left]).
  destruct (rp_new _ _ _ _ _ Hrp c0 Hc0) as [Hc0r _]. pose proof (clusters_bound f Hg) as Hcb. unfold FAT32_EOC in Hcb.
  rewrite (proj2 (Z.ltb_lt 0 len)), (proj2 (Z.eqb_neq c0 0)) by lia. cbn [andb].
  destruct (put_fields e c0 len) as (e1 & e2 & E1 & E2 & El & Et & Ec & Esz); [apply Hso|lia|lia|].
  wp_struct. eapply wp_from_option; [exact E1|]. wp_struct. eapply wp_from_option; [exact E2|].
  destruct (store_entry b k e2) as (b' & Eb' & Elb & Hchg); [apply Hso|apply Hso|done|].
  wp_struct. eapply wp_from_option; [exact Eb'|].
  assert (Hdl : forall c, c ∈ dl -> 2 <= c < clusters f /\ ~ available s old c).
  { intros c Hc. split; [eapply chain_in; [apply (fsy_dir f s dl Hf)|done]|by eapply occupies_out]. }
  assert (Ex : disk s4 !! x = Some b).
  { rewrite <- (so_sector _ _ _ _ _ _ _ _ _ Hso). eapply (touched_sectors f Hg _ [] dl); [apply Hrp|done|apply Hso|apply not_elem_of_nil]. }
  wp_struct. eapply wp_write_blocks; [exact Ex|exact Elb|]. intros s5 Hf5 Hd5. cbn [negb].
  assert (Hxout : ~ in_fat f x) by (eapply chain_sectors_out; [done|apply (fsy_dir f s dl Hf)|apply Hso]).
  pose proof (rp_ready _ _ _ _ _ Hrp) as Hr4.
  assert (Hr5 : ready f s5) by (eapply ready_write; [exact Hr4|exact Hxout|by eexists|exact Elb|done|done]).
  pose proof (chain_sectors_length f l Hg) as Hcs. pose proof (fg_spc f Hg).
  apply (wp_write_chain_data f s5 l); [done| | |lia|nia|].
  - rewrite (rd_fs f s5 Hr5), Hd5. apply chain_write; [done|done|]. by rewrite (rd_fs f s4 Hr4) in Hrch.
  - rewrite Hd5. apply backed_insert; [|done]. eapply touched_backed; [done|apply Hrp| |].
    + intros y Hy. eapply chain_sectors_out; [done|exact Hrch|exact Hy].
    + intros y (c & Hy & Hc)%list_elem_of_bind. destruct (rp_new _ _ _ _ _ Hrp c Hc). by apply (available_backed f s dl o old c).
  - intros s6 Hr6 Hd6. apply HQ. rewrite Hd5 in Hd6.
    eapply (written_ok f s s4 s6); [done|done|exact Hso|done|exact Et|by rewrite Ec|done|exact Hchg|done|done|lia|nia].
Qed.

(** A write either puts the whole file in place or, when too few clusters are
    available, answers false. *)
Lemma wp_write_file f s dl name text len old (o := sc_out (search f (disk s) dl name)) (Q : bool -> fstate D -> Prop) :
  file_system f s dl -> plain_name name -> occupies f s dl o old ->
  ds_found o = true \/ ds_has_free o = true /\ no_long (disk s) (chain_sectors f dl) ->
  0 < len <= 2 ^ 25 -> len <= Z.of_nat (length text) ->
  (forall l s', written f s dl name text len old l s' -> Q true s') ->
  (forall s', file_system f s' dl -> touched f (available s old) [] (disk s) (disk s') ->
     too_few f s old (clusters_for f len) -> Q false s') ->
  wp (fat32_write_file name text len) Q s.
Proof.
  intros Hf Hn Ho Hslot Hl Hlt Hok Hfull. pose proof (fsy_ready f s dl Hf) as Hr. pose proof (rd_geometry f s Hr) as Hg.
  destruct (slot_at f s dl name Hf Hn Hslot) as (x & k & b & e & Hso & Epl). fold o in Hso, Epl.
  unfold fat32_write_file. wp_struct. apply (wp_lookup f s dl); [done|done|]. wp_struct. wp_struct. rewrite (rd_fs f s Hr).
  wp_struct. apply (wp_dir_scan_cwd f s dl); [done|]. intros s1 Hr1 Hs1. fold o. pose proof Hs1 as [Hf1 Hd1].
  wp_struct. eapply wp_place; [tauto|exact Epl|]. cbv beta iota. wp_struct. apply wp_read_blocks. intros s2 Hs2. pose proof Hs2 as [Hf2 Hd2].
  rewrite Hd1, (so_sector _ _ _ _ _ _ _ _ _ Hso). wp_struct. eapply wp_from_option; [apply Hso|].
  assert (Es : same s s2) by (by transitivity s1). pose proof (ready_same f s s2 Hr Es) as Hr2. destruct Es as [Ef Ed].
  assert (Ho2 : occupies f s2 dl o old) by (unfold occupies in *; by rewrite Ef, Ed).
  wp_struct. apply (wp_free_old f s2 dl o old); [done|done|]. intros s3 Hr3 Hu3 Hx3. rewrite Ed in Hu3, Hx3.
  rewrite (fg_bps f Hg). wp_struct. apply (wp_replace f s s3 dl o old len); [done..| |].
  - intros l s4 Hrp Hll.
    apply (wp_store_file f s s4 dl name text len old l x k b e); try done. intros s5. apply Hok.
  - intros s4 Hr4 Ht Hfew. rewrite (proj2 (Z.ltb_lt 0 len)), Z.eqb_refl by lia. cbn [andb]. wp_struct. apply Hfull; [|done|done].
    by eapply file_system_touched.
Qed.
End File.
