(* ===== verification/FatThm.v ===== *)
(** * Theorems on the FAT32 file system: the table and the data of chains

    Stated for any [ReliableDevice], applied to a disk in memory.  The disk of
    the examples has one sector per cluster and two copies of a table of one
    sector; its root directory is cluster 2. *)
From Stdlib Require Import ZArith Lia.
From stdpp Require Import base list option gmap.
From S2P Require Import Prelude Bytes Fat32 FatTable FatChain FatData FatDir FatFile.
#[local] Open Scope Z_scope.

(** ** A disk in memory *)
Definition valid_sectors (m : gmap Z (list Z)) : gmap Z (list Z) := filter (fun xb => length xb.2 = 512%nat) m.

Definition mem_write (x : Z) (b : list Z) (m : gmap Z (list Z)) : bool * gmap Z (list Z) :=
  match valid_sectors m !! x with
  | Some _ => if bool_decide (length b = 512%nat) then (true, <[x := b]> m) else (true, m)
  | None => (false, m)
  end.

#[global] Instance mem_device : BlockDevice (gmap Z (list Z)) := {|
  block_read x m := (valid_sectors m !! x, m);
  block_write := mem_write
|}.

#[global] Program Instance mem_reliable : ReliableDevice (gmap Z (list Z)) := {| content := valid_sectors |}.
Next Obligation. intros d x b [_ H]%map_lookup_filter_Some. exact H. Qed.
Next Obligation. intros d x. by exists d. Qed.
Next Obligation.
  intros d x old b Ho Hb. cbn. unfold mem_write. rewrite Ho, bool_decide_true by done.
  eexists. split; [done|]. unfold valid_sectors. by rewrite map_filter_insert_True.
Qed.
Next Obligation. intros d x b H. cbn. unfold mem_write. rewrite H. by exists d. Qed.

Section Theorems.
Context {D : Type} `{RD : ReliableDevice D}.
Implicit Types s : fstate D.
Notation T s := (fat_entry (fs s) (disk s)).

(** C20: The tortoise and the hare decide endless chains: on any disk, however
    damaged, the check of a chain ends within its bound, leaves the disk as it
    is, and answers whether following the table from the cluster goes on for
    ever. *)
Theorem fat_chain_has_cycle_spec s start :
  bytes_per_sector (fs s) = 512 ->
  wp (fat_chain_has_cycle start) (fun b s' =>
    same s s' /\ (b = true <-> 2 <= start /\ forall n, cluster_has_next (T s (Nat.iter n (T s) start)) = true)) s.
Proof. intros Hb. apply wp_fat_chain_has_cycle; [done|]. by intros b s' Hs Hc. Qed.



(** C18: What is written to a chain is what is read back, at any offset and in
    any piece of at most one page, however the clusters of the chain are
    scattered over the disk; sectors outside the chain keep their content. *)
Theorem write_read_chain s c l data len offset max :
  ready (fs s) s -> chain (fs s) (T s) (c :: l) -> backed (disk s) (chain_sectors (fs s) (c :: l)) ->
  0 <= len <= Z.of_nat (length data) -> len <= 512 * sectors_per_cluster (fs s) * Z.of_nat (length (c :: l)) ->
  0 <= offset -> 0 <= max <= 4096 -> offset + max <= len ->
  wp (let* ok := write_chain_data c data len in
      let* bs := read_chain_data c offset max in ret (ok, bs)) (fun r s' =>
    r = (true, take (Z.to_nat max) (drop (Z.to_nat offset) data)) /\
    forall x, x ∉ chain_sectors (fs s) (c :: l) -> disk s' !! x = disk s !! x) s.
Proof.
  intros Hr Hch Hb Hlen Hcap Ho Hm Hom. pose proof (rd_geometry _ _ Hr) as Hg. pose proof (fg_spc _ Hg).
  pose proof (chain_sectors_length (fs s) (c :: l) Hg) as Hl.
  wp_struct. apply (wp_write_chain_data (fs s) s (c :: l)); [done|done|done|done|lia|].
  intros s1 Hr1 Hd1. wp_struct. apply (wp_read_chain_data (fs s) s1 (c :: l)); [done| | |done|lia|].
  - eapply chain_ext; [|exact Hch]. intros y Hy. pose proof (chain_in _ _ _ y Hch Hy) as Hyr. pose proof (fg_cnt _ Hg).
    rewrite (rd_fs _ _ Hr1), Hd1, !fat_entry_copy, !copy_entry_at by (done || lia).
    rewrite fill_notin; [done|]. intros Hin. eapply chain_sectors_out; [done|exact Hch|exact Hin|].
    apply entry_sector_in; [done|lia|lia].
  - intros x Hx. rewrite Hd1. destruct (Hb x Hx) as (b & Hxb & _).
    destruct (fill_some (chain_sectors (fs s) (c :: l)) (take (Z.to_nat len) data) (disk s) x (ltac:(by eexists))) as [b' Hb'].
    exists b'. split; [done|]. eapply fill_512; [|exact Hb']. apply (rd_present _ _ Hr).
  - intros s2 Hr2 [Hf2 Hd2]. wp_struct. split; [|intros x Hx; by rewrite Hd2, Hd1, fill_notin].
    f_equal. unfold chain_bytes. rewrite Hd1.
    pose proof (bytes_of_fill (chain_sectors (fs s) (c :: l)) (take (Z.to_nat len) data) (disk s)
      (chain_sectors_NoDup _ _ Hg (chain_NoDup _ _ _ Hg Hch)) ltac:(rewrite length_take; lia)) as E.
    rewrite length_take, Nat.min_l in E by lia. unfold FAT32_MAX_IO_CHUNK. rewrite Z.min_l by lia.
    apply (f_equal (fun ys => take (Z.to_nat max) (drop (Z.to_nat offset) ys))) in E.
    rewrite !skipn_firstn_comm, !take_take in E. by rewrite !Nat.min_l in E by lia.
Qed.

(** C17: A whole file in the current directory, whose clusters are [dl]: after
    [fat32_write_file] has answered true, reading the file at any offset
    answers the text that was written, a page at a time.  This is for a name of
    one component, of 1 to 63 characters and not starting with the deleted
    mark, which either names an entry of the directory, with the clusters [old]
    of the file it had (none, or a chain of at most 65536 clusters apart from
    the directory's), or is new, and then the directory has a free entry and no
    long names; for a device that holds the sectors of the table, of these
    clusters and of the free ones; and for a text of at least [len] bytes with
    0 < len <= 2^25.  Under these conditions false is answered only when the
    free clusters and those of [old] together are too few; the directory is
    then as before, so its entry still names the clusters of [old], which may
    have been freed.  Either way the geometry of the file system, the copies of
    the table and the chain of the directory stay well formed ([file_system]
    says nothing of the chains that entries name), and every other file, with
    clusters in neither [dl] nor [old], keeps its chain and its content. *)
Theorem write_read_file s dl name text len old offset (o := sc_out (search (fs s) (disk s) dl name)) :
  file_system (fs s) s dl -> plain_name name -> occupies (fs s) s dl o old ->
  ds_found o = true \/ ds_has_free o = true /\ no_long (disk s) (chain_sectors (fs s) dl) ->
  0 < len <= 2 ^ 25 -> len <= Z.of_nat (length text) -> 0 <= offset < len ->
  wp (let* ok := fat32_write_file name text len in
      let* r := (if (ok : bool) then fat32_read_file name offset else ret (false, [])) in ret (ok, r)) (fun '(ok, r) s' =>
    file_system (fs s) s' dl /\
    (ok = true /\ r = (true, take (Z.to_nat (Z.min 4096 (len - offset))) (drop (Z.to_nat offset) text)) \/
     ok = false /\ too_few (fs s) s old (clusters_for (fs s) len) /\
       forall x, x ∈ chain_sectors (fs s) dl -> disk s' !! x = disk s !! x) /\
    forall l, chain (fs s) (T s) l -> (forall c, c ∈ l -> c ∉ dl /\ c ∉ old /\ T s c <> 0) ->
      chain (fs s) (T s') l /\ chain_bytes (fs s) (disk s') l = chain_bytes (fs s) (disk s) l) s.
Proof.
  set (f := fs s) in *. intros Hf Hn Ho Hslot Hl Hlt Hoff. pose proof (rd_geometry f s (fsy_ready f s dl Hf)) as Hg.
  assert (Hother : forall s' xs, ready f s' -> touched f (available s old) xs (disk s) (disk s') ->
    (forall x, x ∈ xs -> x ∈ chain_sectors f dl) -> forall l, chain f (T s) l -> (forall c, c ∈ l -> c ∉ dl /\ c ∉ old /\ T s c <> 0) ->
      chain f (T s') l /\ chain_bytes f (disk s') l = chain_bytes f (disk s) l).
  { intros s' xs Hr' Ht Hxs l Hch Hc. rewrite (rd_fs f s' Hr').
    assert (Hw : forall c, c ∈ l -> 2 <= c < clusters f /\ ~ available s old c).
    { intros c Hin. destruct (Hc c Hin) as (_ & H1 & H2). split; [by eapply chain_in|]. by intros [?|?]. }
    split; [by eapply touched_chain; [exact Ht|intros c Hin; by apply Hw|]|]. apply (touched_bytes f Hg (available s old) xs); [done|done|].
    intros x Hx (c & Hin & Hcl)%list_elem_of_bind. apply Hxs in Hx as (c' & Hin' & Hdl)%list_elem_of_bind.
    rewrite (cluster_sectors_disjoint f c c' x Hg Hin Hin') in Hcl. by destruct (Hc c' Hcl). }
  wp_struct. apply (wp_write_file f s dl name text len old); [done..| |].
  - intros l s1 [Hf1 (x & Hx & Ht) _ Hch Hb Hfound Hh Hsz Hby]. wp_struct.
    assert (Hlen : len <= Z.of_nat (length (chain_bytes f (disk s1) l))).
    { apply (f_equal length) in Hby. rewrite !length_take in Hby. lia. }
    apply (wp_read_file f s1 dl name l offset); rewrite ?Hsz; [done..|]. intros s2 Hr2 [Hf2 Hd2]. wp_struct.
    split_and!; [by eapply file_system_same| |by apply (Hother s2 [x]); [done|rewrite Hd2|set_solver]].
    left. split; [done|]. f_equal. apply (f_equal (fun ys => take (Z.to_nat (Z.min 4096 (len - offset))) (drop (Z.to_nat offset) ys))) in Hby.
    rewrite !skipn_firstn_comm, !take_take in Hby. by rewrite !Nat.min_l in Hby by lia.
  - intros s1 Hf1 Ht Hfew. wp_struct. wp_struct. split_and!; [done| |].
    + right. split_and!; [done|done|]. intros x Hx. eapply (touched_sectors f Hg (available s old) [] dl); [exact Ht| |exact Hx|by intros ?%elem_of_nil].
      intros c Hc. split; [eapply chain_in; [apply (dr_chain _ _ _ (fsy_dir _ _ _ Hf))|exact Hc]|by eapply occupies_out].
    + apply (Hother s1 []); [apply Hf1|done|]. by intros x ?%elem_of_nil.
Qed.
End Theorems.

(** ** A concrete disk

    Cluster 2 is the root directory; 3, 5 and 4 are one file, in that order;
    6 and 7 form a cycle; 8 to 17 are free; the rest of the table is marked
    bad, as the device ends there. *)
Definition ex_fs : FAT32_Instance := mk_fat32 512 1 1 2 1 2 2 3.
Definition ex_table : list Z :=
  ([0x0FFFFFF8; 0x0FFFFFFF; 0x0FFFFFFF; 5; 0x0FFFFFFF; 4; 7; 6] ++ replicate 10 0 ++ replicate 110 0x0FFFFFF7) ≫= le32.
Definition ex_sector (v : Z) : list Z := replicate 512 v.
Definition ex_disk : gmap Z (list Z) :=
  <[0 := ex_sector 0]> (<[1 := ex_table]> (<[2 := ex_table]>
    (list_to_map ((fun x => (x, ex_sector 0)) <$> seqZ 3 16)))).
Definition s_ex : fstate (gmap Z (list Z)) := mk_fstate ex_fs ex_disk.

Lemma ex_geometry : fat_geometry ex_fs.
Proof. by split. Qed.

Lemma s_ex_ready : ready ex_fs s_ex.
Proof.
  split; [done|exact ex_geometry|]. split.
  - assert (H : Forall (fun x => is_Some (disk s_ex !! x)) (seqZ 1 2)) by (apply (bool_decide_unpack _); vm_compute; exact I).
    intros x [H1 H2]. cbn in H1, H2. rewrite Forall_forall in H. apply H, elem_of_seqZ. lia.
  - intros x b [_ H]%map_lookup_filter_Some. exact H.
Qed.

Lemma ex_chain : chain ex_fs (fat_entry (fs s_ex) (disk s_ex)) [3; 5; 4].
Proof. vm_compute. repeat split; congruence. Qed.

Lemma ex_backed : backed (disk s_ex) (chain_sectors ex_fs [3; 5; 4]).
Proof.
  assert (H : Forall (fun x => is_Some (disk s_ex !! x)) (chain_sectors ex_fs [3; 5; 4])) by (apply (bool_decide_unpack _); vm_compute; exact I).
  intros x Hx. rewrite Forall_forall in H. destruct (H x Hx) as [b Hb]. exists b. split; [exact Hb|].
  by eapply content_length.
Qed.

(** The cycle is found, the file's chain is not one. *)
Example ex_cycles : (fst <$> fat_chain_has_cycle 6 s_ex, fst <$> fat_chain_has_cycle 3 s_ex) = (Some true, Some false).
Proof. vm_compute. reflexivity. Qed.

Lemma fat_chain_has_cycle_spec_witness :
  bytes_per_sector (fs s_ex) = 512 /\ wp (fat_chain_has_cycle 6) (fun b s' => same s_ex s' /\
    (b = true <-> 2 <= 6 /\ forall n, cluster_has_next (fat_entry ex_fs (disk s_ex) (Nat.iter n (fat_entry ex_fs (disk s_ex)) 6)) = true)) s_ex.
Proof. split; [reflexivity|]. apply (fat_chain_has_cycle_spec s_ex 6). reflexivity. Defined.



Definition ex_text : list Z := Z.modulo 97 <$> seqZ 1 1100.

Lemma write_read_chain_witness :
  ready ex_fs s_ex /\ wp (let* ok := write_chain_data 3 ex_text 1100 in let* bs := read_chain_data 3 500 600 in ret (ok, bs))
    (fun r _ => r = (true, take 600 (drop 500 ex_text))) s_ex.
Proof.
  split; [exact s_ex_ready|]. eapply wp_mono.
  - apply (write_read_chain s_ex 3 [5; 4] ex_text 1100 500 600 s_ex_ready ex_chain ex_backed); vm_compute; repeat split; congruence.
  - intros r s' [H _]. exact H.
Defined.

Lemma ex_all_backed (xs : list Z) : forallb (fun x => (3 <=? x) && (x <? 19)) xs = true -> backed (disk s_ex) xs.
Proof.
  intros H x Hx. rewrite List.forallb_forall in H. assert (Hd : Forall (fun y => is_Some (disk s_ex !! y)) (seqZ 3 16))
    by (apply (bool_decide_unpack _); vm_compute; exact I).
  rewrite Forall_forall in Hd. apply list_elem_of_In, H, andb_true_iff in Hx as [H1 H2].
  destruct (Hd x) as [b Hb]; [apply elem_of_seqZ; lia|]. exists b. split; [done|by eapply content_length].
Qed.

Lemma ex_file_system : file_system ex_fs s_ex [2].
Proof.
  split; [exact s_ex_ready| |reflexivity|].
  - split; [vm_compute; repeat split; congruence|cbn; lia| |apply ex_all_backed; reflexivity].
    intros c ->%list_elem_of_singleton. vm_compute. congruence.
  - assert (H : forallb (fun c => if fat_entry ex_fs (disk s_ex) c =? 0 then c <? 18 else true) (seqZ 2 126) = true) by (vm_compute; reflexivity).
    intros c Hc Hz. rewrite List.forallb_forall in H. assert (Hin : c ∈ seqZ 2 126) by (apply elem_of_seqZ; change (clusters ex_fs) with 128 in Hc; lia).
    apply list_elem_of_In, H in Hin. change (fs s_ex) with ex_fs in Hz. cbv beta in Hin. rewrite Hz, Z.eqb_refl in Hin. apply Z.ltb_lt in Hin.
    apply ex_all_backed, List.forallb_forall. intros x Hx%list_elem_of_In.
    apply (in_cluster_sectors ex_fs c x ex_geometry) in Hx as (i & Hi & ->).
    change (sectors_per_cluster ex_fs) with 1 in *. change (data_start_sector ex_fs) with 3.
    apply andb_true_iff. rewrite Z.leb_le, Z.ltb_lt. lia.
Qed.

(** A file [F] of 1100 bytes in the empty root directory. *)
Definition ex_name : list Z := [70].

Lemma ex_no_long : no_long (disk s_ex) (chain_sectors ex_fs [2]).
Proof.
  assert (H : Forall (fun j => byte (entry_of (default [] (disk s_ex !! 3)) j) 11 <> 0x0F) (seq 0 16))
    by (apply (bool_decide_unpack _); vm_compute; exact I).
  intros y j Hy Hj. rewrite Forall_forall in H. apply list_elem_of_singleton in Hy as ->. apply H, elem_of_seq. lia.
Qed.

Lemma write_read_file_witness :
  file_system ex_fs s_ex [2] /\
  wp (let* ok := fat32_write_file ex_name ex_text 1100 in
      let* r := (if (ok : bool) then fat32_read_file ex_name 500 else ret (false, [])) in ret (ok, r))
    (fun '(ok, r) _ => ok = true -> r = (true, take 600 (drop 500 ex_text))) s_ex.
Proof.
  split; [exact ex_file_system|]. eapply wp_mono.
  - apply (write_read_file s_ex [2] ex_name ex_text 1100 [] 500 ex_file_system).
    + split_and!; [discriminate|cbn; lia|repeat constructor; lia|discriminate].
    + left. split; [reflexivity|left; vm_compute; reflexivity].
    + right. split; [vm_compute; reflexivity|exact ex_no_long].
    + lia.
    + vm_compute. congruence.
    + lia.
  - intros [ok r] s' (_ & [[_ H]|[H _]] & _) Hok; [exact H|congruence].
Defined.

(** ** Runs on the concrete disk *)

(** The write of the witness succeeds, and the whole file is read back in the
    three clusters that were free first. *)
Example ex_file_run :
  (let* ok := fat32_write_file ex_name ex_text 1100 in let* r := fat32_read_file ex_name 0 in ret (ok, r)) s_ex
  ≫= (fun '((ok, r), s') => Some (ok, bool_decide (r = (true, ex_text)),
        Nat.iter 2 (fat_entry ex_fs (disk s')) (ds_clus (sc_out (search ex_fs (disk s') [2] ex_name)))))
  = Some (true, true, 10).
Proof. vm_compute. reflexivity. Qed.

(** Names are stored by their short form alone: a second file whose name has
    the same first eight characters and the same extension replaces the
    first. *)
Definition name_doc1 : list Z := [100; 111; 99; 117; 109; 101; 110; 116; 49; 46; 116; 120; 116].
Definition name_doc2 : list Z := [100; 111; 99; 117; 109; 101; 110; 116; 50; 46; 116; 120; 116].

Example short_names_collide :
  fst <$> (let* ok1 := fat32_write_file name_doc1 [1; 1; 1] 3 in
           let* ok2 := fat32_write_file name_doc2 [2; 2; 2] 3 in
           let* r := fat32_read_file name_doc1 0 in ret (ok1, ok2, r)) s_ex
  = Some (true, true, (true, [2; 2; 2])).
Proof. vm_compute. reflexivity. Qed.

(** A write that finds the disk full has already freed the old clusters, but
    the entry still names them: the next file to be written takes them, and
    the first file then reads as that one. *)
Example full_disk_shares_clusters :
  fst <$> (let* ok1 := fat32_write_file ex_name [1; 1; 1] 3 in
           let* full := fat32_write_file ex_name [] 6000 in
           let* ok2 := fat32_write_file [71] [2; 2; 2] 3 in
           let* r := fat32_read_file ex_name 0 in ret (ok1, full, ok2, r)) s_ex
  = Some (true, false, true, (true, [2; 2; 2])).
Proof. vm_compute. reflexivity. Qed.

(** A directory of clusters 2 and 8 in which the long name [longname] ends the
    first sector and its entry starts the second one; fifteen other files fill
    the first sector. *)
Definition name_long : list Z := [108; 111; 110; 103; 110; 97; 109; 101].
Definition lfn_of (name : list Z) : list Z :=
  let c k := default 0 (name !! k) in
  [0x41; c 0%nat; 0; c 1%nat; 0; c 2%nat; 0; c 3%nat; 0; c 4%nat; 0; 0x0F; 0; 0; c 5%nat; 0; c 6%nat; 0; c 7%nat; 0; 0; 0] ++ replicate 10 0xFF.
Definition short_entry (name : list Z) : list Z := name ++ replicate (11 - length name) 32 ++ [0x20] ++ replicate 20 0.
Definition orphan_table : list Z :=
  ([0x0FFFFFF8; 0x0FFFFFFF; 8; 0x0FFFFFFF; 0x0FFFFFFF; 0x0FFFFFFF; 0x0FFFFFFF; 0x0FFFFFFF; 0x0FFFFFFF] ++ replicate 9 0 ++ replicate 110 0x0FFFFFF7) ≫= le32.
Definition s_orphan : fstate (gmap Z (list Z)) :=
  mk_fstate ex_fs (<[1 := orphan_table]> (<[2 := orphan_table]>
    (<[3 := (seqZ 0 15 ≫= fun k => short_entry [65; 65 + k]) ++ lfn_of name_long]> (<[9 := short_entry [76; 79; 78; 71; 126; 49] ++ replicate 480 0]> ex_disk)))).

(** Deleting that file leaves its long name behind, as it lies in another
    sector than the entry; the next file created takes the free entry, and the
    name it was created with no longer finds it. *)
Example orphan_hides_file :
  fst <$> (let* r1 := fat32_delete_file name_long in
           let* ok := fat32_write_file [66] [1; 1; 1] 3 in
           let* r := fat32_read_file [66] 0 in ret (r1, ok, r)) s_orphan
  = Some (true, true, (false, [])).
Proof. vm_compute. reflexivity. Qed.
