(* ===== verification/Boot.v ===== *)
(** * Memory at boot

    The part of the boot code that divides the physical memory: the regions
    the kernel keeps for itself, the free memory, the objects of the root
    server, and the untyped capabilities that the root server gets for all the
    rest (kernel/boot.c).  The constants that the build generates for a
    platform, and the addresses the linker chooses, are the fields of the class
    [BootPlatform].  Arrays have their declared length: an access outside one
    is [fail]. *)
From S2P Require Import Prelude Bytes Structures CapOps VSpace Sched Mdb Untyped.
From stdpp Require Import base list gmap.
#[local] Open Scope Z_scope.

(** ** Regions *)
Record region : Type := mk_region { r_start : Z; r_end : Z }.

#[export] Instance region_eq_dec : EqDecision region.
Proof. solve_decision. Defined.

Definition REG_EMPTY : region := mk_region 0 0.
Definition is_reg_empty (reg : region) : bool := r_start reg =? r_end reg.

Definition PPTR_TOP : Z := 0xffffffffc0000000.
Definition PADDR_TOP : Z := PPTR_TOP - PPTR_BASE_OFFSET.
Definition paddr_to_pptr_reg (r : region) : region := mk_region (ptrFromPAddr (r_start r)) (ptrFromPAddr (r_end r)).
Definition pptr_to_paddr_reg (r : region) : region := mk_region (addrFromPPtr (r_start r)) (addrFromPPtr (r_end r)).

Definition seL4_BootInfoFrameBits : Z := seL4_PageBits.
Definition seL4_NumInitialCaps : Z := 16.
Definition seL4_CapInitThreadCNode : Z := 2.
Definition seL4_CapDomain : Z := 11.

Definition ROUND_UP (n b : Z) : Z := wshl (wadd (Z.shiftr (wsub n 1) b) 1) b.
Definition IS_ALIGNED (n b : Z) : bool := Z.land n (MASK b) =? 0.

(** Trailing zeros of a nonzero word. *)
Fixpoint ctz_pos (p : positive) : Z := match p with xO q => 1 + ctz_pos q | _ => 0 end.
Definition ctzl (x : Z) : Z := match x with Zpos p => ctz_pos p | _ => 0 end.

(** ** State *)
Record untyped_desc : Type := mk_desc { ud_paddr : Z; ud_sizeBits : Z; ud_isDevice : bool }.

Record rootserver_mem_t : Type := mk_rootserver {
  rs_cnode : Z; rs_vspace : Z; rs_asid_pool : Z; rs_ipc_buf : Z; rs_boot_info : Z; rs_extra_bi : Z; rs_tcb : Z;
  rs_paging : region
}.

Record boot_info_t : Type := mk_bi {
  bi_nodeID : Z; bi_numNodes : Z; bi_ipcBuffer : Z; bi_extraLen : Z;
  bi_untyped : region; bi_empty : region;
  bi_untypedList : gmap Z untyped_desc
}.

(** [boot_slots] are the capability slots written, [boot_zeroed] the memory
    that has been cleared. *)
Record ndks_boot_t : Type := mk_boot_state {
  reserved : list region;
  resv_count : Z;
  freemem : list region;
  slot_pos_cur : Z;
  bi_frame : boot_info_t;
  rootserver_mem : region;
  rootserver : rootserver_mem_t;
  boot_slots : gmap Z cte;
  boot_zeroed : list region
}.

Definition eta_boot_state (r : ndks_boot_t) : ndks_boot_t := mk_boot_state
  (reserved r) (resv_count r) (freemem r) (slot_pos_cur r) (bi_frame r) (rootserver_mem r) (rootserver r)
  (boot_slots r) (boot_zeroed r).

Definition set_reserved : (list region -> list region) -> ndks_boot_t -> ndks_boot_t := ltac:(mk_setter eta_boot_state reserved).
Definition set_resv_count : (Z -> Z) -> ndks_boot_t -> ndks_boot_t := ltac:(mk_setter eta_boot_state resv_count).
Definition set_freemem : (list region -> list region) -> ndks_boot_t -> ndks_boot_t := ltac:(mk_setter eta_boot_state freemem).
Definition set_slot_pos_cur : (Z -> Z) -> ndks_boot_t -> ndks_boot_t := ltac:(mk_setter eta_boot_state slot_pos_cur).
Definition set_bi_frame : (boot_info_t -> boot_info_t) -> ndks_boot_t -> ndks_boot_t := ltac:(mk_setter eta_boot_state bi_frame).
Definition set_rootserver_mem : (region -> region) -> ndks_boot_t -> ndks_boot_t := ltac:(mk_setter eta_boot_state rootserver_mem).
Definition set_rootserver : (rootserver_mem_t -> rootserver_mem_t) -> ndks_boot_t -> ndks_boot_t := ltac:(mk_setter eta_boot_state rootserver).
Definition set_boot_slots : (gmap Z cte -> gmap Z cte) -> ndks_boot_t -> ndks_boot_t := ltac:(mk_setter eta_boot_state boot_slots).
Definition set_boot_zeroed : (list region -> list region) -> ndks_boot_t -> ndks_boot_t := ltac:(mk_setter eta_boot_state boot_zeroed).

Definition eta_rootserver (r : rootserver_mem_t) : rootserver_mem_t := mk_rootserver
  (rs_cnode r) (rs_vspace r) (rs_asid_pool r) (rs_ipc_buf r) (rs_boot_info r) (rs_extra_bi r) (rs_tcb r) (rs_paging r).
Definition set_rs_cnode : (Z -> Z) -> rootserver_mem_t -> rootserver_mem_t := ltac:(mk_setter eta_rootserver rs_cnode).
Definition set_rs_vspace : (Z -> Z) -> rootserver_mem_t -> rootserver_mem_t := ltac:(mk_setter eta_rootserver rs_vspace).
Definition set_rs_asid_pool : (Z -> Z) -> rootserver_mem_t -> rootserver_mem_t := ltac:(mk_setter eta_rootserver rs_asid_pool).
Definition set_rs_ipc_buf : (Z -> Z) -> rootserver_mem_t -> rootserver_mem_t := ltac:(mk_setter eta_rootserver rs_ipc_buf).
Definition set_rs_boot_info : (Z -> Z) -> rootserver_mem_t -> rootserver_mem_t := ltac:(mk_setter eta_rootserver rs_boot_info).
Definition set_rs_extra_bi : (Z -> Z) -> rootserver_mem_t -> rootserver_mem_t := ltac:(mk_setter eta_rootserver rs_extra_bi).
Definition set_rs_tcb : (Z -> Z) -> rootserver_mem_t -> rootserver_mem_t := ltac:(mk_setter eta_rootserver rs_tcb).
Definition set_rs_paging : (region -> region) -> rootserver_mem_t -> rootserver_mem_t := ltac:(mk_setter eta_rootserver rs_paging).

Definition eta_bi (r : boot_info_t) : boot_info_t := mk_bi
  (bi_nodeID r) (bi_numNodes r) (bi_ipcBuffer r) (bi_extraLen r) (bi_untyped r) (bi_empty r) (bi_untypedList r).
Definition set_bi_untyped : (region -> region) -> boot_info_t -> boot_info_t := ltac:(mk_setter eta_bi bi_untyped).
Definition set_bi_empty : (region -> region) -> boot_info_t -> boot_info_t := ltac:(mk_setter eta_bi bi_empty).
Definition set_bi_untypedList : (gmap Z untyped_desc -> gmap Z untyped_desc) -> boot_info_t -> boot_info_t :=
  ltac:(mk_setter eta_bi bi_untypedList).

(** What the build chooses. *)
Class BootPlatform : Type := {
  MAX_NUM_RESV_REG : Z;
  MAX_NUM_FREEMEM_REG : Z;
  CONFIG_ROOT_CNODE_SIZE_BITS : Z;
  CONFIG_MAX_NUM_BOOTINFO_UNTYPED_CAPS : Z;
  CONFIG_PADDR_USER_DEVICE_TOP : Z;
  KERNEL_ELF_BASE : Z;
  KERNEL_ELF_TOP : Z;
  ki_boot_end : Z
}.

Section Boot.
Context `{BP : BootPlatform}.

Definition B (A : Type) : Type := M ndks_boot_t A.

(** ** The kernel image *)
Definition addrFromKPPtr (pptr : Z) : B Z :=
  assert (KERNEL_ELF_BASE <=? pptr) ;;;
  assert (pptr <=? KERNEL_ELF_TOP) ;;;
  ret (wsub pptr PPTR_BASE_OFFSET).

Definition get_p_reg_kernel_img_boot : B region :=
  let* a := addrFromKPPtr KERNEL_ELF_BASE in
  let* b := addrFromKPPtr ki_boot_end in
  ret (mk_region a b).

Definition get_p_reg_kernel_img : B region :=
  let* a := addrFromKPPtr KERNEL_ELF_BASE in
  let* b := addrFromKPPtr KERNEL_ELF_TOP in
  ret (mk_region a b).

(** ** Reserved regions *)
Definition get_reserved (i : Z) : B region :=
  let* l := gets reserved in
  assert (0 <=? i) ;;; from_option_M (l !! Z.to_nat i).

Definition put_reserved (i : Z) (r : region) : B unit :=
  let* l := gets reserved in
  assert ((0 <=? i) && (i <? Z.of_nat (length l))) ;;;
  modify (set_reserved (fun l => <[Z.to_nat i := r]> l)).

(** [n] rounds of the loop of [merge_regions] from [i] at most. *)
Fixpoint merge_loop (n : nat) (i : Z) : B unit :=
  match n with
  | O => ret tt
  | S n' =>
      let* count := gets resv_count in
      if i <? count then
        let* prev := get_reserved (i - 1) in
        let* r := get_reserved i in
        if r_end prev =? r_start r then
          put_reserved (i - 1) (mk_region (r_start prev) (r_end r)) ;;;
          for_ (i + 1) count (fun j => let* x := get_reserved j in put_reserved (j - 1) x) ;;;
          modify (set_resv_count (fun c => c - 1)) ;;;
          merge_loop n' i
        else merge_loop n' (i + 1)
      else ret tt
  end.

Definition merge_regions : B unit :=
  let* count := gets resv_count in merge_loop (Z.to_nat count) 1.

(** [for (j = count; j > i; j--) reserved[j] = reserved[j - 1]] *)
Fixpoint shift_up (n : nat) (j i : Z) : B unit :=
  match n with
  | O => ret tt
  | S n' =>
      if i <? j then
        let* x := get_reserved (j - 1) in
        put_reserved j x ;;;
        shift_up n' (j - 1) i
      else ret tt
  end.

Fixpoint reserve_loop (n : nat) (i : Z) (reg : region) : B bool :=
  let* count := gets resv_count in
  match n with
  | O =>
      if i + 1 =? MAX_NUM_RESV_REG then ret false
      else
        put_reserved i reg ;;;
        modify (set_resv_count (fun c => c + 1)) ;;;
        ret true
  | S n' =>
      let* r := get_reserved i in
      if r_start r =? r_end reg then
        put_reserved i (mk_region (r_start reg) (r_end r)) ;;; merge_regions ;;; ret true
      else if r_end r =? r_start reg then
        put_reserved i (mk_region (r_start r) (r_end reg)) ;;; merge_regions ;;; ret true
      else if r_end reg <? r_start r then
        if MAX_NUM_RESV_REG <=? count + 1 then ret false
        else
          shift_up (Z.to_nat count) count i ;;;
          put_reserved i reg ;;;
          modify (set_resv_count (fun c => c + 1)) ;;;
          ret true
      else reserve_loop n' (i + 1) reg
  end.

Definition reserve_region (reg : region) : B bool :=
  assert (r_start reg <=? r_end reg) ;;;
  if r_start reg =? r_end reg then ret true
  else let* count := gets resv_count in reserve_loop (Z.to_nat count) 0 reg.

(** ** Free memory *)
Definition get_freemem (i : Z) : B region :=
  let* l := gets freemem in
  assert (0 <=? i) ;;; from_option_M (l !! Z.to_nat i).

Definition put_freemem (i : Z) (r : region) : B unit :=
  let* l := gets freemem in
  assert ((0 <=? i) && (i <? Z.of_nat (length l))) ;;;
  modify (set_freemem (fun l => <[Z.to_nat i := r]> l)).

Fixpoint insert_loop (n : nat) (i : Z) (reg : region) : B bool :=
  match n with
  | O => fail (* assert(0) *)
  | S n' =>
      let* r := get_freemem i in
      if is_reg_empty r then
        let* _ := reserve_region (pptr_to_paddr_reg reg) in
        put_freemem i reg ;;;
        ret true
      else insert_loop n' (i + 1) reg
  end.

Definition insert_region (reg : region) : B bool :=
  assert (r_start reg <=? r_end reg) ;;;
  if is_reg_empty reg then ret true
  else insert_loop (Z.to_nat MAX_NUM_FREEMEM_REG) 0 reg.

(** ** The objects of the root server *)
Definition memzero (ptr len : Z) : B unit := modify (set_boot_zeroed (cons (mk_region ptr (wadd ptr len)))).

Definition alloc_rootserver_obj (size_bits n : Z) : B Z :=
  let* m := gets rootserver_mem in
  let allocated := r_start m in
  assert (allocated mod BIT size_bits =? 0) ;;;
  let new_start := wadd allocated (wrap (n * BIT size_bits)) in
  modify (set_rootserver_mem (fun _ => mk_region new_start (r_end m))) ;;;
  assert (new_start <=? r_end m) ;;;
  memzero allocated (wrap (n * BIT size_bits)) ;;;
  ret allocated.

Definition cnode_size_bits : Z := CONFIG_ROOT_CNODE_SIZE_BITS + seL4_SlotBits.

Definition rootserver_max_size_bits (extra_bi_size_bits : Z) : Z :=
  Z.max (Z.max cnode_size_bits seL4_VSpaceBits) extra_bi_size_bits.

Definition get_n_paging (v_reg : region) (bits : Z) : Z :=
  wsub (ROUND_UP (r_end v_reg) bits) (ROUND_DOWN (r_start v_reg) bits) / BIT bits.

Definition arch_get_n_paging (it_v_reg : region) : Z :=
  wadd (wadd (get_n_paging it_v_reg (UPT_LEVEL_SHIFT 0)) (get_n_paging it_v_reg (UPT_LEVEL_SHIFT 1)))
       (get_n_paging it_v_reg (UPT_LEVEL_SHIFT 2)).

Definition calculate_rootserver_size (it_v_reg : region) (extra_bi_size_bits : Z) : Z :=
  let size := BIT (CONFIG_ROOT_CNODE_SIZE_BITS + seL4_SlotBits) in
  let size := wadd size (BIT seL4_TCBBits) in
  let size := wadd size (BIT seL4_PageBits) in
  let size := wadd size (BIT seL4_BootInfoFrameBits) in
  let size := wadd size (BIT seL4_ASIDPoolBits) in
  let size := wadd size (if 0 <? extra_bi_size_bits then BIT extra_bi_size_bits else 0) in
  let size := wadd size (BIT seL4_VSpaceBits) in
  wadd size (wrap (arch_get_n_paging it_v_reg * BIT seL4_PageTableBits)).

Definition maybe_alloc_extra_bi (cmp_size_bits extra_bi_size_bits : Z) : B unit :=
  let* rs := gets rootserver in
  if (cmp_size_bits <=? extra_bi_size_bits) && (rs_extra_bi rs =? 0) then
    let* p := alloc_rootserver_obj extra_bi_size_bits 1 in
    modify (set_rootserver (set_rs_extra_bi (fun _ => p)))
  else ret tt.

Definition create_rootserver_objects (start : Z) (it_v_reg : region) (extra_bi_size_bits : Z) : B unit :=
  let max := rootserver_max_size_bits extra_bi_size_bits in
  let size := calculate_rootserver_size it_v_reg extra_bi_size_bits in
  modify (set_rootserver_mem (fun _ => mk_region start (wadd start size))) ;;;
  maybe_alloc_extra_bi max extra_bi_size_bits ;;;
  (if seL4_VSpaceBits <? CONFIG_ROOT_CNODE_SIZE_BITS + seL4_SlotBits then
     let* p := alloc_rootserver_obj cnode_size_bits 1 in
     modify (set_rootserver (set_rs_cnode (fun _ => p))) ;;;
     maybe_alloc_extra_bi seL4_VSpaceBits extra_bi_size_bits ;;;
     let* p := alloc_rootserver_obj seL4_VSpaceBits 1 in
     modify (set_rootserver (set_rs_vspace (fun _ => p)))
   else
     let* p := alloc_rootserver_obj seL4_VSpaceBits 1 in
     modify (set_rootserver (set_rs_vspace (fun _ => p))) ;;;
     maybe_alloc_extra_bi cnode_size_bits extra_bi_size_bits ;;;
     let* p := alloc_rootserver_obj cnode_size_bits 1 in
     modify (set_rootserver (set_rs_cnode (fun _ => p)))) ;;;
  maybe_alloc_extra_bi seL4_PageBits extra_bi_size_bits ;;;
  let* p := alloc_rootserver_obj seL4_ASIDPoolBits 1 in
  modify (set_rootserver (set_rs_asid_pool (fun _ => p))) ;;;
  let* p := alloc_rootserver_obj seL4_PageBits 1 in
  modify (set_rootserver (set_rs_ipc_buf (fun _ => p))) ;;;
  let* p := alloc_rootserver_obj seL4_BootInfoFrameBits 1 in
  modify (set_rootserver (set_rs_boot_info (fun _ => p))) ;;;
  let n := arch_get_n_paging it_v_reg in
  let* p := alloc_rootserver_obj seL4_PageTableBits n in
  modify (set_rootserver (set_rs_paging (fun _ => mk_region p (wadd p (wrap (n * BIT seL4_PageTableBits)))))) ;;;
  let* p := alloc_rootserver_obj seL4_TCBBits 1 in
  modify (set_rootserver (set_rs_tcb (fun _ => p))) ;;;
  let* m := gets rootserver_mem in
  assert (r_start m =? r_end m).

(** ** Dividing the available memory *)
Definition ceiling_kernel_window (p : Z) : Z := if PADDR_TOP <? addrFromPPtr p then PPTR_TOP else p.

(** Are the regions sane, ordered and disjoint?  [empty_ok] tells the two
    checks of the source apart. *)
Fixpoint check_regions (empty_ok : bool) (prev : option Z) (l : list region) : bool :=
  match l with
  | [] => true
  | r :: l' =>
      if r_end r <? r_start r then false
      else if negb empty_ok && (r_start r =? r_end r) then false
      else if (match prev with Some e => r_start r <? e | None => false end) then false
      else check_regions empty_ok (Some (r_end r)) l'
  end.

Definition check_available_memory (available : list region) : bool :=
  if (length available =? 0)%nat then false else check_regions false None available.
Definition check_reserved_memory (rsv : list region) : bool := check_regions true None rsv.

(** The loop over available and reserved regions: what is left of both when
    one of them has run out. *)
Fixpoint carve_loop (n : nat) (avail rsv : list region) : B (list region * list region) :=
  match n with
  | O => fail
  | S n' =>
      match avail, rsv with
      | av :: avail', rv :: rsv' =>
          if r_start rv =? r_end rv then carve_loop n' avail rsv'
          else if r_end av <=? r_start av then carve_loop n' avail' rsv
          else if r_end rv <=? r_start av then
            let* _ := reserve_region (pptr_to_paddr_reg rv) in carve_loop n' avail rsv'
          else if r_end av <=? r_start rv then
            let* _ := insert_region av in carve_loop n' avail' rsv
          else if r_start rv <=? r_start av then
            carve_loop n' (mk_region (Z.min (r_end av) (r_end rv)) (r_end av) :: avail') rsv
          else
            assert (r_start rv <? r_end av) ;;;
            let* _ := insert_region (mk_region (r_start av) (r_start rv)) in
            if r_end rv <? r_end av then carve_loop n' (mk_region (r_end rv) (r_end av) :: avail') rsv
            else carve_loop n' avail' rsv
      | _, _ => ret (avail, rsv)
      end
  end.

Fixpoint reserve_all (rsv : list region) : B unit :=
  match rsv with
  | [] => ret tt
  | r :: rsv' =>
      (if r_start r <? r_end r then let* _ := reserve_region (pptr_to_paddr_reg r) in ret tt else ret tt) ;;;
      reserve_all rsv'
  end.

Fixpoint insert_all (avail : list region) : B unit :=
  match avail with
  | [] => ret tt
  | r :: avail' =>
      (if r_start r <? r_end r then let* _ := insert_region r in ret tt else ret tt) ;;;
      insert_all avail'
  end.

(** The index of the last non-empty region at or below [i], or -1. *)
Fixpoint skip_empty (n : nat) (i : Z) : B Z :=
  match n with
  | O => ret i
  | S n' =>
      if 0 <=? i then
        let* r := get_freemem i in
        if is_reg_empty r then skip_empty n' (i - 1) else ret i
      else ret i
  end.

Fixpoint fit_loop (n : nat) (i size max : Z) (it_v_reg : region) (extra_bi_size_bits : Z) : B bool :=
  match n with
  | O => ret false
  | S n' =>
      if 0 <=? i then
        assert (i <? MAX_NUM_FREEMEM_REG - 1) ;;;
        let* e := get_freemem (i + 1) in
        assert (is_reg_empty e) ;;;
        let* r := get_freemem i in
        let unaligned_start := wsub (r_end r) size in
        let start := ROUND_DOWN unaligned_start max in
        if (unaligned_start <=? r_end r) && (r_start r <=? start) then
          create_rootserver_objects start it_v_reg extra_bi_size_bits ;;;
          put_freemem (i + 1) (mk_region (wadd start size) (r_end r)) ;;;
          put_freemem i (mk_region (r_start r) start) ;;;
          ret true
        else
          put_freemem (i + 1) r ;;;
          put_freemem i REG_EMPTY ;;;
          fit_loop n' (i - 1) size max it_v_reg extra_bi_size_bits
      else ret false
  end.

Definition init_freemem (available rsv : list region) (it_v_reg : region) (extra_bi_size_bits : Z) : B bool :=
  if negb (check_available_memory available) then ret false
  else if negb (check_reserved_memory rsv) then ret false
  else
    modify (set_freemem (fun _ => replicate (Z.to_nat MAX_NUM_FREEMEM_REG) REG_EMPTY)) ;;;
    assert (Z.of_nat (length available) <=? MAX_NUM_FREEMEM_REG) ;;;
    let avail_reg := (fun p => let r := paddr_to_pptr_reg p in
      mk_region (ceiling_kernel_window (r_start r)) (ceiling_kernel_window (r_end r))) <$> available in
    let* (avail, rsv) := carve_loop (S (2 * (length avail_reg + length rsv))) avail_reg rsv in
    reserve_all rsv ;;;
    insert_all avail ;;;
    let i := MAX_NUM_FREEMEM_REG - 1 in
    let* last := get_freemem i in
    if negb (is_reg_empty last) then ret false
    else
      let* i := skip_empty (Z.to_nat MAX_NUM_FREEMEM_REG) i in
      let size := calculate_rootserver_size it_v_reg extra_bi_size_bits in
      let max := rootserver_max_size_bits extra_bi_size_bits in
      fit_loop (Z.to_nat MAX_NUM_FREEMEM_REG) i size max it_v_reg extra_bi_size_bits.

(** ** Capabilities for the root server *)
Definition SLOT_PTR (pptr pos : Z) : Z := cte_offset pptr pos.

Definition write_slot (slot_ptr : Z) (c : cap) : B unit :=
  modify (set_boot_slots (insert slot_ptr (mk_cte c (mdb_node_new 0 true true 0)))).

Definition create_root_cnode : B cap :=
  let* rs := gets rootserver in
  let c := cap_cnode_cap CONFIG_ROOT_CNODE_SIZE_BITS (wordBits - CONFIG_ROOT_CNODE_SIZE_BITS) 0 (rs_cnode rs) in
  write_slot (SLOT_PTR (rs_cnode rs) seL4_CapInitThreadCNode) c ;;;
  ret c.

Definition create_domain_cap (root_cnode_cap : cap) : B unit :=
  write_slot (SLOT_PTR (cap_get_capPtr root_cnode_cap) seL4_CapDomain) cap_domain_cap.

Definition provide_cap (root_cnode_cap c : cap) : B bool :=
  let* pos := gets slot_pos_cur in
  if BIT CONFIG_ROOT_CNODE_SIZE_BITS <=? pos then ret false
  else
    write_slot (SLOT_PTR (cap_get_capPtr root_cnode_cap) pos) c ;;;
    modify (set_slot_pos_cur (fun p => p + 1)) ;;;
    ret true.

Definition pptr_in_kernel_window (pptr : Z) : bool := (PPTR_BASE <=? pptr) && (pptr <? PPTR_TOP).

Definition provide_untyped_cap (root_cnode_cap : cap) (device_memory : bool) (pptr size_bits first_untyped_slot : Z) : B bool :=
  if (seL4_MaxUntypedBits <? size_bits) || (size_bits <? seL4_MinUntypedBits) then ret false
  else if negb (IS_ALIGNED pptr size_bits) then ret false
  else if negb device_memory && negb (pptr_in_kernel_window pptr) then ret false
  else if negb device_memory && negb (pptr_in_kernel_window (wadd pptr (MASK size_bits))) then ret false
  else
    let* pos := gets slot_pos_cur in
    let i := wsub pos first_untyped_slot in
    if i <? CONFIG_MAX_NUM_BOOTINFO_UNTYPED_CAPS then
      modify (set_bi_frame (set_bi_untypedList (insert i (mk_desc (addrFromPPtr pptr) size_bits device_memory)))) ;;;
      provide_cap root_cnode_cap (cap_untyped_cap (MAX_FREE_INDEX size_bits) device_memory size_bits pptr)
    else ret true.

(** The size of the next block of a region: limited by the region, by the
    largest untyped and by the alignment of its start. *)
Definition untyped_bits (reg : region) : Z :=
  let size_bits := wordBits - 1 - clzl (wsub (r_end reg) (r_start reg)) in
  let size_bits := if seL4_MaxUntypedBits <? size_bits then seL4_MaxUntypedBits else size_bits in
  if negb (r_start reg =? 0) then
    let align_bits := ctzl (r_start reg) in
    if align_bits <? size_bits then align_bits else size_bits
  else size_bits.

Definition untyped_step (root_cnode_cap : cap) (device_memory : bool) (first_untyped_slot : Z) (reg : region)
    : B (region + bool) :=
  if is_reg_empty reg then ret (inr true)
  else
    let size_bits := untyped_bits reg in
    let* ok := (if seL4_MinUntypedBits <=? size_bits
                then provide_untyped_cap root_cnode_cap device_memory (r_start reg) size_bits first_untyped_slot
                else ret true) in
    if negb ok then ret (inr false)
    else ret (inl (mk_region (wadd (r_start reg) (BIT size_bits)) (r_end reg))).

(** One more round than there are addresses is enough for the loop. *)
Definition region_bound : positive := 18446744073709551617.

Definition create_untypeds_for_region (root_cnode_cap : cap) (device_memory : bool) (reg : region) (first_untyped_slot : Z) : B bool :=
  loop_until region_bound (untyped_step root_cnode_cap device_memory first_untyped_slot) reg.

(** The gaps between reserved regions from index [i] on; the answer is the
    address behind the last one. *)
Fixpoint device_loop (n : nat) (i start first_untyped_slot : Z) (root_cnode_cap : cap) : B (option Z) :=
  match n with
  | O => ret (Some start)
  | S n' =>
      let* r := get_reserved i in
      let* ok := (if start <? r_start r
                  then create_untypeds_for_region root_cnode_cap true (paddr_to_pptr_reg (mk_region start (r_start r))) first_untyped_slot
                  else ret true) in
      if negb ok then ret None else device_loop n' (i + 1) (r_end r) first_untyped_slot root_cnode_cap
  end.

Fixpoint freemem_loop (n : nat) (i first_untyped_slot : Z) (root_cnode_cap : cap) : B bool :=
  match n with
  | O => ret true
  | S n' =>
      let* reg := get_freemem i in
      put_freemem i REG_EMPTY ;;;
      let* ok := create_untypeds_for_region root_cnode_cap false reg first_untyped_slot in
      if negb ok then ret false else freemem_loop n' (i + 1) first_untyped_slot root_cnode_cap
  end.

Definition create_untypeds (root_cnode_cap : cap) : B bool :=
  let* first_untyped_slot := gets slot_pos_cur in
  let* count := gets resv_count in
  let* d := device_loop (Z.to_nat count) 0 0 first_untyped_slot root_cnode_cap in
  match d with
  | None => ret false
  | Some start =>
      let* ok := (if start <? CONFIG_PADDR_USER_DEVICE_TOP
                  then create_untypeds_for_region root_cnode_cap true
                         (paddr_to_pptr_reg (mk_region start CONFIG_PADDR_USER_DEVICE_TOP)) first_untyped_slot
                  else ret true) in
      if negb ok then ret false
      else
        let* img := get_p_reg_kernel_img_boot in
        let* ok := create_untypeds_for_region root_cnode_cap false (paddr_to_pptr_reg img) first_untyped_slot in
        if negb ok then ret false
        else
          let* ok := freemem_loop (Z.to_nat MAX_NUM_FREEMEM_REG) 0 first_untyped_slot root_cnode_cap in
          if negb ok then ret false
          else
            let* pos := gets slot_pos_cur in
            modify (set_bi_frame (set_bi_untyped (fun _ => mk_region first_untyped_slot pos))) ;;;
            ret true
  end.

Definition bi_finalise : B unit :=
  let* pos := gets slot_pos_cur in
  modify (set_bi_frame (set_bi_empty (fun _ => mk_region pos (BIT CONFIG_ROOT_CNODE_SIZE_BITS)))).

(** ** Boot information *)
Definition calculate_extra_bi_size_bits (extra_size : Z) : Z :=
  if extra_size =? 0 then 0
  else
    let msb := wordBits - 1 - clzl (ROUND_UP extra_size seL4_PageBits) in
    if BIT msb <? extra_size then msb + 1 else msb.

Definition populate_bi_frame (node_id num_nodes ipcbuf_vptr extra_bi_size : Z) : B unit :=
  let* rs := gets rootserver in
  memzero (rs_boot_info rs) (BIT seL4_BootInfoFrameBits) ;;;
  (if extra_bi_size =? 0 then ret tt
   else memzero (rs_extra_bi rs) (BIT (calculate_extra_bi_size_bits extra_bi_size))) ;;;
  modify (set_bi_frame (fun _ => mk_bi node_id num_nodes ipcbuf_vptr extra_bi_size REG_EMPTY REG_EMPTY ∅)) ;;;
  modify (set_slot_pos_cur (fun _ => seL4_NumInitialCaps)).
End Boot.
