(* ===== verification/BootInv.v ===== *)
(** * Regions of memory at boot

    Lists of regions as sets of addresses, and the arrays of [Boot] as such
    lists: what [reserve_region] and [insert_region] do to them. *)
From S2P Require Import Prelude Bytes Structures CapOps VSpace Sched Mdb Untyped Boot.
From stdpp Require Import base list gmap.
#[local] Open Scope Z_scope.

(** ** Lists of regions *)
Definition inside (r : region) (x : Z) : Prop := r_start r <= x < r_end r.
Definition covers (l : list region) (x : Z) : Prop := exists r, r ∈ l /\ inside r x.

(** [r] lies beside each region of the list. *)
Definition beside (r : region) (l : list region) : Prop :=
  forall r', r' ∈ l -> r_end r' <= r_start r \/ r_end r <= r_start r'.

(** Non-empty regions in order, above [lo]: with gaps between them
    ([normal_from]) or possibly adjacent ([loose_from]). *)
Fixpoint normal_from (lo : Z) (l : list region) : Prop :=
  match l with [] => True | r :: l' => lo < r_start r < r_end r /\ normal_from (r_end r) l' end.
Fixpoint loose_from (lo : Z) (l : list region) : Prop :=
  match l with [] => True | r :: l' => lo <= r_start r < r_end r /\ loose_from (r_end r) l' end.
Definition normal (l : list region) : Prop := normal_from (-1) l.
Definition last_end (lo : Z) (l : list region) : Z := match last l with Some r => r_end r | None => lo end.

Lemma covers_nil x : ~ covers [] x.
Proof. by intros (r & ?%elem_of_nil & _). Qed.

Lemma covers_cons r l x : covers (r :: l) x <-> inside r x \/ covers l x.
Proof.
  unfold covers. setoid_rewrite elem_of_cons. split.
  - intros (r' & [->|H] & Hx); [by left|right; by exists r'].
  - intros [H|(r' & H & Hx)]; [exists r; by auto|exists r'; by auto].
Qed.

Lemma covers_app l1 l2 x : covers (l1 ++ l2) x <-> covers l1 x \/ covers l2 x.
Proof.
  induction l1 as [|r l1 IH]; cbn [app]; [split; [by right|intros [?%covers_nil|?]; done]|].
  rewrite !covers_cons, IH. tauto.
Qed.

Lemma last_end_cons lo r l : last_end lo (r :: l) = last_end (r_end r) l.
Proof. unfold last_end. rewrite last_cons. by destruct (last l). Qed.

Lemma normal_from_app lo l1 l2 : normal_from lo (l1 ++ l2) <-> normal_from lo l1 /\ normal_from (last_end lo l1) l2.
Proof.
  revert lo. induction l1 as [|r l1 IH]; intros lo; [cbn; tauto|].
  cbn [app normal_from]. rewrite last_end_cons, IH. tauto.
Qed.

Lemma loose_from_app lo l1 l2 : loose_from lo (l1 ++ l2) <-> loose_from lo l1 /\ loose_from (last_end lo l1) l2.
Proof.
  revert lo. induction l1 as [|r l1 IH]; intros lo; [cbn; tauto|].
  cbn [app loose_from]. rewrite last_end_cons, IH. tauto.
Qed.

Lemma normal_loose lo l : normal_from lo l -> loose_from lo l.
Proof. revert lo. induction l as [|r l IH]; intros lo; [done|]. intros [H1 H2]. split; [lia|by apply IH]. Qed.

Lemma loose_weaken lo lo' l : loose_from lo l -> (forall r, r ∈ l -> lo' <= r_start r) -> loose_from lo' l.
Proof. destruct l as [|r l]; [done|]. intros [H1 H2] H. split; [|done]. specialize (H r ltac:(left)). lia. Qed.

Lemma normal_weaken lo lo' l : normal_from lo l -> (forall r, r ∈ l -> lo' < r_start r) -> normal_from lo' l.
Proof. destruct l as [|r l]; [done|]. intros [H1 H2] H. split; [|done]. specialize (H r ltac:(left)). lia. Qed.

Lemma loose_above lo l r : loose_from lo l -> r ∈ l -> lo <= r_start r < r_end r.
Proof.
  revert lo. induction l as [|r' l IH]; intros lo; [by intros _ ?%elem_of_nil|].
  intros [H1 H2] [->|H]%elem_of_cons; [done|]. specialize (IH _ H2 H). lia.
Qed.

Lemma normal_above lo l r : normal_from lo l -> r ∈ l -> lo < r_start r < r_end r.
Proof.
  revert lo. induction l as [|r' l IH]; intros lo; [by intros _ ?%elem_of_nil|].
  intros [H1 H2] [->|H]%elem_of_cons; [done|]. specialize (IH _ H2 H). lia.
Qed.

Lemma last_end_lt lo l b : lo < b -> (forall r, r ∈ l -> r_end r < b) -> last_end lo l < b.
Proof.
  intros Hlo H. unfold last_end. destruct (last l) as [r|] eqn:E; [|done]. apply H. by apply last_Some_elem_of.
Qed.

(** Joining adjacent regions. *)
Fixpoint merge_from (a : region) (l : list region) : list region :=
  match l with
  | [] => [a]
  | b :: l' => if r_end a =? r_start b then merge_from (mk_region (r_start a) (r_end b)) l' else a :: merge_from b l'
  end.

Lemma merge_from_spec l : forall lo a, lo < r_start a < r_end a -> loose_from (r_end a) l ->
  normal_from lo (merge_from a l) /\ forall x, covers (merge_from a l) x <-> covers (a :: l) x.
Proof.
  induction l as [|b l IH]; intros lo a Ha Hl; [done|]. destruct Hl as [Hb Hl]. cbn [merge_from].
  destruct (Z.eqb_spec (r_end a) (r_start b)) as [E|E].
  - destruct (IH lo (mk_region (r_start a) (r_end b))) as [H1 H2]; [cbn; lia|done|]. split; [done|].
    intros x. rewrite H2, !covers_cons. unfold inside. cbn. intuition lia.
  - destruct (IH (r_end a) b) as [H1 H2]; [lia|done|]. split; [by split|]. intros x.
    rewrite covers_cons, H2, !covers_cons. done.
Qed.

Lemma merge_from_length a l : (length (merge_from a l) <= S (length l))%nat.
Proof.
  revert a. induction l as [|b l IH]; intros a; cbn [merge_from]; [done|].
  destruct (_ =? _); cbn [length]; [specialize (IH (mk_region (r_start a) (r_end b)))|specialize (IH b)]; lia.
Qed.

Section Reserve.
Context `{BP : BootPlatform}.

(** ** The array of reserved regions *)
Definition with_arr (s : ndks_boot_t) (a : list region) (c : Z) : ndks_boot_t := mk_boot_state
  a c (freemem s) (slot_pos_cur s) (bi_frame s) (rootserver_mem s) (rootserver s) (boot_slots s) (boot_zeroed s).

Lemma with_arr_id s : with_arr s (reserved s) (resv_count s) = s.
Proof. by destruct s. Qed.

(** The list [l] is in the array, with room for one more. *)
Record holds (l : list region) (s : ndks_boot_t) : Prop := {
  ho_array : exists junk, reserved s = l ++ junk;
  ho_count : resv_count s = Z.of_nat (length l);
  ho_size : Z.of_nat (length (reserved s)) = MAX_NUM_RESV_REG;
  ho_room : Z.of_nat (length l) < MAX_NUM_RESV_REG
}.

Lemma wp_get_reserved s l1 r l2 c i (Q : region -> ndks_boot_t -> Prop) :
  i = Z.of_nat (length l1) -> Q r (with_arr s (l1 ++ r :: l2) c) -> wp (get_reserved i) Q (with_arr s (l1 ++ r :: l2) c).
Proof.
  intros -> HQ. unfold get_reserved. wp_struct. wp_struct. wp_struct. wp_struct; [by apply Z.leb_le; lia|].
  eapply wp_from_option; [|exact HQ]. cbn [reserved with_arr]. rewrite Nat2Z.id. by apply list_lookup_middle.
Qed.

Lemma wp_put_reserved s l1 r r' l2 c i (Q : unit -> ndks_boot_t -> Prop) :
  i = Z.of_nat (length l1) -> Q tt (with_arr s (l1 ++ r' :: l2) c) -> wp (put_reserved i r') Q (with_arr s (l1 ++ r :: l2) c).
Proof.
  intros -> HQ. unfold put_reserved. wp_struct. wp_struct. wp_struct. wp_struct.
  { cbn [reserved with_arr]. rewrite length_app. cbn [length]. apply andb_true_iff. rewrite Z.leb_le, Z.ltb_lt. lia. }
  wp_struct. unfold set_reserved. cbn [reserved with_arr]. rewrite Nat2Z.id, insert_app_r_alt, Nat.sub_diag by lia. exact HQ.
Qed.

Lemma wp_shift_down s l2 c : forall l1 r junk n (Q : unit -> ndks_boot_t -> Prop),
  n = length l2 ->
  (forall r', Q tt (with_arr s (l1 ++ l2 ++ r' :: junk) c)) ->
  wp (for_loop n (Z.of_nat (length l1) + 1) (Z.of_nat (length l1) + 1 + Z.of_nat (length l2))
        (fun j => let* x := get_reserved j in put_reserved (j - 1) x)) Q (with_arr s (l1 ++ r :: l2 ++ junk) c).
Proof.
  induction l2 as [|r2 l2 IH]; intros l1 r junk n Q -> HQ; cbn [length for_loop].
  { wp_struct. apply (HQ r). }
  rewrite (proj2 (Z.ltb_lt _ _)) by lia. wp_struct. wp_struct.
  change ((r2 :: l2) ++ junk) with (r2 :: l2 ++ junk).
  replace (l1 ++ r :: r2 :: l2 ++ junk) with ((l1 ++ [r]) ++ r2 :: l2 ++ junk) by (by rewrite <- app_assoc).
  apply wp_get_reserved; [rewrite length_app; cbn; lia|]. rewrite <- app_assoc. cbn [app].
  apply wp_put_reserved; [lia|]. replace (l1 ++ r2 :: r2 :: l2 ++ junk) with ((l1 ++ [r2]) ++ r2 :: l2 ++ junk) by (by rewrite <- app_assoc).
  specialize (IH (l1 ++ [r2]) r2 junk (length l2) Q eq_refl).
  replace (Z.of_nat (length (l1 ++ [r2])) + 1) with (Z.of_nat (length l1) + 1 + 1) in IH by (rewrite length_app; cbn; lia).
  replace (Z.of_nat (length l1) + 1 + Z.of_nat (S (length l2))) with (Z.of_nat (length l1) + 1 + 1 + Z.of_nat (length l2)) by lia.
  apply IH. intros r'. rewrite <- app_assoc. apply HQ.
Qed.

Lemma wp_merge_loop s l : forall l1 a junk n (Q : unit -> ndks_boot_t -> Prop),
  (length l <= n)%nat ->
  (forall junk', length (merge_from a l ++ junk') = length (a :: l ++ junk) ->
     Q tt (with_arr s (l1 ++ merge_from a l ++ junk') (Z.of_nat (length (l1 ++ merge_from a l))))) ->
  wp (merge_loop n (Z.of_nat (length l1) + 1)) Q (with_arr s (l1 ++ a :: l ++ junk) (Z.of_nat (length l1) + 1 + Z.of_nat (length l))).
Proof.
  induction l as [|b l IH]; intros l1 a junk n Q Hn HQ.
  { assert (Hend : Q tt (with_arr s (l1 ++ a :: [] ++ junk) (Z.of_nat (length l1) + 1 + Z.of_nat (length (@nil region))))).
    { specialize (HQ junk eq_refl). cbn [merge_from app] in *. rewrite length_app in HQ. cbn [length] in *.
      by replace (Z.of_nat (length l1) + 1 + Z.of_nat 0) with (Z.of_nat (length l1 + 1)) by lia. }
    destruct n as [|n]; cbn [merge_loop]; [by wp_struct|]. wp_struct. wp_struct. cbn [resv_count with_arr length].
    rewrite (proj2 (Z.ltb_ge _ _)) by lia. by wp_struct. }
  destruct n as [|n]; [cbn in Hn; lia|]. cbn [length] in Hn. cbn [merge_loop]. wp_struct. wp_struct. cbn [resv_count with_arr length].
  rewrite (proj2 (Z.ltb_lt _ _)) by lia. wp_struct. apply wp_get_reserved; [lia|]. cbn [app].
  replace (l1 ++ a :: b :: l ++ junk) with ((l1 ++ [a]) ++ b :: l ++ junk) by (by rewrite <- app_assoc).
  wp_struct. apply wp_get_reserved; [rewrite length_app; cbn; lia|]. rewrite <- app_assoc. cbn [app].
  cbn [merge_from] in HQ. destruct (r_end a =? r_start b) eqn:E.
  - wp_struct. apply wp_put_reserved; [lia|]. set (ab := mk_region _ _) in *.
    wp_struct. unfold for_. set (cnt := Z.of_nat (length l1) + 1 + Z.of_nat (S (length l))).
    pose proof (wp_shift_down s l cnt (l1 ++ [ab]) b junk (length l)) as Hs.
    replace (Z.of_nat (length (l1 ++ [ab])) + 1) with (Z.of_nat (length l1) + 1 + 1) in Hs by (rewrite length_app; cbn; lia).
    replace (Z.of_nat (length l1) + 1 + 1 + Z.of_nat (length l)) with cnt in Hs by (unfold cnt; lia).
    replace (Z.to_nat (cnt - (Z.of_nat (length l1) + 1 + 1))) with (length l) by (unfold cnt; lia).
    replace (l1 ++ ab :: b :: l ++ junk) with ((l1 ++ [ab]) ++ b :: l ++ junk) by (by rewrite <- app_assoc).
    apply Hs; [done|]. intros r'. rewrite <- app_assoc. cbn [app]. wp_struct. wp_struct.
    change (set_resv_count (fun c => c - 1) (with_arr s ?a cnt)) with (with_arr s a (cnt - 1)).
    replace (cnt - 1) with (Z.of_nat (length l1) + 1 + Z.of_nat (length l)) by (unfold cnt; lia).
    apply (IH l1 ab (r' :: junk)); [lia|]. intros junk' Hj. apply HQ. cbn [length] in *. rewrite !length_app in *. cbn [length] in *. lia.
  - replace (l1 ++ a :: b :: l ++ junk) with ((l1 ++ [a]) ++ b :: l ++ junk) by (by rewrite <- app_assoc).
    specialize (IH (l1 ++ [a]) b junk n Q ltac:(lia)).
    replace (Z.of_nat (length (l1 ++ [a])) + 1) with (Z.of_nat (length l1) + 1 + 1) in IH by (rewrite length_app; cbn; lia).
    replace (Z.of_nat (length l1) + 1 + Z.of_nat (S (length l))) with (Z.of_nat (length l1) + 1 + 1 + Z.of_nat (length l)) by lia.
    apply IH. intros junk' Hj. rewrite <- !app_assoc. apply HQ. cbn [length app] in *. lia.
Qed.

(** Merging keeps the addresses and leaves a list with gaps. *)
Lemma wp_merge_regions l s (Q : unit -> ndks_boot_t -> Prop) :
  holds l s -> loose_from 0 l ->
  (forall l' s', holds l' s' -> normal l' -> (forall x, covers l' x <-> covers l x) ->
     (length l' <= length l)%nat -> (exists a c, s' = with_arr s a c) -> Q tt s') ->
  wp merge_regions Q s.
Proof.
  intros [[junk Ha] Hc Hs Hr] Hl HQ. unfold merge_regions. rewrite <- (with_arr_id s). wp_struct. wp_struct. rewrite Ha, Hc.
  destruct l as [|a l].
  { apply wp_ret. apply (HQ []); [|done|done|done|by eexists _, _]. split; [by exists junk|done|by rewrite <- Ha|done]. }
  destruct Hl as [Hla Hl]. cbn [resv_count with_arr].
  pose proof (merge_from_spec l (-1) a ltac:(lia) Hl) as [Hn Hcv]. pose proof (merge_from_length a l) as Hlen.
  pose proof (wp_merge_loop s l [] a junk (Z.to_nat (Z.of_nat (length (a :: l)))) Q) as H.
  replace (Z.of_nat (length (@nil region)) + 1) with 1 in H by done.
  replace (1 + Z.of_nat (length l)) with (Z.of_nat (length (a :: l))) in H by (cbn [length]; lia).
  apply H; [cbn [length]; lia|]. intros junk' Hj. cbn [app]. eapply (HQ (merge_from a l)); [|done|done|done|by eexists _, _].
  split; cbn [reserved resv_count with_arr]; [by exists junk'|done| |cbn [length] in *; lia].
  rewrite Hj. rewrite Ha in Hs. exact Hs.
Qed.

(** Making room for one region *)
Lemma wp_shift_up s l2 c : forall l1 r junk n (Q : unit -> ndks_boot_t -> Prop),
  (length l2 <= n)%nat ->
  (forall r', Q tt (with_arr s (l1 ++ r' :: l2 ++ junk) c)) ->
  wp (shift_up n (Z.of_nat (length (l1 ++ l2))) (Z.of_nat (length l1))) Q (with_arr s (l1 ++ l2 ++ r :: junk) c).
Proof.
  induction l2 as [|r2 l2 IH] using rev_ind; intros l1 r junk n Q Hn HQ.
  { rewrite app_nil_r. destruct n as [|n]; cbn [shift_up]; [wp_struct; apply (HQ r)|]. rewrite Z.ltb_irrefl. wp_struct. apply (HQ r). }
  rewrite length_app in Hn. cbn [length] in Hn. destruct n as [|n]; [lia|]. cbn [shift_up]. rewrite !length_app. cbn [length].
  rewrite (proj2 (Z.ltb_lt _ _)) by lia. wp_struct.
  replace (l1 ++ (l2 ++ [r2]) ++ r :: junk) with ((l1 ++ l2) ++ r2 :: r :: junk) by (by rewrite <- !app_assoc).
  apply wp_get_reserved; [rewrite length_app; lia|].
  replace ((l1 ++ l2) ++ r2 :: r :: junk) with ((l1 ++ l2 ++ [r2]) ++ r :: junk) by (by rewrite <- !app_assoc).
  wp_struct. apply wp_put_reserved; [rewrite !length_app; cbn; lia|]. rewrite <- !app_assoc. cbn [app]. cbv beta.
  replace (Z.of_nat (length l1 + (length l2 + 1)) - 1) with (Z.of_nat (length (l1 ++ l2))) by (rewrite length_app; lia).
  apply (IH l1 r2 (r2 :: junk)); [lia|]. intros r'. specialize (HQ r'). by rewrite <- app_assoc in HQ.
Qed.

(** Only the array changes. *)
Definition only_arr (s s' : ndks_boot_t) : Prop := exists a c, s' = with_arr s a c.

Lemma only_arr_trans s1 s2 s3 : only_arr s1 s2 -> only_arr s2 s3 -> only_arr s1 s3.
Proof. intros (a & c & ->) (a' & c' & ->). by exists a', c'. Qed.

(** The outcome of reserving [reg] when [l] was reserved. *)
Record now_reserved (l : list region) (reg : region) (s s' : ndks_boot_t) (l' : list region) : Prop := {
  nr_holds : holds l' s';
  nr_normal : normal l';
  nr_covers : forall x, covers l' x <-> inside reg x \/ covers l x;
  nr_length : (length l' <= S (length l))%nat;
  nr_only : only_arr s s'
}.

Lemma wp_reserve_merge l1 r r' l2 reg s (Q : bool -> ndks_boot_t -> Prop) :
  holds (l1 ++ r :: l2) s -> loose_from 0 (l1 ++ r' :: l2) ->
  (forall x, inside r' x <-> inside reg x \/ inside r x) ->
  (forall s' l', now_reserved (l1 ++ r :: l2) reg s s' l' -> Q true s') ->
  wp (put_reserved (Z.of_nat (length l1)) r' ;;; merge_regions ;;; ret true) Q s.
Proof.
  intros [[junk Ha] Hc Hs Hr] Hl Hin HQ. rewrite <- (with_arr_id s), Ha, <- app_assoc. wp_struct. cbn [app].
  apply wp_put_reserved; [done|]. cbv beta. wp_struct. rewrite Ha in Hs. rewrite !length_app in *. cbn [length] in *.
  apply (wp_merge_regions (l1 ++ r' :: l2)); [|done|].
  - split; cbn [reserved resv_count with_arr]; [exists junk; by rewrite <- app_assoc| | |]; rewrite ?length_app; cbn [length]; rewrite ?length_app; cbn [length]; lia.
  - intros l' s' Hh Hn Hcv Hlen Ho. wp_struct. apply (HQ s' l'). split; [done|done| | |exact Ho].
    + intros x. rewrite Hcv, !covers_app, !covers_cons, Hin. tauto.
    + rewrite !length_app in *. cbn [length] in *. lia.
Qed.

Lemma wp_reserve_append l reg s (Q : bool -> ndks_boot_t -> Prop) :
  holds l s -> normal (l ++ [reg]) -> Z.of_nat (length l) + 1 <> MAX_NUM_RESV_REG ->
  (forall s' l', now_reserved l reg s s' l' -> Q true s') ->
  wp (put_reserved (Z.of_nat (length l)) reg ;;; modify (set_resv_count (fun c => c + 1)) ;;; ret true) Q s.
Proof.
  intros [[junk Ha] Hc Hs Hr] Hn Hroom HQ. rewrite <- (with_arr_id s), Ha. rewrite Ha, length_app in Hs.
  destruct junk as [|r0 junk]; [cbn in Hs; lia|]. wp_struct. apply wp_put_reserved; [done|]. wp_struct. wp_struct. wp_struct.
  apply (HQ _ (l ++ [reg])). split; [|done| |rewrite length_app; cbn; lia|by eexists _, _].
  - split; cbn; [exists junk; by rewrite <- app_assoc|rewrite Hc, length_app; cbn; lia|rewrite length_app; exact Hs|rewrite length_app; cbn; lia].
  - intros x. rewrite covers_app, covers_cons. split; [intros [H|[H|H]]; [by right|by left|by apply covers_nil in H]|tauto].
Qed.

Lemma wp_reserve_before l1 l2 reg s (Q : bool -> ndks_boot_t -> Prop) :
  holds (l1 ++ l2) s -> normal (l1 ++ reg :: l2) -> Z.of_nat (length (l1 ++ l2)) + 1 < MAX_NUM_RESV_REG ->
  (forall s' l', now_reserved (l1 ++ l2) reg s s' l' -> Q true s') ->
  wp (shift_up (Z.to_nat (Z.of_nat (length (l1 ++ l2)))) (Z.of_nat (length (l1 ++ l2))) (Z.of_nat (length l1)) ;;;
      put_reserved (Z.of_nat (length l1)) reg ;;; modify (set_resv_count (fun c => c + 1)) ;;; ret true) Q s.
Proof.
  intros [[junk Ha] Hc Hs Hr] Hn Hroom HQ. rewrite <- (with_arr_id s), Ha. rewrite Ha, length_app in Hs.
  destruct junk as [|r0 junk]; [cbn in Hs; lia|]. rewrite <- app_assoc. wp_struct.
  apply wp_shift_up; [rewrite length_app; lia|]. intros r'. cbv beta. wp_struct. apply wp_put_reserved; [done|]. wp_struct. wp_struct. wp_struct.
  apply (HQ _ (l1 ++ reg :: l2)). rewrite !length_app in *. cbn [length] in *. split; [|done| |rewrite !length_app; cbn; lia|by eexists _, _].
  - split; cbn; rewrite ?length_app; cbn [length]; [exists junk; by rewrite <- app_assoc|rewrite Hc; lia|rewrite length_app in *; lia|lia].
  - intros x. rewrite !covers_app, covers_cons. tauto.
Qed.

Lemma wp_reserve_loop reg l2 : forall l1 s (Q : bool -> ndks_boot_t -> Prop),
  holds (l1 ++ l2) s -> normal (l1 ++ l2) -> 0 <= r_start reg < r_end reg -> beside reg l2 ->
  (forall r, r ∈ l1 -> r_end r < r_start reg) ->
  (forall s' l', now_reserved (l1 ++ l2) reg s s' l' -> Q true s') ->
  (MAX_NUM_RESV_REG <= Z.of_nat (length (l1 ++ l2)) + 1 -> Q false s) ->
  wp (reserve_loop (length l2) (Z.of_nat (length l1)) reg) Q s.
Proof.
  induction l2 as [|r l2 IH]; intros l1 s Q Hh Hn Hreg Hb Hl1 Hok Hfull; pose proof Hh as [[junk Ha] Hc Hs Hr];
    pose proof Hn as Hn0; apply normal_from_app in Hn as [Hn1 Hn2]; assert (Hle : last_end (-1) l1 < r_start reg) by (apply last_end_lt; [lia|done]).
  - rewrite app_nil_r in *. cbn [length reserve_loop]. wp_struct. wp_struct.
    destruct (Z.eqb_spec (Z.of_nat (length l1) + 1) MAX_NUM_RESV_REG); [wp_struct; apply Hfull; lia|].
    apply (wp_reserve_append l1); [done| |done|done]. apply normal_from_app. split; [done|]. cbn. lia.
  - destruct Hn2 as [Hr1 Hn2]. cbn [length reserve_loop]. wp_struct. wp_struct. rewrite Hc. wp_struct.
    rewrite <- (with_arr_id s), Ha, <- app_assoc. cbn [app]. apply wp_get_reserved; [done|].
    assert (Es : with_arr s (l1 ++ r :: l2 ++ junk) (resv_count s) = s) by (transitivity (with_arr s (reserved s) (resv_count s)); [by rewrite Ha, <- app_assoc|apply with_arr_id]).
    rewrite Es. pose proof (Hb r ltac:(left)) as Hbr.
    pose proof (normal_above (-1) _ r Hn0 ltac:(apply elem_of_app; right; left)) as Hr0.
    assert (Hb2 : beside reg l2) by (intros x Hx; apply Hb; by right).
    assert (Hafter : forall x, x ∈ l2 -> r_end r < r_start x) by (intros x Hx; by apply (normal_above _ _ _ Hn2)).
    destruct (Z.eqb_spec (r_start r) (r_end reg)) as [E1|E1]; [|destruct (Z.eqb_spec (r_end r) (r_start reg)) as [E2|E2];
      [|destruct (Z.ltb_spec (r_end reg) (r_start r)) as [E3|E3]]].
    + apply (wp_reserve_merge l1 r (mk_region (r_start reg) (r_end r)) l2 reg); [done| | |done].
      * apply loose_from_app. split; [eapply loose_weaken; [by apply normal_loose|]; intros x Hx; pose proof (normal_above (-1) l1 x Hn1 Hx); lia|].
        assert (last_end 0 l1 < r_start reg \/ last_end 0 l1 = 0). { unfold last_end in *. destruct (last l1); lia. }
        split; [cbn; lia|]. by apply normal_loose.
      * intros x. unfold inside. cbn. lia.
    + apply (wp_reserve_merge l1 r (mk_region (r_start r) (r_end reg)) l2 reg); [done| | |done].
      * apply loose_from_app. split; [eapply loose_weaken; [by apply normal_loose|]; intros x Hx; pose proof (normal_above (-1) l1 x Hn1 Hx); lia|].
        assert (last_end 0 l1 = last_end (-1) l1 \/ last_end 0 l1 = 0). { unfold last_end in *. destruct (last l1); lia. }
        split; [cbn; lia|]. eapply loose_weaken; [by apply normal_loose|]. intros x Hx. cbn. specialize (Hb2 x Hx). specialize (Hafter x Hx).
        pose proof (normal_above _ _ x Hn2 Hx). lia.
      * intros x. unfold inside. cbn. lia.
    + destruct (Z.leb_spec MAX_NUM_RESV_REG (Z.of_nat (length (l1 ++ r :: l2)) + 1)); [wp_struct; by apply Hfull|].
      apply (wp_reserve_before l1 (r :: l2)); [done| |done|done].
      apply normal_from_app. split; [done|]. split; [lia|]. split; [lia|done].
    + replace (Z.of_nat (length l1) + 1) with (Z.of_nat (length (l1 ++ [r]))) by (rewrite length_app; cbn; lia).
      assert (El : (l1 ++ [r]) ++ l2 = l1 ++ r :: l2) by (by rewrite <- app_assoc).
      apply IH; rewrite ?El; try done.
      intros x [Hx| ->%list_elem_of_singleton]%elem_of_app; [by apply Hl1|]. lia.
Qed.

Lemma wp_reserve_region l reg s (Q : bool -> ndks_boot_t -> Prop) :
  holds l s -> normal l -> 0 <= r_start reg <= r_end reg -> beside reg l ->
  (forall s' l', now_reserved l reg s s' l' -> Q true s') ->
  (MAX_NUM_RESV_REG <= Z.of_nat (length l) + 1 -> Q false s) ->
  wp (reserve_region reg) Q s.
Proof.
  intros Hh Hn Hreg Hb Hok Hfull. unfold reserve_region. wp_struct. wp_struct; [apply Z.leb_le; lia|].
  destruct (Z.eqb_spec (r_start reg) (r_end reg)) as [E|E].
  - wp_struct. apply (Hok s l). split; [done|done| |lia|]; [|exists (reserved s), (resv_count s); by rewrite with_arr_id].
    intros x. unfold inside. split; [by right|]. intros [?|?]; [lia|done].
  - wp_struct. wp_struct. rewrite (ho_count _ _ Hh), Nat2Z.id.
    apply (wp_reserve_loop reg l [] s Q); [done|done|lia|done|by intros r ?%elem_of_nil|done|done].
Qed.
End Reserve.
