(* ===== verification/BootFree.v ===== *)
(** * Carving the free memory

    What [init_freemem] makes of the available and the reserved regions.  The
    loops insert and reserve regions in an order that only the two lists
    determine: [carve] computes it, and its regions are proved to be the
    available addresses that are not reserved. *)
From S2P Require Import Prelude Bytes Structures CapOps VSpace Sched Mdb Untyped Boot BootInv.
From stdpp Require Import base list gmap.
#[local] Open Scope Z_scope.

(** ** The order of events *)
Inductive event := Res (r : region) | Ins (r : region).
Definition event_region (e : event) : region := match e with Res r | Ins r => r end.
Definition reserved_of (l : list event) : list region := omap (fun e => match e with Res r => Some r | _ => None end) l.
Definition inserted_of (l : list event) : list region := omap (fun e => match e with Ins r => Some r | _ => None end) l.

Definition reg_nonempty (r : region) : Prop := r_start r < r_end r.
#[export] Instance nonempty_dec r : Decision (reg_nonempty r).
Proof. unfold reg_nonempty. apply _. Defined.

Fixpoint carve (n : nat) (avail rsv : list region) : option (list event) :=
  match n with
  | O => None
  | S n' =>
      match avail, rsv with
      | av :: avail', rv :: rsv' =>
          if r_start rv =? r_end rv then carve n' avail rsv'
          else if r_end av <=? r_start av then carve n' avail' rsv
          else if r_end rv <=? r_start av then cons (Res rv) <$> carve n' avail rsv'
          else if r_end av <=? r_start rv then cons (Ins av) <$> carve n' avail' rsv
          else if r_start rv <=? r_start av then
            carve n' (mk_region (Z.min (r_end av) (r_end rv)) (r_end av) :: avail') rsv
          else
            cons (Ins (mk_region (r_start av) (r_start rv))) <$>
              (if r_end rv <? r_end av then carve n' (mk_region (r_end rv) (r_end av) :: avail') rsv
               else carve n' avail' rsv)
      | _, _ => Some ((Res <$> filter reg_nonempty rsv) ++ (Ins <$> filter reg_nonempty avail))
      end
  end.

(** ** The events of sorted lists *)

(** Regions in order above [lo], possibly empty. *)
Fixpoint weak_from (lo : Z) (l : list region) : Prop :=
  match l with [] => True | r :: l' => lo <= r_start r <= r_end r /\ weak_from (r_end r) l' end.

Lemma weak_weaken lo lo' l : weak_from lo l -> lo' <= lo -> weak_from lo' l.
Proof. destruct l as [|r l]; [done|]. intros [H1 H2] H. split; [lia|done]. Qed.

Lemma weak_above lo l r : weak_from lo l -> r ∈ l -> lo <= r_start r <= r_end r.
Proof.
  revert lo. induction l as [|r' l IH]; intros lo; [by intros _ ?%elem_of_nil|].
  intros [H1 H2] [->|H]%elem_of_cons; [done|]. specialize (IH _ H2 H). lia.
Qed.

Lemma weak_covers lo l x : weak_from lo l -> covers l x -> lo <= x.
Proof. intros H (r & Hr & Hx). pose proof (weak_above _ _ _ H Hr). unfold inside in Hx. lia. Qed.

Lemma covers_filter l x : covers (filter reg_nonempty l) x <-> covers l x.
Proof.
  unfold covers. setoid_rewrite list_elem_of_filter. unfold reg_nonempty, inside.
  split; intros (r & H & Hx); exists r; [tauto|split; [split; [lia|done]|done]].
Qed.

Lemma loose_filter lo l : weak_from lo l -> loose_from lo (filter reg_nonempty l).
Proof.
  revert lo. induction l as [|r l IH]; intros lo; [done|]. intros [H1 H2]. rewrite filter_cons.
  destruct (decide (reg_nonempty r)) as [Hr|Hr]; unfold reg_nonempty in Hr.
  - split; [lia|by apply IH].
  - apply IH. eapply weak_weaken; [done|lia].
Qed.

(** What the events of two lists must be. *)
Record carved (lo : Z) (avail rsv : list region) (evs : list event) : Prop := {
  cv_reserved : reserved_of evs = filter reg_nonempty rsv;
  cv_loose : loose_from lo (inserted_of evs);
  cv_covers : forall x, covers (inserted_of evs) x <-> covers avail x /\ ~ covers rsv x
}.

Lemma reserved_of_app l1 l2 : reserved_of (l1 ++ l2) = reserved_of l1 ++ reserved_of l2.
Proof. apply omap_app. Qed.
Lemma inserted_of_app l1 l2 : inserted_of (l1 ++ l2) = inserted_of l1 ++ inserted_of l2.
Proof. apply omap_app. Qed.
Lemma of_Res l : reserved_of (Res <$> l) = l /\ inserted_of (Res <$> l) = [].
Proof. induction l as [|r l [IH1 IH2]]; [done|]. unfold reserved_of, inserted_of in *. cbn. by rewrite IH1, IH2. Qed.
Lemma of_Ins l : reserved_of (Ins <$> l) = [] /\ inserted_of (Ins <$> l) = l.
Proof. induction l as [|r l [IH1 IH2]]; [done|]. unfold reserved_of, inserted_of in *. cbn. by rewrite IH1, IH2. Qed.

Lemma carved_end lo avail rsv : weak_from lo avail -> avail = [] \/ rsv = [] ->
  carved lo avail rsv ((Res <$> filter reg_nonempty rsv) ++ (Ins <$> filter reg_nonempty avail)).
Proof.
  intros Ha He. destruct (of_Res (filter reg_nonempty rsv)) as [E1 E2], (of_Ins (filter reg_nonempty avail)) as [E3 E4].
  split; rewrite ?reserved_of_app, ?inserted_of_app, ?E1, ?E2, ?E3, ?E4, ?app_nil_r; cbn [app]; [done|by apply loose_filter|].
  intros x. rewrite covers_filter. destruct He as [-> | ->]; split; try (by intros [? _]); try by intros ?%covers_nil.
  intros H. split; [done|apply covers_nil].
Qed.

(** One event at a time. *)
Lemma carved_skip_rsv lo avail rv rsv evs : r_start rv = r_end rv -> carved lo avail rsv evs -> carved lo avail (rv :: rsv) evs.
Proof.
  intros E [H1 H2 H3]. split; [|done|].
  - rewrite H1, filter_cons_False; [done|]. unfold reg_nonempty. lia.
  - intros x. rewrite H3, covers_cons. unfold inside. intuition lia.
Qed.

Lemma carved_skip_avail lo av avail rsv evs : r_end av <= r_start av -> carved lo avail rsv evs -> carved lo (av :: avail) rsv evs.
Proof. intros E [H1 H2 H3]. split; [done|done|]. intros x. rewrite H3, covers_cons. unfold inside. intuition lia. Qed.

Lemma carved_res lo lo' av avail rv rsv evs : r_start rv < r_end rv -> r_end rv <= r_start av -> weak_from lo' (av :: avail) ->
  carved lo (av :: avail) rsv evs -> carved lo (av :: avail) (rv :: rsv) (Res rv :: evs).
Proof.
  intros E E2 Hw [H1 H2 H3]. split; [|done|].
  - change (reserved_of (Res rv :: evs)) with (rv :: reserved_of evs). rewrite H1, filter_cons_True; [done|exact E].
  - intros x. change (inserted_of (Res rv :: evs)) with (inserted_of evs). rewrite H3, !(covers_cons rv).
    split; [|tauto]. intros [Ha Hr]. split; [done|]. intros [Hx|Hx]; [|done].
    assert (Hx2 : r_end rv <= x); [|unfold inside in Hx; lia]. destruct Hw as [Hav Hw].
    apply covers_cons in Ha as [Ha|Ha]; [unfold inside in Ha; lia|]. apply (weak_covers _ _ _ Hw) in Ha. lia.
Qed.

Lemma carved_ins lo r av avail avail' rv rsv evs : lo <= r_start r < r_end r -> r_end r <= r_start rv -> weak_from (r_start rv) (rv :: rsv) ->
  (forall x, covers (av :: avail) x <-> inside r x \/ covers avail' x \/ inside av x /\ inside rv x) ->
  carved (r_end r) avail' (rv :: rsv) evs ->
  carved lo (av :: avail) (rv :: rsv) (Ins r :: evs).
Proof.
  intros E1 E2 Hw Hc [H1 H2 H3]. split; [done|by split|].
  intros x. change (inserted_of (Ins r :: evs)) with (r :: inserted_of evs). rewrite covers_cons, H3, Hc.
  assert (Hrx : inside r x -> ~ covers (rv :: rsv) x).
  { intros Hx Hr. apply (weak_covers _ _ _ Hw) in Hr. unfold inside in Hx. lia. }
  assert (Hrv : inside rv x -> covers (rv :: rsv) x) by (intros; apply covers_cons; by left). tauto.
Qed.

(** The fuel that is needed: each round drops a region, or trims the first one
    so that the next round drops one. *)
Definition overlap (av rv : region) : nat :=
  if (r_start rv <? r_end rv) && (r_start av <? r_end av) && (r_start av <? r_end rv) && (r_start rv <? r_end av) then 1%nat else 0%nat.
Definition carve_need (avail rsv : list region) : nat :=
  match avail, rsv with
  | av :: _, rv :: _ => (2 * (length avail + length rsv) - 2 + overlap av rv)%nat
  | _, _ => 1%nat
  end.

Lemma overlap_le av rv : (overlap av rv <= 1)%nat.
Proof. unfold overlap. by destruct (_ && _); lia. Qed.

Lemma overlap_0 av rv : r_end av <= r_start av \/ r_end rv <= r_start av -> overlap av rv = 0%nat.
Proof.
  intros H. unfold overlap. destruct (_ && _) eqn:E; [|done]. bool_hyps. lia.
Qed.

Lemma carve_need_le avail rsv : (carve_need avail rsv <= 2 * (length avail + length rsv) + 1)%nat.
Proof.
  unfold carve_need. destruct avail as [|av avail], rsv as [|rv rsv]; cbn [length]; try lia. pose proof (overlap_le av rv). lia.
Qed.

Lemma carve_need_tail_rsv av avail rv rsv : (carve_need (av :: avail) rsv < carve_need (av :: avail) (rv :: rsv))%nat.
Proof.
  unfold carve_need. destruct rsv as [|rv' rsv]; cbn [length]; [lia|]. pose proof (overlap_le av rv'). lia.
Qed.

Lemma carve_need_tail_avail av avail rv rsv : (carve_need avail (rv :: rsv) < carve_need (av :: avail) (rv :: rsv))%nat.
Proof.
  unfold carve_need. destruct avail as [|av' avail]; cbn [length]; [lia|]. pose proof (overlap_le av' rv). lia.
Qed.

Lemma carve_need_trim av av' avail rv rsv : overlap av rv = 1%nat -> r_end av' <= r_start av' \/ r_end rv <= r_start av' ->
  (carve_need (av' :: avail) (rv :: rsv) < carve_need (av :: avail) (rv :: rsv))%nat.
Proof. intros H1 H2. unfold carve_need. cbn [length]. rewrite H1, (overlap_0 av') by done. lia. Qed.

Lemma carve_ok n : forall avail rsv lo lo', (carve_need avail rsv <= n)%nat -> weak_from lo avail -> weak_from lo' rsv ->
  exists evs, carve n avail rsv = Some evs /\ carved lo avail rsv evs.
Proof.
  induction n as [|n IH]; intros avail rsv lo lo' Hn Ha Hr.
  { exfalso. unfold carve_need in Hn. destruct avail, rsv; cbn [length] in Hn; lia. }
  cbn [carve]. destruct avail as [|av avail], rsv as [|rv rsv];
    try (eexists; split; [reflexivity|]; apply carved_end; tauto).
  pose proof (carve_need_tail_rsv av avail rv rsv) as Nr. pose proof (carve_need_tail_avail av avail rv rsv) as Na.
  pose proof Ha as [Ha1 Ha2]. pose proof Hr as [Hr1 Hr2].
  assert (Hrv : weak_from (r_start rv) (rv :: rsv)) by (split; [lia|done]).
  destruct (Z.eqb_spec (r_start rv) (r_end rv)) as [E1|E1].
  { destruct (IH (av :: avail) rsv lo (r_end rv)) as (evs & -> & Hc); [lia|done|done|]. eexists. split; [done|]. by apply carved_skip_rsv. }
  destruct (Z.leb_spec (r_end av) (r_start av)) as [E2|E2].
  { destruct (IH avail (rv :: rsv) lo lo') as (evs & -> & Hc); [lia|eapply weak_weaken; [done|lia]|done|].
    eexists. split; [done|]. by apply carved_skip_avail. }
  destruct (Z.leb_spec (r_end rv) (r_start av)) as [E3|E3].
  { destruct (IH (av :: avail) rsv lo (r_end rv)) as (evs & -> & Hc); [lia|done|done|]. eexists. split; [done|].
    eapply carved_res; [lia|done| |done]. exact Ha. }
  destruct (Z.leb_spec (r_end av) (r_start rv)) as [E4|E4].
  { destruct (IH avail (rv :: rsv) (r_end av) lo') as (evs & -> & Hc); [lia|done|done|]. eexists. split; [done|].
    eapply carved_ins; [lia|done|done| |done]. intros x. rewrite covers_cons. split; [tauto|].
    intros [H|[H|[H _]]]; tauto. }
  assert (Ho : overlap av rv = 1%nat).
  { unfold overlap. by rewrite !(proj2 (Z.ltb_lt _ _)) by lia. }
  destruct (Z.leb_spec (r_start rv) (r_start av)) as [E5|E5].
  { set (av' := mk_region (Z.min (r_end av) (r_end rv)) (r_end av)).
    pose proof (carve_need_trim av av' avail rv rsv Ho ltac:(cbn; lia)) as Nt.
    destruct (IH (av' :: avail) (rv :: rsv) lo lo') as (evs & -> & Hc); [lia|split; [cbn; lia|done]|done|]. eexists. split; [done|].
    destruct Hc as [H1 H2 H3]. split; [done|done|]. intros x. rewrite H3, !covers_cons. unfold inside. cbn. intuition lia. }
  destruct (Z.ltb_spec (r_end rv) (r_end av)) as [E6|E6].
  - set (av' := mk_region (r_end rv) (r_end av)).
    pose proof (carve_need_trim av av' avail rv rsv Ho ltac:(cbn; lia)) as Nt.
    destruct (IH (av' :: avail) (rv :: rsv) (r_start rv) lo') as (evs & -> & Hc); [lia|split; [cbn; lia|done]|done|]. eexists. split; [done|].
    eapply carved_ins; [cbn; lia|cbn; lia|done| |exact Hc]. intros x. rewrite !covers_cons. unfold inside. cbn. intuition lia.
  - destruct (IH avail (rv :: rsv) (r_start rv) lo') as (evs & -> & Hc); [lia|eapply weak_weaken; [done|lia]|done|]. eexists. split; [done|].
    eapply carved_ins; [cbn; lia|cbn; lia|done| |exact Hc]. intros x. rewrite !covers_cons. unfold inside. cbn. intuition lia.
Qed.

(** ** Apart *)
Fixpoint events_apart (l : list event) : Prop :=
  match l with
  | [] => True
  | e :: l' => (forall e' x, e' ∈ l' -> inside (event_region e) x -> ~ inside (event_region e') x) /\ events_apart l'
  end.

Lemma in_events e l : e ∈ l -> match e with Res r => r ∈ reserved_of l | Ins r => r ∈ inserted_of l end.
Proof.
  intros H. destruct e; [unfold reserved_of|unfold inserted_of]; apply list_elem_of_omap; by eexists.
Qed.

Lemma apart_intro l : forall lo1 lo2, loose_from lo1 (reserved_of l) -> loose_from lo2 (inserted_of l) ->
  (forall x, covers (inserted_of l) x -> ~ covers (reserved_of l) x) -> events_apart l.
Proof.
  induction l as [|e l IH]; intros lo1 lo2 H1 H2 H; [done|]. destruct e as [r|r].
  - change (reserved_of (Res r :: l)) with (r :: reserved_of l) in *. change (inserted_of (Res r :: l)) with (inserted_of l) in *.
    destruct H1 as [Hr H1]. split; [|eapply IH; [exact H1|exact H2|]; intros x Hx Hx'; apply (H x Hx), covers_cons; by right].
    intros e' x He%in_events Hx Hx'. destruct e' as [r'|r']; cbn in *.
    + pose proof (loose_above _ _ _ H1 He). unfold inside in *. lia.
    + apply (H x); [by exists r'|apply covers_cons; by left].
  - change (reserved_of (Ins r :: l)) with (reserved_of l) in *. change (inserted_of (Ins r :: l)) with (r :: inserted_of l) in *.
    destruct H2 as [Hr H2]. split; [|eapply IH; [exact H1|exact H2|]; intros x Hx; apply H, covers_cons; by right].
    intros e' x He%in_events Hx Hx'. destruct e' as [r'|r']; cbn in *.
    + apply (H x); [apply covers_cons; by left|by exists r'].
    + pose proof (loose_above _ _ _ H2 He). unfold inside in *. lia.
Qed.

Lemma beside_intro r l : reg_nonempty r -> normal l -> (forall x, inside r x -> ~ covers l x) -> beside r l.
Proof.
  intros Hr Hn H r' Hin. pose proof (normal_above _ _ _ Hn Hin). unfold reg_nonempty in Hr.
  destruct (decide (r_end r' <= r_start r)); [by left|]. right. destruct (decide (r_end r <= r_start r')); [done|]. exfalso.
  apply (H (Z.max (r_start r) (r_start r'))); [unfold inside; lia|]. exists r'. unfold inside. split; [done|lia].
Qed.

(** ** Addresses in the kernel window *)
Definition in_window (r : region) : Prop := PPTR_BASE <= r_start r <= r_end r /\ r_end r <= PPTR_TOP.
Definition pa (r : region) : region := mk_region (r_start r - PPTR_BASE) (r_end r - PPTR_BASE).

Lemma pa_eq r : in_window r -> pptr_to_paddr_reg r = pa r.
Proof.
  unfold in_window, pptr_to_paddr_reg, pa, addrFromPPtr, PPTR_BASE_OFFSET, PADDR_BASE, PPTR_BASE, PPTR_TOP. intros H.
  rewrite !wsub_small by (unfold is_word, word_modulus; lia). f_equal; lia.
Qed.

Lemma inside_pa r x : inside (pa r) x <-> inside r (x + PPTR_BASE).
Proof. unfold inside, pa. cbn [r_start r_end]. lia. Qed.

Section Events.
Context `{BP : BootPlatform}.

Record free_holds (fr : list region) (s : ndks_boot_t) : Prop := {
  fh_array : exists k, freemem s = fr ++ replicate k REG_EMPTY;
  fh_size : Z.of_nat (length (freemem s)) = MAX_NUM_FREEMEM_REG;
  fh_nonempty : forall r, r ∈ fr -> reg_nonempty r
}.

(** The reserved physical regions [l] and the free regions [fr]. *)
Record mem (l fr : list region) (s : ndks_boot_t) : Prop := {
  mm_holds : holds l s;
  mm_normal : normal l;
  mm_free : free_holds fr s
}.

(** Only the two arrays change. *)
Record arrays_only (s s' : ndks_boot_t) : Prop := {
  ao_pos : slot_pos_cur s' = slot_pos_cur s;
  ao_bi : bi_frame s' = bi_frame s;
  ao_mem : rootserver_mem s' = rootserver_mem s;
  ao_root : rootserver s' = rootserver s;
  ao_slots : boot_slots s' = boot_slots s;
  ao_zeroed : boot_zeroed s' = boot_zeroed s
}.

#[global] Instance arrays_only_preorder : PreOrder arrays_only.
Proof. split; [by intros s|]. intros s1 s2 s3 [] []. split; congruence. Qed.

Lemma only_arr_arrays s s' : only_arr s s' -> arrays_only s s' /\ freemem s' = freemem s.
Proof. intros (a & c & ->). by split. Qed.

Definition run_event (e : event) : B unit :=
  match e with
  | Res r => let* _ := reserve_region (pptr_to_paddr_reg r) in ret tt
  | Ins r => let* _ := insert_region r in ret tt
  end.
Fixpoint run_events (l : list event) : B unit :=
  match l with [] => ret tt | e :: l' => run_event e ;;; run_events l' end.

(** What one event does to the arrays. *)
Record after_event (l fr : list region) (e : event) (s s' : ndks_boot_t) (l' : list region) : Prop := {
  ae_mem : mem l' (fr ++ inserted_of [e]) s';
  ae_covers : forall x, covers l' x <-> inside (pa (event_region e)) x \/ covers l x;
  ae_length : (length l' <= S (length l))%nat;
  ae_arrays : arrays_only s s'
}.

Lemma wp_reserve_pptr l fr r s (Q : bool -> ndks_boot_t -> Prop) :
  mem l fr s -> in_window r -> reg_nonempty r -> (forall x, inside (pa r) x -> ~ covers l x) ->
  Z.of_nat (length l) + 1 < MAX_NUM_RESV_REG ->
  (forall s' l', after_event l fr (Res r) s s' l' -> freemem s' = freemem s -> Q true s') ->
  wp (reserve_region (pptr_to_paddr_reg r)) Q s.
Proof.
  intros [Hh Hn [Hf Hs Hne]] Hw Hr Hd Hroom HQ. rewrite pa_eq by done. destruct Hw as [H1 H2]. unfold reg_nonempty in Hr.
  apply (wp_reserve_region l); [done|done|cbn; lia|apply beside_intro; [unfold reg_nonempty; cbn; lia|done|done]| |lia].
  intros s' l' [N1 N2 N3 N4 N5]. destruct (only_arr_arrays s s' N5) as [Ha Ef]. apply (HQ s' l'); [|done]. split; [|done|done|done].
  cbn [inserted_of omap list_omap]. rewrite app_nil_r. split; [done|done|]. split; [by rewrite Ef|by rewrite Ef|done].
Qed.

Lemma wp_get_freemem s i r (Q : region -> ndks_boot_t -> Prop) :
  freemem s !! i = Some r -> Q r s -> wp (get_freemem (Z.of_nat i)) Q s.
Proof.
  intros Hi HQ. unfold get_freemem. wp_struct. wp_struct. wp_struct. wp_struct; [apply Z.leb_le; lia|].
  eapply wp_from_option; [rewrite Nat2Z.id; exact Hi|exact HQ].
Qed.

Lemma wp_put_freemem s i r (Q : unit -> ndks_boot_t -> Prop) :
  (i < length (freemem s))%nat -> Q tt (set_freemem (insert i r) s) -> wp (put_freemem (Z.of_nat i) r) Q s.
Proof.
  intros Hi HQ. unfold put_freemem. wp_struct. wp_struct. wp_struct. wp_struct.
  { apply andb_true_iff. rewrite Z.leb_le, Z.ltb_lt. lia. }
  wp_struct. by rewrite Nat2Z.id.
Qed.

Lemma wp_insert_loop l fr0 reg fr : forall pre s n (Q : bool -> ndks_boot_t -> Prop),
  fr0 = pre ++ fr -> mem l fr0 s -> in_window reg -> reg_nonempty reg -> (forall x, inside (pa reg) x -> ~ covers l x) ->
  Z.of_nat (length l) + 1 < MAX_NUM_RESV_REG -> Z.of_nat (length fr0) < MAX_NUM_FREEMEM_REG -> (length fr < n)%nat ->
  (forall s' l', after_event l fr0 (Ins reg) s s' l' -> Q true s') ->
  wp (insert_loop n (Z.of_nat (length pre)) reg) Q s.
Proof.
  induction fr as [|r fr IH]; intros pre s n Q E Hm Hw Hne Hd Hroom Hfree Hn HQ; (destruct n as [|n]; [lia|]); cbn [insert_loop];
    pose proof Hm as [_ _ [[k Ef] Hs Hfn]].
  - rewrite app_nil_r in E. subst pre. rewrite Ef, length_app, length_replicate in Hs.
    destruct k as [|k]; [lia|]. wp_struct. apply (wp_get_freemem s _ REG_EMPTY); [by rewrite Ef; apply list_lookup_middle|].
    change (is_reg_empty REG_EMPTY) with true. cbv iota. wp_struct. apply (wp_reserve_pptr l fr0); [done..|].
    intros s1 l1 [[M1 M2 [_ _ _]] C1 L1 A1] Ef1. wp_struct. rewrite Ef in Ef1. apply wp_put_freemem; [rewrite Ef1, length_app; cbn; lia|].
    wp_struct. apply (HQ _ l1). split; [|done|done|by destruct A1].
    split; [by destruct M1|done|]. split; cbn [freemem set_freemem].
    + exists k. rewrite Ef1. rewrite insert_app_r_alt, Nat.sub_diag by lia. by rewrite <- app_assoc.
    + rewrite Ef1, length_insert, length_app, length_replicate. lia.
    + intros r [Hr| ->%list_elem_of_singleton]%elem_of_app; [by apply Hfn|done].
  - assert (Hlk : freemem s !! length pre = Some r) by (rewrite Ef, E, <- app_assoc; apply list_lookup_middle; done).
    wp_struct. apply (wp_get_freemem s _ r); [done|].
    assert (Hr : reg_nonempty r) by (apply Hfn; rewrite E; apply elem_of_app; right; left).
    unfold is_reg_empty. rewrite (proj2 (Z.eqb_neq _ _)) by (unfold reg_nonempty in Hr; lia).
    replace (Z.of_nat (length pre) + 1) with (Z.of_nat (length (pre ++ [r]))) by (rewrite length_app; cbn; lia).
    apply IH; try done; [by rewrite <- app_assoc|cbn in Hn; lia].
Qed.

Lemma wp_run_event l fr e s (Q : unit -> ndks_boot_t -> Prop) :
  mem l fr s -> in_window (event_region e) -> reg_nonempty (event_region e) -> (forall x, inside (pa (event_region e)) x -> ~ covers l x) ->
  Z.of_nat (length l) + 1 < MAX_NUM_RESV_REG -> Z.of_nat (length (fr ++ inserted_of [e])) <= MAX_NUM_FREEMEM_REG ->
  (forall s' l', after_event l fr e s s' l' -> Q tt s') -> wp (run_event e) Q s.
Proof.
  intros Hm Hw Hne Hd Hroom Hfree HQ. destruct e as [r|r]; cbn [run_event event_region] in *; wp_struct.
  - apply (wp_reserve_pptr l fr); [done..|]. intros s' l' Ha _. wp_struct. by apply (HQ s' l').
  - unfold insert_region. wp_struct. wp_struct; [apply Z.leb_le; unfold in_window in Hw; lia|].
    unfold is_reg_empty at 1. rewrite (proj2 (Z.eqb_neq _ _)) by (unfold reg_nonempty in Hne; lia).
    rewrite length_app in Hfree. cbn in Hfree.
    apply (wp_insert_loop l fr r fr []); try done; lia.
Qed.

(** All events. *)
Record after_events (l fr : list region) (evs : list event) (s s' : ndks_boot_t) (l' : list region) : Prop := {
  aes_mem : mem l' (fr ++ inserted_of evs) s';
  aes_covers : forall x, covers l' x <-> covers l x \/ exists e, e ∈ evs /\ inside (pa (event_region e)) x;
  aes_arrays : arrays_only s s'
}.

Lemma wp_run_events evs : forall l fr s (Q : unit -> ndks_boot_t -> Prop),
  mem l fr s -> (forall e, e ∈ evs -> in_window (event_region e) /\ reg_nonempty (event_region e)) -> events_apart evs ->
  (forall e x, e ∈ evs -> inside (pa (event_region e)) x -> ~ covers l x) ->
  Z.of_nat (length l + length evs) < MAX_NUM_RESV_REG -> Z.of_nat (length (fr ++ inserted_of evs)) <= MAX_NUM_FREEMEM_REG ->
  (forall s' l', after_events l fr evs s s' l' -> Q tt s') -> wp (run_events evs) Q s.
Proof.
  induction evs as [|e evs IH]; intros l fr s Q Hm Hw Hap Hd Hroom Hfree HQ; cbn [run_events].
  { wp_struct. apply (HQ s l). split; [by rewrite app_nil_r| |done]. intros x. split; [by left|]. intros [?|(e & ?%elem_of_nil & _)]; done. }
  destruct Hap as [He Hap]. change (e :: evs) with ([e] ++ evs) in Hfree, HQ. rewrite inserted_of_app, app_assoc in Hfree.
  destruct (Hw e ltac:(left)) as [Hw1 Hw2]. cbn [length] in Hroom. wp_struct.
  apply (wp_run_event l fr e); [done|done|done|intros x; apply Hd; left|lia|rewrite length_app in Hfree; lia|].
  intros s1 l1 [M1 C1 L1 A1]. apply (IH l1 (fr ++ inserted_of [e])); [done|intros e' ?; apply Hw; by right|done| |lia|exact Hfree|].
  - intros e' x Hin Hx [Hx'|Hx']%C1; [|by apply (Hd e' x); [right|..]]. apply inside_pa in Hx, Hx'. by apply (He e' (x + PPTR_BASE)).
  - intros s2 l2 [M2 C2 A2]. apply (HQ s2 l2). split; [by rewrite inserted_of_app, app_assoc| |by transitivity s1].
    intros x. rewrite C2, C1. setoid_rewrite elem_of_app. setoid_rewrite list_elem_of_singleton. split.
    + intros [[H|H]|(e' & Hin & H)]; [right; exists e; by auto|by left|right; exists e'; by auto].
    + intros [H|(e' & [->|Hin] & H)]; [by auto|by auto|right; by exists e'].
Qed.
End Events.
