(* ===== verification/BootRoot.v ===== *)
(** * The objects of the root server

    [create_rootserver_objects] trips none of its assertions: taken in the
    order of the code, the objects are aligned and fill the memory set aside
    for them exactly. *)
From S2P Require Import Prelude Bytes Structures CapOps VSpace Sched Mdb Untyped Boot BootInv BootFree.
From stdpp Require Import base list gmap.
#[local] Open Scope Z_scope.

(** [l] cuts the addresses from [a] to [b] into consecutive pieces. *)
Fixpoint tiles (a : Z) (l : list region) (b : Z) : Prop :=
  match l with [] => a = b | r :: l' => r_start r = a /\ a <= r_end r /\ tiles (r_end r) l' b end.

Lemma tiles_app a l1 b l2 c : tiles a l1 b -> tiles b l2 c -> tiles a (l1 ++ l2) c.
Proof.
  revert a. induction l1 as [|r l1 IH]; intros a; cbn [tiles app]; [by intros ->|].
  intros (H1 & H2 & H3) H4. split_and!; [done|done|by apply IH].
Qed.

Lemma tiles_weak a l b : tiles a l b -> weak_from a l /\ a <= b.
Proof.
  revert a. induction l as [|r l IH]; intros a; cbn [tiles weak_from]; [intros ->; split; [done|lia]|].
  intros (<- & H2 & H3). destruct (IH _ H3) as [H4 H5]. split; [split; [lia|done]|lia].
Qed.

Lemma tiles_covers a l b x : tiles a l b -> covers l x <-> a <= x < b.
Proof.
  revert a. induction l as [|r l IH]; intros a; cbn [tiles].
  - intros ->. split; [by intros ?%covers_nil|lia].
  - intros (<- & H2 & H3). rewrite covers_cons, (IH _ H3). apply tiles_weak in H3 as [_ H3]. unfold inside. lia.
Qed.

Definition aligned (a bits : Z) : Prop := (2 ^ bits | a).

Lemma aligned_le a b c : aligned a c -> 0 <= b <= c -> aligned a b.
Proof.
  intros H Hb. eapply Z.divide_trans; [|exact H]. exists (2 ^ (c - b)). rewrite <- Z.pow_add_r by lia. f_equal. lia.
Qed.

Lemma aligned_add a b c : aligned a b -> (2 ^ b | c) -> aligned (a + c) b.
Proof. apply Z.divide_add_r. Qed.

Lemma pow_divide b c : 0 <= b <= c -> (2 ^ b | 2 ^ c).
Proof. intros H. exists (2 ^ (c - b)). rewrite <- Z.pow_add_r by lia. f_equal. lia. Qed.

Section Root.
Context `{BP : BootPlatform}.

(** The fields that the allocation changes. *)
Definition with_root (s : ndks_boot_t) (m : region) (rs : rootserver_mem_t) (z : list region) : ndks_boot_t := mk_boot_state
  (reserved s) (resv_count s) (freemem s) (slot_pos_cur s) (bi_frame s) m rs (boot_slots s) z.

Lemma with_root_id s : with_root s (rootserver_mem s) (rootserver s) (boot_zeroed s) = s.
Proof. by destruct s. Qed.

Lemma wp_alloc_obj s a e rs z bits n (Q : Z -> ndks_boot_t -> Prop) :
  aligned a bits -> 0 <= a -> 0 <= bits < 64 -> 0 <= n -> a + n * 2 ^ bits <= e < 2 ^ 64 ->
  Q a (with_root s (mk_region (a + n * 2 ^ bits) e) rs (mk_region a (a + n * 2 ^ bits) :: z)) ->
  wp (alloc_rootserver_obj bits n) Q (with_root s (mk_region a e) rs z).
Proof.
  intros Hal Ha Hb Hn He HQ. assert (0 < 2 ^ bits) by (apply Z.pow_pos_nonneg; lia). unfold alloc_rootserver_obj.
  wp_struct. wp_struct. cbn [rootserver_mem with_root r_start r_end]. rewrite BIT_pow by (unfold wordBits; lia).
  wp_struct. wp_struct; [apply Z.eqb_eq, Z.mod_divide; [lia|done]|].
  rewrite (wrap_small (n * 2 ^ bits)), wadd_small by (unfold is_word, word_modulus; nia).
  wp_struct. wp_struct. wp_struct. wp_struct; [apply Z.leb_le; lia|]. unfold memzero. wp_struct. wp_struct. wp_struct.
  unfold set_boot_zeroed, set_rootserver_mem. cbn. rewrite wadd_small by (unfold is_word, word_modulus; nia). exact HQ.
Qed.

(** The sizes that the configuration allows. *)
Record root_sizes (n extra : Z) : Prop := {
  rz_cnode : 12 <= cnode_size_bits < 32;
  rz_extra : extra = 0 \/ 12 <= extra < 48;
  rz_paging : 0 <= n < 2 ^ 48
}.

(** The memory of each object. *)
Definition obj (a bits : Z) : region := mk_region a (a + 2 ^ bits).
Definition root_objects (rs : rootserver_mem_t) (extra : Z) : list region :=
  obj (rs_cnode rs) cnode_size_bits :: obj (rs_vspace rs) seL4_VSpaceBits :: obj (rs_asid_pool rs) seL4_ASIDPoolBits ::
  obj (rs_ipc_buf rs) seL4_PageBits :: obj (rs_boot_info rs) seL4_BootInfoFrameBits :: rs_paging rs ::
  obj (rs_tcb rs) seL4_TCBBits :: (if 0 <? extra then [obj (rs_extra_bi rs) extra] else []).

(** The layout of the root server's memory from [start] to [end_]. *)
Record root_layout (rs : rootserver_mem_t) (n extra start end_ : Z) : Prop := {
  rl_tiles : exists l, l ≡ₚ root_objects rs extra /\ tiles start l end_;
  rl_cnode : aligned (rs_cnode rs) cnode_size_bits;
  rl_pages : Forall (fun a => aligned a 12) [rs_vspace rs; rs_asid_pool rs; rs_ipc_buf rs; rs_boot_info rs; r_start (rs_paging rs)];
  rl_tcb : aligned (rs_tcb rs) seL4_TCBBits;
  rl_extra : 0 < extra -> aligned (rs_extra_bi rs) extra;
  rl_paging : r_end (rs_paging rs) = r_start (rs_paging rs) + n * 2 ^ seL4_PageTableBits
}.

Definition root_size (n extra : Z) : Z :=
  2 ^ cnode_size_bits + 2 ^ 11 + 4 * 2 ^ 12 + (if 0 <? extra then 2 ^ extra else 0) + n * 2 ^ 12.

Lemma calculate_root_size it_v_reg extra : root_sizes (arch_get_n_paging it_v_reg) extra ->
  calculate_rootserver_size it_v_reg extra = root_size (arch_get_n_paging it_v_reg) extra /\
  0 < root_size (arch_get_n_paging it_v_reg) extra < 2 ^ 61.
Proof.
  set (n := arch_get_n_paging it_v_reg). intros [Hc He Hn]. unfold calculate_rootserver_size, root_size. fold n cnode_size_bits.
  assert (0 < 2 ^ cnode_size_bits < 2 ^ 32) by (split; [apply Z.pow_pos_nonneg; lia|apply Z.pow_lt_mono_r; lia]).
  assert (Hx : 0 <= (if 0 <? extra then 2 ^ extra else 0) < 2 ^ 48).
  { destruct (Z.ltb_spec 0 extra); [|lia]. split; [apply Z.pow_nonneg; lia|apply Z.pow_lt_mono_r; lia]. }
  rewrite (BIT_pow cnode_size_bits) by (unfold wordBits; lia).
  assert (Eb : (if 0 <? extra then BIT extra else 0) = (if 0 <? extra then 2 ^ extra else 0)).
  { destruct (Z.ltb_spec 0 extra); [|done]. apply BIT_pow. unfold wordBits. lia. }
  rewrite Eb. change (BIT seL4_TCBBits) with (2 ^ 11). change (BIT seL4_PageBits) with (2 ^ 12).
  change (BIT seL4_BootInfoFrameBits) with (2 ^ 12). change (BIT seL4_ASIDPoolBits) with (2 ^ 12).
  change (BIT seL4_VSpaceBits) with (2 ^ 12). change (BIT seL4_PageTableBits) with (2 ^ 12).
  set (x := if 0 <? extra then 2 ^ extra else 0) in *. clearbody x n. set (c := 2 ^ cnode_size_bits) in *. clearbody c.
  rewrite (wrap_small (n * 2 ^ 12)) by (unfold is_word, word_modulus; lia).
  unfold wadd, wrap, word_modulus.
  repeat match goal with |- context [?a mod 2 ^ 64] =>
    lazymatch a with context [_ mod _] => fail | _ => rewrite (Z.mod_small a) by lia end end.
  lia.
Qed.

(** One allocation that ends at [b], and the object it makes. *)
Lemma aligned_obj a b bits : aligned a b -> 0 <= bits <= b -> aligned (a + 2 ^ b) bits.
Proof. intros H1 H2. apply aligned_add; [by eapply aligned_le|by apply pow_divide]. Qed.

Ltac root_alloc := apply wp_alloc_obj; [|lia|lia|lia|lia|].
Ltac root_store :=
  wp_struct; wp_struct;
  match goal with |- wp _ _ (set_rootserver ?f (with_root ?s ?m ?rs ?z)) =>
    change (set_rootserver f (with_root s m rs z)) with (with_root s m (f rs) z); cbv beta end.

Ltac root_store_end :=
  wp_struct;
  match goal with |- context [set_rootserver ?f (with_root ?s ?m ?rs ?z)] =>
    change (set_rootserver f (with_root s m rs z)) with (with_root s m (f rs) z); cbv beta end.

(** The objects that follow the large ones, from a page boundary on. *)
Lemma wp_small_objects s a e rs z n (Q : unit -> ndks_boot_t -> Prop) :
  aligned a 12 -> 0 <= a -> 0 <= n -> e = a + 3 * 2 ^ 12 + n * 2 ^ 12 + 2 ^ 11 -> e < 2 ^ 64 ->
  (forall rs' z', rs_cnode rs' = rs_cnode rs -> rs_vspace rs' = rs_vspace rs -> rs_extra_bi rs' = rs_extra_bi rs ->
     tiles a [obj (rs_asid_pool rs') 12; obj (rs_ipc_buf rs') 12; obj (rs_boot_info rs') 12; rs_paging rs'; obj (rs_tcb rs') 11] e ->
     Forall (fun p => aligned p 12) [rs_asid_pool rs'; rs_ipc_buf rs'; rs_boot_info rs'; r_start (rs_paging rs')] ->
     aligned (rs_tcb rs') 11 -> r_end (rs_paging rs') = r_start (rs_paging rs') + n * 2 ^ 12 ->
     Q tt (with_root s (mk_region e e) rs' z')) ->
  wp (let* p := alloc_rootserver_obj seL4_ASIDPoolBits 1 in
      modify (set_rootserver (set_rs_asid_pool (fun _ => p))) ;;;
      let* p := alloc_rootserver_obj seL4_PageBits 1 in
      modify (set_rootserver (set_rs_ipc_buf (fun _ => p))) ;;;
      let* p := alloc_rootserver_obj seL4_BootInfoFrameBits 1 in
      modify (set_rootserver (set_rs_boot_info (fun _ => p))) ;;;
      let* p := alloc_rootserver_obj seL4_PageTableBits n in
      modify (set_rootserver (set_rs_paging (fun _ => mk_region p (wadd p (wrap (n * BIT seL4_PageTableBits)))))) ;;;
      let* p := alloc_rootserver_obj seL4_TCBBits 1 in
      modify (set_rootserver (set_rs_tcb (fun _ => p))) ;;;
      let* m := gets rootserver_mem in
      assert (r_start m =? r_end m)) Q (with_root s (mk_region a e) rs z).
Proof.
  intros Ha H0 Hn He He64 HQ. assert (Hp : (2 ^ 12 | 2 ^ 12)) by reflexivity.
  change seL4_ASIDPoolBits with 12. change seL4_PageBits with 12. change seL4_BootInfoFrameBits with 12.
  change seL4_PageTableBits with 12. change seL4_TCBBits with 11. change (BIT 12) with (2 ^ 12).
  assert (A1 : aligned (a + 1 * 2 ^ 12) 12) by (by apply aligned_add).
  assert (A2 : aligned (a + 1 * 2 ^ 12 + 1 * 2 ^ 12) 12) by (by apply aligned_add).
  assert (A3 : aligned (a + 1 * 2 ^ 12 + 1 * 2 ^ 12 + 1 * 2 ^ 12) 12) by (by apply aligned_add).
  assert (A4 : aligned (a + 1 * 2 ^ 12 + 1 * 2 ^ 12 + 1 * 2 ^ 12 + n * 2 ^ 12) 11).
  { apply aligned_add; [by eapply aligned_le|]. apply Z.divide_mul_r. exists 2. reflexivity. }
  do 4 (wp_struct; root_alloc; [done|]; root_store).
  wp_struct. root_alloc; [done|]. root_store. wp_struct. wp_struct. cbn [rootserver_mem with_root r_start r_end].
  apply wp_assert; [apply Z.eqb_eq; lia|].
  rewrite (wrap_small (n * 2 ^ 12)), wadd_small by (unfold is_word, word_modulus; lia).
  replace (a + 1 * 2 ^ 12 + 1 * 2 ^ 12 + 1 * 2 ^ 12 + n * 2 ^ 12 + 1 * 2 ^ 11) with e by lia.
  apply HQ; try reflexivity; cbn; [unfold obj; cbn [r_start r_end]; lia|by repeat constructor|done].
Qed.

(** The large objects: the root CNode, the top-level page table, and the extra
    boot information where its size puts it. *)
Definition large_objects (rs : rootserver_mem_t) (extra : Z) : list region :=
  obj (rs_cnode rs) cnode_size_bits :: obj (rs_vspace rs) 12 :: (if 0 <? extra then [obj (rs_extra_bi rs) extra] else []).

Lemma wp_maybe_extra s a e rs z cmp extra (Q : unit -> ndks_boot_t -> Prop) :
  0 < a -> e < 2 ^ 64 -> 0 <= extra < 64 -> (cmp <= extra -> rs_extra_bi rs = 0 -> aligned a extra /\ a + 2 ^ extra <= e) ->
  Q tt (if bool_decide (cmp <= extra /\ rs_extra_bi rs = 0)
        then with_root s (mk_region (a + 2 ^ extra) e) (set_rs_extra_bi (fun _ => a) rs) (mk_region a (a + 1 * 2 ^ extra) :: z)
        else with_root s (mk_region a e) rs z) ->
  wp (maybe_alloc_extra_bi cmp extra) Q (with_root s (mk_region a e) rs z).
Proof.
  intros Ha He Hx Hal HQ. unfold maybe_alloc_extra_bi. wp_struct. wp_struct. cbn [rootserver with_root].
  case_bool_decide as E.
  - destruct E as [E1 E2]. rewrite (proj2 (Z.leb_le _ _) E1), E2. cbn [andb Z.eqb]. destruct (Hal E1 E2). wp_struct. root_alloc; [done|].
    wp_struct. replace (a + 1 * 2 ^ extra) with (a + 2 ^ extra) at 1 by lia. exact HQ.
  - destruct (Z.leb_spec cmp extra); [|cbn [andb]; by wp_struct]. destruct (Z.eqb_spec (rs_extra_bi rs) 0); [tauto|]. cbn [andb]. by wp_struct.
Qed.

(** What the large objects must satisfy. *)
Definition large_ok (rs : rootserver_mem_t) (extra a b : Z) : Prop :=
  (exists l, l ≡ₚ large_objects rs extra /\ tiles a l b) /\
  aligned (rs_cnode rs) cnode_size_bits /\ aligned (rs_vspace rs) 12 /\ (0 < extra -> aligned (rs_extra_bi rs) extra).

Ltac maybe_no :=
  apply wp_maybe_extra; [lia|lia|lia|cbn [rs_extra_bi set_rs_extra_bi set_rs_cnode set_rs_vspace]; intros; lia|];
  rewrite bool_decide_false by (cbn [rs_extra_bi set_rs_extra_bi set_rs_cnode set_rs_vspace]; lia); cbv beta iota.
Ltac maybe_yes := apply wp_maybe_extra; [lia|lia|lia|intros _ _; split; [done|lia]|]; rewrite bool_decide_true by (split; [lia|done]); cbv beta iota.
Ltac large_done l :=
  split_and!; [exists l; split; [unfold large_objects; first [rewrite (proj2 (Z.ltb_lt 0 _)) by lia | rewrite Z.ltb_irrefl]; cbn -[Z.pow Z.add]; solve_Permutation|cbn -[Z.pow Z.add Z.mul]; lia]|done|done|intros; first [lia|done]].

Lemma wp_large_objects s a e rs z extra (Q : unit -> ndks_boot_t -> Prop) :
  12 <= cnode_size_bits < 32 -> extra = 0 \/ 12 <= extra < 48 -> aligned a (rootserver_max_size_bits extra) -> 0 < a ->
  a + 2 ^ cnode_size_bits + 2 ^ 12 + (if 0 <? extra then 2 ^ extra else 0) <= e < 2 ^ 64 -> rs_extra_bi rs = 0 ->
  (forall rs' z' b, b = a + 2 ^ cnode_size_bits + 2 ^ 12 + (if 0 <? extra then 2 ^ extra else 0) ->
     large_ok rs' extra a b -> Q tt (with_root s (mk_region b e) rs' z')) ->
  wp (maybe_alloc_extra_bi (rootserver_max_size_bits extra) extra ;;;
      (if seL4_VSpaceBits <? CONFIG_ROOT_CNODE_SIZE_BITS + seL4_SlotBits then
         let* p := alloc_rootserver_obj cnode_size_bits 1 in
         modify (set_rootserver (set_rs_cnode (fun _ => p))) ;;;
         maybe_alloc_extra_bi seL4_VSpaceBits extra ;;;
         let* p := alloc_rootserver_obj seL4_VSpaceBits 1 in
         modify (set_rootserver (set_rs_vspace (fun _ => p)))
       else
         let* p := alloc_rootserver_obj seL4_VSpaceBits 1 in
         modify (set_rootserver (set_rs_vspace (fun _ => p))) ;;;
         maybe_alloc_extra_bi cnode_size_bits extra ;;;
         let* p := alloc_rootserver_obj cnode_size_bits 1 in
         modify (set_rootserver (set_rs_cnode (fun _ => p)))) ;;;
      maybe_alloc_extra_bi seL4_PageBits extra) Q (with_root s (mk_region a e) rs z).
Proof.
  change seL4_VSpaceBits with 12. change seL4_PageBits with 12. fold cnode_size_bits.
  intros Hc Hx Hal Ha He Hrs HQ. unfold rootserver_max_size_bits in *. change seL4_VSpaceBits with 12 in *.
  assert (0 < 2 ^ cnode_size_bits < 2 ^ 32) by (split; [apply Z.pow_pos_nonneg; lia|apply Z.pow_lt_mono_r; lia]).
  destruct (Z.eq_dec extra 0) as [->|Hx0].
  - change (0 <? 0) with false in *. cbv iota in *. replace (Z.max (Z.max cnode_size_bits 12) 0) with cnode_size_bits in * by lia.
    wp_struct. maybe_no. destruct (Z.ltb_spec 12 cnode_size_bits) as [H12|H12].
    + assert (A1 : aligned (a + 1 * 2 ^ cnode_size_bits) 12) by (rewrite Z.mul_1_l; apply aligned_obj; [done|lia]).
      wp_struct. wp_struct. root_alloc; [done|]. root_store. wp_struct. maybe_no. wp_struct. root_alloc; [done|]. root_store_end. maybe_no.
      eapply HQ; [lia|]. large_done [obj a cnode_size_bits; obj (a + 1 * 2 ^ cnode_size_bits) 12].
    + assert (Ec : cnode_size_bits = 12) by lia. assert (A1 : aligned (a + 1 * 2 ^ 12) cnode_size_bits) by (rewrite Ec in *; rewrite Z.mul_1_l; by apply aligned_obj).
      assert (A0 : aligned a 12) by (by rewrite Ec in Hal).
      wp_struct. wp_struct. root_alloc; [done|]. root_store. wp_struct. maybe_no. wp_struct. root_alloc; [done|]. root_store_end. maybe_no.
      eapply HQ; [lia|]. large_done [obj a 12; obj (a + 1 * 2 ^ 12) cnode_size_bits].
  - rewrite (proj2 (Z.ltb_lt 0 extra)) in * by lia.
    assert (Hex : 2 ^ 12 <= 2 ^ extra < 2 ^ 48) by (split; [apply Z.pow_le_mono_r; lia|apply Z.pow_lt_mono_r; lia]).
    destruct (Z.le_gt_cases cnode_size_bits extra) as [Hle|Hgt].
    + replace (Z.max (Z.max cnode_size_bits 12) extra) with extra in * by lia. wp_struct. maybe_yes.
      assert (A1 : aligned (a + 2 ^ extra) cnode_size_bits) by (apply aligned_obj; [done|lia]).
      assert (A2 : aligned (a + 2 ^ extra) 12) by (apply aligned_obj; [done|lia]).
      destruct (Z.ltb_spec 12 cnode_size_bits) as [H12|H12].
      * assert (A3 : aligned (a + 2 ^ extra + 1 * 2 ^ cnode_size_bits) 12) by (rewrite Z.mul_1_l; apply aligned_obj; [done|lia]).
        wp_struct. wp_struct. root_alloc; [done|]. root_store. wp_struct. maybe_no. wp_struct. root_alloc; [done|]. root_store_end. maybe_no.
        eapply HQ; [lia|]. large_done [obj a extra; obj (a + 2 ^ extra) cnode_size_bits; obj (a + 2 ^ extra + 1 * 2 ^ cnode_size_bits) 12].
      * assert (Ec : cnode_size_bits = 12) by lia.
        assert (A3 : aligned (a + 2 ^ extra + 1 * 2 ^ 12) cnode_size_bits) by (rewrite Ec in *; rewrite Z.mul_1_l; by apply aligned_obj).
        wp_struct. wp_struct. root_alloc; [done|]. root_store. wp_struct. maybe_no. wp_struct. root_alloc; [done|]. root_store_end. maybe_no.
        eapply HQ; [lia|]. large_done [obj a extra; obj (a + 2 ^ extra) 12; obj (a + 2 ^ extra + 1 * 2 ^ 12) cnode_size_bits].
    + replace (Z.max (Z.max cnode_size_bits 12) extra) with cnode_size_bits in * by lia. wp_struct. maybe_no.
      rewrite (proj2 (Z.ltb_lt 12 cnode_size_bits)) by lia.
      assert (A1 : aligned (a + 1 * 2 ^ cnode_size_bits) extra) by (rewrite Z.mul_1_l; apply aligned_obj; [done|lia]).
      assert (A2 : aligned (a + 1 * 2 ^ cnode_size_bits + 2 ^ extra) 12) by (apply aligned_obj; [done|lia]).
      wp_struct. wp_struct. root_alloc; [done|]. root_store. wp_struct. maybe_yes. wp_struct. root_alloc; [done|]. root_store_end. maybe_no.
      eapply HQ; [lia|]. large_done [obj a cnode_size_bits; obj (a + 1 * 2 ^ cnode_size_bits) extra; obj (a + 1 * 2 ^ cnode_size_bits + 2 ^ extra) 12].
Qed.

Lemma wp_seq3 {St A B C R} (m1 : M St A) (m2 : M St B) (m3 : M St C) (k : M St R) Q s :
  wp (m1 ;;; m2 ;;; m3) (fun _ => wp k Q) s -> wp (m1 ;;; m2 ;;; m3 ;;; k) Q s.
Proof.
  unfold wp, bind. destruct (m1 s) as [[a s1]|]; [|done]. destruct (m2 s1) as [[b s2]|]; [|done].
  by destruct (m3 s2) as [[c s3]|].
Qed.

(** The objects fill the memory from [start] on exactly. *)
Lemma wp_create_rootserver_objects s start it_v_reg extra (Q : unit -> ndks_boot_t -> Prop) :
  let n := arch_get_n_paging it_v_reg in
  root_sizes n extra -> aligned start (rootserver_max_size_bits extra) -> 0 < start -> start + root_size n extra < 2 ^ 64 ->
  rs_extra_bi (rootserver s) = 0 ->
  (forall m rs' z', root_layout rs' n extra start (start + root_size n extra) -> Q tt (with_root s m rs' z')) ->
  wp (create_rootserver_objects start it_v_reg extra) Q s.
Proof.
  intros n Hz Hal Hs He Hrs HQ. destruct (calculate_root_size it_v_reg extra Hz) as [Esz Hsz]. fold n in Esz, Hsz.
  destruct Hz as [Hc Hx Hn]. unfold create_rootserver_objects. fold n cnode_size_bits. rewrite Esz.
  assert (0 < 2 ^ cnode_size_bits) by (apply Z.pow_pos_nonneg; lia).
  assert (0 <= (if 0 <? extra then 2 ^ extra else 0)) by (destruct (0 <? extra); [apply Z.pow_nonneg; lia|lia]).
  rewrite wadd_small by (unfold is_word, word_modulus; lia). set (e := start + root_size n extra) in *.
  wp_struct. wp_struct. change (set_rootserver_mem _ s) with (with_root s (mk_region start e) (rootserver s) (boot_zeroed s)).
  apply wp_seq3. apply wp_large_objects; [lia|lia|done|lia|unfold e, root_size in *; lia|done|].
  intros rs1 z1 b Eb ((l & Hl & Ht) & A1 & A2 & A3). cbv beta.
  assert (Ab : aligned b 12).
  { assert (A0 : aligned start 12) by (eapply aligned_le; [exact Hal|unfold rootserver_max_size_bits, seL4_VSpaceBits; lia]).
    rewrite Eb. repeat apply aligned_add; [done|apply pow_divide; lia|reflexivity|].
    destruct (Z.ltb_spec 0 extra); [apply pow_divide; lia|apply Z.divide_0_r]. }
  apply wp_small_objects; [done|lia|lia|unfold e, root_size; lia|unfold e; lia|].
  intros rs2 z2 E1 E2 E3 Ht2 Hp At Ep. apply HQ. split; rewrite ?E1, ?E2, ?E3; try done; [|constructor; done].
  exists (l ++ [obj (rs_asid_pool rs2) 12; obj (rs_ipc_buf rs2) 12; obj (rs_boot_info rs2) 12; rs_paging rs2; obj (rs_tcb rs2) 11]).
  split; [|by eapply tiles_app]. rewrite Hl. unfold large_objects, root_objects. rewrite E1, E2, E3.
  destruct (0 <? extra); cbn [app]; unfold seL4_VSpaceBits, seL4_ASIDPoolBits, seL4_PageBits, seL4_BootInfoFrameBits, seL4_TCBBits; solve_Permutation.
Qed.
End Root.
