(* ===== verification/BootInit.v ===== *)
(** * Initialising the free memory

    [init_freemem] from its parts: the available regions clipped to the kernel
    window, the events of [carve], and the place of the root server's objects,
    which the search takes from the last free region that can hold them. *)
From S2P Require Import Prelude Bytes Structures CapOps VSpace Sched Mdb Untyped Boot BootInv BootFree BootRoot.
From stdpp Require Import base list gmap.
#[local] Open Scope Z_scope.

(** ** The checks *)
Lemma check_regions_weak empty_ok l : forall prev lo, check_regions empty_ok prev l = true ->
  match prev with Some e => lo = e | None => forall r, r ∈ l -> lo <= r_start r end -> weak_from lo l.
Proof.
  induction l as [|r l IH]; intros prev lo; [done|]. cbn [check_regions].
  destruct (Z.ltb_spec (r_end r) (r_start r)); [done|]. destruct (negb empty_ok && _); [done|].
  destruct prev as [e|]; [destruct (Z.ltb_spec (r_start r) e); [done|]|]; intros Hc Hlo; cbn [weak_from].
  - subst lo. split; [lia|]. by apply (IH (Some (r_end r))).
  - split; [split; [apply Hlo; left|lia]|]. by apply (IH (Some (r_end r))).
Qed.

(** ** Clipping to the window *)
Definition clip (r : region) : region := mk_region (Z.min (r_start r) PADDR_TOP) (Z.min (r_end r) PADDR_TOP).
Definition to_pptr (r : region) : region := mk_region (r_start r + PPTR_BASE) (r_end r + PPTR_BASE).

Lemma ceiling_pptr p : 0 <= p < 2 ^ 64 -> ceiling_kernel_window (ptrFromPAddr p) = Z.min p PADDR_TOP + PPTR_BASE.
Proof.
  intros Hp. unfold ceiling_kernel_window, ptrFromPAddr, addrFromPPtr.
  assert (E : wsub (wadd p PPTR_BASE_OFFSET) PPTR_BASE_OFFSET = p).
  { unfold wsub, wadd, wrap, word_modulus. rewrite Zminus_mod_idemp_l. replace (p + PPTR_BASE_OFFSET - PPTR_BASE_OFFSET) with p by lia.
    by apply Z.mod_small. }
  rewrite E. destruct (Z.ltb_spec PADDR_TOP p).
  - rewrite Z.min_r by lia. reflexivity.
  - rewrite Z.min_l by lia. unfold PADDR_TOP, PPTR_TOP, PPTR_BASE_OFFSET, PADDR_BASE, PPTR_BASE in *.
    rewrite wadd_small by (unfold is_word, word_modulus; lia). lia.
Qed.

(** The available regions as the loop sees them. *)
Definition avail_regions (available : list region) : list region := (fun r => to_pptr (clip r)) <$> available.

Lemma avail_weak lo l : weak_from lo l -> 0 <= lo -> weak_from PPTR_BASE (avail_regions l).
Proof.
  intros H Hlo. assert (G : weak_from (Z.min lo PADDR_TOP + PPTR_BASE) (avail_regions l)).
  { clear Hlo. revert lo H. induction l as [|r l IH]; intros lo; [done|]. intros [H1 H2]. split; [cbn; lia|]. exact (IH _ H2). }
  eapply weak_weaken; [exact G|]. unfold PADDR_TOP, PPTR_TOP, PPTR_BASE_OFFSET, PADDR_BASE, PPTR_BASE. lia.
Qed.

Lemma avail_covers l x : covers (avail_regions l) x <-> x < PPTR_TOP /\ covers l (x - PPTR_BASE).
Proof.
  assert (E : PADDR_TOP = PPTR_TOP - PPTR_BASE) by reflexivity.
  unfold covers, avail_regions, inside. setoid_rewrite list_elem_of_fmap. split.
  - intros (r & (r0 & -> & Hr) & Hx). cbn in Hx. split; [lia|]. exists r0. split; [done|lia].
  - intros (Hx & r & Hr & Hi). exists (to_pptr (clip r)). split; [by exists r|]. cbn. lia.
Qed.

Lemma avail_window l r : (forall r, r ∈ l -> 0 <= r_start r <= r_end r) -> r ∈ avail_regions l -> in_window r.
Proof.
  intros H (r0 & -> & Hr)%list_elem_of_fmap. specialize (H r0 Hr). unfold in_window. cbn.
  assert (E : PADDR_TOP = PPTR_TOP - PPTR_BASE) by reflexivity. assert (0 <= PADDR_TOP) by done. lia.
Qed.

(** ** The pieces *)
Definition pieces_events (available rsv : list region) : list event :=
  default [] (carve (S (2 * (length (avail_regions available) + length rsv))) (avail_regions available) rsv).
Definition pieces (available rsv : list region) : list region := inserted_of (pieces_events available rsv).

(** A region can hold [size] bytes from an aligned address on. *)
Definition fits (size max : Z) (r : region) : Prop :=
  exists start, aligned start max /\ r_start r <= start /\ start + size <= r_end r.

(** [fr'] is [fr] without [size] bytes from [start] on. *)
Definition without_root (fr fr' : list region) (start size max : Z) : Prop :=
  exists low r high, fr = low ++ r :: high /\ aligned start max /\ r_start r <= start /\ start + size <= r_end r /\
    fr' = low ++ mk_region (r_start r) start :: mk_region (start + size) (r_end r) :: high.

Lemma weak_app lo l1 l2 : weak_from lo (l1 ++ l2) <-> weak_from lo l1 /\ weak_from (last_end lo l1) l2.
Proof.
  revert lo. induction l1 as [|r l1 IH]; intros lo; [cbn; tauto|]. cbn [app weak_from]. rewrite last_end_cons, IH. tauto.
Qed.

Lemma loose_weak lo l : loose_from lo l -> weak_from lo l.
Proof. revert lo. induction l as [|r l IH]; intros lo; [done|]. intros [H1 H2]. split; [lia|by apply IH]. Qed.

Lemma weak_last_ge lo l : weak_from lo l -> lo <= last_end lo l.
Proof.
  revert lo. induction l as [|r l IH]; intros lo; [cbn; lia|]. intros [H1 H2]. rewrite last_end_cons. specialize (IH _ H2). lia.
Qed.

Lemma weak_last lo l r : weak_from lo l -> r ∈ l -> r_end r <= last_end lo l.
Proof.
  revert lo. induction l as [|r' l IH]; intros lo; [by intros _ ?%elem_of_nil|]. intros [H1 H2] [->|Hr]%elem_of_cons; rewrite last_end_cons.
  - by apply weak_last_ge.
  - by apply IH.
Qed.

Lemma without_root_spec lo fr fr' start size max : loose_from lo fr -> 0 <= size -> without_root fr fr' start size max ->
  weak_from lo fr' /\ forall x, covers fr' x <-> covers fr x /\ ~ (start <= x < start + size).
Proof.
  intros Hl Hs (low & r & high & -> & _ & H1 & H2 & ->). apply loose_weak in Hl. apply weak_app in Hl as [L1 [L2 L3]]. split.
  - apply weak_app. split; [done|]. cbn. split_and!; try lia. done.
  - intros x. rewrite !covers_app, !covers_cons. unfold inside. cbn [r_start r_end]. split; [|intuition lia].
    intros [H|[H|[H|H]]]; [|split; [right; left; lia|lia]..|].
    + split; [by left|]. destruct H as (r' & Hr' & Hx). pose proof (weak_last _ _ _ L1 Hr') as Hle.
      unfold inside in Hx. lia.
    + split; [tauto|]. pose proof (weak_covers _ _ _ L3 H). lia.
Qed.

Section Fit.
Context `{BP : BootPlatform}.
Variables (it_v_reg : region) (extra : Z).
Notation n := (arch_get_n_paging it_v_reg).
Notation size := (root_size n extra).
Notation max := (rootserver_max_size_bits extra).

Hypothesis Hsizes : root_sizes n extra.

Lemma max_bounds : 12 <= max < 64.
Proof. destruct Hsizes. unfold rootserver_max_size_bits, seL4_VSpaceBits. lia. Qed.

Lemma round_down_spec x : 0 <= x < 2 ^ 64 ->
  aligned (ROUND_DOWN x max) max /\ ROUND_DOWN x max <= x /\ forall a, aligned a max -> a <= x -> a <= ROUND_DOWN x max.
Proof.
  intros Hx. pose proof max_bounds. assert (Hp : 0 < 2 ^ max) by (apply Z.pow_pos_nonneg; lia).
  assert (E : ROUND_DOWN x max = x / 2 ^ max * 2 ^ max).
  { unfold ROUND_DOWN, wshl. rewrite Z.shiftr_div_pow2, Z.shiftl_mul_pow2 by lia. apply wrap_small. unfold is_word, word_modulus.
    pose proof (Z.mul_div_le x (2 ^ max) Hp). pose proof (Z.div_pos x (2 ^ max) ltac:(lia) Hp). nia. }
  rewrite E. pose proof (Z.mul_div_le x (2 ^ max) Hp). split_and!; [by eexists|lia|]. intros a [k ->] Ha.
  assert (k <= x / 2 ^ max) by (apply Z.div_le_lower_bound; lia). nia.
Qed.

(** The test of the loop finds the highest place, if there is one. *)
Lemma fit_test r : in_window r ->
  let u := wsub (r_end r) size in
  if (u <=? r_end r) && (r_start r <=? ROUND_DOWN u max)
  then aligned (ROUND_DOWN u max) max /\ r_start r <= ROUND_DOWN u max /\ ROUND_DOWN u max + size <= r_end r
  else ~ fits size max r.
Proof.
  intros [H1 H2]. destruct (calculate_root_size it_v_reg extra Hsizes) as [_ Hs]. cbv zeta.
  assert (Hb : 0 <= r_start r /\ r_end r < 2 ^ 64) by (unfold PPTR_BASE, PPTR_TOP in *; lia).
  destruct (Z.le_gt_cases size (r_end r)) as [Hle|Hgt].
  - rewrite wsub_small by (unfold is_word, word_modulus; lia).
    assert (Hu : 0 <= r_end r - size < 2 ^ 64) by lia.
    destruct (round_down_spec (r_end r - size) Hu) as (R1 & R2 & R3). rewrite (proj2 (Z.leb_le _ (r_end r))) by lia. cbn [andb].
    destruct (Z.leb_spec (r_start r) (ROUND_DOWN (r_end r - size) max)); [split_and!; [done|done|lia]|].
    intros (a & Ha & Ha1 & Ha2). specialize (R3 a Ha ltac:(lia)). lia.
  - assert (E : wsub (r_end r) size = r_end r - size + 2 ^ 64).
    { unfold wsub, wrap, word_modulus. rewrite <- (Z.mod_add _ 1) by done. rewrite Z.mul_1_l. apply Z.mod_small. lia. }
    rewrite E, (proj2 (Z.leb_gt _ (r_end r))) by lia. cbn [andb]. intros (a & _ & Ha1 & Ha2). lia.
Qed.

(** What the search for the root server's memory changes. *)
Definition root_done (s s' : ndks_boot_t) (fr' : list region) (start : Z) : Prop :=
  reserved s' = reserved s /\ resv_count s' = resv_count s /\ slot_pos_cur s' = slot_pos_cur s /\ boot_slots s' = boot_slots s /\
  (exists k, freemem s' = fr' ++ replicate k REG_EMPTY) /\ length (freemem s') = length (freemem s) /\
  root_layout (rootserver s') n extra start (start + size).

(** One round. *)
Lemma wp_fit_step m low r high k s (Q : bool -> ndks_boot_t -> Prop) :
  freemem s = low ++ r :: REG_EMPTY :: high ++ replicate k REG_EMPTY ->
  Z.of_nat (length (freemem s)) = MAX_NUM_FREEMEM_REG -> in_window r -> rs_extra_bi (rootserver s) = 0 ->
  (forall s' fr' start, root_done s s' fr' start -> without_root (low ++ r :: high) fr' start size max -> Q true s') ->
  (~ fits size max r ->
     wp (fit_loop m (Z.of_nat (length low) - 1) size max it_v_reg extra) Q
        (set_freemem (fun _ => low ++ REG_EMPTY :: r :: high ++ replicate k REG_EMPTY) s)) ->
  wp (fit_loop (S m) (Z.of_nat (length low)) size max it_v_reg extra) Q s.
Proof.
  intros Hf Hl Hw Hx Hok Hno. cbn [fit_loop]. rewrite (proj2 (Z.leb_le 0 _)) by lia.
  assert (Hlow : Z.of_nat (length low) < MAX_NUM_FREEMEM_REG - 1) by (rewrite Hf, length_app in Hl; cbn [length] in Hl; lia).
  replace (Z.of_nat (length low) + 1) with (Z.of_nat (S (length low))) by lia.
  assert (Hf' : freemem s = (low ++ [r]) ++ REG_EMPTY :: high ++ replicate k REG_EMPTY) by (by rewrite <- app_assoc).
  assert (Hlen : length (low ++ [r]) = S (length low)) by (rewrite length_app; cbn; lia).
  wp_struct. wp_struct; [by apply Z.ltb_lt|].
  wp_struct. apply (wp_get_freemem s _ REG_EMPTY); [rewrite Hf', <- Hlen; by apply list_lookup_middle|]. wp_struct. wp_struct.
  wp_struct. apply (wp_get_freemem s _ r); [rewrite Hf; by apply list_lookup_middle|]. pose proof (fit_test r Hw) as Ht. cbv zeta in *.
  set (u := wsub (r_end r) size) in *. set (start := ROUND_DOWN u max) in *.
  assert (Hput : forall s0 a b, freemem s0 = freemem s -> forall K (Q' : bool -> ndks_boot_t -> Prop),
    wp K Q' (set_freemem (fun _ => low ++ b :: a :: high ++ replicate k REG_EMPTY) s0) ->
    wp (put_freemem (Z.of_nat (S (length low))) a ;;; put_freemem (Z.of_nat (length low)) b ;;; K) Q' s0).
  { intros s0 a b E0 K Q' HK. rewrite Hf in E0. wp_struct.
    apply wp_put_freemem; [rewrite E0, length_app; cbn; lia|]. wp_struct. apply wp_put_freemem; [cbn; rewrite length_insert, E0, length_app; cbn; lia|].
    change (wp K Q' (set_freemem (fun _ => <[length low := b]> (<[S (length low) := a]> (freemem s0))) s0)). rewrite E0.
    replace (<[S (length low):=a]> (low ++ r :: REG_EMPTY :: high ++ replicate k REG_EMPTY)) with (low ++ r :: a :: high ++ replicate k REG_EMPTY).
    2: { rewrite insert_app_r_alt by lia. by replace (S (length low) - length low)%nat with 1%nat by lia. }
    replace (<[length low:=b]> (low ++ r :: a :: high ++ replicate k REG_EMPTY)) with (low ++ b :: a :: high ++ replicate k REG_EMPTY); [exact HK|].
    rewrite insert_app_r_alt by lia. by rewrite Nat.sub_diag. }
  destruct (_ && _).
  - destruct Ht as (A1 & A2 & A3). destruct (calculate_root_size it_v_reg extra Hsizes) as [_ Hs]. destruct Hw as [W1 W2].
    assert (Hb : 0 < r_start r /\ r_end r < 2 ^ 64) by (unfold PPTR_BASE, PPTR_TOP in *; lia).
    wp_struct. apply wp_create_rootserver_objects; [done|done|lia|lia|done|]. intros mm rs' z' Hlay. cbv beta.
    rewrite wadd_small by (unfold is_word, word_modulus; lia).
    apply Hput; [done|]. wp_struct. apply (Hok _ (low ++ mk_region (r_start r) start :: mk_region (start + size) (r_end r) :: high) start).
    + split_and!; try done; cbn [freemem set_freemem]; [exists k; by rewrite <- app_assoc|].
      rewrite Hf, !length_app. cbn [length]. done.
    + exists low, r, high. done.
  - apply Hput; [done|]. by apply Hno.
Qed.

Lemma wp_fit_loop low : forall m r high k s (Q : bool -> ndks_boot_t -> Prop),
  (length low < m)%nat -> freemem s = low ++ r :: REG_EMPTY :: high ++ replicate k REG_EMPTY ->
  Z.of_nat (length (freemem s)) = MAX_NUM_FREEMEM_REG -> (forall r', r' ∈ low ++ [r] -> in_window r') -> rs_extra_bi (rootserver s) = 0 ->
  (forall s' fr' start, root_done s s' fr' start -> without_root (low ++ r :: high) fr' start size max -> Q true s') ->
  (forall s', boot_slots s' = boot_slots s -> (forall r', r' ∈ low ++ [r] -> ~ fits size max r') -> Q false s') ->
  wp (fit_loop m (Z.of_nat (length low)) size max it_v_reg extra) Q s.
Proof.
  induction low as [|r2 low IH] using rev_ind; intros m r high k s Q Hm Hf Hl Hw Hx Hok Hno; (destruct m as [|m]; [lia|]).
  - apply (wp_fit_step m [] r high k); [done|done|apply Hw; left|done|done|]. intros Hnf. cbn [length app].
    replace (Z.of_nat 0 - 1) with (-1) by lia.
    assert (Hq : forall s', boot_slots s' = boot_slots s -> Q false s') by (intros s' Es; apply Hno; [exact Es|]; by intros r' ->%list_elem_of_singleton).
    destruct m as [|m]; cbn [fit_loop]; [wp_struct; by apply Hq|]. cbn [Z.leb Z.compare]. wp_struct. by apply Hq.
  - rewrite length_app in Hm. cbn [length] in Hm. apply (wp_fit_step m (low ++ [r2]) r high k); [done|done|apply Hw, elem_of_app; right; left|done|done|].
    intros Hnf. replace (Z.of_nat (length (low ++ [r2])) - 1) with (Z.of_nat (length low)) by (rewrite length_app; cbn; lia).
    set (s1 := set_freemem _ s). apply (IH m r2 (r :: high) k s1); [lia|unfold s1; cbn; by rewrite <- app_assoc| | |done| |].
    + unfold s1. cbn [freemem set_freemem]. rewrite <- Hl, Hf, !length_app. cbn [length]. done.
    + intros r' Hr'. apply Hw, elem_of_app. by left.
    + intros s' fr' start Hd Hwr. apply (Hok s' fr' start); [|by rewrite <- app_assoc].
      destruct Hd as (D1 & D2 & D3 & D4 & D5 & D6 & D7). split_and!; try done. rewrite D6. unfold s1. cbn [freemem set_freemem].
      rewrite Hf, !length_app. cbn [length]. done.
    + intros s' Es Hn'. apply Hno; [exact Es|]. intros r' [Hr'|Hr']%elem_of_app; [by apply Hn'|]. by apply list_elem_of_singleton in Hr' as ->.
Qed.
End Fit.

(** ** The loops run the events *)
Section Run.
Context `{BP : BootPlatform}.

Lemma wp_drop {St A R} (m : M St A) (k : M St R) Q s :
  wp ((let* _ := m in ret tt) ;;; k) Q s -> wp (let* _ := m in k) Q s.
Proof. unfold wp, bind, ret. by destruct (m s) as [[a s1]|]. Qed.

Lemma wp_run_app l1 l2 s (Q : unit -> ndks_boot_t -> Prop) :
  wp (run_events (l1 ++ l2)) Q s -> wp (run_events l1) (fun _ => wp (run_events l2) Q) s.
Proof.
  revert s. induction l1 as [|e l1 IH]; intros s H; [exact H|]. cbn [run_events app] in *. wp_struct. apply wp_bind_inv in H.
  eapply wp_mono; [exact H|]. intros [] s1 H1. by apply IH.
Qed.

Lemma wp_reserve_all l : forall s (Q : unit -> ndks_boot_t -> Prop),
  wp (run_events (Res <$> filter reg_nonempty l)) Q s -> wp (reserve_all l) Q s.
Proof.
  induction l as [|r l IH]; intros s Q H; cbn [reserve_all]; [exact H|]. rewrite filter_cons in H. wp_struct.
  destruct (decide (reg_nonempty r)) as [Hr|Hr]; unfold reg_nonempty in Hr.
  - rewrite (proj2 (Z.ltb_lt _ _)) by lia. cbn [fmap list_fmap run_events run_event] in H. apply wp_bind_inv in H.
    eapply wp_mono; [exact H|]. intros [] s1 H1. by apply IH.
  - rewrite (proj2 (Z.ltb_ge _ _)) by lia. apply wp_ret. by apply IH.
Qed.

Lemma wp_insert_all l : forall s (Q : unit -> ndks_boot_t -> Prop),
  wp (run_events (Ins <$> filter reg_nonempty l)) Q s -> wp (insert_all l) Q s.
Proof.
  induction l as [|r l IH]; intros s Q H; cbn [insert_all]; [exact H|]. rewrite filter_cons in H. wp_struct.
  destruct (decide (reg_nonempty r)) as [Hr|Hr]; unfold reg_nonempty in Hr.
  - rewrite (proj2 (Z.ltb_lt _ _)) by lia. cbn [fmap list_fmap run_events run_event] in H. apply wp_bind_inv in H.
    eapply wp_mono; [exact H|]. intros [] s1 H1. by apply IH.
  - rewrite (proj2 (Z.ltb_ge _ _)) by lia. apply wp_ret. by apply IH.
Qed.

Lemma wp_carve_loop m : forall avail rsv evs s (Q : unit -> ndks_boot_t -> Prop),
  carve m avail rsv = Some evs -> wp (run_events evs) Q s ->
  wp (carve_loop m avail rsv) (fun p => wp (reserve_all (snd p) ;;; insert_all (fst p)) Q) s.
Proof.
  induction m as [|m IH]; intros avail rsv evs s Q Hc H; [done|]. cbn [carve carve_loop] in *.
  assert (Hend : forall avail rsv, Some ((Res <$> filter reg_nonempty rsv) ++ (Ins <$> filter reg_nonempty avail)) = Some evs ->
    wp (reserve_all rsv ;;; insert_all avail) Q s).
  { intros a r [= <-]. wp_struct. apply wp_reserve_all. apply wp_run_app in H. eapply wp_mono; [exact H|].
    intros [] s1 H1. by apply wp_insert_all. }
  assert (Hcons : forall e l K (Q' : list region * list region -> ndks_boot_t -> Prop), cons e <$> l = Some evs ->
    (forall evs' s1, l = Some evs' -> wp (run_events evs') Q s1 -> wp K Q' s1) -> wp (run_event e ;;; K) Q' s).
  { intros e [l|] K Q' [= <-] HK. cbn [run_events] in H. apply wp_bind_inv in H. wp_struct. eapply wp_mono; [exact H|].
    intros [] s1 H1. by eapply HK. }
  destruct avail as [|av avail]; [apply wp_ret; by apply Hend|]. destruct rsv as [|rv rsv]; [apply wp_ret; by apply Hend|].
  destruct (r_start rv =? r_end rv); [by eapply IH|]. destruct (r_end av <=? r_start av); [by eapply IH|].
  destruct (r_end rv <=? r_start av).
  { apply wp_drop. eapply (Hcons (Res rv)); [exact Hc|]. intros evs' s1 E. by eapply IH. }
  destruct (r_end av <=? r_start rv) eqn:E4.
  { apply wp_drop. eapply (Hcons (Ins av)); [exact Hc|]. intros evs' s1 E. by eapply IH. }
  destruct (r_start rv <=? r_start av); [by eapply IH|].
  wp_struct. wp_struct; [apply Z.ltb_lt; apply Z.leb_gt in E4; lia|].
  apply wp_drop. eapply (Hcons (Ins (mk_region (r_start av) (r_start rv)))); [exact Hc|].
  intros evs' s1 E. destruct (r_end rv <? r_end av); by eapply IH.
Qed.

Lemma wp_skip_empty fr : forall k m tail s (Q : Z -> ndks_boot_t -> Prop),
  freemem s = fr ++ replicate k REG_EMPTY ++ tail -> (forall r, r ∈ fr -> reg_nonempty r) -> (k <= m)%nat ->
  Q (Z.of_nat (length fr) - 1) s -> wp (skip_empty m (Z.of_nat (length fr) + Z.of_nat k - 1)) Q s.
Proof.
  induction k as [|k IH]; intros m tail s Q Hf Hne Hm HQ.
  - rewrite Z.add_0_r. destruct m as [|m]; cbn [skip_empty]; [by wp_struct|]. destruct (Z.leb_spec 0 (Z.of_nat (length fr) - 1)); [|by wp_struct].
    destruct fr as [|r fr _] using rev_ind; [cbn in *; lia|]. rewrite length_app in *. cbn [length] in *.
    replace (Z.of_nat (length fr + 1) - 1) with (Z.of_nat (length fr)) in * by lia.
    wp_struct. apply (wp_get_freemem s _ r); [rewrite Hf, <- app_assoc; by apply list_lookup_middle|].
    unfold is_reg_empty. rewrite (proj2 (Z.eqb_neq _ _)); [by wp_struct|]. specialize (Hne r ltac:(apply elem_of_app; right; left)).
    unfold reg_nonempty in Hne. lia.
  - destruct m as [|m]; [lia|]. cbn [skip_empty]. rewrite (proj2 (Z.leb_le _ _)) by lia.
    replace (Z.of_nat (length fr) + Z.of_nat (S k) - 1) with (Z.of_nat (length (fr ++ replicate k REG_EMPTY))) by (rewrite length_app, length_replicate; lia).
    assert (Hf' : freemem s = (fr ++ replicate k REG_EMPTY) ++ REG_EMPTY :: tail).
    { rewrite Hf, <- app_assoc. f_equal. rewrite replicate_S_end, <- app_assoc. done. }
    wp_struct. apply (wp_get_freemem s _ REG_EMPTY); [rewrite Hf'; by apply list_lookup_middle|].
    change (is_reg_empty REG_EMPTY) with true. cbv iota.
    replace (Z.of_nat (length (fr ++ replicate k REG_EMPTY)) - 1) with (Z.of_nat (length fr) + Z.of_nat k - 1) by (rewrite length_app, length_replicate; lia).
    apply (IH m (REG_EMPTY :: tail)); [by rewrite Hf', <- app_assoc|done|lia|done].
Qed.
End Run.
