(* ===== verification/BootUntyped.v ===== *)
(** * Untyped memory at boot

    [create_untypeds_for_region] cuts a region, which may wrap around the
    address space, into aligned blocks, and [create_untypeds] does so for all
    memory that nothing else uses: the blocks as a list, what they cover, and
    the capability slots that receive them. *)
From S2P Require Import Prelude Bytes Structures CapOps VSpace Sched Mdb Untyped Boot BootInv BootFree BootRoot.
From stdpp Require Import base list gmap.
#[local] Open Scope Z_scope.

(** ** Blocks *)
Record ublock : Type := mk_block { b_dev : bool; b_ptr : Z; b_bits : Z }.

Definition block_region (b : ublock) : region := mk_region (b_ptr b) (b_ptr b + 2 ^ b_bits b).

Record block_ok (b : ublock) : Prop := {
  bo_bits : seL4_MinUntypedBits <= b_bits b <= seL4_MaxUntypedBits;
  bo_aligned : aligned (b_ptr b) (b_bits b);
  bo_word : 0 <= b_ptr b /\ b_ptr b + 2 ^ b_bits b <= 2 ^ 64;
  bo_window : b_dev b = false -> in_window (block_region b)
}.

Definition blocks_cover (l : list ublock) (x : Z) : Prop := exists b, b ∈ l /\ inside (block_region b) x.

Fixpoint blocks_apart (l : list ublock) : Prop :=
  match l with
  | [] => True
  | b :: l' => (forall x, inside (block_region b) x -> ~ blocks_cover l' x) /\ blocks_apart l'
  end.

Lemma blocks_cover_nil x : ~ blocks_cover [] x.
Proof. by intros (b & ?%elem_of_nil & _). Qed.

Lemma blocks_cover_cons b l x : blocks_cover (b :: l) x <-> inside (block_region b) x \/ blocks_cover l x.
Proof.
  unfold blocks_cover. setoid_rewrite elem_of_cons. split.
  - intros (b' & [->|H] & Hx); [by left|right; by exists b'].
  - intros [H|(b' & H & Hx)]; [exists b; by auto|exists b'; by auto].
Qed.

Lemma blocks_cover_app l1 l2 x : blocks_cover (l1 ++ l2) x <-> blocks_cover l1 x \/ blocks_cover l2 x.
Proof.
  induction l1 as [|b l1 IH]; cbn [app]; [split; [by right|intros [?%blocks_cover_nil|?]; done]|].
  rewrite !blocks_cover_cons, IH. tauto.
Qed.

Lemma blocks_apart_app l1 l2 :
  blocks_apart l1 -> blocks_apart l2 -> (forall x, blocks_cover l1 x -> ~ blocks_cover l2 x) -> blocks_apart (l1 ++ l2).
Proof.
  induction l1 as [|b l1 IH]; [done|]. intros [H1 H2] H3 H. split.
  - intros x Hx [Hc|Hc]%blocks_cover_app; [by apply (H1 x)|]. apply (H x); [apply blocks_cover_cons; by left|done].
  - apply IH; [done|done|]. intros x Hx. apply H, blocks_cover_cons. by right.
Qed.

(** ** Regions that may wrap *)

(** The addresses from [a] on, [d] of them, modulo [2 ^ 64]. *)
Definition in_ring (a d x : Z) : Prop := is_word x /\ wsub x a < d.

Lemma wsub_wadd x a c : wsub x (wadd a c) = wrap (x - a - c).
Proof. unfold wsub, wadd, wrap. rewrite <- Zminus_mod_idemp_r, Zmod_mod, Zminus_mod_idemp_r. f_equal. lia. Qed.

Lemma aligned_end a b : aligned a b -> 0 <= b <= 64 -> is_word a -> a + 2 ^ b <= 2 ^ 64.
Proof.
  intros [k ->] Hb [H1 H2]. unfold word_modulus in *. assert (Hp : 0 < 2 ^ b) by (apply Z.pow_pos_nonneg; lia).
  assert (E : 2 ^ 64 = 2 ^ (64 - b) * 2 ^ b) by (rewrite <- Z.pow_add_r by lia; f_equal; lia).
  assert (0 < 2 ^ (64 - b)) by (apply Z.pow_pos_nonneg; lia). rewrite E in *. assert (k < 2 ^ (64 - b)) by nia. nia.
Qed.

Lemma ring_step a d b x : is_word a -> 0 <= d < 2 ^ 64 -> aligned a b -> 0 <= b < 64 -> 2 ^ b <= d ->
  (in_ring a d x <-> a <= x < a + 2 ^ b \/ in_ring (wadd a (2 ^ b)) (d - 2 ^ b) x) /\
  ~ (a <= x < a + 2 ^ b /\ in_ring (wadd a (2 ^ b)) (d - 2 ^ b) x).
Proof.
  intros Ha Hd Hal Hb Hle. pose proof (aligned_end a b Hal ltac:(lia) Ha) as He. unfold in_ring. rewrite wsub_wadd.
  assert (0 < 2 ^ b) by (apply Z.pow_pos_nonneg; lia). set (c := 2 ^ b) in *. clearbody c.
  unfold is_word, wsub, wrap, word_modulus in *.
  destruct (decide (0 <= x < 2 ^ 64)) as [Hx|Hx]; [|split; [|lia]; split; [lia|intros [?|?]; lia]].
  destruct (Z.leb_spec a x).
  - rewrite (Z.mod_small (x - a)) by lia. destruct (Z.leb_spec (a + c) x).
    + rewrite (Z.mod_small (x - a - c)) by lia. lia.
    + replace ((x - a - c) mod 2 ^ 64) with (x - a - c + 2 ^ 64) by (symmetry; rewrite <- (Z.mod_add _ 1), Z.mod_small by lia; lia). lia.
  - replace ((x - a) mod 2 ^ 64) with (x - a + 2 ^ 64) by (symmetry; rewrite <- (Z.mod_add _ 1), Z.mod_small by lia; lia).
    replace ((x - a - c) mod 2 ^ 64) with (x - a - c + 2 ^ 64) by (symmetry; rewrite <- (Z.mod_add _ 1), Z.mod_small by lia; lia). lia.
Qed.

Lemma ring_straight r x : 0 <= r_start r <= r_end r -> r_end r < 2 ^ 64 ->
  in_ring (r_start r) (wsub (r_end r) (r_start r)) x <-> inside r x.
Proof.
  intros H1 H2. unfold in_ring, inside. rewrite (wsub_small (r_end r)) by (unfold is_word, word_modulus; lia).
  unfold is_word, wsub, wrap, word_modulus. split.
  - intros [Hx H]. destruct (Z.leb_spec (r_start r) x); [rewrite Z.mod_small in H by lia; lia|].
    rewrite <- (Z.mod_add _ 1), Z.mod_small in H by lia. lia.
  - intros H. split; [lia|]. rewrite Z.mod_small by lia. lia.
Qed.

(** A device region is the translation of a physical one. *)
Lemma ring_device lo hi x : 0 <= lo <= hi -> hi < 2 ^ 64 ->
  (let r := paddr_to_pptr_reg (mk_region lo hi) in in_ring (r_start r) (wsub (r_end r) (r_start r)) x) <->
  is_word x /\ lo <= addrFromPPtr x < hi.
Proof.
  intros H1 H2. unfold paddr_to_pptr_reg, ptrFromPAddr, addrFromPPtr, in_ring. cbn [r_start r_end].
  change PPTR_BASE_OFFSET with PPTR_BASE. unfold wsub, wadd, wrap, word_modulus, is_word.
  rewrite <- Zminus_mod. replace (hi + PPTR_BASE - (lo + PPTR_BASE)) with (hi - lo) by lia. rewrite (Z.mod_small (hi - lo)) by lia.
  rewrite Zminus_mod_idemp_r. unfold PPTR_BASE. generalize (18446743523953737728). intros c.
  apply and_iff_compat_l. replace (x - (lo + c)) with (x - c - lo) by lia. rewrite <- Zminus_mod_idemp_l.
  pose proof (Z.mod_pos_bound (x - c) (2 ^ 64) ltac:(lia)) as Hb. set (p := (x - c) mod 2 ^ 64) in *. clearbody p.
  destruct (Z.leb_spec lo p); [rewrite Z.mod_small by lia; lia|].
  rewrite <- (Z.mod_add _ 1), Z.mod_small by lia. lia.
Qed.

(** ** The size of a block *)
Lemma ctz_divide p : (2 ^ ctz_pos p | Zpos p) /\ 0 <= ctz_pos p /\ forall k, 0 <= k -> (2 ^ k | Zpos p) -> k <= ctz_pos p.
Proof.
  assert (Hodd : forall q k, 0 <= k -> (2 ^ k | Zpos q~1) -> k <= 0).
  { intros q k Hk H. destruct (Z.le_gt_cases k 0); [lia|]. exfalso. assert (H2 : (2 | Zpos q~1)).
    { eapply Z.divide_trans; [|exact H]. apply (pow_divide 1). lia. }
    destruct H2 as [m Hm]. lia. }
  induction p as [p _|p (I1 & I2 & I3)|]; cbn [ctz_pos].
  - split_and!; [apply Z.divide_1_l|lia|apply Hodd].
  - split_and!; [|lia|].
    + rewrite Z.pow_add_r by lia. change (Zpos p~0) with (2 * Zpos p). by apply Z.mul_divide_mono_l.
    + intros k Hk H. destruct (Z.le_gt_cases k 0); [lia|]. specialize (I3 (k - 1) ltac:(lia)).
      assert (k - 1 <= ctz_pos p); [|lia]. apply I3. change (Zpos p~0) with (2 * Zpos p) in H.
      replace k with (1 + (k - 1)) in H by lia. rewrite Z.pow_add_r in H by lia. change (2 ^ 1) with 2 in H.
      by apply Z.mul_divide_cancel_l in H.
  - split_and!; [apply Z.divide_1_l|lia|]. intros k Hk H. apply Z.divide_1_r_nonneg in H; [|apply Z.pow_nonneg; lia].
    destruct (Z.le_gt_cases k 0); [lia|]. pose proof (Z.pow_gt_1 2 k ltac:(lia)). lia.
Qed.

Lemma log2_bits d : 0 < d < 2 ^ 64 -> 0 <= Z.log2 d < 64 /\ 2 ^ Z.log2 d <= d.
Proof.
  intros H. pose proof (Z.log2_spec d ltac:(lia)). pose proof (Z.log2_nonneg d).
  assert (Z.log2 d < 64) by (apply Z.log2_lt_pow2; lia). lia.
Qed.

Lemma untyped_bits_spec reg (a := r_start reg) (d := wsub (r_end reg) (r_start reg)) (b := untyped_bits reg) :
  is_word a -> 0 < d < 2 ^ 64 ->
  0 <= b <= seL4_MaxUntypedBits /\ aligned a b /\ 2 ^ b <= d /\ (aligned a 4 -> aligned d 4 -> 4 <= b).
Proof.
  intros Ha Hd. unfold b, untyped_bits, clzl. fold d a. destruct (log2_bits d Hd) as [L1 L2].
  replace (wordBits - 1 - (wordBits - 1 - Z.log2 d)) with (Z.log2 d) by lia.
  set (m := if seL4_MaxUntypedBits <? Z.log2 d then seL4_MaxUntypedBits else Z.log2 d).
  assert (Hm : m <= Z.log2 d /\ 0 <= m <= 47).
  { unfold m, seL4_MaxUntypedBits. destruct (Z.ltb_spec 47 (Z.log2 d)); lia. }
  assert (Hle : forall k, 0 <= k <= m -> 2 ^ k <= d) by (intros k Hk; transitivity (2 ^ Z.log2 d); [apply Z.pow_le_mono_r; lia|done]).
  assert (Hm4 : aligned d 4 -> 4 <= m).
  { intros [q Hq]. assert (4 <= Z.log2 d); [|unfold m, seL4_MaxUntypedBits; destruct (_ <? _); lia].
    apply Z.log2_le_pow2; [lia|]. lia. }
  change seL4_MaxUntypedBits with 47. clearbody m d. destruct a as [|p|p] eqn:Ea; [| |by destruct Ha].
  - cbn [negb Z.eqb]. split_and!; [lia|lia|apply Z.divide_0_r|apply Hle; lia|tauto].
  - change (negb (Zpos p =? 0)) with true. cbv beta iota. change (ctzl (Zpos p)) with (ctz_pos p).
    destruct (ctz_divide p) as (C1 & C2 & C3). destruct (Z.ltb_spec (ctz_pos p) m).
    + split_and!; [lia|lia|done|apply Hle; lia|]. intros H4 _. by apply C3.
    + split_and!; [lia|lia|eapply Z.divide_trans; [|exact C1]; apply pow_divide; lia|apply Hle; lia|tauto].
Qed.

(** ** Cutting a region *)

(** The blocks handed out for the [d] addresses from [a] on.  Blocks too small
    for any object are lost; when the boot information is [full], so are all
    others. *)
Inductive chopped (dev : bool) (full : Prop) : Z -> Z -> list ublock -> Prop :=
| chopped_nil a : chopped dev full a 0 []
| chopped_give a d b l : block_ok (mk_block dev a b) -> 2 ^ b <= d ->
    chopped dev full (wadd a (2 ^ b)) (d - 2 ^ b) l -> chopped dev full a d (mk_block dev a b :: l)
| chopped_skip a d b l : 0 <= b < 4 -> aligned a b -> 2 ^ b <= d -> ~ (aligned a 4 /\ aligned d 4) ->
    chopped dev full (wadd a (2 ^ b)) (d - 2 ^ b) l -> chopped dev full a d l
| chopped_full a d b l : full -> 0 <= b < 64 -> aligned a b -> 2 ^ b <= d ->
    chopped dev full (wadd a (2 ^ b)) (d - 2 ^ b) l -> chopped dev full a d l.

Lemma aligned_sub a b c : aligned a b -> aligned c b -> aligned (a - c) b.
Proof. apply Z.divide_sub_r. Qed.

Lemma aligned_wadd a b c : aligned a b -> aligned c b -> 0 <= b <= 64 -> aligned (wadd a c) b.
Proof.
  intros H1 H2 Hb. unfold wadd, wrap, word_modulus. rewrite Z.mod_eq by lia. apply aligned_sub; [by apply aligned_add|].
  apply Z.divide_mul_l. by apply (pow_divide b 64).
Qed.

Lemma pow_aligned b c : 0 <= c <= b -> aligned (2 ^ b) c.
Proof. apply pow_divide. Qed.

(** The blocks are well formed, apart, and lie in the region. *)
Lemma chopped_sound dev full a d l : chopped dev full a d l -> is_word a -> 0 <= d < 2 ^ 64 ->
  Forall (fun b => b_dev b = dev /\ block_ok b) l /\ blocks_apart l /\ (forall x, blocks_cover l x -> in_ring a d x).
Proof.
  assert (Hlater : forall a d b l, is_word a -> 0 <= d < 2 ^ 64 -> aligned a b -> 0 <= b < 64 -> 2 ^ b <= d ->
    (is_word (wadd a (2 ^ b)) -> 0 <= d - 2 ^ b < 2 ^ 64 -> Forall (fun b => b_dev b = dev /\ block_ok b) l /\ blocks_apart l /\
       (forall x, blocks_cover l x -> in_ring (wadd a (2 ^ b)) (d - 2 ^ b) x)) ->
    Forall (fun b => b_dev b = dev /\ block_ok b) l /\ blocks_apart l /\
      (forall x, blocks_cover l x -> in_ring a d x /\ ~ (a <= x < a + 2 ^ b))).
  { intros a0 d0 b l0 Ha Hd Hal Hb Hle IH. assert (0 < 2 ^ b) by (apply Z.pow_pos_nonneg; lia).
    destruct IH as (I1 & I2 & I3); [apply wrap_is_word|lia|]. split_and!; [done|done|]. intros x Hx%I3.
    destruct (ring_step a0 d0 b x Ha Hd Hal Hb Hle) as [R1 R2]. split; [apply R1; by right|]. intros Hx'. by apply R2. }
  induction 1 as [a|a d b l Hok Hle Hc IH|a d b l Hb Hal Hle Hn Hc IH|a d b l Hf Hb Hal Hle Hc IH]; intros Ha Hd.
  - split_and!; [done|done|by intros x ?%blocks_cover_nil].
  - pose proof (bo_bits _ Hok) as Hbits. pose proof (bo_aligned _ Hok) as Hal. cbn [b_bits b_ptr] in Hbits, Hal.
    unfold seL4_MinUntypedBits, seL4_MaxUntypedBits in Hbits.
    destruct (Hlater a d b l Ha Hd Hal ltac:(lia) Hle IH) as (I1 & I2 & I3). split_and!; [by constructor| |].
    + split; [|done]. intros x Hx Hx'. by apply (I3 x).
    + intros x [Hx|Hx]%blocks_cover_cons; [|by apply I3].
      apply (ring_step a d b x Ha Hd Hal ltac:(lia) Hle). left. exact Hx.
  - destruct (Hlater a d b l Ha Hd Hal ltac:(lia) Hle IH) as (I1 & I2 & I3). split_and!; [done|done|]. intros x Hx. by apply I3.
  - destruct (Hlater a d b l Ha Hd Hal Hb Hle IH) as (I1 & I2 & I3). split_and!; [done|done|]. intros x Hx. by apply I3.
Qed.

(** Unless the boot information is full, nothing of an aligned region is lost. *)
Lemma chopped_complete dev full a d l x : chopped dev full a d l -> is_word a -> 0 <= d < 2 ^ 64 ->
  aligned a 4 -> aligned d 4 -> ~ full -> in_ring a d x -> blocks_cover l x.
Proof.
  induction 1 as [a|a d b l Hok Hle Hc IH|a d b l Hb Hal Hle Hn Hc IH|a d b l Hf Hb Hal Hle Hc IH]; intros Ha Hd Ha4 Hd4 Hnf Hx; [| |tauto|done].
  - destruct Hx as [Hw Hx]. pose proof (wrap_is_word (x - a)). unfold wsub, is_word in *. lia.
  - pose proof (bo_bits _ Hok) as Hbits. pose proof (bo_aligned _ Hok) as Hal. cbn [b_bits b_ptr] in Hbits, Hal.
    unfold seL4_MinUntypedBits, seL4_MaxUntypedBits in Hbits. assert (0 < 2 ^ b) by (apply Z.pow_pos_nonneg; lia).
    apply blocks_cover_cons. apply (ring_step a d b x Ha Hd Hal ltac:(lia) Hle) in Hx as [Hx|Hx]; [by left|]. right.
    apply IH; try done; [apply wrap_is_word|lia|apply aligned_wadd; [done|apply pow_aligned; lia|lia]|apply aligned_sub; [done|apply pow_aligned; lia]].
Qed.

Lemma chopped_mono dev (full full' : Prop) a d l : (full -> full') -> chopped dev full a d l -> chopped dev full' a d l.
Proof. intros H. induction 1; [apply chopped_nil|by apply chopped_give|by eapply chopped_skip|eapply chopped_full; by auto]. Qed.

(** ** The slots *)
Section Slots.
Context `{BP : BootPlatform}.

Definition untyped_cap_of (b : ublock) : cap := cap_untyped_cap (MAX_FREE_INDEX (b_bits b)) (b_dev b) (b_bits b) (b_ptr b).
Definition desc_of (b : ublock) : untyped_desc := mk_desc (addrFromPPtr (b_ptr b)) (b_bits b) (b_dev b).
Definition boot_cte (c : cap) : cte := mk_cte c (mdb_node_new 0 true true 0).

Fixpoint add_slots (ptr pos : Z) (l : list ublock) (m : gmap Z cte) : gmap Z cte :=
  match l with
  | [] => m
  | b :: l' => add_slots ptr (pos + 1) l' (<[SLOT_PTR ptr pos := boot_cte (untyped_cap_of b)]> m)
  end.
Fixpoint add_descs (i : Z) (l : list ublock) (m : gmap Z untyped_desc) : gmap Z untyped_desc :=
  match l with [] => m | b :: l' => add_descs (i + 1) l' (<[i := desc_of b]> m) end.

Lemma add_slots_app ptr l1 l2 : forall pos m,
  add_slots ptr pos (l1 ++ l2) m = add_slots ptr (pos + Z.of_nat (length l1)) l2 (add_slots ptr pos l1 m).
Proof.
  induction l1 as [|b l1 IH]; intros pos m; cbn [app add_slots length]; [by rewrite Z.add_0_r|]. rewrite IH. f_equal. lia.
Qed.

Lemma add_descs_app l1 l2 : forall i m, add_descs i (l1 ++ l2) m = add_descs (i + Z.of_nat (length l1)) l2 (add_descs i l1 m).
Proof.
  induction l1 as [|b l1 IH]; intros i m; cbn [app add_descs length]; [by rewrite Z.add_0_r|]. rewrite IH. f_equal. lia.
Qed.

(** The blocks [l] are in the next slots of the CNode, and listed in the boot
    information; of the rest of the state only the free regions may differ. *)
Record grants (ptr first : Z) (l : list ublock) (s s' : ndks_boot_t) : Prop := {
  g_pos : slot_pos_cur s' = slot_pos_cur s + Z.of_nat (length l);
  g_room : (l = [] \/ slot_pos_cur s' <= BIT CONFIG_ROOT_CNODE_SIZE_BITS);
  g_slots : boot_slots s' = add_slots ptr (slot_pos_cur s) l (boot_slots s);
  g_descs : bi_untypedList (bi_frame s') = add_descs (slot_pos_cur s - first) l (bi_untypedList (bi_frame s));
  g_reserved : reserved s' = reserved s /\ resv_count s' = resv_count s;
  g_root : rootserver s' = rootserver s
}.

Lemma grants_nil ptr first s s' : slot_pos_cur s' = slot_pos_cur s -> boot_slots s' = boot_slots s -> bi_frame s' = bi_frame s ->
  reserved s' = reserved s -> resv_count s' = resv_count s -> rootserver s' = rootserver s -> grants ptr first [] s s'.
Proof. intros. split; cbn; try done; [lia|by left|by f_equal]. Qed.

Lemma grants_app ptr first l1 l2 s s1 s2 :
  grants ptr first l1 s s1 -> grants ptr first l2 s1 s2 -> grants ptr first (l1 ++ l2) s s2.
Proof.
  intros [A1 A2 A3 A4 [A5 A6] A7] [B1 B2 B3 B4 [B5 B6] B7]. split.
  - rewrite length_app. lia.
  - destruct B2 as [->|B2]; [|by right]. cbn in B1. rewrite app_nil_r. destruct A2; [by left|right; lia].
  - by rewrite add_slots_app, B3, A3, A1.
  - rewrite add_descs_app, B4, A4, A1. f_equal. lia.
  - split; congruence.
  - congruence.
Qed.

(** Slots of one CNode differ. *)
Lemma SLOT_PTR_inj p i j : 0 <= i < 2 ^ 59 -> 0 <= j < 2 ^ 59 -> SLOT_PTR p i = SLOT_PTR p j -> i = j.
Proof.
  unfold SLOT_PTR, cte_offset, wshl. change seL4_SlotBits with 5. rewrite !Z.shiftl_mul_pow2 by lia. intros Hi Hj.
  rewrite !wrap_small by (unfold is_word, word_modulus; lia). unfold wadd, wrap, word_modulus. intros H.
  assert (Hd : ((p + i * 2 ^ 5) - (p + j * 2 ^ 5)) mod 2 ^ 64 = 0) by (rewrite Zminus_mod, H, Z.sub_diag; done).
  apply Z.mod_divide in Hd as [k Hk]; [|lia]. lia.
Qed.

Lemma add_slots_other ptr l : forall pos m i, 0 <= i < pos -> pos + Z.of_nat (length l) <= 2 ^ 59 ->
  add_slots ptr pos l m !! SLOT_PTR ptr i = m !! SLOT_PTR ptr i.
Proof.
  induction l as [|b l IH]; intros pos m i Hi Hl; [done|]. cbn [add_slots length] in *. rewrite IH by lia.
  apply lookup_insert_ne. intros E. apply SLOT_PTR_inj in E; lia.
Qed.

Lemma add_slots_frame ptr l : forall pos m p,
  (forall i, 0 <= i < Z.of_nat (length l) -> p <> SLOT_PTR ptr (pos + i)) -> add_slots ptr pos l m !! p = m !! p.
Proof.
  induction l as [|b l IH]; intros pos m p Hp; [done|]. cbn [add_slots length] in *. rewrite IH.
  - apply lookup_insert_ne. intros <-. apply (Hp 0); [lia|]. by rewrite Z.add_0_r.
  - intros i Hi. replace (pos + 1 + i) with (pos + (i + 1)) by lia. apply Hp. lia.
Qed.

Lemma add_slots_lookup ptr l : forall pos m i b, 0 <= pos -> pos + Z.of_nat (length l) <= 2 ^ 59 -> l !! i = Some b ->
  add_slots ptr pos l m !! SLOT_PTR ptr (pos + Z.of_nat i) = Some (boot_cte (untyped_cap_of b)).
Proof.
  induction l as [|b' l IH]; intros pos m i b Hp Hl Hi; [done|]. cbn [add_slots length] in *. destruct i as [|i].
  - injection Hi as ->. rewrite Z.add_0_r, add_slots_other by lia. apply lookup_insert_eq.
  - replace (pos + Z.of_nat (S i)) with (pos + 1 + Z.of_nat i) by lia. apply IH; [lia|lia|done].
Qed.

Lemma add_descs_other l : forall i m j, j < i -> add_descs i l m !! j = m !! j.
Proof.
  induction l as [|b l IH]; intros i m j Hj; [done|]. cbn [add_descs]. rewrite IH by lia. apply lookup_insert_ne. lia.
Qed.

Lemma add_descs_lookup l : forall i m k b, l !! k = Some b -> add_descs i l m !! (i + Z.of_nat k) = Some (desc_of b).
Proof.
  induction l as [|b' l IH]; intros i m k b Hk; [done|]. cbn [add_descs]. destruct k as [|k].
  - injection Hk as ->. rewrite Z.add_0_r, add_descs_other by lia. apply lookup_insert_eq.
  - replace (i + Z.of_nat (S k)) with (i + 1 + Z.of_nat k) by lia. by apply IH.
Qed.

Definition pos_ok (first : Z) (s : ndks_boot_t) : Prop := 0 <= first <= slot_pos_cur s /\ slot_pos_cur s < 2 ^ 64.
Definition table_full (first : Z) (s : ndks_boot_t) : Prop := CONFIG_MAX_NUM_BOOTINFO_UNTYPED_CAPS <= slot_pos_cur s - first.

Lemma grants_pos_ok ptr first l s s' : grants ptr first l s s' -> pos_ok first s -> pos_ok first s'.
Proof.
  intros [A1 A2 _ _ _ _] [H1 H2]. unfold pos_ok. pose proof (wrap_is_word (Z.shiftl 1 CONFIG_ROOT_CNODE_SIZE_BITS)) as Hw.
  unfold BIT, wshl, is_word, word_modulus in *. destruct A2 as [->|A2]; [cbn in A1|]; lia.
Qed.

Lemma grants_full ptr first l s s' : grants ptr first l s s' -> table_full first s -> table_full first s'.
Proof. intros [A1 _ _ _ _ _]. unfold table_full. lia. Qed.

(** One block *)
Lemma wp_provide_untyped_cap root dev a b first s (Q : bool -> ndks_boot_t -> Prop) :
  pos_ok first s -> is_word a -> seL4_MinUntypedBits <= b <= seL4_MaxUntypedBits -> aligned a b ->
  (forall s', grants (cap_get_capPtr root) first [mk_block dev a b] s s' -> freemem s' = freemem s ->
     block_ok (mk_block dev a b) -> Q true s') ->
  (table_full first s -> Q true s) -> (forall s', Q false s') ->
  wp (provide_untyped_cap root dev a b first) Q s.
Proof.
  intros [Hp1 Hp2] Ha Hb Hal Hok Hfull Hno. unfold provide_untyped_cap.
  rewrite !(proj2 (Z.ltb_ge _ _)) by lia. cbn [orb]. unfold seL4_MinUntypedBits, seL4_MaxUntypedBits in Hb.
  assert (0 < 2 ^ b) by (apply Z.pow_pos_nonneg; lia). pose proof (aligned_end a b Hal ltac:(lia) Ha) as He.
  unfold IS_ALIGNED. rewrite land_MASK by (unfold wordBits; lia). rewrite (proj2 (Z.mod_divide a (2 ^ b) ltac:(lia)) Hal). cbn [Z.eqb negb].
  rewrite MASK_pow by (unfold wordBits; lia). destruct Ha as [Ha1 Ha2]. unfold word_modulus in Ha2.
  rewrite (wadd_small a) by (unfold is_word, word_modulus; lia).
  destruct (negb dev && negb (pptr_in_kernel_window a)) eqn:E1; [by apply wp_ret|].
  destruct (negb dev && negb (pptr_in_kernel_window (a + (2 ^ b - 1)))) eqn:E2; [by apply wp_ret|].
  assert (Hblk : block_ok (mk_block dev a b)).
  { split; cbn; [done|done|lia|]. intros ->. cbn [negb andb] in E1, E2. unfold pptr_in_kernel_window in E1, E2. unfold in_window. cbn.
    apply negb_false_iff, andb_true_iff in E1 as [E1 _]. apply negb_false_iff, andb_true_iff in E2 as [_ E2]. bool_hyps. lia. }
  wp_struct. wp_struct. cbv zeta. rewrite (wsub_small (slot_pos_cur s)) by (unfold is_word, word_modulus; lia).
  destruct (Z.ltb_spec (slot_pos_cur s - first) CONFIG_MAX_NUM_BOOTINFO_UNTYPED_CAPS) as [Hi|Hi]; [|wp_struct; by apply Hfull].
  wp_struct. wp_struct. unfold provide_cap. wp_struct. wp_struct. change (slot_pos_cur (set_bi_frame ?f s)) with (slot_pos_cur s).
  destruct (Z.leb_spec (BIT CONFIG_ROOT_CNODE_SIZE_BITS) (slot_pos_cur s)); [wp_struct; apply Hno|].
  unfold write_slot. wp_struct. wp_struct. wp_struct. wp_struct. wp_struct. apply Hok; [|done|done]. split; try done. right. cbn. lia.
Qed.

(** A region *)
Section Region.
Variables (root : cap) (dev : bool) (first : Z).
Notation ptr := (cap_get_capPtr root).

Lemma wp_create_untypeds_for_region reg s (Q : bool -> ndks_boot_t -> Prop) :
  pos_ok first s -> is_word (r_start reg) -> is_word (r_end reg) ->
  (forall l s', grants ptr first l s s' -> freemem s' = freemem s ->
     chopped dev (table_full first s') (r_start reg) (wsub (r_end reg) (r_start reg)) l -> Q true s') ->
  (forall s', Q false s') ->
  wp (create_untypeds_for_region root dev reg first) Q s.
Proof.
  intros Hpos Hs He Hok Hno. unfold create_untypeds_for_region.
  eapply (wp_loop_until _ (fun n r s1 => pos_ok first s1 /\ is_word (r_start r) /\ is_word (r_end r) /\ n = Z.to_nat (wsub (r_end r) (r_start r)) /\
    (forall l s', grants ptr first l s1 s' -> freemem s' = freemem s1 ->
      chopped dev (table_full first s') (r_start r) (wsub (r_end r) (r_start r)) l -> Q true s')) Q) with (n := Z.to_nat (wsub (r_end reg) (r_start reg)));
    [|done|pose proof (wrap_is_word (r_end reg - r_start reg)); unfold wsub, is_word, word_modulus, region_bound in *; lia].
  clear Hpos Hs He Hok. intros n [a e] s1 (Hpos & Ha & He & -> & HQ). cbn [r_start r_end] in *. unfold untyped_step, is_reg_empty.
  cbn [r_start r_end]. destruct (Z.eqb_spec a e) as [->|Hne].
  { wp_struct. apply (HQ []); [by apply grants_nil|done|]. unfold wsub. rewrite Z.sub_diag. apply chopped_nil. }
  assert (Hd : 0 < wsub e a < 2 ^ 64).
  { unfold is_word, wsub, wrap, word_modulus in *. pose proof (Z.mod_pos_bound (e - a) (2 ^ 64) ltac:(lia)).
    destruct (Z.eq_dec ((e - a) mod 2 ^ 64) 0) as [E0|]; [|lia]. exfalso. Z.div_mod_to_equations; lia. }
  destruct (untyped_bits_spec (mk_region a e) Ha Hd) as (B1 & B2 & B3 & B4). cbn [r_start r_end] in *.
  set (b := untyped_bits _) in *. clearbody b. unfold seL4_MaxUntypedBits in B1.
  assert (Hb : 0 < 2 ^ b) by (apply Z.pow_pos_nonneg; lia).
  assert (Hd' : wsub e (wadd a (2 ^ b)) = wsub e a - 2 ^ b).
  { rewrite wsub_wadd. unfold wsub, wrap, word_modulus in *. rewrite <- Zminus_mod_idemp_l. apply Z.mod_small. lia. }
  rewrite BIT_pow by (unfold wordBits; lia).
  assert (Hnext : forall s2, pos_ok first s2 -> (forall l s', grants ptr first l s2 s' -> freemem s' = freemem s2 ->
      chopped dev (table_full first s') (wadd a (2 ^ b)) (wsub e a - 2 ^ b) l -> Q true s') ->
    wp (if negb true then ret (inr false) else ret (inl (mk_region (wadd a (2 ^ b)) e))) (fun r s' => match r with
      | inl y => exists n', (n' < Z.to_nat (wsub e a))%nat /\ (pos_ok first s' /\ is_word (r_start y) /\ is_word (r_end y) /\
          n' = Z.to_nat (wsub (r_end y) (r_start y)) /\ (forall l s'', grants ptr first l s' s'' -> freemem s'' = freemem s' ->
            chopped dev (table_full first s'') (r_start y) (wsub (r_end y) (r_start y)) l -> Q true s''))
      | inr a => Q a s' end) s2).
  { intros s2 Hp2 H2. cbn [negb]. apply wp_ret. cbn [r_start r_end]. rewrite Hd'. eexists. split; [|split_and!; [done|apply wrap_is_word|done|done|exact H2]]. lia. }
  wp_struct. destruct (Z.leb_spec seL4_MinUntypedBits b) as [H4|H4].
  - unfold seL4_MinUntypedBits in H4. apply wp_provide_untyped_cap; [done|done|unfold seL4_MinUntypedBits, seL4_MaxUntypedBits; lia|done| | |].
    + intros s2 G Ef Hblk. cbn beta iota. apply Hnext; [by eapply grants_pos_ok|]. intros l s' G' Ef' Hc.
      apply (HQ (mk_block dev a b :: l)); [by apply (grants_app ptr first [mk_block dev a b] l s1 s2 s')|congruence|by apply chopped_give].
    + intros Hf. apply Hnext; [done|]. intros l s' G' Ef' Hc. apply (HQ l); [done|done|].
      apply (chopped_full _ _ _ _ b); [by eapply grants_full|lia|done|done|done].
    + intros s2. cbn [negb]. by apply wp_ret.
  - unfold seL4_MinUntypedBits in H4. apply wp_ret. apply Hnext; [done|]. intros l s' G' Ef' Hc. apply (HQ l); [done|done|].
    apply (chopped_skip _ _ _ _ b); [lia|done|done| |done]. intros [A4 D4]. specialize (B4 A4 D4). lia.
Qed.
End Region.
End Slots.
