(* ===== verification/BootGrant.v ===== *)
(** * All untyped memory

    [create_untypeds] as a whole: it hands out the gaps between the reserved
    regions as device memory, and the boot-only part of the kernel and the free
    memory as ordinary memory, nothing twice. *)
From S2P Require Import Prelude Bytes Structures CapOps VSpace Sched Mdb Untyped Boot BootInv BootFree BootRoot BootInit BootUntyped.
From stdpp Require Import base list gmap.
#[local] Open Scope Z_scope.

(** ** Several regions *)
Definition ring_of (r : region) (x : Z) : Prop := in_ring (r_start r) (wsub (r_end r) (r_start r)) x.
Definition word_region (r : region) : Prop := is_word (r_start r) /\ is_word (r_end r).
Definition chop (full : Prop) (p : bool * region) (l : list ublock) : Prop :=
  chopped (fst p) full (r_start (snd p)) (wsub (r_end (snd p)) (r_start (snd p))) l.

Inductive chopped_all (full : Prop) : list (bool * region) -> list ublock -> Prop :=
| chopped_all_nil : chopped_all full [] []
| chopped_all_cons p ps l1 l2 : chop full p l1 -> chopped_all full ps l2 -> chopped_all full (p :: ps) (l1 ++ l2).

Lemma chopped_all_mono (full full' : Prop) ps l : (full -> full') -> chopped_all full ps l -> chopped_all full' ps l.
Proof. intros H. induction 1; [constructor|]. constructor; [by eapply chopped_mono|done]. Qed.

Lemma chopped_all_app full ps1 ps2 l1 l2 : chopped_all full ps1 l1 -> chopped_all full ps2 l2 -> chopped_all full (ps1 ++ ps2) (l1 ++ l2).
Proof. induction 1; intros H2; cbn [app]; [done|]. rewrite <- app_assoc. constructor; [done|by apply IHchopped_all]. Qed.

Lemma chopped_all_split full ps1 ps2 l : chopped_all full (ps1 ++ ps2) l ->
  exists l1 l2, l = l1 ++ l2 /\ chopped_all full ps1 l1 /\ chopped_all full ps2 l2.
Proof.
  revert l. induction ps1 as [|p ps1 IH]; intros l H; cbn [app] in H; [exists [], l; by split_and!; [|constructor|]|].
  inversion H as [|? ? l1 l2 H1 H2]; subst. destruct (IH _ H2) as (l3 & l4 & -> & H3 & H4).
  exists (l1 ++ l3), l4. split_and!; [by rewrite app_assoc|by constructor|done].
Qed.

Lemma chopped_all_one full p l : chopped_all full [p] l -> chop full p l.
Proof. intros H. inversion H as [|? ? l1 l2 H1 H2]; subst. inversion H2; subst. by rewrite app_nil_r. Qed.

(** What holds of the blocks of one region: they are well formed, of one kind,
    and apart, and lie in [P]. *)
Record lies (dev : bool) (P : Z -> Prop) (l : list ublock) : Prop := {
  li_ok : Forall (fun b => b_dev b = dev /\ block_ok b) l;
  li_apart : blocks_apart l;
  li_in : forall x, blocks_cover l x -> P x
}.

Lemma lies_mono dev (P P' : Z -> Prop) l : (forall x, P x -> P' x) -> lies dev P l -> lies dev P' l.
Proof. intros H [A1 A2 A3]. split; [done|done|by auto]. Qed.

Lemma lies_app dev P P1 P2 l1 l2 : lies dev P1 l1 -> lies dev P2 l2 -> (forall x, P1 x -> ~ P2 x) ->
  (forall x, P1 x \/ P2 x -> P x) -> lies dev P (l1 ++ l2).
Proof.
  intros [A1 A2 A3] [B1 B2 B3] H HP. split; [by apply Forall_app|apply blocks_apart_app; [done|done|]|].
  - intros x Hx Hx'. by apply (H x); [apply A3|apply B3].
  - intros x [Hx|Hx]%blocks_cover_app; apply HP; [left; by apply A3|right; by apply B3].
Qed.

Lemma lies_nil dev P : lies dev P [].
Proof. split; [done|done|by intros x ?%blocks_cover_nil]. Qed.

Lemma lies_chop full dev r l : chop full (dev, r) l -> word_region r -> lies dev (ring_of r) l.
Proof.
  intros H [Hw1 Hw2]. pose proof (wrap_is_word (r_end r - r_start r)) as Hd.
  destruct (chopped_sound _ _ _ _ _ H Hw1 Hd) as (A1 & A2 & A3). by split.
Qed.

(** Free regions in order *)
Definition free_plan (fr : list region) : list (bool * region) := pair false <$> fr.

Lemma free_word lo fr r : 0 <= lo -> weak_from lo fr -> (forall r, r ∈ fr -> r_end r < 2 ^ 64) -> r ∈ fr -> word_region r /\ r_start r <= r_end r.
Proof.
  intros Hlo. revert lo Hlo. induction fr as [|r' fr IH]; intros lo Hlo Hw Hlt Hin; [by apply elem_of_nil in Hin|].
  destruct Hw as [H1 H2]. apply elem_of_cons in Hin as [->|Hin].
  - pose proof (Hlt r' ltac:(left)). unfold word_region, is_word, word_modulus. lia.
  - apply (IH (r_end r')); [lia|done|intros r0 ?; apply Hlt; by right|done].
Qed.

Lemma lies_free full fr : forall lo l, 0 <= lo -> weak_from lo fr -> (forall r, r ∈ fr -> r_end r < 2 ^ 64) ->
  chopped_all full (free_plan fr) l -> lies false (covers fr) l.
Proof.
  induction fr as [|r fr IH]; intros lo l Hlo Hw Hlt H.
  { inversion H; subst. apply lies_nil. }
  destruct (free_word lo (r :: fr) r Hlo Hw Hlt ltac:(left)) as [Hwr Hr]. destruct Hw as [H1 H2].
  inversion H as [|? ? l1 l2 C1 C2]; subst. apply (lies_app _ _ (inside r) (covers fr)).
  - eapply lies_mono; [|by eapply lies_chop]. intros x Hx. apply ring_straight; [lia|apply Hlt; left|exact Hx].
  - apply (IH (r_end r)); [lia|done|intros r' ?; apply Hlt; by right|done].
  - intros x Hx Hc. unfold inside in Hx. pose proof (weak_covers _ _ _ H2 Hc). lia.
  - intros x Hx. by apply covers_cons.
Qed.

(** The gaps between reserved regions *)
Fixpoint gaps (start : Z) (l : list region) : list (bool * region) :=
  match l with
  | [] => []
  | r :: l' => (if start <? r_start r then [(true, paddr_to_pptr_reg (mk_region start (r_start r)))] else []) ++ gaps (r_end r) l'
  end.
Definition top_gap (start top : Z) : list (bool * region) :=
  if start <? top then [(true, paddr_to_pptr_reg (mk_region start top))] else [].

Lemma paddr_word lo hi : word_region (paddr_to_pptr_reg (mk_region lo hi)).
Proof. split; apply wrap_is_word. Qed.

Lemma lies_device full lo hi l : 0 <= lo <= hi -> hi < 2 ^ 64 -> chop full (true, paddr_to_pptr_reg (mk_region lo hi)) l ->
  lies true (fun x => lo <= addrFromPPtr x < hi) l.
Proof.
  intros H1 H2 H. eapply lies_mono; [|eapply lies_chop; [exact H|apply paddr_word]].
  intros x Hx. by apply (ring_device lo hi x) in Hx as [_ ?].
Qed.

Lemma lies_top full start top l : 0 <= start -> top < 2 ^ 64 -> chopped_all full (top_gap start top) l ->
  lies true (fun x => start <= addrFromPPtr x < top) l.
Proof.
  intros H1 H2 H. unfold top_gap in H. destruct (Z.ltb_spec start top).
  - apply chopped_all_one in H. apply lies_device in H; [done|lia|done].
  - inversion H; subst. apply lies_nil.
Qed.

Lemma lies_gaps full res : forall start l, 0 <= start -> normal_from (start - 1) res -> (forall r, r ∈ res -> r_end r < 2 ^ 64) ->
  chopped_all full (gaps start res) l ->
  lies true (fun x => start <= addrFromPPtr x < last_end start res /\ ~ covers res (addrFromPPtr x)) l.
Proof.
  induction res as [|r res IH]; intros start l Hs Hn Hlt H; cbn [gaps] in H.
  { inversion H; subst. apply lies_nil. }
  destruct Hn as [Hn1 Hn2]. pose proof (Hlt r ltac:(left)) as Hr. apply chopped_all_split in H as (l1 & l2 & -> & C1 & C2).
  change (if _ <? _ then _ else _) with (top_gap start (r_start r)) in C1.
  assert (Hle : r_end r <= last_end (r_end r) res) by (by apply weak_last_ge, loose_weak, normal_loose).
  apply (lies_app _ _ (fun x => start <= addrFromPPtr x < r_start r) (fun x => r_end r <= addrFromPPtr x < last_end (r_end r) res /\ ~ covers res (addrFromPPtr x))).
  - apply (lies_top full); [lia|lia|done].
  - apply IH; [lia|eapply normal_weaken; [exact Hn2|]|intros r' ?; apply Hlt; by right|done].
    intros r' Hin. pose proof (normal_above _ _ _ Hn2 Hin). lia.
  - intros x Hx [Hx' _]. lia.
  - intros x Hx. rewrite last_end_cons, covers_cons. unfold inside. destruct Hx as [Hx|[Hx Hc]]; [|split; [lia|]; intros [?|?]; [lia|done]].
    split; [lia|]. intros [?|(r' & Hin & Hx')]; [lia|]. pose proof (normal_above _ _ _ Hn2 Hin). unfold inside in Hx'. lia.
Qed.

(** Unless the table is full, no aligned region is lost. *)
Lemma chopped_all_complete full ps l dev r x : chopped_all full ps l -> ~ full -> (dev, r) ∈ ps -> word_region r ->
  aligned (r_start r) 4 -> aligned (r_end r) 4 -> ring_of r x -> exists b, b ∈ l /\ b_dev b = dev /\ inside (block_region b) x.
Proof.
  intros H Hnf Hin [Hw1 Hw2] Ha He Hx. pose proof (wrap_is_word (r_end r - r_start r)) as Hd.
  assert (Hd4 : aligned (wsub (r_end r) (r_start r)) 4).
  { unfold wsub. rewrite <- Z.add_opp_r. apply (aligned_wadd (r_end r) 4 (- r_start r)); [done| |lia]. by apply Z.divide_opp_r. }
  induction H as [|p ps l1 l2 C1 C2 IH]; [by apply elem_of_nil in Hin|]. apply elem_of_cons in Hin as [<-|Hin].
  - assert (Hc : blocks_cover l1 x) by (by eapply chopped_complete). destruct Hc as (b & Hb & Hi).
    destruct (chopped_sound _ _ _ _ _ C1 Hw1 Hd) as [A1 _]. rewrite Forall_forall in A1. destruct (A1 b Hb) as [E _].
    exists b. split_and!; [apply elem_of_app; by left|exact E|done].
  - destruct (IH Hin) as (b & Hb & E & Hi). exists b. split_and!; [apply elem_of_app; by right|done|done].
Qed.

(** ** The code *)
Section Grant.
Context `{BP : BootPlatform}.
Variables (root : cap) (first : Z).
Notation ptr := (cap_get_capPtr root).

(** The regions [ps] have been handed out. *)
Definition handed (ps : list (bool * region)) (s s' : ndks_boot_t) : Prop :=
  exists l, grants ptr first l s s' /\ chopped_all (table_full first s') ps l.

Lemma handed_nil s : handed [] s s.
Proof. exists []. split; [by apply grants_nil|constructor]. Qed.

Lemma handed_app ps1 ps2 s s1 s2 : handed ps1 s s1 -> handed ps2 s1 s2 -> handed (ps1 ++ ps2) s s2.
Proof.
  intros (l1 & G1 & C1) (l2 & G2 & C2). exists (l1 ++ l2). split; [by eapply grants_app|]. apply chopped_all_app; [|done].
  eapply chopped_all_mono; [|exact C1]. by eapply grants_full.
Qed.

Lemma handed_pos ps s s' : handed ps s s' -> pos_ok first s -> pos_ok first s'.
Proof. intros (l & G & _). by eapply grants_pos_ok. Qed.

Lemma handed_arr ps s s' : handed ps s s' -> reserved s' = reserved s /\ resv_count s' = resv_count s.
Proof. intros (l & [_ _ _ _ G _] & _). exact G. Qed.

Lemma wp_region dev reg s (Q : bool -> ndks_boot_t -> Prop) : pos_ok first s -> word_region reg ->
  (forall s', handed [(dev, reg)] s s' -> freemem s' = freemem s -> Q true s') -> (forall s', Q false s') ->
  wp (create_untypeds_for_region root dev reg first) Q s.
Proof.
  intros Hp [Hw1 Hw2] Hok Hno. apply wp_create_untypeds_for_region; try done. intros l s' G Ef C. apply Hok; [|done].
  exists l. split; [done|]. rewrite <- (app_nil_r l). constructor; [done|constructor].
Qed.

Lemma wp_gap start hi s (Q : bool -> ndks_boot_t -> Prop) : pos_ok first s ->
  (forall s', handed (top_gap start hi) s s' -> freemem s' = freemem s -> Q true s') -> (forall s', Q false s') ->
  wp (if start <? hi then create_untypeds_for_region root true (paddr_to_pptr_reg (mk_region start hi)) first else ret true) Q s.
Proof.
  intros Hp Hok Hno. unfold top_gap in Hok. destruct (start <? hi).
  - apply wp_region; [done|apply paddr_word|done|done].
  - apply wp_ret. apply Hok; [apply handed_nil|done].
Qed.

Lemma wp_get_reserved_at s l i r (Q : region -> ndks_boot_t -> Prop) :
  (exists junk, reserved s = l ++ junk) -> l !! i = Some r -> Q r s -> wp (get_reserved (Z.of_nat i)) Q s.
Proof.
  intros [junk E] Hi HQ. unfold get_reserved. wp_struct. wp_struct. wp_struct. wp_struct; [by apply Z.leb_le; lia|].
  eapply wp_from_option; [|exact HQ]. rewrite Nat2Z.id, E. apply lookup_app_Some. by left.
Qed.

Lemma wp_device_loop l : forall pre start s (Q : option Z -> ndks_boot_t -> Prop),
  pos_ok first s -> (exists junk, reserved s = (pre ++ l) ++ junk) ->
  (forall s', handed (gaps start l) s s' -> freemem s' = freemem s -> Q (Some (last_end start l)) s') -> (forall s', Q None s') ->
  wp (device_loop (length l) (Z.of_nat (length pre)) start first root) Q s.
Proof.
  induction l as [|r l IH]; intros pre start s Q Hp Hr Hok Hno; cbn [length device_loop].
  { apply wp_ret. apply Hok; [apply handed_nil|done]. }
  wp_struct. eapply wp_get_reserved_at; [exact Hr|by apply list_lookup_middle|]. wp_struct. apply wp_gap; [done| |intros s'; cbn [negb]; by apply wp_ret].
  intros s1 H1 Ef1. cbn [negb]. replace (Z.of_nat (length pre) + 1) with (Z.of_nat (length (pre ++ [r]))) by (rewrite length_app; cbn; lia).
  destruct (handed_arr _ _ _ H1) as [E1 _].
  apply IH; [by eapply handed_pos|rewrite E1, <- (app_assoc pre [r] l); exact Hr| |done].
  intros s2 H2 Ef2. rewrite <- (last_end_cons start). apply Hok; [|congruence]. cbn [gaps]. by eapply handed_app.
Qed.

Lemma wp_freemem_loop l : forall pre s (Q : bool -> ndks_boot_t -> Prop),
  pos_ok first s -> freemem s = pre ++ l -> Forall word_region l ->
  (forall s', handed (free_plan l) s s' -> Q true s') -> (forall s', Q false s') ->
  wp (freemem_loop (length l) (Z.of_nat (length pre)) first root) Q s.
Proof.
  induction l as [|r l IH]; intros pre s Q Hp Hf Hw Hok Hno; cbn [length freemem_loop].
  { apply wp_ret. apply Hok, handed_nil. }
  inversion Hw as [|? ? Hr Hl]; subst. wp_struct. apply (wp_get_freemem s _ r); [rewrite Hf; by apply list_lookup_middle|].
  wp_struct. apply wp_put_freemem; [rewrite Hf, length_app; cbn; lia|]. wp_struct. set (s1 := set_freemem _ s).
  assert (Hf1 : freemem s1 = (pre ++ [REG_EMPTY]) ++ l).
  { unfold s1. cbn. rewrite Hf, insert_app_r_alt, Nat.sub_diag by lia. by rewrite <- app_assoc. }
  apply wp_region; [done|done| |intros s'; cbn [negb]; by apply wp_ret]. intros s2 (l1 & G1 & C1) Ef2. cbn [negb].
  replace (Z.of_nat (length pre) + 1) with (Z.of_nat (length (pre ++ [REG_EMPTY]))) by (rewrite length_app; cbn; lia).
  assert (H1 : handed [(false, r)] s s2) by (exists l1; split; [by destruct G1|done]).
  apply IH; [by eapply handed_pos|congruence|done| |done]. intros s3 H3. apply Hok. exact (handed_app [_] _ _ _ _ H1 H3).
Qed.

(** The whole plan *)
Definition img_boot : region := mk_region KERNEL_ELF_BASE ki_boot_end.
Definition untyped_plan (res free : list region) : list (bool * region) :=
  gaps 0 res ++ top_gap (last_end 0 res) CONFIG_PADDR_USER_DEVICE_TOP ++ (false, img_boot) :: free_plan free.

(** The kernel image in the window, as the linker places it. *)
Definition image_ok : Prop := PPTR_BASE <= KERNEL_ELF_BASE <= ki_boot_end /\ ki_boot_end <= KERNEL_ELF_TOP /\ KERNEL_ELF_TOP <= PPTR_TOP.

Lemma wp_img s (Q : region -> ndks_boot_t -> Prop) : image_ok -> Q (pa img_boot) s -> wp get_p_reg_kernel_img_boot Q s.
Proof.
  intros (H1 & H2 & H3) HQ. unfold get_p_reg_kernel_img_boot, addrFromKPPtr. unfold PPTR_BASE, PPTR_TOP in *.
  repeat (wp_struct; [apply Z.leb_le; lia|] || wp_struct).
  unfold pa, img_boot in HQ. cbn [r_start r_end] in HQ. unfold PPTR_BASE_OFFSET, PADDR_BASE, PPTR_BASE in *.
  rewrite !wsub_small by (unfold is_word, word_modulus; lia). by rewrite !Z.sub_0_r.
Qed.

Lemma img_pptr : image_ok -> paddr_to_pptr_reg (pa img_boot) = img_boot.
Proof.
  intros (H1 & H2 & H3). unfold paddr_to_pptr_reg, pa, img_boot, ptrFromPAddr. cbn [r_start r_end].
  unfold PPTR_BASE_OFFSET, PADDR_BASE, PPTR_BASE, PPTR_TOP in *. rewrite !wadd_small by (unfold is_word, word_modulus; lia). f_equal; lia.
Qed.
End Grant.

Section Untypeds.
Context `{BP : BootPlatform}.

Lemma wp_create_untypeds root res s (Q : bool -> ndks_boot_t -> Prop) : 0 <= slot_pos_cur s < 2 ^ 64 ->
  (exists junk, reserved s = res ++ junk) -> resv_count s = Z.of_nat (length res) ->
  Z.of_nat (length (freemem s)) = MAX_NUM_FREEMEM_REG -> Forall word_region (freemem s) -> image_ok ->
  (forall s', handed root (slot_pos_cur s) (untyped_plan res (freemem s)) s s' -> Q true s') -> (forall s', Q false s') ->
  wp (create_untypeds root) Q s.
Proof.
  intros Hp Hr Hc Hf Hw Hi Hok Hno. unfold create_untypeds. wp_struct. wp_struct. set (first := slot_pos_cur s) in *. wp_struct. wp_struct.
  rewrite Hc, Nat2Z.id. wp_struct. assert (Hp0 : pos_ok first s) by (unfold pos_ok; lia).
  apply (wp_device_loop root first res [] 0 s); [done|done| |intros s'; by apply wp_ret]. intros s1 H1 Ef1. pose proof (handed_pos _ _ _ _ _ H1 Hp0) as Hp1.
  wp_struct. apply wp_gap; [done| |intros s'; cbn [negb]; by apply wp_ret]. intros s2 H2 Ef2. cbn [negb]. pose proof (handed_pos _ _ _ _ _ H2 Hp1) as Hp2.
  wp_struct. apply wp_img; [done|]. wp_struct. rewrite img_pptr by done. destruct Hi as (I1 & I2 & I3). unfold PPTR_BASE, PPTR_TOP in *.
  apply wp_region; [done|unfold word_region, img_boot, is_word, word_modulus; cbn [r_start r_end]; lia| |intros s'; cbn [negb]; by apply wp_ret].
  intros s3 H3 Ef3. cbn [negb]. pose proof (handed_pos _ _ _ _ _ H3 Hp2) as Hp3. wp_struct.
  assert (Ef : freemem s3 = freemem s) by congruence.
  replace (Z.to_nat MAX_NUM_FREEMEM_REG) with (length (freemem s)) by lia.
  apply (wp_freemem_loop root first (freemem s) [] s3); [done|done|done| |intros s'; cbn [negb]; by apply wp_ret].
  intros s4 H4. cbn [negb]. wp_struct. wp_struct. wp_struct. wp_struct. apply wp_ret. apply Hok. unfold untyped_plan.
  pose proof (handed_app _ _ _ _ _ _ _ H1 (handed_app _ _ _ _ _ _ _ H2 (handed_app _ _ [_] _ _ _ _ H3 H4))) as (l & G & C).
  exists l. split; [by destruct G|done].
Qed.

(** ** The memory handed out *)

(** What [init_freemem] leaves behind: the physical regions [res] are reserved,
    among them the kernel image and the free regions [fr]. *)
Record divided (res fr : list region) (s : ndks_boot_t) : Prop := {
  dv_holds : holds res s;
  dv_normal : normal res;
  dv_words : forall r, r ∈ res -> r_end r < 2 ^ 64;
  dv_free : exists k, freemem s = fr ++ replicate k REG_EMPTY;
  dv_size : Z.of_nat (length (freemem s)) = MAX_NUM_FREEMEM_REG;
  dv_ordered : weak_from PPTR_BASE fr;
  dv_window : forall r, r ∈ fr -> r_end r <= PPTR_TOP;
  dv_reserved : forall x, covers fr (x + PPTR_BASE) \/ inside img_boot (x + PPTR_BASE) -> covers res x;
  dv_image : image_ok /\ forall x, inside img_boot x -> ~ covers fr x;
  dv_top : 0 <= CONFIG_PADDR_USER_DEVICE_TOP < 2 ^ 64
}.

(** The kinds of memory. *)
Definition ordinary (fr : list region) (x : Z) : Prop := inside img_boot x \/ covers fr x.
Definition device (res : list region) (x : Z) : Prop := ~ covers res (addrFromPPtr x).

Lemma window_addr x : PPTR_BASE <= x < PPTR_TOP -> addrFromPPtr x = x - PPTR_BASE.
Proof.
  unfold addrFromPPtr, PPTR_BASE_OFFSET, PADDR_BASE, PPTR_BASE, PPTR_TOP. intros H.
  rewrite wsub_small by (unfold is_word, word_modulus; lia). lia.
Qed.

Lemma covers_empty k x : ~ covers (replicate k REG_EMPTY) x.
Proof. intros (r & [-> _]%elem_of_replicate & H). unfold inside in H. cbn in H. lia. Qed.

Lemma divided_ordinary res fr s x : divided res fr s -> ordinary fr x -> PPTR_BASE <= x < PPTR_TOP /\ ~ device res x.
Proof.
  intros D Hx. assert (Hw : PPTR_BASE <= x < PPTR_TOP).
  { destruct Hx as [Hx|Hx].
    - destruct (proj1 (dv_image _ _ _ D)) as (I1 & I2 & I3). unfold inside, img_boot in Hx. cbn [r_start r_end] in Hx. lia.
    - pose proof (weak_covers _ _ _ (dv_ordered _ _ _ D) Hx). destruct Hx as (r & Hr & Hx). pose proof (dv_window _ _ _ D r Hr). unfold inside in Hx. lia. }
  split; [done|]. intros H. apply H. rewrite window_addr by done. apply (dv_reserved _ _ _ D).
  replace (x - PPTR_BASE + PPTR_BASE) with x by lia. destruct Hx; [by right|by left].
Qed.

Lemma divided_words res fr s : divided res fr s -> Forall word_region (freemem s).
Proof.
  intros D. destruct (dv_free _ _ _ D) as [k ->]. apply Forall_app. split; apply Forall_forall; intros r Hr.
  - apply (free_word PPTR_BASE fr); [unfold PPTR_BASE; lia|apply D| |done].
    intros r' Hr'. pose proof (dv_window _ _ _ D r' Hr'). unfold PPTR_TOP in *. lia.
  - apply elem_of_replicate in Hr as [-> _]. done.
Qed.

Lemma lies_empty full k l : chopped_all full (free_plan (replicate k REG_EMPTY)) l -> l = [].
Proof.
  revert l. induction k as [|k IH]; intros l H; inversion H as [|? ? l1 l2 C1 C2]; subst; [done|]. rewrite (IH l2 C2), app_nil_r.
  unfold chop in C1. cbn [fst snd] in C1. change (wsub (r_end REG_EMPTY) (r_start REG_EMPTY)) with 0 in C1.
  assert (Hp : forall b, 0 <= b -> 0 < 2 ^ b) by (intros; apply Z.pow_pos_nonneg; lia).
  inversion C1; subst; [done|..]; exfalso.
  - match goal with H : block_ok _ |- _ => pose proof (bo_bits _ H) as Hb end. cbn [b_bits] in Hb. unfold seL4_MinUntypedBits in Hb. specialize (Hp b ltac:(lia)). lia.
  - specialize (Hp b ltac:(lia)). lia.
  - specialize (Hp b ltac:(lia)). lia.
Qed.

(** All blocks are apart: device blocks hold no reserved address, the others
    only free ones. *)
Lemma plan_sound res fr s full l : divided res fr s -> chopped_all full (untyped_plan res (freemem s)) l ->
  blocks_apart l /\ forall b, b ∈ l -> block_ok b /\ forall x, inside (block_region b) x -> if b_dev b then device res x else ordinary fr x.
Proof.
  intros D H. unfold untyped_plan in H. destruct (dv_free _ _ _ D) as [k Ef]. rewrite Ef in H. clear Ef.
  apply chopped_all_split in H as (l1 & l' & -> & C1 & H). apply chopped_all_split in H as (l2 & l'' & -> & C2 & H).
  inversion H as [|? ? l3 l4 C3 C4]; subst. clear H. unfold free_plan in C4. rewrite fmap_app in C4.
  apply chopped_all_split in C4 as (l5 & l6 & -> & C4 & C5). rewrite (lies_empty _ _ _ C5), app_nil_r.
  pose proof (dv_normal _ _ _ D) as Hn. pose proof (dv_top _ _ _ D) as Ht.
  assert (Hle : 0 <= last_end 0 res).
  { apply weak_last_ge, loose_weak, (loose_weaken (-1)); [by apply normal_loose|]. intros r Hr. pose proof (normal_above _ _ _ Hn Hr). lia. }
  apply (lies_gaps _ res 0) in C1; [|lia|exact Hn|apply D]. apply lies_top in C2; [|done|lia].
  assert (HA : lies true (device res) (l1 ++ l2)).
  { eapply lies_app; [exact C1|exact C2|intros x [? _]; lia|]. intros x [[_ Hx]|Hx]; [done|]. intros (r & Hr & Hx').
    pose proof (weak_last (-1) res r (loose_weak _ _ (normal_loose _ _ Hn)) Hr) as Hl. unfold inside in Hx'.
    assert (last_end (-1) res = last_end 0 res); [|lia]. unfold last_end. destruct (last res) eqn:El; [done|].
    apply last_None in El as ->. by apply elem_of_nil in Hr. }
  destruct (dv_image _ _ _ D) as [Hi Hif].
  assert (HB : lies false (ordinary fr) (l3 ++ l5)).
  { eapply (lies_app _ _ (inside img_boot) (covers fr)); [|apply (lies_free _ fr PPTR_BASE) in C4; [exact C4|unfold PPTR_BASE; lia|apply D|]|done|done].
    - destruct Hi as (I1 & I2 & I3). unfold PPTR_BASE, PPTR_TOP in *.
      eapply lies_mono; [|eapply lies_chop; [exact C3|unfold word_region, img_boot, is_word, word_modulus; cbn [r_start r_end]; lia]].
      intros x Hx. by apply ring_straight in Hx; [|unfold img_boot; cbn [r_start r_end]; lia..].
    - intros r Hr. pose proof (dv_window _ _ _ D r Hr). unfold PPTR_TOP in *. lia. }
  rewrite app_assoc. destruct HA as [A1 A2 A3], HB as [B1 B2 B3]. rewrite Forall_forall in A1, B1. split.
  - apply blocks_apart_app; [done|done|]. intros x Hx Hx'. by apply (divided_ordinary _ _ _ _ D (B3 x Hx')), A3.
  - intros b [Hb|Hb]%elem_of_app.
    + destruct (A1 b Hb) as [-> Hok]. split; [done|]. intros x Hx. apply A3. by exists b.
    + destruct (B1 b Hb) as [-> Hok]. split; [done|]. intros x Hx. apply B3. by exists b.
Qed.
End Untypeds.
