(* ===== verification/BootThm.v ===== *)
(** * Theorems on the memory at boot *)
From S2P Require Import Prelude Bytes Structures CapOps VSpace Sched Mdb Untyped Boot BootInv BootFree BootRoot BootInit BootUntyped BootGrant.
From stdpp Require Import base list gmap.
#[local] Open Scope Z_scope.

Section Theorems.
Context `{BP : BootPlatform}.

(** Reserving a region beside those that are: the array stays a list of
    disjoint regions in order, none of them adjacent, that covers the same
    addresses and the new ones.  The array being full is the only reason to
    refuse, and changes nothing. *)
Theorem reserve_region_spec l reg s : holds l s -> normal l -> 0 <= r_start reg <= r_end reg -> beside reg l ->
  wp (reserve_region reg) (fun ok s' => if ok then exists l', now_reserved l reg s s' l'
    else MAX_NUM_RESV_REG <= Z.of_nat (length l) + 1 /\ s' = s) s.
Proof.
  intros Hh Hn Hr Hb. apply (wp_reserve_region l); [done..| |].
  - intros s' l' H. by exists l'.
  - by intros H.
Qed.

(** What boot may rely on: the reserved regions given are sane and in the
    window, nothing of the memory at hand has been reserved yet, and the two
    arrays are large enough. *)
Record boot_ready (l available rsv : list region) (it_v_reg : region) (extra : Z) (s : ndks_boot_t) : Prop := {
  br_holds : holds l s;
  br_normal : normal l;
  br_available : forall r, r ∈ available -> 0 <= r_start r <= r_end r /\ r_end r < 2 ^ 64;
  br_rsv : forall r, r ∈ rsv -> in_window r;
  br_apart : forall x, covers l x -> ~ covers available x /\ ~ covers rsv (x + PPTR_BASE);
  br_free_room : Z.of_nat (length available) <= MAX_NUM_FREEMEM_REG /\ 0 < MAX_NUM_FREEMEM_REG /\
    Z.of_nat (length (pieces available rsv)) <= MAX_NUM_FREEMEM_REG;
  br_resv_room : Z.of_nat (length l + length (pieces available rsv) + length rsv) < MAX_NUM_RESV_REG;
  br_sizes : root_sizes (arch_get_n_paging it_v_reg) extra;
  br_fresh : rs_extra_bi (rootserver s) = 0
}.

(** The memory the kernel may hand out: available, in the window, and not
    reserved. *)
Definition usable (available rsv : list region) (x : Z) : Prop :=
  x < PPTR_TOP /\ covers available (x - PPTR_BASE) /\ ~ covers rsv x.

Lemma events_length evs : length evs = (length (reserved_of evs) + length (inserted_of evs))%nat.
Proof.
  induction evs as [|[r|r] evs IH]; [done| |]; cbn [length]; rewrite IH; unfold reserved_of, inserted_of; cbn; lia.
Qed.

Lemma pieces_ok available rsv : check_regions false None available = true -> check_regions true None rsv = true ->
  (forall r, r ∈ available -> 0 <= r_start r <= r_end r /\ r_end r < 2 ^ 64) -> (forall r, r ∈ rsv -> in_window r) ->
  carve (S (2 * (length (avail_regions available) + length rsv))) (avail_regions available) rsv = Some (pieces_events available rsv) /\
  reserved_of (pieces_events available rsv) = filter reg_nonempty rsv /\
  loose_from PPTR_BASE (pieces available rsv) /\
  (forall x, covers (pieces available rsv) x <-> usable available rsv x) /\
  events_apart (pieces_events available rsv) /\
  (forall e, e ∈ pieces_events available rsv -> in_window (event_region e) /\ reg_nonempty (event_region e)) /\
  (forall r, r ∈ pieces available rsv -> in_window r).
Proof.
  intros Ha Hr Hav Hrv. assert (Wa : weak_from 0 available) by (eapply check_regions_weak; [exact Ha|]; intros r Hin; by apply Hav).
  assert (Wr : weak_from PPTR_BASE rsv) by (eapply check_regions_weak; [exact Hr|]; intros r Hin; by apply Hrv).
  apply avail_weak in Wa; [|lia]. unfold pieces, pieces_events.
  destruct (carve_ok (S (2 * (length (avail_regions available) + length rsv))) (avail_regions available) rsv PPTR_BASE PPTR_BASE) as (evs & -> & [C1 C2 C3]);
    [pose proof (carve_need_le (avail_regions available) rsv); lia|done|done|]. cbn [default from_option id].
  assert (Hcov : forall x, covers (inserted_of evs) x <-> usable available rsv x) by (intros x; rewrite C3, avail_covers; unfold usable; tauto).
  assert (Hwin : forall r, r ∈ inserted_of evs -> reg_nonempty r /\ in_window r).
  { intros r Hin. pose proof (loose_above _ _ _ C2 Hin) as Hb. split; [unfold reg_nonempty; lia|].
    assert (Hlast : covers (inserted_of evs) (r_end r - 1)) by (exists r; unfold inside; split; [done|lia]).
    apply Hcov in Hlast as [Hlt _]. unfold in_window. lia. }
  split_and!; [done|done|done|done| | |by intros r Hin; apply Hwin].
  - apply (apart_intro evs PPTR_BASE PPTR_BASE); [rewrite C1; by apply loose_filter|done|]. intros x Hx. rewrite C1, covers_filter. by apply C3 in Hx as [_ ?].
  - intros e He%in_events. destruct e as [r|r]; cbn [event_region].
    + rewrite C1 in He. apply list_elem_of_filter in He as [Hne He]. by split; [apply Hrv|].
    + by destruct (Hwin r He).
Qed.

Lemma without_root_inside fr fr' start size max x :
  without_root fr fr' start size max -> start <= x < start + size -> covers fr x.
Proof.
  intros (low & r & high & -> & _ & H1 & H2 & _) Hx. exists r. unfold inside. split; [apply elem_of_app; right; left|lia].
Qed.

(** What the events reserve. *)
Lemma events_reserve available rsv x : reserved_of (pieces_events available rsv) = filter reg_nonempty rsv ->
  (exists e, e ∈ pieces_events available rsv /\ inside (pa (event_region e)) x) <->
  covers rsv (x + PPTR_BASE) \/ covers (pieces available rsv) (x + PPTR_BASE).
Proof.
  intros Er. rewrite <- covers_filter, <- Er. unfold covers, pieces, reserved_of, inserted_of. setoid_rewrite list_elem_of_omap.
  setoid_rewrite inside_pa. split.
  - intros ([r|r] & He & H); [left|right]; exists r; (split; [|done]); by eexists.
  - intros [(r & ([?|?] & He & E) & H)|(r & ([?|?] & He & E) & H)]; simplify_eq; by eexists.
Qed.

(** The last part: finding the place of the root server's objects. *)
Definition place_root (it_v_reg : region) (extra : Z) : B bool :=
  let* last := get_freemem (MAX_NUM_FREEMEM_REG - 1) in
  if negb (is_reg_empty last) then ret false
  else
    let* i := skip_empty (Z.to_nat MAX_NUM_FREEMEM_REG) (MAX_NUM_FREEMEM_REG - 1) in
    fit_loop (Z.to_nat MAX_NUM_FREEMEM_REG) i (calculate_rootserver_size it_v_reg extra) (rootserver_max_size_bits extra) it_v_reg extra.

Lemma wp_place_root fr it_v_reg extra s (n := arch_get_n_paging it_v_reg) (max := rootserver_max_size_bits extra) (Q : bool -> ndks_boot_t -> Prop) :
  free_holds fr s -> 0 < MAX_NUM_FREEMEM_REG -> (forall r, r ∈ fr -> in_window r) -> root_sizes n extra -> rs_extra_bi (rootserver s) = 0 ->
  (forall s' fr' start, root_done it_v_reg extra s s' fr' start -> without_root fr fr' start (root_size n extra) max -> Q true s') ->
  (forall s', boot_slots s' = boot_slots s ->
     Z.of_nat (length fr) = MAX_NUM_FREEMEM_REG \/ (forall r, r ∈ fr -> ~ fits (root_size n extra) max r) -> Q false s') ->
  wp (place_root it_v_reg extra) Q s.
Proof.
  intros [[k Ef] Hs3 Hne] Hf1 Hwin Hsz Hx Hok Hno. unfold place_root. rewrite Ef, length_app, length_replicate in Hs3.
  wp_struct. destruct k as [|k].
  { (* the array is full *)
    rewrite app_nil_r in Ef. destruct fr as [|r fr' _] using rev_ind; [cbn in Hs3; lia|].
    rewrite length_app in Hs3. cbn [length] in Hs3. replace (MAX_NUM_FREEMEM_REG - 1) with (Z.of_nat (length fr')) by lia.
    apply (wp_get_freemem s _ r); [rewrite Ef; by apply list_lookup_middle|]. unfold is_reg_empty.
    assert (reg_nonempty r) as Hr by (apply Hne, elem_of_app; right; left). unfold reg_nonempty in Hr.
    rewrite (proj2 (Z.eqb_neq _ _)) by lia. cbn [negb]. wp_struct. apply Hno; [done|]. left. rewrite length_app. cbn [length]. lia. }
  replace (MAX_NUM_FREEMEM_REG - 1) with (Z.of_nat (length (fr ++ replicate k REG_EMPTY))) by (rewrite length_app, length_replicate; lia).
  assert (Ef' : freemem s = (fr ++ replicate k REG_EMPTY) ++ REG_EMPTY :: []) by (rewrite Ef, <- app_assoc; f_equal; by rewrite replicate_S_end).
  apply (wp_get_freemem s _ REG_EMPTY); [rewrite Ef'; by apply list_lookup_middle|]. change (is_reg_empty REG_EMPTY) with true. cbn [negb].
  replace (Z.of_nat (length (fr ++ replicate k REG_EMPTY))) with (Z.of_nat (length fr) + Z.of_nat (S k) - 1) by (rewrite length_app, length_replicate; lia).
  wp_struct. apply (wp_skip_empty fr (S k) _ []); [by rewrite app_nil_r|done|lia|].
  destruct (calculate_root_size it_v_reg extra Hsz) as [-> _].
  destruct fr as [|r fr' _] using rev_ind.
  { replace (Z.of_nat (length (@nil region)) - 1) with (-1) by done.
    destruct (Z.to_nat MAX_NUM_FREEMEM_REG) as [|m]; cbn [fit_loop Z.leb Z.compare]; wp_struct; apply Hno; try done; right; by intros r ?%elem_of_nil. }
  replace (Z.of_nat (length (fr' ++ [r])) - 1) with (Z.of_nat (length fr')) by (rewrite length_app; cbn; lia).
  rewrite length_app in Hs3. cbn [length] in Hs3.
  apply (wp_fit_loop it_v_reg extra Hsz fr' _ r [] k); [lia|rewrite Ef, <- app_assoc; done|rewrite Ef, !length_app, length_replicate; cbn [length]; lia|done|done|done|].
  intros s4 Es Hn. apply Hno; [done|]. by right.
Qed.

Lemma without_root_window fr fr' start size max : without_root fr fr' start size max -> 0 <= size ->
  (forall r, r ∈ fr -> in_window r) -> forall r, r ∈ fr' -> in_window r.
Proof.
  intros (low & r0 & high & -> & _ & H1 & H2 & ->) Hs Hw r. rewrite elem_of_app, !elem_of_cons.
  assert (H0 : in_window r0) by (apply Hw, elem_of_app; right; left). unfold in_window in *.
  intros [H|[->|[->|H]]]; [apply Hw, elem_of_app; by left|cbn; lia|cbn; lia|apply Hw, elem_of_app; right; by right].
Qed.

(** The outcome: the free regions [fr] and the memory of the root server's
    objects, from [start] on, laid out without gaps, are the available
    addresses that are not reserved, without overlap; and all of it is recorded
    as reserved, in [l']. *)
Record freemem_ready (l available rsv : list region) (n extra : Z) (s s' : ndks_boot_t) (fr : list region) (start : Z) (l' : list region) : Prop := {
  fy_free : exists k, freemem s' = fr ++ replicate k REG_EMPTY;
  fy_size : Z.of_nat (length (freemem s')) = MAX_NUM_FREEMEM_REG;
  fy_ordered : weak_from PPTR_BASE fr;
  fy_window : forall r, r ∈ fr -> in_window r;
  fy_layout : root_layout (rootserver s') n extra start (start + root_size n extra);
  fy_covers : forall x, covers fr x <-> usable available rsv x /\ ~ (start <= x < start + root_size n extra);
  fy_root : forall x, start <= x < start + root_size n extra -> usable available rsv x;
  fy_holds : holds l' s';
  fy_normal : normal l';
  fy_reserved : forall x, covers l' x <-> covers l x \/ covers rsv (x + PPTR_BASE) \/ usable available rsv (x + PPTR_BASE);
  fy_slots : boot_slots s' = boot_slots s /\ slot_pos_cur s' = slot_pos_cur s
}.

(** Why it may fail. *)
Definition no_freemem (available rsv : list region) (n extra : Z) : Prop :=
  check_available_memory available = false \/ check_reserved_memory rsv = false \/
  Z.of_nat (length (pieces available rsv)) = MAX_NUM_FREEMEM_REG \/
  forall r, r ∈ pieces available rsv -> ~ fits (root_size n extra) (rootserver_max_size_bits extra) r.

Lemma wp_init_freemem l available rsv it_v_reg extra s (n := arch_get_n_paging it_v_reg) (Q : bool -> ndks_boot_t -> Prop) :
  boot_ready l available rsv it_v_reg extra s ->
  (forall s' fr start l', freemem_ready l available rsv n extra s s' fr start l' -> Q true s') ->
  (forall s', boot_slots s' = boot_slots s -> no_freemem available rsv n extra -> Q false s') ->
  wp (init_freemem available rsv it_v_reg extra) Q s.
Proof.
  intros [Hh Hn Hav Hrv Hap [Hf0 [Hf1 Hfree]] Hresv Hsz Hx] Hok Hno. unfold init_freemem, no_freemem in *.
  destruct (check_available_memory available) eqn:Ca; cbn [negb]; [|wp_struct; by apply Hno; auto].
  destruct (check_reserved_memory rsv) eqn:Cr; cbn [negb]; [|wp_struct; by apply Hno; auto].
  unfold check_available_memory in Ca. destruct (length available =? 0)%nat; [done|].
  destruct (pieces_ok available rsv Ca Cr Hav Hrv) as (Ec & Er & Hl & Hcov & Hapt & Hw & Hwin).
  wp_struct. wp_struct. wp_struct. wp_struct; [by apply Z.leb_le|].
  cbv zeta.
  assert (Eav : (fun p => mk_region (ceiling_kernel_window (r_start (paddr_to_pptr_reg p)))
      (ceiling_kernel_window (r_end (paddr_to_pptr_reg p)))) <$> available = avail_regions available).
  { unfold avail_regions. apply list_fmap_ext. intros i r Hi%list_elem_of_lookup_2. destruct (Hav r Hi).
    unfold paddr_to_pptr_reg, to_pptr, clip. cbn. by rewrite !ceiling_pptr by lia. }
  rewrite Eav. set (s1 := set_freemem _ s). wp_struct.
  assert (Hm : mem l [] s1).
  { split; [by destruct Hh|done|]. split; [by eexists| |by intros r ?%elem_of_nil]. unfold s1. cbn. rewrite length_replicate. lia. }
  eapply wp_mono; [apply (wp_carve_loop _ _ _ (pieces_events available rsv) s1 (fun _ s2 => exists l', after_events l [] (pieces_events available rsv) s1 s2 l')); [exact Ec|]|].
  { apply (wp_run_events _ l []); [done|done|done| | |exact Hfree|by eauto].
    - intros e x He%in_events Hx1 Hx2. destruct (Hap x Hx2) as [N1 N2]. apply inside_pa in Hx1. destruct e as [r|r]; cbn [event_region] in *.
      + rewrite Er in He. apply list_elem_of_filter in He as [_ He]. apply N2. by exists r.
      + assert (Hu : usable available rsv (x + PPTR_BASE)) by (apply Hcov; by exists r). destruct Hu as (_ & Hu & _).
        apply N1. by replace (x + PPTR_BASE - PPTR_BASE) with x in Hu by lia.
    - rewrite events_length, Er. pose proof (length_filter reg_nonempty rsv) as Hfl. unfold pieces in *. lia. }
  intros [av rv] s2 H2. cbn [fst snd] in H2. cbv beta iota. apply wp_seq2. eapply wp_mono; [exact H2|].
  intros [] s3 (l' & [M3 C3 A3]). cbn [app] in M3. change (inserted_of (pieces_events available rsv)) with (pieces available rsv) in *.
  destruct M3 as [[[junk J] J2 J3 J4] Hn3 Hf3]. assert (Hsl : boot_slots s3 = boot_slots s) by (by rewrite (ao_slots _ _ A3)).
  apply (wp_place_root (pieces available rsv)); [done|done|done|done|by rewrite (ao_root _ _ A3)| |].
  - intros s4 fr4 start (D1 & D2 & D3 & D4 & D5 & D6 & D7) Hwr. apply (Hok s4 fr4 start l').
    destruct (calculate_root_size it_v_reg extra Hsz) as [_ Hsize]. destruct Hf3 as [_ Hs3 _].
    destruct (without_root_spec PPTR_BASE _ fr4 start _ _ Hl (Z.lt_le_incl _ _ (proj1 Hsize)) Hwr) as [W1 W2].
    split; [done|by rewrite D6|done| |done|intros x; by rewrite W2, Hcov| | |done| |].
    + eapply without_root_window; [exact Hwr|lia|done].
    + intros x Hx'. apply Hcov. eapply without_root_inside; [exact Hwr|exact Hx'].
    + split; [exists junk; congruence|congruence|congruence|done].
    + intros x. rewrite C3, (events_reserve available rsv x Er). apply or_iff_compat_l, or_iff_compat_l, Hcov.
    + split; [congruence|]. rewrite D3, (ao_pos _ _ A3). done.
  - intros s4 Es Hwhy. apply Hno; [congruence|]. tauto.
Qed.


(** ** Untyped memory *)

(** The blocks [l] are untyped capabilities in the next slots of the root
    CNode, and described in the boot information. *)
Record provided (root : cap) (l : list ublock) (s s' : ndks_boot_t) : Prop := {
  pv_ok : forall b, b ∈ l -> block_ok b;
  pv_apart : blocks_apart l;
  pv_pos : slot_pos_cur s' = slot_pos_cur s + Z.of_nat (length l);
  pv_slots : forall i b, l !! i = Some b ->
    boot_slots s' !! SLOT_PTR (cap_get_capPtr root) (slot_pos_cur s + Z.of_nat i) = Some (boot_cte (untyped_cap_of b));
  pv_others : forall p,
    (forall i, 0 <= i < Z.of_nat (length l) -> p <> SLOT_PTR (cap_get_capPtr root) (slot_pos_cur s + i)) ->
    boot_slots s' !! p = boot_slots s !! p;
  pv_descs : forall i b, l !! i = Some b -> bi_untypedList (bi_frame s') !! Z.of_nat i = Some (desc_of b)
}.

(** No address of a region is lost, unless its ends are unaligned. *)
Definition all_given (l : list ublock) (fr : list region) : Prop :=
  forall r x, r ∈ fr -> aligned (r_start r) 4 -> aligned (r_end r) 4 -> inside r x ->
    exists b, b ∈ l /\ b_dev b = false /\ inside (block_region b) x.

Lemma wp_untypeds root res fr s (Q : bool -> ndks_boot_t -> Prop) : divided res fr s ->
  0 <= slot_pos_cur s < 2 ^ 59 -> 0 <= CONFIG_ROOT_CNODE_SIZE_BITS <= 59 ->
  (forall l s', provided root l s s' -> rootserver s' = rootserver s ->
     (forall b x, b ∈ l -> inside (block_region b) x -> if b_dev b then device res x else ordinary fr x) ->
     (~ table_full (slot_pos_cur s) s' -> all_given l (img_boot :: fr)) -> Q true s') ->
  (forall s', Q false s') -> wp (create_untypeds root) Q s.
Proof.
  intros D Hp Hbits Hok Hno. destruct (dv_holds _ _ _ D) as [Hr Hc _ _].
  apply (wp_create_untypeds root res); [lia|done|done|apply D|by eapply divided_words|apply (dv_image _ _ _ D)| |done].
  intros s' (l & [G1 G2 G3 G4 G5 G6] & C). destruct (plan_sound _ _ _ _ _ D C) as [A1 A2]. rewrite BIT_pow in G2 by (unfold wordBits; lia).
  assert (2 ^ CONFIG_ROOT_CNODE_SIZE_BITS <= 2 ^ 59) by (apply Z.pow_le_mono_r; lia).
  assert (Hroom : slot_pos_cur s + Z.of_nat (length l) <= 2 ^ 59) by (destruct G2 as [->|G2]; [cbn|]; lia).
  apply (Hok l s').
  - split; [by intros b Hb; apply A2|done|done|..].
    + intros i b Hi. rewrite G3. by apply add_slots_lookup; [lia|..].
    + intros p Hp'. rewrite G3. by apply add_slots_frame.
    + intros i b Hi. rewrite G4, Z.sub_diag. by apply (add_descs_lookup l 0).
  - done.
  - intros b x Hb Hx. destruct (A2 b Hb) as [_ H2]. by apply H2.
  - intros Hnf r x Hin Ha He Hx. pose proof (divided_words _ _ _ D) as Hw. destruct (dv_free _ _ _ D) as [k Ef].
    rewrite Ef in *. apply Forall_app in Hw as [Hw _]. rewrite Forall_forall in Hw.
    assert (Hr' : (false, r) ∈ untyped_plan res (fr ++ replicate k REG_EMPTY) /\ word_region r /\ 0 <= r_start r <= r_end r).
    { unfold untyped_plan. rewrite !elem_of_app, elem_of_cons. apply elem_of_cons in Hin as [->|Hin].
      - destruct (proj1 (dv_image _ _ _ D)) as (I1 & I2 & I3). unfold PPTR_BASE, PPTR_TOP, word_region, img_boot, is_word, word_modulus in *. cbn [r_start r_end].
        split; [by right; right; left|lia].
      - pose proof (weak_above _ _ _ (dv_ordered _ _ _ D) Hin). unfold PPTR_BASE in *. split_and!; [|by apply Hw|lia|lia].
        right; right; right. unfold free_plan. rewrite fmap_app. apply elem_of_app. left. by apply list_elem_of_fmap_2. }
    destruct Hr' as (Hm & Hwr & Hord). eapply chopped_all_complete; [exact C|done|exact Hm|done|done|done|].
    apply ring_straight; [done|destruct Hwr as [_ [_ Hwr]]; exact Hwr|done].
Qed.

(** C16: Creating the untyped capabilities at boot: no assertion fails, and the
    loops end.  On success every capability provided is aligned to its size,
    which is between 16 bytes and 2^47; they sit in consecutive slots of the
    root CNode, from the first free one on, and every other slot of the system
    is unchanged; no two of them overlap; device memory contains no reserved
    address, and ordinary memory only free regions and the boot part of the
    kernel image.  Of a region among these whose two ends are 16-byte aligned
    nothing is lost, as long as there is room in the boot information. *)
Theorem create_untypeds_spec root res fr s : divided res fr s ->
  0 <= slot_pos_cur s < 2 ^ 59 -> 0 <= CONFIG_ROOT_CNODE_SIZE_BITS <= 59 ->
  wp (create_untypeds root) (fun ok s' => ok = true -> exists l, provided root l s s' /\
    (forall b x, b ∈ l -> inside (block_region b) x -> if b_dev b then device res x else ordinary fr x) /\
    (~ table_full (slot_pos_cur s) s' -> all_given l (img_boot :: fr))) s.
Proof.
  intros D Hp Hb. apply (wp_untypeds root res fr); [done..| |done]. intros l s' P _ Hin Hall _. by exists l.
Qed.

(** ** Both together *)

(** The linker's part: the kernel image is in the window and given as
    reserved. *)
Record image_reserved (l rsv : list region) : Prop := {
  ir_image : image_ok;
  ir_boot : forall x, inside img_boot x -> covers rsv x;
  ir_words : forall r, r ∈ l -> r_end r < 2 ^ 64;
  ir_top : 0 <= CONFIG_PADDR_USER_DEVICE_TOP < 2 ^ 64
}.

Lemma ready_divided l available rsv n extra s s' fr start l' :
  freemem_ready l available rsv n extra s s' fr start l' -> image_reserved l rsv -> (forall r, r ∈ rsv -> in_window r) ->
  divided l' fr s'.
Proof.
  intros [F1 F2 F3 F4 F5 F6 F7 F8 F9 F10 F11] [I1 I2 I3 I4] Hrsv. split; try done.
  - intros r Hr. pose proof (normal_above _ _ _ F9 Hr) as Hb.
    assert (Hc : covers l' (r_end r - 1)) by (exists r; unfold inside; split; [done|lia]).
    apply F10 in Hc as [(r0 & Hr0 & Hx)|[(r0 & Hr0 & Hx)|[Hx _]]]; unfold inside in *.
    + specialize (I3 r0 Hr0). lia.
    + destruct (Hrsv r0 Hr0). unfold PPTR_TOP, PPTR_BASE in *. lia.
    + unfold PPTR_TOP, PPTR_BASE in *. lia.
  - intros r Hr. by destruct (F4 r Hr).
  - intros x [H|H]; apply F10; right; [right; by apply F6 in H as [? _]|left; by apply I2].
  - split; [done|]. intros x Hx [(_ & _ & Hn) _]%F6. by apply Hn, I2.
Qed.

Lemma provided_same root l s s1 s' : boot_slots s1 = boot_slots s -> slot_pos_cur s1 = slot_pos_cur s ->
  provided root l s1 s' -> provided root l s s'.
Proof. intros E1 E2 [P1 P2 P3 P4 P5 P6]. rewrite E1, E2 in *. by split. Qed.

(** C14: All memory at boot: after the memory has been divided and the untyped
    capabilities created, no two of these overlap; ordinary memory is either
    the boot part of the kernel image or memory that is available, not
    reserved and not used by the root server's objects; device memory holds no
    address that was reserved, nor any that was available to the kernel. *)
Theorem boot_memory root l available rsv it_v_reg extra s (n := arch_get_n_paging it_v_reg) :
  boot_ready l available rsv it_v_reg extra s -> image_reserved l rsv ->
  0 <= slot_pos_cur s < 2 ^ 59 -> 0 <= CONFIG_ROOT_CNODE_SIZE_BITS <= 59 ->
  wp (let* ok := init_freemem available rsv it_v_reg extra in if ok then create_untypeds root else ret false)
    (fun ok s' => ok = true -> exists start bl, provided root bl s s' /\
      root_layout (rootserver s') n extra start (start + root_size n extra) /\
      forall b x, b ∈ bl -> inside (block_region b) x ->
        if b_dev b then ~ covers l (addrFromPPtr x) /\ ~ covers rsv (addrFromPPtr x + PPTR_BASE) /\
                        ~ usable available rsv (addrFromPPtr x + PPTR_BASE)
        else inside img_boot x \/ usable available rsv x /\ ~ (start <= x < start + root_size n extra)) s.
Proof.
  intros Hr Hi Hp Hb. wp_struct. apply (wp_init_freemem l); [done| |intros s' _ _; by apply wp_ret].
  intros s1 fr start l' F. pose proof (ready_divided _ _ _ _ _ _ _ _ _ _ F Hi (br_rsv _ _ _ _ _ _ Hr)) as D.
  destruct (fy_slots _ _ _ _ _ _ _ _ _ _ F) as [E1 E2]. apply (wp_untypeds root l' fr); [done|by rewrite E2|done| |done].
  intros bl s' P Er Hin _ _. exists start, bl. split_and!; [by eapply provided_same|rewrite Er; apply F|].
  intros b x Hbl Hx. specialize (Hin b x Hbl Hx). destruct (b_dev b).
  - unfold device in Hin. rewrite (fy_reserved _ _ _ _ _ _ _ _ _ _ F) in Hin. tauto.
  - destruct Hin as [H|H]; [by left|right]. by apply (fy_covers _ _ _ _ _ _ _ _ _ _ F).
Qed.
End Theorems.

(** ** An example platform *)
Definition ex_platform : BootPlatform := {|
  MAX_NUM_RESV_REG := 8; MAX_NUM_FREEMEM_REG := 6; CONFIG_ROOT_CNODE_SIZE_BITS := 13;
  CONFIG_MAX_NUM_BOOTINFO_UNTYPED_CAPS := 230; CONFIG_PADDR_USER_DEVICE_TOP := 0x1000000000;
  KERNEL_ELF_BASE := PPTR_BASE + 0x80000; KERNEL_ELF_TOP := PPTR_BASE + 0xc0000; ki_boot_end := PPTR_BASE + 0x90000 |}.

Section Example_.
#[local] Existing Instance ex_platform.

Definition ex_rs : rootserver_mem_t := mk_rootserver 0 0 0 0 0 0 0 REG_EMPTY.
Definition ex_boot (res : list region) (count : Z) (free : list region) : ndks_boot_t :=
  mk_boot_state res count free 16 (mk_bi 0 1 0 0 REG_EMPTY REG_EMPTY ∅) REG_EMPTY ex_rs ∅ [].
Definition ex_start : ndks_boot_t := ex_boot (replicate 8 REG_EMPTY) 0 (replicate 6 REG_EMPTY).
Definition ex_available : list region := [mk_region 0 0x400000; mk_region 0x800000 0x900000].
Definition ex_rsv : list region := [mk_region (PPTR_BASE + 0x80000) (PPTR_BASE + 0xc0000); mk_region (PPTR_BASE + 0x3f0000) (PPTR_BASE + 0x3f8000)].
Definition ex_v : region := mk_region 0x400000 0x500000.
Definition ex_root : cap := cap_cnode_cap 13 51 0 (PPTR_BASE + 0x800000).

(** The boot code runs to the end on it: 8 MiB of memory become untyped
    capabilities, in the slots from 16 on. *)
Definition ex_run : option (bool * ndks_boot_t) :=
  (let* ok := init_freemem ex_available ex_rsv ex_v 0 in if ok then create_untypeds ex_root else ret false) ex_start.

Example ex_boot_runs :
  (match ex_run with Some (ok, s') => Some (ok, slot_pos_cur s', rs_cnode (rootserver s')) | None => None end) =
  Some (true, 47, PPTR_BASE + 0x880000).
Proof. vm_compute. reflexivity. Qed.

Lemma ex_pieces : length (pieces ex_available ex_rsv) = 4%nat.
Proof. vm_compute. reflexivity. Qed.

Lemma ex_root_sizes : root_sizes (arch_get_n_paging ex_v) 0.
Proof.
  assert (E : arch_get_n_paging ex_v = 3) by (vm_compute; reflexivity). rewrite E.
  split; [change cnode_size_bits with 18; lia|by left|lia].
Qed.

Lemma ex_holds : holds [] ex_start.
Proof. split; [by exists (replicate 8 REG_EMPTY)|done|done|done]. Qed.

Lemma ex_ready : boot_ready [] ex_available ex_rsv ex_v 0 ex_start.
Proof.
  split; [apply ex_holds|done|..].
  - intros r [->|[->|H]%elem_of_cons]%elem_of_cons; cbn [r_start r_end]; [lia|lia|by apply elem_of_nil in H].
  - intros r [->|[->|H]%elem_of_cons]%elem_of_cons; unfold in_window, PPTR_BASE, PPTR_TOP; cbn [r_start r_end]; [lia|lia|by apply elem_of_nil in H].
  - by intros x H%covers_nil.
  - rewrite ex_pieces. cbn. lia.
  - rewrite ex_pieces. cbn. lia.
  - apply ex_root_sizes.
  - done.
Qed.

Lemma ex_image : image_reserved [] ex_rsv.
Proof.
  split; [unfold image_ok; cbn; unfold PPTR_BASE, PPTR_TOP; lia| |by intros r H%elem_of_nil|cbn; lia].
  intros x Hx. exists (mk_region (PPTR_BASE + 0x80000) (PPTR_BASE + 0xc0000)). split; [left|].
  unfold inside, img_boot in *. cbn [r_start r_end KERNEL_ELF_BASE ki_boot_end ex_platform] in *. lia.
Qed.


Lemma boot_memory_witness :
  wp (let* ok := init_freemem ex_available ex_rsv ex_v 0 in if ok then create_untypeds ex_root else ret false)
    (fun ok s' => ok = true -> exists bl, provided ex_root bl ex_start s') ex_start.
Proof.
  eapply wp_mono; [apply (boot_memory ex_root [] ex_available ex_rsv ex_v 0 ex_start); [apply ex_ready|apply ex_image|cbn; lia|cbn; lia]|].
  intros ok s' H Hok. destruct (H Hok) as (start & bl & P & _). by exists bl.
Defined.

(** Memory already divided: one free region behind the kernel image. *)
Definition ex_res : list region := [mk_region 0x80000 0x100000].
Definition ex_fr : list region := [mk_region (PPTR_BASE + 0xc0000) (PPTR_BASE + 0x100000)].
Definition ex_divided_state : ndks_boot_t := ex_boot (ex_res ++ replicate 7 REG_EMPTY) 1 (ex_fr ++ replicate 5 REG_EMPTY).

Lemma ex_divided : divided ex_res ex_fr ex_divided_state.
Proof.
  split.
  - split; [by exists (replicate 7 REG_EMPTY)|done|done|done].
  - cbn. lia.
  - intros r ->%list_elem_of_singleton. cbn. lia.
  - by exists 5%nat.
  - done.
  - cbn. lia.
  - intros r ->%list_elem_of_singleton. unfold PPTR_BASE, PPTR_TOP. cbn [r_start r_end]. lia.
  - intros x Hx. exists (mk_region 0x80000 0x100000). split; [left|].
    destruct Hx as [(r & ->%list_elem_of_singleton & Hx)|Hx]; unfold inside, img_boot in *;
      cbn [r_start r_end KERNEL_ELF_BASE ki_boot_end ex_platform] in *; lia.
  - split; [apply ex_image|]. intros x Hx (r & ->%list_elem_of_singleton & Hx'). unfold inside, img_boot in *.
    cbn [r_start r_end KERNEL_ELF_BASE ki_boot_end ex_platform] in *. lia.
  - cbn. lia.
Qed.

Lemma reserve_region_spec_witness :
  wp (reserve_region (mk_region 0x100000 0x200000)) (fun ok s' => if ok then exists l', now_reserved ex_res (mk_region 0x100000 0x200000) ex_divided_state s' l'
    else 8 <= Z.of_nat (length ex_res) + 1 /\ s' = ex_divided_state) ex_divided_state.
Proof.
  apply (reserve_region_spec ex_res (mk_region 0x100000 0x200000) ex_divided_state); [apply ex_divided|cbn; lia|cbn; lia|].
  intros r ->%list_elem_of_singleton. left. cbn. lia.
Defined.

Lemma create_untypeds_spec_witness :
  wp (create_untypeds ex_root) (fun ok s' => ok = true -> exists l, provided ex_root l ex_divided_state s' /\
    (forall b x, b ∈ l -> inside (block_region b) x -> if b_dev b then device ex_res x else ordinary ex_fr x)) ex_divided_state.
Proof.
  eapply wp_mono; [apply (create_untypeds_spec ex_root ex_res ex_fr ex_divided_state); [apply ex_divided|cbn; lia|cbn; lia]|].
  intros ok s' H Hok. destruct (H Hok) as (l & P & Hin & _). by exists l.
Defined.
End Example_.
